(* ===== verification/_CoqProject ===== *)
-Q . S2P
Prelude.v
Bits.v
Bitmap.v
BookTypes.v
Orders.v
Prices.v
PricesInv.v
PricesAdd.v
PricesErase.v
PricesRead.v
Book.v
BookInv.v
BookOps.v
BookTop.v
PricesProps.v
Probe.v
Directory.v
Manager.v
ManagerInv.v
ManagerProps.v
Gap.v
Protocol.v
Parser.v
ParserInv.v
ParserProps.v
Decoder.v
DecoderInv.v
DecoderProps.v
Replay.v
ReplayInv.v
ReplayProps.v
SessionProps.v
Latency.v
Schedule.v
Engine.v
EngineProps.v
Sha.v
Capacity.v
Manifest.v
ManifestProps.v
Dpdk.v
DpdkProps.v
Udp.v
UdpProps.v
Handoff.v
HandoffProps.v
SenderConfig.v
SenderConfigProps.v
Sender.v
SenderProps.v
SenderSession.v
Arena.v
ArenaProps.v
Footprint.v
EngineMain.v
EngineMainProps.v
Profile.v
ProfileInv.v
ProfileClean.v
ProfileSteps.v
ProfileBodies.v
ProfileText.v
ProfileRuns.v
ProfileSim.v
ProfileDay.v
ProfileProps.v
Effects.v
Sockets.v
SocketsProps.v
DpdkSetup.v
DpdkSetupProps.v
LongDouble.v
Time.v
Percentile.v
SenderMain.v
SenderMainProps.v
