(* ===== verification/Prelude.v ===== *)
(** * Verification of the astra feed engine

    The program receives a Nasdaq TotalView-ITCH 5.0 feed over MoldUDP64 and keeps an
    order book per security.  A datagram goes through these parts:

<<
      MoldUdpDecoder::processPacket     session, sequencing, gap recovery
        GapBuffer                       packets that arrived ahead of a gap
        ItchParser                      one ITCH message; phases of the day
          StockDirectory                locate <-> ticker
          BookManager                   one book descriptor per locate
            OrderBook                   the mutations of one book
              OrderTable                order reference -> resident record
              PriceLevelStore           paged price levels, cached best prices
                PriceBitmap             three-level occupancy bitmap
>>

    ** Files

    - [Prelude]: machine integers, zero-initialised arenas, tactics, list and map lemmas.
    - [Bits], [Bitmap] (Module [PriceBitmap]): [utils/PriceBitmap.hpp].
    - [BookTypes]: [MutationResult], [OrderState], [OrderSide], price parts, locates.
    - [Orders] (Module [OrderTable]): [book/OrderTable.{hpp,cpp}].
    - [Prices] (Module [PriceLevelStore]): [book/PriceLevelStore.{hpp,cpp}];
      [PricesInv] has its representation invariant, [PricesAdd], [PricesErase] and
      [PricesRead] the effect of its operations, [PricesProps] its properties.
    - [Book] (Module [OrderBook]): [book/OrderBook.{hpp,cpp}]; [BookInv], [BookOps] and
      [BookTop] have the invariant and the effect of each member.
    - [Probe]: circular linear probing, shared by [Directory] and [Gap].
    - [Directory] (Module [StockDirectory]): [symbol/StockDirectory.hpp].
    - [Manager] (Module [BookManager]): [book/BookManager.{hpp,cpp}]; [ManagerInv] and
      [ManagerProps] have its invariant and properties.
    - [Gap] (Class [RecoveryBuffer], Module [GapBuffer]): [sequencing/GapBuffer.hpp].
    - [Protocol]: byte order, the ITCH length table, MoldUDP64 control packets.
    - [Parser] (Module [ItchParser]): [parser/ItchParser.{hpp,cpp}]; [ParserInv],
      [ParserProps].
    - [Decoder] (Class [MessageSink], Module [MoldUdpDecoder]):
      [codec/MoldUdpDecoder.{hpp,cpp}] and [channel/ChannelState.hpp]; [DecoderInv],
      [DecoderProps].
    - [Replay] (Module [ItchMoldUdpSource]): [replay/itch/ItchMoldUdpSource.{hpp,cpp}];
      [ReplayInv] and [ReplayProps] have the packets it emits and the files it accepts,
      [SessionProps] a loss-free session of source and decoder.
    - [Latency] (Modules [LatencyRecorder], [StageLatencyRecorder]): [metrics/].
    - [Schedule] (a Module per class): [protocol/MoldUdpControlSchedule.hpp].
    - [Engine] (Classes [IMarketDataSource], [IPacketProcessor], Module
      [MarketDataEngine]): [engine/MarketDataEngine.{hpp,cpp}]; [EngineProps].
    - [Sha] (Module [Sha256]): [utils/Sha256.{hpp,cpp}].
    - [Capacity] (Module [BookCapacity]): the storage planning of
      [book/BookManager.cpp]; [Manifest], [ManifestProps]: [book/BookCapacityProfile.cpp].
    - [Dpdk] (Module [DpdkReceiver]), [DpdkProps]: [source/DpdkReceiver.cpp].
    - [Udp] (a Module per class), [UdpProps]: the UDP receivers of [source/].
    - [Handoff] (Module [RedundantUdpSender]), [HandoffProps]: the two sending threads of
      [apps/itch_moldudp_sender_main.cpp]; [SenderConfig], [SenderConfigProps] its command
      line and packet inspection, [Sender] its transmission, [SenderProps] and
      [SenderSession] what reaches the lines and a decoder behind them.
    - [Arena] (a Module per class), [ArenaProps]: [utils/MappedArray.hpp],
      [utils/MappedObjectArray.hpp], [utils/FixedMmapArray.hpp].
    - [EngineMain] (Modules [CpuAffinity], [EngineMain]): [utils/CpuAffinity.cpp] and
      [apps/md_engine_main.cpp]; [EngineMainProps], with [Footprint] on what a
      mutation may touch and the failure counter it checks.
    - [Profile]: [benchmarks/ItchTraceProfile.cpp]; [ProfileInv] has the record loop,
      [ProfileClean], [ProfileSteps] and [ProfileBodies] what clean counters say of each
      operation and message, [ProfileText], [ProfileRuns], [ProfileSim] and [ProfileDay]
      the simulation of a certified trace by the parser, [ProfileProps] its properties.
    - [Effects] (the monad [Prog] and its [wp]): calls that change a state and may throw.
    - [Sockets], [SocketsProps]: constructors and destructors of the UDP receivers and of
      [source/UdpSender.cpp]; [DpdkSetup], [DpdkSetupProps]: [initialize] and the
      destructor of [source/DpdkReceiver.cpp].
    - [LongDouble]: rounding to the nearest value with a 53-bit or 64-bit significand.
      [Time]: [core/Time.cpp]; [Percentile]: percentiles of [metrics/LatencyRecorder.cpp].
    - [SenderMain], [SenderMainProps]: [main] of [apps/itch_moldudp_sender_main.cpp], its
      lines, its report and the scaling of delays.

    ** State and operations

    A C++ class is a Record [t] of its members and a function per member function that
    returns the result and the new state.  Integers are [Z] and every operation that can
    leave the range of its type is followed by the truncation of that type ([u16], [u32],
    [u64]).  An arena ([MappedArray], [FixedMmapArray], [std::array]) is a finite map in
    which an absent index is the zero record, as a fresh anonymous mapping is; a pointer
    into an arena is its index, and a write through it updates the map, so aliasing
    between a lookup and a later mutation is kept.  The books share one order table and
    one price store: [OrderBook.env] is one descriptor with both stores.  Exceptions of
    constructors are [None].  Console output is left out.

    ** What the theorems show

    - Data structures: the bitmap refines a finite set and its searches are exact within
      five word loads; the order table refines a map from references to records in which
      a reference is used once a day; the price store keeps, for every book and side, the
      exact quantity and order count of every price, the exact best price, and walks the
      levels in price order; the gap buffer and the ticker index refine maps, at full
      load too.
    - Books: every mutation of the manager either reports a documented reason and changes
      no order, or applies exactly its effect to the abstract map of live orders; the
      result [InvariantViolation] never occurs from a constructed manager; the top of book
      and the ten-level update are the aggregation of the live orders.
    - Parser: each message has exactly the effect its fields say; phases only advance;
      books exist exactly for the registered locates after the start of system hours.
    - Decoder: for packets that carry a numbered stream, in any order and with any
      duplicates, the parser is given every message once and in order, up to exactly the
      first message that was in no packet; a decoder that fails has stopped at the first
      message the parser rejected, inside one packet that arrived; the drain terminates;
      end of stream is only accepted when everything was delivered.
      [channel_books_follow_stream] composes all layers.  One property is a defect of the
      drain: a redundant stored packet that it overtakes is never removed and blocks the
      end of the session ([DecoderProps.decoder_orphan_blocks_end]).
    - Replay: from every file the source sends valid records off its front; it completes
      exactly on complete archives and reports an error otherwise; its packets, however they are reordered and repeated, make the decoder
      deliver the archive's records ([replay_round_trip]).
    - Engine: in every interleaving with [stop] the decoder has seen exactly the packets
      polled, and the loop ends with the decoder ([engine_drives_decoder]); a loss-free
      session is completed within one iteration per poll ([engine_completes_session]).
    - Receivers: the frame parsers accept exactly the unfragmented UDP datagrams of the
      configured endpoints and agree with each other; a receiver hands out the payloads
      of what it was given, in order, with every buffer returned once; two lines are
      interleaved without loss, and the drop counter survives its 32-bit wrap.
    - Sender: in every schedule of its two threads both lines send the same packets, no
      buffer is written while a line reads it, and a call returns; on success the lines
      carried the whole archive between heartbeats and then the end of the session, and a
      decoder behind either line delivers it ([sender_to_decoder]).  As a program it leaves
      no socket open and exits with success exactly for a replay that succeeded on lines
      that started ([sender_main_exit]).
    - Sockets and device: whatever the kernel answers, a receiver that is constructed
      listens as configured and one that is not has closed what it opened
      ([receivers_listen], [dual_receivers_release]).  Set-up and destructor of the DPDK
      port make exactly the calls intended ([dpdk_setup_exact]), its hardware rules pass
      what the software filter passes ([flow_rules_match_filter]), but a set-up that fails
      gives nothing back ([dpdk_failed_setup_leaks]).
    - Floating point: elapsed time is within a nanosecond of the exact quotient
      ([elapsed_ticks_accurate]); delays scale soundly ([scaled_delay_sound]); percentiles
      are the samples' ([snapshot_percentiles]), except that the 99.9th is one rank too
      high for multiples of 1000 samples ([p999_overshoots]).
    - Engine application: nothing is opened or mapped before the capacity evidence is
      accepted and reported ([startup_gate]), and what is deployed is what the evidence
      says ([deployment_exact]); success means that a whole stream was applied and left no
      order ([exit_sound]), and a loss-free session exits with success ([exit_success]).
    - Arenas: an arena is mapped where it says, aligned and whole, or not at all, and is
      released once ([arena_lifecycle]); its size is the planned one ([arena_plan_agrees]).
    - Trace profiler: its exit code and digests say exactly that the file is a complete,
      clean archive ([profile_certifies]); on a certified archive the profiler and the
      engine hold the same live orders after every record ([certified_reconstruction]),
      and an engine with the measured slots and pages processes the whole replay and exits
      with success ([certified_exit]).  Tickers with NUL bytes must be excluded, the
      engine reads them differently ([nul_tickers_differ]).
    - Startup and support: the storage plan is exact and cannot overflow; a capacity
      manifest is accepted in one canonical spelling only; SHA-256 does not depend on how
      its input is cut; send schedules keep their rate and never overflow the clock; the
      latency histogram answers ranks within one bucket.

    ** Fuel

    [MoldUdpDecoder.drainLoop] is the only unbounded loop of the decoder; every turn
    removes a stored packet, so one turn more than the number of stored packets suffices
    ([decoder_drain_terminates]).  Every other loop has the bound the source gives it.
    [ItchMoldUdpSource.recordLoop] takes one turn per record of a packet and at most two
    to see the end of the file; [recordLoop_spec] shows that the fuel of [next] suffices.
    [ReplayInv.drive] bounds the packets of a replay by a list of packet sizes, and one
    packet more than the file has bytes is enough.  [Sha256.blockLoop] and
    [Manifest.lineLoop] have the length of their input.  [MarketDataEngine.run] is
    unbounded in the source; its fuel is the number of iterations observed, and
    [engine_completes_session] shows when it stops by itself.  [DpdkReceiver.nextLoop]
    takes one turn per buffer and per poll ([budget]).  The loops of the sender that wait
    on [g_running] have one turn more than the number of times it is still found set.
    [EngineMain.main] takes the number of turns of the engine loop that are observed.
    [Profile.recordLoop] has one turn more than the file has bytes, which is always enough
    ([recordLoop_total]).

    ** Interfaces

    The decoder is proved against the classes [RecoveryBuffer] (discharged by [GapBuffer]
    for every power-of-two capacity) and [MessageSink] (discharged by [ItchParser]).

    ** Not modelled

    System calls other than through their outcomes: clocks, scheduling, signals, and what
    the kernel and DPDK do with a call they accept; a read that fails before the end of a
    file (a file is its bytes); a failed mapping of the gap buffer, which ends the process
    in its [noexcept] constructor.  The text of the programs' banners,
    diagnostics and usage, of the latency reports and of the profiler's report; the
    parsing of a decimal into a [double] (a parameter of [SenderConfig]); the counters
    that the DPDK receiver reads from its device; the macOS branches; the benchmarks
    [ItchBookReplayBenchmark.cpp] and [OrderBookBenchmark.cpp], which measure time; test
    doubles.  [long double] is the 64-bit significand of x86-64, without overflow or
    subnormal numbers, which the values computed here do not reach. *)
From stdpp Require Import base list gmap sets fin_maps.
From Stdlib Require Import ZArith Lia.

#[export] Set Default Goal Selector "!".
#[export] Set Warnings "-clear-no-such-hyp".

Declare Scope astra_scope.
Delimit Scope astra_scope with astra.
#[local] Open Scope Z_scope.

(** * Machine integers

    Every fixed-width C++ integer is a [Z]; an operation that can leave the
    range of its type is followed by the truncation of that type. *)

Definition u8 (x : Z) : Z := x mod 2 ^ 8.
Definition u16 (x : Z) : Z := x mod 2 ^ 16.
Definition u32 (x : Z) : Z := x mod 2 ^ 32.
Definition u64 (x : Z) : Z := x mod 2 ^ 64.

(** [std::numeric_limits<T>::max()]. *)
Definition max_u16 : Z := 65535.
Definition max_u32 : Z := 4294967295.
Definition max_u64 : Z := 18446744073709551615.
Definition max_i64 : Z := 9223372036854775807.

(** The values an unsigned type of [w] bits can hold. *)
Definition fits (w x : Z) : Prop := 0 <= x < 2 ^ w.

#[global] Instance fits_dec w x : Decision (fits w x).
Proof. unfold fits. apply _. Defined.

(** Bitwise complement of a 64-bit word and of a 32-bit word. *)
Definition not64 (x : Z) : Z := Z.lxor x max_u64.
Definition not32 (x : Z) : Z := Z.lxor x max_u32.

Notation "x .& y" := (Z.land x y) (at level 40, left associativity) : astra_scope.
Notation "x .| y" := (Z.lor x y) (at level 50, left associativity) : astra_scope.
Notation "x .^ y" := (Z.lxor x y) (at level 45, left associativity) : astra_scope.

(** * Zero-filled arenas

    [MappedArray<T>] and [FixedMmapArray<T>] are anonymous mappings: every
    element that has not been written reads as the all-zero value of [T].  An
    arena is therefore a finite map from index to element read with the
    element type's zero as default. *)

#[global] Arguments Z.eqb : simpl never.
#[global] Arguments Z.ltb : simpl never.
#[global] Arguments Z.leb : simpl never.

Class Zeroed (A : Type) := zeroed : A.
#[global] Hint Mode Zeroed ! : typeclass_instances.
#[global] Instance Z_zeroed : Zeroed Z := 0.

Abbreviation arr A := (gmap Z A).

Definition aget `{Zeroed A} (m : gmap Z A) (i : Z) : A := default zeroed (m !! i).

Notation "m .[ i ]" := (aget m i)
  (at level 1, left associativity, format "m .[ i ]") : astra_scope.
#[local] Open Scope astra_scope.

Section arenas.
Context `{Zeroed A}.
Implicit Types (m : gmap Z A) (i j : Z) (v : A).

Lemma aget_insert m i j v : (<[i := v]> m).[j] = if decide (i = j) then v else m.[j].
Proof. unfold aget. rewrite lookup_insert. by case_decide. Qed.

Lemma aget_insert_eq m i v : (<[i := v]> m).[i] = v.
Proof. rewrite aget_insert. by case_decide. Qed.

Lemma aget_insert_ne m i j v : i ≠ j → (<[i := v]> m).[j] = m.[j].
Proof. intros. rewrite aget_insert. by case_decide. Qed.

Lemma aget_empty i : (∅ : gmap Z A).[i] = zeroed.
Proof. unfold aget. by rewrite lookup_empty. Qed.

End arenas.

Create Rewrite HintDb arena.
#[export] Hint Rewrite @aget_insert_eq @aget_empty : arena.
#[export] Hint Rewrite @aget_insert_ne using (done || lia || congruence) : arena.

(** * Tactics *)

(** Rewrite reads of arenas that were just written. *)
Ltac arena := autorewrite with arena.
Tactic Notation "arena" "in" hyp(H) := autorewrite with arena in H.

(** Turn the boolean tests of the code into propositions. *)
Ltac zbool :=
  repeat match goal with
  | H : context [negb ?b] |- _ => first
      [ rewrite negb_true_iff in H | rewrite negb_false_iff in H ]
  | H : (_ && _)%bool = true |- _ => apply andb_prop in H as [? ?]
  | H : (_ || _)%bool = false |- _ => apply orb_false_elim in H as [? ?]
  | H : (_ =? _) = true |- _ => apply Z.eqb_eq in H
  | H : (_ =? _) = false |- _ => apply Z.eqb_neq in H
  | H : (_ <? _) = true |- _ => apply Z.ltb_lt in H
  | H : (_ <? _) = false |- _ => apply Z.ltb_ge in H
  | H : (_ <=? _) = true |- _ => apply Z.leb_le in H
  | H : (_ <=? _) = false |- _ => apply Z.leb_gt in H
  end.

(** Case analysis on the condition of the outermost [if] of the goal. *)
Ltac case_if :=
  match goal with
  | |- context [if decide ?P then _ else _] => destruct (decide P)
  | |- context [if ?b then _ else _] =>
      let E := fresh "E" in destruct b eqn:E; zbool
  end.

(** Case analysis on the condition of the outermost [if] of hypothesis [H]. *)
Ltac case_if_in H :=
  match type of H with
  | context [if decide ?P then _ else _] => destruct (decide P)
  | context [if ?b then _ else _] =>
      let E := fresh "E" in destruct b eqn:E; zbool
  end.

(** Decide the comparisons of enumerators in the goal. *)
Ltac enum :=
  repeat match goal with
  | |- context [bool_decide (?x = ?y)] => first
      [ rewrite (bool_decide_eq_true_2 (x = y)) by done
      | rewrite (bool_decide_eq_false_2 (x = y)) by done ]
  end; cbn [negb andb orb].
Tactic Notation "enum" "in" hyp(H) :=
  repeat match type of H with
  | context [bool_decide (?x = ?y)] => first
      [ rewrite (bool_decide_eq_true_2 (x = y)) in H by done
      | rewrite (bool_decide_eq_false_2 (x = y)) in H by done ]
  end; cbn [negb andb orb] in H.

(** * Arithmetic shared by the components *)

Lemma fits_weaken v w x : 0 <= v → v <= w → fits v x → fits w x.
Proof.
  intros Hv Hvw [? ?]. split; [done|].
  apply Z.lt_le_trans with (2 ^ v); [done|]. apply Z.pow_le_mono_r; lia.
Qed.

Lemma u16_fits x : fits 16 (u16 x).
Proof. apply Z.mod_pos_bound. done. Qed.
Lemma u32_fits x : fits 32 (u32 x).
Proof. apply Z.mod_pos_bound. done. Qed.
Lemma u64_fits x : fits 64 (u64 x).
Proof. apply Z.mod_pos_bound. done. Qed.

Lemma u16_id x : fits 16 x → u16 x = x.
Proof. apply Z.mod_small. Qed.
Lemma u32_id x : fits 32 x → u32 x = x.
Proof. apply Z.mod_small. Qed.
Lemma u64_id x : fits 64 x → u64 x = x.
Proof. apply Z.mod_small. Qed.

Lemma testbit_small x w i : 0 <= w → fits w x → w <= i → Z.testbit x i = false.
Proof.
  intros Hw [Hx1 Hx2] Hi. destruct (decide (x = 0)) as [->|]; [apply Z.bits_0|].
  apply Z.bits_above_log2; [done|]. apply Z.lt_le_trans with w; [|done].
  apply Z.log2_lt_pow2; lia.
Qed.

(** A shifted high part and a low part that does not overlap it. *)
Lemma lor_shiftl_add a b k :
  0 <= k → 0 <= b < 2 ^ k → Z.lor (a ≪ k) b = a * 2 ^ k + b.
Proof.
  intros Hk Hb. rewrite <- Z.add_nocarry_lor.
  - by rewrite Z.shiftl_mul_pow2.
  - apply Z.bits_inj'. intros n Hn. rewrite Z.land_spec, Z.bits_0.
    destruct (decide (n < k)).
    + rewrite Z.shiftl_spec_low by lia. done.
    + by rewrite (testbit_small b k n), andb_false_r by (done || lia).
Qed.

Lemma land_ones_mod x k : 0 <= k → Z.land x (2 ^ k - 1) = x mod 2 ^ k.
Proof.
  intros. rewrite <- Z.land_ones by lia. f_equal. rewrite Z.ones_equiv. lia.
Qed.

(** * Sets *)

Section sets.
Context `{Countable K}.
Implicit Types X : gset K.

Lemma size_add_new X x : x ∉ X → size ({[x]} ∪ X) = S (size X).
Proof.
  intros. rewrite size_union by set_solver. by rewrite size_singleton.
Qed.

Lemma size_remove X x : x ∈ X → S (size (X ∖ {[x]})) = size X.
Proof.
  intros. rewrite size_difference by set_solver. rewrite size_singleton.
  assert (size X ≠ 0)%nat; [|lia].
  intros Hs. apply size_empty_inv in Hs. set_solver.
Qed.

Lemma size_zero_empty X : size X = 0%nat ↔ X = ∅.
Proof.
  split; [intros ?%size_empty_inv; by apply leibniz_equiv|intros ->; apply size_empty].
Qed.

Lemma size_one_eq X x : x ∈ X → size X = 1%nat → X = {[x]}.
Proof.
  intros Hx Hs. apply set_eq. intros y. rewrite elem_of_singleton.
  split; [|by intros ->]. intros Hy. by eapply (size_singleton_inv X).
Qed.

End sets.

(** * Ranges

    [range n x] lists the [n] integers from [x] on, the index sequence of a
    counting loop. *)

Fixpoint range (n : nat) (x : Z) : list Z :=
  match n with
  | O => []
  | S n => x :: range n (x + 1)
  end.

Lemma elem_of_range n x y : y ∈ range n x ↔ x <= y < x + Z.of_nat n.
Proof.
  revert x. induction n as [|n IH]; intros x; cbn [range]; [rewrite elem_of_nil; lia|].
  rewrite elem_of_cons, IH. lia.
Qed.

Lemma length_range n x : length (range n x) = n.
Proof. revert x. induction n as [|n IH]; intros x; cbn [range length]; [done|]. by rewrite IH. Qed.

Lemma NoDup_range n x : NoDup (range n x).
Proof.
  revert x. induction n as [|n IH]; intros x; cbn [range]; constructor; [|done].
  rewrite elem_of_range. lia.
Qed.

Lemma range_app n m x : range (n + m) x = range n x ++ range m (x + Z.of_nat n).
Proof.
  revert x. induction n as [|n IH]; intros x; cbn [range app Nat.add]; [by rewrite Z.add_0_r|].
  rewrite IH. do 3 f_equal. lia.
Qed.

Lemma take_range k n x : (k <= n)%nat → take k (range n x) = range k x.
Proof.
  intros Hk. replace n with (k + (n - k))%nat by lia. rewrite range_app.
  by rewrite take_app_length' by (by rewrite length_range).
Qed.

Lemma drop_range k n x : (k <= n)%nat → drop k (range n x) = range (n - k) (x + Z.of_nat k).
Proof.
  intros Hk. replace n with (k + (n - k))%nat at 1 by lia. rewrite range_app.
  by rewrite drop_app_length' by (by rewrite length_range).
Qed.

Lemma filter_all {A} (P : A → Prop) `{∀ x, Decision (P x)} (l : list A) :
  (∀ x, x ∈ l → P x) → filter P l = l.
Proof.
  induction l as [|x l IH]; intros Hall; [done|].
  rewrite filter_cons, decide_True, IH by set_solver. done.
Qed.

(** * Pigeonhole *)

Lemma pigeonhole (f : Z → Z) (n m : Z) :
  0 <= m → (∀ i, 0 <= i < n → 0 <= f i < m) →
  (∀ i j, 0 <= i < n → 0 <= j < n → f i = f j → i = j) → n <= m.
Proof.
  intros Hm Hf Hinj. assert (f <$> seqZ 0 n ⊆+ seqZ 0 m) as Hsub.
  { apply NoDup_submseteq.
    - apply NoDup_fmap_2_strong; [|apply NoDup_seqZ]. intros i j Hi Hj.
      apply elem_of_seqZ in Hi. apply elem_of_seqZ in Hj. apply Hinj; lia.
    - intros x (i&->&Hi)%list_elem_of_fmap. apply elem_of_seqZ in Hi. apply elem_of_seqZ.
      specialize (Hf i). lia. }
  apply submseteq_length in Hsub. rewrite length_fmap, !length_seqZ in Hsub. lia.
Qed.

(** * Sums over finite maps *)

Section msum.
Context `{Countable K} {A : Type}.
Implicit Types (f g : A → Z) (M : gmap K A).

(** The sum of [f] over the values of a map. *)
Definition msum f M : Z := map_fold (λ _ x acc, f x + acc) 0 M.

Lemma msum_empty f : msum f ∅ = 0.
Proof. apply map_fold_empty. Qed.

Lemma msum_insert f M k x : M !! k = None → msum f (<[k := x]> M) = f x + msum f M.
Proof. intros. unfold msum. rewrite map_fold_insert_L; [done|lia|done]. Qed.

Lemma msum_delete f M k x : M !! k = Some x → msum f M = f x + msum f (delete k M).
Proof. intros. unfold msum. rewrite (map_fold_delete_L _ _ k x); [done|lia|done]. Qed.

Lemma msum_update f M k x y :
  M !! k = Some x → msum f (<[k := y]> M) = msum f M - f x + f y.
Proof.
  intros Hk. rewrite (msum_delete f M k x) by done.
  rewrite (msum_delete f (<[k := y]> M) k y) by apply lookup_insert_eq.
  rewrite delete_insert_eq. lia.
Qed.

Lemma msum_ext f g M : (∀ k x, M !! k = Some x → f x = g x) → msum f M = msum g M.
Proof.
  induction M as [|k x M Hk IH] using map_ind; intros Hfg; [by rewrite !msum_empty|].
  rewrite !msum_insert by done. rewrite (Hfg k x) by apply lookup_insert_eq. f_equal.
  apply IH. intros k' x' Hk'. apply (Hfg k'). rewrite lookup_insert_ne; [done|congruence].
Qed.

Lemma msum_nonneg f M : (∀ k x, M !! k = Some x → 0 <= f x) → 0 <= msum f M.
Proof.
  induction M as [|k x M Hk IH] using map_ind; intros Hf; [by rewrite msum_empty|].
  rewrite msum_insert by done. pose proof (Hf k x ltac:(apply lookup_insert_eq)).
  assert (0 <= msum f M); [|lia]. apply IH. intros k' x' Hk'. apply (Hf k').
  rewrite lookup_insert_ne; [done|congruence].
Qed.

Lemma msum_le f g M : (∀ k x, M !! k = Some x → f x <= g x) → msum f M <= msum g M.
Proof.
  induction M as [|k x M Hk IH] using map_ind; intros Hf; [by rewrite !msum_empty|].
  rewrite !msum_insert by done. pose proof (Hf k x ltac:(apply lookup_insert_eq)).
  assert (msum f M <= msum g M); [|lia]. apply IH. intros k' x' Hk'. apply (Hf k').
  rewrite lookup_insert_ne; [done|congruence].
Qed.

Lemma msum_scale c f M : msum (λ x, c * f x) M = c * msum f M.
Proof.
  induction M as [|k x M Hk IH] using map_ind; [by rewrite !msum_empty, Z.mul_0_r|].
  rewrite !msum_insert by done. rewrite IH. lia.
Qed.

Lemma msum_plus f g M : msum (λ x, f x + g x) M = msum f M + msum g M.
Proof.
  induction M as [|k x M Hk IH] using map_ind; [by rewrite !msum_empty|].
  rewrite !msum_insert by done. rewrite IH. lia.
Qed.

End msum.

Create HintDb astra.
#[export] Hint Resolve u16_fits u32_fits u64_fits : astra.
