(* ===== verification/Bits.v ===== *)
(** Word-level bit operations used by the price bitmap: leading and trailing
    zero counts ([std::countl_zero], [std::countr_zero]), the one-sided masks,
    and the characterisation of the highest and lowest set bit of a masked
    64-bit word.  Everything here is about one word; [Bitmap] builds the
    three-level hierarchy on top. *)
From stdpp Require Import base list gmap.
From Stdlib Require Import ZArith Lia.
From S2P Require Import Prelude.
#[local] Open Scope Z_scope.
#[local] Open Scope astra_scope.

(** [std::countl_zero] on a 64-bit word. *)
Definition countl_zero64 (v : Z) : Z := if v =? 0 then 64 else 63 - Z.log2 v.

Fixpoint pos_ctz (p : positive) : Z :=
  match p with
  | (q~0)%positive => 1 + pos_ctz q
  | _ => 0
  end.

(** [std::countr_zero] on a 64-bit word. *)
Definition countr_zero64 (v : Z) : Z :=
  match v with
  | Zpos p => pos_ctz p
  | _ => 64
  end.

(** [h] is the highest (lowest) set bit of [v]. *)
Definition highest_bit (v h : Z) : Prop :=
  Z.testbit v h = true ∧ 0 <= h < 64 ∧ ∀ j, h < j → Z.testbit v j = false.
Definition lowest_bit (v h : Z) : Prop :=
  Z.testbit v h = true ∧ 0 <= h < 64 ∧ ∀ j, j < h → Z.testbit v j = false.

Lemma pos_ctz_spec p :
  0 <= pos_ctz p ∧ Z.testbit (Zpos p) (pos_ctz p) = true ∧
  ∀ j, j < pos_ctz p → Z.testbit (Zpos p) j = false.
Proof.
  induction p as [p _|p (IH0&IH1&IH2)|]; cbn [pos_ctz].
  - split_and!; [done|done|]. intros j Hj. apply Z.testbit_neg_r. lia.
  - assert (Zpos p~0 = 2 * Zpos p) as -> by lia. split_and!; [lia| |].
    + replace (1 + pos_ctz p) with (Z.succ (pos_ctz p)) by lia.
      by rewrite Z.testbit_even_succ.
    + intros j Hj. destruct (decide (j <= 0)).
      * destruct (decide (j = 0)) as [->|].
        -- apply Z.testbit_even_0.
        -- apply Z.testbit_neg_r. lia.
      * replace j with (Z.succ (j - 1)) by lia.
        rewrite Z.testbit_even_succ by lia. apply IH2. lia.
  - split_and!; [done|done|]. intros j Hj. apply Z.testbit_neg_r. lia.
Qed.

Lemma fits64_testbit_lt v j : fits 64 v → Z.testbit v j = true → 0 <= j < 64.
Proof.
  intros Hv Hb. split.
  - destruct (decide (0 <= j)); [done|]. by rewrite Z.testbit_neg_r in Hb by lia.
  - destruct (decide (64 <= j)); [|lia].
    by rewrite (testbit_small v 64) in Hb by done.
Qed.

Lemma countl_highest v : v ≠ 0 → fits 64 v → highest_bit v (63 - countl_zero64 v).
Proof.
  intros Hv Hf. unfold countl_zero64. destruct (Z.eqb_spec v 0) as [?|_]; [done|].
  replace (63 - (63 - Z.log2 v)) with (Z.log2 v) by lia. destruct Hf as [Hf0 Hf1].
  assert (Z.testbit v (Z.log2 v) = true) as Hb by (apply Z.bit_log2; lia).
  split_and!; [done|apply Z.log2_nonneg|apply Z.log2_lt_pow2; lia|].
  intros j Hj. by apply Z.bits_above_log2.
Qed.

Lemma countr_lowest v : v ≠ 0 → fits 64 v → lowest_bit v (countr_zero64 v).
Proof.
  intros Hv Hf. destruct v as [|p|p]; [done| |destruct Hf; lia].
  cbn [countr_zero64]. destruct (pos_ctz_spec p) as (H0&H1&H2).
  pose proof (fits64_testbit_lt _ _ Hf H1). done.
Qed.

(** The all-ones word, shifted: the four masks of the bitmap search. *)
Lemma testbit_max_u64 i : Z.testbit max_u64 i = bool_decide (0 <= i < 64).
Proof.
  change max_u64 with (Z.ones 64). case_bool_decide.
  - by apply Z.ones_spec_low.
  - destruct (decide (0 <= i)); [apply Z.ones_spec_high; lia|].
    apply Z.testbit_neg_r. lia.
Qed.

Lemma testbit_ones_shiftr k i :
  0 <= k <= 64 → 0 <= i → Z.testbit (max_u64 ≫ k) i = bool_decide (i < 64 - k).
Proof.
  intros. rewrite Z.shiftr_spec, testbit_max_u64 by lia.
  apply bool_decide_ext. lia.
Qed.

Lemma testbit_ones_shiftl k i :
  0 <= k < 64 → 0 <= i →
  Z.testbit (u64 (max_u64 ≪ k)) i = bool_decide (k <= i < 64).
Proof.
  intros. unfold u64. destruct (decide (i < 64)).
  - rewrite Z.mod_pow2_bits_low, Z.shiftl_spec, testbit_max_u64 by lia.
    apply bool_decide_ext. lia.
  - rewrite Z.mod_pow2_bits_high by lia. symmetry. apply bool_decide_eq_false. lia.
Qed.

Lemma fits64_land_l v m : fits 64 v → fits 64 (v .& m).
Proof.
  intros [Hv0 Hv1].
  assert (Z.land v m = Z.land v m mod 2 ^ 64) as ->; [|by apply u64_fits].
  symmetry. rewrite <- Z.land_ones by lia. rewrite <- Z.land_assoc.
  rewrite (Z.land_comm m), Z.land_assoc. f_equal.
  rewrite Z.land_ones by lia. by apply Z.mod_small.
Qed.

Lemma testbit_land_true v m i :
  Z.testbit (v .& m) i = true ↔ Z.testbit v i = true ∧ Z.testbit m i = true.
Proof. rewrite Z.land_spec. apply andb_true_iff. Qed.

Lemma zero_no_bit v i : v = 0 → Z.testbit v i = true → False.
Proof. intros ->. by rewrite Z.bits_0. Qed.

Lemma nonzero_has_bit v : fits 64 v → v ≠ 0 → ∃ i, 0 <= i < 64 ∧ Z.testbit v i = true.
Proof.
  intros Hf Hv. destruct (countl_highest v Hv Hf) as (?&?&?). eauto.
Qed.

(** Setting and clearing one bit of a word. *)
Lemma testbit_setbit v b i :
  0 <= b < 64 → 0 <= i →
  Z.testbit (v .| u64 (1 ≪ b)) i = (Z.testbit v i || bool_decide (i = b))%bool.
Proof.
  intros Hb Hi. rewrite Z.lor_spec. f_equal. rewrite Z.shiftl_1_l.
  rewrite u64_id by (split; [lia|apply Z.pow_lt_mono_r; lia]).
  rewrite Z.pow2_bits_eqb by lia. rewrite Z.eqb_sym.
  destruct (Z.eqb_spec i b); by case_bool_decide.
Qed.

Lemma fits64_setbit v b : 0 <= b < 64 → fits 64 v → fits 64 (v .| u64 (1 ≪ b)).
Proof.
  intros Hb [Hv0 Hv1]. pose proof (u64_fits (1 ≪ b)) as [Hu0 Hu1]. split.
  - by apply Z.lor_nonneg.
  - destruct (decide (Z.lor v (u64 (1 ≪ b)) = 0)) as [->|]; [done|].
    apply Z.log2_lt_pow2; [pose proof (Z.lor_nonneg v (u64 (1 ≪ b))); lia|].
    rewrite Z.log2_lor by done. apply Z.max_lub_lt.
    + destruct (decide (v = 0)) as [->|]; [done|]. apply Z.log2_lt_pow2; lia.
    + destruct (decide (u64 (1 ≪ b) = 0)) as [->|]; [done|]. apply Z.log2_lt_pow2; lia.
Qed.

Lemma testbit_clearbit v b i :
  0 <= b < 64 → 0 <= i < 64 →
  Z.testbit (v .& not64 (u64 (1 ≪ b))) i = (Z.testbit v i && negb (bool_decide (i = b)))%bool.
Proof.
  intros Hb Hi. rewrite Z.land_spec. f_equal. unfold not64.
  rewrite Z.lxor_spec, testbit_max_u64, Z.shiftl_1_l.
  rewrite u64_id by (split; [lia|apply Z.pow_lt_mono_r; lia]).
  rewrite Z.pow2_bits_eqb by lia. rewrite Z.eqb_sym.
  rewrite (bool_decide_eq_true_2 (0 <= i < 64)) by done.
  destruct (Z.eqb_spec i b); by case_bool_decide.
Qed.

Lemma setbit_nonzero v b : 0 <= b < 64 → v .| u64 (1 ≪ b) ≠ 0.
Proof.
  intros Hb H0. eapply (zero_no_bit _ b H0).
  rewrite testbit_setbit by lia. rewrite bool_decide_eq_true_2 by done.
  by rewrite orb_true_r.
Qed.

(** Splitting an index into a word number and a bit number. *)
Lemma shiftr6_div i : i ≫ 6 = i / 64.
Proof. by rewrite Z.shiftr_div_pow2. Qed.
Lemma land63_mod i : i .& 63 = i mod 64.
Proof. apply (land_ones_mod i 6). lia. Qed.
Lemma join64 w b : 0 <= b < 64 → (w ≪ 6) .| b = w * 64 + b.
Proof. intros. by rewrite lor_shiftl_add. Qed.

(** The test [(x & (x - 1)) == 0] recognises the powers of two. *)
Lemma power_of_two x : 0 < x → x .& (x - 1) = 0 → ∃ k, 0 <= k ∧ x = 2 ^ k.
Proof.
  intros Hx Hl. exists (Z.log2 x). split; [apply Z.log2_nonneg|].
  destruct (Z.log2_spec x Hx) as [Hlo Hhi]. rewrite Z.pow_succ_r in Hhi by apply Z.log2_nonneg.
  destruct (decide (x = 2 ^ Z.log2 x)) as [E|Hne]; [done|]. exfalso.
  assert (Z.log2 (x - 1) = Z.log2 x) as Hlog.
  { apply Z.log2_unique; [apply Z.log2_nonneg|]. rewrite Z.pow_succ_r by apply Z.log2_nonneg. lia. }
  apply (zero_no_bit _ (Z.log2 x) Hl). rewrite Z.land_spec, Z.bit_log2 by done.
  rewrite <- Hlog. apply Z.bit_log2. assert (0 < 2 ^ Z.log2 x); [|lia].
  apply Z.pow_pos_nonneg; [lia|apply Z.log2_nonneg].
Qed.
