(* ===== verification/Bitmap.v ===== *)
(** The hierarchical price bitmap of [include/astra/utils/PriceBitmap.hpp]: a
    set of 65536 bit positions kept in three levels of 64-bit words, with
    constant-time insertion, removal, predecessor and successor search.

    [PriceBitmap] translates the class; [wf] is its representation invariant
    (every summary bit is set exactly when the word below it is non-zero) and
    [mem] the set it denotes.  The searches take the work observer of the code
    as a second result: the number of words loaded. *)
From stdpp Require Import base list gmap.
From Stdlib Require Import ZArith Lia.
From S2P Require Import Prelude Bits.
#[local] Open Scope Z_scope.
#[local] Open Scope astra_scope.

Record PriceBitmapStorage := mkBitmap { l0 : arr Z; l1 : arr Z; l2 : Z }.
#[global] Instance PriceBitmapStorage_zeroed : Zeroed PriceBitmapStorage := mkBitmap ∅ ∅ 0.

Module PriceBitmap.

Definition kNumBits : Z := 65536.
Definition kL0Words : Z := kNumBits / 64.
Definition kL1Words : Z := kL0Words / 64.
Definition kInvalid : Z := max_u32.
Definition kValidL2Mask : Z := max_u64 ≫ (64 - kL1Words).
Definition kMaxSearchWordLoads : Z := 5.

Definition bitHigh (value : Z) : Z := u32 (63 - countl_zero64 value).
Definition bitLow (value : Z) : Z := countr_zero64 value.
Definition maskAtOrBelow (bit : Z) : Z := max_u64 ≫ (63 - bit).
Definition maskBelow (bit : Z) : Z := if bit =? 0 then 0 else max_u64 ≫ (64 - bit).
Definition maskAtOrAbove (bit : Z) : Z := u64 (max_u64 ≪ bit).
Definition maskAbove (bit : Z) : Z := if bit =? 63 then 0 else u64 (max_u64 ≪ (bit + 1)).

Definition set (s : PriceBitmapStorage) (idx : Z) : PriceBitmapStorage :=
  let w0 := idx ≫ 6 in
  let b0 := idx .& 63 in
  let w1 := w0 ≫ 6 in
  let b1 := w0 .& 63 in
  {| l0 := <[w0 := (l0 s).[w0] .| u64 (1 ≪ b0)]> (l0 s);
     l1 := <[w1 := (l1 s).[w1] .| u64 (1 ≪ b1)]> (l1 s);
     l2 := l2 s .| u64 (1 ≪ w1) |}.

Definition reset (s : PriceBitmapStorage) (idx : Z) : PriceBitmapStorage :=
  let w0 := idx ≫ 6 in
  let b0 := idx .& 63 in
  let v0 := (l0 s).[w0] .& not64 (u64 (1 ≪ b0)) in
  let l0' := <[w0 := v0]> (l0 s) in
  if negb (v0 =? 0) then mkBitmap l0' (l1 s) (l2 s) else
  let w1 := w0 ≫ 6 in
  let b1 := w0 .& 63 in
  let v1 := (l1 s).[w1] .& not64 (u64 (1 ≪ b1)) in
  let l1' := <[w1 := v1]> (l1 s) in
  if negb (v1 =? 0) then mkBitmap l0' l1' (l2 s) else
  mkBitmap l0' l1' (l2 s .& not64 (u64 (1 ≪ w1))).

Definition test (s : PriceBitmapStorage) (idx : Z) : bool :=
  negb ((((l0 s).[idx ≫ 6] ≫ (idx .& 63)) .& 1) =? 0).

Definition empty (s : PriceBitmapStorage) : bool := (l2 s .& kValidL2Mask) =? 0.

(** Highest set bit at or below [idx], with the number of words loaded. *)
Definition findHighestAtOrBelowObserved (s : PriceBitmapStorage) (idx0 : Z) : Z * Z :=
  let idx := if kNumBits <=? idx0 then kNumBits - 1 else idx0 in
  let w0 := idx ≫ 6 in
  let b0 := idx .& 63 in
  let bits := (l0 s).[w0] .& maskAtOrBelow b0 in
  if negb (bits =? 0) then ((w0 ≪ 6) .| bitHigh bits, 1) else
  let w1 := w0 ≫ 6 in
  let b1 := w0 .& 63 in
  let l1bits := (l1 s).[w1] .& maskBelow b1 in
  if negb (l1bits =? 0) then
    let previous_w0 := (w1 ≪ 6) .| bitHigh l1bits in
    let child := (l0 s).[previous_w0] in
    (if child =? 0 then kInvalid else (previous_w0 ≪ 6) .| bitHigh child, 3)
  else
  let l2bits := l2 s .& kValidL2Mask .& maskBelow w1 in
  if l2bits =? 0 then (kInvalid, 3) else
  let previous_w1 := bitHigh l2bits in
  let l1_child := (l1 s).[previous_w1] in
  if l1_child =? 0 then (kInvalid, 4) else
  let previous_w0 := (previous_w1 ≪ 6) .| bitHigh l1_child in
  let l0_child := (l0 s).[previous_w0] in
  (if l0_child =? 0 then kInvalid else (previous_w0 ≪ 6) .| bitHigh l0_child, 5).

Definition findHighestAtOrBelow (s : PriceBitmapStorage) (idx : Z) : Z :=
  fst (findHighestAtOrBelowObserved s idx).

(** Lowest set bit at or above [idx], with the number of words loaded. *)
Definition findLowestAtOrAboveObserved (s : PriceBitmapStorage) (idx : Z) : Z * Z :=
  if kNumBits <=? idx then (kInvalid, 0) else
  let w0 := idx ≫ 6 in
  let b0 := idx .& 63 in
  let bits := (l0 s).[w0] .& maskAtOrAbove b0 in
  if negb (bits =? 0) then ((w0 ≪ 6) .| bitLow bits, 1) else
  let w1 := w0 ≫ 6 in
  let b1 := w0 .& 63 in
  let l1bits := (l1 s).[w1] .& maskAbove b1 in
  if negb (l1bits =? 0) then
    let next_w0 := (w1 ≪ 6) .| bitLow l1bits in
    let child := (l0 s).[next_w0] in
    (if child =? 0 then kInvalid else (next_w0 ≪ 6) .| bitLow child, 3)
  else
  let l2bits := l2 s .& kValidL2Mask .& maskAbove w1 in
  if l2bits =? 0 then (kInvalid, 3) else
  let next_w1 := bitLow l2bits in
  let l1_child := (l1 s).[next_w1] in
  if l1_child =? 0 then (kInvalid, 4) else
  let next_w0 := (next_w1 ≪ 6) .| bitLow l1_child in
  let l0_child := (l0 s).[next_w0] in
  (if l0_child =? 0 then kInvalid else (next_w0 ≪ 6) .| bitLow l0_child, 5).

Definition findLowestAtOrAbove (s : PriceBitmapStorage) (idx : Z) : Z :=
  fst (findLowestAtOrAboveObserved s idx).

(** The set a bitmap denotes. *)
Definition mem (s : PriceBitmapStorage) (i : Z) : bool :=
  Z.testbit (l0 s).[i / 64] (i mod 64).

Record wf (s : PriceBitmapStorage) : Prop := {
  wf_l0 : ∀ w, fits 64 (l0 s).[w];
  wf_l1 : ∀ w, fits 64 (l1 s).[w];
  wf_l2 : fits 64 (l2 s);
  wf_sum1 : ∀ w0, 0 <= w0 < kL0Words →
    Z.testbit (l1 s).[w0 / 64] (w0 mod 64) = true ↔ (l0 s).[w0] ≠ 0;
  wf_sum2 : ∀ w1, 0 <= w1 < kL1Words →
    Z.testbit (l2 s) w1 = true ↔ (l1 s).[w1] ≠ 0 }.

(** [r] is the greatest (least) index of the set [P] that is at most (at
    least) [idx], or the invalid index when there is none. *)
Definition predecessor (P : Z → bool) (idx r : Z) : Prop :=
  (r = kInvalid ∧ ∀ j, 0 <= j < kNumBits → j <= idx → P j = false) ∨
  (0 <= r < kNumBits ∧ r <= idx ∧ P r = true ∧
   ∀ j, r < j < kNumBits → j <= idx → P j = false).
Definition successor (P : Z → bool) (idx r : Z) : Prop :=
  (r = kInvalid ∧ ∀ j, 0 <= j < kNumBits → idx <= j → P j = false) ∨
  (0 <= r < kNumBits ∧ idx <= r ∧ P r = true ∧
   ∀ j, 0 <= j < r → idx <= j → P j = false).

(** ** Masked words *)

Lemma bitHigh_highest v : v ≠ 0 → fits 64 v → highest_bit v (bitHigh v).
Proof.
  intros Hv Hf. pose proof (countl_highest v Hv Hf) as H. unfold bitHigh.
  rewrite u32_id; [done|]. destruct H as (_&?&_). split; lia.
Qed.

Lemma bitLow_lowest v : v ≠ 0 → fits 64 v → lowest_bit v (bitLow v).
Proof. apply countr_lowest. Qed.

Definition mask_of (m : Z) (Q : Z → Prop) : Prop :=
  ∀ i, 0 <= i < 64 → Z.testbit m i = true ↔ Q i.

Lemma maskAtOrBelow_mask b : 0 <= b < 64 → mask_of (maskAtOrBelow b) (λ i, i <= b).
Proof.
  intros Hb i Hi. unfold maskAtOrBelow. rewrite testbit_ones_shiftr by lia.
  rewrite bool_decide_eq_true. lia.
Qed.
Lemma maskBelow_mask b : 0 <= b < 64 → mask_of (maskBelow b) (λ i, i < b).
Proof.
  intros Hb i Hi. unfold maskBelow. destruct (Z.eqb_spec b 0).
  - rewrite Z.bits_0. split; [done|lia].
  - rewrite testbit_ones_shiftr by lia. rewrite bool_decide_eq_true. lia.
Qed.
Lemma maskAtOrAbove_mask b : 0 <= b < 64 → mask_of (maskAtOrAbove b) (λ i, b <= i).
Proof.
  intros Hb i Hi. unfold maskAtOrAbove. rewrite testbit_ones_shiftl by lia.
  rewrite bool_decide_eq_true. lia.
Qed.
Lemma maskAbove_mask b : 0 <= b < 64 → mask_of (maskAbove b) (λ i, b < i).
Proof.
  intros Hb i Hi. unfold maskAbove. destruct (Z.eqb_spec b 63).
  - rewrite Z.bits_0. split; [done|lia].
  - rewrite testbit_ones_shiftl by lia. rewrite bool_decide_eq_true. lia.
Qed.
Lemma kValidL2Mask_mask : mask_of kValidL2Mask (λ i, i < 16).
Proof.
  intros i Hi. unfold kValidL2Mask. change kL1Words with 16.
  rewrite testbit_ones_shiftr by lia. rewrite bool_decide_eq_true. lia.
Qed.
Lemma mask_and m m' Q Q' :
  mask_of m Q → mask_of m' Q' → mask_of (m .& m') (λ i, Q i ∧ Q' i).
Proof.
  intros H H' i Hi. rewrite testbit_land_true. by rewrite (H i Hi), (H' i Hi).
Qed.

Lemma masked_zero v m Q :
  mask_of m Q → v .& m = 0 → ∀ i, 0 <= i < 64 → Q i → Z.testbit v i = false.
Proof.
  intros Hm Hz i Hi HQ. apply not_true_iff_false. intros Hb.
  apply (zero_no_bit _ i Hz). apply testbit_land_true. by rewrite (Hm i Hi).
Qed.

Lemma masked_high v m Q :
  mask_of m Q → fits 64 v → v .& m ≠ 0 →
  let h := bitHigh (v .& m) in
  0 <= h < 64 ∧ Z.testbit v h = true ∧ Q h ∧
  ∀ i, h < i < 64 → Q i → Z.testbit v i = false.
Proof.
  intros Hm Hf Hn h. destruct (bitHigh_highest _ Hn (fits64_land_l v m Hf)) as (Hb&Hh&Hmax).
  fold h in Hb, Hh, Hmax. apply testbit_land_true in Hb as [Hb1 Hb2].
  split_and!; try done; [lia|lia|by apply Hm|].
  intros i Hi HQ. apply not_true_iff_false. intros Hb.
  assert (Z.testbit (v .& m) i = true) as Ht.
  { apply testbit_land_true. split; [done|]. apply Hm; [lia|done]. }
  rewrite Hmax in Ht by lia. done.
Qed.

Lemma masked_low v m Q :
  mask_of m Q → fits 64 v → v .& m ≠ 0 →
  let h := bitLow (v .& m) in
  0 <= h < 64 ∧ Z.testbit v h = true ∧ Q h ∧
  ∀ i, 0 <= i < h → Q i → Z.testbit v i = false.
Proof.
  intros Hm Hf Hn h. destruct (bitLow_lowest _ Hn (fits64_land_l v m Hf)) as (Hb&Hh&Hmin).
  fold h in Hb, Hh, Hmin. apply testbit_land_true in Hb as [Hb1 Hb2].
  split_and!; try done; [lia|lia|by apply Hm|].
  intros i Hi HQ. apply not_true_iff_false. intros Hb.
  assert (Z.testbit (v .& m) i = true) as Ht.
  { apply testbit_land_true. split; [done|]. apply Hm; [lia|done]. }
  rewrite Hmin in Ht by lia. done.
Qed.

(** ** Insertion and removal *)

Lemma split_join w b : 0 <= b < 64 → (w * 64 + b) / 64 = w ∧ (w * 64 + b) mod 64 = b.
Proof.
  intros. rewrite Z.div_add_l, (Z.add_comm (w * 64)), Z.mod_add by lia.
  by rewrite Z.div_small, Z.add_0_r, Z.mod_small by lia.
Qed.

Lemma mem_split s w b : 0 <= b < 64 → mem s (w * 64 + b) = Z.testbit (l0 s).[w] b.
Proof.
  intros Hb. unfold mem. by destruct (split_join w b Hb) as [-> ->].
Qed.

Lemma testbit_1_iff s i : test s i = mem s i.
Proof.
  unfold test, mem. rewrite shiftr6_div, land63_mod.
  change 1 with (Z.ones 1). rewrite Z.land_ones, Z.pow_1_r by lia.
  set (v := (l0 s).[i / 64]). pose proof (Z.mod_pos_bound i 64).
  rewrite <- (Z.add_0_l (i mod 64)) at 2. rewrite <- Z.shiftr_spec by lia.
  rewrite Z.bit0_odd, Zmod_odd. by destruct (Z.odd _).
Qed.

Lemma split_eq w v : w / 64 = v / 64 → w mod 64 = v mod 64 → w = v.
Proof. intros. rewrite (Z.div_mod w 64), (Z.div_mod v 64) by lia. lia. Qed.

Lemma mem_set s i j :
  0 <= i < kNumBits → 0 <= j < kNumBits →
  mem (set s i) j = (mem s j || bool_decide (j = i))%bool.
Proof.
  intros Hi Hj. unfold mem, set; cbn [l0]. rewrite shiftr6_div, land63_mod.
  pose proof (Z.mod_pos_bound i 64). pose proof (Z.mod_pos_bound j 64).
  rewrite aget_insert. case_decide as E.
  - rewrite testbit_setbit, E by lia. f_equal. apply bool_decide_ext.
    split; [intros; by apply split_eq|congruence].
  - rewrite bool_decide_eq_false_2 by congruence. by rewrite orb_false_r.
Qed.

Lemma mem_reset s i j :
  0 <= i < kNumBits → 0 <= j < kNumBits →
  mem (reset s i) j = (mem s j && negb (bool_decide (j = i)))%bool.
Proof.
  intros Hi Hj. assert (mem (reset s i) j = Z.testbit
    (<[i / 64 := (l0 s).[i / 64] .& not64 (u64 (1 ≪ (i mod 64)))]> (l0 s)).[j / 64]
    (j mod 64)) as ->.
  { unfold mem, reset. rewrite shiftr6_div, land63_mod. repeat case_if; done. }
  pose proof (Z.mod_pos_bound i 64). pose proof (Z.mod_pos_bound j 64).
  rewrite aget_insert. case_decide as E; unfold mem.
  - rewrite testbit_clearbit, E by lia. do 2 f_equal. apply bool_decide_ext.
    split; [intros; by apply split_eq|congruence].
  - rewrite bool_decide_eq_false_2 by congruence. by rewrite andb_true_r.
Qed.

Lemma split_bounds i n : 0 <= i < n * 64 → 0 <= i / 64 < n ∧ 0 <= i mod 64 < 64.
Proof.
  intros. split; [|apply Z.mod_pos_bound; lia].
  split; [apply Z.div_pos; lia|apply Z.div_lt_upper_bound; lia].
Qed.

Lemma set_wf s i : 0 <= i < kNumBits → wf s → wf (set s i).
Proof.
  intros Hi [H0 H1 H2 S1 S2].
  destruct (split_bounds i kL0Words ltac:(done)) as [Hw0 Hb0].
  destruct (split_bounds (i / 64) kL1Words ltac:(done)) as [Hw1 Hb1].
  assert (kL1Words = 16) as K1 by done. assert (kL0Words = 1024) as K0 by done.
  unfold set. rewrite !shiftr6_div, !land63_mod.
  split; cbn [l0 l1 l2].
  - intros w. rewrite aget_insert. case_decide; [by apply fits64_setbit|done].
  - intros w. rewrite aget_insert. case_decide; [by apply fits64_setbit|done].
  - apply fits64_setbit; [lia|done].
  - intros w0 Hw. rewrite !aget_insert.
    pose proof (Z.mod_pos_bound w0 64).
    destruct (decide (i / 64 = w0)) as [<-|Hne].
    + rewrite decide_True by done. rewrite testbit_setbit by lia.
      rewrite bool_decide_eq_true_2, orb_true_r by done.
      split; [intros _; by apply setbit_nonzero|done].
    + case_decide as E; [|by apply S1]. rewrite testbit_setbit, E by lia.
      rewrite bool_decide_eq_false_2, orb_false_r; [by apply S1|].
      intros Hm. apply Hne, split_eq; done.
  - intros w1 Hw. rewrite aget_insert, testbit_setbit by lia. case_decide as E.
    + subst w1. rewrite bool_decide_eq_true_2, orb_true_r by done.
      split; [intros _; by apply setbit_nonzero|done].
    + rewrite bool_decide_eq_false_2, orb_false_r by done. by apply S2.
Qed.

Lemma clear_keeps_nonzero v m : v .& m ≠ 0 → v ≠ 0.
Proof. intros H ->. by rewrite Z.land_0_l in H. Qed.

Lemma reset_wf s i : 0 <= i < kNumBits → wf s → wf (reset s i).
Proof.
  intros Hi [H0 H1 H2 S1 S2].
  destruct (split_bounds i kL0Words ltac:(done)) as [Hw0 Hb0].
  destruct (split_bounds (i / 64) kL1Words ltac:(done)) as [Hw1 Hb1].
  assert (kL1Words = 16) as K1 by done. assert (kL0Words = 1024) as K0 by done.
  unfold reset. rewrite !shiftr6_div, !land63_mod.
  set (v0 := (l0 s).[i / 64] .& _). set (v1 := (l1 s).[i / 64 / 64] .& _).
  assert (∀ w, fits 64 (<[i / 64 := v0]> (l0 s)).[w]) as F0.
  { intros w. rewrite aget_insert. case_decide; [by apply fits64_land_l|done]. }
  assert (∀ w, fits 64 (<[i / 64 / 64 := v1]> (l1 s)).[w]) as F1.
  { intros w. rewrite aget_insert. case_decide; [by apply fits64_land_l|done]. }
  destruct (Z.eqb_spec v0 0) as [Z0|N0]; cbn [negb].
  2: { split; cbn [l0 l1 l2]; try done. intros w0 Hw. rewrite aget_insert.
       case_decide as E; [|by apply S1]. subst w0. rewrite S1 by done.
       split; [done|]. intros _. by apply clear_keeps_nonzero in N0. }
  (* the summary of the cleared word, for both remaining outcomes *)
  assert (∀ w0, 0 <= w0 < kL0Words →
    Z.testbit (<[i / 64 / 64 := v1]> (l1 s)).[w0 / 64] (w0 mod 64) = true ↔
    (<[i / 64 := v0]> (l0 s)).[w0] ≠ 0) as S1'.
  { intros w0 Hw. rewrite !aget_insert. pose proof (Z.mod_pos_bound w0 64).
    destruct (decide (i / 64 = w0)) as [<-|Hne].
    - rewrite decide_True by done. unfold v1. rewrite testbit_clearbit by lia.
      rewrite bool_decide_eq_true_2, andb_false_r by done. by rewrite Z0.
    - case_decide as E; [|by apply S1]. unfold v1.
      rewrite testbit_clearbit, E by lia.
      rewrite bool_decide_eq_false_2, andb_true_r; [by apply S1|].
      intros Hm. apply Hne, split_eq; done. }
  destruct (Z.eqb_spec v1 0) as [Z1|N1]; cbn [negb]; split; cbn [l0 l1 l2]; try done.
  - by apply fits64_land_l.
  - intros w1 Hw. rewrite aget_insert, testbit_clearbit by lia. case_decide as E.
    + subst w1. rewrite bool_decide_eq_true_2, andb_false_r by done. by rewrite Z1.
    + rewrite bool_decide_eq_false_2, andb_true_r by done. by apply S2.
  - intros w1 Hw. rewrite aget_insert. case_decide as E; [|by apply S2].
    subst w1. rewrite S2 by done. split; [done|]. intros _. by apply clear_keeps_nonzero in N1.
Qed.

Lemma zero_wf : wf zeroed.
Proof.
  split; cbn; try done; intros; unfold aget; rewrite ?lookup_empty; cbn; try done.
  - by rewrite Z.bits_0.
  - by rewrite Z.bits_0.
Qed.

Lemma zero_mem i : mem zeroed i = false.
Proof. unfold mem; cbn. arena. apply Z.bits_0. Qed.

(** ** Searches

    One level of the hierarchy is an array [W] of words, denoting the set
    [bitset W].  A search hits inside a word, or it misses there and descends
    from the answer of the level above. *)

Definition bitset (W : Z → Z) (j : Z) : bool := Z.testbit (W (j / 64)) (j mod 64).

Definition is_pred (P : Z → bool) (k r : Z) : Prop :=
  P r = true ∧ 0 <= r <= k ∧ ∀ j, r < j <= k → P j = false.
Definition is_succ (P : Z → bool) (n k r : Z) : Prop :=
  P r = true ∧ k <= r < n ∧ ∀ j, k <= j < r → P j = false.

Lemma bitset_join W w b : 0 <= b < 64 → bitset W (w * 64 + b) = Z.testbit (W w) b.
Proof. intros Hb. unfold bitset. by destruct (split_join w b Hb) as [-> ->]. Qed.

(** Name the word and bit of an index. *)
Ltac split_index j :=
  pose proof (Z.div_mod j 64 ltac:(done)); pose proof (Z.mod_pos_bound j 64 ltac:(done)).

Section one_level.
Context (W : Z → Z).
Implicit Types (w k j m n : Z).

Lemma hit_high w k m :
  0 <= w → k < (w + 1) * 64 → mask_of m (λ b, w * 64 + b <= k) →
  fits 64 (W w) → W w .& m ≠ 0 →
  is_pred (bitset W) k (w * 64 + bitHigh (W w .& m)) ∧ 0 <= bitHigh (W w .& m) < 64.
Proof.
  intros Hw Hk Hm Hf Hn. destruct (masked_high _ _ _ Hm Hf Hn) as (Hh&Hb&Hle&Hmax).
  split; [|done]. split_and!; [by rewrite bitset_join|lia|lia|].
  intros j Hj. unfold bitset. split_index j.
  assert (j / 64 = w) as -> by lia. apply Hmax; lia.
Qed.

Lemma hit_low w k n m :
  w * 64 <= k → (w + 1) * 64 <= n → mask_of m (λ b, k <= w * 64 + b) →
  fits 64 (W w) → W w .& m ≠ 0 →
  is_succ (bitset W) n k (w * 64 + bitLow (W w .& m)) ∧ 0 <= bitLow (W w .& m) < 64.
Proof.
  intros Hw Hk Hm Hf Hn. destruct (masked_low _ _ _ Hm Hf Hn) as (Hh&Hb&Hle&Hmin).
  split; [|done]. split_and!; [by rewrite bitset_join|lia|lia|].
  intros j Hj. unfold bitset. split_index j.
  assert (j / 64 = w) as -> by lia. apply Hmin; lia.
Qed.

Lemma miss w m (Q : Z → Prop) :
  mask_of m (λ b, Q (w * 64 + b)) → W w .& m = 0 →
  ∀ j, j / 64 = w → Q j → bitset W j = false.
Proof.
  intros Hm Hz j Ej HQ. unfold bitset. split_index j. rewrite Ej.
  eapply masked_zero; [exact Hm|done|done|]. cbn. by replace (w * 64 + j mod 64) with j by lia.
Qed.

Lemma descend_high (P : Z → bool) i u w :
  u * 64 - 1 <= i < (u + 1) * 64 → fits 64 (W w) → W w ≠ 0 →
  (∀ j, 0 <= j <= i → bitset W j = true → P (j / 64) = true) →
  (∀ j, j / 64 = u → j <= i → bitset W j = false) →
  is_pred P (u - 1) w →
  is_pred (bitset W) i (w * 64 + bitHigh (W w)) ∧ 0 <= bitHigh (W w) < 64.
Proof.
  intros Hi Hf Hn Hup Hmiss (_&Hw&Hmax). destruct (bitHigh_highest _ Hn Hf) as (Hb&Hh&Hhi).
  split; [|done]. split_and!; [by rewrite bitset_join|lia|lia|].
  intros j Hj. split_index j.
  destruct (decide (j / 64 = u)) as [E|]; [apply Hmiss; lia|].
  destruct (decide (j / 64 = w)) as [E|].
  - unfold bitset. rewrite E. apply Hhi. lia.
  - apply not_true_iff_false. intros Hm%Hup; [|lia]. by rewrite Hmax in Hm by lia.
Qed.

Lemma descend_low (P : Z → bool) n i u w :
  u * 64 <= i <= (u + 1) * 64 → fits 64 (W w) → W w ≠ 0 →
  (∀ j, i <= j < n * 64 → bitset W j = true → P (j / 64) = true) →
  (∀ j, j / 64 = u → i <= j → bitset W j = false) →
  is_succ P n (u + 1) w →
  is_succ (bitset W) (n * 64) i (w * 64 + bitLow (W w)) ∧ 0 <= bitLow (W w) < 64.
Proof.
  intros Hi Hf Hn Hup Hmiss (_&Hw&Hmin). destruct (bitLow_lowest _ Hn Hf) as (Hb&Hh&Hlo).
  split; [|done]. split_and!; [by rewrite bitset_join|lia|lia|].
  intros j Hj. split_index j.
  destruct (decide (j / 64 = u)) as [E|]; [apply Hmiss; lia|].
  destruct (decide (j / 64 = w)) as [E|].
  - unfold bitset. rewrite E. apply Hlo. lia.
  - apply not_true_iff_false. intros Hm%Hup; [|lia]. by rewrite Hmin in Hm by lia.
Qed.

(** A miss in the word of [i] and no word on the other side: nothing at all. *)
Lemma descend_none (P : Z → bool) (Q : Z → Prop) i :
  (∀ j, Q j → bitset W j = true → P (j / 64) = true) →
  (∀ j, j / 64 = i / 64 → Q j → bitset W j = false) →
  (∀ j, Q j → j / 64 ≠ i / 64 → P (j / 64) = false) →
  ∀ j, Q j → bitset W j = false.
Proof.
  intros Hup Hmiss Hnone j HQ. destruct (decide (j / 64 = i / 64)); [by apply Hmiss|].
  apply not_true_iff_false. intros Hm%Hup; [|done]. by rewrite Hnone in Hm.
Qed.

End one_level.

(** The three levels of a well-formed bitmap. *)
Definition level0 (s : PriceBitmapStorage) : Z → bool := bitset (aget (l0 s)).
Definition level1 (s : PriceBitmapStorage) : Z → bool := bitset (aget (l1 s)).
Definition level2 (s : PriceBitmapStorage) : Z → bool := bitset (λ _, l2 s).

Lemma sizes : kNumBits = 65536 ∧ kL0Words = 1024 ∧ kL1Words = 16.
Proof. done. Qed.

Lemma up01 s j : wf s → 0 <= j < kNumBits → level0 s j = true → level1 s (j / 64) = true.
Proof.
  intros Hwf Hj Hm. apply (wf_sum1 s Hwf).
  - by apply (split_bounds j kL0Words).
  - intros Hz. unfold level0, bitset in Hm. by rewrite Hz, Z.bits_0 in Hm.
Qed.

Lemma level2_bit s j : 0 <= j < 64 → level2 s j = Z.testbit (l2 s) j.
Proof. intros. unfold level2, bitset. by rewrite Z.mod_small by done. Qed.

Lemma up12 s j : wf s → 0 <= j < kL0Words → level1 s j = true → level2 s (j / 64) = true.
Proof.
  intros Hwf Hj Hm. pose proof (proj1 (split_bounds j kL1Words Hj)) as Hb.
  pose proof sizes. rewrite level2_bit by lia. apply (wf_sum2 s Hwf); [done|].
  intros Hz. unfold level1, bitset in Hm. by rewrite Hz, Z.bits_0 in Hm.
Qed.

Lemma down1 s w : wf s → 0 <= w < kL0Words → level1 s w = true → (l0 s).[w] ≠ 0.
Proof. intros Hwf Hw H. exact (proj1 (wf_sum1 s Hwf w Hw) H). Qed.

Lemma down2 s w : wf s → 0 <= w < kL1Words → level2 s w = true → (l1 s).[w] ≠ 0.
Proof.
  intros Hwf Hw H. pose proof sizes. rewrite level2_bit in H by lia.
  exact (proj1 (wf_sum2 s Hwf w Hw) H).
Qed.

Lemma mask_ext m Q Q' : (∀ i, 0 <= i < 64 → Q i ↔ Q' i) → mask_of m Q → mask_of m Q'.
Proof. intros HQ Hm i Hi. by rewrite (Hm i Hi), (HQ i Hi). Qed.

(** The two upper levels: the nearest non-empty first-level word strictly
    below (above) word [w0]. *)
Section upper_levels.
Context (s : PriceBitmapStorage) (Hwf : wf s) (w0 : Z) (Hw0 : 0 <= w0 < kL0Words).
Let w1 := w0 / 64.
Let b1 := w0 mod 64.

Lemma mask_l1_below : mask_of (maskBelow b1) (λ b, w1 * 64 + b <= w0 - 1).
Proof.
  split_index w0. eapply mask_ext; [|apply maskBelow_mask; done]. cbn. lia.
Qed.
Lemma mask_l1_above : mask_of (maskAbove b1) (λ b, w0 + 1 <= w1 * 64 + b).
Proof.
  split_index w0. eapply mask_ext; [|apply maskAbove_mask; done]. cbn. lia.
Qed.
Lemma mask_l2_below : mask_of (kValidL2Mask .& maskBelow w1) (λ b, 0 * 64 + b <= w1 - 1).
Proof.
  pose proof sizes. pose proof (split_bounds w0 kL1Words Hw0) as [? _].
  eapply mask_ext; [|apply mask_and; [apply kValidL2Mask_mask|apply maskBelow_mask; lia]].
  unfold w1. cbn. lia.
Qed.
Lemma mask_l2_above :
  mask_of (kValidL2Mask .& maskAbove w1) (λ b, b < 16 ∧ w1 + 1 <= b).
Proof.
  pose proof sizes. pose proof (split_bounds w0 kL1Words Hw0) as [? _].
  eapply mask_ext; [|apply mask_and; [apply kValidL2Mask_mask|apply maskAbove_mask; lia]].
  unfold w1. cbn. lia.
Qed.

Lemma l1_hit_high :
  (l1 s).[w1] .& maskBelow b1 ≠ 0 →
  let h := bitHigh ((l1 s).[w1] .& maskBelow b1) in
  is_pred (level1 s) (w0 - 1) (w1 * 64 + h) ∧ 0 <= h < 64.
Proof.
  intros Hn. split_index w0. apply hit_high; try done; [lia|lia|apply mask_l1_below|].
  apply (wf_l1 s Hwf).
Qed.
Lemma l1_hit_low :
  (l1 s).[w1] .& maskAbove b1 ≠ 0 →
  let h := bitLow ((l1 s).[w1] .& maskAbove b1) in
  is_succ (level1 s) kL0Words (w0 + 1) (w1 * 64 + h) ∧ 0 <= h < 64.
Proof.
  intros Hn. pose proof sizes. pose proof (split_bounds w0 kL1Words Hw0) as [? ?].
  split_index w0. apply hit_low; try done; [lia|lia|apply mask_l1_above|].
  apply (wf_l1 s Hwf).
Qed.

Lemma l2_none_high :
  (l1 s).[w1] .& maskBelow b1 = 0 → l2 s .& (kValidL2Mask .& maskBelow w1) = 0 →
  ∀ j, 0 <= j <= w0 - 1 → level1 s j = false.
Proof.
  intros Z1 Z2. apply (descend_none (aget (l1 s)) (level2 s) _ w0).
  - intros j Hj. apply up12; [done|lia].
  - intros j Ej Hj. apply (miss (aget (l1 s)) w1 _ (λ j, j <= w0 - 1) mask_l1_below Z1); [done|lia].
  - intros j Hj Hne. split_index j. split_index w0. pose proof sizes.
    apply (miss (λ _, l2 s) 0 _ (λ j, j <= w1 - 1) mask_l2_below Z2).
    + pose proof (split_bounds w0 kL1Words Hw0). apply Z.div_small. lia.
    + lia.
Qed.

Lemma l2_none_low :
  (l1 s).[w1] .& maskAbove b1 = 0 → l2 s .& (kValidL2Mask .& maskAbove w1) = 0 →
  ∀ j, w0 + 1 <= j < kL0Words → level1 s j = false.
Proof.
  intros Z1 Z2. apply (descend_none (aget (l1 s)) (level2 s) _ w0).
  - intros j Hj. apply up12; [done|lia].
  - intros j Ej Hj. apply (miss (aget (l1 s)) w1 _ (λ j, w0 + 1 <= j) mask_l1_above Z1); [done|lia].
  - intros j Hj Hne. split_index j. split_index w0. pose proof sizes.
    pose proof (split_bounds j kL1Words ltac:(lia)) as [? _].
    apply (miss (λ _, l2 s) 0 _ (λ j, j < 16 ∧ w1 + 1 <= j) mask_l2_above Z2); [|lia].
    apply Z.div_small. lia.
Qed.

Lemma l2_hit_high :
  (l1 s).[w1] .& maskBelow b1 = 0 → l2 s .& (kValidL2Mask .& maskBelow w1) ≠ 0 →
  let p := bitHigh (l2 s .& (kValidL2Mask .& maskBelow w1)) in
  let g := bitHigh (l1 s).[p] in
  (l1 s).[p] ≠ 0 ∧ is_pred (level1 s) (w0 - 1) (p * 64 + g) ∧ 0 <= g < 64.
Proof.
  intros Z1 N2 p g. pose proof sizes. pose proof (split_bounds w0 kL1Words Hw0) as [? ?].
  split_index w0. fold w1 b1 in H2, H0, H1, H3.
  destruct (hit_high (λ _, l2 s) 0 (w1 - 1) _ ltac:(lia) ltac:(lia)
    mask_l2_below (wf_l2 s Hwf) N2) as [Hp Hb].
  change (0 * 64 + _) with p in Hp. fold p in Hb.
  assert ((l1 s).[p] ≠ 0) as Hn.
  { destruct Hp as (?&?&_). apply down2; [done|lia|done]. }
  split; [done|]. apply (descend_high (aget (l1 s)) (level2 s) _ w1); try done.
  - lia.
  - apply (wf_l1 s Hwf).
  - intros j Hj. apply up12; [done|lia].
  - apply (miss (aget (l1 s)) w1 _ (λ j, j <= w0 - 1) mask_l1_below Z1).
Qed.

Lemma l2_hit_low :
  (l1 s).[w1] .& maskAbove b1 = 0 → l2 s .& (kValidL2Mask .& maskAbove w1) ≠ 0 →
  let p := bitLow (l2 s .& (kValidL2Mask .& maskAbove w1)) in
  let g := bitLow (l1 s).[p] in
  (l1 s).[p] ≠ 0 ∧ is_succ (level1 s) kL0Words (w0 + 1) (p * 64 + g) ∧ 0 <= g < 64.
Proof.
  intros Z1 N2 p g. pose proof sizes. pose proof (split_bounds w0 kL1Words Hw0) as [? ?].
  split_index w0. fold w1 b1 in H2, H0, H1, H3.
  destruct (masked_low _ _ _ mask_l2_above (wf_l2 s Hwf) N2) as (Hb&Hp&Hlt&Hmin).
  fold p in Hb, Hp, Hlt, Hmin. rewrite <- level2_bit in Hp by done.
  assert ((l1 s).[p] ≠ 0) as Hn by (apply down2; [done|lia|done]).
  split; [done|]. apply (descend_low (aget (l1 s)) (level2 s) kL1Words _ w1); try done.
  - lia.
  - apply (wf_l1 s Hwf).
  - intros j Hj. apply up12; [done|lia].
  - apply (miss (aget (l1 s)) w1 _ (λ j, w0 + 1 <= j) mask_l1_above Z1).
  - split_and!; [done|lia|lia|]. intros j Hj. rewrite level2_bit by lia. apply Hmin; lia.
Qed.

End upper_levels.

Lemma findHighest_clamped s i :
  wf s → 0 <= i < kNumBits → predecessor (mem s) i (findHighestAtOrBelow s i).
Proof.
  intros Hwf Hi. pose proof sizes as (K&K0&K1).
  pose proof (proj1 (split_bounds i kL0Words Hi)) as Hw0.
  split_index i. unfold findHighestAtOrBelow, findHighestAtOrBelowObserved.
  replace (kNumBits <=? i) with false by (symmetry; apply Z.leb_gt; lia).
  rewrite !shiftr6_div, !land63_mod, <- Z.land_assoc.
  assert (∀ r, is_pred (level0 s) i r → predecessor (mem s) i r) as Hhit.
  { intros r (Hr&Hb&Hm). right. split_and!; [lia|lia|lia|done|]. intros j ??. apply Hm. lia. }
  assert (mask_of (maskAtOrBelow (i mod 64)) (λ b, i / 64 * 64 + b <= i)) as M0.
  { eapply mask_ext; [|apply maskAtOrBelow_mask; lia]. cbn. lia. }
  destruct (Z.eqb_spec ((l0 s).[i / 64] .& maskAtOrBelow (i mod 64)) 0) as [Z0|N0]; cbn [negb].
  2: { destruct (hit_high (aget (l0 s)) (i / 64) i _ ltac:(lia) ltac:(lia) M0
         (wf_l0 s Hwf _) N0) as [? ?]. cbn [fst]. rewrite join64 by done. by apply Hhit. }
  pose proof (miss (aget (l0 s)) (i / 64) _ (λ j, j <= i) M0 Z0) as Miss0.
  assert (∀ j, 0 <= j <= i → level0 s j = true → level1 s (j / 64) = true) as Up0.
  { intros j Hj. apply up01; [done|lia]. }
  assert (∀ v, is_pred (level1 s) (i / 64 - 1) v →
    predecessor (mem s) i (if (l0 s).[v] =? 0 then kInvalid
                           else (v ≪ 6) .| bitHigh (l0 s).[v])) as Hchild.
  { intros v Hp. assert ((l0 s).[v] ≠ 0) as Hv.
    { destruct Hp as (?&?&?). apply down1; [done|lia|done]. }
    rewrite (proj2 (Z.eqb_neq _ _) Hv).
    destruct (descend_high (aget (l0 s)) (level1 s) i (i / 64) v ltac:(lia)
      (wf_l0 s Hwf v) Hv Up0 Miss0 Hp). rewrite join64 by done. by apply Hhit. }
  destruct (Z.eqb_spec ((l1 s).[i / 64 / 64] .& maskBelow ((i / 64) mod 64)) 0)
    as [Z1|N1]; cbn [negb fst].
  2: { destruct (l1_hit_high s Hwf _ Hw0 N1) as [? ?]. rewrite join64 by done. by apply Hchild. }
  destruct (Z.eqb_spec (l2 s .& (kValidL2Mask .& maskBelow (i / 64 / 64))) 0) as [Z2|N2].
  - left. split; [done|]. intros j Hj Hji.
    apply (descend_none (aget (l0 s)) (level1 s) (λ j, 0 <= j <= i) i); [done| | |lia].
    + intros k Ek Hk. apply Miss0; [done|lia].
    + intros k Hk Ne. split_index k. apply (l2_none_high s Hwf _ Hw0 Z1 Z2). lia.
  - destruct (l2_hit_high s Hwf _ Hw0 Z1 N2) as (Hn&?&?).
    rewrite (proj2 (Z.eqb_neq _ _) Hn). cbn [fst]. rewrite join64 by done. by apply Hchild.
Qed.

Lemma findLowest_in_range s i :
  wf s → 0 <= i < kNumBits → successor (mem s) i (findLowestAtOrAbove s i).
Proof.
  intros Hwf Hi. pose proof sizes as (K&K0&K1).
  pose proof (proj1 (split_bounds i kL0Words Hi)) as Hw0.
  split_index i. unfold findLowestAtOrAbove, findLowestAtOrAboveObserved.
  replace (kNumBits <=? i) with false by (symmetry; apply Z.leb_gt; lia).
  rewrite !shiftr6_div, !land63_mod, <- Z.land_assoc.
  assert (∀ r, is_succ (level0 s) (kL0Words * 64) i r → successor (mem s) i r) as Hhit.
  { intros r (Hr&Hb&Hm). right. split_and!; [lia|lia|lia|done|]. intros j ??. apply Hm. lia. }
  assert (mask_of (maskAtOrAbove (i mod 64)) (λ b, i <= i / 64 * 64 + b)) as M0.
  { eapply mask_ext; [|apply maskAtOrAbove_mask; lia]. cbn. lia. }
  destruct (Z.eqb_spec ((l0 s).[i / 64] .& maskAtOrAbove (i mod 64)) 0) as [Z0|N0]; cbn [negb].
  2: { destruct (hit_low (aget (l0 s)) (i / 64) i (kL0Words * 64) _ ltac:(lia) ltac:(lia) M0
         (wf_l0 s Hwf _) N0) as [? ?]. cbn [fst]. rewrite join64 by done. by apply Hhit. }
  pose proof (miss (aget (l0 s)) (i / 64) _ (λ j, i <= j) M0 Z0) as Miss0.
  assert (∀ j, i <= j < kL0Words * 64 → level0 s j = true → level1 s (j / 64) = true) as Up0.
  { intros j Hj. apply up01; [done|lia]. }
  assert (∀ v, is_succ (level1 s) kL0Words (i / 64 + 1) v →
    successor (mem s) i (if (l0 s).[v] =? 0 then kInvalid
                         else (v ≪ 6) .| bitLow (l0 s).[v])) as Hchild.
  { intros v Hp. assert ((l0 s).[v] ≠ 0) as Hv.
    { destruct Hp as (?&?&?). apply down1; [done|lia|done]. }
    rewrite (proj2 (Z.eqb_neq _ _) Hv).
    destruct (descend_low (aget (l0 s)) (level1 s) kL0Words i (i / 64) v ltac:(lia)
      (wf_l0 s Hwf v) Hv Up0 Miss0 Hp). rewrite join64 by done. by apply Hhit. }
  destruct (Z.eqb_spec ((l1 s).[i / 64 / 64] .& maskAbove ((i / 64) mod 64)) 0)
    as [Z1|N1]; cbn [negb fst].
  2: { destruct (l1_hit_low s Hwf _ Hw0 N1) as [? ?]. rewrite join64 by done. by apply Hchild. }
  destruct (Z.eqb_spec (l2 s .& (kValidL2Mask .& maskAbove (i / 64 / 64))) 0) as [Z2|N2].
  - left. split; [done|]. intros j Hj Hji.
    apply (descend_none (aget (l0 s)) (level1 s) (λ j, i <= j < kNumBits) i); [done| | |lia].
    + intros k Ek Hk. apply Miss0; [done|lia].
    + intros k Hk Ne. split_index k. apply (l2_none_low s Hwf _ Hw0 Z1 Z2). lia.
  - destruct (l2_hit_low s Hwf _ Hw0 Z1 N2) as (Hn&?&?).
    rewrite (proj2 (Z.eqb_neq _ _) Hn). cbn [fst]. rewrite join64 by done. by apply Hchild.
Qed.

(** ** Refinement of finite sets *)

Definition denotes (s : PriceBitmapStorage) (X : gset Z) : Prop :=
  wf s ∧ ∀ i, i ∈ X ↔ 0 <= i < kNumBits ∧ mem s i = true.

(** [r] is the greatest element of [X] at or below [idx] (the least at or
    above it), or [kInvalid] when [X] has none. *)
Definition pred_of (X : gset Z) (idx r : Z) : Prop :=
  (r = kInvalid ∧ ∀ j, j ∈ X → idx < j) ∨
  (r ∈ X ∧ r <= idx ∧ ∀ j, j ∈ X → j <= idx → j <= r).
Definition succ_of (X : gset Z) (idx r : Z) : Prop :=
  (r = kInvalid ∧ ∀ j, j ∈ X → j < idx) ∨
  (r ∈ X ∧ idx <= r ∧ ∀ j, j ∈ X → idx <= j → r <= j).

Lemma denotes_zero : denotes zeroed ∅.
Proof.
  split; [apply zero_wf|]. intros i. rewrite zero_mem, elem_of_empty. split; [done|by intros [_ ?]].
Qed.

Lemma denotes_range s X i : denotes s X → i ∈ X → 0 <= i < kNumBits.
Proof. intros [_ H] Hi. by apply H in Hi as [? _]. Qed.

Lemma denotes_set s X i : denotes s X → 0 <= i < kNumBits → denotes (set s i) ({[i]} ∪ X).
Proof.
  intros [Hwf H] Hi. split; [by apply set_wf|]. intros j. rewrite elem_of_union, elem_of_singleton, H.
  split.
  - intros [->|[Hj Hm]]; (split; [done|]); rewrite mem_set by done.
    + by rewrite bool_decide_eq_true_2, orb_true_r.
    + by rewrite Hm.
  - intros [Hj Hm]. rewrite mem_set in Hm by done. apply orb_true_iff in Hm as [Hm|Hm].
    + by right.
    + left. by apply bool_decide_eq_true in Hm.
Qed.

Lemma denotes_reset s X i : denotes s X → 0 <= i < kNumBits → denotes (reset s i) (X ∖ {[i]}).
Proof.
  intros [Hwf H] Hi. split; [by apply reset_wf|]. intros j.
  rewrite elem_of_difference, elem_of_singleton, H. split.
  - intros [[Hj Hm] Hne]. split; [done|]. rewrite mem_reset by done.
    by rewrite Hm, bool_decide_eq_false_2.
  - intros [Hj Hm]. rewrite mem_reset in Hm by done. apply andb_true_iff in Hm as [Hm Hn].
    split; [done|]. intros ->. by rewrite bool_decide_eq_true_2 in Hn.
Qed.

Lemma denotes_test s X i :
  denotes s X → 0 <= i < kNumBits → test s i = bool_decide (i ∈ X).
Proof.
  intros [_ H] Hi. rewrite testbit_1_iff. specialize (H i).
  case_bool_decide as E; [by apply H in E as [_ ?]|].
  apply not_true_iff_false. intros Hm. apply E, H. done.
Qed.

Lemma denotes_empty s X : denotes s X → empty s = bool_decide (X = ∅).
Proof.
  intros [Hwf H]. unfold empty. pose proof sizes as (K&K0&K1).
  destruct (Z.eqb_spec (l2 s .& kValidL2Mask) 0) as [E|E]; symmetry.
  - apply bool_decide_eq_true. apply elem_of_equiv_empty_L. intros i Hi.
    apply H in Hi as [Hi Hm]. pose proof (split_bounds i kL0Words Hi) as [Hw0 _].
    pose proof (split_bounds (i / 64) kL1Words Hw0) as [Hw1 _].
    apply up01 in Hm; [|done|done]. apply up12 in Hm; [|done|done].
    rewrite level2_bit in Hm by lia.
    rewrite (masked_zero _ _ _ kValidL2Mask_mask E) in Hm by lia. done.
  - apply bool_decide_eq_false. intros ->.
    destruct (masked_high _ _ _ kValidL2Mask_mask (wf_l2 s Hwf) E) as (Hh&Hb&H16&_).
    set (h := bitHigh _) in *. apply (wf_sum2 s Hwf) in Hb; [|lia].
    destruct (bitHigh_highest _ Hb (wf_l1 s Hwf h)) as (Hg&Hgb&_).
    set (g := bitHigh (l1 s).[h]) in *.
    assert ((l0 s).[h * 64 + g] ≠ 0) as Hc.
    { apply (wf_sum1 s Hwf); [lia|]. by destruct (split_join h g Hgb) as [-> ->]. }
    destruct (nonzero_has_bit _ (wf_l0 s Hwf _) Hc) as (b&Hb2&Hm).
    rewrite <- mem_split in Hm by done.
    apply (not_elem_of_empty (C := gset Z) ((h * 64 + g) * 64 + b)), H. split; [lia|done].
Qed.

(** The search answers in terms of the denoted set; an index past the last bit
    is clamped by the predecessor search and has no successor. *)
Lemma denotes_findHighest s X idx :
  denotes s X → 0 <= idx → pred_of X idx (findHighestAtOrBelow s idx).
Proof.
  intros [Hwf H] Hi. destruct (decide (idx < kNumBits)) as [Hlt|Hge].
  - destruct (findHighest_clamped s idx Hwf ltac:(lia)) as [[-> Hn]|(Hr&Hle&Hm&Hn)].
    + left. split; [done|]. intros j Hj%H. destruct (decide (j <= idx)); [|lia].
      destruct Hj as [Hj Hm]. by rewrite Hn in Hm by lia.
    + right. split_and!; [by apply H|done|]. intros j [Hj Hmj]%H Hle'.
      destruct (decide (j <= findHighestAtOrBelow s idx)); [done|].
      by rewrite Hn in Hmj by lia.
  - assert (findHighestAtOrBelow s idx = findHighestAtOrBelow s (kNumBits - 1)) as ->.
    { unfold findHighestAtOrBelow, findHighestAtOrBelowObserved.
      by rewrite (proj2 (Z.leb_le kNumBits idx) ltac:(lia)). }
    destruct (findHighest_clamped s (kNumBits - 1) Hwf ltac:(done)) as [[-> Hn]|(Hr&Hle&Hm&Hn)].
    + left. split; [done|]. intros j [Hj Hm]%H. by rewrite Hn in Hm by lia.
    + right. split_and!; [by apply H|lia|]. intros j [Hj Hmj]%H _.
      destruct (decide (j <= findHighestAtOrBelow s (kNumBits - 1))); [done|].
      by rewrite Hn in Hmj by lia.
Qed.

Lemma denotes_findLowest s X idx :
  denotes s X → 0 <= idx → succ_of X idx (findLowestAtOrAbove s idx).
Proof.
  intros [Hwf H] Hi. destruct (decide (idx < kNumBits)) as [Hlt|Hge].
  - destruct (findLowest_in_range s idx Hwf ltac:(lia)) as [[-> Hn]|(Hr&Hle&Hm&Hn)].
    + left. split; [done|]. intros j Hj%H. destruct (decide (idx <= j)); [|lia].
      destruct Hj as [Hj Hm]. by rewrite Hn in Hm by lia.
    + right. split_and!; [by apply H|done|]. intros j [Hj Hmj]%H Hle'.
      destruct (decide (findLowestAtOrAbove s idx <= j)); [done|].
      by rewrite Hn in Hmj by lia.
  - left. unfold findLowestAtOrAbove, findLowestAtOrAboveObserved.
    rewrite (proj2 (Z.leb_le kNumBits idx) ltac:(lia)). split; [done|].
    intros j [Hj _]%H. lia.
Qed.

(** A bitmap that denotes the set [X] still denotes a set after any
    update, and the updates are exactly insertion and removal; [test] is
    membership and [empty] emptiness. *)
Theorem bitmap_refines_set s X i :
  denotes s X → 0 <= i < kNumBits →
  denotes (set s i) ({[i]} ∪ X) ∧ denotes (reset s i) (X ∖ {[i]}) ∧
  test s i = bool_decide (i ∈ X) ∧ empty s = bool_decide (X = ∅).
Proof.
  intros. split_and!; [by apply denotes_set|by apply denotes_reset|
    by apply denotes_test|by apply denotes_empty].
Qed.

Lemma bitmap_refines_set_witness :
  denotes (reset (set zeroed 4097) 4097) (({[4097]} ∪ ∅) ∖ {[4097]}).
Proof.
  apply (bitmap_refines_set (set zeroed 4097) ({[4097]} ∪ ∅) 4097); [|done].
  apply denotes_set; [apply denotes_zero|done].
Defined.

(** For any 32-bit index the three-level searches return exactly the
    predecessor and the successor in the denoted set, or [kInvalid] when there
    is none, and never load more than [kMaxSearchWordLoads] words. *)
Theorem bitmap_search_exact s X idx :
  denotes s X → fits 32 idx →
  pred_of X idx (findHighestAtOrBelow s idx) ∧
  succ_of X idx (findLowestAtOrAbove s idx) ∧
  snd (findHighestAtOrBelowObserved s idx) <= kMaxSearchWordLoads ∧
  snd (findLowestAtOrAboveObserved s idx) <= kMaxSearchWordLoads.
Proof.
  intros Hd [Hi _]. split_and!.
  - by apply denotes_findHighest.
  - by apply denotes_findLowest.
  - unfold findHighestAtOrBelowObserved, kMaxSearchWordLoads. repeat case_if; cbn; lia.
  - unfold findLowestAtOrAboveObserved, kMaxSearchWordLoads. repeat case_if; cbn; lia.
Qed.

Lemma bitmap_search_exact_witness :
  let s := set (set zeroed 3) 65535 in
  findHighestAtOrBelow s 65534 = 3 ∧ findLowestAtOrAbove s 4 = 65535 ∧
  pred_of ({[65535]} ∪ ({[3]} ∪ ∅)) 65534 (findHighestAtOrBelow s 65534).
Proof.
  split_and!; [by vm_compute|by vm_compute|].
  refine (proj1 (bitmap_search_exact (set (set zeroed 3) 65535) ({[65535]} ∪ ({[3]} ∪ ∅)) 65534 _ _)); [|done].
  apply denotes_set; [|done]. apply denotes_set; [apply denotes_zero|done].
Defined.

End PriceBitmap.
