(* ===== verification/BookTypes.v ===== *)
(** Vocabulary shared by the book components: mutation results
    ([MutationResult.hpp]), order sides ([OrderSide.hpp]), the 16-byte order
    record ([OrderState.hpp]), stock locates ([StockLocate.hpp]), raw prices
    ([ItchPrice.hpp]) and their split into a page and a level. *)
From stdpp Require Import base list gmap strings.
From Stdlib Require Import ZArith Lia String.
From S2P Require Import Prelude Bits.
#[local] Open Scope Z_scope.
#[local] Open Scope astra_scope.

Inductive MutationResult :=
| Applied | InvalidLocate | BookNotPrepared | InvalidSide | InvalidQuantity
| PriceOutOfRange | OrderNotFound | DuplicateOrderRef | LocateMismatch
| QuantityExceeded | PricePageCapacityExceeded | OrderTableCapacityExceeded
| QuantityOverflow | QuantityUnderflow | OrderCountOverflow | InvalidPricePage
| MissingPriceLevel | StaleReservation | InvariantViolation | BookInvalid.

#[global] Instance MutationResult_eq_dec : EqDecision MutationResult.
Proof. solve_decision. Defined.

Inductive LookupPath := PathNone | Direct | FallbackPrimary | FallbackSecondary | Miss.

#[global] Instance LookupPath_eq_dec : EqDecision LookupPath.
Proof. solve_decision. Defined.

Definition mutationResultName (result : MutationResult) : string :=
  match result with
  | Applied => "applied"
  | InvalidLocate => "invalid locate"
  | BookNotPrepared => "book not prepared"
  | InvalidSide => "invalid side"
  | InvalidQuantity => "invalid quantity"
  | PriceOutOfRange => "price out of range"
  | OrderNotFound => "order not found"
  | DuplicateOrderRef => "duplicate order reference"
  | LocateMismatch => "stock locate mismatch"
  | QuantityExceeded => "quantity exceeds remaining order"
  | PricePageCapacityExceeded => "price page capacity exceeded"
  | OrderTableCapacityExceeded => "order table capacity exceeded"
  | QuantityOverflow => "quantity overflow"
  | QuantityUnderflow => "quantity underflow"
  | OrderCountOverflow => "order count overflow"
  | InvalidPricePage => "invalid price page"
  | MissingPriceLevel => "missing price level"
  | StaleReservation => "stale reservation"
  | InvariantViolation => "book invariant violation"
  | BookInvalid => "book state is invalid"
  end%string.

(** ** Sides

    The enumeration has an 8-bit underlying type and is read back from the
    order record with a cast, so it also has the values that name no side. *)
Inductive OrderSide := Buy | Sell | RawSide (v : Z).

#[global] Instance OrderSide_eq_dec : EqDecision OrderSide.
Proof. solve_decision. Defined.

Definition side_byte (side : OrderSide) : Z :=
  match side with Buy => 1 | Sell => 2 | RawSide v => v end.

(** [static_cast<OrderSide>(byte)]. *)
Definition side_of_byte (v : Z) : OrderSide :=
  if v =? 1 then Buy else if v =? 2 then Sell else RawSide v.

Lemma side_of_byte_inv side :
  side = Buy ∨ side = Sell → side_of_byte (side_byte side) = side.
Proof. by intros [->| ->]. Qed.

(** ** Stock locates *)

Definition kStockLocateSlots : Z := 65536.
Definition kInvalidStockLocate : Z := 0.
Definition isValidStockLocate (locate : Z) : bool := negb (locate =? kInvalidStockLocate).

(** A 16-bit locate that is not the reserved zero. *)
Definition good_locate (locate : Z) : Prop := 0 < locate < kStockLocateSlots.

Lemma good_locate_valid locate : good_locate locate → isValidStockLocate locate = true.
Proof.
  intros []. unfold isValidStockLocate, kInvalidStockLocate.
  destruct (Z.eqb_spec locate 0); [lia|done].
Qed.

Lemma valid_good_locate locate :
  fits 16 locate → isValidStockLocate locate = true → good_locate locate.
Proof.
  intros [? ?] Hv. unfold isValidStockLocate, kInvalidStockLocate in Hv. zbool.
  unfold good_locate, kStockLocateSlots. lia.
Qed.

(** ** Order records *)

Definition kOrderStateActive : Z := 1.
Definition kOrderStateSeen : Z := 2.

Record OrderState := mkOrder {
  qty : Z;
  price_page_handle : Z;
  price_level_index : Z;
  locate : Z;
  side : Z;
  flags : Z;
  price_page_index : Z }.
#[global] Instance OrderState_zeroed : Zeroed OrderState := mkOrder 0 0 0 0 0 0 0.

Definition isActive (state : OrderState) : bool := negb ((flags state .& kOrderStateActive) =? 0).
Definition wasSeen (state : OrderState) : bool := negb ((flags state .& kOrderStateSeen) =? 0).

(** Assignments to single members of the record. *)
Definition with_flags (st : OrderState) (f : Z) : OrderState :=
  mkOrder (qty st) (price_page_handle st) (price_level_index st) (locate st) (side st) f
    (price_page_index st).
Definition with_qty (st : OrderState) (q : Z) : OrderState :=
  mkOrder q (price_page_handle st) (price_level_index st) (locate st) (side st) (flags st)
    (price_page_index st).

Lemma land_pow2_testbit x k : 0 <= k → negb (x .& 2 ^ k =? 0) = Z.testbit x k.
Proof.
  intros Hk. destruct (Z.testbit x k) eqn:E.
  - apply negb_true_iff, Z.eqb_neq. intros H0. apply (zero_no_bit _ k H0).
    rewrite testbit_land_true. split; [done|]. by apply Z.pow2_bits_true.
  - apply negb_false_iff, Z.eqb_eq. apply Z.bits_inj'. intros n Hn.
    rewrite Z.land_spec, Z.bits_0, Z.pow2_bits_eqb by done.
    destruct (Z.eqb_spec k n) as [<-|]; [by rewrite E|apply andb_false_r].
Qed.

Lemma isActive_bit st : isActive st = Z.testbit (flags st) 0.
Proof. apply (land_pow2_testbit _ 0). lia. Qed.
Lemma wasSeen_bit st : wasSeen st = Z.testbit (flags st) 1.
Proof. apply (land_pow2_testbit _ 1). lia. Qed.

(** ** Prices *)

Definition kMaxItchPrice4 : Z := 2000000000.
Definition isValidItchPrice4 (raw_price : Z) : bool := raw_price <=? kMaxItchPrice4.

Definition kPricePartBits : Z := 16.
Definition kPricePartCount : Z := 1 ≪ kPricePartBits.

Record PriceParts := mkParts { page_index : Z; level_index : Z }.

Definition splitPrice (price : Z) : PriceParts :=
  mkParts (u16 (price ≫ kPricePartBits)) (u16 (price .& 65535)).
Definition joinPrice (page_index level_index : Z) : Z :=
  (page_index ≪ kPricePartBits) .| level_index.
Definition priceRootIndex (stock_locate page_index : Z) : Z :=
  (stock_locate ≪ kPricePartBits) .| page_index.

(** The index of a page, or of a level inside its page. *)
Definition part (i : Z) : Prop := 0 <= i < kPricePartCount.

Lemma joinPrice_arith p i : part i → joinPrice p i = p * 65536 + i.
Proof. intros. by apply (lor_shiftl_add p i 16). Qed.

Lemma splitPrice_arith price :
  fits 32 price → splitPrice price = mkParts (price / 65536) (price mod 65536).
Proof.
  intros [? ?]. unfold splitPrice, kPricePartBits. f_equal.
  - rewrite Z.shiftr_div_pow2 by lia. apply u16_id.
    split; [apply Z.div_pos; lia|apply Z.div_lt_upper_bound; lia].
  - change 65535 with (2 ^ 16 - 1). rewrite land_ones_mod by lia. apply u16_id.
    by apply Z.mod_pos_bound.
Qed.

Lemma split_parts price :
  fits 32 price → part (page_index (splitPrice price)) ∧ part (level_index (splitPrice price)).
Proof.
  intros H. rewrite splitPrice_arith by done. destruct H as [? ?]. cbn.
  unfold part; change kPricePartCount with 65536. split.
  - split; [apply Z.div_pos; lia|apply Z.div_lt_upper_bound; lia].
  - by apply Z.mod_pos_bound.
Qed.

Lemma join_split price :
  fits 32 price →
  joinPrice (page_index (splitPrice price)) (level_index (splitPrice price)) = price.
Proof.
  intros H. pose proof (split_parts price H) as [_ Hl]. rewrite joinPrice_arith by done.
  rewrite splitPrice_arith by done. cbn. rewrite Z.mul_comm. symmetry. by apply Z.div_mod.
Qed.

Lemma join_fits p i : part p → part i → fits 32 (joinPrice p i).
Proof.
  intros Hp Hi. rewrite joinPrice_arith by done. unfold part in *.
  change kPricePartCount with 65536 in *. split; lia.
Qed.

Lemma split_join_price p i : part p → part i → splitPrice (joinPrice p i) = mkParts p i.
Proof.
  intros Hp Hi. rewrite splitPrice_arith by (by apply join_fits).
  rewrite joinPrice_arith by done. unfold part in *. change kPricePartCount with 65536 in *.
  f_equal.
  - rewrite Z.div_add_l, Z.div_small by lia. lia.
  - rewrite Z.add_comm, Z.mod_add, Z.mod_small by lia. lia.
Qed.

Lemma root_index_inj l p l' p' :
  part p → part p' → priceRootIndex l p = priceRootIndex l' p' → l = l' ∧ p = p'.
Proof.
  unfold priceRootIndex, part, kPricePartBits. change kPricePartCount with 65536.
  intros Hp Hp'. rewrite !lor_shiftl_add by (simpl; lia). simpl. lia.
Qed.
