(* ===== verification/Orders.v ===== *)
(** The order table of [OrderTable.hpp]/[OrderTable.cpp]: a direct-addressed
    arena for small order references and a two-choice, two-way bucketed
    fallback for the rest, with day-unique references (a record stays [seen]
    after its order died).

    [OrderTable] translates the class.  A pointer to a resident [OrderState]
    is a [slot]; [deref] reads it and [store] writes through it.  [table_ok] is
    the representation invariant, [record t ref] the abstract finite map from
    day-unique references to the latest record. *)
From stdpp Require Import base list gmap.
From Stdlib Require Import ZArith Lia.
From S2P Require Import Prelude Bits BookTypes.
#[local] Open Scope Z_scope.
#[local] Open Scope astra_scope.

#[global] Instance arr_zeroed {A} : Zeroed (gmap Z A) := (∅ : gmap Z A).

Module OrderTable.

Record FallbackEntry := mkEntry { state : OrderState; order_ref : Z }.
#[global] Instance FallbackEntry_zeroed : Zeroed FallbackEntry := mkEntry zeroed 0.

Record t := mk {
  direct_slots : Z;
  fallback_bucket_count : Z;
  direct : arr OrderState;
  fallback : arr (arr FallbackEntry) }.

Definition kFallbackWays : Z := 2.
Definition kMaxFallbackSlotsExamined : Z := 4.

(** The constructor with its configuration check; [None] is
    [std::invalid_argument]. *)
Definition validateConfig (direct_slots fallback_bucket_count : Z) : bool :=
  negb ((direct_slots =? 0) || (max_u64 <? direct_slots)) &&
  negb ((fallback_bucket_count =? 0) ||
        negb (fallback_bucket_count .& (fallback_bucket_count - 1) =? 0)).

Definition make (direct_slots fallback_bucket_count : Z) : option t :=
  if validateConfig direct_slots fallback_bucket_count
  then Some (mk direct_slots fallback_bucket_count ∅ ∅)
  else None.

Definition hashPrimary (value : Z) : Z :=
  let value := value .^ (value ≫ 33) in
  let value := u64 (value * 0xff51afd7ed558ccd) in
  let value := value .^ (value ≫ 33) in
  let value := u64 (value * 0xc4ceb9fe1a85ec53) in
  value .^ (value ≫ 33).

Definition hashSecondary (value : Z) : Z :=
  let value := u64 (value + 0x9e3779b97f4a7c15) in
  let value := u64 ((value .^ (value ≫ 30)) * 0xbf58476d1ce4e5b9) in
  let value := u64 ((value .^ (value ≫ 27)) * 0x94d049bb133111eb) in
  value .^ (value ≫ 31).

Definition fallbackCandidateBuckets (tb : t) (ref : Z) : Z * Z :=
  let mask := u32 (fallback_bucket_count tb - 1) in
  let primary := u32 (hashPrimary ref) .& mask in
  let secondary := u32 (hashSecondary ref) .& mask in
  (primary,
   if (secondary =? primary) && (1 <? fallback_bucket_count tb)
   then u32 (secondary + 1) .& mask else secondary).

Definition fallbackEntry (tb : t) (bucket way : Z) : FallbackEntry :=
  (fallback tb).[bucket].[way].

Definition set_fallbackEntry (tb : t) (bucket way : Z) (e : FallbackEntry) : t :=
  mk (direct_slots tb) (fallback_bucket_count tb) (direct tb)
     (<[bucket := <[way := e]> (fallback tb).[bucket]]> (fallback tb)).

Definition set_direct (tb : t) (i : Z) (st : OrderState) : t :=
  mk (direct_slots tb) (fallback_bucket_count tb) (<[i := st]> (direct tb)) (fallback tb).

(** The candidate and way loops of every fallback scan, in order: candidate
    number, bucket, way. *)
Definition fallbackProbes (tb : t) (ref : Z) : list (Z * Z * Z) :=
  let '(primary, secondary) := fallbackCandidateBuckets tb ref in
  [(0, primary, 0); (0, primary, 1)] ++
  (if primary =? secondary then [] else [(1, secondary, 0); (1, secondary, 1)]).

(** A pointer to a resident record. *)
Inductive slot := DirectSlot (i : Z) | FallbackSlot (bucket way : Z).

#[global] Instance slot_eq_dec : EqDecision slot.
Proof. solve_decision. Defined.

Definition deref (tb : t) (p : slot) : OrderState :=
  match p with
  | DirectSlot i => (direct tb).[i]
  | FallbackSlot b w => state (fallbackEntry tb b w)
  end.

Definition store (tb : t) (p : slot) (st : OrderState) : t :=
  match p with
  | DirectSlot i => set_direct tb i st
  | FallbackSlot b w =>
      set_fallbackEntry tb b w (mkEntry st (order_ref (fallbackEntry tb b w)))
  end.

(** [findFallbackStateObserved]: the resident pointer and the number of slots
    the observer saw. *)
Fixpoint scanState (tb : t) (ref : Z) (probes : list (Z * Z * Z)) (seen : Z) : option slot * Z :=
  match probes with
  | [] => (None, seen)
  | (_, bucket, way) :: rest =>
      let e := fallbackEntry tb bucket way in
      if isActive (state e) && (order_ref e =? ref)
      then (Some (FallbackSlot bucket way), seen + 1)
      else scanState tb ref rest (seen + 1)
  end.

Definition findFallbackStateObserved (tb : t) (ref : Z) : option slot * Z :=
  scanState tb ref (fallbackProbes tb ref) 0.

Definition findFallbackState (tb : t) (ref : Z) : option slot :=
  fst (findFallbackStateObserved tb ref).

Definition findState (tb : t) (ref : Z) : option slot :=
  if direct_slots tb <=? ref then findFallbackState tb ref
  else if isActive (direct tb).[ref] then Some (DirectSlot ref) else None.

Record OrderLookup := mkLookup {
  lk_result : MutationResult; lk_path : LookupPath; lk_state : option slot }.

Definition found (l : OrderLookup) : bool :=
  bool_decide (lk_result l = Applied) && match lk_state l with Some _ => true | None => false end.

Definition candidatePath (candidate : Z) : LookupPath :=
  if candidate =? 0 then FallbackPrimary else FallbackSecondary.

Fixpoint scanFind (tb : t) (ref : Z) (probes : list (Z * Z * Z)) : OrderLookup :=
  match probes with
  | [] => mkLookup OrderNotFound Miss None
  | (candidate, bucket, way) :: rest =>
      let e := fallbackEntry tb bucket way in
      if isActive (state e) && (order_ref e =? ref)
      then mkLookup Applied (candidatePath candidate) (Some (FallbackSlot bucket way))
      else scanFind tb ref rest
  end.

Definition find (tb : t) (ref : Z) : OrderLookup :=
  if ref <? direct_slots tb then
    if isActive (direct tb).[ref]
    then mkLookup Applied Direct (Some (DirectSlot ref))
    else mkLookup OrderNotFound Direct None
  else scanFind tb ref (fallbackProbes tb ref).

Record OrderSlotReservation := mkReservation {
  rs_result : MutationResult;
  rs_path : LookupPath;
  rs_order_ref : Z;
  rs_bucket : Z;
  rs_way : Z }.

Definition reservation_valid (r : OrderSlotReservation) : bool :=
  bool_decide (rs_result r = Applied).

Fixpoint scanReserve (tb : t) (ref : Z) (probes : list (Z * Z * Z))
    (first_empty : OrderSlotReservation) : OrderSlotReservation :=
  match probes with
  | [] => first_empty
  | (candidate, bucket, way) :: rest =>
      let e := fallbackEntry tb bucket way in
      if wasSeen (state e) then
        if order_ref e =? ref
        then mkReservation DuplicateOrderRef (candidatePath candidate) ref bucket way
        else scanReserve tb ref rest first_empty
      else if negb (reservation_valid first_empty)
      then scanReserve tb ref rest
             (mkReservation Applied (candidatePath candidate) ref bucket way)
      else scanReserve tb ref rest first_empty
  end.

Definition reserve (tb : t) (ref : Z) : OrderSlotReservation :=
  if ref <? direct_slots tb then
    if wasSeen (direct tb).[ref]
    then mkReservation DuplicateOrderRef Direct ref 0 0
    else mkReservation Applied Direct ref 0 0
  else scanReserve tb ref (fallbackProbes tb ref)
         (mkReservation OrderTableCapacityExceeded PathNone ref 0 0).

Definition mark (st : OrderState) : OrderState :=
  with_flags st (u8 (flags st .| kOrderStateActive .| kOrderStateSeen)).

Definition commit (tb : t) (r : OrderSlotReservation) (st0 : OrderState) : MutationResult * t :=
  if negb (reservation_valid r) then (rs_result r, tb) else
  let st := mark st0 in
  if bool_decide (rs_path r = Direct) then
    if direct_slots tb <=? rs_order_ref r then (StaleReservation, tb) else
    if wasSeen (direct tb).[rs_order_ref r] then (StaleReservation, tb) else
    (Applied, set_direct tb (rs_order_ref r) st)
  else
  if (negb (bool_decide (rs_path r = FallbackPrimary)) &&
      negb (bool_decide (rs_path r = FallbackSecondary))) ||
     (fallback_bucket_count tb <=? rs_bucket r) ||
     (kFallbackWays <=? rs_way r) ||
     (rs_order_ref r <? direct_slots tb)
  then (StaleReservation, tb) else
  let '(primary, secondary) := fallbackCandidateBuckets tb (rs_order_ref r) in
  let is_primary := bool_decide (rs_path r = FallbackPrimary) in
  if negb (rs_bucket r =? (if is_primary then primary else secondary)) ||
     (negb is_primary && (primary =? secondary))
  then (StaleReservation, tb) else
  if wasSeen (state (fallbackEntry tb (rs_bucket r) (rs_way r)))
  then (StaleReservation, tb) else
  (Applied, set_fallbackEntry tb (rs_bucket r) (rs_way r) (mkEntry st (rs_order_ref r))).

(** [erase] of a record pointer; [None] is the null pointer. *)
Definition tombstone : OrderState := with_flags zeroed kOrderStateSeen.

Definition erase (tb : t) (p : option slot) : MutationResult * t :=
  match p with
  | None => (OrderNotFound, tb)
  | Some s => if negb (isActive (deref tb s)) then (OrderNotFound, tb)
              else (Applied, store tb s tombstone)
  end.

Definition eraseLookup (tb : t) (l : OrderLookup) : MutationResult * t :=
  if found l then erase tb (lk_state l) else (lk_result l, tb).

Definition eraseRef (tb : t) (ref : Z) : MutationResult * t := erase tb (findState tb ref).

(** ** Representation invariant and abstraction *)

Definition in_probes (tb : t) (ref b w : Z) : Prop := ∃ c, (c, b, w) ∈ fallbackProbes tb ref.

(** [p] is the place where the table keeps the record of [ref]. *)
Definition holds (tb : t) (ref : Z) (p : slot) : Prop :=
  match p with
  | DirectSlot i => i = ref ∧ ref < direct_slots tb ∧ wasSeen (direct tb).[i] = true
  | FallbackSlot b w =>
      direct_slots tb <= ref ∧ in_probes tb ref b w ∧
      order_ref (fallbackEntry tb b w) = ref ∧ wasSeen (state (fallbackEntry tb b w)) = true
  end.

Record table_ok (tb : t) : Prop := {
  ok_buckets : ∃ k, 0 <= k < 32 ∧ fallback_bucket_count tb = 2 ^ k;
  ok_direct : 0 < direct_slots tb;
  ok_active_direct : ∀ i, isActive (direct tb).[i] = true → wasSeen (direct tb).[i] = true;
  ok_active_fallback : ∀ b w, isActive (state (fallbackEntry tb b w)) = true →
    wasSeen (state (fallbackEntry tb b w)) = true;
  ok_unique : ∀ ref p q, holds tb ref p → holds tb ref q → p = q }.

(** The latest record of a reference: the abstract map. *)
Fixpoint scanRecord (tb : t) (ref : Z) (probes : list (Z * Z * Z)) : option OrderState :=
  match probes with
  | [] => None
  | (_, b, w) :: rest =>
      let e := fallbackEntry tb b w in
      if wasSeen (state e) && (order_ref e =? ref) then Some (state e)
      else scanRecord tb ref rest
  end.

Definition record (tb : t) (ref : Z) : option OrderState :=
  if ref <? direct_slots tb then
    if wasSeen (direct tb).[ref] then Some (direct tb).[ref] else None
  else scanRecord tb ref (fallbackProbes tb ref).

(** The live order of a reference. *)
Definition live (tb : t) (ref : Z) : option OrderState :=
  match record tb ref with
  | Some st => if isActive st then Some st else None
  | None => None
  end.

Lemma scanRecord_spec tb ref probes st :
  scanRecord tb ref probes = Some st →
  ∃ c b w, (c, b, w) ∈ probes ∧ order_ref (fallbackEntry tb b w) = ref ∧
    wasSeen (state (fallbackEntry tb b w)) = true ∧ st = state (fallbackEntry tb b w).
Proof.
  induction probes as [|[[c b] w] rest IH]; cbn [scanRecord]; [done|].
  case_if.
  - intros [= <-]. exists c, b, w. split_and!; try done. by left.
  - intros (c'&b'&w'&?&?)%IH. exists c', b', w'. split; [by right|done].
Qed.

Lemma scanRecord_none tb ref probes c b w :
  scanRecord tb ref probes = None → (c, b, w) ∈ probes →
  wasSeen (state (fallbackEntry tb b w)) = true → order_ref (fallbackEntry tb b w) ≠ ref.
Proof.
  induction probes as [|[[c' b'] w'] rest IH]; cbn [scanRecord]; [set_solver|].
  destruct (_ && _) eqn:E; [done|]. intros Hn [[= <- <- <-]|Hin]%elem_of_cons Hs.
  - rewrite Hs in E. cbn in E. by zbool.
  - by apply IH.
Qed.

Lemma record_holds tb ref st :
  record tb ref = Some st → ∃ p, holds tb ref p ∧ deref tb p = st.
Proof.
  unfold record. case_if.
  - case_if; [|done]. intros [= <-]. by exists (DirectSlot ref).
  - intros (c&b&w&?&?&?&->)%scanRecord_spec. exists (FallbackSlot b w).
    split; [|done]. split_and!; [done|by exists c|done|done].
Qed.

Lemma holds_record tb ref p :
  table_ok tb → holds tb ref p → record tb ref = Some (deref tb p).
Proof.
  intros Hok Hp. destruct (record tb ref) as [st|] eqn:E.
  - apply record_holds in E as (q&Hq&<-). by rewrite (ok_unique tb Hok ref p q).
  - exfalso. revert E. unfold record. destruct p as [i|b w].
    + destruct Hp as (->&Hlt&->). by rewrite (proj2 (Z.ltb_lt _ _) Hlt).
    + destruct Hp as (Hge&[c Hin]&Href&Hs).
      rewrite (proj2 (Z.ltb_ge _ _) Hge). intros E. by eapply scanRecord_none in E.
Qed.

(** The state scan and the diagnostic scan stop at the same slot. *)
Lemma scanFind_state tb ref probes n :
  lk_state (scanFind tb ref probes) = fst (scanState tb ref probes n) ∧
  lk_result (scanFind tb ref probes) =
    match fst (scanState tb ref probes n) with Some _ => Applied | None => OrderNotFound end.
Proof.
  revert n. induction probes as [|[[c b] w] rest IH]; intros n; cbn; [done|].
  by case_if.
Qed.

Lemma find_agrees tb ref :
  lk_state (find tb ref) = findState tb ref ∧
  lk_result (find tb ref) =
    match findState tb ref with Some _ => Applied | None => OrderNotFound end.
Proof.
  unfold find, findState. destruct (Z.leb_spec (direct_slots tb) ref) as [H|H].
  - rewrite (proj2 (Z.ltb_ge _ _) H). apply scanFind_state.
  - rewrite (proj2 (Z.ltb_lt _ _) H). by case_if.
Qed.

Lemma scanState_hit tb ref probes n p :
  fst (scanState tb ref probes n) = Some p →
  ∃ c b w, p = FallbackSlot b w ∧ (c, b, w) ∈ probes ∧
    order_ref (fallbackEntry tb b w) = ref ∧ isActive (state (fallbackEntry tb b w)) = true.
Proof.
  revert n. induction probes as [|[[c b] w] rest IH]; intros n; cbn; [done|].
  case_if.
  - intros [= <-]. exists c, b, w. split_and!; try done. by left.
  - intros (c'&b'&w'&?&?&?&?)%IH. exists c', b', w'. split_and!; try done. by right.
Qed.

Lemma scanState_miss tb ref probes n c b w :
  fst (scanState tb ref probes n) = None → (c, b, w) ∈ probes →
  isActive (state (fallbackEntry tb b w)) = true → order_ref (fallbackEntry tb b w) ≠ ref.
Proof.
  revert n. induction probes as [|[[c' b'] w'] rest IH]; intros n; cbn; [set_solver|].
  destruct (_ && _) eqn:E; [done|]. intros Hn [[= <- <- <-]|Hin]%elem_of_cons Hs.
  - rewrite Hs in E. cbn in E. by zbool.
  - by eapply IH.
Qed.

Lemma scanState_count tb ref probes n :
  n <= snd (scanState tb ref probes n) <= n + Z.of_nat (length probes).
Proof.
  revert n. induction probes as [|[[c b] w] rest IH]; intros n; cbn [scanState]; [cbn; lia|].
  case_if; cbn [snd length]; [lia|]. specialize (IH (n + 1)). lia.
Qed.

Lemma probes_length tb ref : (length (fallbackProbes tb ref) <= 4)%nat.
Proof.
  unfold fallbackProbes. destruct (fallbackCandidateBuckets tb ref). case_if; cbn; lia.
Qed.

Lemma findState_holds tb ref p :
  table_ok tb → findState tb ref = Some p → holds tb ref p ∧ isActive (deref tb p) = true.
Proof.
  intros Hok. unfold findState. case_if.
  - intros (c&b&w&->&Hin&Href&Ha)%scanState_hit. split; [|done].
    split_and!; [done|by exists c|done|]. by apply (ok_active_fallback tb Hok).
  - case_if; [|done]. intros [= <-]. split; [|done]. split_and!; [done|done|].
    by apply (ok_active_direct tb Hok).
Qed.

Lemma findState_none tb ref p :
  findState tb ref = None → holds tb ref p → isActive (deref tb p) = false.
Proof.
  intros Hn Hp. apply not_true_iff_false. intros Ha. revert Hn. unfold findState.
  destruct p as [i|b w]; cbn in Ha.
  - destruct Hp as (->&Hlt&_). rewrite (proj2 (Z.leb_gt _ _) Hlt). by rewrite Ha.
  - destruct Hp as (Hge&[c Hin]&Href&Hs). rewrite (proj2 (Z.leb_le _ _) Hge).
    intros Hn. by eapply scanState_miss in Hn.
Qed.

Lemma findState_live tb ref :
  table_ok tb → live tb ref = match findState tb ref with
                              | Some p => Some (deref tb p) | None => None end.
Proof.
  intros Hok. unfold live. destruct (findState tb ref) as [p|] eqn:E.
  - destruct (findState_holds tb ref p Hok E) as [Hp Ha].
    by rewrite (holds_record tb ref p Hok Hp), Ha.
  - destruct (record tb ref) as [st|] eqn:Er; [|done].
    apply record_holds in Er as (p&Hp&<-). by rewrite (findState_none tb ref p E Hp).
Qed.

(** ** Writes

    Writing a seen record into the slot that holds [ref], or into a free
    candidate slot of [ref]: the other references keep their records. *)

Definition candidate_slot (tb : t) (ref : Z) (p : slot) : Prop :=
  match p with
  | DirectSlot i => i = ref ∧ ref < direct_slots tb
  | FallbackSlot b w => direct_slots tb <= ref ∧ in_probes tb ref b w
  end.

(** Publish [st] as the record of [ref] in slot [p]. *)
Definition publish (tb : t) (ref : Z) (p : slot) (st : OrderState) : t :=
  match p with
  | DirectSlot i => set_direct tb i st
  | FallbackSlot b w => set_fallbackEntry tb b w (mkEntry st ref)
  end.

Lemma fallbackEntry_set tb b w e b' w' :
  fallbackEntry (set_fallbackEntry tb b w e) b' w' =
  if decide ((b, w) = (b', w')) then e else fallbackEntry tb b' w'.
Proof.
  unfold fallbackEntry, set_fallbackEntry; cbn. rewrite aget_insert.
  destruct (decide (b = b')) as [->|Hb].
  - rewrite aget_insert. destruct (decide (w = w')) as [->|Hw].
    + by rewrite decide_True.
    + rewrite decide_False by congruence. done.
  - rewrite decide_False by congruence. done.
Qed.

Lemma probes_publish tb ref p st r :
  fallbackProbes (publish tb ref p st) r = fallbackProbes tb r.
Proof. by destruct p. Qed.

Lemma in_probes_publish tb ref p st r b w :
  in_probes (publish tb ref p st) r b w ↔ in_probes tb r b w.
Proof. unfold in_probes. by rewrite probes_publish. Qed.

Lemma holds_publish tb ref p st r q :
  candidate_slot tb ref p → wasSeen st = true →
  holds (publish tb ref p st) r q ↔
  (q = p ∧ r = ref) ∨ (q ≠ p ∧ holds tb r q).
Proof.
  intros Hc Hs. destruct q as [i|b w], p as [j|b' w']; cbn [holds].
  - cbn. rewrite aget_insert. destruct Hc as [-> Hlt]. case_decide as E.
    + subst. naive_solver.
    + naive_solver.
  - cbn. naive_solver.
  - rewrite in_probes_publish. cbn. naive_solver.
  - rewrite in_probes_publish. cbn [publish]. rewrite fallbackEntry_set.
    destruct Hc as [Hge Hin]. case_decide as E.
    + injection E as -> ->. cbn. split; [naive_solver|].
      intros [[_ ->]|[? _]]; [done|done].
    + cbn. naive_solver.
Qed.

Lemma deref_publish tb ref p st q :
  deref (publish tb ref p st) q = if decide (q = p) then st else deref tb q.
Proof.
  destruct q as [i|b w], p as [j|b' w']; cbn [deref publish].
  - cbn. rewrite aget_insert. repeat case_decide; congruence.
  - rewrite decide_False by done. done.
  - rewrite decide_False by done. done.
  - rewrite fallbackEntry_set. repeat case_decide; naive_solver.
Qed.

(** A slot of [ref] that is free, or holds [ref] already. *)
Definition available (tb : t) (ref : Z) (p : slot) : Prop :=
  candidate_slot tb ref p ∧
  ∀ r q, holds tb r q → (q = p ↔ r = ref).

Lemma publish_ok tb ref p st :
  table_ok tb → available tb ref p → wasSeen st = true →
  table_ok (publish tb ref p st).
Proof.
  intros Hok [Hc Hav] Hs. split.
  - destruct (ok_buckets tb Hok) as [k Hk]. exists k. by destruct p.
  - pose proof (ok_direct tb Hok). by destruct p.
  - intros i. pose proof (deref_publish tb ref p st (DirectSlot i)) as Hd. cbn [deref] in Hd.
    rewrite Hd. case_decide; [done|]. apply (ok_active_direct tb Hok).
  - intros b w. pose proof (deref_publish tb ref p st (FallbackSlot b w)) as Hd.
    cbn [deref] in Hd. rewrite Hd. case_decide; [done|]. apply (ok_active_fallback tb Hok).
  - intros r q q' Hq Hq'. apply holds_publish in Hq, Hq'; try done.
    destruct Hq as [[-> ->]|[Hne Hq]], Hq' as [[-> Hr]|[Hne' Hq']]; try done.
    + destruct (Hav ref q' Hq') as [_ H]. by destruct (Hne' (H eq_refl)).
    + subst r. destruct (Hav ref q Hq) as [_ H]. by destruct (Hne (H eq_refl)).
    + by apply (ok_unique tb Hok r).
Qed.

Lemma record_publish tb ref p st r :
  table_ok tb → available tb ref p → wasSeen st = true →
  record (publish tb ref p st) r = if decide (r = ref) then Some st else record tb r.
Proof.
  intros Hok Hav Hs. pose proof (publish_ok tb ref p st Hok Hav Hs) as Hok'.
  destruct Hav as [Hc Hav]. case_decide as Hr.
  - subst r. rewrite (holds_record _ ref p Hok').
    + rewrite deref_publish. by rewrite decide_True.
    + apply holds_publish; [done|done|]. by left.
  - destruct (record tb r) as [st'|] eqn:E.
    + apply record_holds in E as (q&Hq&<-).
      assert (q ≠ p) as Hqp by (intros Hqp; by apply (Hav r q Hq) in Hqp).
      rewrite (holds_record _ r q Hok').
      * rewrite deref_publish. by rewrite decide_False.
      * apply holds_publish; [done|done|]. by right.
    + destruct (record (publish tb ref p st) r) as [st'|] eqn:E'; [|done].
      apply record_holds in E' as (q&Hq&_). apply holds_publish in Hq; [|done|done].
      destruct Hq as [[_ ?]|[_ Hq]]; [done|].
      by rewrite (holds_record tb r q Hok Hq) in E.
Qed.

Lemma holds_available tb ref p : table_ok tb → holds tb ref p → available tb ref p.
Proof.
  intros Hok Hp. split.
  - destruct p as [i|b w]; cbn in *; naive_solver.
  - intros r q Hq. split.
    + intros ->. destruct p as [i|b w]; cbn in *; naive_solver.
    + intros ->. by apply (ok_unique tb Hok ref).
Qed.

Lemma store_publish tb ref p st : holds tb ref p → store tb p st = publish tb ref p st.
Proof. destruct p as [i|b w]; [done|]. intros (_&_&<-&_). done. Qed.

(** Writing through a pointer returned by a lookup. *)
Lemma store_ok tb ref p st :
  table_ok tb → holds tb ref p → wasSeen st = true → table_ok (store tb p st).
Proof.
  intros. rewrite (store_publish tb ref) by done. apply publish_ok; [done| |done].
  by apply holds_available.
Qed.

Lemma record_store tb ref p st r :
  table_ok tb → holds tb ref p → wasSeen st = true →
  record (store tb p st) r = if decide (r = ref) then Some st else record tb r.
Proof.
  intros. rewrite (store_publish tb ref) by done. apply record_publish; [done| |done].
  by apply holds_available.
Qed.

(** ** Reservations *)

Lemma candidate_bounds tb ref c b w :
  table_ok tb → (c, b, w) ∈ fallbackProbes tb ref →
  0 <= b < fallback_bucket_count tb ∧ 0 <= w < kFallbackWays.
Proof.
  intros Hok Hin. destruct (ok_buckets tb Hok) as (k&Hk&Hn).
  assert (0 < 2 ^ k) as Hpos by (apply Z.pow_pos_nonneg; lia).
  assert (2 ^ k < 2 ^ 32) as Hlt by (apply Z.pow_lt_mono_r; lia).
  assert (∀ x, 0 <= x .& u32 (fallback_bucket_count tb - 1) < fallback_bucket_count tb) as Hb.
  { intros x. rewrite Hn, u32_id by (split; lia). rewrite land_ones_mod by lia.
    by apply Z.mod_pos_bound. }
  unfold fallbackProbes in Hin. destruct (fallbackCandidateBuckets tb ref) as [p s] eqn:E.
  unfold fallbackCandidateBuckets in E. injection E as <- <-.
  unfold kFallbackWays. split.
  - set (m := u32 (fallback_bucket_count tb - 1)) in *.
    apply elem_of_app in Hin as [Hin|Hin].
    + set_solver.
    + case_if_in Hin; [set_solver|]. case_if_in Hin; set_solver.
  - apply elem_of_app in Hin as [Hin|Hin].
    + set_solver by lia.
    + case_if_in Hin; [set_solver|]. set_solver by lia.
Qed.

Lemma probes_path tb ref c b w :
  (c, b, w) ∈ fallbackProbes tb ref →
  let '(primary, secondary) := fallbackCandidateBuckets tb ref in
  (c = 0 ∧ b = primary) ∨ (c = 1 ∧ b = secondary ∧ primary ≠ secondary).
Proof.
  unfold fallbackProbes. destruct (fallbackCandidateBuckets tb ref) as [p s].
  intros [Hin|Hin]%elem_of_app; [set_solver|].
  destruct (Z.eqb_spec p s); set_solver.
Qed.

Lemma mark_bits st : wasSeen (mark st) = true ∧ isActive (mark st) = true.
Proof.
  rewrite wasSeen_bit, isActive_bit. cbn [mark flags with_flags]. unfold u8.
  rewrite !Z.mod_pow2_bits_low, !Z.lor_spec by lia. cbn.
  by rewrite !orb_true_r.
Qed.

(** The duplicate-first scan of [reserve], for any accumulated free slot. *)
Lemma scanReserve_spec tb ref probes fe :
  let r := scanReserve tb ref probes fe in
  (rs_result r = DuplicateOrderRef ∧
   ∃ c b w, (c, b, w) ∈ probes ∧ wasSeen (state (fallbackEntry tb b w)) = true ∧
            order_ref (fallbackEntry tb b w) = ref) ∨
  ((∀ c b w, (c, b, w) ∈ probes → wasSeen (state (fallbackEntry tb b w)) = true →
      order_ref (fallbackEntry tb b w) ≠ ref) ∧
   if reservation_valid fe then r = fe
   else (r = fe ∧ ∀ c b w, (c, b, w) ∈ probes → wasSeen (state (fallbackEntry tb b w)) = true) ∨
        (∃ c b w, (c, b, w) ∈ probes ∧ wasSeen (state (fallbackEntry tb b w)) = false ∧
                  r = mkReservation Applied (candidatePath c) ref b w)).
Proof.
  revert fe. induction probes as [|[[c b] w] rest IH]; intros fe; cbn [scanReserve].
  { right. split; [set_solver|]. case_if; [done|]. left. split; [done|set_solver]. }
  destruct (wasSeen (state (fallbackEntry tb b w))) eqn:Hs.
  - destruct (Z.eqb_spec (order_ref (fallbackEntry tb b w)) ref) as [Href|Href].
    + left. split; [done|]. exists c, b, w. split_and!; [by left|done|done].
    + specialize (IH fe). destruct IH as [(Hd&c'&b'&w'&Hin&?)|(Hno&Hfe)].
      * left. split; [done|]. exists c', b', w'. split; [by right|done].
      * right. split; [intros ??? [[= -> -> ->]|?]%elem_of_cons ?; [done|by eapply Hno]|].
        destruct (reservation_valid fe) eqn:Ev; [done|].
        destruct Hfe as [[? Hall]|(c'&b'&w'&?&?)].
        -- left. split; [done|]. intros ??? [[= -> -> ->]|?]%elem_of_cons; [done|by eapply Hall].
        -- right. exists c', b', w'. split; [by right|done].
  - destruct (reservation_valid fe) eqn:Ev; cbn [negb].
    + specialize (IH fe). rewrite Ev in IH. destruct IH as [(Hd&c'&b'&w'&Hin&?)|(Hno&Hfe)].
      * left. split; [done|]. exists c', b', w'. split; [by right|done].
      * right. split; [|done].
        intros ??? [[= -> -> ->]|?]%elem_of_cons ?; [congruence|by eapply Hno].
    + specialize (IH (mkReservation Applied (candidatePath c) ref b w)).
      destruct IH as [(Hd&c'&b'&w'&Hin&?)|(Hno&Hfe)].
      * left. split; [done|]. exists c', b', w'. split; [by right|done].
      * right. split.
        -- intros ??? [[= -> -> ->]|?]%elem_of_cons ?; [congruence|by eapply Hno].
        -- right. exists c, b, w. split_and!; [by left|done|done].
Qed.

Lemma scanRecord_absent tb ref probes :
  (∀ c b w, (c, b, w) ∈ probes → wasSeen (state (fallbackEntry tb b w)) = true →
     order_ref (fallbackEntry tb b w) ≠ ref) →
  scanRecord tb ref probes = None.
Proof.
  intros H. destruct (scanRecord tb ref probes) eqn:E; [|done].
  apply scanRecord_spec in E as (c&b&w&?&?&?&_). by destruct (H c b w).
Qed.

Lemma free_available tb ref p :
  record tb ref = None → table_ok tb → candidate_slot tb ref p →
  wasSeen (deref tb p) = false → available tb ref p.
Proof.
  intros Hn Hok Hc Hs. split; [done|]. intros r q Hq. split.
  - intros ->. exfalso. destruct p as [i|b w]; cbn in Hq, Hs.
    + destruct Hq as (_&_&?). congruence.
    + destruct Hq as (_&_&_&?). congruence.
  - intros ->. by rewrite (holds_record tb ref q Hok Hq) in Hn.
Qed.

(** Committing a valid fallback reservation of the current table publishes. *)
Lemma commit_fallback tb ref c b w st :
  table_ok tb → direct_slots tb <= ref → (c, b, w) ∈ fallbackProbes tb ref →
  wasSeen (state (fallbackEntry tb b w)) = false →
  commit tb (mkReservation Applied (candidatePath c) ref b w) st =
  (Applied, publish tb ref (FallbackSlot b w) (mark st)).
Proof.
  intros Hok Hge Hin Hs. destruct (candidate_bounds tb ref c b w Hok Hin) as [Hb Hw].
  pose proof (probes_path tb ref c b w Hin) as Hp. unfold commit, reservation_valid.
  cbn [rs_result rs_path rs_order_ref rs_bucket rs_way].
  rewrite (proj2 (Z.leb_gt _ _) (proj2 Hb)), (proj2 (Z.leb_gt _ _) (proj2 Hw)).
  rewrite (proj2 (Z.ltb_ge _ _) Hge), Hs.
  destruct (fallbackCandidateBuckets tb ref) as [primary secondary].
  destruct Hp as [[-> ->]|(->&->&Hne)]; cbv [candidatePath].
  - rewrite (Z.eqb_refl 0). enum. by rewrite Z.eqb_refl.
  - rewrite (proj2 (Z.eqb_neq 1 0) ltac:(done)). enum.
    by rewrite Z.eqb_refl, (proj2 (Z.eqb_neq _ _) Hne).
Qed.

Definition same_config (tb tb' : t) : Prop :=
  direct_slots tb' = direct_slots tb ∧ fallback_bucket_count tb' = fallback_bucket_count tb.

Lemma publish_config tb ref p st : same_config tb (publish tb ref p st).
Proof. by destruct p. Qed.

Lemma reserve_commit tb ref st :
  table_ok tb →
  let r := reserve tb ref in
  match rs_result r with
  | Applied =>
      record tb ref = None ∧
      ∃ p, available tb ref p ∧ commit tb r st = (Applied, publish tb ref p (mark st))
  | DuplicateOrderRef => record tb ref ≠ None
  | OrderTableCapacityExceeded =>
      record tb ref = None ∧ direct_slots tb <= ref ∧
      ∀ b w, in_probes tb ref b w → wasSeen (state (fallbackEntry tb b w)) = true
  | _ => False
  end.
Proof.
  intros Hok. unfold reserve. destruct (Z.ltb_spec ref (direct_slots tb)) as [Hlt|Hge].
  - destruct (wasSeen (direct tb).[ref]) eqn:Hs; cbn; unfold record;
      rewrite (proj2 (Z.ltb_lt _ _) Hlt), Hs; [done|]. split; [done|].
    exists (DirectSlot ref). split.
    + apply free_available; try done. unfold record. by rewrite (proj2 (Z.ltb_lt _ _) Hlt), Hs.
    + unfold commit; cbn. by rewrite (proj2 (Z.leb_gt _ _) Hlt), Hs.
  - set (fe := mkReservation OrderTableCapacityExceeded PathNone ref 0 0).
    assert (record tb ref = scanRecord tb ref (fallbackProbes tb ref)) as Hrec.
    { unfold record. by rewrite (proj2 (Z.ltb_ge _ _) Hge). }
    destruct (scanReserve_spec tb ref (fallbackProbes tb ref) fe)
      as [(->&c&b&w&Hin&Hs&Href)|(Hno&Hfe)].
    + rewrite Hrec. intros Hn. by eapply scanRecord_none in Hn.
    + apply scanRecord_absent in Hno. rewrite <- Hrec in Hno.
      destruct Hfe as [[-> Hall]|(c&b&w&Hin&Hs&->)]; cbn.
      * split_and!; [done|done|]. intros b w [c Hin]. by eapply Hall.
      * split; [done|]. exists (FallbackSlot b w). split; [|by apply commit_fallback].
        apply free_available; try done. split; [done|by exists c].
Qed.

Lemma live_record tb ref st :
  live tb ref = Some st ↔ record tb ref = Some st ∧ isActive st = true.
Proof.
  unfold live. destruct (record tb ref) as [x|]; [|split; [done|by intros [? _]]].
  destruct (isActive x) eqn:E; split.
  - by intros [= <-].
  - by intros [[= <-] _].
  - done.
  - intros [[= <-] ?]. congruence.
Qed.

(** A table built by the constructor is empty and well formed. *)
Lemma make_ok ds k tb :
  0 < ds → 0 <= k < 32 → make ds (2 ^ k) = Some tb →
  table_ok tb ∧ ∀ ref, record tb ref = None.
Proof.
  intros Hds Hk. unfold make. case_if; [|done]. intros [= <-].
  set (tb := mk ds (2 ^ k) ∅ ∅).
  assert (∀ b w, wasSeen (state (fallbackEntry tb b w)) = false) as Hf.
  { intros b w. unfold fallbackEntry; cbn. arena. done. }
  assert (∀ i, wasSeen (direct tb).[i] = false) as Hd by (intros i; cbn; by arena).
  split; [split|].
  - by exists k.
  - done.
  - intros i. cbn. by arena.
  - intros b w. unfold fallbackEntry; cbn. by arena.
  - intros ref p q Hp _. destruct p as [i|b w]; cbn in Hp.
    + destruct Hp as (_&_&Hs). by rewrite Hd in Hs.
    + destruct Hp as (_&_&_&Hs). by rewrite Hf in Hs.
  - intros ref. unfold record. rewrite Hd. case_if; [done|].
    apply scanRecord_absent. intros c b w _ Hs. by rewrite Hf in Hs.
Qed.

Lemma make_table_ok direct buckets tb :
  fits 64 direct → fits 32 buckets → make direct buckets = Some tb →
  table_ok tb ∧ ∀ ref, record tb ref = None.
Proof.
  intros [Hd _] [Hb Hb'] Hm. pose proof Hm as Hv. unfold make, validateConfig in Hv.
  case_if_in Hv; [|done]. zbool. destruct (power_of_two buckets) as (k&Hk&->); [lia|done|].
  apply (make_ok direct k); [lia| |done]. split; [done|].
  apply (Z.pow_lt_mono_r_iff 2); lia.
Qed.

Lemma commit_applied tb ref st :
  table_ok tb → rs_result (reserve tb ref) = Applied →
  let tb' := snd (commit tb (reserve tb ref) st) in
  fst (commit tb (reserve tb ref) st) = Applied ∧
  record tb ref = None ∧ table_ok tb' ∧ same_config tb tb' ∧
  ∀ x, record tb' x = if decide (x = ref) then Some (mark st) else record tb x.
Proof.
  intros Hok E. pose proof (reserve_commit tb ref st Hok) as H. cbn zeta in H.
  rewrite E in H. destruct H as (Hn&p&Hav&->). split; [done|split; [done|split; [|split]]].
  - by apply publish_ok; [..|apply mark_bits].
  - apply publish_config.
  - intros x. by apply record_publish; [..|apply mark_bits].
Qed.

(** Pointers to the records of other references survive a commit. *)
Lemma commit_keeps tb ref st r q :
  table_ok tb → rs_result (reserve tb ref) = Applied → r ≠ ref → holds tb r q →
  let tb' := snd (commit tb (reserve tb ref) st) in
  holds tb' r q ∧ deref tb' q = deref tb q.
Proof.
  intros Hok E Hr Hq. pose proof (reserve_commit tb ref st Hok) as H. cbn zeta in H.
  rewrite E in H. destruct H as (Hn&p&[Hc Hav]&->). cbn [snd].
  assert (q ≠ p) as Hqp by (intros Hqp; by apply (Hav r q Hq) in Hqp).
  split.
  - apply holds_publish; [done|apply mark_bits|]. by right.
  - rewrite deref_publish. by rewrite decide_False.
Qed.

Lemma eraseRef_live tb ref st :
  table_ok tb → live tb ref = Some st →
  fst (eraseRef tb ref) = Applied ∧ table_ok (snd (eraseRef tb ref)) ∧
  ∀ x, record (snd (eraseRef tb ref)) x = if decide (x = ref) then Some tombstone else record tb x.
Proof.
  intros Hok Hl. rewrite (findState_live tb ref Hok) in Hl. unfold eraseRef.
  destruct (findState tb ref) as [p|] eqn:Hf; [|done].
  destruct (findState_holds tb ref p Hok Hf) as [Hp Ha]. cbn. rewrite Ha. cbn. split; [done|].
  split; [by apply (store_ok tb ref)|]. intros x. by apply record_store.
Qed.

Lemma commit_failed tb r st : rs_result r ≠ Applied → commit tb r st = (rs_result r, tb).
Proof. intros. unfold commit, reservation_valid. by rewrite bool_decide_eq_false_2. Qed.

(** Reserving and committing an order reference in a well-formed table has
    exactly three outcomes.  A reference never seen during the day and with a
    free candidate slot is published, marked active and seen, leaving every
    other record as it was; a reference seen before, even by an order that has
    died, is a duplicate; otherwise all of its candidate slots are taken.  A
    commit of a failed reservation changes nothing. *)
Theorem order_table_insert tb ref st :
  table_ok tb →
  let r := reserve tb ref in
  let tb' := snd (commit tb r st) in
  fst (commit tb r st) = rs_result r ∧
  match rs_result r with
  | Applied =>
      record tb ref = None ∧ table_ok tb' ∧ same_config tb tb' ∧
      ∀ x, record tb' x = if decide (x = ref) then Some (mark st) else record tb x
  | DuplicateOrderRef => tb' = tb ∧ record tb ref ≠ None
  | OrderTableCapacityExceeded =>
      tb' = tb ∧ record tb ref = None ∧ direct_slots tb <= ref ∧
      ∀ b w, in_probes tb ref b w → wasSeen (state (fallbackEntry tb b w)) = true
  | _ => False
  end.
Proof.
  intros Hok r. destruct (decide (rs_result r = Applied)) as [E|E].
  - rewrite E. by apply commit_applied.
  - rewrite (commit_failed tb r st E). split; [done|].
    pose proof (reserve_commit tb ref st Hok) as H. fold r in H. cbn zeta in H.
    destruct (rs_result r); naive_solver.
Qed.

(** Both lookup paths of a well-formed table find exactly the live order of
    the reference: the pointer returned reads the live record, no pointer is
    returned for an unknown or dead reference, the diagnostic lookup agrees
    with the hot-path one, and a fallback scan examines at most
    [kMaxFallbackSlotsExamined] slots. *)
Theorem order_table_lookup tb ref :
  table_ok tb →
  live tb ref = option_map (deref tb) (findState tb ref) ∧
  lk_state (find tb ref) = findState tb ref ∧
  found (find tb ref) = bool_decide (live tb ref ≠ None) ∧
  snd (findFallbackStateObserved tb ref) <= kMaxFallbackSlotsExamined.
Proof.
  intros Hok. pose proof (findState_live tb ref Hok) as Hl.
  destruct (find_agrees tb ref) as [Hs Hr]. split_and!; [|done| |].
  - rewrite Hl. by destruct (findState tb ref).
  - unfold found. rewrite Hs, Hr, Hl. by destruct (findState tb ref).
  - unfold findFallbackStateObserved, kMaxFallbackSlotsExamined.
    pose proof (scanState_count tb ref (fallbackProbes tb ref) 0).
    pose proof (probes_length tb ref). lia.
Qed.

(** Erasing a live order keeps the table well formed, leaves a tombstone as
    the record of its reference and every other record unchanged; the
    reference stays reserved for the day, so it can be neither found nor
    reserved again. *)
Theorem order_table_erase tb ref st :
  table_ok tb → live tb ref = Some st →
  let tb' := snd (eraseRef tb ref) in
  fst (eraseRef tb ref) = Applied ∧ table_ok tb' ∧
  (∀ x, record tb' x = if decide (x = ref) then Some tombstone else record tb x) ∧
  findState tb' ref = None ∧ rs_result (reserve tb' ref) = DuplicateOrderRef.
Proof.
  intros Hok Hl. destruct (eraseRef_live tb ref st Hok Hl) as (Hr&Hok'&Hrec).
  set (tb' := snd (eraseRef tb ref)) in *.
  assert (record tb' ref = Some tombstone) as Ht by (rewrite Hrec; by rewrite decide_True).
  split; [done|]. split; [done|]. split; [done|]. split.
  - pose proof (findState_live tb' ref Hok') as Hlv. unfold live in Hlv. rewrite Ht in Hlv.
    by destruct (findState tb' ref).
  - pose proof (reserve_commit tb' ref tombstone Hok') as H. cbn zeta in H. rewrite Ht in H.
    destruct (rs_result (reserve tb' ref)); naive_solver.
Qed.

(** A concrete table: reference 3 is direct, 100 lives in the fallback. *)
Definition sample : t := mk 16 4 ∅ ∅.
Definition sample_with (ref : Z) (st : OrderState) : t := snd (commit sample (reserve sample ref) st).
Definition sample_order : OrderState := mkOrder 5 1 0 7 1 0 0.

Lemma sample_table_ok : table_ok sample.
Proof. by apply (make_ok 16 2 sample). Qed.

Lemma order_table_insert_witness :
  record (sample_with 100 sample_order) 100 = Some (mark sample_order) ∧
  record (sample_with 100 sample_order) 3 = None.
Proof.
  destruct (order_table_insert sample 100 sample_order sample_table_ok) as [_ H].
  assert (rs_result (reserve sample 100) = Applied) as E by (by vm_compute).
  rewrite E in H. destruct H as (_&_&_&H). unfold sample_with. rewrite !H.
  split; by vm_compute.
Defined.

Lemma order_table_lookup_witness :
  live sample 100 = option_map (deref sample) (findState sample 100).
Proof. apply (order_table_lookup sample 100 sample_table_ok). Defined.

Lemma sample_with_ok : table_ok (sample_with 100 sample_order).
Proof. apply commit_applied; [apply sample_table_ok|by vm_compute]. Qed.

Lemma order_table_erase_witness :
  rs_result (reserve (snd (eraseRef (sample_with 100 sample_order) 100)) 100) = DuplicateOrderRef.
Proof.
  apply (order_table_erase (sample_with 100 sample_order) 100 (mark sample_order) sample_with_ok).
  by vm_compute.
Defined.

End OrderTable.
