(* ===== verification/Prices.v ===== *)
(** The paged price-level store of [PriceLevelStore.hpp] and
    [PriceLevelStore.cpp]: definitions.

    A raw 32-bit price is a page index and a level index.  Committed pages hold
    the aggregate levels of one stock; page and book summaries cache the best
    level and the number of active levels and pages; the occupancy bitmaps give
    the next worse level or page.  The arenas are zero-filled arrays; the
    state-changing members are state-passing functions.  [PricesInv] states the
    representation invariant and [PricesAdd], [PricesErase], [PricesRead] prove
    the operations against it. *)
From stdpp Require Import base list gmap.
From Stdlib Require Import ZArith Lia.
From S2P Require Import Prelude Bits Bitmap BookTypes Orders.
#[local] Open Scope Z_scope.
#[local] Open Scope astra_scope.

Module PriceLevelStore.

Definition kInvalidPricePageHandle : Z := 0.
Definition kTopLevelCount : Z := 10.
Definition kSideCount : Z := 2.

Record PriceLevelState := mkLevel { total_qty : Z; order_count : Z }.
#[global] Instance PriceLevelState_zeroed : Zeroed PriceLevelState := mkLevel 0 0.

Record PricePage := mkPage { bids : arr PriceLevelState; asks : arr PriceLevelState }.
#[global] Instance PricePage_zeroed : Zeroed PricePage := mkPage ∅ ∅.

Record PriceAddress := mkAddress { page_handle : Z; addr_level : Z }.
Definition address_valid (a : PriceAddress) : bool :=
  negb (page_handle a =? kInvalidPricePageHandle).

Record PricePageReservation := mkReservation {
  rv_result : MutationResult;
  rv_address : PriceAddress;
  rv_stock_locate : Z;
  rv_page_index : Z;
  rv_expected_committed_pages : Z;
  rv_requires_commit : bool }.

Record PriceLevelCursor := mkCursor {
  cu_page_handle : Z; cu_raw_price : Z; cu_stock_locate : Z; cu_valid : bool }.
Definition noCursor : PriceLevelCursor := mkCursor 0 0 0 false.

Record PriceLevelView := mkView {
  vw_raw_price : Z; vw_total_qty : Z; vw_order_count : Z; vw_valid : bool }.
Definition noView : PriceLevelView := mkView 0 0 0 false.

Record PageOwner := mkOwner { ow_stock_locate : Z; ow_page_index : Z; ow_committed : Z }.
#[global] Instance PageOwner_zeroed : Zeroed PageOwner := mkOwner 0 0 0.

Record PageSideSummary := mkPageSummary { best_level_index : Z; active_levels : Z }.
#[global] Instance PageSideSummary_zeroed : Zeroed PageSideSummary := mkPageSummary 0 0.

Record BookSideSummary := mkBookSummary {
  best_raw_price : Z; best_page_handle : Z; active_pages : Z }.
#[global] Instance BookSideSummary_zeroed : Zeroed BookSideSummary := mkBookSummary 0 0 0.

Record DeactivationPlan := mkPlan {
  next_level_index : Z;
  next_book_raw_price : Z;
  next_book_page_handle : Z;
  page_becomes_empty : bool;
  page_best_changes : bool;
  book_best_changes : bool }.
Definition emptyPlan : DeactivationPlan := mkPlan PriceBitmap.kInvalid 0 0 false false false.

Record t := mk {
  page_capacity : Z;
  roots : arr Z;
  prepared_books : arr Z;
  pages : arr PricePage;
  page_owners : arr PageOwner;
  page_summaries : arr (arr PageSideSummary);
  page_occupancy : arr PriceBitmapStorage;
  book_summaries : arr (arr BookSideSummary);
  book_occupancy : arr PriceBitmapStorage;
  committed_pages : Z;
  prepared_book_count : Z;
  page_capacity_failures : Z }.

(** The constructor with [validatedConfig]; [None] is [std::invalid_argument]. *)
Definition validatedConfig (page_capacity : Z) : bool :=
  negb ((page_capacity =? 0) || (page_capacity =? max_u32)).

Definition make (page_capacity : Z) : option t :=
  if validatedConfig page_capacity
  then Some (mk page_capacity ∅ ∅ ∅ ∅ ∅ ∅ ∅ ∅ 0 0 0)
  else None.

Definition validSide (side : OrderSide) : bool :=
  match side with Buy | Sell => true | RawSide _ => false end.
Definition sideIndex (side : OrderSide) : Z := match side with Buy => 0 | _ => 1 end.
Definition better (side : OrderSide) (lhs rhs : Z) : bool :=
  match side with Buy => rhs <? lhs | _ => lhs <? rhs end.

Definition pageSideIndex (handle : Z) (side : OrderSide) : Z :=
  handle * kSideCount + sideIndex side.
Definition bookSideIndex (stock_locate : Z) (side : OrderSide) : Z :=
  stock_locate * kSideCount + sideIndex side.

(** ** Arena accessors: the target of each pointer, and the write through it *)

Definition pageSummary (s : t) (handle : Z) (side : OrderSide) : PageSideSummary :=
  (page_summaries s).[handle].[sideIndex side].
Definition set_pageSummary (s : t) (h : Z) (side : OrderSide) (v : PageSideSummary) : t :=
  mk (page_capacity s) (roots s) (prepared_books s) (pages s) (page_owners s)
     (<[h := <[sideIndex side := v]> (page_summaries s).[h]]> (page_summaries s))
     (page_occupancy s) (book_summaries s) (book_occupancy s) (committed_pages s)
     (prepared_book_count s) (page_capacity_failures s).

Definition pageOccupancy (s : t) (handle : Z) (side : OrderSide) : PriceBitmapStorage :=
  (page_occupancy s).[pageSideIndex handle side].
Definition set_pageOccupancy (s : t) (h : Z) (side : OrderSide) (v : PriceBitmapStorage) : t :=
  mk (page_capacity s) (roots s) (prepared_books s) (pages s) (page_owners s)
     (page_summaries s) (<[pageSideIndex h side := v]> (page_occupancy s))
     (book_summaries s) (book_occupancy s) (committed_pages s)
     (prepared_book_count s) (page_capacity_failures s).

Definition bookSummary (s : t) (stock_locate : Z) (side : OrderSide) : BookSideSummary :=
  (book_summaries s).[stock_locate].[sideIndex side].
Definition set_bookSummary (s : t) (l : Z) (side : OrderSide) (v : BookSideSummary) : t :=
  mk (page_capacity s) (roots s) (prepared_books s) (pages s) (page_owners s)
     (page_summaries s) (page_occupancy s)
     (<[l := <[sideIndex side := v]> (book_summaries s).[l]]> (book_summaries s))
     (book_occupancy s) (committed_pages s) (prepared_book_count s) (page_capacity_failures s).

Definition bookOccupancy (s : t) (stock_locate : Z) (side : OrderSide) : PriceBitmapStorage :=
  (book_occupancy s).[bookSideIndex stock_locate side].
Definition set_bookOccupancy (s : t) (l : Z) (side : OrderSide) (v : PriceBitmapStorage) : t :=
  mk (page_capacity s) (roots s) (prepared_books s) (pages s) (page_owners s)
     (page_summaries s) (page_occupancy s) (book_summaries s)
     (<[bookSideIndex l side := v]> (book_occupancy s)) (committed_pages s)
     (prepared_book_count s) (page_capacity_failures s).

Definition levelUnchecked (s : t) (a : PriceAddress) (side : OrderSide) : PriceLevelState :=
  let page := (pages s).[u32 (page_handle a - 1)] in
  match side with
  | Buy => (bids page).[addr_level a]
  | _ => (asks page).[addr_level a]
  end.
Definition set_level (s : t) (a : PriceAddress) (side : OrderSide) (v : PriceLevelState) : t :=
  let page := (pages s).[u32 (page_handle a - 1)] in
  let page' := match side with
    | Buy => mkPage (<[addr_level a := v]> (bids page)) (asks page)
    | _ => mkPage (bids page) (<[addr_level a := v]> (asks page))
    end in
  mk (page_capacity s) (roots s) (prepared_books s)
     (<[u32 (page_handle a - 1) := page']> (pages s)) (page_owners s)
     (page_summaries s) (page_occupancy s) (book_summaries s) (book_occupancy s)
     (committed_pages s) (prepared_book_count s) (page_capacity_failures s).

Definition owner (s : t) (handle : Z) : option PageOwner :=
  if (handle =? kInvalidPricePageHandle) || (committed_pages s <? handle) then None
  else Some (page_owners s).[handle].

Definition page (s : t) (handle : Z) : option PricePage :=
  if (handle =? kInvalidPricePageHandle) || (committed_pages s <? handle) then None
  else Some (pages s).[u32 (handle - 1)].

Definition ownedBy (po : PageOwner) (stock_locate page_index : Z) : bool :=
  negb (ow_committed po =? 0) && (ow_stock_locate po =? stock_locate) &&
  (ow_page_index po =? page_index).

Definition rootHandleMatches (s : t) (stock_locate page_index handle : Z) : bool :=
  match owner s handle with
  | None => false
  | Some po => ownedBy po stock_locate page_index
  end.

(** ** Books and pages *)

Definition prepareBook (s : t) (stock_locate : Z) : MutationResult * t :=
  if negb (isValidStockLocate stock_locate) then (InvalidLocate, s) else
  if (prepared_books s).[stock_locate] =? 0 then
    (Applied,
     mk (page_capacity s) (roots s) (<[stock_locate := 1]> (prepared_books s)) (pages s)
        (page_owners s) (page_summaries s) (page_occupancy s) (book_summaries s)
        (book_occupancy s) (committed_pages s) (u32 (prepared_book_count s + 1))
        (page_capacity_failures s))
  else (Applied, s).

Definition isBookPrepared (s : t) (stock_locate : Z) : bool :=
  isValidStockLocate stock_locate && negb ((prepared_books s).[stock_locate] =? 0).

Definition pageHandle (s : t) (stock_locate page_index : Z) : Z :=
  if negb (isValidStockLocate stock_locate) then kInvalidPricePageHandle else
  let handle := (roots s).[priceRootIndex stock_locate page_index] in
  if rootHandleMatches s stock_locate page_index handle then handle
  else kInvalidPricePageHandle.

Definition ownsAddress (s : t) (stock_locate page_index : Z) (a : PriceAddress) : bool :=
  if negb (isValidStockLocate stock_locate) then false else
  match owner s (page_handle a) with
  | None => false
  | Some po => ownedBy po stock_locate page_index
  end.

Definition failedReservation (e : MutationResult) : PricePageReservation :=
  mkReservation e (mkAddress 0 0) 0 0 0 false.

(** The capacity-failure counter is [mutable]: this [const] member returns the
    store with the counter it leaves. *)
Definition reservePrice (s : t) (stock_locate raw_price : Z) : PricePageReservation * t :=
  if negb (isValidStockLocate stock_locate) then (failedReservation InvalidLocate, s) else
  if negb (isBookPrepared s stock_locate) then (failedReservation BookNotPrepared, s) else
  let parts := splitPrice raw_price in
  let r e handle commit :=
    mkReservation e (mkAddress handle (level_index parts)) stock_locate (page_index parts)
      (committed_pages s) commit in
  let existing := (roots s).[priceRootIndex stock_locate (page_index parts)] in
  if negb (existing =? kInvalidPricePageHandle) then
    if negb (rootHandleMatches s stock_locate (page_index parts) existing)
    then (r InvariantViolation 0 false, s)
    else (r Applied existing false, s)
  else
  if page_capacity s <=? committed_pages s then
    (r PricePageCapacityExceeded 0 false,
     mk (page_capacity s) (roots s) (prepared_books s) (pages s) (page_owners s)
        (page_summaries s) (page_occupancy s) (book_summaries s) (book_occupancy s)
        (committed_pages s) (prepared_book_count s) (u64 (page_capacity_failures s + 1)))
  else (r Applied (u32 (committed_pages s + 1)) true, s).

Definition commitReservation (s : t) (r : PricePageReservation) : MutationResult * t :=
  if negb (bool_decide (rv_result r = Applied)) then (rv_result r, s) else
  if negb (address_valid (rv_address r)) then (InvalidPricePage, s) else
  if negb (isValidStockLocate (rv_stock_locate r)) then (InvalidLocate, s) else
  if negb (isBookPrepared s (rv_stock_locate r)) then (BookNotPrepared, s) else
  let root_index := priceRootIndex (rv_stock_locate r) (rv_page_index r) in
  let root := (roots s).[root_index] in
  if negb (rv_requires_commit r) then
    (if root =? page_handle (rv_address r) then Applied else StaleReservation, s)
  else
  if negb (root =? kInvalidPricePageHandle) ||
     negb (committed_pages s =? rv_expected_committed_pages r) ||
     negb (page_handle (rv_address r) =? u32 (committed_pages s + 1)) ||
     (page_capacity s <? page_handle (rv_address r))
  then (StaleReservation, s) else
  let handle := page_handle (rv_address r) in
  if negb (ow_committed (page_owners s).[handle] =? 0) then (InvariantViolation, s) else
  (Applied,
   mk (page_capacity s) (<[root_index := handle]> (roots s)) (prepared_books s) (pages s)
      (<[handle := mkOwner (rv_stock_locate r) (rv_page_index r) 1]> (page_owners s))
      (page_summaries s) (page_occupancy s) (book_summaries s) (book_occupancy s)
      handle (prepared_book_count s) (page_capacity_failures s)).

(** ** Validation *)

Definition validateAddress (s : t) (a : PriceAddress) (side : OrderSide) : MutationResult :=
  if negb (validSide side) then InvalidSide else
  if negb (address_valid a) || (committed_pages s <? page_handle a) then InvalidPricePage
  else Applied.

Definition resolveLevel (s : t) (a : PriceAddress) (side : OrderSide) : option PriceLevelState :=
  if negb (bool_decide (validateAddress s a side = Applied)) then None
  else Some (levelUnchecked s a side).

Definition validateActivation (s : t) (a : PriceAddress) (side : OrderSide) : MutationResult :=
  match owner s (page_handle a) with
  | None => InvariantViolation
  | Some po =>
    if (ow_committed po =? 0) || negb (isValidStockLocate (ow_stock_locate po))
    then InvariantViolation else
    let ps := pageSummary s (page_handle a) side in
    let bs := bookSummary s (ow_stock_locate po) side in
    if (kPricePartCount <=? active_levels ps) ||
       (negb (active_levels ps =? 0) && (kPricePartCount <=? best_level_index ps)) ||
       ((active_levels ps =? 0) && (kPricePartCount <=? active_pages bs))
    then InvariantViolation else Applied
  end.

Definition validateAdd (s : t) (a : PriceAddress) (side : OrderSide) (qty : Z) : MutationResult :=
  let address_result := validateAddress s a side in
  if negb (bool_decide (address_result = Applied)) then address_result else
  if qty =? 0 then InvalidQuantity else
  let level := levelUnchecked s a side in
  if order_count level =? max_u32 then OrderCountOverflow else
  if max_u64 - qty <? total_qty level then QuantityOverflow else
  if negb (Bool.eqb (order_count level =? 0) (total_qty level =? 0)) then InvariantViolation else
  if order_count level =? 0 then validateActivation s a side else Applied.

(** The next worse index of a bitmap strictly beyond [i]: the search both the
    level and the page bitmaps are asked, [kInvalid] at the end of the range. *)
Definition worseIndex (bitmap : PriceBitmapStorage) (side : OrderSide) (i : Z) : Z :=
  match side with
  | Buy => if i =? 0 then PriceBitmap.kInvalid
           else PriceBitmap.findHighestAtOrBelow bitmap (i - 1)
  | _ => if i =? max_u16 then PriceBitmap.kInvalid
         else PriceBitmap.findLowestAtOrAbove bitmap (i + 1)
  end.

Definition emptyLevel (level : PriceLevelState) : bool :=
  (order_count level =? 0) || (total_qty level =? 0).

(** First part of [validateDeactivation]: the summaries and the cached best of
    the book are consistent. *)
Definition deactivationGuard (s : t) (po : PageOwner) (h : Z) (side : OrderSide) : bool :=
  let ps := pageSummary s h side in
  let bs := bookSummary s (ow_stock_locate po) side in
  let levels_before := active_levels ps in
  if (levels_before =? 0) || (kPricePartCount <? levels_before) ||
     (kPricePartCount <=? best_level_index ps) ||
     (active_pages bs =? 0) || (kPricePartCount <? active_pages bs) ||
     (best_page_handle bs =? kInvalidPricePageHandle) ||
     negb (PriceBitmap.test (bookOccupancy s (ow_stock_locate po) side) (ow_page_index po))
  then false else
  let cached_best := splitPrice (best_raw_price bs) in
  match owner s (best_page_handle bs) with
  | None => false
  | Some cached_owner =>
    if negb (ownedBy cached_owner (ow_stock_locate po) (page_index cached_best)) then false else
    let cached_page := pageSummary s (best_page_handle bs) side in
    if (active_levels cached_page =? 0) ||
       negb (best_level_index cached_page =? level_index cached_best)
    then false else
    negb (emptyLevel (levelUnchecked s
            (mkAddress (best_page_handle bs) (level_index cached_best)) side))
  end.

(** Second part: the plan for the page of the removed level. *)
Definition pagePlan (s : t) (a : PriceAddress) (side : OrderSide) : option DeactivationPlan :=
  let ps := pageSummary s (page_handle a) side in
  let removed_is_page_best := best_level_index ps =? addr_level a in
  if active_levels ps =? 1 then
    if negb removed_is_page_best then None
    else Some (mkPlan PriceBitmap.kInvalid 0 0 true false false)
  else
    let page_bitmap := pageOccupancy s (page_handle a) side in
    if PriceBitmap.empty page_bitmap ||
       negb (PriceBitmap.test page_bitmap (addr_level a)) ||
       negb (PriceBitmap.test page_bitmap (best_level_index ps))
    then None else
    if removed_is_page_best then
      let next := worseIndex page_bitmap side (addr_level a) in
      if next =? PriceBitmap.kInvalid then None else
      if emptyLevel (levelUnchecked s (mkAddress (page_handle a) (u16 next)) side) then None
      else Some (mkPlan next 0 0 false true false)
    else Some emptyPlan.

(** Third part: the plan for the cached best of the book. *)
Definition bookPlan (s : t) (po : PageOwner) (a : PriceAddress) (side : OrderSide)
    (plan : DeactivationPlan) : option DeactivationPlan :=
  let ps := pageSummary s (page_handle a) side in
  let bs := bookSummary s (ow_stock_locate po) side in
  let removed_is_page_best := best_level_index ps =? addr_level a in
  let removed_raw := joinPrice (ow_page_index po) (addr_level a) in
  if best_raw_price bs =? removed_raw then
    if negb (best_page_handle bs =? page_handle a) || negb removed_is_page_best then None else
    let plan_with raw handle :=
      mkPlan (next_level_index plan) raw handle (page_becomes_empty plan)
        (page_best_changes plan) true in
    if negb (page_becomes_empty plan) then
      if negb (page_best_changes plan) then None
      else Some (plan_with (joinPrice (ow_page_index po) (u16 (next_level_index plan)))
                   (page_handle a))
    else
    let next_page_index :=
      worseIndex (bookOccupancy s (ow_stock_locate po) side) side (ow_page_index po) in
    if active_pages bs =? 1 then
      if next_page_index =? PriceBitmap.kInvalid
      then Some (plan_with (next_book_raw_price plan) (next_book_page_handle plan))
      else None
    else
    if next_page_index =? PriceBitmap.kInvalid then None else
    let next_handle := pageHandle s (ow_stock_locate po) (u16 next_page_index) in
    if next_handle =? kInvalidPricePageHandle then None else
    let next_page := pageSummary s next_handle side in
    if (active_levels next_page =? 0) || (kPricePartCount <=? best_level_index next_page)
    then None else
    if emptyLevel (levelUnchecked s (mkAddress next_handle (u16 (best_level_index next_page))) side)
    then None
    else Some (plan_with (joinPrice (u16 next_page_index) (u16 (best_level_index next_page)))
                 next_handle)
  else if page_becomes_empty plan && (active_pages bs =? 1) then None
  else Some plan.

(** The whole member; [None] is [InvariantViolation], the only rejection it has. *)
Definition validateDeactivation (s : t) (a : PriceAddress) (side : OrderSide)
  : MutationResult * DeactivationPlan :=
  match owner s (page_handle a) with
  | None => (InvariantViolation, emptyPlan)
  | Some po =>
    if (ow_committed po =? 0) || negb (isValidStockLocate (ow_stock_locate po))
    then (InvariantViolation, emptyPlan) else
    if negb (deactivationGuard s po (page_handle a) side) then (InvariantViolation, emptyPlan) else
    match pagePlan s a side with
    | None => (InvariantViolation, emptyPlan)
    | Some plan =>
      match bookPlan s po a side plan with
      | None => (InvariantViolation, plan)
      | Some plan' => (Applied, plan')
      end
    end
  end.

Definition validateErase (s : t) (a : PriceAddress) (side : OrderSide) (qty : Z)
  : MutationResult * DeactivationPlan :=
  let address_result := validateAddress s a side in
  if negb (bool_decide (address_result = Applied)) then (address_result, emptyPlan) else
  if qty =? 0 then (InvalidQuantity, emptyPlan) else
  let level := levelUnchecked s a side in
  if emptyLevel level then (MissingPriceLevel, emptyPlan) else
  if total_qty level <? qty then (QuantityUnderflow, emptyPlan) else
  if (order_count level =? 1) && negb (total_qty level =? qty)
  then (InvariantViolation, emptyPlan) else
  if (1 <? order_count level) && (total_qty level =? qty)
  then (InvariantViolation, emptyPlan) else
  if order_count level =? 1 then validateDeactivation s a side
  else (Applied, emptyPlan).

(** ** Mutations *)

(** The page half of [activateLevel]: bitmap, counter and cached best. *)
Definition activatePage (ps : PageSideSummary) (bm : PriceBitmapStorage) (side : OrderSide)
    (lvl : Z) : PageSideSummary * PriceBitmapStorage :=
  let bm' :=
    if active_levels ps =? 1
    then PriceBitmap.set (PriceBitmap.set bm (best_level_index ps)) lvl
    else if 1 <? active_levels ps then PriceBitmap.set bm lvl
    else bm in
  let best' := if (active_levels ps =? 0) || better side lvl (best_level_index ps)
               then lvl else best_level_index ps in
  (mkPageSummary best' (u32 (active_levels ps + 1)), bm').

(** The book half of [activateLevel]. *)
Definition activateBook (bs : BookSideSummary) (bm : PriceBitmapStorage) (side : OrderSide)
    (page_was_empty : bool) (page_index lvl handle : Z) : BookSideSummary * PriceBitmapStorage :=
  let book_was_empty := active_pages bs =? 0 in
  let bm' := if page_was_empty then PriceBitmap.set bm page_index else bm in
  let active' := if page_was_empty then u32 (active_pages bs + 1) else active_pages bs in
  let raw_price := joinPrice page_index lvl in
  if book_was_empty || (best_page_handle bs =? kInvalidPricePageHandle) ||
     better side raw_price (best_raw_price bs)
  then (mkBookSummary raw_price handle active', bm')
  else (mkBookSummary (best_raw_price bs) (best_page_handle bs) active', bm').

Definition activateLevel (s : t) (a : PriceAddress) (side : OrderSide) : t :=
  let po := (page_owners s).[page_handle a] in
  let ps := pageSummary s (page_handle a) side in
  let '(ps', pbm') := activatePage ps (pageOccupancy s (page_handle a) side) side (addr_level a) in
  let '(bs', bbm') :=
    activateBook (bookSummary s (ow_stock_locate po) side)
      (bookOccupancy s (ow_stock_locate po) side) side
      (active_levels ps =? 0) (ow_page_index po) (addr_level a) (page_handle a) in
  let s := set_pageOccupancy s (page_handle a) side pbm' in
  let s := set_pageSummary s (page_handle a) side ps' in
  let s := set_bookOccupancy s (ow_stock_locate po) side bbm' in
  set_bookSummary s (ow_stock_locate po) side bs'.

Definition addValidated (s : t) (a : PriceAddress) (side : OrderSide) (qty : Z) : t :=
  let level := levelUnchecked s a side in
  let s' := if order_count level =? 0 then activateLevel s a side else s in
  set_level s' a side (mkLevel (u64 (total_qty level + qty)) (u32 (order_count level + 1))).

Definition add (s : t) (a : PriceAddress) (side : OrderSide) (qty : Z) : MutationResult * t :=
  let validation := validateAdd s a side qty in
  if negb (bool_decide (validation = Applied)) then (validation, s)
  else (Applied, addValidated s a side qty).

(** The aggregate checks and the update shared by [reduce] and
    [reduceChecked]. *)
Definition reduceLevel (s : t) (a : PriceAddress) (side : OrderSide)
    (current_order_qty reduction_qty : Z) : MutationResult * t :=
  if (current_order_qty =? 0) || (reduction_qty =? 0) then (InvalidQuantity, s) else
  if current_order_qty <=? reduction_qty then (QuantityUnderflow, s) else
  let level := levelUnchecked s a side in
  if emptyLevel level then (MissingPriceLevel, s) else
  if total_qty level <? current_order_qty then (QuantityUnderflow, s) else
  if (order_count level =? 1) && negb (total_qty level =? current_order_qty)
  then (InvariantViolation, s) else
  if (1 <? order_count level) && (total_qty level =? current_order_qty)
  then (InvariantViolation, s) else
  if total_qty level <=? reduction_qty then (QuantityUnderflow, s) else
  (Applied,
   set_level s a side (mkLevel (u64 (total_qty level - reduction_qty)) (order_count level))).

Definition reduce (s : t) (a : PriceAddress) (side : OrderSide)
    (current_order_qty reduction_qty : Z) : MutationResult * t :=
  let address_result := validateAddress s a side in
  if negb (bool_decide (address_result = Applied)) then (address_result, s)
  else reduceLevel s a side current_order_qty reduction_qty.

Definition reduceChecked (s : t) (expected_stock_locate expected_page_index : Z)
    (a : PriceAddress) (side : OrderSide) (current_order_qty reduction_qty : Z)
  : MutationResult * t :=
  if negb (isValidStockLocate expected_stock_locate) then (InvalidLocate, s) else
  let address_result := validateAddress s a side in
  if negb (bool_decide (address_result = Applied)) then (address_result, s) else
  if negb (ownedBy (page_owners s).[page_handle a] expected_stock_locate expected_page_index)
  then (InvariantViolation, s)
  else reduceLevel s a side current_order_qty reduction_qty.

(** The page half of [deactivateLevel] when the page stays active. *)
Definition deactivatePage (ps : PageSideSummary) (bm : PriceBitmapStorage) (lvl : Z)
    (plan : DeactivationPlan) : PageSideSummary * PriceBitmapStorage :=
  let bm1 := PriceBitmap.reset bm lvl in
  let levels' := u32 (active_levels ps - 1) in
  let best' := if page_best_changes plan then next_level_index plan else best_level_index ps in
  (mkPageSummary best' levels',
   if levels' =? 1 then PriceBitmap.reset bm1 best' else bm1).

Definition deactivateLevel (s : t) (a : PriceAddress) (side : OrderSide)
    (plan : DeactivationPlan) : t :=
  let po := (page_owners s).[page_handle a] in
  let loc := ow_stock_locate po in
  let ps := pageSummary s (page_handle a) side in
  let bs := bookSummary s loc side in
  let '(s, active') :=
    if page_becomes_empty plan then
      (set_bookOccupancy (set_pageSummary s (page_handle a) side (mkPageSummary 0 0))
         loc side (PriceBitmap.reset (bookOccupancy s loc side) (ow_page_index po)),
       u32 (active_pages bs - 1))
    else
      let '(ps', pbm') := deactivatePage ps (pageOccupancy s (page_handle a) side)
                            (addr_level a) plan in
      (set_pageOccupancy (set_pageSummary s (page_handle a) side ps') (page_handle a) side pbm',
       active_pages bs) in
  if book_best_changes plan
  then set_bookSummary s loc side
         (mkBookSummary (next_book_raw_price plan) (next_book_page_handle plan) active')
  else set_bookSummary s loc side
         (mkBookSummary (best_raw_price bs) (best_page_handle bs) active').

Definition eraseValidated (s : t) (a : PriceAddress) (side : OrderSide) (qty : Z)
    (plan : DeactivationPlan) : t :=
  let level := levelUnchecked s a side in
  let s' := set_level s a side
              (mkLevel (u64 (total_qty level - qty)) (u32 (order_count level - 1))) in
  if order_count level =? 1 then deactivateLevel s' a side plan else s'.

Definition erase (s : t) (a : PriceAddress) (side : OrderSide) (remaining_order_qty : Z)
  : MutationResult * t :=
  let '(validation, plan) := validateErase s a side remaining_order_qty in
  if negb (bool_decide (validation = Applied)) then (validation, s)
  else (Applied, eraseValidated s a side remaining_order_qty plan).

Definition move (s : t) (old_address : PriceAddress) (old_qty : Z)
    (new_address : PriceAddress) (new_qty : Z) (side : OrderSide) : MutationResult * t :=
  if new_qty =? 0 then (InvalidQuantity, s) else
  match owner s (page_handle old_address), owner s (page_handle new_address) with
  | Some old_owner, Some new_owner =>
    if (ow_committed old_owner =? 0) || (ow_committed new_owner =? 0)
    then (InvariantViolation, s) else
    if negb (ow_stock_locate old_owner =? ow_stock_locate new_owner)
    then (LocateMismatch, s) else
    let '(source_validation, source_plan) := validateErase s old_address side old_qty in
    if negb (bool_decide (source_validation = Applied)) then (source_validation, s) else
    if (page_handle old_address =? page_handle new_address) &&
       (addr_level old_address =? addr_level new_address)
    then
      let level := levelUnchecked s old_address side in
      let without_old := u64 (total_qty level - old_qty) in
      if max_u64 - new_qty <? without_old then (QuantityOverflow, s)
      else (Applied, set_level s old_address side
                       (mkLevel (u64 (without_old + new_qty)) (order_count level)))
    else
    let destination_validation := validateAdd s new_address side new_qty in
    if negb (bool_decide (destination_validation = Applied))
    then (destination_validation, s)
    else (Applied, addValidated (eraseValidated s old_address side old_qty source_plan)
                     new_address side new_qty)
  | _, _ => (InvalidPricePage, s)
  end.

(** ** Reads *)

Definition best (s : t) (stock_locate : Z) (side : OrderSide) : PriceLevelCursor :=
  if negb (isBookPrepared s stock_locate) || negb (validSide side) then noCursor else
  let bs := bookSummary s stock_locate side in
  if (active_pages bs =? 0) || (best_page_handle bs =? kInvalidPricePageHandle) then noCursor
  else mkCursor (best_page_handle bs) (best_raw_price bs) stock_locate true.

(** The page part of [nextWorse]: the best level of the next worse page. *)
Definition nextWorsePage (s : t) (stock_locate : Z) (side : OrderSide) (page_index : Z)
  : PriceLevelCursor :=
  let next_page_index := worseIndex (bookOccupancy s stock_locate side) side page_index in
  if next_page_index =? PriceBitmap.kInvalid then noCursor else
  let next_handle := pageHandle s stock_locate (u16 next_page_index) in
  if next_handle =? kInvalidPricePageHandle then noCursor else
  let next_page := pageSummary s next_handle side in
  if (active_levels next_page =? 0) || (kPricePartCount <=? best_level_index next_page)
  then noCursor
  else mkCursor next_handle
         (joinPrice (u16 next_page_index) (u16 (best_level_index next_page))) stock_locate true.

Definition nextWorse (s : t) (stock_locate : Z) (side : OrderSide) (current : PriceLevelCursor)
  : PriceLevelCursor :=
  if negb (cu_valid current) || negb (cu_stock_locate current =? stock_locate) ||
     negb (isBookPrepared s stock_locate) || negb (validSide side)
  then noCursor else
  let parts := splitPrice (cu_raw_price current) in
  match owner s (cu_page_handle current) with
  | None => noCursor
  | Some po =>
    if negb (ownedBy po stock_locate (page_index parts)) then noCursor else
    let ps := pageSummary s (cu_page_handle current) side in
    let next :=
      if 1 <? active_levels ps
      then worseIndex (pageOccupancy s (cu_page_handle current) side) side (level_index parts)
      else PriceBitmap.kInvalid in
    if negb (next =? PriceBitmap.kInvalid)
    then mkCursor (cu_page_handle current) (joinPrice (page_index parts) (u16 next))
           stock_locate true
    else nextWorsePage s stock_locate side (page_index parts)
  end.

Definition view (s : t) (cursor : PriceLevelCursor) (side : OrderSide) : PriceLevelView :=
  if negb (cu_valid cursor) then noView else
  let parts := splitPrice (cu_raw_price cursor) in
  match owner s (cu_page_handle cursor) with
  | None => noView
  | Some po =>
    if (ow_committed po =? 0) || negb (isValidStockLocate (cu_stock_locate cursor)) ||
       negb (ow_stock_locate po =? cu_stock_locate cursor) ||
       negb (ow_page_index po =? page_index parts)
    then noView else
    match resolveLevel s (mkAddress (cu_page_handle cursor) (level_index parts)) side with
    | None => noView
    | Some level =>
        if order_count level =? 0 then noView
        else mkView (cu_raw_price cursor) (total_qty level) (order_count level) true
    end
  end.

(** The loop of [topTen]; [room] is [limit - count]. *)
Fixpoint topLoop (s : t) (stock_locate : Z) (side : OrderSide) (room : nat)
    (cursor : PriceLevelCursor) : list PriceLevelView :=
  match room with
  | O => []
  | S room' =>
      if negb (cu_valid cursor) then [] else
      let level_view := view s cursor side in
      if negb (vw_valid level_view) then [] else
      level_view ::
      match room' with
      | O => []
      | S _ => topLoop s stock_locate side room' (nextWorse s stock_locate side cursor)
      end
  end.

(** [topTen] into a span of [size] elements: the prefix it writes. *)
Definition topTen (s : t) (stock_locate : Z) (side : OrderSide) (size : nat)
  : list PriceLevelView :=
  topLoop s stock_locate side (Nat.min size (Z.to_nat kTopLevelCount))
    (best s stock_locate side).

Record PriceLevelStoreCounters := mkCounters {
  ct_page_capacity : Z; ct_committed_pages : Z; ct_prepared_books : Z;
  ct_page_capacity_failures : Z }.
Definition counters (s : t) : PriceLevelStoreCounters :=
  mkCounters (page_capacity s) (committed_pages s) (prepared_book_count s)
    (page_capacity_failures s).

End PriceLevelStore.
