(* ===== verification/PricesInv.v ===== *)
(** Representation invariant of the price-level store.

    [page_ok] ties the summary and the bitmap of one side of one page to the
    set of its non-empty levels; [book_ok] ties the summary and the bitmap of
    one side of one book to the set of its active pages; [store_ok] is the
    invariant of the whole store.  [level_at] is the abstraction: the aggregate
    level of a stock, a side and a raw price. *)
From stdpp Require Import base list gmap.
From Stdlib Require Import ZArith Lia.
From S2P Require Import Prelude Bits Bitmap BookTypes Orders Prices.
#[local] Open Scope Z_scope.
#[local] Open Scope astra_scope.

Module PriceStoreInv.
Import PriceLevelStore.

(** ** Best elements *)

Definition best_of (side : OrderSide) (X : gset Z) (b : Z) : Prop :=
  b ∈ X ∧ ∀ x, x ∈ X → x ≠ b → better side b x = true.

Lemma better_lt side a b :
  better side a b = true ↔ match side with Buy => b < a | _ => a < b end.
Proof. destruct side; cbn; apply Z.ltb_lt. Qed.
Lemma better_not_lt side a b :
  better side a b = false ↔ match side with Buy => a <= b | _ => b <= a end.
Proof. destruct side; cbn; apply Z.ltb_ge. Qed.

Lemma best_of_unique side X a b : best_of side X a → best_of side X b → a = b.
Proof.
  intros [Ha Hba] [Hb Hbb]. destruct (decide (a = b)) as [|Hne]; [done|].
  pose proof (Hba b Hb ltac:(done)) as H1. pose proof (Hbb a Ha Hne) as H2.
  rewrite better_lt in H1, H2. destruct side; lia.
Qed.

Lemma best_of_insert side X b x :
  best_of side X b → x ∉ X →
  best_of side ({[x]} ∪ X) (if better side x b then x else b).
Proof.
  intros [Hb Hbest] Hx. destruct (better side x b) eqn:E; (split; [set_solver|]); intros y Hy Hne.
  - apply elem_of_union in Hy as [Hy|Hy]; [set_solver|].
    destruct (decide (y = b)) as [->|Hyb]; [done|]. specialize (Hbest y Hy Hyb).
    rewrite better_lt in *. destruct side; lia.
  - apply elem_of_union in Hy as [Hy|Hy]; [|by apply Hbest].
    apply elem_of_singleton in Hy as ->. rewrite better_lt. rewrite better_not_lt in E.
    destruct side; lia.
Qed.

Lemma best_of_remove side X b x :
  best_of side X b → x ≠ b → best_of side (X ∖ {[x]}) b.
Proof. intros [Hb Hbest] Hx. split; [set_solver|]. intros y Hy. apply Hbest. set_solver. Qed.

Lemma best_of_singleton side x : best_of side {[x]} x.
Proof. split; set_solver. Qed.

(** ** One side of a page *)

Definition level_ok (l : PriceLevelState) : Prop :=
  fits 64 (total_qty l) ∧ fits 32 (order_count l) ∧ (order_count l = 0 ↔ total_qty l = 0).

(** The bits a page materialises: none while it has fewer than two levels. *)
Definition page_bits (X : gset Z) : gset Z := if decide (size X <= 1)%nat then ∅ else X.

Record page_ok (side : OrderSide) (L : Z → PriceLevelState) (ps : PageSideSummary)
    (bm : PriceBitmapStorage) (X : gset Z) : Prop := {
  pk_mem : ∀ i, i ∈ X ↔ part i ∧ order_count (L i) ≠ 0;
  pk_level : ∀ i, part i → level_ok (L i);
  pk_count : active_levels ps = Z.of_nat (size X);
  pk_best : X ≠ ∅ → best_of side X (best_level_index ps);
  pk_bits : PriceBitmap.denotes bm (page_bits X) }.

(** ** One side of a book *)

Definition root (s : t) (loc p : Z) : Z := (roots s).[priceRootIndex loc p].
Definition lvl (s : t) (h : Z) (side : OrderSide) (i : Z) : PriceLevelState :=
  levelUnchecked s (mkAddress h i) side.

Definition active_page (s : t) (loc : Z) (side : OrderSide) (p : Z) : Prop :=
  part p ∧ root s loc p ≠ 0 ∧ active_levels (pageSummary s (root s loc p) side) ≠ 0.

Record book_ok (s : t) (loc : Z) (side : OrderSide) (P : gset Z) : Prop := {
  bk_mem : ∀ p, p ∈ P ↔ active_page s loc side p;
  bk_count : active_pages (bookSummary s loc side) = Z.of_nat (size P);
  bk_bits : PriceBitmap.denotes (bookOccupancy s loc side) P;
  bk_empty : P = ∅ → best_page_handle (bookSummary s loc side) = 0;
  bk_best : P ≠ ∅ → ∃ p, best_of side P p ∧
    best_page_handle (bookSummary s loc side) = root s loc p ∧
    best_raw_price (bookSummary s loc side) =
      joinPrice p (best_level_index (pageSummary s (root s loc p) side)) }.

(** ** The store *)

(** A committed page and its owner record. *)
Definition owned (s : t) (h loc p : Z) : Prop :=
  0 < h <= committed_pages s ∧ good_locate loc ∧ part p ∧
  (page_owners s).[h] = mkOwner loc p 1 ∧ root s loc p = h ∧
  (prepared_books s).[loc] ≠ 0.

Record store_ok (s : t) : Prop := {
  so_capacity : 0 < page_capacity s < max_u32;
  so_committed : 0 <= committed_pages s <= page_capacity s;
  so_owned : ∀ h, 0 < h <= committed_pages s → ∃ loc p, owned s h loc p;
  so_root : ∀ loc p, good_locate loc → part p → root s loc p ≠ 0 → owned s (root s loc p) loc p;
  so_fresh : ∀ h, committed_pages s < h → ow_committed (page_owners s).[h] = 0;
  so_page : ∀ h side, 0 < h <= page_capacity s → validSide side = true →
    ∃ X, page_ok side (lvl s h side) (pageSummary s h side) (pageOccupancy s h side) X ∧
         (committed_pages s < h → X = ∅);
  so_book : ∀ loc side, good_locate loc → validSide side = true → ∃ P, book_ok s loc side P }.

(** The aggregate level of a stock, side and raw price. *)
Definition level_at (s : t) (loc : Z) (side : OrderSide) (price : Z) : PriceLevelState :=
  let h := root s loc (page_index (splitPrice price)) in
  if h =? 0 then zeroed else lvl s h side (level_index (splitPrice price)).

(** An address that names the level of [loc] at [price]. *)
Definition resolves (s : t) (a : PriceAddress) (loc price : Z) : Prop :=
  good_locate loc ∧ fits 32 price ∧
  page_handle a = root s loc (page_index (splitPrice price)) ∧ page_handle a ≠ 0 ∧
  addr_level a = level_index (splitPrice price).

(** What the mutations of aggregates leave alone. *)
Record same_layout (s s' : t) : Prop := {
  sl_capacity : page_capacity s' = page_capacity s;
  sl_roots : roots s' = roots s;
  sl_prepared : prepared_books s' = prepared_books s;
  sl_owners : page_owners s' = page_owners s;
  sl_committed : committed_pages s' = committed_pages s;
  sl_books : prepared_book_count s' = prepared_book_count s }.

Lemma same_layout_refl s : same_layout s s.
Proof. done. Qed.
Lemma same_layout_trans s1 s2 s3 : same_layout s1 s2 → same_layout s2 s3 → same_layout s1 s3.
Proof. intros [] []. split; congruence. Qed.
Lemma same_layout_root s s' loc p : same_layout s s' → root s' loc p = root s loc p.
Proof. intros []. unfold root. congruence. Qed.
Lemma same_layout_owned s s' h loc p : same_layout s s' → owned s h loc p → owned s' h loc p.
Proof.
  intros Hl (?&?&?&?&?&?). unfold owned. rewrite (same_layout_root s s') by done.
  destruct Hl as [? ? -> -> -> ?]. done.
Qed.
Lemma same_layout_resolves s s' a loc price :
  same_layout s s' → resolves s a loc price → resolves s' a loc price.
Proof. intros Hl (?&?&?&?&?). unfold resolves. by rewrite (same_layout_root s s'). Qed.

(** ** Reading back a write, and frames *)

Lemma sideIndex_inj side side' :
  validSide side = true → validSide side' = true → sideIndex side = sideIndex side' → side = side'.
Proof. by destruct side, side'. Qed.

Lemma pageSideIndex_inj h side h' side' :
  validSide side = true → validSide side' = true →
  pageSideIndex h side = pageSideIndex h' side' → h = h' ∧ side = side'.
Proof.
  unfold pageSideIndex, kSideCount. intros Hs Hs' E.
  assert (sideIndex side = sideIndex side' ∧ h = h') as [? ->].
  { destruct side, side'; cbn in *; lia. }
  split; [done|]. by apply sideIndex_inj.
Qed.

Section accessors.
Context (s : t) (h : Z) (sd : OrderSide) (h' : Z) (sd' : OrderSide).
Context (Hsd : validSide sd = true) (Hsd' : validSide sd' = true).

Lemma pageSummary_set v :
  pageSummary (set_pageSummary s h sd v) h' sd' =
  if decide (h = h' ∧ sd = sd') then v else pageSummary s h' sd'.
Proof.
  unfold pageSummary, set_pageSummary; cbn. rewrite aget_insert.
  destruct (decide (h = h')) as [->|]; [|rewrite decide_False by naive_solver; done].
  rewrite aget_insert. destruct (decide (sideIndex sd = sideIndex sd')) as [E|E].
  - rewrite decide_True; [done|]. split; [done|]. by apply sideIndex_inj.
  - rewrite decide_False; [done|]. intros [_ ->]. done.
Qed.

Lemma bookSummary_set v :
  bookSummary (set_bookSummary s h sd v) h' sd' =
  if decide (h = h' ∧ sd = sd') then v else bookSummary s h' sd'.
Proof.
  unfold bookSummary, set_bookSummary; cbn. rewrite aget_insert.
  destruct (decide (h = h')) as [->|]; [|rewrite decide_False by naive_solver; done].
  rewrite aget_insert. destruct (decide (sideIndex sd = sideIndex sd')) as [E|E].
  - rewrite decide_True; [done|]. split; [done|]. by apply sideIndex_inj.
  - rewrite decide_False; [done|]. intros [_ ->]. done.
Qed.

Lemma pageOccupancy_set v :
  pageOccupancy (set_pageOccupancy s h sd v) h' sd' =
  if decide (h = h' ∧ sd = sd') then v else pageOccupancy s h' sd'.
Proof.
  unfold pageOccupancy, set_pageOccupancy; cbn. rewrite aget_insert.
  destruct (decide (pageSideIndex h sd = pageSideIndex h' sd')) as [E|E].
  - rewrite decide_True; [done|]. by apply pageSideIndex_inj.
  - rewrite decide_False; [done|]. intros [-> ->]. done.
Qed.

Lemma bookOccupancy_set v :
  bookOccupancy (set_bookOccupancy s h sd v) h' sd' =
  if decide (h = h' ∧ sd = sd') then v else bookOccupancy s h' sd'.
Proof.
  unfold bookOccupancy, set_bookOccupancy; cbn. rewrite aget_insert.
  destruct (decide (bookSideIndex h sd = bookSideIndex h' sd')) as [E|E].
  - rewrite decide_True; [done|]. by apply pageSideIndex_inj.
  - rewrite decide_False; [done|]. intros [-> ->]. done.
Qed.

Lemma lvl_set i i' v :
  0 < h < 2 ^ 32 → 0 < h' < 2 ^ 32 →
  lvl (set_level s (mkAddress h i) sd v) h' sd' i' =
  if decide (h = h' ∧ sd = sd' ∧ i = i') then v else lvl s h' sd' i'.
Proof.
  intros Hh Hh'. unfold lvl, levelUnchecked, set_level; cbn.
  rewrite !u32_id by (split; lia). rewrite aget_insert.
  destruct (decide (h - 1 = h' - 1)) as [E|E].
  - assert (h = h') as -> by lia.
    destruct sd, sd'; try done; cbn; rewrite ?aget_insert;
      repeat case_decide; naive_solver.
  - rewrite decide_False; [done|]. intros [-> _]. done.
Qed.

End accessors.

Lemma lvl_set_at s a sd h' sd' i' v :
  validSide sd = true → validSide sd' = true → 0 < page_handle a < 2 ^ 32 → 0 < h' < 2 ^ 32 →
  lvl (set_level s a sd v) h' sd' i' =
  if decide (page_handle a = h' ∧ sd = sd' ∧ addr_level a = i') then v else lvl s h' sd' i'.
Proof. intros. destruct a as [h i]. by apply lvl_set. Qed.

(** ** Sets of parts *)

Lemma part_set_size (X : gset Z) : (∀ i, i ∈ X → part i) → Z.of_nat (size X) <= kPricePartCount.
Proof.
  intros HX. set (all := list_to_set (seqZ 0 kPricePartCount) : gset Z).
  assert (size X <= size all)%nat as Hs.
  { apply subseteq_size. intros i Hi. apply elem_of_list_to_set, elem_of_seqZ.
    specialize (HX i Hi). unfold part in HX. lia. }
  assert (size all = Z.to_nat kPricePartCount) as Ha.
  { unfold all. rewrite size_list_to_set by apply NoDup_seqZ. by rewrite length_seqZ. }
  rewrite Ha in Hs. apply Nat2Z.inj_le in Hs. by rewrite Z2Nat.id in Hs by done.
Qed.

Lemma part_set_room (X : gset Z) x :
  (∀ i, i ∈ X → part i) → part x → x ∉ X → Z.of_nat (size X) < kPricePartCount.
Proof.
  intros HX Hx Hn. assert (Z.of_nat (size ({[x]} ∪ X)) <= kPricePartCount) as H.
  { apply part_set_size. set_solver. }
  rewrite size_add_new in H by done. lia.
Qed.

Lemma size_nonempty_pos (X : gset Z) x : x ∈ X → (1 <= size X)%nat.
Proof.
  intros Hx. destruct (decide (size X = 0%nat)) as [E|]; [|lia].
  apply size_zero_empty in E. set_solver.
Qed.

(** Another element of a set with at least two. *)
Lemma size_two_other (X : gset Z) x :
  x ∈ X → (2 <= size X)%nat → ∃ y, y ∈ X ∧ y ≠ x.
Proof.
  intros Hx Hs. pose proof (size_remove X x Hx) as Hr.
  destruct (set_choose_or_empty (X ∖ {[x]})) as [[y Hy]|He].
  - exists y. set_solver.
  - apply leibniz_equiv in He. rewrite He, size_empty in Hr. lia.
Qed.

(** ** Updates of one side of a page *)

Section page_side.
Context (side : OrderSide) (Hside : validSide side = true).
Implicit Types (L : Z → PriceLevelState) (X : gset Z).

Lemma page_part L ps bm X i : page_ok side L ps bm X → i ∈ X → part i.
Proof. intros Hp Hi. by apply (pk_mem _ _ _ _ _ Hp) in Hi as [? _]. Qed.

Lemma page_best_in L ps bm X :
  page_ok side L ps bm X → active_levels ps ≠ 0 →
  best_of side X (best_level_index ps) ∧ part (best_level_index ps).
Proof.
  intros Hp Hn. assert (X ≠ ∅) as HX.
  { intros ->. apply Hn. rewrite (pk_count _ _ _ _ _ Hp). by rewrite size_empty. }
  pose proof (pk_best _ _ _ _ _ Hp HX) as Hb. split; [done|].
  eapply page_part; [done|]. apply Hb.
Qed.

Lemma page_ext L L' ps bm X :
  (∀ j, part j → L' j = L j) → page_ok side L ps bm X → page_ok side L' ps bm X.
Proof.
  intros HL [Hm Hl Hc Hb Hbits]. split; try done.
  - intros i. rewrite Hm. split; intros [Hi Hn]; split; try done; by rewrite HL in *.
  - intros i Hi. rewrite HL by done. by apply Hl.
Qed.

(** A level that keeps orders changes its aggregate only. *)
Lemma page_update L L' ps bm X i l :
  page_ok side L ps bm X → i ∈ X → level_ok l → order_count l ≠ 0 →
  (∀ j, part j → L' j = if decide (j = i) then l else L j) →
  page_ok side L' ps bm X.
Proof.
  intros Hp Hi Hl Hn HL'. pose proof (page_part _ _ _ _ _ Hp Hi) as Hpi.
  destruct Hp as [Hm Hlv Hc Hb Hbits]. split; try done.
  - intros j. rewrite Hm. split; intros [Hj Hcj]; (split; [done|]).
    + rewrite HL' by done. by case_decide.
    + rewrite HL' in Hcj by done. case_decide; [subst j; by apply Hm|done].
  - intros j Hj. rewrite HL' by done. case_decide; [done|by apply Hlv].
Qed.

Lemma page_bits_small X : (size X <= 1)%nat → page_bits X = ∅.
Proof. intros. unfold page_bits. by rewrite decide_True. Qed.
Lemma page_bits_big X : (2 <= size X)%nat → page_bits X = X.
Proof. intros. unfold page_bits. by rewrite decide_False by lia. Qed.

Lemma part_bit i : part i → 0 <= i < PriceBitmap.kNumBits.
Proof. done. Qed.

(** The bitmap of a page after a level became active. *)
Lemma activate_bits L ps bm X i :
  page_ok side L ps bm X → part i → i ∉ X →
  PriceBitmap.denotes (snd (activatePage ps bm side i)) (page_bits ({[i]} ∪ X)).
Proof.
  intros Hp Hi Hn. pose proof (pk_bits _ _ _ _ _ Hp) as Hbits.
  pose proof (pk_count _ _ _ _ _ Hp) as Hc. pose proof (size_add_new X i Hn) as Hs.
  unfold activatePage; cbn [snd]. rewrite Hc.
  destruct (Z.eqb_spec (Z.of_nat (size X)) 1) as [E1|N1].
  - assert (size X = 1%nat) as Hs1 by lia.
    destruct (page_best_in _ _ _ _ Hp ltac:(lia)) as [[Hb _] Hpb].
    rewrite page_bits_small in Hbits by lia. rewrite page_bits_big by lia.
    rewrite (size_one_eq X _ Hb Hs1).
    replace ({[i]} ∪ {[best_level_index ps]} : gset Z)
      with ({[i]} ∪ ({[best_level_index ps]} ∪ ∅) : gset Z) by set_solver.
    apply PriceBitmap.denotes_set; [|done]. by apply PriceBitmap.denotes_set.
  - destruct (Z.ltb_spec 1 (Z.of_nat (size X))).
    + rewrite page_bits_big in Hbits by lia. rewrite page_bits_big by lia.
      by apply PriceBitmap.denotes_set.
    + rewrite page_bits_small in Hbits by lia. by rewrite page_bits_small by lia.
Qed.

Lemma page_activate L L' ps bm X i l :
  page_ok side L ps bm X → part i → i ∉ X → level_ok l → order_count l ≠ 0 →
  (∀ j, part j → L' j = if decide (j = i) then l else L j) →
  page_ok side L' (fst (activatePage ps bm side i)) (snd (activatePage ps bm side i)) ({[i]} ∪ X).
Proof.
  intros Hp Hi Hn Hl Hnz HL'. split.
  - intros j. rewrite elem_of_union, elem_of_singleton, (pk_mem _ _ _ _ _ Hp). split.
    + intros [->|[Hj Hc]]; (split; [done|]); rewrite HL' by done; by case_decide.
    + intros [Hj Hc]. rewrite HL' in Hc by done. case_decide; naive_solver.
  - intros j Hj. rewrite HL' by done. case_decide; [done|].
    by apply (pk_level _ _ _ _ _ Hp).
  - cbn. rewrite size_add_new, (pk_count _ _ _ _ _ Hp) by done.
    pose proof (part_set_room X i (λ j, page_part _ _ _ _ j Hp) Hi Hn) as Hr.
    change kPricePartCount with 65536 in Hr. rewrite u32_id; [lia|split; lia].
  - intros _. cbn. rewrite (pk_count _ _ _ _ _ Hp).
    destruct (Z.eqb_spec (Z.of_nat (size X)) 0) as [E|E]; cbn [orb].
    + assert (X = ∅) as -> by (apply size_zero_empty; lia).
      replace ({[i]} ∪ ∅ : gset Z) with ({[i]} : gset Z) by set_solver.
      apply best_of_singleton.
    + apply best_of_insert; [|done]. apply (pk_best _ _ _ _ _ Hp). intros ->. by apply E.
  - by eapply activate_bits.
Qed.

End page_side.

End PriceStoreInv.
