(* ===== verification/PricesAdd.v ===== *)
(** Adding an order to a price level keeps the store invariant and changes
    exactly one aggregate level: the book half of an activation, the frame of
    the other books, and the specification of [add]. *)
From stdpp Require Import base list gmap.
From Stdlib Require Import ZArith Lia.
From S2P Require Import Prelude Bits Bitmap BookTypes Orders Prices PricesInv.
#[local] Open Scope Z_scope.
#[local] Open Scope astra_scope.

Module PriceStoreAdd.
Import PriceLevelStore PriceStoreInv.

Lemma better_join side p i p' i' :
  part i → part i' →
  better side (joinPrice p i) (joinPrice p' i') = true ↔
  better side p p' = true ∨ (p = p' ∧ better side i i' = true).
Proof.
  intros Hi Hi'. rewrite !joinPrice_arith by done. rewrite !better_lt.
  unfold part in *. change kPricePartCount with 65536 in *. destruct side; lia.
Qed.

(** ** Facts about committed pages *)

Lemma owned_root s h loc p loc' p' :
  store_ok s → owned s h loc p → good_locate loc' → part p' → root s loc' p' = h →
  loc' = loc ∧ p' = p.
Proof.
  intros Hok (Hh&_&_&Ho&_) Hl Hp Hr.
  destruct (so_root s Hok loc' p' Hl Hp ltac:(lia)) as (_&_&_&Ho'&_).
  rewrite Hr, Ho in Ho'. by injection Ho' as -> ->.
Qed.

Lemma owned_owner s h loc p : owned s h loc p → owner s h = Some (mkOwner loc p 1).
Proof.
  intros (Hh&_&_&Ho&_). unfold owner, kInvalidPricePageHandle.
  rewrite (proj2 (Z.eqb_neq h 0)), (proj2 (Z.ltb_ge _ _)) by lia. cbn. by rewrite Ho.
Qed.

Lemma owned_handle s h loc p : store_ok s → owned s h loc p → 0 < h <= page_capacity s ∧ 0 < h < 2 ^ 32.
Proof.
  intros Hok (Hh&_). pose proof (so_committed s Hok). pose proof (so_capacity s Hok) as Hc.
  unfold max_u32 in Hc. lia.
Qed.

Lemma resolves_owned s a loc price :
  store_ok s → resolves s a loc price →
  owned s (page_handle a) loc (page_index (splitPrice price)) ∧ part (addr_level a).
Proof.
  intros Hok (Hl&Hp&Hh&Hn&Hi). pose proof (split_parts price Hp) as [? ?].
  rewrite Hi. split; [|done]. rewrite Hh. apply so_root; [done|done|done|]. by rewrite <- Hh.
Qed.

Lemma resolves_level s a loc side price :
  resolves s a loc price → level_at s loc side price = levelUnchecked s a side.
Proof.
  intros (_&_&Hh&Hn&Hi). unfold level_at. rewrite <- Hh, <- Hi.
  rewrite (proj2 (Z.eqb_neq _ _) Hn). by destruct a.
Qed.

(** ** Frames *)

Lemma book_frame s s' loc side P :
  same_layout s s' →
  (∀ p, part p → root s loc p ≠ 0 →
     pageSummary s' (root s loc p) side = pageSummary s (root s loc p) side) →
  bookSummary s' loc side = bookSummary s loc side →
  bookOccupancy s' loc side = bookOccupancy s loc side →
  book_ok s loc side P → book_ok s' loc side P.
Proof.
  intros Hl Hps Hbs Hbb [Hm Hc Hb He Hbest]. split; rewrite ?Hbs, ?Hbb; try done.
  - intros p. rewrite Hm. unfold active_page. rewrite (same_layout_root s s') by done.
    split; intros (?&?&?); split_and!; try done; by rewrite Hps in *.
  - intros HP. destruct (Hbest HP) as (p&Hbo&Hh&Hr). exists p.
    rewrite (same_layout_root s s') by done.
    destruct Hbo as [Hin Hbo]. apply Hm in Hin as Hact. destruct Hact as (?&?&_).
    by rewrite Hps.
Qed.

(** A change confined to one side of one page and of its book: it suffices to
    re-establish the invariant of that page side and that book side. *)
Lemma store_local s s' h loc p side X P :
  store_ok s → owned s h loc p → validSide side = true → same_layout s s' →
  (∀ h' sd', validSide sd' = true → (h', sd') ≠ (h, side) →
     pageSummary s' h' sd' = pageSummary s h' sd' ∧
     pageOccupancy s' h' sd' = pageOccupancy s h' sd') →
  (∀ h' sd' i, 0 < h' < 2 ^ 32 → validSide sd' = true → (h', sd') ≠ (h, side) → part i →
     lvl s' h' sd' i = lvl s h' sd' i) →
  (∀ l' sd', validSide sd' = true → (l', sd') ≠ (loc, side) →
     bookSummary s' l' sd' = bookSummary s l' sd' ∧
     bookOccupancy s' l' sd' = bookOccupancy s l' sd') →
  page_ok side (lvl s' h side) (pageSummary s' h side) (pageOccupancy s' h side) X →
  book_ok s' loc side P →
  store_ok s'.
Proof.
  intros Hok Ho Hsd Hl Hpg Hlv Hbk Hpage Hbook.
  pose proof (owned_handle s h loc p Hok Ho) as [Hh _].
  pose proof (so_capacity s Hok) as Hcap. unfold max_u32 in Hcap.
  pose proof Hl as [Ec Er Ep Eo Em]. split.
  - rewrite Ec. by apply so_capacity.
  - rewrite Ec, Em. by apply so_committed.
  - intros h' Hh'. rewrite Em in Hh'. destruct (so_owned s Hok h' Hh') as (l'&p'&H').
    exists l', p'. by eapply same_layout_owned.
  - intros l' p' Hl' Hp'. rewrite (same_layout_root s s') by done. intros Hr.
    eapply same_layout_owned; [done|]. by apply so_root.
  - intros h' Hh'. rewrite Eo. apply (so_fresh s Hok). by rewrite <- Em.
  - intros h' sd' Hh' Hsd'. destruct (decide ((h', sd') = (h, side))) as [[= -> ->]|Hne].
    { exists X. split; [done|]. rewrite Em. destruct Ho as (?&_). lia. }
    rewrite Ec in Hh'. destruct (so_page s Hok h' sd' Hh' Hsd') as (X'&HX'&Hf).
    exists X'. rewrite Em. split; [|done]. destruct (Hpg h' sd' Hsd' Hne) as [-> ->].
    eapply page_ext; [|done]. intros j Hj. apply Hlv; [lia|done|done|done].
  - intros l' sd' Hl' Hsd'. destruct (decide ((l', sd') = (loc, side))) as [[= -> ->]|Hne].
    { by exists P. }
    destruct (so_book s Hok l' sd' Hl' Hsd') as [P' HP']. exists P'.
    destruct (Hbk l' sd' Hsd' Hne) as [? ?].
    eapply book_frame; [done| |done|done|done]. intros p' Hp' Hr.
    apply Hpg; [done|]. intros [= Hrh ->].
    destruct (owned_root s h loc p l' p' Hok Ho Hl' Hp' Hrh) as [-> _]. done.
Qed.

(** ** The book half of an activation *)

Section activate_book.
Context (s s' : t) (h loc p i : Z) (side : OrderSide) (P : gset Z) (X : gset Z).
Context (Hok : store_ok s) (Ho : owned s h loc p) (Hsd : validSide side = true).
Context (Hl : same_layout s s') (Hi : part i) (Hnew : i ∉ X).
Context (Hpage : page_ok side (lvl s h side) (pageSummary s h side) (pageOccupancy s h side) X).
Context (HP : book_ok s loc side P).
Let ps := pageSummary s h side.
Let ps' := fst (activatePage ps (pageOccupancy s h side) side i).
Let bk := activateBook (bookSummary s loc side) (bookOccupancy s loc side) side
            (active_levels ps =? 0) p i h.
Context (Hps : ∀ h', pageSummary s' h' side = if decide (h' = h) then ps' else pageSummary s h' side).
Context (Hbs : bookSummary s' loc side = fst bk) (Hbb : bookOccupancy s' loc side = snd bk).

Lemma root_here : root s loc p = h.
Proof. apply Ho. Qed.

Lemma root_inj p' : part p' → root s loc p' = h → p' = p.
Proof. intros Hp' Hr. by destruct (owned_root s h loc p loc p' Hok Ho ltac:(apply Ho) Hp' Hr). Qed.

Lemma page_member : p ∈ P ↔ active_levels ps ≠ 0.
Proof.
  rewrite (bk_mem _ _ _ _ HP). unfold active_page. rewrite root_here.
  destruct Ho as (?&_&?&_). split; [naive_solver|]. intros. split; [done|]. split; [lia|done].
Qed.

Lemma levels_nonneg : 0 <= active_levels ps.
Proof. unfold ps. rewrite (pk_count _ _ _ _ _ Hpage). lia. Qed.

Lemma activated_levels : active_levels ps' = active_levels ps + 1.
Proof.
  unfold ps', activatePage. cbn [fst active_levels].
  pose proof (part_set_room X i (λ j, page_part side _ _ _ _ j Hpage) Hi Hnew) as Hr.
  change kPricePartCount with 65536 in Hr. unfold ps. rewrite (pk_count _ _ _ _ _ Hpage).
  rewrite u32_id; [done|]. split; lia.
Qed.

Lemma active_after p' : active_page s' loc side p' ↔ p' = p ∨ active_page s loc side p'.
Proof.
  unfold active_page. rewrite (same_layout_root s s') by done. rewrite Hps.
  pose proof activated_levels as Ha. destruct Ho as (Hh&_&Hpp&_).
  destruct (decide (root s loc p' = h)) as [E|E].
  - split.
    + intros (Hp'&_). left. by apply root_inj.
    + intros [->|(Hp'&?&Hact)]; (split; [done|split; [lia|]]).
      all: pose proof levels_nonneg; lia.
  - split; [naive_solver|]. intros [->|?]; [|done]. by destruct E; apply root_here.
Qed.

Lemma active_members : ∀ p', p' ∈ {[p]} ∪ P ↔ active_page s' loc side p'.
Proof.
  intros p'. rewrite elem_of_union, elem_of_singleton, active_after.
  by rewrite (bk_mem _ _ _ _ HP).
Qed.

Lemma pages_count : active_pages (fst bk) = Z.of_nat (size ({[p]} ∪ P)).
Proof.
  assert (active_pages (fst bk) = if active_levels ps =? 0
            then u32 (active_pages (bookSummary s loc side) + 1)
            else active_pages (bookSummary s loc side)) as ->.
  { unfold bk, activateBook. by destruct (_ || _). }
  rewrite (bk_count _ _ _ _ HP). pose proof page_member as Hm.
  destruct (Z.eqb_spec (active_levels ps) 0) as [E|E].
  - assert (p ∉ P) as Hn by (rewrite Hm; lia). rewrite size_add_new by done.
    assert (∀ x, x ∈ P → part x) as HPp.
    { intros x Hx. by apply (bk_mem _ _ _ _ HP) in Hx as (?&_). }
    pose proof (part_set_room P p HPp ltac:(apply Ho) Hn) as Hr.
    change kPricePartCount with 65536 in Hr. rewrite u32_id; [lia|split; lia].
  - apply Hm in E. by replace ({[p]} ∪ P) with P by set_solver.
Qed.

Lemma pages_bits : PriceBitmap.denotes (snd bk) ({[p]} ∪ P).
Proof.
  assert (snd bk = if active_levels ps =? 0 then PriceBitmap.set (bookOccupancy s loc side) p
                   else bookOccupancy s loc side) as ->.
  { unfold bk, activateBook. by destruct (_ || _). }
  pose proof (bk_bits _ _ _ _ HP) as Hb. destruct (Z.eqb_spec (active_levels ps) 0) as [E|E].
  - apply PriceBitmap.denotes_set; [done|]. apply Ho.
  - apply page_member in E. by replace ({[p]} ∪ P) with P by set_solver.
Qed.

Lemma activated_best : best_level_index ps' =
  if (active_levels ps =? 0) || better side i (best_level_index ps) then i else best_level_index ps.
Proof. done. Qed.

Lemma book_best_after :
  ∃ p', best_of side ({[p]} ∪ P) p' ∧ best_page_handle (fst bk) = root s loc p' ∧
    best_raw_price (fst bk) = joinPrice p' (best_level_index (pageSummary s' (root s loc p') side)).
Proof.
  pose proof page_member as Hm. unfold bk, activateBook, kInvalidPricePageHandle.
  destruct (decide (P = ∅)) as [HPe|HPn].
  - (* first active page of the book *)
    assert (active_levels ps = 0) as E0.
    { destruct (decide (active_levels ps = 0)) as [|E]; [done|]. apply Hm in E. set_solver. }
    rewrite (bk_count _ _ _ _ HP), HPe, size_empty. cbn [fst best_page_handle best_raw_price].
    exists p. rewrite root_here, Hps, decide_True by done. split_and!.
    + replace ({[p]} ∪ ∅ : gset Z) with ({[p]} : gset Z) by set_solver. apply best_of_singleton.
    + done.
    + rewrite activated_best, E0. done.
  - destruct (bk_best _ _ _ _ HP HPn) as (q&Hq&Hqh&Hqr).
    pose proof (proj1 Hq) as Hqin. apply (bk_mem _ _ _ _ HP) in Hqin as (Hqp&Hqn&Hqa).
    destruct (so_page s Hok (root s loc q) side) as (Y&HY&_).
    { pose proof (so_root s Hok loc q ltac:(apply Ho) Hqp Hqn) as Hoq.
      by apply (owned_handle s _ loc q Hok). }
    { done. }
    destruct (page_best_in side _ _ _ _ HY Hqa) as [_ Hqb].
    assert ((active_pages (bookSummary s loc side) =? 0) = false) as ->.
    { apply Z.eqb_neq. rewrite (bk_count _ _ _ _ HP). intros E. apply HPn.
      apply size_zero_empty. lia. }
    rewrite Hqh, (proj2 (Z.eqb_neq _ _) Hqn). cbn [orb].
    rewrite Hqr. set (b := best_level_index (pageSummary s (root s loc q) side)) in *.
    destruct (better side (joinPrice p i) (joinPrice q b)) eqn:E;
      cbn [fst best_page_handle best_raw_price].
    + exists p. rewrite root_here, Hps, decide_True by done. apply better_join in E; [|done|done].
      split_and!; [|done|].
      * destruct E as [E|[Epq E]].
        -- assert (p ∉ P) as Hpn.
           { intros Hin. destruct Hq as [_ Hq]. destruct (decide (p = q)) as [Epq|Hne].
             - subst q. rewrite better_lt in E. destruct side; lia.
             - specialize (Hq p Hin Hne). rewrite better_lt in E, Hq. destruct side; lia. }
           pose proof (best_of_insert side P q p Hq Hpn) as Hbo. by rewrite E in Hbo.
        -- subst q. by replace ({[p]} ∪ P) with P by (destruct Hq; set_solver).
      * f_equal. rewrite activated_best. destruct E as [E|[Epq E]].
        -- assert (active_levels ps = 0) as ->; [|done].
           destruct (decide (active_levels ps = 0)) as [|Ha]; [done|]. apply Hm in Ha.
           destruct Hq as [_ Hq]. destruct (decide (p = q)) as [Epq|Hne].
           ++ subst q. rewrite better_lt in E. destruct side; lia.
           ++ specialize (Hq p Ha Hne). rewrite better_lt in E, Hq. destruct side; lia.
        -- subst q. assert (b = best_level_index ps) as <- by (unfold b, ps; by rewrite root_here).
           by rewrite E, orb_true_r.
    + exists q. split_and!; [|done|].
      * destruct (decide (p ∈ P)) as [Hin|Hpn]; [by replace ({[p]} ∪ P) with P by set_solver|].
        pose proof (best_of_insert side P q p Hq Hpn) as Hbo.
        assert (better side p q = false) as Hpq.
        { apply not_true_iff_false. intros Hb. rewrite (proj2 (better_join side p i q b Hi Hqb)) in E; [done|by left]. }
        by rewrite Hpq in Hbo.
      * f_equal. rewrite Hps. case_decide as Er; [|done].
        pose proof (root_inj q Hqp Er) as Eqp. subst q. rewrite activated_best.
        assert (b = best_level_index ps) as Hbp by (unfold b, ps; by rewrite root_here).
        rewrite <- Hbp. assert (better side i b = false) as ->.
        { apply not_true_iff_false. intros Hb.
          rewrite (proj2 (better_join side p i p b Hi Hqb)) in E; [done|by right]. }
        assert ((active_levels ps =? 0) = false) as ->; [|done].
        apply Z.eqb_neq, Hm. apply Hq.
Qed.

Lemma book_activate : book_ok s' loc side ({[p]} ∪ P).
Proof.
  split.
  - apply active_members.
  - rewrite Hbs. apply pages_count.
  - rewrite Hbb. apply pages_bits.
  - set_solver.
  - intros _. destruct book_best_after as (p'&?&?&?). exists p'.
    rewrite Hbs, (same_layout_root s s') by done. done.
Qed.

End activate_book.

(** ** The abstract effect of writing one level *)

(** [s'] has the aggregates of [s], except [v] at one stock, side and price. *)
Definition level_update (s s' : t) (loc : Z) (side : OrderSide) (price : Z)
    (v : PriceLevelState) : Prop :=
  ∀ loc' side' price', good_locate loc' → validSide side' = true → fits 32 price' →
    level_at s' loc' side' price' =
    if decide (loc' = loc ∧ side' = side ∧ price' = price) then v
    else level_at s loc' side' price'.

Lemma level_write s s' a loc side price v :
  store_ok s → resolves s a loc price → validSide side = true → same_layout s s' →
  (∀ h' sd' i, 0 < h' < 2 ^ 32 → validSide sd' = true → part i →
     lvl s' h' sd' i = if decide (page_handle a = h' ∧ side = sd' ∧ addr_level a = i) then v
                       else lvl s h' sd' i) →
  level_update s s' loc side price v.
Proof.
  intros Hok Ha Hsd Hl Hlv loc' side' price' Hl' Hsd' Hp'.
  destruct (resolves_owned s a loc price Hok Ha) as [Ho _]. pose proof Ha as (Hg&Hp&Hh&Hn&Hi).
  pose proof (split_parts price' Hp') as [Hpp Hlp].
  unfold level_at. rewrite (same_layout_root s s') by done.
  destruct (Z.eqb_spec (root s loc' (page_index (splitPrice price'))) 0) as [E|E].
  - rewrite decide_False; [done|]. intros (->&_&->). congruence.
  - pose proof (so_root s Hok _ _ Hl' Hpp E) as Ho'.
    pose proof (owned_handle s _ _ _ Hok Ho') as [_ Hr].
    rewrite Hlv by done. destruct (decide (loc' = loc ∧ side' = side ∧ price' = price)) as [Ee|Ne].
    + destruct Ee as (->&->&->). rewrite decide_True; [done|]. by rewrite Hh, Hi.
    + rewrite decide_False; [done|]. intros (Eh&->&Ei). apply Ne.
      destruct (owned_root s _ _ _ loc' _ Hok Ho Hl' Hpp (eq_sym Eh)) as [-> Epg].
      split_and!; [done|done|]. rewrite <- (join_split price'), <- (join_split price) by done.
      rewrite Epg. f_equal. by rewrite <- Ei.
Qed.

(** ** [add] *)

Lemma resolves_valid_address s a loc price side :
  store_ok s → resolves s a loc price → validSide side = true → validateAddress s a side = Applied.
Proof.
  intros Hok Ha Hsd. destruct (resolves_owned s a loc price Hok Ha) as [((?&?)&_) _].
  unfold validateAddress, address_valid, kInvalidPricePageHandle. rewrite Hsd.
  rewrite (proj2 (Z.eqb_neq _ 0)), (proj2 (Z.ltb_ge _ _)) by lia. done.
Qed.

Lemma resolves_page s a loc price side :
  store_ok s → resolves s a loc price → validSide side = true →
  ∃ X, page_ok side (lvl s (page_handle a) side) (pageSummary s (page_handle a) side)
         (pageOccupancy s (page_handle a) side) X ∧
       (addr_level a ∈ X ↔ order_count (levelUnchecked s a side) ≠ 0) ∧
       level_ok (levelUnchecked s a side).
Proof.
  intros Hok Ha Hsd. destruct (resolves_owned s a loc price Hok Ha) as [Ho Hp].
  destruct (owned_handle s _ _ _ Hok Ho) as [Hh _].
  destruct (so_page s Hok _ side Hh Hsd) as (X&HX&_). exists X. split; [done|].
  pose proof (pk_mem _ _ _ _ _ HX (addr_level a)) as Hm.
  pose proof (pk_level _ _ _ _ _ HX _ Hp) as Hlv. unfold lvl in Hm, Hlv.
  destruct a as [h i]; cbn in *. split; [|done]. rewrite Hm. naive_solver.
Qed.

Lemma activation_valid s a loc price side :
  store_ok s → resolves s a loc price → validSide side = true →
  order_count (levelUnchecked s a side) = 0 → validateActivation s a side = Applied.
Proof.
  intros Hok Ha Hsd H0. destruct (resolves_owned s a loc price Hok Ha) as [Ho Hp].
  destruct (resolves_page s a loc price side Hok Ha Hsd) as (X&HX&Hm&_).
  pose proof Ho as (_&Hg&Hpp&_). unfold validateActivation.
  rewrite (owned_owner s _ _ _ Ho). cbn [ow_committed ow_stock_locate].
  rewrite (good_locate_valid loc Hg). cbn [negb orb].
  assert (addr_level a ∉ X) as Hn by (rewrite Hm; lia).
  pose proof (part_set_room X _ (λ j, page_part side _ _ _ _ j HX) Hp Hn) as Hr.
  set (ps := pageSummary s (page_handle a) side) in *.
  rewrite (proj2 (Z.leb_gt kPricePartCount (active_levels ps)))
    by (by rewrite (pk_count _ _ _ _ _ HX)). cbn [orb].
  destruct (Z.eqb_spec (active_levels ps) 0) as [E|E]; cbn [negb andb orb].
  - destruct (so_book s Hok loc side Hg Hsd) as [P HP].
    rewrite (proj2 (Z.leb_gt _ _)); [done|]. rewrite (bk_count _ _ _ _ HP).
    apply part_set_room with (page_index (splitPrice price)).
    + intros x Hx. by apply (bk_mem _ _ _ _ HP) in Hx as (?&_).
    + done.
    + rewrite (bk_mem _ _ _ _ HP). intros (_&_&Hact).
      assert (root s loc (page_index (splitPrice price)) = page_handle a) as Hr' by apply Ho.
      rewrite Hr' in Hact. done.
  - destruct (page_best_in side _ _ _ _ HX E) as [_ [_ Hb]].
    rewrite (proj2 (Z.leb_gt _ _) Hb). done.
Qed.

Lemma activateLevel_layout s a side : same_layout s (activateLevel s a side).
Proof. unfold activateLevel. by destruct (activatePage _ _ _ _), (activateBook _ _ _ _ _ _ _). Qed.

(** What the accessors read after an accepted [add]. *)
Section added.
Context (s : t) (a : PriceAddress) (loc price : Z) (side : OrderSide) (v : PriceLevelState).
Context (Hok : store_ok s) (Ha : resolves s a loc price) (Hsd : validSide side = true).
Let h := page_handle a.
Let i := addr_level a.
Let p := page_index (splitPrice price).
Let ps := pageSummary s h side.
Let ap := activatePage ps (pageOccupancy s h side) side i.
Let ab := activateBook (bookSummary s loc side) (bookOccupancy s loc side) side
            (active_levels ps =? 0) p i h.
Let s1 := set_level (activateLevel s a side) a side v.

Lemma added_owner : (page_owners s).[h] = mkOwner loc p 1.
Proof. by destruct (resolves_owned s a loc price Hok Ha) as [(_&_&_&Ho&_) _]. Qed.

Lemma added_handle : 0 < h < 2 ^ 32.
Proof.
  destruct (resolves_owned s a loc price Hok Ha) as [Ho _]. by apply (owned_handle s h loc p Hok).
Qed.

Lemma added_shape :
  s1 = set_level (set_bookSummary (set_bookOccupancy
         (set_pageSummary (set_pageOccupancy s h side (snd ap)) h side (fst ap))
         loc side (snd ab)) loc side (fst ab)) a side v.
Proof.
  unfold s1, activateLevel. fold h i. rewrite added_owner. cbn [ow_stock_locate ow_page_index].
  fold ps ap. unfold ab. by destruct ap, (activateBook _ _ _ _ _ _ _).
Qed.

Lemma added_layout : same_layout s s1.
Proof. rewrite added_shape. done. Qed.

Lemma added_summary h' sd' : validSide sd' = true →
  pageSummary s1 h' sd' = if decide (h = h' ∧ side = sd') then fst ap else pageSummary s h' sd'.
Proof. intros. rewrite added_shape. exact (pageSummary_set (set_pageOccupancy s h side (snd ap)) h side h' sd' Hsd ltac:(done) _). Qed.

Lemma added_occupancy h' sd' : validSide sd' = true →
  pageOccupancy s1 h' sd' = if decide (h = h' ∧ side = sd') then snd ap else pageOccupancy s h' sd'.
Proof. intros. rewrite added_shape. exact (pageOccupancy_set s h side h' sd' Hsd ltac:(done) _). Qed.

Lemma added_book l' sd' : validSide sd' = true →
  bookSummary s1 l' sd' = if decide (loc = l' ∧ side = sd') then fst ab else bookSummary s l' sd'.
Proof.
  intros. rewrite added_shape.
  exact (bookSummary_set (set_bookOccupancy (set_pageSummary (set_pageOccupancy s h side (snd ap))
    h side (fst ap)) loc side (snd ab)) loc side l' sd' Hsd ltac:(done) _).
Qed.

Lemma added_bookbits l' sd' : validSide sd' = true →
  bookOccupancy s1 l' sd' = if decide (loc = l' ∧ side = sd') then snd ab else bookOccupancy s l' sd'.
Proof.
  intros. rewrite added_shape.
  exact (bookOccupancy_set (set_pageSummary (set_pageOccupancy s h side (snd ap)) h side (fst ap))
    loc side l' sd' Hsd ltac:(done) _).
Qed.

Lemma added_level h' sd' i' : 0 < h' < 2 ^ 32 → validSide sd' = true →
  lvl s1 h' sd' i' = if decide (h = h' ∧ side = sd' ∧ i = i') then v else lvl s h' sd' i'.
Proof.
  intros. pose proof added_handle. rewrite added_shape.
  match goal with |- lvl (set_level ?x _ _ _) _ _ _ = _ =>
    change (lvl s h' sd' i') with (lvl x h' sd' i') end.
  by apply lvl_set_at.
Qed.

(** Activating a level and writing a non-empty aggregate into it. *)
Lemma added_ok :
  order_count (levelUnchecked s a side) = 0 → level_ok v → order_count v ≠ 0 →
  store_ok s1 ∧ level_update s s1 loc side price v.
Proof.
  intros H0 Hv Hvn. destruct (resolves_owned s a loc price Hok Ha) as [Ho Hpi].
  destruct (resolves_page s a loc price side Hok Ha Hsd) as (X&HX&Hm&_).
  assert (i ∉ X) as Hn by (unfold i; rewrite Hm; lia).
  pose proof Ho as (_&Hg&_). destruct (so_book s Hok loc side Hg Hsd) as [P HP].
  pose proof added_handle as Hh. split.
  - eapply (store_local s s1 h loc p side ({[i]} ∪ X) ({[p]} ∪ P)); try done.
    + apply added_layout.
    + intros h' sd' Hsd' Hne. rewrite added_summary, added_occupancy by done.
      rewrite !decide_False; [done|naive_solver..].
    + intros h' sd' j Hh' Hsd' Hne Hj. rewrite added_level by done.
      rewrite decide_False; [done|naive_solver].
    + intros l' sd' Hsd' Hne. rewrite added_book, added_bookbits by done.
      rewrite !decide_False; [done|naive_solver..].
    + rewrite added_summary, added_occupancy by done. rewrite !decide_True by done.
      eapply page_activate; try done. intros j Hj. rewrite added_level by done.
      destruct (decide (j = i)); [rewrite decide_True by done; done|].
      rewrite decide_False; [done|naive_solver].
    + eapply (book_activate s s1 h loc p i side P X); try done.
      * apply added_layout.
      * intros h'. rewrite added_summary by done. repeat case_decide; naive_solver.
      * rewrite added_book by done. by rewrite decide_True.
      * rewrite added_bookbits by done. by rewrite decide_True.
  - eapply level_write; try done; [apply added_layout|]. intros. by apply added_level.
Qed.

End added.

(** Rewriting the aggregate of a level that keeps orders. *)
Lemma rewritten_ok s a loc price side v :
  store_ok s → resolves s a loc price → validSide side = true →
  order_count (levelUnchecked s a side) ≠ 0 → level_ok v → order_count v ≠ 0 →
  store_ok (set_level s a side v) ∧ level_update s (set_level s a side v) loc side price v.
Proof.
  intros Hok Ha Hsd Hn Hv Hvn. destruct (resolves_owned s a loc price Hok Ha) as [Ho _].
  destruct (resolves_page s a loc price side Hok Ha Hsd) as (X&HX&Hm&_).
  pose proof (proj2 (owned_handle s _ _ _ Hok Ho)) as Hh. pose proof Ho as (_&Hg&_).
  assert (∀ h' sd' i', 0 < h' < 2 ^ 32 → validSide sd' = true →
    lvl (set_level s a side v) h' sd' i' =
    if decide (page_handle a = h' ∧ side = sd' ∧ addr_level a = i') then v else lvl s h' sd' i') as Hlv.
  { intros. by apply lvl_set_at. }
  split.
  - destruct (so_book s Hok loc side Hg Hsd) as [P HP].
    eapply (store_local s _ (page_handle a) loc _ side X P); try done.
    + intros h' sd' j Hh' Hsd' Hne Hj. rewrite Hlv by done. rewrite decide_False; [done|naive_solver].
    + eapply page_update; [done|by apply Hm|done|done|]. intros j Hj. rewrite Hlv by done.
      repeat case_decide; naive_solver.
    + apply (book_frame s); done.
  - eapply level_write; try done. intros. by apply Hlv.
Qed.

(** Outcome of [add] on an address of the book: a rejection leaves the store
    unchanged, an acceptance adds the order to one level. *)
Definition add_outcome (s : t) (loc : Z) (side : OrderSide) (price qty : Z)
    (r : MutationResult * t) : Prop :=
  let l := level_at s loc side price in
  if qty =? 0 then r = (InvalidQuantity, s) else
  if order_count l =? max_u32 then r = (OrderCountOverflow, s) else
  if max_u64 - qty <? total_qty l then r = (QuantityOverflow, s) else
  fst r = Applied ∧ store_ok (snd r) ∧ same_layout s (snd r) ∧
  level_update s (snd r) loc side price (mkLevel (total_qty l + qty) (order_count l + 1)).

Lemma validateAdd_spec s a loc price side qty :
  store_ok s → resolves s a loc price → validSide side = true →
  let l := level_at s loc side price in
  validateAdd s a side qty =
    if qty =? 0 then InvalidQuantity else
    if order_count l =? max_u32 then OrderCountOverflow else
    if max_u64 - qty <? total_qty l then QuantityOverflow else Applied.
Proof.
  intros Hok Ha Hsd l. unfold validateAdd, l.
  rewrite (resolves_valid_address s a loc price) by done. enum.
  rewrite (resolves_level s a loc side price Ha).
  destruct (resolves_page s a loc price side Hok Ha Hsd) as (_&_&_&(_&_&Hz)).
  repeat (case_if; [done|]).
  assert (Bool.eqb (order_count (levelUnchecked s a side) =? 0)
            (total_qty (levelUnchecked s a side) =? 0) = true) as ->.
  { apply eqb_true_iff. destruct (Z.eqb_spec (order_count (levelUnchecked s a side)) 0) as [E'|E'];
      symmetry; [apply Z.eqb_eq; by apply Hz|apply Z.eqb_neq; naive_solver]. }
  cbn [negb]. case_if; [|done]. by apply (activation_valid s a loc price).
Qed.

Lemma add_validated_spec s a loc price side qty :
  store_ok s → resolves s a loc price → validSide side = true → 0 < qty →
  let l := level_at s loc side price in
  order_count l < max_u32 → total_qty l + qty <= max_u64 →
  store_ok (addValidated s a side qty) ∧ same_layout s (addValidated s a side qty) ∧
  level_update s (addValidated s a side qty) loc side price
    (mkLevel (total_qty l + qty) (order_count l + 1)).
Proof.
  intros Hok Ha Hsd Hq l Hc Ht. unfold addValidated.
  assert (levelUnchecked s a side = l) as -> by (unfold l; by rewrite (resolves_level s a loc)).
  destruct (resolves_page s a loc price side Hok Ha Hsd) as (_&_&_&Hlv).
  rewrite <- (resolves_level s a loc side price Ha) in Hlv. fold l in Hlv.
  destruct Hlv as (Hf1&Hf2&Hz). unfold max_u32, max_u64 in *. unfold fits in *.
  rewrite u64_id, u32_id by (split; lia).
  assert (level_ok (mkLevel (total_qty l + qty) (order_count l + 1))) as Hv.
  { unfold level_ok, fits; cbn. lia. }
  destruct (Z.eqb_spec (order_count l) 0) as [E|E].
  - destruct (added_ok s a loc price side (mkLevel (total_qty l + qty) (order_count l + 1)))
      as [? ?]; try done; [by rewrite <- (resolves_level s a loc side price Ha)|cbn; lia|].
    split_and!; try done. by apply (added_layout s a loc price side).
  - destruct (rewritten_ok s a loc price side (mkLevel (total_qty l + qty) (order_count l + 1)))
      as [? ?]; try done; [by rewrite <- (resolves_level s a loc side price Ha)|cbn; lia].
Qed.

Lemma add_spec s a loc price side qty :
  store_ok s → resolves s a loc price → validSide side = true → fits 32 qty →
  add_outcome s loc side price qty (add s a side qty).
Proof.
  intros Hok Ha Hsd [Hq0 _]. unfold add_outcome, add.
  rewrite (validateAdd_spec s a loc price side qty Hok Ha Hsd).
  destruct (resolves_page s a loc price side Hok Ha Hsd) as (_&_&_&(_&[_ Hf]&_)).
  rewrite <- (resolves_level s a loc side price Ha) in Hf.
  repeat (case_if; [enum; done|]). enum. cbn [fst snd]. split; [done|].
  apply add_validated_spec; try done; unfold max_u32 in *; lia.
Qed.

End PriceStoreAdd.
