(* ===== verification/PricesErase.v ===== *)
(** Removing an order from a price level: the deactivation plan computed by the
    validation is always available and right on a well-formed store, so
    [erase], [reduce] and [move] change exactly the aggregates they name and
    never report an invariant violation of the indexes. *)
From stdpp Require Import base list gmap.
From Stdlib Require Import ZArith Lia.
From S2P Require Import Prelude Bits Bitmap BookTypes Orders Prices PricesInv PricesAdd.
#[local] Open Scope Z_scope.
#[local] Open Scope astra_scope.

Module PriceStoreErase.
Import PriceLevelStore PriceStoreInv PriceStoreAdd.

(** ** The next worse element of a set *)

Definition next_worse (side : OrderSide) (X : gset Z) (i r : Z) : Prop :=
  (r = PriceBitmap.kInvalid ∧ ∀ j, j ∈ X → better side i j = false) ∨
  (r ∈ X ∧ better side i r = true ∧
   ∀ j, j ∈ X → better side i j = true → j ≠ r → better side r j = true).

Lemma worse_below bm X i :
  PriceBitmap.denotes bm X → part i → next_worse Buy X i (worseIndex bm Buy i).
Proof.
  intros Hd [Hi _]. unfold worseIndex, next_worse. cbn [better].
  destruct (Z.eqb_spec i 0) as [->|Hne].
  - left. split; [done|]. intros j Hj%(PriceBitmap.denotes_range _ _ _ Hd). apply Z.ltb_ge. lia.
  - destruct (PriceBitmap.denotes_findHighest bm X (i - 1) Hd ltac:(lia))
      as [[-> Hn]|(Hr&Hle&Hmax)]; [left|right].
    + split; [done|]. intros j Hj. specialize (Hn j Hj). apply Z.ltb_ge. lia.
    + split_and!; [done|apply Z.ltb_lt; lia|]. intros j Hj Hlt Hjr.
      apply Z.ltb_lt in Hlt. specialize (Hmax j Hj ltac:(lia)). apply Z.ltb_lt. lia.
Qed.

Lemma worse_above bm X i side :
  side ≠ Buy → PriceBitmap.denotes bm X → part i → next_worse side X i (worseIndex bm side i).
Proof.
  intros Hs Hd [Hi _].
  assert (worseIndex bm side i = worseIndex bm Sell i) as -> by (by destruct side).
  assert (∀ a b, better side a b = better Sell a b) as Hb by (by destruct side).
  unfold worseIndex, next_worse, max_u16. setoid_rewrite Hb. cbn [better].
  destruct (Z.eqb_spec i 65535) as [->|Hne].
  - left. split; [done|]. intros j Hj%(PriceBitmap.denotes_range _ _ _ Hd). apply Z.ltb_ge.
    change PriceBitmap.kNumBits with 65536 in Hj. lia.
  - destruct (PriceBitmap.denotes_findLowest bm X (i + 1) Hd ltac:(lia))
      as [[-> Hn]|(Hr&Hle&Hmin)]; [left|right].
    + split; [done|]. intros j Hj. specialize (Hn j Hj). apply Z.ltb_ge. lia.
    + split_and!; [done|apply Z.ltb_lt; lia|]. intros j Hj Hlt Hjr.
      apply Z.ltb_lt in Hlt. specialize (Hmin j Hj ltac:(lia)). apply Z.ltb_lt. lia.
Qed.

Lemma worseIndex_spec side bm X i :
  PriceBitmap.denotes bm X → part i → next_worse side X i (worseIndex bm side i).
Proof.
  intros Hd Hi. destruct (decide (side = Buy)) as [->|Hs]; [by apply worse_below|].
  by apply worse_above.
Qed.

Lemma kInvalid_not_part : ¬ part PriceBitmap.kInvalid.
Proof. unfold part. intros [_ H]. by vm_compute in H. Qed.

(** The next worse element after the best one is the best of the others. *)
Lemma next_worse_best side X i r :
  best_of side X i → next_worse side X i r → (∀ x, x ∈ X → part x) →
  (2 <= size X)%nat → r ∈ X ∧ part r ∧ r ≠ PriceBitmap.kInvalid ∧ best_of side (X ∖ {[i]}) r.
Proof.
  intros [Hi Hb] Hw HX Hs. destruct (size_two_other X i Hi Hs) as (y&Hy&Hyi).
  destruct Hw as [[_ Hn]|(Hr&Hir&Hmin)].
  - specialize (Hb y Hy Hyi). by rewrite Hn in Hb.
  - split; [done|]. split; [by apply HX|]. split.
    + intros ->. by apply kInvalid_not_part, HX.
    + split.
      * apply elem_of_difference. split; [done|]. intros ->%elem_of_singleton.
        rewrite better_lt in Hir. destruct side; lia.
      * intros x [Hx Hxi]%elem_of_difference Hxr. apply Hmin; [done| |done].
        apply Hb; [done|set_solver].
Qed.

Lemma next_worse_last side X i r :
  X = {[i]} → next_worse side X i r → r = PriceBitmap.kInvalid.
Proof.
  intros -> [[-> _]|(->%elem_of_singleton&H&_)]; [done|].
  rewrite better_lt in H. destruct side; lia.
Qed.

(** ** The page half of a deactivation *)

Section page_side.
Context (side : OrderSide).

Lemma removed_members L L' ps bm X i l :
  page_ok side L ps bm X → order_count l = 0 →
  (∀ j, part j → L' j = if decide (j = i) then l else L j) →
  ∀ j, j ∈ X ∖ {[i]} ↔ part j ∧ order_count (L' j) ≠ 0.
Proof.
  intros Hp Hl HL' j. rewrite elem_of_difference, elem_of_singleton, (pk_mem _ _ _ _ _ Hp).
  split.
  - intros [[Hj Hc] Hne]. split; [done|]. rewrite HL' by done. by rewrite decide_False.
  - intros [Hj Hc]. rewrite HL' in Hc by done. case_decide; [done|]. naive_solver.
Qed.

Lemma removed_levels L L' ps bm X i l :
  page_ok side L ps bm X → level_ok l →
  (∀ j, part j → L' j = if decide (j = i) then l else L j) →
  ∀ j, part j → level_ok (L' j).
Proof.
  intros Hp Hl HL' j Hj. rewrite HL' by done. case_decide; [done|].
  by apply (pk_level _ _ _ _ _ Hp).
Qed.

Lemma page_emptied L L' ps bm X i l :
  page_ok side L ps bm X → X = {[i]} → level_ok l → order_count l = 0 →
  (∀ j, part j → L' j = if decide (j = i) then l else L j) →
  page_ok side L' (mkPageSummary 0 0) bm (X ∖ {[i]}).
Proof.
  intros Hp HX Hl Hn HL'. assert (X ∖ {[i]} = ∅) as E by set_solver. split.
  - by eapply removed_members.
  - by eapply removed_levels.
  - rewrite E. by rewrite size_empty.
  - by rewrite E.
  - rewrite E, page_bits_small by (by rewrite size_empty; lia).
    pose proof (pk_bits _ _ _ _ _ Hp) as Hb. rewrite HX in Hb.
    by rewrite page_bits_small in Hb by (by rewrite size_singleton).
Qed.

Lemma page_shrunk L L' ps bm X i l plan :
  page_ok side L ps bm X → i ∈ X → (2 <= size X)%nat → level_ok l → order_count l = 0 →
  best_of side (X ∖ {[i]})
    (if page_best_changes plan then next_level_index plan else best_level_index ps) →
  (∀ j, part j → L' j = if decide (j = i) then l else L j) →
  page_ok side L' (fst (deactivatePage ps bm i plan)) (snd (deactivatePage ps bm i plan))
    (X ∖ {[i]}).
Proof.
  intros Hp Hi Hs Hl Hn Hb HL'. pose proof (size_remove X i Hi) as Hr.
  pose proof (part_set_size X (λ j, page_part side _ _ _ _ j Hp)) as Hmax.
  change kPricePartCount with 65536 in Hmax.
  unfold deactivatePage. set (b := if page_best_changes plan then _ else _) in *.
  rewrite (pk_count _ _ _ _ _ Hp). cbn [fst snd].
  rewrite u32_id by (split; lia).
  pose proof (pk_bits _ _ _ _ _ Hp) as Hbits. rewrite page_bits_big in Hbits by done.
  pose proof (PriceBitmap.denotes_reset bm X i Hbits (page_part side _ _ _ _ _ Hp Hi)) as Hbits1.
  split.
  - by eapply removed_members.
  - by eapply removed_levels.
  - cbn. lia.
  - intros _. by cbn.
  - destruct (Z.eqb_spec (Z.of_nat (size X) - 1) 1) as [E|E].
    + rewrite page_bits_small by lia. assert (X ∖ {[i]} = {[b]}) as EX.
      { apply size_one_eq; [apply Hb|lia]. }
      pose proof (proj1 Hb) as Hbin.
      replace (∅ : gset Z) with ((X ∖ {[i]}) ∖ {[b]} : gset Z) by set_solver.
      apply PriceBitmap.denotes_reset; [done|].
      eapply (page_part side); [done|]. set_solver.
    + rewrite page_bits_big by lia. done.
Qed.

End page_side.

(** ** The deactivation plan *)

Section plan.
Context (s : t) (a : PriceAddress) (loc price : Z) (side : OrderSide) (X P : gset Z).
Context (Hok : store_ok s) (Ha : resolves s a loc price) (Hsd : validSide side = true).
Context (Hin : addr_level a ∈ X).
Let h := page_handle a.
Let i := addr_level a.
Let p := page_index (splitPrice price).
Let ps := pageSummary s h side.
Let bs := bookSummary s loc side.
Context (HX : page_ok side (lvl s h side) ps (pageOccupancy s h side) X).
Context (HP : book_ok s loc side P).

Lemma plan_owned : owned s h loc p.
Proof. by destruct (resolves_owned s a loc price Hok Ha). Qed.

Lemma plan_root : root s loc p = h.
Proof. apply plan_owned. Qed.

Lemma plan_part : part i.
Proof. by destruct (resolves_owned s a loc price Hok Ha). Qed.

Lemma plan_levels : active_levels ps ≠ 0.
Proof.
  rewrite (pk_count _ _ _ _ _ HX). pose proof (size_nonempty_pos X i Hin). lia.
Qed.

Lemma plan_member : p ∈ P.
Proof.
  apply (bk_mem _ _ _ _ HP). unfold active_page. rewrite plan_root.
  pose proof plan_owned as (?&_&?&_). split; [done|]. split; [lia|apply plan_levels].
Qed.

Lemma plan_pages : active_pages bs = Z.of_nat (size P).
Proof. apply (bk_count _ _ _ _ HP). Qed.

Lemma member_part q : q ∈ P → part q.
Proof. intros Hq. by apply (bk_mem _ _ _ _ HP) in Hq as (?&_). Qed.

(** An active page of the book: its handle, levels and cached best level. *)
Lemma member_page q :
  q ∈ P → let g := root s loc q in
  owned s g loc q ∧ active_levels (pageSummary s g side) ≠ 0 ∧
  part (best_level_index (pageSummary s g side)) ∧
  emptyLevel (levelUnchecked s (mkAddress g (best_level_index (pageSummary s g side))) side) = false.
Proof.
  intros Hq g. apply (bk_mem _ _ _ _ HP) in Hq as (Hqp&Hqn&Hqa).
  pose proof plan_owned as (_&Hg&_). pose proof (so_root s Hok loc q Hg Hqp Hqn) as Ho.
  fold g in Hqa, Ho. destruct (owned_handle s g loc q Hok Ho) as [Hh _].
  destruct (so_page s Hok g side Hh Hsd) as (Y&HY&_).
  destruct (page_best_in side _ _ _ _ HY Hqa) as [[Hb _] Hbp].
  split; [done|]. split; [done|]. split; [done|].
  apply (pk_mem _ _ _ _ _ HY) in Hb as [_ Hc].
  destruct (pk_level _ _ _ _ _ HY _ Hbp) as (_&_&Hz). unfold emptyLevel, lvl in *.
  apply orb_false_iff. split; apply Z.eqb_neq; naive_solver.
Qed.

(** The cached best of the book. *)
Lemma plan_best :
  ∃ q, best_of side P q ∧ best_page_handle bs = root s loc q ∧
    best_raw_price bs = joinPrice q (best_level_index (pageSummary s (root s loc q) side)).
Proof. apply (bk_best _ _ _ _ HP). pose proof plan_member. set_solver. Qed.

Lemma guard_passes : deactivationGuard s (mkOwner loc p 1) h side = true.
Proof.
  unfold deactivationGuard. cbn [ow_stock_locate ow_page_index]. fold ps bs.
  destruct plan_best as (q&Hq&Hqh&Hqr). pose proof (proj1 Hq) as Hqin.
  destruct (member_page q Hqin) as (Hoq&Hqa&Hqb&Hqe). pose proof (member_part q Hqin) as Hqp.
  destruct (page_best_in side _ _ _ _ HX plan_levels) as [_ [Hb0 Hb1]].
  pose proof (part_set_size X (λ j, page_part side _ _ _ _ j HX)) as HXs.
  pose proof (part_set_size P member_part) as HPs.
  pose proof (size_nonempty_pos P p plan_member) as HP1.
  pose proof plan_levels as Hlv. pose proof (pk_count _ _ _ _ _ HX) as Hc.
  pose proof (bk_count _ _ _ _ HP) as Hcp. fold bs in Hcp.
  rewrite (PriceBitmap.denotes_test _ P p (bk_bits _ _ _ _ HP) (member_part p plan_member)).
  rewrite bool_decide_eq_true_2 by apply plan_member.
  pose proof Hoq as (Hh&_). unfold kInvalidPricePageHandle.
  rewrite !(proj2 (Z.eqb_neq _ 0)), !(proj2 (Z.ltb_ge _ _)), !(proj2 (Z.leb_gt _ _)) by lia.
  cbn [orb negb]. rewrite Hqh, Hqr, split_join_price by done. cbn [page_index level_index].
  rewrite (owned_owner s _ _ _ Hoq). unfold ownedBy; cbn [ow_committed ow_stock_locate ow_page_index].
  rewrite !Z.eqb_refl. cbn. rewrite (proj2 (Z.eqb_neq _ 0) Hqa). cbn. by rewrite Hqe.
Qed.

(** What a plan for removing level [i] must say about the page ... *)
Definition page_plan_ok (plan : DeactivationPlan) : Prop :=
  (page_becomes_empty plan = true ∧ X = {[i]} ∧ page_best_changes plan = false) ∨
  (page_becomes_empty plan = false ∧ (2 <= size X)%nat ∧
   page_best_changes plan = (best_level_index ps =? i) ∧
   best_of side (X ∖ {[i]})
     (if page_best_changes plan then next_level_index plan else best_level_index ps) ∧
   (page_best_changes plan = true → part (next_level_index plan))).

Lemma pagePlan_spec :
  ∃ plan, pagePlan s a side = Some plan ∧ page_plan_ok plan ∧
    book_best_changes plan = false ∧ next_book_raw_price plan = 0 ∧ next_book_page_handle plan = 0.
Proof.
  unfold pagePlan. fold h i ps. pose proof (pk_count _ _ _ _ _ HX) as Hc.
  destruct (page_best_in side _ _ _ _ HX plan_levels) as [Hb Hbp].
  pose proof (size_nonempty_pos X i Hin) as Hs.
  destruct (Z.eqb_spec (active_levels ps) 1) as [E|E].
  - assert (X = {[i]}) as EX by (apply size_one_eq; [done|lia]).
    assert (best_level_index ps = i) as Ebi by (destruct Hb as [Hb _]; set_solver).
    rewrite Ebi, Z.eqb_refl. cbn [negb]. eexists. split; [done|]. split; [by left|done].
  - assert (2 <= size X)%nat as Hs2 by lia.
    pose proof (pk_bits _ _ _ _ _ HX) as Hd. rewrite page_bits_big in Hd by done.
    rewrite (PriceBitmap.denotes_empty _ X Hd).
    rewrite !(PriceBitmap.denotes_test _ X _ Hd) by (apply plan_part || apply Hbp).
    rewrite (bool_decide_eq_false_2 (X = ∅)) by set_solver.
    rewrite !bool_decide_eq_true_2 by (apply Hin || apply Hb). cbn [negb orb].
    destruct (Z.eqb_spec (best_level_index ps) i) as [Ebi|Nbi].
    + pose proof (worseIndex_spec side _ X i Hd plan_part) as Hw. rewrite Ebi in Hb.
      destruct (next_worse_best side X i _ Hb Hw (λ j, page_part side _ _ _ _ j HX) Hs2)
        as (Hr&Hrp&Hri&Hrb). set (r := worseIndex _ side i) in *.
      rewrite (proj2 (Z.eqb_neq _ _) Hri).
      rewrite u16_id by (unfold part in Hrp; done).
      assert (emptyLevel (levelUnchecked s (mkAddress h r) side) = false) as ->.
      { apply (pk_mem _ _ _ _ _ HX) in Hr as [_ Hrc].
        destruct (pk_level _ _ _ _ _ HX r Hrp) as (_&_&Hz). unfold emptyLevel, lvl in *.
        apply orb_false_iff. split; apply Z.eqb_neq; naive_solver. }
      eexists. split; [done|]. split; [|done]. right. cbn. rewrite Ebi, Z.eqb_refl. done.
    + eexists. split; [done|]. split; [|done]. right. cbn.
      rewrite (proj2 (Z.eqb_neq _ _) Nbi). split_and!; try done. by apply best_of_remove.
Qed.

(** ... and about the cached best of the book. *)
Definition level_best_after (plan : DeactivationPlan) : Z :=
  if page_best_changes plan then next_level_index plan else best_level_index ps.
Definition best_after (plan : DeactivationPlan) (q : Z) : Z :=
  if decide (q = p) then level_best_after plan
  else best_level_index (pageSummary s (root s loc q) side).
Definition pages_after (plan : DeactivationPlan) : gset Z :=
  if page_becomes_empty plan then P ∖ {[p]} else P.

Definition book_plan_ok (plan : DeactivationPlan) : Prop :=
  let handle := if book_best_changes plan then next_book_page_handle plan
                else best_page_handle bs in
  let raw := if book_best_changes plan then next_book_raw_price plan else best_raw_price bs in
  (pages_after plan = ∅ → handle = 0) ∧
  (pages_after plan ≠ ∅ → ∃ q, best_of side (pages_after plan) q ∧
     handle = root s loc q ∧ raw = joinPrice q (best_after plan q)).

Lemma join_inj q b q' b' : part b → part b' → joinPrice q b = joinPrice q' b' → q = q' ∧ b = b'.
Proof.
  intros Hb Hb'. rewrite !joinPrice_arith by done. unfold part in *.
  change kPricePartCount with 65536 in *. lia.
Qed.

(** The removed level is not the cached best of the book: nothing to change. *)
Lemma bookPlan_keep plan :
  page_plan_ok plan → book_best_changes plan = false →
  best_raw_price bs ≠ joinPrice p i →
  bookPlan s (mkOwner loc p 1) a side plan = Some plan ∧ book_plan_ok plan.
Proof.
  intros Hpl Hbc Hne. destruct plan_best as (q&Hq&Hqh&Hqr). pose proof (proj1 Hq) as Hqin.
  destruct (page_best_in side _ _ _ _ HX plan_levels) as [Hb _].
  assert (q = p → best_level_index ps ≠ i) as Hqp.
  { intros -> E. apply Hne. rewrite Hqr, plan_root. fold ps. by rewrite E. }
  assert (page_becomes_empty plan = true → q ≠ p) as Hqe.
  { intros E Eq. destruct Hpl as [(_&EX&_)|(E'&_)]; [|congruence].
    apply (Hqp Eq). destruct Hb as [Hb _]. set_solver. }
  unfold bookPlan. cbn [ow_stock_locate ow_page_index]. fold h i ps bs.
  rewrite (proj2 (Z.eqb_neq _ _) Hne). split.
  - destruct (page_becomes_empty plan) eqn:E; [|done]. cbn [andb].
    rewrite (proj2 (Z.eqb_neq (active_pages bs) 1)); [done|].
    rewrite plan_pages. intros E1.
    assert (P = {[p]}) as EP by (apply size_one_eq; [apply plan_member|lia]).
    apply (Hqe eq_refl). set_solver.
  - unfold book_plan_ok. rewrite Hbc. split.
    + unfold pages_after. destruct (page_becomes_empty plan); [|set_solver].
      specialize (Hqe eq_refl). set_solver.
    + intros _. exists q. split; [|split; [done|]].
      * unfold pages_after. destruct (page_becomes_empty plan); [|done].
        apply best_of_remove; [done|]. specialize (Hqe eq_refl). done.
      * rewrite Hqr. f_equal. unfold best_after. case_decide as E; [|done]. subst q.
        rewrite plan_root. fold ps. unfold level_best_after.
        destruct Hpl as [(E&_)|(_&_&->&_)]; [by destruct (Hqe E)|].
        by rewrite (proj2 (Z.eqb_neq _ _) (Hqp eq_refl)).
Qed.

Lemma page_handle_found q : q ∈ P → pageHandle s loc q = root s loc q ∧ root s loc q ≠ 0.
Proof.
  intros Hq. destruct (member_page q Hq) as (Ho&_). pose proof Ho as (?&Hg&_).
  unfold pageHandle. rewrite (good_locate_valid loc Hg). cbn [negb].
  fold (root s loc q). unfold rootHandleMatches. rewrite (owned_owner s _ _ _ Ho).
  unfold ownedBy; cbn [ow_committed ow_stock_locate ow_page_index].
  rewrite !Z.eqb_refl. cbn. split; [done|lia].
Qed.

(** The removed level is the cached best of the book. *)
Lemma bookPlan_replace plan :
  page_plan_ok plan → next_book_raw_price plan = 0 → next_book_page_handle plan = 0 →
  best_raw_price bs = joinPrice p i →
  ∃ plan', bookPlan s (mkOwner loc p 1) a side plan = Some plan' ∧ book_plan_ok plan' ∧
    page_becomes_empty plan' = page_becomes_empty plan ∧
    page_best_changes plan' = page_best_changes plan ∧
    next_level_index plan' = next_level_index plan.
Proof.
  intros Hpl Hr0 Hh0 Heq. destruct plan_best as (q&Hq&Hqh&Hqr).
  destruct (member_page q (proj1 Hq)) as (_&_&Hqb&_).
  rewrite Hqr in Heq. apply join_inj in Heq as [-> Ebi]; [|done|apply plan_part].
  rewrite plan_root in Ebi, Hqr, Hqh. fold ps in Ebi, Hqr.
  unfold bookPlan. cbn [ow_stock_locate ow_page_index]. fold h i ps bs.
  rewrite Hqr, Ebi, Hqh, !Z.eqb_refl. cbn [negb orb].
  destruct Hpl as [(Ee&EX&Ebc)|(Ee&Hs&Ebc&Hbo&Hnp)]; rewrite Ee; cbn [negb].
  - pose proof (worseIndex_spec side _ P p (bk_bits _ _ _ _ HP) (member_part p plan_member)) as Hw.
    set (r := worseIndex _ side p) in *. rewrite plan_pages.
    destruct (Z.eqb_spec (Z.of_nat (size P)) 1) as [E1|E1].
    + assert (P = {[p]}) as EP by (apply size_one_eq; [apply plan_member|lia]).
      rewrite (next_worse_last side P p r EP Hw), Z.eqb_refl.
      eexists. split; [done|]. split; [|done].
      unfold book_plan_ok, pages_after; cbn. split; [done|]. set_solver.
    + pose proof (size_nonempty_pos P p plan_member).
      destruct (next_worse_best side P p r Hq Hw member_part ltac:(lia)) as (Hr&Hrp&Hri&Hrb).
      rewrite (proj2 (Z.eqb_neq _ _) Hri), u16_id by done.
      destruct (page_handle_found r Hr) as [-> Hrn].
      destruct (member_page r Hr) as (_&Hra&Hrbp&Hre).
      unfold kInvalidPricePageHandle. rewrite (proj2 (Z.eqb_neq _ 0) Hrn), (proj2 (Z.eqb_neq _ 0) Hra).
      rewrite (proj2 (Z.leb_gt _ _) (proj2 Hrbp)). cbn [orb].
      rewrite u16_id by done. rewrite Hre. eexists. split; [done|]. split; [|done].
      unfold book_plan_ok, pages_after; cbn. split; [destruct Hrb; set_solver|].
      intros _. exists r. split; [done|]. split; [done|]. f_equal. unfold best_after.
      rewrite decide_False; [done|]. intros ->. destruct Hrb as [Hrb _]. set_solver.
  - rewrite Ebi, Z.eqb_refl in Ebc. rewrite Ebc. cbn [negb].
    eexists. split; [done|]. split; [|done].
    unfold book_plan_ok, pages_after; cbn. pose proof plan_member. split; [set_solver|].
    intros _. exists p. rewrite plan_root. split; [done|]. split; [done|].
    unfold best_after. rewrite decide_True by done. unfold level_best_after; cbn.
    by rewrite (u16_id (next_level_index plan) (Hnp Ebc)).
Qed.

(** Deactivation never fails on a well-formed store. *)
Lemma validateDeactivation_spec :
  ∃ plan, validateDeactivation s a side = (Applied, plan) ∧ page_plan_ok plan ∧ book_plan_ok plan.
Proof.
  pose proof plan_owned as Ho. pose proof Ho as (_&Hg&_). unfold validateDeactivation.
  fold h. rewrite (owned_owner s _ _ _ Ho). cbn [ow_committed ow_stock_locate].
  rewrite (good_locate_valid loc Hg), guard_passes. change (1 =? 0) with false. cbn [negb orb].
  destruct pagePlan_spec as (plan&->&Hpl&Hbc&Hr0&Hh0).
  destruct (decide (best_raw_price bs = joinPrice p i)) as [E|E].
  - destruct (bookPlan_replace plan Hpl Hr0 Hh0 E) as (plan'&->&Hb&E1&E2&E3).
    exists plan'. split; [done|]. split; [|done].
    unfold page_plan_ok in *. by rewrite E1, E2, E3.
  - destruct (bookPlan_keep plan Hpl Hbc E) as [-> Hb]. by exists plan.
Qed.

(** ** Executing the plan *)

Context (plan : DeactivationPlan) (Hpage_plan : page_plan_ok plan) (Hbook_plan : book_plan_ok plan).
Context (v : PriceLevelState) (Hv : level_ok v) (Hv0 : order_count v = 0).
Let s1 := deactivateLevel (set_level s a side v) a side plan.
Let ps1 := if page_becomes_empty plan then mkPageSummary 0 0
           else fst (deactivatePage ps (pageOccupancy s h side) i plan).
Let pbm1 := if page_becomes_empty plan then pageOccupancy s h side
            else snd (deactivatePage ps (pageOccupancy s h side) i plan).
Let bs1 := mkBookSummary
  (if book_best_changes plan then next_book_raw_price plan else best_raw_price bs)
  (if book_best_changes plan then next_book_page_handle plan else best_page_handle bs)
  (if page_becomes_empty plan then u32 (active_pages bs - 1) else active_pages bs).
Let bbm1 := if page_becomes_empty plan then PriceBitmap.reset (bookOccupancy s loc side) p
            else bookOccupancy s loc side.

Lemma removed_handle : 0 < h < 2 ^ 32.
Proof. by apply (owned_handle s h loc p Hok plan_owned). Qed.

Lemma removed_shape :
  s1 = (let s0 := set_level s a side v in
        let s2 := if page_becomes_empty plan
                  then set_bookOccupancy (set_pageSummary s0 h side ps1) loc side bbm1
                  else set_pageOccupancy (set_pageSummary s0 h side ps1) h side pbm1 in
        set_bookSummary s2 loc side bs1).
Proof.
  unfold s1, deactivateLevel. cbn [page_owners set_level].
  assert ((page_owners s).[page_handle a] = mkOwner loc p 1) as -> by apply plan_owned.
  cbn [ow_stock_locate ow_page_index]. unfold ps1, pbm1, bs1, bbm1.
  destruct (page_becomes_empty plan), (book_best_changes plan); try done;
    by destruct (deactivatePage _ _ _ _).
Qed.

Lemma removed_layout : same_layout s s1.
Proof. rewrite removed_shape. by destruct (page_becomes_empty plan). Qed.

Lemma removed_summary h' sd' : validSide sd' = true →
  pageSummary s1 h' sd' = if decide (h = h' ∧ side = sd') then ps1 else pageSummary s h' sd'.
Proof.
  intros Hsd'. rewrite removed_shape. destruct (page_becomes_empty plan);
    exact (pageSummary_set (set_level s a side v) h side h' sd' Hsd Hsd' _).
Qed.

Lemma removed_occupancy h' sd' : validSide sd' = true →
  pageOccupancy s1 h' sd' = if decide (h = h' ∧ side = sd') then pbm1 else pageOccupancy s h' sd'.
Proof.
  intros Hsd'. rewrite removed_shape. unfold pbm1. destruct (page_becomes_empty plan).
  - case_decide as E; [|done]. by destruct E as [<- <-].
  - exact (pageOccupancy_set s h side h' sd' Hsd Hsd' _).
Qed.

Lemma removed_book l' sd' : validSide sd' = true →
  bookSummary s1 l' sd' = if decide (loc = l' ∧ side = sd') then bs1 else bookSummary s l' sd'.
Proof.
  intros Hsd'. rewrite removed_shape. destruct (page_becomes_empty plan);
    exact (bookSummary_set s loc side l' sd' Hsd Hsd' _).
Qed.

Lemma removed_bookbits l' sd' : validSide sd' = true →
  bookOccupancy s1 l' sd' = if decide (loc = l' ∧ side = sd') then bbm1 else bookOccupancy s l' sd'.
Proof.
  intros Hsd'. rewrite removed_shape. unfold bbm1. destruct (page_becomes_empty plan).
  - exact (bookOccupancy_set s loc side l' sd' Hsd Hsd' _).
  - case_decide as E; [|done]. by destruct E as [<- <-].
Qed.

Lemma removed_level h' sd' j : 0 < h' < 2 ^ 32 → validSide sd' = true →
  lvl s1 h' sd' j = if decide (h = h' ∧ side = sd' ∧ i = j) then v else lvl s h' sd' j.
Proof.
  intros Hh' Hsd'. rewrite removed_shape. pose proof removed_handle.
  destruct (page_becomes_empty plan); exact (lvl_set_at s a side h' sd' j v Hsd Hsd' removed_handle Hh').
Qed.

Lemma removed_page : page_ok side (lvl s1 h side) ps1 pbm1 (X ∖ {[i]}).
Proof.
  assert (∀ j, part j → lvl s1 h side j = if decide (j = i) then v else lvl s h side j) as HL.
  { intros j _. rewrite removed_level by (done || apply removed_handle).
    repeat case_decide; naive_solver. }
  unfold ps1, pbm1. destruct Hpage_plan as [(E&EX&_)|(E&Hs&_&Hb&_)]; rewrite E.
  - by eapply page_emptied.
  - by eapply page_shrunk.
Qed.

Lemma removed_active q : q ∈ pages_after plan ↔ active_page s1 loc side q.
Proof.
  pose proof plan_member as Hm. unfold active_page. rewrite (same_layout_root s s1) by apply removed_layout.
  rewrite removed_summary by done.
  pose proof removed_page as Hpg. pose proof plan_owned as Ho. pose proof removed_handle.
  destruct (decide (q = p)) as [->|Hqp].
  - rewrite plan_root, decide_True by done. rewrite (pk_count _ _ _ _ _ Hpg). unfold pages_after.
    destruct Hpage_plan as [(E&EX&_)|(E&Hs&_&Hb&_)]; rewrite E.
    + rewrite EX. replace ({[i]} ∖ {[i]} : gset Z) with (∅ : gset Z) by set_solver.
      rewrite size_empty. split; [set_solver|]. by intros (_&_&?).
    + split; [|done]. intros _. split; [by apply member_part|]. split; [lia|].
      pose proof (size_remove X i Hin). lia.
  - transitivity (q ∈ P).
    { unfold pages_after. destruct (page_becomes_empty plan); set_solver. }
    rewrite (bk_mem _ _ _ _ HP). unfold active_page. pose proof Ho as (_&Hg&_).
    assert (part q → ¬ (h = root s loc q ∧ side = side)) as Hq.
    { intros Hqq [Er _]. by destruct (owned_root s h loc p loc q Hok Ho Hg Hqq (eq_sym Er)). }
    split; intros (Hqq&Hr&Hact); (split; [done|split; [done|]]).
    + by rewrite decide_False by (by apply Hq).
    + by rewrite decide_False in Hact by (by apply Hq).
Qed.

Lemma removed_count : active_pages bs1 = Z.of_nat (size (pages_after plan)).
Proof.
  cbn. rewrite plan_pages. unfold pages_after. destruct (page_becomes_empty plan); [|done].
  pose proof (size_remove P p plan_member). pose proof (part_set_size P member_part) as Hs.
  change kPricePartCount with 65536 in Hs. rewrite u32_id; [lia|split; lia].
Qed.

Lemma removed_pages : book_ok s1 loc side (pages_after plan).
Proof.
  destruct Hbook_plan as [He Hb]. split.
  - apply removed_active.
  - rewrite removed_book by done. rewrite decide_True by done. apply removed_count.
  - rewrite removed_bookbits by done. rewrite decide_True by done. unfold bbm1, pages_after.
    pose proof (bk_bits _ _ _ _ HP). destruct (page_becomes_empty plan); [|done].
    apply PriceBitmap.denotes_reset; [done|]. by apply member_part, plan_member.
  - intros E. rewrite removed_book by done. rewrite decide_True by done. by apply He.
  - intros E. rewrite removed_book by done. rewrite decide_True by done.
    destruct (Hb E) as (q&Hq&Hh&Hr). exists q. rewrite (same_layout_root s s1) by apply removed_layout.
    split; [done|]. split; [done|]. cbn [best_raw_price bs1]. rewrite Hr. f_equal.
    rewrite removed_summary by done. unfold best_after. pose proof (proj1 Hq) as Hqin.
    destruct (decide (q = p)) as [->|Hqp].
    + rewrite plan_root, decide_True by done. unfold ps1, level_best_after, pages_after in *.
      destruct (page_becomes_empty plan); [set_solver|done].
    + rewrite decide_False; [done|]. intros [Er _]. apply Hqp.
      apply removed_active in Hqin as (Hqq&_). pose proof plan_owned as Ho.
      destruct (owned_root s h loc p loc q Hok Ho ltac:(apply Ho) Hqq (eq_sym Er)) as [_ ->]. done.
Qed.

(** Deactivating a level and clearing its aggregate. *)
Lemma removed_ok : store_ok s1 ∧ level_update s s1 loc side price v.
Proof.
  pose proof removed_handle. split.
  - eapply (store_local s s1 h loc p side (X ∖ {[i]}) (pages_after plan)); try done.
    + apply plan_owned.
    + apply removed_layout.
    + intros h' sd' Hsd' Hne. rewrite removed_summary, removed_occupancy by done.
      rewrite !decide_False; [done|naive_solver..].
    + intros h' sd' j Hh' Hsd' Hne Hj. rewrite removed_level by done.
      rewrite decide_False; [done|naive_solver].
    + intros l' sd' Hsd' Hne. rewrite removed_book, removed_bookbits by done.
      rewrite !decide_False; [done|naive_solver..].
    + rewrite removed_summary, removed_occupancy by done. rewrite !decide_True by done.
      apply removed_page.
    + apply removed_pages.
  - eapply level_write; try done; [apply removed_layout|]. intros. by apply removed_level.
Qed.

End plan.

(** ** [erase] *)

(** Which removal of [qty] from a level is consistent with its aggregate. *)
Definition erasable (l : PriceLevelState) (qty : Z) : MutationResult :=
  if qty =? 0 then InvalidQuantity else
  if emptyLevel l then MissingPriceLevel else
  if total_qty l <? qty then QuantityUnderflow else
  if (order_count l =? 1) && negb (total_qty l =? qty) then InvariantViolation else
  if (1 <? order_count l) && (total_qty l =? qty) then InvariantViolation else Applied.

Lemma erasable_applied l qty :
  erasable l qty = Applied →
  qty ≠ 0 ∧ order_count l ≠ 0 ∧ total_qty l ≠ 0 ∧ qty <= total_qty l ∧
  (order_count l = 1 → total_qty l = qty) ∧ (1 < order_count l → total_qty l ≠ qty).
Proof.
  unfold erasable, emptyLevel. repeat (case_if; [done|]). intros _.
  repeat match goal with H : _ && _ = false |- _ => apply andb_false_iff in H end.
  zbool. split_and!; try done; intros Hc.
  - match goal with H : (_ =? 1) = false ∨ _ |- _ => destruct H; zbool; [lia|done] end.
  - match goal with H : (1 <? _) = false ∨ _ |- _ => destruct H; zbool; [lia|done] end.
Qed.

Lemma validateErase_split s a loc price side qty :
  store_ok s → resolves s a loc price → validSide side = true →
  let l := level_at s loc side price in
  validateErase s a side qty =
    if bool_decide (erasable l qty = Applied)
    then if order_count l =? 1 then validateDeactivation s a side else (Applied, emptyPlan)
    else (erasable l qty, emptyPlan).
Proof.
  intros Hok Ha Hsd l. unfold validateErase, erasable, l.
  rewrite (resolves_valid_address s a loc price) by done. enum.
  rewrite (resolves_level s a loc side price Ha). repeat (case_if; [by enum|]). by enum.
Qed.

Lemma validateErase_spec s a loc price side qty :
  store_ok s → resolves s a loc price → validSide side = true →
  fst (validateErase s a side qty) = erasable (level_at s loc side price) qty.
Proof.
  intros Hok Ha Hsd. rewrite (validateErase_split s a loc price) by done. cbn zeta.
  case_bool_decide as E; [|done]. rewrite E. case_if; [|done].
  destruct (resolves_page s a loc price side Hok Ha Hsd) as (X&HX&Hm&_).
  pose proof Ha as (Hg&_). destruct (so_book s Hok loc side Hg Hsd) as [P HP].
  destruct (validateDeactivation_spec s a loc price side X P) as (plan&->&_); try done.
  apply Hm. rewrite <- (resolves_level s a loc side price Ha). lia.
Qed.

Lemma erase_validated_spec s a loc price side qty :
  store_ok s → resolves s a loc price → validSide side = true → 0 <= qty →
  let l := level_at s loc side price in
  erasable l qty = Applied →
  let s' := eraseValidated s a side qty (snd (validateErase s a side qty)) in
  store_ok s' ∧ same_layout s s' ∧
  level_update s s' loc side price (mkLevel (total_qty l - qty) (order_count l - 1)).
Proof.
  intros Hok Ha Hsd Hq l He. rewrite (validateErase_split s a loc price side qty) by done. fold l.
  cbn zeta. rewrite He. enum. unfold eraseValidated.
  assert (levelUnchecked s a side = l) as El by (unfold l; by rewrite (resolves_level s a loc)).
  rewrite El. destruct (resolves_page s a loc price side Hok Ha Hsd) as (X&HX&Hm&Hlv).
  rewrite El in Hm, Hlv. destruct Hlv as (Hf1&Hf2&Hz). unfold fits in Hf1, Hf2.
  apply erasable_applied in He as (Hq0&Hc0&Ht0&Hle&H1&H2).
  rewrite u64_id, u32_id by (unfold fits; lia).
  set (v := mkLevel (total_qty l - qty) (order_count l - 1)).
  assert (level_ok v) as Hv.
  { unfold level_ok, fits, v; cbn. lia. }
  destruct (Z.eqb_spec (order_count l) 1) as [E|E].
  - pose proof Ha as (Hg&_). destruct (so_book s Hok loc side Hg Hsd) as [P HP].
    destruct (validateDeactivation_spec s a loc price side X P) as (plan&->&Hp&Hb);
      try done; [by apply Hm|].
    destruct (removed_ok s a loc price side X P) with (plan := plan) (v := v) as [? ?];
      try done; [by apply Hm|cbn; lia|].
    split; [done|]. split; [|done]. by apply (removed_layout s a loc price side).
  - destruct (rewritten_ok s a loc price side v) as [? ?]; try done; [by rewrite El|cbn; lia].
Qed.

(** Outcome of [erase]: a rejection leaves the store unchanged. *)
Definition erase_outcome (s : t) (loc : Z) (side : OrderSide) (price qty : Z)
    (r : MutationResult * t) : Prop :=
  let l := level_at s loc side price in
  fst r = erasable l qty ∧
  (if bool_decide (erasable l qty = Applied)
   then store_ok (snd r) ∧ same_layout s (snd r) ∧
        level_update s (snd r) loc side price (mkLevel (total_qty l - qty) (order_count l - 1))
   else snd r = s).

Lemma erase_spec s a loc price side qty :
  store_ok s → resolves s a loc price → validSide side = true → 0 <= qty →
  erase_outcome s loc side price qty (erase s a side qty).
Proof.
  intros Hok Ha Hsd Hq. unfold erase_outcome, erase.
  pose proof (validateErase_spec s a loc price side qty Hok Ha Hsd) as Hv.
  pose proof (erase_validated_spec s a loc price side qty Hok Ha Hsd Hq) as Hs. cbn zeta in Hs.
  destruct (validateErase s a side qty) as [r plan]; cbn [fst snd] in *. subst r.
  case_bool_decide as E.
  - cbn [negb fst snd]. split; [done|]. by apply Hs.
  - done.
Qed.

(** ** [reduce] and [reduceChecked] *)

Definition reducible (l : PriceLevelState) (current reduction : Z) : MutationResult :=
  if (current =? 0) || (reduction =? 0) then InvalidQuantity else
  if current <=? reduction then QuantityUnderflow else
  if emptyLevel l then MissingPriceLevel else
  if total_qty l <? current then QuantityUnderflow else
  if (order_count l =? 1) && negb (total_qty l =? current) then InvariantViolation else
  if (1 <? order_count l) && (total_qty l =? current) then InvariantViolation else Applied.

Lemma reducible_applied l current reduction :
  reducible l current reduction = Applied →
  current ≠ 0 ∧ reduction ≠ 0 ∧ reduction < current <= total_qty l ∧
  order_count l ≠ 0 ∧ total_qty l ≠ 0.
Proof. unfold reducible, emptyLevel. repeat (case_if; [done|]). intros _. done. Qed.

Definition reduce_outcome (s : t) (loc : Z) (side : OrderSide) (price current reduction : Z)
    (r : MutationResult * t) : Prop :=
  let l := level_at s loc side price in
  fst r = reducible l current reduction ∧
  (if bool_decide (reducible l current reduction = Applied)
   then store_ok (snd r) ∧ same_layout s (snd r) ∧
        level_update s (snd r) loc side price (mkLevel (total_qty l - reduction) (order_count l))
   else snd r = s).

Lemma reduceLevel_spec s a loc price side current reduction :
  store_ok s → resolves s a loc price → validSide side = true → 0 <= reduction →
  reduce_outcome s loc side price current reduction (reduceLevel s a side current reduction).
Proof.
  intros Hok Ha Hsd Hr. unfold reduce_outcome. rewrite (resolves_level s a loc side price Ha).
  destruct (resolves_page s a loc price side Hok Ha Hsd) as (X&HX&Hm&(Hf1&Hf2&Hz)).
  set (l := levelUnchecked s a side) in *.
  destruct (decide (reducible l current reduction = Applied)) as [E|E].
  - rewrite bool_decide_eq_true_2 by done. pose proof (reducible_applied _ _ _ E) as (?&?&?&?&?).
    unfold fits in *.
    assert (reduceLevel s a side current reduction =
      (Applied, set_level s a side (mkLevel (total_qty l - reduction) (order_count l)))) as ->.
    { revert E. unfold reducible, reduceLevel. fold l. repeat (case_if; [done|]). intros _.
      rewrite (proj2 (Z.leb_gt _ _)) by lia. by rewrite u64_id by (split; lia). }
    cbn [fst snd]. split; [done|].
    destruct (rewritten_ok s a loc price side (mkLevel (total_qty l - reduction) (order_count l)))
      as [? ?]; try done.
    unfold level_ok, fits; cbn. lia.
  - rewrite bool_decide_eq_false_2 by done.
    assert (reduceLevel s a side current reduction = (reducible l current reduction, s)) as ->;
      [|done].
    revert E. unfold reducible, reduceLevel. fold l. by repeat (case_if; [done|]).
Qed.

Lemma reduce_spec s a loc price side current reduction :
  store_ok s → resolves s a loc price → validSide side = true → 0 <= reduction →
  reduce_outcome s loc side price current reduction (reduce s a side current reduction).
Proof.
  intros. unfold reduce. rewrite (resolves_valid_address s a loc price) by done. enum.
  by apply reduceLevel_spec.
Qed.

Lemma reduceChecked_reduce s a loc price side current reduction :
  store_ok s → resolves s a loc price →
  reduceChecked s loc (page_index (splitPrice price)) a side current reduction =
  reduce s a side current reduction.
Proof.
  intros Hok Ha. unfold reduceChecked, reduce. pose proof Ha as (Hg&_).
  rewrite (good_locate_valid loc Hg). cbn [negb].
  destruct (validateAddress s a side) eqn:E; enum; try done.
  destruct (resolves_owned s a loc price Hok Ha) as [(_&_&_&->&_) _].
  unfold ownedBy; cbn [ow_committed ow_stock_locate ow_page_index]. rewrite !Z.eqb_refl.
  change (1 =? 0) with false. by cbn [negb andb].
Qed.

Lemma reduceChecked_spec s a loc price side current reduction :
  store_ok s → resolves s a loc price → validSide side = true → 0 <= reduction →
  reduce_outcome s loc side price current reduction
    (reduceChecked s loc (page_index (splitPrice price)) a side current reduction).
Proof. intros. rewrite reduceChecked_reduce by done. by apply reduce_spec. Qed.

(** ** [move] *)

Definition addable (l : PriceLevelState) (qty : Z) : MutationResult :=
  if qty =? 0 then InvalidQuantity else
  if order_count l =? max_u32 then OrderCountOverflow else
  if max_u64 - qty <? total_qty l then QuantityOverflow else Applied.

(** Whether an order can leave [old] and join [new] of the same book and side. *)
Definition movable (s : t) (loc : Z) (side : OrderSide) (old new old_qty new_qty : Z)
  : MutationResult :=
  let l := level_at s loc side old in
  if new_qty =? 0 then InvalidQuantity else
  if negb (bool_decide (erasable l old_qty = Applied)) then erasable l old_qty else
  if old =? new then
    (if max_u64 - new_qty <? total_qty l - old_qty then QuantityOverflow else Applied)
  else addable (level_at s loc side new) new_qty.

(** The aggregates after the move. *)
Definition moved_levels (s s' : t) (loc : Z) (side : OrderSide) (old new old_qty new_qty : Z) : Prop :=
  ∀ loc' side' price, good_locate loc' → validSide side' = true → fits 32 price →
    let l := level_at s loc' side' price in
    level_at s' loc' side' price =
    if decide (loc' = loc ∧ side' = side) then
      mkLevel (total_qty l - (if decide (price = old) then old_qty else 0)
                           + (if decide (price = new) then new_qty else 0))
              (order_count l - (if decide (price = old) then 1 else 0)
                             + (if decide (price = new) then 1 else 0))
    else l.

Definition move_outcome (s : t) (loc : Z) (side : OrderSide) (old new old_qty new_qty : Z)
    (r : MutationResult * t) : Prop :=
  fst r = movable s loc side old new old_qty new_qty ∧
  (if bool_decide (movable s loc side old new old_qty new_qty = Applied)
   then store_ok (snd r) ∧ same_layout s (snd r) ∧
        moved_levels s (snd r) loc side old new old_qty new_qty
   else snd r = s).

Lemma resolves_same s a a' loc price price' :
  resolves s a loc price → resolves s a' loc price' → store_ok s →
  (page_handle a =? page_handle a') && (addr_level a =? addr_level a') = (price =? price').
Proof.
  intros Ha Ha' Hok. destruct (Z.eqb_spec price price') as [<-|Hne].
  - destruct Ha as (_&_&->&_&->), Ha' as (_&_&->&_&->). by rewrite !Z.eqb_refl.
  - apply andb_false_iff. destruct (Z.eqb_spec (page_handle a) (page_handle a')) as [Eh|]; [|by left].
    right. apply Z.eqb_neq. intros Ei. apply Hne.
    destruct (resolves_owned s a loc price Hok Ha) as [(_&_&_&Ho&_) _].
    destruct (resolves_owned s a' loc price' Hok Ha') as [(_&_&_&Ho'&_) _].
    assert (page_index (splitPrice price) = page_index (splitPrice price')) as Ep.
    { rewrite Eh, Ho' in Ho. exact (f_equal ow_page_index (eq_sym Ho)). }
    destruct Ha as (_&Hp&_&_&Hi), Ha' as (_&Hp'&_&_&Hi').
    rewrite <- (join_split price) by done. rewrite <- (join_split price') by done.
    f_equal; [done|]. by rewrite <- Hi, <- Hi'.
Qed.

Lemma level_eta l : mkLevel (total_qty l - 0 + 0) (order_count l - 0 + 0) = l.
Proof. destruct l as [tq oc]; cbn. f_equal; lia. Qed.

Lemma move_same s a loc side price old_qty new_qty :
  store_ok s → resolves s a loc price → validSide side = true → 0 <= old_qty → 0 < new_qty →
  let l := level_at s loc side price in
  erasable l old_qty = Applied → total_qty l - old_qty <= max_u64 - new_qty →
  let s' := set_level s a side (mkLevel (total_qty l - old_qty + new_qty) (order_count l)) in
  store_ok s' ∧ same_layout s s' ∧ moved_levels s s' loc side price price old_qty new_qty.
Proof.
  intros Hok Ha Hsd Ho Hn l He Hov. apply erasable_applied in He as (?&?&?&?&_).
  destruct (resolves_page s a loc price side Hok Ha Hsd) as (X&HX&Hm&(Hf1&Hf2&Hz)).
  rewrite <- (resolves_level s a loc side price Ha) in *. fold l in Hf1, Hf2, Hz, Hm.
  unfold max_u64 in *. unfold fits in *.
  destruct (rewritten_ok s a loc price side (mkLevel (total_qty l - old_qty + new_qty) (order_count l)))
    as [Hok' Hup]; try done.
  { by rewrite <- (resolves_level s a loc side price Ha). }
  { unfold level_ok, fits; cbn. lia. }
  split; [done|]. split; [done|]. intros loc' side' price' Hl' Hs' Hp'. cbn zeta.
  rewrite (Hup loc' side' price') by done.
  destruct (decide (loc' = loc ∧ side' = side ∧ price' = price)) as [E|E].
  - destruct E as (->&->&->). fold l. rewrite !decide_True by done. f_equal. lia.
  - case_decide as E'; [|done]. destruct E' as [-> ->].
    rewrite !decide_False by naive_solver. by rewrite level_eta.
Qed.

Lemma move_apart s s1 s2 loc side old new old_qty new_qty :
  old ≠ new → fits 32 new →
  good_locate loc → validSide side = true →
  level_update s s1 loc side old
    (mkLevel (total_qty (level_at s loc side old) - old_qty)
             (order_count (level_at s loc side old) - 1)) →
  level_update s1 s2 loc side new
    (mkLevel (total_qty (level_at s1 loc side new) + new_qty)
             (order_count (level_at s1 loc side new) + 1)) →
  moved_levels s s2 loc side old new old_qty new_qty.
Proof.
  intros Hne Hfn Hg Hsd H1 H2 loc' side' price Hl' Hs' Hp'. cbn zeta.
  rewrite (H2 loc' side' price), (H1 loc side new) by done.
  rewrite (decide_False (P := loc = loc ∧ side = side ∧ new = old)) by naive_solver.
  destruct (decide (loc' = loc ∧ side' = side ∧ price = new)) as [E|E].
  - destruct E as (->&->&->). rewrite (decide_True (P := loc = loc ∧ side = side)) by done.
    rewrite !(decide_False (P := new = old)) by naive_solver.
    rewrite !(decide_True (P := new = new)) by done. f_equal; lia.
  - rewrite (H1 loc' side' price) by done.
    destruct (decide (loc' = loc ∧ side' = side ∧ price = old)) as [E'|E'].
    + destruct E' as (->&->&->). rewrite (decide_True (P := loc = loc ∧ side = side)) by done.
      rewrite !(decide_False (P := old = new)) by done.
      rewrite !(decide_True (P := old = old)) by done. f_equal; lia.
    + case_decide as E2; [|done]. destruct E2 as [-> ->].
      rewrite !decide_False by naive_solver. by rewrite level_eta.
Qed.

Lemma move_spec s a a' loc side old new old_qty new_qty :
  store_ok s → resolves s a loc old → resolves s a' loc new → validSide side = true →
  fits 32 old_qty → fits 32 new_qty →
  move_outcome s loc side old new old_qty new_qty (move s a old_qty a' new_qty side).
Proof.
  intros Hok Ha Ha' Hsd [Ho0 _] [Hn0 _]. unfold move_outcome, move, movable.
  destruct (Z.eqb_spec new_qty 0) as [->|Hnq]; [by enum|].
  destruct (resolves_owned s a loc old Hok Ha) as [Ho _].
  destruct (resolves_owned s a' loc new Hok Ha') as [Ho' _].
  rewrite (owned_owner s _ _ _ Ho), (owned_owner s _ _ _ Ho').
  cbn [ow_committed ow_stock_locate]. rewrite Z.eqb_refl. change (1 =? 0) with false. cbn [orb negb].
  pose proof (validateErase_spec s a loc old side old_qty Hok Ha Hsd) as Hv.
  pose proof (erase_validated_spec s a loc old side old_qty Hok Ha Hsd Ho0) as Hs. cbn zeta in Hs.
  destruct (validateErase s a side old_qty) as [r plan]; cbn [fst snd] in *. subst r.
  set (l := level_at s loc side old) in *.
  destruct (decide (erasable l old_qty = Applied)) as [He|He].
  2: { rewrite (bool_decide_eq_false_2 _ He). cbn [negb]. by rewrite (bool_decide_eq_false_2 _ He). }
  rewrite (bool_decide_eq_true_2 _ He). cbn [negb]. specialize (Hs He).
  rewrite (resolves_same s a a' loc old new Ha Ha' Hok).
  destruct (Z.eqb_spec old new) as [<-|Hne].
  - assert (levelUnchecked s a side = l) as -> by (unfold l; by rewrite (resolves_level s a loc)).
    destruct (resolves_page s a loc old side Hok Ha Hsd) as (_&_&_&(Hf1&_)).
    rewrite <- (resolves_level s a loc side old Ha) in Hf1. fold l in Hf1. unfold fits in Hf1.
    pose proof (erasable_applied _ _ He) as (_&_&_&Hle&_).
    rewrite (u64_id (total_qty l - old_qty)) by (split; lia).
    destruct (Z.ltb_spec (max_u64 - new_qty) (total_qty l - old_qty)) as [|Hov]; [by enum|].
    enum. cbn [fst snd]. split; [done|]. unfold max_u64 in Hov.
    rewrite (u64_id (total_qty l - old_qty + new_qty)) by (split; lia).
    apply (move_same s a loc side old); try done. lia.
  - rewrite (validateAdd_spec s a' loc new side new_qty Hok Ha' Hsd). cbn zeta.
    fold (addable (level_at s loc side new) new_qty).
    destruct (decide (addable (level_at s loc side new) new_qty = Applied)) as [Hav|Hav].
    2: { rewrite (bool_decide_eq_false_2 _ Hav). cbn [negb fst snd]. done. }
    rewrite (bool_decide_eq_true_2 _ Hav). cbn [negb fst snd]. split; [done|].
    destruct Hs as (Hok1&Hl1&Hu1). set (s1 := eraseValidated s a side old_qty plan) in *.
    pose proof (same_layout_resolves s s1 a' loc new Hl1 Ha') as Ha1.
    assert (level_at s1 loc side new = level_at s loc side new) as Hsame.
    { pose proof Ha' as (Hg&Hp&_). rewrite (Hu1 loc side new) by done.
      rewrite decide_False; [done|naive_solver]. }
    revert Hav. unfold addable. repeat (case_if; [done|]). intros _.
    destruct (resolves_page s a' loc new side Hok Ha' Hsd) as (_&_&_&(_&[_ Hf]&_)).
    rewrite <- (resolves_level s a' loc side new Ha') in Hf. unfold max_u32 in *.
    destruct (add_validated_spec s1 a' loc new side new_qty) as (Hok2&Hl2&Hu2); try done;
      rewrite ?Hsame; unfold max_u32; try lia.
    split; [done|]. split; [by eapply same_layout_trans|].
    pose proof Ha' as (Hg&Hp&_). by eapply move_apart.
Qed.

End PriceStoreErase.
