(* ===== verification/PricesRead.v ===== *)
(** Pages, books and reads of the price-level store: publishing a page keeps
    the invariant and every aggregate; the cached best is the best active
    price; the cursor walk visits the active prices from best to worst, so
    [topTen] returns exactly the best levels, in order. *)
From stdpp Require Import base list gmap.
From Stdlib Require Import ZArith Lia Sorted.
From S2P Require Import Prelude Bits Bitmap BookTypes Orders Prices PricesInv PricesAdd PricesErase.
#[local] Open Scope Z_scope.
#[local] Open Scope astra_scope.

Module PriceStoreRead.
Import PriceLevelStore PriceStoreInv PriceStoreAdd PriceStoreErase.

(** ** Active prices *)

Definition active_price (s : t) (loc : Z) (side : OrderSide) (x : Z) : Prop :=
  fits 32 x ∧ order_count (level_at s loc side x) ≠ 0.

(** [x] is the best active price of the book side. *)
Definition best_price (s : t) (loc : Z) (side : OrderSide) (x : Z) : Prop :=
  active_price s loc side x ∧
  ∀ y, active_price s loc side y → y ≠ x → better side x y = true.

Section book_side.
Context (s : t) (loc : Z) (side : OrderSide) (P : gset Z).
Context (Hok : store_ok s) (Hg : good_locate loc) (Hsd : validSide side = true).
Context (HP : book_ok s loc side P).

(** The page of an active page index, with its set of active levels. *)
Lemma page_of q :
  part q → root s loc q ≠ 0 →
  ∃ X, page_ok side (lvl s (root s loc q) side) (pageSummary s (root s loc q) side)
         (pageOccupancy s (root s loc q) side) X.
Proof.
  intros Hq Hr. pose proof (so_root s Hok loc q Hg Hq Hr) as Ho.
  destruct (owned_handle s _ _ _ Hok Ho) as [Hh _].
  destruct (so_page s Hok _ side Hh Hsd) as (X&HX&_). by exists X.
Qed.

Lemma active_price_iff q j :
  part q → part j →
  active_price s loc side (joinPrice q j) ↔
  q ∈ P ∧ root s loc q ≠ 0 ∧ order_count (lvl s (root s loc q) side j) ≠ 0.
Proof.
  intros Hq Hj. unfold active_price, level_at. rewrite split_join_price by done.
  cbn [page_index level_index]. rewrite (bk_mem _ _ _ _ HP). unfold active_page.
  pose proof (join_fits q j Hq Hj) as Hf. split.
  - intros [_ Hc]. destruct (Z.eqb_spec (root s loc q) 0) as [E|E]; [by cbn in Hc|].
    destruct (page_of q Hq E) as (X&HX).
    assert (j ∈ X) as Hjx by (by apply (pk_mem _ _ _ _ _ HX)).
    split; [|done]. split; [done|]. split; [done|]. rewrite (pk_count _ _ _ _ _ HX).
    pose proof (size_nonempty_pos X j Hjx). lia.
  - intros (_&Hr&Hc). split; [done|]. by rewrite (proj2 (Z.eqb_neq _ 0) Hr).
Qed.

Lemma active_price_parts x :
  active_price s loc side x →
  ∃ q j, x = joinPrice q j ∧ part q ∧ part j ∧ q ∈ P ∧ root s loc q ≠ 0 ∧
         order_count (lvl s (root s loc q) side j) ≠ 0.
Proof.
  intros Hx. pose proof Hx as [Hf _]. destruct (split_parts x Hf) as [Hq Hj].
  exists (page_index (splitPrice x)), (level_index (splitPrice x)).
  rewrite join_split by done. split; [done|]. split; [done|]. split; [done|].
  apply active_price_iff; [done|done|]. by rewrite join_split.
Qed.

(** The best level of an active page. *)
Lemma page_best_price q :
  q ∈ P → let b := best_level_index (pageSummary s (root s loc q) side) in
  part q ∧ part b ∧ root s loc q ≠ 0 ∧ active_price s loc side (joinPrice q b) ∧
  ∀ j, part j → order_count (lvl s (root s loc q) side j) ≠ 0 → j ≠ b → better side b j = true.
Proof.
  intros Hq b. pose proof Hq as Hq'. apply (bk_mem _ _ _ _ HP) in Hq' as (Hqp&Hqn&Hqa).
  destruct (page_of q Hqp Hqn) as (X&HX).
  destruct (page_best_in side _ _ _ _ HX Hqa) as [[Hb Hbest] Hbp].
  split; [done|]. split; [done|]. split; [done|]. split.
  - apply active_price_iff; [done|done|]. split; [done|]. split; [done|].
    by apply (pk_mem _ _ _ _ _ HX) in Hb as [_ ?].
  - intros j Hj Hc Hne. apply Hbest; [|done]. by apply (pk_mem _ _ _ _ _ HX).
Qed.

Lemma best_page_best_price q :
  best_of side P q →
  best_price s loc side (joinPrice q (best_level_index (pageSummary s (root s loc q) side))).
Proof.
  intros [Hq Hbest]. destruct (page_best_price q Hq) as (Hqp&Hbp&Hqn&Hact&Hlev). split; [done|].
  intros y Hy Hne. apply active_price_parts in Hy as (q'&j&->&Hq'&Hj&Hin&_&Hc).
  apply better_join; [done|done|]. destruct (decide (q' = q)) as [->|Hqq].
  - right. split; [done|]. apply Hlev; [done|done|]. intros ->. done.
  - left. by apply Hbest.
Qed.

End book_side.

Lemma level_at_ok s loc side price :
  store_ok s → good_locate loc → validSide side = true → fits 32 price →
  level_ok (level_at s loc side price).
Proof.
  intros Hok Hg Hsd Hf. destruct (split_parts price Hf) as [Hp Hi]. unfold level_at.
  destruct (Z.eqb_spec (root s loc (page_index (splitPrice price))) 0) as [E|E]; [done|].
  destruct (page_of s loc side Hok Hg Hsd _ Hp E) as (X&HX).
  by apply (pk_level _ _ _ _ _ HX).
Qed.

(** ** [best] *)

Definition no_active (s : t) (loc : Z) (side : OrderSide) : Prop :=
  ∀ x, ¬ active_price s loc side x.

(** A cursor that stands on an active price of the book side. *)
Definition cursor_ok (s : t) (loc : Z) (side : OrderSide) (c : PriceLevelCursor) : Prop :=
  cu_valid c = true ∧ cu_stock_locate c = loc ∧
  active_price s loc side (cu_raw_price c) ∧
  cu_page_handle c = root s loc (page_index (splitPrice (cu_raw_price c))).

Lemma prepared_book s loc :
  good_locate loc → (prepared_books s).[loc] ≠ 0 → isBookPrepared s loc = true.
Proof.
  intros Hg Hp. unfold isBookPrepared. rewrite (good_locate_valid loc Hg).
  by rewrite (proj2 (Z.eqb_neq _ 0) Hp).
Qed.

Lemma best_spec s loc side :
  store_ok s → good_locate loc → validSide side = true → (prepared_books s).[loc] ≠ 0 →
  (best s loc side = noCursor ∧ no_active s loc side) ∨
  (cursor_ok s loc side (best s loc side) ∧
   best_price s loc side (cu_raw_price (best s loc side))).
Proof.
  intros Hok Hg Hsd Hp. destruct (so_book s Hok loc side Hg Hsd) as [P HP]. unfold best.
  rewrite (prepared_book s loc Hg Hp), Hsd. cbn [negb orb].
  destruct (decide (P = ∅)) as [->|HPn].
  - left. rewrite (bk_count _ _ _ _ HP), size_empty. split; [done|].
    intros x Hx. apply (active_price_parts s loc side ∅) in Hx as (?&?&_&_&_&?&_); done.
  - right. destruct (bk_best _ _ _ _ HP HPn) as (q&Hq&Hqh&Hqr).
    destruct (page_best_price s loc side P Hok Hg Hsd HP q (proj1 Hq)) as (Hqp&Hbp&Hqn&Hact&_).
    rewrite (proj2 (Z.eqb_neq (active_pages _) 0)).
    2: { rewrite (bk_count _ _ _ _ HP). intros E. apply HPn, size_zero_empty. lia. }
    unfold kInvalidPricePageHandle. rewrite Hqh, (proj2 (Z.eqb_neq _ 0) Hqn). cbn [orb].
    rewrite Hqr. split.
    + split; [done|]. split; [done|]. split; [done|]. cbn [cu_raw_price cu_page_handle].
      by rewrite split_join_price.
    + cbn [cu_raw_price]. by apply (best_page_best_price s loc side P).
Qed.

(** ** [nextWorse] *)

(** [y] is the best active price strictly worse than [x]. *)
Definition next_price (s : t) (loc : Z) (side : OrderSide) (x y : Z) : Prop :=
  active_price s loc side y ∧ better side x y = true ∧
  ∀ z, active_price s loc side z → better side x z = true → z ≠ y → better side y z = true.

Definition worst_price (s : t) (loc : Z) (side : OrderSide) (x : Z) : Prop :=
  ∀ z, active_price s loc side z → better side x z = false.

Definition next_outcome (s : t) (loc : Z) (side : OrderSide) (x : Z) (c : PriceLevelCursor) : Prop :=
  (c = noCursor ∧ worst_price s loc side x) ∨
  (cursor_ok s loc side c ∧ next_price s loc side x (cu_raw_price c)).

Section walk.
Context (s : t) (loc : Z) (side : OrderSide) (P : gset Z).
Context (Hok : store_ok s) (Hg : good_locate loc) (Hsd : validSide side = true).
Context (HP : book_ok s loc side P).

(** Nothing worse than [i] is left in page [p]: the answer is the best level of
    the next worse page. *)
Lemma nextWorsePage_spec p i :
  p ∈ P → part i →
  (∀ j, part j → order_count (lvl s (root s loc p) side j) ≠ 0 → better side i j = false) →
  next_outcome s loc side (joinPrice p i) (nextWorsePage s loc side p).
Proof.
  intros Hp Hi Hlast. assert (∀ q, q ∈ P → part q) as HPp.
  { intros q Hq. by apply (bk_mem _ _ _ _ HP) in Hq as (?&_). }
  assert (∀ z, active_price s loc side z → better side (joinPrice p i) z = true →
    ∃ q j, z = joinPrice q j ∧ q ∈ P ∧ part j ∧ better side p q = true ∧
           order_count (lvl s (root s loc q) side j) ≠ 0) as Hworse.
  { intros z Hz Hbz. apply (active_price_parts s loc side P) in Hz as (q&j&->&Hq&Hj&Hin&Hn&Hc); try done.
    exists q, j. split_and!; try done; try apply Hj. apply better_join in Hbz as [?|[<- Hb]]; [done| |done|done].
    by rewrite (Hlast j Hj Hc) in Hb. }
  unfold nextWorsePage.
  pose proof (worseIndex_spec side _ P p (bk_bits _ _ _ _ HP) (HPp p Hp)) as Hw.
  set (r := worseIndex _ side p) in *.
  destruct Hw as [[-> Hn]|(Hr&Hpr&Hmin)].
  - rewrite Z.eqb_refl. left. split; [done|]. intros z Hz. apply not_true_iff_false. intros Hb.
    destruct (Hworse z Hz Hb) as (q&j&_&Hq&_&Hbq&_). by rewrite Hn in Hbq.
  - rewrite (proj2 (Z.eqb_neq r PriceBitmap.kInvalid))
      by (intros E; apply kInvalid_not_part; rewrite <- E; by apply HPp).
    rewrite u16_id by (by apply HPp).
    destruct (page_best_price s loc side P Hok Hg Hsd HP r Hr) as (Hrp&Hbp&Hrn&Hact&Hlev).
    assert (pageHandle s loc r = root s loc r) as ->.
    { pose proof (so_root s Hok loc r Hg Hrp Hrn) as Ho.
      unfold pageHandle. rewrite (good_locate_valid loc Hg). cbn [negb]. fold (root s loc r).
      unfold rootHandleMatches. rewrite (owned_owner s _ _ _ Ho).
      unfold ownedBy; cbn [ow_committed ow_stock_locate ow_page_index]. by rewrite !Z.eqb_refl. }
    unfold kInvalidPricePageHandle. rewrite (proj2 (Z.eqb_neq _ 0) Hrn).
    pose proof Hr as Hr'. apply (bk_mem _ _ _ _ HP) in Hr' as (_&_&Hra).
    rewrite (proj2 (Z.eqb_neq _ 0) Hra), (proj2 (Z.leb_gt _ _) (proj2 Hbp)). cbn [orb].
    rewrite u16_id by done. right. split.
    + split; [done|]. split; [done|]. split; [done|]. cbn [cu_raw_price cu_page_handle].
      by rewrite split_join_price.
    + cbn [cu_raw_price]. split; [done|]. split; [apply better_join; [done|done|by left]|].
      intros z Hz Hbz Hne. destruct (Hworse z Hz Hbz) as (q&j&->&Hq&Hj&Hbq&Hc).
      apply better_join; [done|done|]. destruct (decide (q = r)) as [->|Hqr].
      * right. split; [done|]. apply Hlev; [done|done|]. intros ->. done.
      * left. by apply Hmin.
Qed.

End walk.

Lemma nextWorse_spec s loc side c :
  store_ok s → validSide side = true → cursor_ok s loc side c → good_locate loc →
  (prepared_books s).[loc] ≠ 0 →
  next_outcome s loc side (cu_raw_price c) (nextWorse s loc side c).
Proof.
  intros Hok Hsd (Hv&Hloc&Hact&Hh) Hg Hprep.
  destruct (so_book s Hok loc side Hg Hsd) as [P HP].
  pose proof Hact as Hact'.
  apply (active_price_parts s loc side P) in Hact' as (p&i&Ex&Hp&Hi&Hin&Hn&Hc); try done.
  unfold nextWorse. rewrite Hv, Hloc, Z.eqb_refl, (prepared_book s loc Hg Hprep), Hsd.
  cbn [negb orb]. rewrite Hh, Ex, split_join_price by done. cbn [page_index level_index].
  pose proof (so_root s Hok loc p Hg Hp Hn) as Ho. rewrite (owned_owner s _ _ _ Ho).
  unfold ownedBy; cbn [ow_committed ow_stock_locate ow_page_index]. rewrite !Z.eqb_refl.
  change (1 =? 0) with false. cbn [negb andb].
  destruct (page_of s loc side Hok Hg Hsd p Hp Hn) as (X&HX).
  set (h := root s loc p) in *. set (ps := pageSummary s h side) in *.
  assert (i ∈ X) as HiX by (by apply (pk_mem _ _ _ _ _ HX)).
  pose proof (pk_count _ _ _ _ _ HX) as Hcnt.
  assert (∀ r, next_worse side X i r → (r = PriceBitmap.kInvalid ∧
      next_outcome s loc side (joinPrice p i) (nextWorsePage s loc side p)) ∨
      (part r ∧ r ≠ PriceBitmap.kInvalid ∧
       next_outcome s loc side (joinPrice p i) (mkCursor h (joinPrice p r) loc true))) as Hcases.
  { intros r [[-> Hnone]|(Hr&Hir&Hmin)].
    - left. split; [done|]. apply (nextWorsePage_spec s loc side P); try done.
      intros j Hj Hcj. apply Hnone. by apply (pk_mem _ _ _ _ _ HX).
    - right. apply (pk_mem _ _ _ _ _ HX) in Hr as [Hrp Hrc]. split; [done|]. split.
      { intros ->. by apply kInvalid_not_part. }
      right. assert (active_price s loc side (joinPrice p r)) as Hactr.
      { apply (active_price_iff s loc side P); done. }
      split; [split; [done|split; [done|split; [done|]]]|].
      { cbn [cu_raw_price cu_page_handle]. by rewrite split_join_price. }
      cbn [cu_raw_price]. split; [done|]. split; [apply better_join; [done|done|by right]|].
      intros z Hz Hbz Hne.
      apply (active_price_parts s loc side P) in Hz as (q&j&->&Hq&Hj&_&_&Hcj); try done.
      apply better_join in Hbz; [|done|done]. apply better_join; [done|done|].
      destruct Hbz as [?|[<- Hbij]]; [by left|right]. split; [done|].
      apply Hmin; [by apply (pk_mem _ _ _ _ _ HX)|done|]. intros ->. done. }
  destruct (Z.ltb_spec 1 (active_levels ps)) as [Hs|Hs].
  - pose proof (pk_bits _ _ _ _ _ HX) as Hd. rewrite page_bits_big in Hd by lia.
    destruct (Hcases _ (worseIndex_spec side _ X i Hd Hi)) as [[-> ?]|(Hrp&Hri&Hnx)].
    + by rewrite Z.eqb_refl.
    + rewrite (proj2 (Z.eqb_neq _ _) Hri). cbn [negb]. by rewrite u16_id.
  - rewrite Z.eqb_refl. cbn [negb].
    assert (X = {[i]}) as EX.
    { apply size_one_eq; [done|]. pose proof (size_nonempty_pos X i HiX). lia. }
    destruct (Hcases PriceBitmap.kInvalid) as [[_ ?]|(_&?&_)]; [|done|done].
    left. split; [done|]. intros j Hj. rewrite EX in Hj. apply elem_of_singleton in Hj as ->.
    apply better_not_lt. destruct side; lia.
Qed.

(** ** [view] and [topTen] *)

Lemma view_spec s loc side c :
  store_ok s → validSide side = true → good_locate loc → cursor_ok s loc side c →
  let l := level_at s loc side (cu_raw_price c) in
  view s c side = mkView (cu_raw_price c) (total_qty l) (order_count l) true.
Proof.
  intros Hok Hsd Hg (Hv&Hloc&[Hf Hc]&Hh). unfold view, level_at in *. rewrite Hv. cbn [negb].
  rewrite <- Hh in *. destruct (split_parts _ Hf) as [Hp Hi].
  destruct (Z.eqb_spec (cu_page_handle c) 0) as [E|E]; [by cbn in Hc|].
  assert (owned s (cu_page_handle c) loc (page_index (splitPrice (cu_raw_price c)))) as Ho.
  { rewrite Hh. apply so_root; [done|done|done|]. by rewrite <- Hh. }
  rewrite (owned_owner s _ _ _ Ho). cbn [ow_committed ow_stock_locate ow_page_index].
  rewrite Hloc, (good_locate_valid loc Hg), !Z.eqb_refl. change (1 =? 0) with false. cbn [negb orb].
  unfold resolveLevel, validateAddress, address_valid, kInvalidPricePageHandle. rewrite Hsd.
  cbn [negb page_handle]. rewrite (proj2 (Z.eqb_neq _ 0) E).
  destruct Ho as ((_&Hle)&_). rewrite (proj2 (Z.ltb_ge _ _) Hle). cbn [negb orb]. enum.
  fold (lvl s (cu_page_handle c) side (level_index (splitPrice (cu_raw_price c)))).
  by rewrite (proj2 (Z.eqb_neq _ 0) Hc).
Qed.

(** The view of an active price. *)
Definition view_ok (s : t) (loc : Z) (side : OrderSide) (v : PriceLevelView) : Prop :=
  active_price s loc side (vw_raw_price v) ∧
  v = mkView (vw_raw_price v) (total_qty (level_at s loc side (vw_raw_price v)))
        (order_count (level_at s loc side (vw_raw_price v))) true.

Definition worse_view (side : OrderSide) (v w : PriceLevelView) : Prop :=
  better side (vw_raw_price v) (vw_raw_price w) = true.

Definition at_or_worse (side : OrderSide) (x y : Z) : Prop := y = x ∨ better side x y = true.

(** [vs] lists the active prices from [x] on, best first, at most [room]. *)
Record ladder (s : t) (loc : Z) (side : OrderSide) (x : Z) (room : nat)
    (vs : list PriceLevelView) : Prop := {
  ld_length : (length vs <= room)%nat;
  ld_views : Forall (view_ok s loc side) vs;
  ld_sorted : StronglySorted (worse_view side) vs;
  ld_from : Forall (λ v, at_or_worse side x (vw_raw_price v)) vs;
  ld_complete : ∀ y, active_price s loc side y → at_or_worse side x y →
    y ∉ (vw_raw_price <$> vs) →
    length vs = room ∧ Forall (λ v, better side (vw_raw_price v) y = true) vs }.

Lemma better_trans side a b c : better side a b = true → better side b c = true → better side a c = true.
Proof. rewrite !better_lt. destruct side; lia. Qed.

Lemma ladder_cons s loc side x y room vs v :
  view_ok s loc side v → vw_raw_price v = x → next_price s loc side x y →
  ladder s loc side y room vs → ladder s loc side x (S room) (v :: vs).
Proof.
  intros Hv Hx (Hy&Hxy&Hnext) [Hlen Hvs Hsort Hfrom Hcomp].
  assert (∀ z, at_or_worse side y z → better side x z = true) as Hyz.
  { intros z [->|?]; [done|]. by eapply better_trans. }
  split.
  - cbn. lia.
  - by constructor.
  - constructor; [done|]. eapply Forall_impl; [done|]. cbn. intros w Hw.
    unfold worse_view. rewrite Hx. by apply Hyz.
  - constructor; [by left|]. eapply Forall_impl; [done|]. cbn. intros w Hw. right. by apply Hyz.
  - intros z Hz Hxz Hnin. cbn in Hnin. apply not_elem_of_cons in Hnin as [Hzx Hnin].
    rewrite Hx in Hzx. destruct Hxz as [?|Hxz]; [done|].
    assert (at_or_worse side y z) as Hyz'.
    { destruct (decide (z = y)); [by left|right]. by apply Hnext. }
    destruct (Hcomp z Hz Hyz' Hnin) as [Hl Hall]. cbn. split; [lia|].
    constructor; [by rewrite Hx|done].
Qed.

Lemma ladder_last s loc side x room v :
  view_ok s loc side v → vw_raw_price v = x → worst_price s loc side x ∨ room = 1%nat →
  (1 <= room)%nat → ladder s loc side x room [v].
Proof.
  intros Hv Hx Hw Hr. split.
  - done.
  - by constructor.
  - repeat constructor.
  - constructor; [by left|constructor].
  - intros y Hy Hxy Hnin. cbn in Hnin. apply not_elem_of_cons in Hnin as [Hyx _].
    rewrite Hx in Hyx. destruct Hxy as [?|Hxy]; [done|]. destruct Hw as [Hw| ->].
    + by rewrite (Hw y Hy) in Hxy.
    + split; [done|]. constructor; [by rewrite Hx|constructor].
Qed.

Lemma topLoop_ladder s loc side room c :
  store_ok s → validSide side = true → good_locate loc → (prepared_books s).[loc] ≠ 0 →
  cursor_ok s loc side c → (1 <= room)%nat →
  ladder s loc side (cu_raw_price c) room (topLoop s loc side room c).
Proof.
  intros Hok Hsd Hg Hp. revert c. induction room as [|room IH]; intros c Hc Hr; [lia|].
  cbn [topLoop]. pose proof (view_spec s loc side c Hok Hsd Hg Hc) as Hview.
  pose proof Hc as (Hv&_&Hact&_). rewrite Hv. cbn [negb]. rewrite Hview. cbn [vw_valid negb].
  set (v := mkView _ _ _ true). assert (view_ok s loc side v) as Hvok by done.
  destruct room as [|room]; [apply ladder_last; try done; by right|].
  destruct (nextWorse_spec s loc side c Hok Hsd Hc Hg Hp) as [[Hn Hw]|[Hn Hnext]].
  - rewrite Hn. cbn. apply ladder_last; try done. by left.
  - eapply ladder_cons; [done|done|done|]. apply IH; [done|lia].
Qed.

(** The answer of [topTen], independent of the search that produced it. *)
Record top_levels (s : t) (loc : Z) (side : OrderSide) (limit : nat)
    (vs : list PriceLevelView) : Prop := {
  tl_length : (length vs <= limit)%nat;
  tl_views : Forall (view_ok s loc side) vs;
  tl_sorted : StronglySorted (worse_view side) vs;
  tl_complete : ∀ y, active_price s loc side y → y ∉ (vw_raw_price <$> vs) →
    length vs = limit ∧ Forall (λ v, better side (vw_raw_price v) y = true) vs }.

Lemma topTen_spec s loc side size :
  store_ok s → validSide side = true → good_locate loc → (prepared_books s).[loc] ≠ 0 →
  top_levels s loc side (Nat.min size 10) (topTen s loc side size).
Proof.
  intros Hok Hsd Hg Hp. unfold topTen. change (Z.to_nat kTopLevelCount) with 10%nat.
  set (limit := Nat.min size 10). destruct (decide (limit = 0%nat)) as [->|Hl].
  { split; [done|done|constructor|]. intros y _ _. done. }
  destruct (best_spec s loc side Hok Hg Hsd Hp) as [[-> Hno]|[Hc Hbest]].
  - destruct limit as [|limit]; [done|]. cbn. split; [cbn; lia|done|constructor|].
    intros y Hy. by destruct (Hno y).
  - destruct (topLoop_ladder s loc side limit _ Hok Hsd Hg Hp Hc ltac:(lia)) as [? ? ? _ Hcomp].
    split; try done. intros y Hy Hnin. apply Hcomp; [done| |done].
    destruct Hbest as [_ Hb]. destruct (decide (y = cu_raw_price (best s loc side))); [by left|right].
    by apply Hb.
Qed.

(** ** Publishing pages *)

Lemma make_store_ok cap s : make cap = Some s → fits 32 cap →
  store_ok s ∧ ∀ loc side price, level_at s loc side price = zeroed.
Proof.
  unfold make, validatedConfig, max_u32. case_if; [|done]. intros [= <-] [Hc0 Hc1].
  split; [|intros; unfold level_at, root; cbn; by arena].
  assert (∀ loc p, root (mk cap ∅ ∅ ∅ ∅ ∅ ∅ ∅ ∅ 0 0 0) loc p = 0) as Hroot.
  { intros. unfold root; cbn. by arena. }
  split; cbn [page_capacity committed_pages page_owners].
  - unfold max_u32. lia.
  - lia.
  - intros h Hh. lia.
  - intros loc p _ _ Hr. by rewrite Hroot in Hr.
  - intros h _. by arena.
  - intros h side _ _. exists ∅. split; [|done].
    unfold lvl, levelUnchecked, pageSummary, pageOccupancy; cbn. arena. split.
    + intros i. rewrite elem_of_empty. split; [done|]. intros [_ Hn].
      destruct side; cbn in Hn; arena in Hn; done.
    + intros i _. destruct side; cbn; arena; done.
    + by rewrite size_empty.
    + done.
    + rewrite page_bits_small by (rewrite size_empty; lia). apply PriceBitmap.denotes_zero.
  - intros loc side _ _. exists ∅. unfold bookSummary, bookOccupancy; cbn.
    split; unfold bookSummary, bookOccupancy; cbn; arena; try done.
    + intros p. rewrite elem_of_empty. split; [done|]. intros (_&Hr&_). by rewrite Hroot in Hr.
    + apply PriceBitmap.denotes_zero.
Qed.

(** The part of the store its aggregates and indexes live in. *)
Record same_data (s s' : t) : Prop := {
  sd_capacity : page_capacity s' = page_capacity s;
  sd_roots : roots s' = roots s;
  sd_pages : pages s' = pages s;
  sd_owners : page_owners s' = page_owners s;
  sd_summaries : page_summaries s' = page_summaries s;
  sd_occupancy : page_occupancy s' = page_occupancy s;
  sd_books : book_summaries s' = book_summaries s;
  sd_book_bits : book_occupancy s' = book_occupancy s;
  sd_committed : committed_pages s' = committed_pages s }.

Lemma same_data_store s s' :
  same_data s s' → (∀ loc, (prepared_books s).[loc] ≠ 0 → (prepared_books s').[loc] ≠ 0) →
  store_ok s → store_ok s'.
Proof.
  destruct s, s'. intros [] Hprep Hok. cbn in *. subst. destruct Hok as [? ? Howned Hroot ? Hpg Hbk].
  split; try done.
  - intros h Hh. destruct (Howned h Hh) as (loc&p&?&?&?&?&?&?). exists loc, p.
    repeat (split; [done|]). by apply Hprep.
  - intros loc p Hl Hp Hr. destruct (Hroot loc p Hl Hp Hr) as (?&?&?&?&?&?).
    repeat (split; [done|]). by apply Hprep.
  - intros loc side Hl Hsd. destruct (Hbk loc side Hl Hsd) as (P&[]). exists P. by split.
Qed.

Lemma same_data_level s s' loc side price :
  same_data s s' → level_at s' loc side price = level_at s loc side price.
Proof. destruct s, s'. intros []. cbn in *. by subst. Qed.

(** Only books that were not prepared before are counted. *)
Lemma prepareBook_count s loc :
  isValidStockLocate loc = true →
  prepared_book_count (snd (prepareBook s loc)) =
  if isBookPrepared s loc then prepared_book_count s else u32 (prepared_book_count s + 1).
Proof. intros Hv. unfold prepareBook, isBookPrepared. rewrite Hv. by destruct (_ =? 0). Qed.

Lemma prepareBook_spec s loc :
  store_ok s → fits 16 loc →
  if isValidStockLocate loc
  then fst (prepareBook s loc) = Applied ∧ store_ok (snd (prepareBook s loc)) ∧
       same_data s (snd (prepareBook s loc)) ∧
       ∀ l, isBookPrepared (snd (prepareBook s loc)) l =
            bool_decide (l = loc) || isBookPrepared s l
  else prepareBook s loc = (InvalidLocate, s).
Proof.
  intros Hok Hf. unfold prepareBook. destruct (isValidStockLocate loc) eqn:Hv; cbn [negb]; [|done].
  destruct (Z.eqb_spec (prepared_books s).[loc] 0) as [E|E]; cbn [fst snd].
  - split; [done|]. split; [|split; [done|]].
    + eapply same_data_store; [|..|done]; [done|]. cbn. intros l Hl. rewrite aget_insert.
      by case_decide.
    + intros l. unfold isBookPrepared; cbn. rewrite aget_insert.
      destruct (decide (loc = l)) as [<-|Hne].
      * by rewrite bool_decide_eq_true_2, Hv.
      * by rewrite bool_decide_eq_false_2.
  - split; [done|]. split; [done|]. split; [done|]. intros l. unfold isBookPrepared.
    case_bool_decide as El; [|done]. subst l. by rewrite Hv, (proj2 (Z.eqb_neq _ 0) E).
Qed.

(** Publishing page [p] of [loc] under the next handle. *)
Section publish.
Context (s : t) (loc p : Z) (Hok : store_ok s) (Hg : good_locate loc) (Hp : part p).
Context (Hroot : root s loc p = 0) (Hroom : committed_pages s < page_capacity s).
Context (Hprep : (prepared_books s).[loc] ≠ 0).
Let h := committed_pages s + 1.
Let s' := mk (page_capacity s) (<[priceRootIndex loc p := h]> (roots s)) (prepared_books s) (pages s)
  (<[h := mkOwner loc p 1]> (page_owners s))
  (page_summaries s) (page_occupancy s) (book_summaries s) (book_occupancy s)
  h (prepared_book_count s) (page_capacity_failures s).

Lemma published_root loc' p' : part p' →
  root s' loc' p' = if decide (loc' = loc ∧ p' = p) then h else root s loc' p'.
Proof.
  intros Hp'. unfold root, s'; cbn. rewrite aget_insert.
  destruct (decide (loc' = loc ∧ p' = p)) as [[-> ->]|Hne].
  - by rewrite decide_True.
  - rewrite decide_False; [done|]. intros E. apply Hne.
    apply root_index_inj in E as [-> ->]; [done|done|done].
Qed.

Lemma published_new : owned s' h loc p.
Proof.
  pose proof (so_committed s Hok). split; [cbn; lia|]. split; [done|]. split; [done|].
  split; [cbn; by arena|]. split; [|done]. rewrite published_root by done. by rewrite decide_True.
Qed.

Lemma published_old h' loc' p' : owned s h' loc' p' → owned s' h' loc' p'.
Proof.
  intros (Hh&Hl&Hpp&Ho&Hr&Hpr). split; [cbn; lia|]. split; [done|]. split; [done|].
  split; [cbn; rewrite aget_insert_ne by lia; done|]. split; [|done].
  rewrite published_root by done. rewrite decide_False; [done|]. intros [-> ->]. lia.
Qed.

Lemma fresh_page side :
  validSide side = true →
  page_ok side (lvl s h side) (pageSummary s h side) (pageOccupancy s h side) ∅.
Proof.
  intros Hsd. pose proof (so_committed s Hok).
  destruct (so_page s Hok h side ltac:(lia) Hsd) as (X&HX&Hf). by rewrite (Hf ltac:(lia)) in HX.
Qed.

Lemma published_book loc' side : good_locate loc' → validSide side = true → ∃ P, book_ok s' loc' side P.
Proof.
  intros Hl' Hsd. destruct (so_book s Hok loc' side Hl' Hsd) as [P [Hm Hc Hb He Hbest]].
  exists P. assert (∀ q, q ∈ P → root s' loc' q = root s loc' q) as Hroots.
  { intros q Hq. apply Hm in Hq as (Hqp&Hqn&_). rewrite published_root by done.
    rewrite decide_False; [done|]. intros [-> ->]. done. }
  split; try done.
  - intros q. rewrite Hm. unfold active_page. split; intros (Hq&Hn&Ha); (split; [done|]).
    + rewrite published_root by done. rewrite decide_False; [done|]. intros [-> ->]. done.
    + rewrite published_root in Hn, Ha by done. case_decide as E; [|done].
      exfalso. apply Ha. change (pageSummary s' h side) with (pageSummary s h side).
      rewrite (pk_count _ _ _ _ _ (fresh_page side Hsd)). by rewrite size_empty.
  - intros HP. destruct (Hbest HP) as (q&Hq&Hqh&Hqr). exists q. by rewrite Hroots by apply Hq.
Qed.

Lemma published_ok : store_ok s'.
Proof.
  pose proof (so_capacity s Hok). pose proof (so_committed s Hok). split.
  - done.
  - cbn. lia.
  - intros h' Hh'. cbn in Hh'. destruct (decide (h' = h)) as [->|Hne].
    + exists loc, p. apply published_new.
    + destruct (so_owned s Hok h' ltac:(lia)) as (loc'&p'&Ho). exists loc', p'. by apply published_old.
  - intros loc' p' Hl' Hp' Hr. rewrite published_root in Hr |- * by done. case_decide as E.
    + destruct E as [-> ->]. apply published_new.
    + by apply published_old, so_root.
  - intros h' Hh'. cbn in *. rewrite aget_insert_ne by lia. apply (so_fresh s Hok). lia.
  - intros h' side Hh' Hsd. destruct (so_page s Hok h' side Hh' Hsd) as (X&HX&Hf).
    exists X. split; [done|]. cbn. intros. apply Hf. lia.
  - intros loc' side. apply published_book.
Qed.

(** A freshly published page holds no aggregate: every level reads as before. *)
Lemma published_levels loc' side price :
  validSide side = true → fits 32 price → level_at s' loc' side price = level_at s loc' side price.
Proof.
  intros Hsd Hf. destruct (split_parts price Hf) as [Hpp Hlp]. unfold level_at.
  rewrite published_root by done. case_decide as E; [|done]. destruct E as [-> ->].
  rewrite Hroot. cbn. pose proof (so_committed s Hok).
  rewrite (proj2 (Z.eqb_neq h 0)) by lia. pose proof (fresh_page side Hsd) as HX.
  change (lvl s' h side) with (lvl s h side).
  destruct (pk_level _ _ _ _ _ HX _ Hlp) as (_&_&Hz).
  assert (order_count (lvl s h side (level_index (splitPrice price))) = 0) as Hc.
  { destruct (decide (order_count (lvl s h side (level_index (splitPrice price))) = 0)); [done|].
    exfalso. apply (not_elem_of_empty (C := gset Z) (level_index (splitPrice price))).
    by apply (pk_mem _ _ _ _ _ HX). }
  destruct (lvl s h side _) as [tq oc]; cbn in *. subst oc. by rewrite (proj1 Hz eq_refl).
Qed.

End publish.

(** A well-formed store with the aggregates, the addresses and the prepared
    books of [s]: what a reservation and its commit lead to. *)
Record extends (s s' : t) : Prop := {
  ex_ok : store_ok s';
  ex_resolves : ∀ a loc price, resolves s a loc price → resolves s' a loc price;
  ex_level : ∀ loc side price, validSide side = true → fits 32 price →
    level_at s' loc side price = level_at s loc side price;
  ex_prepared : ∀ loc, isBookPrepared s' loc = isBookPrepared s loc;
  ex_capacity : page_capacity s' = page_capacity s;
  ex_books : prepared_book_count s' = prepared_book_count s }.

Lemma extends_refl s : store_ok s → extends s s.
Proof. done. Qed.

Lemma extends_failures s n :
  store_ok s →
  extends s (mk (page_capacity s) (roots s) (prepared_books s) (pages s) (page_owners s)
    (page_summaries s) (page_occupancy s) (book_summaries s) (book_occupancy s)
    (committed_pages s) (prepared_book_count s) n).
Proof.
  intros Hok. split; try done. eapply same_data_store; [|..|exact Hok]; done.
Qed.

Lemma extends_publish s loc p :
  store_ok s → good_locate loc → part p → root s loc p = 0 →
  committed_pages s < page_capacity s → (prepared_books s).[loc] ≠ 0 →
  let h := committed_pages s + 1 in
  extends s (mk (page_capacity s) (<[priceRootIndex loc p := h]> (roots s)) (prepared_books s)
    (pages s) (<[h := mkOwner loc p 1]> (page_owners s)) (page_summaries s) (page_occupancy s)
    (book_summaries s) (book_occupancy s) h (prepared_book_count s) (page_capacity_failures s)).
Proof.
  intros Hok Hg Hp Hr Hroom Hprep h. split; try done.
  - by apply published_ok.
  - intros a loc' price (Hl'&Hf&Hh&Hn&Hi). destruct (split_parts price Hf) as [Hpp _].
    split; [done|]. split; [done|]. split; [|done].
    rewrite (published_root s loc p) by done. rewrite decide_False; [done|].
    intros [-> E]. rewrite <- E in Hr. congruence.
  - intros. by apply published_levels.
Qed.

Lemma reserve_price_spec s loc price :
  store_ok s → good_locate loc → (prepared_books s).[loc] ≠ 0 → fits 32 price →
  let r := fst (reservePrice s loc price) in
  let s1 := snd (reservePrice s loc price) in
  (rv_result r = PricePageCapacityExceeded ∧ extends s s1 ∧
   root s loc (page_index (splitPrice price)) = 0 ∧ committed_pages s = page_capacity s) ∨
  (rv_result r = Applied ∧ address_valid (rv_address r) = true ∧
   rv_page_index r = page_index (splitPrice price) ∧
   let s2 := if rv_requires_commit r then snd (commitReservation s1 r) else s1 in
   (rv_requires_commit r = true → fst (commitReservation s1 r) = Applied) ∧
   extends s s2 ∧ resolves s2 (rv_address r) loc price).
Proof.
  intros Hok Hg Hprep Hf. destruct (split_parts price Hf) as [Hp Hi].
  pose proof (so_committed s Hok). pose proof (so_capacity s Hok) as Hcap. unfold max_u32 in Hcap.
  unfold reservePrice. rewrite (good_locate_valid loc Hg), (prepared_book s loc Hg Hprep).
  cbn [negb]. fold (root s loc (page_index (splitPrice price))).
  set (p := page_index (splitPrice price)) in *. unfold kInvalidPricePageHandle.
  destruct (Z.eqb_spec (root s loc p) 0) as [Er|Er]; cbn [negb].
  - destruct (Z.leb_spec (page_capacity s) (committed_pages s)) as [Hfull|Hroom]; cbn [fst snd].
    + left. split; [done|]. split; [by apply extends_failures|]. split; [done|lia].
    + right. cbn [rv_result rv_address rv_page_index rv_requires_commit].
      rewrite u32_id by (split; lia). set (h := committed_pages s + 1) in *.
      unfold address_valid, kInvalidPricePageHandle; cbn [page_handle].
      rewrite (proj2 (Z.eqb_neq h 0)) by lia. split; [done|]. split; [done|]. split; [done|].
      assert (commitReservation s (mkReservation Applied (mkAddress h (level_index (splitPrice price)))
        loc p (committed_pages s) true) = (Applied,
        mk (page_capacity s) (<[priceRootIndex loc p := h]> (roots s)) (prepared_books s)
          (pages s) (<[h := mkOwner loc p 1]> (page_owners s)) (page_summaries s) (page_occupancy s)
          (book_summaries s) (book_occupancy s) h (prepared_book_count s) (page_capacity_failures s)))
        as ->.
      { unfold commitReservation, address_valid, kInvalidPricePageHandle.
        cbn [rv_result rv_address rv_stock_locate rv_page_index rv_requires_commit
             rv_expected_committed_pages page_handle]. enum.
        rewrite (proj2 (Z.eqb_neq h 0)) by lia. cbn [negb].
        rewrite (good_locate_valid loc Hg), (prepared_book s loc Hg Hprep). cbn [negb].
        fold (root s loc p). rewrite Er, Z.eqb_refl, Z.eqb_refl, u32_id by (split; lia).
        rewrite Z.eqb_refl, (proj2 (Z.ltb_ge _ _)) by lia. cbn [negb orb].
        rewrite (so_fresh s Hok h) by lia. done. }
      cbn [fst snd]. split; [done|].
      assert (extends s (mk (page_capacity s) (<[priceRootIndex loc p := h]> (roots s))
        (prepared_books s) (pages s) (<[h := mkOwner loc p 1]> (page_owners s)) (page_summaries s)
        (page_occupancy s) (book_summaries s) (book_occupancy s) h (prepared_book_count s)
        (page_capacity_failures s))) as Hex by (by apply extends_publish).
      split; [done|]. split; [done|]. split; [done|]. cbn [page_handle addr_level].
      rewrite (published_root s loc p) by done. rewrite decide_True by done.
      split; [done|]. split; [lia|done].
  - right. pose proof (so_root s Hok loc p Hg Hp Er) as Ho.
    assert (rootHandleMatches s loc p (root s loc p) = true) as ->.
    { unfold rootHandleMatches. rewrite (owned_owner s _ _ _ Ho).
      unfold ownedBy; cbn [ow_committed ow_stock_locate ow_page_index]. by rewrite !Z.eqb_refl. }
    cbn [negb fst snd rv_result rv_address rv_page_index rv_requires_commit].
    unfold address_valid, kInvalidPricePageHandle. cbn [page_handle].
    rewrite (proj2 (Z.eqb_neq _ 0) Er). repeat (split; [done|]). done.
Qed.

End PriceStoreRead.
