(* ===== verification/Book.v ===== *)
(** The order book of [OrderBook.hpp]/[OrderBook.cpp]: a per-locate view over
    the process-wide order table and price-level store.

    [OrderBook.t] is the descriptor of one book; [env] adds the two shared
    stores it points to.  Every member that mutates is a state-passing function
    on [env] that follows the statements of the member, rollback branches
    included.  [BookInv] states the invariant and proves the members. *)
From stdpp Require Import base list gmap.
From Stdlib Require Import ZArith Lia.
From S2P Require Import Prelude Bits Bitmap BookTypes Orders Prices.
#[local] Open Scope Z_scope.
#[local] Open Scope astra_scope.

Module OrderBook.

Record t := mk {
  symbol_id : Z;
  stock_locate : Z;
  local_invalid : bool;
  order_capacity : Z;
  live_order_count : Z;
  allocation_failures : Z;
  latest_update_timestamp : Z }.

Definition set_invalid (b : t) : t :=
  mk (symbol_id b) (stock_locate b) true (order_capacity b) (live_order_count b)
     (allocation_failures b) (latest_update_timestamp b).
Definition bump_failures (b : t) : t :=
  mk (symbol_id b) (stock_locate b) (local_invalid b) (order_capacity b) (live_order_count b)
     (u64 (allocation_failures b + 1)) (latest_update_timestamp b).
Definition set_live (b : t) (n : Z) : t :=
  mk (symbol_id b) (stock_locate b) (local_invalid b) (order_capacity b) n
     (allocation_failures b) (latest_update_timestamp b).
Definition set_timestamp (b : t) (ts : Z) : t :=
  mk (symbol_id b) (stock_locate b) (local_invalid b) (order_capacity b) (live_order_count b)
     (allocation_failures b) ts.

(** A book with the shared stores it mutates. *)
Record env := mkEnv { book : t; orders : OrderTable.t; prices : PriceLevelStore.t }.

Definition with_book (e : env) (b : t) : env := mkEnv b (orders e) (prices e).
Definition with_orders (e : env) (o : OrderTable.t) : env := mkEnv (book e) o (prices e).
Definition with_prices (e : env) (p : PriceLevelStore.t) : env := mkEnv (book e) (orders e) p.

(** The manager-backed constructor. *)
Definition make (locate : Z) (prices : PriceLevelStore.t) (reported_capacity : Z) : t :=
  mk locate locate (negb (PriceLevelStore.isBookPrepared prices locate))
     reported_capacity 0 0 0.

(** [decodeSide(char)]: 'B' is 66 and 'S' is 83. *)
Definition decodeSideChar (c : Z) : OrderSide :=
  if c =? 66 then Buy else if c =? 83 then Sell else RawSide 0.

Definition decodeSide (v : Z) : OrderSide :=
  match side_of_byte v with
  | Buy => Buy
  | Sell => Sell
  | RawSide _ => RawSide 0
  end.

Definition addressOf (st : OrderState) : PriceLevelStore.PriceAddress :=
  PriceLevelStore.mkAddress (price_page_handle st) (price_level_index st).

(** Which rejections invalidate the book. *)
Definition invalidating (r : MutationResult) : bool :=
  match r with
  | QuantityOverflow | QuantityUnderflow | InvalidPricePage | MissingPriceLevel
  | StaleReservation | InvariantViolation | BookInvalid => true
  | _ => false
  end.

Definition reject (e : env) (r : MutationResult) : MutationResult * env :=
  let b := book e in
  let b := match r with
           | OrderTableCapacityExceeded | PricePageCapacityExceeded => bump_failures b
           | _ => b
           end in
  (r, with_book e (if invalidating r then set_invalid b else b)).

(** [inl] is the rejection already performed. *)
Definition validateState (e : env) (state : option OrderTable.slot)
  : (MutationResult * env) + OrderTable.slot :=
  match state with
  | None => inl (reject e OrderNotFound)
  | Some p =>
    let st := OrderTable.deref (orders e) p in
    if negb (locate st =? stock_locate (book e)) then inl (reject e LocateMismatch) else
    if bool_decide (decodeSide (side st) = RawSide 0) || (qty st =? 0) ||
       (price_page_handle st =? PriceLevelStore.kInvalidPricePageHandle)
    then inl (reject e InvariantViolation) else
    if negb (PriceLevelStore.ownsAddress (prices e) (stock_locate (book e))
               (price_page_index st) (addressOf st))
    then inl (reject e InvariantViolation) else inr p
  end.

Definition reservation_ok (r : PriceLevelStore.PricePageReservation) : bool :=
  bool_decide (PriceLevelStore.rv_result r = Applied) &&
  PriceLevelStore.address_valid (PriceLevelStore.rv_address r).

(** Reserving a price page and publishing it when it is new: the step both
    [addOrder] and [replaceOrder] perform; [inl] is the rejection. *)
Definition acquirePage (e : env) (price : Z)
  : (MutationResult * env) + (PriceLevelStore.PricePageReservation * env) :=
  let '(r, prices1) := PriceLevelStore.reservePrice (prices e) (stock_locate (book e)) (u32 price) in
  let e := with_prices e prices1 in
  if negb (reservation_ok r) then inl (reject e (PriceLevelStore.rv_result r)) else
  if PriceLevelStore.rv_requires_commit r then
    let '(page_commit, prices2) := PriceLevelStore.commitReservation (prices e) r in
    let e := with_prices e prices2 in
    if negb (bool_decide (page_commit = Applied)) then inl (reject e page_commit)
    else inr (r, e)
  else inr (r, e).

Definition newState (e : env) (qty : Z) (r : PriceLevelStore.PricePageReservation)
    (side : OrderSide) : OrderState :=
  mkOrder qty (PriceLevelStore.page_handle (PriceLevelStore.rv_address r))
    (PriceLevelStore.addr_level (PriceLevelStore.rv_address r)) (stock_locate (book e))
    (side_byte side) 0 (PriceLevelStore.rv_page_index r).

Definition addOrder (e : env) (order_id price qty side timestamp : Z) : MutationResult * env :=
  if local_invalid (book e) then (BookInvalid, e) else
  if negb (PriceLevelStore.isBookPrepared (prices e) (stock_locate (book e)))
  then reject e BookNotPrepared else
  let decoded_side := decodeSideChar side in
  if bool_decide (decoded_side = RawSide 0) then reject e InvalidSide else
  if qty =? 0 then reject e InvalidQuantity else
  if negb (isValidItchPrice4 price) then reject e PriceOutOfRange else
  let order_reservation := OrderTable.reserve (orders e) order_id in
  if negb (OrderTable.reservation_valid order_reservation)
  then reject e (OrderTable.rs_result order_reservation) else
  match acquirePage e price with
  | inl r => r
  | inr (price_reservation, e) =>
    let address := PriceLevelStore.rv_address price_reservation in
    let '(level_result, prices1) := PriceLevelStore.add (prices e) address decoded_side qty in
    let e := with_prices e prices1 in
    if negb (bool_decide (level_result = Applied)) then reject e level_result else
    let state := newState e qty price_reservation decoded_side in
    let '(order_commit, orders1) := OrderTable.commit (orders e) order_reservation state in
    let e := with_orders e orders1 in
    if negb (bool_decide (order_commit = Applied)) then
      let '(rollback, prices2) := PriceLevelStore.erase (prices e) address decoded_side qty in
      reject (with_prices e prices2)
        (if bool_decide (rollback = Applied) then order_commit else InvariantViolation)
    else
      (Applied, with_book e (set_timestamp (set_live (book e)
                               (u64 (live_order_count (book e) + 1))) timestamp))
  end.

(** The part [cancelShares] and [executeOrder] share once the quantity is known
    to leave the order alive: a checked reduction of the level and of the order. *)
Definition reduceOrder (e : env) (p : OrderTable.slot) (st : OrderState) (side : OrderSide)
    (reduction timestamp : Z) : MutationResult * env :=
  let '(result, prices1) :=
    PriceLevelStore.reduceChecked (prices e) (stock_locate (book e)) (price_page_index st)
      (addressOf st) side (qty st) reduction in
  let e := with_prices e prices1 in
  if negb (bool_decide (result = Applied)) then reject e result else
  let e := with_orders e (OrderTable.store (orders e) p (with_qty st (u32 (qty st - reduction)))) in
  (Applied, with_book e (set_timestamp (book e) timestamp)).

Definition cancelShares (e : env) (order_id canceled_qty timestamp : Z) : MutationResult * env :=
  if local_invalid (book e) then (BookInvalid, e) else
  if canceled_qty =? 0 then reject e InvalidQuantity else
  match OrderTable.findState (orders e) order_id with
  | None => reject e OrderNotFound
  | Some p =>
    let st := OrderTable.deref (orders e) p in
    let side := decodeSide (side st) in
    if negb (locate st =? stock_locate (book e)) then reject e LocateMismatch else
    if bool_decide (side = RawSide 0) || (qty st =? 0) ||
       negb (PriceLevelStore.address_valid (addressOf st))
    then reject e InvariantViolation else
    if qty st <=? canceled_qty then
      if negb (PriceLevelStore.ownsAddress (prices e) (stock_locate (book e))
                 (price_page_index st) (addressOf st))
      then reject e InvariantViolation else reject e QuantityExceeded
    else reduceOrder e p st side canceled_qty timestamp
  end.

(** Removal of the whole order: the level first, then the table. *)
Definition removeOrder (e : env) (p : OrderTable.slot) (st : OrderState) (side : OrderSide)
    (timestamp : Z) : MutationResult * env :=
  let '(level_result, prices1) := PriceLevelStore.erase (prices e) (addressOf st) side (qty st) in
  let e := with_prices e prices1 in
  if negb (bool_decide (level_result = Applied)) then reject e level_result else
  let '(table_result, orders1) := OrderTable.erase (orders e) (Some p) in
  let e := with_orders e orders1 in
  if negb (bool_decide (table_result = Applied)) then reject e InvariantViolation else
  (Applied, with_book e (set_timestamp (set_live (book e)
                           (u64 (live_order_count (book e) - 1))) timestamp)).

Definition deleteOrder (e : env) (order_id timestamp : Z) : MutationResult * env :=
  if local_invalid (book e) then (BookInvalid, e) else
  match validateState e (OrderTable.findState (orders e) order_id) with
  | inl r => r
  | inr p =>
    let st := OrderTable.deref (orders e) p in
    removeOrder e p st (decodeSide (side st)) timestamp
  end.

Definition executeOrder (e : env) (order_id executed_qty timestamp : Z) : MutationResult * env :=
  if local_invalid (book e) then (BookInvalid, e) else
  if executed_qty =? 0 then reject e InvalidQuantity else
  match OrderTable.findState (orders e) order_id with
  | None => reject e OrderNotFound
  | Some p =>
    let st := OrderTable.deref (orders e) p in
    let side := decodeSide (side st) in
    if negb (locate st =? stock_locate (book e)) then reject e LocateMismatch else
    if bool_decide (side = RawSide 0) || (qty st =? 0) ||
       negb (PriceLevelStore.address_valid (addressOf st))
    then reject e InvariantViolation else
    let owns := PriceLevelStore.ownsAddress (prices e) (stock_locate (book e))
                  (price_page_index st) (addressOf st) in
    if qty st <? executed_qty then
      if negb owns then reject e InvariantViolation else reject e QuantityExceeded
    else if executed_qty =? qty st then
      if negb owns then reject e InvariantViolation else
      removeOrder e p st side timestamp
    else reduceOrder e p st side executed_qty timestamp
  end.

Definition trade (e : env) (order_id executed_qty timestamp : Z) : bool * env :=
  let '(r, e') := executeOrder e order_id executed_qty timestamp in
  (bool_decide (r = Applied), e').

(** The members written into a record that keeps its reference. *)
Definition movedState (st : OrderState) (new_qty : Z)
    (r : PriceLevelStore.PricePageReservation) : OrderState :=
  mkOrder new_qty (PriceLevelStore.page_handle (PriceLevelStore.rv_address r))
    (PriceLevelStore.addr_level (PriceLevelStore.rv_address r)) (locate st) (side st) (flags st)
    (PriceLevelStore.rv_page_index r).

(** [replaceOrder] from the price move on, for a new reference; [new_commit] has
    succeeded. *)
Definition replaceMove (e : env) (p : OrderTable.slot) (old_state : OrderState) (new_id new_qty : Z)
    (r : PriceLevelStore.PricePageReservation) (side : OrderSide) (timestamp : Z)
  : MutationResult * env :=
  let new_address := PriceLevelStore.rv_address r in
  let old_address := addressOf old_state in
  let '(move_result, prices1) :=
    PriceLevelStore.move (prices e) old_address (qty old_state) new_address new_qty side in
  let e := with_prices e prices1 in
  if negb (bool_decide (move_result = Applied)) then
    let '(table_rollback, orders1) := OrderTable.eraseRef (orders e) new_id in
    reject (with_orders e orders1)
      (if bool_decide (table_rollback = Applied) then move_result else InvariantViolation)
  else
  let '(old_erase, orders1) := OrderTable.erase (orders e) (Some p) in
  let e := with_orders e orders1 in
  if negb (bool_decide (old_erase = Applied)) then
    let '(table_rollback, orders2) := OrderTable.eraseRef (orders e) new_id in
    let '(price_rollback, prices2) :=
      PriceLevelStore.move (prices e) new_address new_qty old_address (qty old_state) side in
    reject (with_prices (with_orders e orders2) prices2) InvariantViolation
  else (Applied, with_book e (set_timestamp (book e) timestamp)).

Definition replaceOrder (e : env) (old_id new_id new_price new_qty timestamp : Z)
  : MutationResult * env :=
  if local_invalid (book e) then (BookInvalid, e) else
  if new_qty =? 0 then reject e InvalidQuantity else
  if negb (isValidItchPrice4 new_price) then reject e PriceOutOfRange else
  match validateState e (OrderTable.findState (orders e) old_id) with
  | inl r => r
  | inr p =>
    let reservation := OrderTable.reserve (orders e) new_id in
    if negb (new_id =? old_id) && negb (OrderTable.reservation_valid reservation)
    then reject e (OrderTable.rs_result reservation) else
    match acquirePage e new_price with
    | inl r => r
    | inr (price_reservation, e) =>
      let old_state := OrderTable.deref (orders e) p in
      let side := decodeSide (side old_state) in
      if new_id =? old_id then
        let '(move_result, prices1) :=
          PriceLevelStore.move (prices e) (addressOf old_state) (qty old_state)
            (PriceLevelStore.rv_address price_reservation) new_qty side in
        let e := with_prices e prices1 in
        if negb (bool_decide (move_result = Applied)) then reject e move_result else
        let e := with_orders e (OrderTable.store (orders e) p
                                  (movedState old_state new_qty price_reservation)) in
        (Applied, with_book e (set_timestamp (book e) timestamp))
      else
      let '(new_commit, orders1) :=
        OrderTable.commit (orders e) reservation (newState e new_qty price_reservation side) in
      let e := with_orders e orders1 in
      if negb (bool_decide (new_commit = Applied)) then reject e new_commit
      else replaceMove e p old_state new_id new_qty price_reservation side timestamp
    end
  end.

(** ** Market data read from the book *)

Record TopOfBook := mkTop {
  top_timestamp : Z; bid_price : Z; bid_qty : Z; ask_price : Z; ask_qty : Z;
  top_symbol_id : Z; has_bid : bool; has_ask : bool }.

Definition getTopOfBook (e : env) : TopOfBook :=
  let loc := stock_locate (book e) in
  let bid := PriceLevelStore.view (prices e) (PriceLevelStore.best (prices e) loc Buy) Buy in
  let ask := PriceLevelStore.view (prices e) (PriceLevelStore.best (prices e) loc Sell) Sell in
  let side_of v f := if PriceLevelStore.vw_valid v then f v else 0 in
  mkTop (latest_update_timestamp (book e))
    (side_of bid PriceLevelStore.vw_raw_price) (side_of bid PriceLevelStore.vw_total_qty)
    (side_of ask PriceLevelStore.vw_raw_price) (side_of ask PriceLevelStore.vw_total_qty)
    (symbol_id (book e)) (PriceLevelStore.vw_valid bid) (PriceLevelStore.vw_valid ask).

Record BookUpdate := mkUpdate {
  up_bids : list (Z * Z * Z); up_asks : list (Z * Z * Z);
  up_timestamp : Z; up_symbol_id : Z; bids_depth : Z; asks_depth : Z }.

Definition levelUpdate (v : PriceLevelStore.PriceLevelView) : Z * Z * Z :=
  (PriceLevelStore.vw_raw_price v, PriceLevelStore.vw_total_qty v, PriceLevelStore.vw_order_count v).

(** The filled prefix of the two fixed ten-element arrays, with their depths. *)
Definition getBookUpdate (e : env) : BookUpdate :=
  let loc := stock_locate (book e) in
  let bids := PriceLevelStore.topTen (prices e) loc Buy 10 in
  let asks := PriceLevelStore.topTen (prices e) loc Sell 10 in
  mkUpdate (levelUpdate <$> bids) (levelUpdate <$> asks)
    (latest_update_timestamp (book e)) (symbol_id (book e))
    (u8 (Z.of_nat (length bids))) (u8 (Z.of_nat (length asks))).

(** ** Standalone construction *)

Definition nextPowerOfTwo (value : Z) : Z :=
  if value <=? 2 then 2 else
  let v := value - 1 in
  let v := v .| (v ≫ 1) in
  let v := v .| (v ≫ 2) in
  let v := v .| (v ≫ 4) in
  let v := v .| (v ≫ 8) in
  let v := v .| (v ≫ 16) in
  let v := v .| (v ≫ 32) in
  u64 (v + 1).

(** [None] is [std::invalid_argument]. *)
Definition standaloneOrderConfig (requested_capacity : Z) : option (Z * Z) :=
  if 2 ^ 28 <? requested_capacity then None
  else Some (nextPowerOfTwo (Z.max 1024 (requested_capacity * 4)),
             u32 (nextPowerOfTwo (Z.max 64 (requested_capacity / 4)))).

Definition standalonePriceConfig (requested_capacity : Z) : Z :=
  u32 (Z.min (Z.max 1 requested_capacity) kPricePartCount).

Definition makeStandalone (symbol : Z) (capacity : Z) : option env :=
  match standaloneOrderConfig capacity with
  | None => None
  | Some (direct, buckets) =>
    match OrderTable.make direct buckets, PriceLevelStore.make (standalonePriceConfig capacity) with
    | Some o, Some pr =>
      let loc := u16 symbol in
      let '(r, pr') := PriceLevelStore.prepareBook pr loc in
      Some (if (max_u16 <? symbol) || negb (isValidStockLocate loc)
            then mkEnv (mk symbol loc true capacity 0 0 0) o pr
            else mkEnv (mk symbol loc (negb (bool_decide (r = Applied))) capacity 0 0 0) o pr')
    | _, _ => None
    end
  end.

End OrderBook.
