(* ===== verification/BookInv.v ===== *)
(** The invariant of the book: the aggregates of the price store are exactly
    the sums over the live orders of the order table.

    [ledger o pr M] ties the two shared stores to the finite map [M] of live
    orders; its consequences say that removing or reducing a live order can
    never be refused by the price store, and its preservation lemmas describe
    the four ways a mutation changes [M]. *)
From stdpp Require Import base list gmap.
From Stdlib Require Import ZArith Lia.
From S2P Require Import Prelude Bits Bitmap BookTypes Orders Prices PricesInv PricesAdd PricesErase.
From S2P Require Import PricesRead Book.
#[local] Open Scope Z_scope.
#[local] Open Scope astra_scope.

Module BookInv.
Import OrderBook PriceStoreInv PriceStoreAdd PriceStoreErase PriceStoreRead.
Abbreviation store := PriceLevelStore.t.
Abbreviation table := OrderTable.t.

Definition price_of (st : OrderState) : Z := joinPrice (price_page_index st) (price_level_index st).
Definition side_of (st : OrderState) : OrderSide := side_of_byte (side st).

Definition at_level (loc : Z) (sd : OrderSide) (price : Z) (st : OrderState) : Prop :=
  locate st = loc ∧ side_of st = sd ∧ price_of st = price.
#[global] Instance at_level_dec loc sd price st : Decision (at_level loc sd price st).
Proof. unfold at_level. apply _. Defined.

Definition qty_at (loc : Z) (sd : OrderSide) (price : Z) (st : OrderState) : Z :=
  if decide (at_level loc sd price st) then qty st else 0.
Definition count_at (loc : Z) (sd : OrderSide) (price : Z) (st : OrderState) : Z :=
  if decide (at_level loc sd price st) then 1 else 0.

(** A live order: its fields are in range and its address names its level. *)
Record order_ok (pr : store) (st : OrderState) : Prop := {
  or_active : isActive st = true;
  or_seen : wasSeen st = true;
  or_qty : 0 < qty st < 2 ^ 32;
  or_locate : good_locate (locate st);
  or_side : side st = 1 ∨ side st = 2;
  or_page : part (price_page_index st);
  or_level : part (price_level_index st);
  or_price : price_of st <= kMaxItchPrice4;
  or_address : resolves pr (addressOf st) (locate st) (price_of st) }.

Record ledger (o : table) (pr : store) (M : gmap Z OrderState) : Prop := {
  lg_table : OrderTable.table_ok o;
  lg_store : store_ok pr;
  lg_live : ∀ ref, OrderTable.live o ref = M !! ref;
  lg_order : ∀ ref st, M !! ref = Some st → order_ok pr st;
  lg_level : ∀ loc sd price, good_locate loc → PriceLevelStore.validSide sd = true → fits 32 price →
    level_at pr loc sd price =
    PriceLevelStore.mkLevel (msum (qty_at loc sd price) M) (msum (count_at loc sd price) M) }.

Lemma side_of_valid pr st : order_ok pr st → PriceLevelStore.validSide (side_of st) = true.
Proof. intros H. unfold side_of. destruct (or_side pr st H) as [E | E]; rewrite E; reflexivity. Qed.

Lemma decodeSide_of pr st : order_ok pr st → decodeSide (side st) = side_of st.
Proof. intros H. unfold side_of. destruct (or_side pr st H) as [E | E]; rewrite E; reflexivity. Qed.

Lemma price_of_fits pr st : order_ok pr st → fits 32 (price_of st).
Proof. intros H. exact (join_fits _ _ (or_page pr st H) (or_level pr st H)). Qed.

Lemma price_of_split pr st :
  order_ok pr st → splitPrice (price_of st) = mkParts (price_page_index st) (price_level_index st).
Proof. intros H. exact (split_join_price _ _ (or_page pr st H) (or_level pr st H)). Qed.

Lemma order_ok_mono pr pr' st :
  (∀ a loc price, resolves pr a loc price → resolves pr' a loc price) →
  order_ok pr st → order_ok pr' st.
Proof. intros Hr []. split; try done. by apply Hr. Qed.

(** ** Sums over one level *)

Section level.
Context (pr : store) (M : gmap Z OrderState).
Context (Hok : ∀ ref st, M !! ref = Some st → order_ok pr st).

Lemma sum_bounds loc sd price :
  0 <= msum (count_at loc sd price) M ∧
  msum (count_at loc sd price) M <= msum (qty_at loc sd price) M ∧
  msum (qty_at loc sd price) M <= (2 ^ 32 - 1) * msum (count_at loc sd price) M.
Proof.
  rewrite <- msum_scale. split_and!.
  - apply msum_nonneg. intros. unfold count_at. case_decide; lia.
  - apply msum_le. intros ref st Hst. pose proof (or_qty pr st (Hok ref st Hst)).
    unfold count_at, qty_at. case_decide; lia.
  - apply msum_le. intros ref st Hst. pose proof (or_qty pr st (Hok ref st Hst)).
    unfold count_at, qty_at. case_decide; lia.
Qed.

End level.

(** The level of a live order, split into the order and the rest. *)
Lemma live_level o pr M ref st :
  ledger o pr M → M !! ref = Some st →
  let l := level_at pr (locate st) (side_of st) (price_of st) in
  ∃ q c, PriceLevelStore.total_qty l = qty st + q ∧ PriceLevelStore.order_count l = 1 + c ∧
         0 <= c ∧ c <= q ∧ (c = 0 → q = 0).
Proof.
  intros HL Hst l. pose proof (lg_order o pr M HL ref st Hst) as Ho.
  set (loc := locate st) in *. set (sd := side_of st) in *. set (price := price_of st) in *.
  exists (msum (qty_at loc sd price) (delete ref M)), (msum (count_at loc sd price) (delete ref M)).
  assert (at_level loc sd price st) as Hat by done.
  unfold l. rewrite (lg_level o pr M HL) by
    (done || apply Ho || (by apply (side_of_valid pr)) || (by apply (price_of_fits pr))).
  cbn [PriceLevelStore.total_qty PriceLevelStore.order_count].
  rewrite (msum_delete (qty_at loc sd price) M ref st Hst), (msum_delete (count_at loc sd price) M ref st Hst).
  unfold qty_at at 1, count_at at 1. rewrite !decide_True by done.
  destruct (sum_bounds pr (delete ref M)) with (loc := loc) (sd := sd) (price := price) as (H0&H1&H2).
  { intros r s' Hs. apply (lg_order o pr M HL r). by apply lookup_delete_Some in Hs as [_ ?]. }
  split; [done|]. split; [done|]. split; [done|]. split; [done|]. intros Hc. rewrite Hc in *. lia.
Qed.

Lemma live_erasable o pr M ref st :
  ledger o pr M → M !! ref = Some st →
  erasable (level_at pr (locate st) (side_of st) (price_of st)) (qty st) = Applied.
Proof.
  intros HL Hst. destruct (live_level o pr M ref st HL Hst) as (q&c&Hq&Hc&?&?&?).
  pose proof (or_qty pr st (lg_order o pr M HL ref st Hst)). cbn zeta in *.
  set (l := level_at _ _ _ _) in *. unfold erasable, PriceLevelStore.emptyLevel. rewrite Hq, Hc.
  rewrite !(proj2 (Z.eqb_neq _ 0)), (proj2 (Z.ltb_ge _ _)) by lia. cbn [orb].
  destruct (decide (c = 0)) as [->|Hn].
  - rewrite (proj2 (Z.eqb_eq (1 + 0) 1)), (proj2 (Z.eqb_eq _ (qty st))), (proj2 (Z.ltb_ge 1 (1 + 0))) by lia.
    done.
  - rewrite (proj2 (Z.eqb_neq (1 + c) 1)), (proj2 (Z.eqb_neq _ (qty st))) by lia.
    by rewrite andb_false_r.
Qed.

Lemma live_reducible o pr M ref st r :
  ledger o pr M → M !! ref = Some st → 0 < r < qty st →
  reducible (level_at pr (locate st) (side_of st) (price_of st)) (qty st) r = Applied.
Proof.
  intros HL Hst Hr. destruct (live_level o pr M ref st HL Hst) as (q&c&Hq&Hc&?&?&?).
  pose proof (or_qty pr st (lg_order o pr M HL ref st Hst)). cbn zeta in *.
  set (l := level_at _ _ _ _) in *. unfold reducible, PriceLevelStore.emptyLevel. rewrite Hq, Hc.
  rewrite !(proj2 (Z.eqb_neq _ 0)), (proj2 (Z.leb_gt _ _)), (proj2 (Z.ltb_ge _ _)) by lia. cbn [orb].
  destruct (decide (c = 0)) as [->|Hn].
  - rewrite (proj2 (Z.eqb_eq (1 + 0) 1)), (proj2 (Z.eqb_eq _ (qty st))), (proj2 (Z.ltb_ge 1 (1 + 0))) by lia.
    done.
  - rewrite (proj2 (Z.eqb_neq (1 + c) 1)), (proj2 (Z.eqb_neq _ (qty st))) by lia.
    by rewrite andb_false_r.
Qed.

(** A level below the order-count limit always has room for one more order. *)
Lemma level_room o pr M loc sd price q :
  ledger o pr M → good_locate loc → PriceLevelStore.validSide sd = true → fits 32 price →
  0 < q < 2 ^ 32 →
  addable (level_at pr loc sd price) q =
  if PriceLevelStore.order_count (level_at pr loc sd price) =? max_u32
  then OrderCountOverflow else Applied.
Proof.
  intros HL Hg Hsd Hf Hq. unfold addable. rewrite (proj2 (Z.eqb_neq q 0)) by lia.
  pose proof (level_at_ok pr loc sd price (lg_store o pr M HL) Hg Hsd Hf) as (_&[_ Hc]&_).
  rewrite (lg_level o pr M HL) in * by done. cbn [PriceLevelStore.order_count PriceLevelStore.total_qty] in *.
  destruct (sum_bounds pr M (lg_order o pr M HL) loc sd price) as (H0&H1&H2).
  unfold max_u32, max_u64. destruct (Z.eqb_spec (msum (count_at loc sd price) M) 4294967295); [done|].
  rewrite (proj2 (Z.ltb_ge _ _)); [done|]. lia.
Qed.

(** ** Preservation *)

(** A change of the stores that keeps every address and leads to the levels of
    [M']. *)
Lemma ledger_intro o o' pr pr' M M' :
  ledger o pr M → OrderTable.table_ok o' → store_ok pr' →
  (∀ ref, OrderTable.live o' ref = M' !! ref) →
  (∀ a loc price, resolves pr a loc price → resolves pr' a loc price) →
  (∀ ref st, M' !! ref = Some st → M !! ref = Some st ∨ order_ok pr' st) →
  (∀ loc sd price, good_locate loc → PriceLevelStore.validSide sd = true → fits 32 price →
     level_at pr' loc sd price =
     PriceLevelStore.mkLevel (msum (qty_at loc sd price) M') (msum (count_at loc sd price) M')) →
  ledger o' pr' M'.
Proof.
  intros HL Ht Hs Hlive Hres Hord Hlev. split; try done.
  intros ref st Hst. destruct (Hord ref st Hst) as [Hold|?]; [|done].
  eapply order_ok_mono; [exact Hres|]. by apply (lg_order o pr M HL ref).
Qed.

Lemma qty_at_self st : qty_at (locate st) (side_of st) (price_of st) st = qty st.
Proof. unfold qty_at. by rewrite decide_True. Qed.
Lemma count_at_self st : count_at (locate st) (side_of st) (price_of st) st = 1.
Proof. unfold count_at. by rewrite decide_True. Qed.

(** The abstract level map after a change at the level of one order. *)
Lemma level_at_other loc sd price st :
  ¬ (loc = locate st ∧ sd = side_of st ∧ price = price_of st) →
  qty_at loc sd price st = 0 ∧ count_at loc sd price st = 0.
Proof.
  intros Hn. unfold qty_at, count_at.
  rewrite !decide_False by (unfold at_level; naive_solver). done.
Qed.

(** A new order joins its level. *)
Lemma ledger_add o o' pr pr' M ref st :
  ledger o pr M → M !! ref = None → OrderTable.table_ok o' → store_ok pr' →
  (∀ x, OrderTable.live o' x = <[ref := st]> M !! x) →
  (∀ a loc price, resolves pr a loc price → resolves pr' a loc price) →
  order_ok pr' st →
  let l := level_at pr (locate st) (side_of st) (price_of st) in
  level_update pr pr' (locate st) (side_of st) (price_of st)
    (PriceLevelStore.mkLevel (PriceLevelStore.total_qty l + qty st) (PriceLevelStore.order_count l + 1)) →
  ledger o' pr' (<[ref := st]> M).
Proof.
  intros HL Hn Ht Hs Hlive Hres Hst l Hup. eapply ledger_intro; try done.
  - intros r s'. rewrite lookup_insert. case_decide; [|by left]. intros [= <-]. by right.
  - intros loc sd price Hg Hsd Hf. rewrite (Hup loc sd price) by done.
    rewrite !msum_insert by done. unfold l. case_decide as E.
    + destruct E as (->&->&->). rewrite (lg_level o pr M HL) by done. cbn.
      rewrite qty_at_self, count_at_self. f_equal; lia.
    + destruct (level_at_other loc sd price st E) as [-> ->]. by apply (lg_level o pr M HL).
Qed.

(** A live order leaves its level. *)
Lemma ledger_remove o o' pr pr' M ref st :
  ledger o pr M → M !! ref = Some st → OrderTable.table_ok o' → store_ok pr' →
  (∀ x, OrderTable.live o' x = delete ref M !! x) →
  (∀ a loc price, resolves pr a loc price → resolves pr' a loc price) →
  let l := level_at pr (locate st) (side_of st) (price_of st) in
  level_update pr pr' (locate st) (side_of st) (price_of st)
    (PriceLevelStore.mkLevel (PriceLevelStore.total_qty l - qty st) (PriceLevelStore.order_count l - 1)) →
  ledger o' pr' (delete ref M).
Proof.
  intros HL Hst Ht Hs Hlive Hres l Hup. eapply ledger_intro; try done.
  - intros r s' [_ ?]%lookup_delete_Some. by left.
  - intros loc sd price Hg Hsd Hf. rewrite (Hup loc sd price) by done.
    pose proof (msum_delete (qty_at loc sd price) M ref st Hst) as Hq.
    pose proof (msum_delete (count_at loc sd price) M ref st Hst) as Hc.
    unfold l. case_decide as E.
    + destruct E as (->&->&->). rewrite (lg_level o pr M HL) by done. cbn.
      rewrite qty_at_self in Hq. rewrite count_at_self in Hc. f_equal; lia.
    + destruct (level_at_other loc sd price st E) as [E1 E2].
      rewrite (lg_level o pr M HL) by done. f_equal; lia.
Qed.

(** A live order keeps its level with another quantity. *)
Lemma ledger_resize o o' pr pr' M ref st q :
  ledger o pr M → M !! ref = Some st → OrderTable.table_ok o' → store_ok pr' → 0 < q < 2 ^ 32 →
  (∀ x, OrderTable.live o' x = <[ref := with_qty st q]> M !! x) →
  (∀ a loc price, resolves pr a loc price → resolves pr' a loc price) →
  let l := level_at pr (locate st) (side_of st) (price_of st) in
  level_update pr pr' (locate st) (side_of st) (price_of st)
    (PriceLevelStore.mkLevel (PriceLevelStore.total_qty l - qty st + q) (PriceLevelStore.order_count l)) →
  ledger o' pr' (<[ref := with_qty st q]> M).
Proof.
  intros HL Hst Ht Hs Hq Hlive Hres l Hup. eapply ledger_intro; try done.
  - intros r s'. rewrite lookup_insert. case_decide; [|by left]. intros [= <-]. right.
    pose proof (order_ok_mono pr pr' st Hres (lg_order o pr M HL ref st Hst)) as [].
    by split.
  - intros loc sd price Hg Hsd Hf. rewrite (Hup loc sd price) by done.
    rewrite !(msum_update _ M ref st) by done. unfold l. case_decide as E.
    + destruct E as (->&->&->). rewrite (lg_level o pr M HL) by done. cbn.
      change (qty_at (locate st) (side_of st) (price_of st) (with_qty st q)) with
        (qty_at (locate (with_qty st q)) (side_of (with_qty st q)) (price_of (with_qty st q)) (with_qty st q)).
      change (count_at (locate st) (side_of st) (price_of st) (with_qty st q)) with
        (count_at (locate (with_qty st q)) (side_of (with_qty st q)) (price_of (with_qty st q)) (with_qty st q)).
      rewrite !qty_at_self, !count_at_self. cbn. f_equal; lia.
    + destruct (level_at_other loc sd price st E) as [-> ->].
      destruct (level_at_other loc sd price (with_qty st q) E) as [-> ->].
      rewrite (lg_level o pr M HL) by done. f_equal; lia.
Qed.

(** An order moves, under its reference or a new one, to another level and
    quantity of the same book and side. *)
Lemma ledger_move o o' pr pr' M old new st st' :
  ledger o pr M → M !! old = Some st → new = old ∨ M !! new = None →
  OrderTable.table_ok o' → store_ok pr' →
  (∀ x, OrderTable.live o' x = <[new := st']> (delete old M) !! x) →
  (∀ a loc price, resolves pr a loc price → resolves pr' a loc price) →
  order_ok pr' st' → locate st' = locate st → side st' = side st →
  moved_levels pr pr' (locate st) (side_of st) (price_of st) (price_of st') (qty st) (qty st') →
  ledger o' pr' (<[new := st']> (delete old M)).
Proof.
  intros HL Hst Hnew Ht Hs Hlive Hres Hst' El Esd Hup.
  assert (delete old M !! new = None) as Hn.
  { destruct Hnew as [->|Hn]; [apply lookup_delete_eq|].
    destruct (decide (old = new)) as [->|Hne]; [apply lookup_delete_eq|by rewrite lookup_delete_ne]. }
  assert (side_of st' = side_of st) as Es by (unfold side_of; by rewrite Esd).
  eapply ledger_intro; try done.
  - intros r s'. rewrite lookup_insert. case_decide; [intros [= <-]; by right|].
    intros [_ ?]%lookup_delete_Some. by left.
  - intros loc sd price Hg Hsd Hf. rewrite (Hup loc sd price) by done.
    rewrite !msum_insert by done. rewrite (lg_level o pr M HL) by done. cbn.
    pose proof (msum_delete (qty_at loc sd price) M old st Hst) as Hq.
    pose proof (msum_delete (count_at loc sd price) M old st Hst) as Hc.
    destruct (decide (loc = locate st ∧ sd = side_of st)) as [[-> ->]|E].
    + assert (∀ x, locate x = locate st → side_of x = side_of st →
        qty_at (locate st) (side_of st) price x = if decide (price = price_of x) then qty x else 0) as Hqa.
      { intros x E1 E2. unfold qty_at, at_level. repeat case_decide; naive_solver. }
      assert (∀ x, locate x = locate st → side_of x = side_of st →
        count_at (locate st) (side_of st) price x = if decide (price = price_of x) then 1 else 0) as Hca.
      { intros x E1 E2. unfold count_at, at_level. repeat case_decide; naive_solver. }
      rewrite (Hqa st), (Hca st) in * by done. rewrite (Hqa st'), (Hca st') by done. f_equal; lia.
    + destruct (level_at_other loc sd price st ltac:(naive_solver)) as [E1 E2].
      destruct (level_at_other loc sd price st' ltac:(rewrite El, Es; naive_solver)) as [E1' E2'].
      f_equal; lia.
Qed.

Lemma ledger_extends o pr pr' M : ledger o pr M → extends pr pr' → ledger o pr' M.
Proof.
  intros HL Hex. eapply ledger_intro; try done.
  - apply (lg_table o pr M HL).
  - apply (ex_ok pr pr' Hex).
  - apply (lg_live o pr M HL).
  - apply (ex_resolves pr pr' Hex).
  - intros ref st Hst. by left.
  - intros loc sd price Hg Hsd Hf. rewrite (ex_level pr pr' Hex) by done. by apply (lg_level o pr M HL).
Qed.

Lemma ledger_same_data o pr pr' M :
  ledger o pr M → store_ok pr' → same_data pr pr' → ledger o pr' M.
Proof.
  intros HL Hok Hsd. eapply ledger_intro; try done.
  - apply (lg_table o pr M HL).
  - apply (lg_live o pr M HL).
  - intros a loc price. unfold resolves, root. by rewrite (sd_roots _ _ Hsd).
  - intros ref st Hst. by left.
  - intros loc sd price Hg Hv Hf. rewrite (same_data_level pr pr') by done. by apply (lg_level o pr M HL).
Qed.

(** ** One book over the shared stores *)

Definition here (loc : Z) (st : OrderState) : Z := if decide (locate st = loc) then 1 else 0.

Record env_ok (e : env) (M : gmap Z OrderState) : Prop := {
  ev_ledger : ledger (orders e) (prices e) M;
  ev_valid : local_invalid (book e) = false;
  ev_locate : good_locate (stock_locate (book e));
  ev_symbol : symbol_id (book e) = stock_locate (book e);
  ev_prepared : (PriceLevelStore.prepared_books (prices e)).[stock_locate (book e)] ≠ 0;
  ev_count : live_order_count (book e) = u64 (msum (here (stock_locate (book e))) M) }.

(** A reference that was ever used stays used. *)
Definition keeps_seen (o o' : table) : Prop :=
  ∀ x, OrderTable.record o x ≠ None → OrderTable.record o' x ≠ None.

Lemma keeps_record o o' ref st :
  (∀ x, OrderTable.record o' x = if decide (x = ref) then Some st else OrderTable.record o x) →
  keeps_seen o o'.
Proof. intros Hrec x. rewrite Hrec. by case_decide. Qed.

Lemma keeps_refl o : keeps_seen o o.
Proof. by intros x. Qed.
#[local] Hint Resolve keeps_refl : core.

Lemma keeps_trans o1 o2 o3 : keeps_seen o1 o2 → keeps_seen o2 o3 → keeps_seen o1 o3.
Proof. intros H1 H2 x Hx. by apply H2, H1. Qed.

(** What no mutation of a book changes. *)
Record frame (e e' : env) : Prop := {
  fr_symbol : symbol_id (book e') = symbol_id (book e);
  fr_locate : stock_locate (book e') = stock_locate (book e);
  fr_prepared : ∀ loc, PriceLevelStore.isBookPrepared (prices e') loc =
                       PriceLevelStore.isBookPrepared (prices e) loc;
  fr_seen : keeps_seen (orders e) (orders e');
  fr_books : PriceLevelStore.prepared_book_count (prices e') =
             PriceLevelStore.prepared_book_count (prices e) }.

Lemma frame_refl e : frame e e.
Proof. by split. Qed.
Lemma frame_trans e1 e2 e3 : frame e1 e2 → frame e2 e3 → frame e1 e3.
Proof. intros [] []. split; intros; try congruence. by eapply keeps_trans. Qed.

Lemma prepared_iff pr loc :
  good_locate loc →
  PriceLevelStore.isBookPrepared pr loc = true ↔ (PriceLevelStore.prepared_books pr).[loc] ≠ 0.
Proof.
  intros Hg. unfold PriceLevelStore.isBookPrepared. rewrite (good_locate_valid loc Hg). cbn.
  rewrite negb_true_iff. apply Z.eqb_neq.
Qed.

Lemma env_prepared e M :
  env_ok e M → PriceLevelStore.isBookPrepared (prices e) (stock_locate (book e)) = true.
Proof. intros H. apply prepared_iff; [apply (ev_locate e M H)|apply (ev_prepared e M H)]. Qed.

(** Rejections that do not invalidate the book keep the invariant. *)
Lemma reject_ok e M r :
  invalidating r = false → env_ok e M →
  fst (reject e r) = r ∧ env_ok (snd (reject e r)) M ∧ frame e (snd (reject e r)).
Proof.
  intros Hr []. unfold reject. rewrite Hr. cbn [fst snd]. split; [done|].
  split; [split|split]; by destruct r.
Qed.

Lemma env_extends e pr' M : env_ok e M → extends (prices e) pr' → env_ok (with_prices e pr') M.
Proof.
  intros H Hex. pose proof (env_prepared e M H) as Hp. destruct H. split; try done.
  - by eapply ledger_extends.
  - cbn. apply prepared_iff; [done|]. by rewrite (ex_prepared _ _ Hex).
Qed.

Lemma frame_extends e pr' : extends (prices e) pr' → frame e (with_prices e pr').
Proof. intros Hex. split; try done; [apply (ex_prepared _ _ Hex)|apply (ex_books _ _ Hex)]. Qed.

(** The price's page does not exist and the arena has no page left. *)
Definition no_page (e : env) (price : Z) : Prop :=
  root (prices e) (stock_locate (book e)) (page_index (splitPrice price)) = 0 ∧
  PriceLevelStore.committed_pages (prices e) = PriceLevelStore.page_capacity (prices e).

(** The reference is beyond the direct slots and the fallback table has no free way left
    for it. *)
Definition no_slot (e : env) (id : Z) : Prop :=
  OrderTable.record (orders e) id = None ∧ OrderTable.direct_slots (orders e) <= id ∧
  ∀ b w, OrderTable.in_probes (orders e) id b w →
         wasSeen (OrderTable.state (OrderTable.fallbackEntry (orders e) b w)) = true.

Lemma acquirePage_spec e M price :
  env_ok e M → 0 <= price <= kMaxItchPrice4 →
  (∃ e', acquirePage e price = inl (PricePageCapacityExceeded, e') ∧ env_ok e' M ∧ frame e e' ∧
         no_page e price) ∨
  (∃ r pr', acquirePage e price = inr (r, with_prices e pr') ∧ extends (prices e) pr' ∧
     resolves pr' (PriceLevelStore.rv_address r) (stock_locate (book e)) price ∧
     PriceLevelStore.rv_page_index r = page_index (splitPrice price)).
Proof.
  intros He Hp. pose proof He as [HL Hv Hg Hsym Hprep Hcnt]. unfold kMaxItchPrice4 in Hp.
  assert (fits 32 price) as Hf by (unfold fits; lia).
  pose proof (reserve_price_spec (prices e) _ price (lg_store _ _ _ HL) Hg Hprep Hf) as Hspec.
  unfold acquirePage. rewrite (u32_id price Hf). cbn zeta in Hspec.
  destruct (PriceLevelStore.reservePrice (prices e) (stock_locate (book e)) price) as [r pr1].
  cbn [fst snd] in Hspec. unfold reservation_ok.
  destruct Hspec as [(Er&Hex&Hno)|(Er&Ha&Hpi&Hcommit&Hex&Hres)]; rewrite Er; enum.
  - left. eexists. split; [done|].
    destruct (reject_ok (with_prices e pr1) M PricePageCapacityExceeded) as (_&H1&H2);
      [done|by apply env_extends|].
    split; [exact H1|]. split; [|done]. eapply frame_trans; [by apply frame_extends|exact H2].
  - rewrite Ha. cbn [andb negb prices with_prices]. right.
    destruct (PriceLevelStore.rv_requires_commit r).
    + specialize (Hcommit eq_refl).
      destruct (PriceLevelStore.commitReservation pr1 r) as [pc pr2]. cbn [fst snd] in *. subst pc.
      enum. by exists r, pr2.
    + by exists r, pr1.
Qed.

End BookInv.
