(* ===== verification/BookOps.v ===== *)
(** Every mutation of a book refines the abstract order map: an accepted
    message performs exactly the corresponding map operation, a rejected one
    changes no live order, and the internal-failure results (invariant
    violation, stale reservation, missing level, overflow and underflow) are
    unreachable. *)
From stdpp Require Import base list gmap.
From Stdlib Require Import ZArith Lia.
From S2P Require Import Prelude Bits Bitmap BookTypes Orders Prices PricesInv PricesAdd PricesErase.
From S2P Require Import PricesRead Book BookInv.
#[local] Open Scope Z_scope.
#[local] Open Scope astra_scope.

Module BookOps.
Import OrderBook PriceStoreInv PriceStoreAdd PriceStoreErase PriceStoreRead BookInv.
#[local] Hint Resolve keeps_refl : core.

(** ** The abstract order *)

Record Order := mkO { o_locate : Z; o_side : OrderSide; o_price : Z; o_qty : Z }.

Definition abs (st : OrderState) : Order := mkO (locate st) (side_of st) (price_of st) (qty st).

(** A mutation from [e] and live orders [M] to [e'] and [M']. *)
Definition leads (e e' : env) (M' : gmap Z OrderState) : Prop := env_ok e' M' ∧ frame e e'.

Lemma leads_reject e M r : invalidating r = false → env_ok e M → leads e (snd (reject e r)) M.
Proof. intros Hr He. by destruct (reject_ok e M r Hr He) as (_&?&?). Qed.

(** The outcome of a mutation: the reason for its result, and the effect when
    it was applied; a rejection leaves the live orders as they were. *)
Definition outcome (e : env) (M : gmap Z OrderState) (reason : MutationResult → Prop)
    (effect : env → Prop) (res : MutationResult * env) : Prop :=
  reason (fst res) ∧
  (if bool_decide (fst res = Applied) then effect (snd res) else leads e (snd res) M).

Lemma outcome_reject e e1 M (reason : MutationResult → Prop) effect r :
  invalidating r = false → r ≠ Applied → env_ok e1 M → frame e e1 → reason r →
  outcome e M reason effect (reject e1 r).
Proof.
  intros Hr Hn He Hf Hreason. destruct (leads_reject e1 M r Hr He) as [H1 H2].
  split; [done|]. cbn [fst snd reject]. rewrite (bool_decide_eq_false_2 _ Hn).
  split; [exact H1|]. eapply frame_trans; [exact Hf|exact H2].
Qed.

Lemma outcome_applied e M (reason : MutationResult → Prop) (effect : env → Prop) e' :
  reason Applied → effect e' → outcome e M reason effect (Applied, e').
Proof. intros. split; [done|]. cbn [fst snd]. by enum. Qed.

(** Rebuilding the invariant of a book after its stores changed. *)
Lemma env_rebuild e M b' o' pr' M' :
  env_ok e M → ledger o' pr' M' →
  symbol_id b' = symbol_id (book e) → stock_locate b' = stock_locate (book e) →
  local_invalid b' = false →
  (∀ loc, PriceLevelStore.isBookPrepared pr' loc = PriceLevelStore.isBookPrepared (prices e) loc) →
  live_order_count b' = u64 (msum (here (stock_locate (book e))) M') →
  keeps_seen (orders e) o' →
  PriceLevelStore.prepared_book_count pr' = PriceLevelStore.prepared_book_count (prices e) →
  leads e (mkEnv b' o' pr') M'.
Proof.
  intros He HL Es El Ev Hp Hc Hk Hb. pose proof (env_prepared e M He) as Hprep. destruct He. split; [|done].
  split; cbn; rewrite ?El, ?Es; try done. apply prepared_iff; [done|]. by rewrite Hp.
Qed.

Lemma layout_prepared pr pr' loc :
  same_layout pr pr' → PriceLevelStore.isBookPrepared pr' loc = PriceLevelStore.isBookPrepared pr loc.
Proof. intros []. unfold PriceLevelStore.isBookPrepared. congruence. Qed.

Lemma live_of_record o o' ref st :
  (∀ x, OrderTable.record o' x = if decide (x = ref) then Some st else OrderTable.record o x) →
  ∀ x, OrderTable.live o' x =
       if decide (x = ref) then (if isActive st then Some st else None) else OrderTable.live o x.
Proof. intros H x. unfold OrderTable.live. rewrite H. by case_decide. Qed.

(** ** Adding *)

Definition valid_side_char (c : Z) : Prop := c = 66 ∨ c = 83.

Lemma decode_char_valid c :
  PriceLevelStore.validSide (decodeSideChar c) = true ↔ decodeSideChar c ≠ RawSide 0.
Proof. unfold decodeSideChar. repeat case_if; naive_solver. Qed.

Lemma decode_char_iff c : decodeSideChar c ≠ RawSide 0 ↔ valid_side_char c.
Proof.
  unfold decodeSideChar, valid_side_char.
  destruct (Z.eqb_spec c 66); [naive_solver|]. destruct (Z.eqb_spec c 83); naive_solver.
Qed.

Lemma side_byte_decoded c :
  decodeSideChar c ≠ RawSide 0 →
  side_of_byte (side_byte (decodeSideChar c)) = decodeSideChar c ∧
  (side_byte (decodeSideChar c) = 1 ∨ side_byte (decodeSideChar c) = 2).
Proof. unfold decodeSideChar. repeat case_if; naive_solver. Qed.

(** The record written for an order placed at a resolved address. *)
Lemma newState_ok e pr' qty r sd price :
  resolves pr' (PriceLevelStore.rv_address r) (stock_locate (book e)) price →
  PriceLevelStore.rv_page_index r = page_index (splitPrice price) →
  good_locate (stock_locate (book e)) → 0 < qty < 2 ^ 32 → price <= kMaxItchPrice4 →
  side_of_byte (side_byte sd) = sd → side_byte sd = 1 ∨ side_byte sd = 2 →
  let st := OrderTable.mark (newState e qty r sd) in
  order_ok pr' st ∧ abs st = mkO (stock_locate (book e)) sd price qty.
Proof.
  intros Hres Hpi Hg Hq Hp Hsb Hs st. destruct (OrderTable.mark_bits (newState e qty r sd)) as [Hseen Hact].
  pose proof Hres as (_&Hf&_&_&Hlev). destruct (split_parts price Hf) as [Hpp Hlp].
  assert (price_of st = price) as Epr.
  { unfold price_of, st; cbn. rewrite Hpi, Hlev. by apply join_split. }
  split.
  - split; try done.
    + unfold st; cbn. by rewrite Hpi.
    + unfold st; cbn. by rewrite Hlev.
    + by rewrite Epr.
    + rewrite Epr. unfold addressOf, st; cbn. by destruct (PriceLevelStore.rv_address r).
  - unfold abs. rewrite Epr. unfold st, side_of; cbn. by rewrite Hsb.
Qed.

(** Why an [addOrder] did not apply. *)
Definition add_reason (e : env) (M : gmap Z OrderState) (id price qty c : Z) (r : MutationResult) : Prop :=
  match r with
  | Applied => valid_side_char c ∧ qty ≠ 0 ∧ price <= kMaxItchPrice4 ∧
               OrderTable.record (orders e) id = None
  | InvalidSide => ¬ valid_side_char c
  | InvalidQuantity => qty = 0
  | PriceOutOfRange => kMaxItchPrice4 < price
  | DuplicateOrderRef => OrderTable.record (orders e) id ≠ None
  | OrderTableCapacityExceeded => no_slot e id
  | PricePageCapacityExceeded => no_page e price
  | OrderCountOverflow =>
      msum (count_at (stock_locate (book e)) (decodeSideChar c) price) M = max_u32
  | _ => False
  end.

Lemma u64_add x y : u64 (u64 x + y) = u64 (x + y).
Proof. unfold u64. by rewrite Zplus_mod_idemp_l. Qed.

Lemma live_none e M id : env_ok e M → OrderTable.record (orders e) id = None → M !! id = None.
Proof.
  intros He Hr. rewrite <- (lg_live _ _ _ (ev_ledger e M He)). unfold OrderTable.live. by rewrite Hr.
Qed.

(** The accepted tail of [addOrder]: the level took the order and the table
    published it. *)
Lemma add_applied e M pr1 pr2 o1 id st ts :
  env_ok e M → extends (prices e) pr1 → M !! id = None → order_ok pr1 st →
  locate st = stock_locate (book e) →
  store_ok pr2 → same_layout pr1 pr2 → OrderTable.table_ok o1 →
  (∀ x, OrderTable.record o1 x = if decide (x = id) then Some st else OrderTable.record (orders e) x) →
  let l := level_at pr1 (locate st) (side_of st) (price_of st) in
  level_update pr1 pr2 (locate st) (side_of st) (price_of st)
    (PriceLevelStore.mkLevel (PriceLevelStore.total_qty l + qty st) (PriceLevelStore.order_count l + 1)) →
  leads e (mkEnv (set_timestamp (set_live (book e) (u64 (live_order_count (book e) + 1))) ts) o1 pr2)
    (<[id := st]> M).
Proof.
  intros He Hex Hn Hst Eloc Hok2 Hlay Htab Hrec l Hup.
  pose proof (ledger_extends _ _ pr1 M (ev_ledger e M He) Hex) as HL1.
  pose proof He as [HL Hv Hg Hsym Hprep Hcnt]. eapply (env_rebuild e M); try done.
  - eapply (ledger_add _ _ pr1); try done.
    + intros x. rewrite (live_of_record _ _ _ _ Hrec), (or_active _ _ Hst), lookup_insert.
      destruct (decide (x = id)) as [->|Hne]; [by rewrite decide_True|].
      rewrite decide_False by done. apply (lg_live _ _ _ HL).
    + intros. by eapply same_layout_resolves.
    + eapply order_ok_mono; [|exact Hst]. intros. by eapply same_layout_resolves.
  - intros loc. rewrite (layout_prepared pr1) by done. apply (ex_prepared _ _ Hex).
  - cbn. rewrite Hcnt, u64_add, msum_insert by done. unfold here at 2.
    rewrite decide_True by done. f_equal. lia.
  - by eapply keeps_record.
  - by rewrite (sl_books _ _ Hlay), (ex_books _ _ Hex).
Qed.

Definition add_effect (e : env) (M : gmap Z OrderState) (id price qty c ts : Z) (e' : env) : Prop :=
  ∃ st, abs st = mkO (stock_locate (book e)) (decodeSideChar c) price qty ∧
        leads e e' (<[id := st]> M) ∧ latest_update_timestamp (book e') = ts.

(** The price side and the commit of [addOrder], once the message is valid and
    a slot is reserved. *)
Lemma add_place e M id price qty c ts :
  env_ok e M → 0 <= price <= kMaxItchPrice4 → 0 < qty < 2 ^ 32 → decodeSideChar c ≠ RawSide 0 →
  OrderTable.rs_result (OrderTable.reserve (orders e) id) = Applied →
  OrderTable.record (orders e) id = None →
  outcome e M (add_reason e M id price qty c) (add_effect e M id price qty c ts)
    (addOrder e id price qty c ts).
Proof.
  intros He Hp Hq Ec Er Hnone. pose proof He as [HL Hv Hg Hsym Hprep Hcnt].
  pose proof (proj1 (decode_char_iff c) Ec) as Hc.
  unfold addOrder, isValidItchPrice4, OrderTable.reservation_valid.
  rewrite Hv, (env_prepared e M He), (bool_decide_eq_false_2 _ Ec), Er.
  rewrite (proj2 (Z.eqb_neq qty 0)), (proj2 (Z.leb_le price kMaxItchPrice4)) by lia. enum.
  destruct (acquirePage_spec e M price He Hp) as [(e1&->&He1&Hfr&Hno)|(r&pr1&->&Hex&Hrs&Hpi)].
  { split; [done|]. cbn [fst snd]. enum. by split. }
  pose proof (env_extends e pr1 M He Hex) as He1. pose proof (frame_extends e pr1 Hex) as Hfr1.
  pose proof (ev_ledger _ _ He1) as HL1. cbn [orders prices with_prices] in *.
  set (sd := decodeSideChar c) in *. set (loc := stock_locate (book e)) in *.
  assert (PriceLevelStore.validSide sd = true) as Hsd by (by apply decode_char_valid).
  assert (fits 32 price) as Hf by apply Hrs.
  pose proof (lg_level _ _ _ HL1 loc sd price Hg Hsd Hf) as Elev.
  pose proof (add_spec pr1 _ loc price sd qty (lg_store _ _ _ HL1) Hrs Hsd ltac:(split; lia)) as Hadd.
  pose proof (level_room _ _ _ loc sd price qty HL1 Hg Hsd Hf Hq) as Hroom.
  unfold add_outcome in Hadd. unfold addable in Hroom.
  rewrite (proj2 (Z.eqb_neq qty 0)) in Hadd, Hroom by lia.
  set (l := level_at pr1 loc sd price) in *.
  destruct (Z.eqb_spec (PriceLevelStore.order_count l) max_u32) as [Emax|_].
  { rewrite Hadd. enum. apply outcome_reject; try done. cbn. fold sd loc. by rewrite Elev in Emax. }
  destruct (Z.ltb_spec (max_u64 - qty) (PriceLevelStore.total_qty l)) as [?|_]; [done|].
  destruct (PriceLevelStore.add pr1 _ sd qty) as [lr pr2]. cbn [fst snd] in Hadd.
  destruct Hadd as (->&Hok2&Hlay&Hup). enum.
  cbn [orders prices book with_prices with_orders].
  change (newState (with_prices (with_prices e pr1) pr2) qty r sd) with (newState e qty r sd).
  destruct (side_byte_decoded c Ec) as [Hsb1 Hsb2].
  destruct (newState_ok e pr1 qty r sd price Hrs Hpi Hg Hq ltac:(lia) Hsb1 Hsb2) as [Hst Habs].
  destruct (OrderTable.commit_applied (orders e) id (newState e qty r sd) (lg_table _ _ _ HL) Er)
    as (Hcm&_&Htab&_&Hrec).
  destruct (OrderTable.commit (orders e) _ (newState e qty r sd)) as [oc o1].
  cbn [fst snd] in Hcm, Htab, Hrec. subst oc. enum. set (st := OrderTable.mark _) in *.
  apply outcome_applied; [cbn; split_and!; done || lia|].
  exists st. split; [done|]. split; [|done].
  pose proof (f_equal o_side Habs) as E2. pose proof (f_equal o_price Habs) as E3. cbn in E2, E3.
  apply (add_applied e M pr1 pr2 o1 id st ts); try done.
  - by apply (live_none e M).
  - cbn zeta. rewrite E2, E3. exact Hup.
Qed.

Lemma addOrder_spec e M id price qty c ts :
  env_ok e M → 0 <= price → fits 32 qty →
  outcome e M (add_reason e M id price qty c) (add_effect e M id price qty c ts)
    (addOrder e id price qty c ts).
Proof.
  intros He Hp0 [Hq0 Hq1]. pose proof He as [HL Hv Hg Hsym Hprep Hcnt].
  pose proof (OrderTable.reserve_commit (orders e) id zeroed (lg_table _ _ _ HL)) as Hres.
  cbn zeta in Hres.
  destruct (decide (decodeSideChar c ≠ RawSide 0 ∧ qty ≠ 0 ∧ price <= kMaxItchPrice4 ∧
    OrderTable.rs_result (OrderTable.reserve (orders e) id) = Applied)) as [(Ec&Hq&Hp&Er)|Hbad].
  { rewrite Er in Hres. apply add_place; [done|lia|lia|done|done|apply Hres]. }
  unfold addOrder, isValidItchPrice4, OrderTable.reservation_valid.
  rewrite Hv, (env_prepared e M He). cbn [negb].
  case_bool_decide as Ec.
  { apply outcome_reject; try done. cbn. rewrite <- decode_char_iff. naive_solver. }
  destruct (Z.eqb_spec qty 0) as [->|Hq]; [by apply outcome_reject|].
  destruct (Z.leb_spec price kMaxItchPrice4) as [Hp|Hp]; cbn [negb]; [|by apply outcome_reject].
  case_bool_decide as Er; [naive_solver|]. cbn [negb].
  apply outcome_reject; try done; destruct (OrderTable.rs_result _); unfold add_reason, no_slot; naive_solver.
Qed.

(** ** Existing orders *)

Lemma find_live e M id :
  env_ok e M →
  match OrderTable.findState (orders e) id with
  | None => M !! id = None
  | Some p => M !! id = Some (OrderTable.deref (orders e) p) ∧ OrderTable.holds (orders e) id p
  end.
Proof.
  intros He. pose proof (ev_ledger e M He) as HL. rewrite <- (lg_live _ _ _ HL id).
  rewrite (OrderTable.findState_live _ _ (lg_table _ _ _ HL)).
  destruct (OrderTable.findState (orders e) id) as [p|] eqn:Ep; [|done].
  split; [done|]. by apply (OrderTable.findState_holds _ _ _ (lg_table _ _ _ HL)).
Qed.

Section live_order.
Context (e : env) (M : gmap Z OrderState) (id : Z) (st : OrderState).
Context (He : env_ok e M) (Hst : M !! id = Some st).
Context (Hloc : locate st = stock_locate (book e)).

Lemma live_ok : order_ok (prices e) st.
Proof. apply (lg_order _ _ _ (ev_ledger e M He) id st Hst). Qed.

Lemma live_side : decodeSide (side st) = side_of st ∧ decodeSide (side st) ≠ RawSide 0.
Proof.
  pose proof live_ok as Ho. rewrite (decodeSide_of _ _ Ho). split; [done|].
  pose proof (side_of_valid _ _ Ho). by destruct (side_of st).
Qed.

Lemma live_address : PriceLevelStore.address_valid (addressOf st) = true ∧ price_page_handle st ≠ 0.
Proof.
  pose proof (or_address _ _ live_ok) as (_&_&_&Hn&_). cbn in Hn. split; [|done].
  unfold PriceLevelStore.address_valid, PriceLevelStore.kInvalidPricePageHandle; cbn.
  by rewrite (proj2 (Z.eqb_neq _ 0) Hn).
Qed.

Lemma live_resolves : resolves (prices e) (addressOf st) (stock_locate (book e)) (price_of st).
Proof. rewrite <- Hloc. apply (or_address _ _ live_ok). Qed.

Lemma live_owns :
  PriceLevelStore.ownsAddress (prices e) (stock_locate (book e)) (price_page_index st) (addressOf st) = true.
Proof.
  pose proof live_ok as Ho. pose proof live_resolves as Hr.
  destruct (resolves_owned _ _ _ _ (lg_store _ _ _ (ev_ledger e M He)) Hr) as [Hown _].
  rewrite (price_of_split _ _ Ho) in Hown. cbn [page_index] in Hown.
  unfold PriceLevelStore.ownsAddress. rewrite (good_locate_valid _ (ev_locate e M He)). cbn [negb].
  rewrite (owned_owner _ _ _ _ Hown). unfold PriceLevelStore.ownedBy.
  cbn [PriceLevelStore.ow_committed PriceLevelStore.ow_stock_locate PriceLevelStore.ow_page_index].
  by rewrite !Z.eqb_refl.
Qed.

(** The guards every mutation of an existing order runs through. *)
Lemma live_guard :
  bool_decide (decodeSide (side st) = RawSide 0) || (qty st =? 0) ||
  negb (PriceLevelStore.address_valid (addressOf st)) = false.
Proof.
  destruct live_side as [_ Hs]. destruct live_address as [-> _].
  rewrite (bool_decide_eq_false_2 _ Hs), (proj2 (Z.eqb_neq (qty st) 0)); [done|].
  pose proof (or_qty _ _ live_ok). lia.
Qed.

Lemma here_live M' : M' = delete id M →
  msum (here (stock_locate (book e))) M = 1 + msum (here (stock_locate (book e))) M'.
Proof.
  intros ->. rewrite (msum_delete _ M id st Hst). unfold here at 1. by rewrite decide_True.
Qed.

Context (p : OrderTable.slot) (Hp : OrderTable.holds (orders e) id p).
Context (Hd : OrderTable.deref (orders e) p = st).

Lemma reduceOrder_spec r ts :
  0 < r < qty st →
  ∃ e', reduceOrder e p st (decodeSide (side st)) r ts = (Applied, e') ∧
    leads e e' (<[id := with_qty st (qty st - r)]> M) ∧ latest_update_timestamp (book e') = ts.
Proof.
  intros Hr. pose proof live_ok as Ho. pose proof (ev_ledger e M He) as HL.
  pose proof He as [_ Hv Hg Hsym Hprep Hcnt]. pose proof (or_qty _ _ Ho) as Hq.
  destruct live_side as [Esd _]. rewrite Esd. unfold reduceOrder. rewrite <- Hloc.
  pose proof (reduceChecked_spec (prices e) (addressOf st) (locate st) (price_of st) (side_of st)
    (qty st) r (lg_store _ _ _ HL) (or_address _ _ Ho) (side_of_valid _ _ Ho) ltac:(lia)) as Hred.
  rewrite (price_of_split _ _ Ho) in Hred. cbn [page_index] in Hred. unfold reduce_outcome in Hred.
  rewrite (live_reducible _ _ _ id st r HL Hst ltac:(lia)) in Hred.
  destruct (PriceLevelStore.reduceChecked _ _ _ _ _ _ _) as [rr pr']. cbn [fst snd] in Hred.
  destruct Hred as [-> Hred]. rewrite bool_decide_eq_true_2 in Hred by done.
  destruct Hred as (Hok'&Hlay&Hup). enum. eexists. split; [done|]. split; [|done].
  cbn [orders with_prices]. rewrite u32_id by (split; lia).
  set (st' := with_qty st (qty st - r)).
  assert (wasSeen st' = true) as Hseen by apply (or_seen _ _ Ho).
  apply (env_rebuild e M); try done.
  - eapply (ledger_resize _ _ (prices e) _ _ id st (qty st - r)); try done.
    + by apply (OrderTable.store_ok _ id), Hseen; [apply (lg_table _ _ _ HL)|].
    + lia.
    + intros x. rewrite (live_of_record _ _ _ _ (λ x, OrderTable.record_store _ id p st' x
        (lg_table _ _ _ HL) Hp Hseen)). rewrite lookup_insert.
      assert (isActive st' = true) as -> by apply (or_active _ _ Ho).
      destruct (decide (x = id)) as [->|Hne]; [by rewrite decide_True|].
      rewrite decide_False by done. apply (lg_live _ _ _ HL).
    + intros. by eapply same_layout_resolves.
    + cbn zeta. by replace (_ - qty st + (qty st - r)) with
        (PriceLevelStore.total_qty (level_at (prices e) (locate st) (side_of st) (price_of st)) - r)
        by lia.
  - intros loc. by apply layout_prepared.
  - cbn. rewrite Hcnt. f_equal. rewrite (msum_update _ M id st) by done.
    unfold here. cbn. lia.
  - eapply keeps_record. intros x. by apply (OrderTable.record_store _ id p st' x (lg_table _ _ _ HL)).
  - apply (sl_books _ _ Hlay).
Qed.

Lemma removeOrder_spec ts :
  ∃ e', removeOrder e p st (decodeSide (side st)) ts = (Applied, e') ∧
    leads e e' (delete id M) ∧ latest_update_timestamp (book e') = ts.
Proof.
  pose proof live_ok as Ho. pose proof (ev_ledger e M He) as HL.
  pose proof He as [_ Hv Hg Hsym Hprep Hcnt]. pose proof (or_qty _ _ Ho) as Hq.
  destruct live_side as [Esd _]. rewrite Esd. unfold removeOrder.
  pose proof (erase_spec (prices e) (addressOf st) (locate st) (price_of st) (side_of st) (qty st)
    (lg_store _ _ _ HL) (or_address _ _ Ho) (side_of_valid _ _ Ho) ltac:(lia)) as Her.
  unfold erase_outcome in Her. rewrite (live_erasable _ _ _ id st HL Hst) in Her.
  destruct (PriceLevelStore.erase _ _ _ _) as [rr pr']. cbn [fst snd] in Her.
  destruct Her as [-> Her]. rewrite bool_decide_eq_true_2 in Her by done.
  destruct Her as (Hok'&Hlay&Hup). enum. cbn [orders with_prices OrderTable.erase].
  rewrite Hd, (or_active _ _ Ho). cbn [negb]. enum. eexists. split; [done|]. split; [|done].
  apply (env_rebuild e M); try done.
  - eapply (ledger_remove _ _ (prices e) _ _ id st); try done.
    + by apply (OrderTable.store_ok _ id); [apply (lg_table _ _ _ HL)|..].
    + intros x. rewrite (live_of_record _ _ _ _ (λ x, OrderTable.record_store _ id p
        OrderTable.tombstone x (lg_table _ _ _ HL) Hp eq_refl)).
      change (isActive OrderTable.tombstone) with false. cbn match.
      destruct (decide (x = id)) as [->|Hne]; [by rewrite lookup_delete_eq|].
      rewrite lookup_delete_ne by done. apply (lg_live _ _ _ HL).
    + intros. by eapply same_layout_resolves.
  - intros loc. by apply layout_prepared.
  - cbn. rewrite Hcnt. unfold Z.sub. rewrite u64_add. f_equal.
    rewrite (here_live (delete id M) eq_refl). lia.
  - eapply keeps_record. intros x.
    by apply (OrderTable.record_store _ id p OrderTable.tombstone x (lg_table _ _ _ HL)).
  - apply (sl_books _ _ Hlay).
Qed.

Lemma validateState_live :
  validateState e (Some p) = inr p.
Proof.
  unfold validateState. rewrite Hd, Hloc, Z.eqb_refl. cbn [negb].
  destruct live_side as [_ Hs]. destruct live_address as [_ Hn].
  unfold PriceLevelStore.kInvalidPricePageHandle.
  rewrite (bool_decide_eq_false_2 _ Hs), (proj2 (Z.eqb_neq (qty st) 0)), (proj2 (Z.eqb_neq _ 0) Hn).
  2: { pose proof (or_qty _ _ live_ok). lia. }
  by rewrite live_owns.
Qed.

End live_order.

(** An order reference with a live order of this book. *)
Definition owned_order (e : env) (M : gmap Z OrderState) (id : Z) (st : OrderState) : Prop :=
  M !! id = Some st ∧ locate st = stock_locate (book e).

Definition foreign_order (e : env) (M : gmap Z OrderState) (id : Z) : Prop :=
  ∃ st, M !! id = Some st ∧ locate st ≠ stock_locate (book e).

Definition cancel_reason (e : env) (M : gmap Z OrderState) (id c : Z) (r : MutationResult) : Prop :=
  match r with
  | Applied => ∃ st, owned_order e M id st ∧ 0 < c < qty st
  | InvalidQuantity => c = 0
  | OrderNotFound => M !! id = None
  | LocateMismatch => foreign_order e M id
  | QuantityExceeded => ∃ st, owned_order e M id st ∧ qty st <= c
  | _ => False
  end.

Definition resize_effect (e : env) (M : gmap Z OrderState) (id q ts : Z) (e' : env) : Prop :=
  ∃ st, owned_order e M id st ∧ leads e e' (<[id := with_qty st (qty st - q)]> M) ∧
        latest_update_timestamp (book e') = ts.

Lemma cancelShares_spec e M id c ts :
  env_ok e M → fits 32 c →
  outcome e M (cancel_reason e M id c) (resize_effect e M id c ts) (cancelShares e id c ts).
Proof.
  intros He [Hc0 _]. pose proof (find_live e M id He) as Hf. unfold cancelShares.
  rewrite (ev_valid e M He). destruct (Z.eqb_spec c 0) as [->|Hc]; [by apply outcome_reject|].
  destruct (OrderTable.findState (orders e) id) as [p|]; [|by apply outcome_reject].
  destruct Hf as [Hst Hp]. set (st := OrderTable.deref (orders e) p) in *.
  destruct (Z.eqb_spec (locate st) (stock_locate (book e))) as [Hl|Hl]; cbn [negb].
  2: { apply outcome_reject; try done. by exists st. }
  rewrite (live_guard e M id st He Hst), (live_owns e M id st He Hst Hl). cbn [negb].
  destruct (Z.leb_spec (qty st) c) as [Hle|Hlt].
  { apply outcome_reject; try done. by exists st. }
  destruct (reduceOrder_spec e M id st He Hst Hl p Hp c ts ltac:(lia)) as (e'&->&Hld&Hts).
  apply outcome_applied; [exists st; split; [done|lia]|]. by exists st.
Qed.

Definition delete_reason (e : env) (M : gmap Z OrderState) (id : Z) (r : MutationResult) : Prop :=
  match r with
  | Applied => ∃ st, owned_order e M id st
  | OrderNotFound => M !! id = None
  | LocateMismatch => foreign_order e M id
  | _ => False
  end.

Definition remove_effect (e : env) (M : gmap Z OrderState) (id ts : Z) (e' : env) : Prop :=
  leads e e' (delete id M) ∧ latest_update_timestamp (book e') = ts.

(** [validateState] on the result of a lookup: the live order, or a rejection. *)
Lemma validate_lookup e M id :
  env_ok e M →
  match validateState e (OrderTable.findState (orders e) id) with
  | inr p => let st := OrderTable.deref (orders e) p in
             owned_order e M id st ∧ OrderTable.holds (orders e) id p
  | inl res => res = reject e OrderNotFound ∧ M !! id = None ∨
               res = reject e LocateMismatch ∧ foreign_order e M id
  end.
Proof.
  intros He. pose proof (find_live e M id He) as Hf.
  destruct (OrderTable.findState (orders e) id) as [p|]; [|by left].
  destruct Hf as [Hst Hp]. set (st := OrderTable.deref (orders e) p) in *.
  destruct (Z.eqb_spec (locate st) (stock_locate (book e))) as [Hl|Hl].
  - rewrite (validateState_live e M id st He Hst Hl p eq_refl). done.
  - cbn. fold st. rewrite (proj2 (Z.eqb_neq _ _) Hl). right. split; [done|]. by exists st.
Qed.

Lemma deleteOrder_spec e M id ts :
  env_ok e M →
  outcome e M (delete_reason e M id) (remove_effect e M id ts) (deleteOrder e id ts).
Proof.
  intros He. pose proof (validate_lookup e M id He) as Hv. unfold deleteOrder.
  rewrite (ev_valid e M He).
  destruct (validateState e (OrderTable.findState (orders e) id)) as [res|p].
  - destruct Hv as [[-> ?]|[-> ?]]; by apply outcome_reject.
  - cbn zeta in Hv. set (st := OrderTable.deref (orders e) p) in *. destruct Hv as [[Hst Hl] Hp].
    destruct (removeOrder_spec e M id st He Hst Hl p Hp eq_refl ts) as (e'&->&Hld&Hts).
    apply outcome_applied; [by exists st|done].
Qed.

Definition execute_reason (e : env) (M : gmap Z OrderState) (id x : Z) (r : MutationResult) : Prop :=
  match r with
  | Applied => ∃ st, owned_order e M id st ∧ 0 < x <= qty st
  | InvalidQuantity => x = 0
  | OrderNotFound => M !! id = None
  | LocateMismatch => foreign_order e M id
  | QuantityExceeded => ∃ st, owned_order e M id st ∧ qty st < x
  | _ => False
  end.

(** Executing a quantity leaves the rest of the order, or removes it. *)
Definition execute_effect (e : env) (M : gmap Z OrderState) (id x ts : Z) (e' : env) : Prop :=
  ∃ st, owned_order e M id st ∧ latest_update_timestamp (book e') = ts ∧
    leads e e' (if x =? qty st then delete id M else <[id := with_qty st (qty st - x)]> M).

Lemma executeOrder_spec e M id x ts :
  env_ok e M → fits 32 x →
  outcome e M (execute_reason e M id x) (execute_effect e M id x ts) (executeOrder e id x ts).
Proof.
  intros He [Hx0 _]. pose proof (find_live e M id He) as Hf. unfold executeOrder.
  rewrite (ev_valid e M He). destruct (Z.eqb_spec x 0) as [->|Hx]; [by apply outcome_reject|].
  destruct (OrderTable.findState (orders e) id) as [p|]; [|by apply outcome_reject].
  destruct Hf as [Hst Hp]. set (st := OrderTable.deref (orders e) p) in *.
  destruct (Z.eqb_spec (locate st) (stock_locate (book e))) as [Hl|Hl]; cbn [negb].
  2: { apply outcome_reject; try done. by exists st. }
  rewrite (live_guard e M id st He Hst), (live_owns e M id st He Hst Hl). cbn [negb].
  destruct (Z.ltb_spec (qty st) x) as [Hlt|Hle].
  { apply outcome_reject; try done. by exists st. }
  destruct (Z.eqb_spec x (qty st)) as [E|E].
  - destruct (removeOrder_spec e M id st He Hst Hl p Hp eq_refl ts) as (e'&->&Hld&Hts).
    apply outcome_applied; [exists st; split; [done|lia]|].
    exists st. split; [done|]. split; [done|]. by rewrite (proj2 (Z.eqb_eq _ _) E).
  - destruct (reduceOrder_spec e M id st He Hst Hl p Hp x ts ltac:(lia)) as (e'&->&Hld&Hts).
    apply outcome_applied; [exists st; split; [done|lia]|].
    exists st. split; [done|]. split; [done|]. by rewrite (proj2 (Z.eqb_neq _ _) E).
Qed.

(** ** Replacing *)

(** A live order can always move inside its book and side, unless the
    destination level already has as many orders as its counter can hold. *)
Lemma live_movable o pr M id st new nq :
  ledger o pr M → M !! id = Some st → fits 32 new → 0 < nq < 2 ^ 32 →
  movable pr (locate st) (side_of st) (price_of st) new (qty st) nq =
  if (price_of st =? new) || negb (PriceLevelStore.order_count
        (level_at pr (locate st) (side_of st) new) =? max_u32)
  then Applied else OrderCountOverflow.
Proof.
  intros HL Hst Hf Hnq. pose proof (lg_order _ _ _ HL id st Hst) as Ho.
  unfold movable. rewrite (proj2 (Z.eqb_neq nq 0)) by lia.
  rewrite (live_erasable _ _ _ id st HL Hst). enum.
  destruct (Z.eqb_spec (price_of st) new) as [<-|Hne]; cbn [orb].
  - rewrite (proj2 (Z.ltb_ge _ _)); [done|].
    pose proof (level_at_ok pr _ _ _ (lg_store _ _ _ HL) (or_locate _ _ Ho) (side_of_valid _ _ Ho)
      (price_of_fits _ _ Ho)) as (_&[_ Hc]&_).
    rewrite (lg_level _ _ _ HL) in * by (apply Ho || (by apply (side_of_valid pr)) || (by apply (price_of_fits pr))).
    cbn [PriceLevelStore.total_qty PriceLevelStore.order_count] in *.
    destruct (sum_bounds pr M (lg_order _ _ _ HL) (locate st) (side_of st) (price_of st)) as (?&?&?).
    pose proof (or_qty _ _ Ho). unfold max_u64. lia.
  - rewrite (level_room _ _ _ (locate st) (side_of st) new nq HL) by
      (apply Ho || done || (by apply (side_of_valid pr))).
    by case_if.
Qed.

Definition replace_reason (e : env) (M : gmap Z OrderState) (old new price nq : Z)
    (r : MutationResult) : Prop :=
  match r with
  | Applied => (∃ st, owned_order e M old st) ∧ nq ≠ 0 ∧ price <= kMaxItchPrice4 ∧
               (new = old ∨ OrderTable.record (orders e) new = None)
  | InvalidQuantity => nq = 0
  | PriceOutOfRange => kMaxItchPrice4 < price
  | OrderNotFound => M !! old = None
  | LocateMismatch => foreign_order e M old
  | DuplicateOrderRef => new ≠ old ∧ OrderTable.record (orders e) new ≠ None
  | OrderTableCapacityExceeded => new ≠ old ∧ no_slot e new
  | PricePageCapacityExceeded => no_page e price
  | OrderCountOverflow => ∃ st, owned_order e M old st ∧
      msum (count_at (locate st) (side_of st) price) M = max_u32
  | _ => False
  end.

Definition replace_effect (e : env) (M : gmap Z OrderState) (old new price nq ts : Z) (e' : env) : Prop :=
  ∃ st st', owned_order e M old st ∧ abs st' = mkO (locate st) (side_of st) price nq ∧
    leads e e' (<[new := st']> (delete old M)) ∧ latest_update_timestamp (book e') = ts.

Lemma here_replaced (M : gmap Z OrderState) old new st st' loc :
  M !! old = Some st → new = old ∨ M !! new = None → locate st' = locate st →
  msum (here loc) (<[new := st']> (delete old M)) = msum (here loc) M.
Proof.
  intros Hst Hnew El. rewrite (msum_delete _ M old st Hst), msum_insert.
  - unfold here. by rewrite El.
  - destruct Hnew as [->|Hn]; [apply lookup_delete_eq|].
    destruct (decide (old = new)) as [->|]; [apply lookup_delete_eq|by rewrite lookup_delete_ne].
Qed.

(** Rebuilding after the price move: the table holds [st'] under [new] and no
    live order under [old] unless they are the same. *)
Lemma replace_applied e M pr1 pr2 o2 old new st st' ts :
  env_ok e M → extends (prices e) pr1 → owned_order e M old st → new = old ∨ M !! new = None →
  order_ok pr1 st' → locate st' = locate st → side st' = side st →
  store_ok pr2 → same_layout pr1 pr2 → OrderTable.table_ok o2 →
  (∀ x, OrderTable.live o2 x = <[new := st']> (delete old M) !! x) →
  moved_levels pr1 pr2 (locate st) (side_of st) (price_of st) (price_of st') (qty st) (qty st') →
  keeps_seen (orders e) o2 →
  leads e (mkEnv (set_timestamp (book e) ts) o2 pr2) (<[new := st']> (delete old M)).
Proof.
  intros He Hex [Hst Hl] Hnew Hst' El Es Hok2 Hlay Htab Hlive Hmv Hk.
  pose proof (ledger_extends _ _ pr1 M (ev_ledger e M He) Hex) as HL1.
  apply (env_rebuild e M); try done.
  - eapply (ledger_move (orders e) _ pr1 _ _ old new st st'); try done.
    + intros. by eapply same_layout_resolves.
    + eapply order_ok_mono; [|exact Hst']. intros. by eapply same_layout_resolves.
  - apply (ev_valid e M He).
  - intros loc. rewrite (layout_prepared pr1) by done. apply (ex_prepared _ _ Hex).
  - cbn. rewrite (here_replaced M old new st st') by done. apply (ev_count e M He).
  - by rewrite (sl_books _ _ Hlay), (ex_books _ _ Hex).
Qed.

(** The placement of a replacement: everything [replaceOrder] does once the old
    order is found, the new reference reserved and the page acquired. *)
Section replacement.
Context (e : env) (M : gmap Z OrderState) (old new price nq ts : Z) (st : OrderState).
Context (He : env_ok e M) (Hst : owned_order e M old st) (Hnq : 0 < nq < 2 ^ 32).
Context (Hprice : price <= kMaxItchPrice4).
Context (p : OrderTable.slot) (Hp : OrderTable.holds (orders e) old p).
Context (Hd : OrderTable.deref (orders e) p = st).
Context (r : PriceLevelStore.PricePageReservation) (pr1 : PriceLevelStore.t).
Context (Hex : extends (prices e) pr1).
Context (Hrs : resolves pr1 (PriceLevelStore.rv_address r) (stock_locate (book e)) price).
Context (Hpi : PriceLevelStore.rv_page_index r = page_index (splitPrice price)).

Lemma repl_order_ok : order_ok pr1 st ∧ ledger (orders e) pr1 M.
Proof.
  pose proof (ledger_extends _ _ pr1 M (ev_ledger e M He) Hex) as HL1.
  split; [|done]. apply (lg_order _ _ _ HL1 old), Hst.
Qed.

(** The move of the price store, in the terms of the old order. *)
Lemma repl_move :
  let res := PriceLevelStore.move pr1 (addressOf st) (qty st) (PriceLevelStore.rv_address r) nq
               (side_of st) in
  (fst res = Applied ∧ store_ok (snd res) ∧ same_layout pr1 (snd res) ∧
   moved_levels pr1 (snd res) (locate st) (side_of st) (price_of st) price (qty st) nq) ∨
  (res = (OrderCountOverflow, pr1) ∧ msum (count_at (locate st) (side_of st) price) M = max_u32).
Proof.
  destruct repl_order_ok as [Ho HL1]. pose proof (or_qty _ _ Ho) as Hq. destruct Hst as [Hm Hl].
  assert (fits 32 price) as Hf by apply Hrs. pose proof Hrs as Hrs'. rewrite <- Hl in Hrs'.
  pose proof (move_spec pr1 (addressOf st) (PriceLevelStore.rv_address r) (locate st) (side_of st)
    (price_of st) price (qty st) nq (lg_store _ _ _ HL1) (or_address _ _ Ho) Hrs'
    (side_of_valid _ _ Ho) ltac:(split; lia) ltac:(split; lia)) as Hmv.
  unfold move_outcome in Hmv. rewrite (live_movable _ _ _ old st price nq HL1 Hm Hf Hnq) in Hmv.
  rewrite (lg_level _ _ _ HL1 (locate st) (side_of st) price) in Hmv
    by (apply Ho || done || (by apply (side_of_valid pr1))).
  cbn [PriceLevelStore.order_count] in Hmv. cbn zeta.
  destruct (PriceLevelStore.move _ _ _ _ _ _) as [mr pr2]. cbn [fst snd] in *.
  destruct (Z.eqb_spec (price_of st) price) as [E|E]; cbn [orb] in Hmv.
  { destruct Hmv as [-> Hmv]. rewrite bool_decide_eq_true_2 in Hmv by done. left. tauto. }
  destruct (Z.eqb_spec (msum (count_at (locate st) (side_of st) price) M) max_u32) as [Em|Em];
    cbn [negb] in Hmv; destruct Hmv as [-> Hmv].
  - right. rewrite bool_decide_eq_false_2 in Hmv by done. by rewrite Hmv.
  - left. rewrite bool_decide_eq_true_2 in Hmv by done. tauto.
Qed.

(** The record kept in place when the reference does not change. *)
Lemma movedState_ok :
  order_ok pr1 (movedState st nq r) ∧
  abs (movedState st nq r) = mkO (locate st) (side_of st) price nq.
Proof.
  destruct repl_order_ok as [Ho _]. destruct Hst as [_ Hl].
  pose proof Hrs as (_&Hf&_&_&Hlev). destruct (split_parts price Hf) as [Hpp Hlp].
  assert (price_of (movedState st nq r) = price) as Epr.
  { unfold price_of, movedState; cbn. rewrite Hpi, Hlev. by apply join_split. }
  split; [|unfold abs; by rewrite Epr]. destruct Ho. split; try done.
  - unfold movedState; cbn. by rewrite Hpi.
  - unfold movedState; cbn. by rewrite Hlev.
  - by rewrite Epr.
  - rewrite Epr. cbn. rewrite Hl. unfold addressOf; cbn. by destruct (PriceLevelStore.rv_address r).
Qed.

Lemma replace_in_place e1 :
  e1 = with_prices e pr1 → new = old →
  outcome e M (replace_reason e M old new price nq) (replace_effect e M old new price nq ts)
    (let '(move_result, prices1) :=
       PriceLevelStore.move (prices e1) (addressOf st) (qty st)
         (PriceLevelStore.rv_address r) nq (decodeSide (side st)) in
     let e2 := with_prices e1 prices1 in
     if negb (bool_decide (move_result = Applied)) then reject e2 move_result else
     let e3 := with_orders e2 (OrderTable.store (orders e2) p (movedState st nq r)) in
     (Applied, with_book e3 (set_timestamp (book e3) ts))).
Proof.
  intros -> Enew. destruct repl_order_ok as [Ho HL1]. pose proof (ev_ledger e M He) as HL.
  rewrite (decodeSide_of _ _ Ho). cbn [prices with_prices].
  destruct movedState_ok as [Hst' Habs].
  pose proof (f_equal o_price Habs) as Epr. cbn in Epr.
  destruct repl_move as [(Hm1&Hm2&Hm3&Hm4)|[Hm1 Hm2]].
  2: { rewrite Hm1. enum. apply outcome_reject; try done.
       - exact (env_extends e pr1 M He Hex).
       - exact (frame_extends e pr1 Hex).
       - by exists st. }
  destruct (PriceLevelStore.move _ _ _ _ _ _) as [mr pr2]. cbn [fst snd] in *. subst mr. enum.
  apply outcome_applied; [cbn; split_and!; (by eauto) || lia|].
  exists st, (movedState st nq r). split; [done|]. split; [done|]. split; [|done].
  cbn [orders book with_prices with_orders].
  pose proof (or_seen _ _ Hst') as Hseen. pose proof (or_active _ _ Hst') as Hact.
  apply (replace_applied e M pr1 pr2 _ old new st (movedState st nq r)); try done.
  - by left.
  - by apply (OrderTable.store_ok _ old); [apply (lg_table _ _ _ HL)|..].
  - intros x. rewrite (live_of_record _ _ _ _ (λ x, OrderTable.record_store _ old p _ x
      (lg_table _ _ _ HL) Hp Hseen)). rewrite Hact, Enew, lookup_insert.
    destruct (decide (x = old)) as [->|Hne]; [by rewrite decide_True|].
    rewrite decide_False, lookup_delete_ne by done. apply (lg_live _ _ _ HL).
  - cbn [qty movedState]. rewrite Epr. done.
  - eapply keeps_record. intros x. by apply (OrderTable.record_store _ old p _ x (lg_table _ _ _ HL)).
Qed.

(** The table half of a replacement under a new reference. *)
Lemma replace_new_ref :
  new ≠ old → OrderTable.rs_result (OrderTable.reserve (orders e) new) = Applied →
  OrderTable.record (orders e) new = None →
  let e1 := with_prices e pr1 in
  let res := OrderTable.commit (orders e) (OrderTable.reserve (orders e) new)
               (newState e1 nq r (side_of st)) in
  fst res = Applied ∧
  outcome e M (replace_reason e M old new price nq) (replace_effect e M old new price nq ts)
    (replaceMove (with_orders e1 (snd res)) p st new nq r (side_of st) ts).
Proof.
  intros Hne Er Hnone e1 res. destruct repl_order_ok as [Ho HL1].
  pose proof (ev_ledger e M He) as HL. destruct Hst as [Hm Hl].
  pose proof (OrderTable.commit_applied (orders e) new (newState e1 nq r (side_of st))
    (lg_table _ _ _ HL) Er) as (Hcm&_&Htab&_&Hrec). fold res in Hcm, Htab, Hrec.
  destruct (OrderTable.commit_keeps (orders e) new (newState e1 nq r (side_of st)) old p
    (lg_table _ _ _ HL) Er ltac:(done) Hp) as [Hp1 Hd1]. fold res in Hp1, Hd1. rewrite Hd in Hd1.
  assert (side_byte (side_of st) = side st ∧ side_of_byte (side_byte (side_of st)) = side_of st) as [Esb Esb'].
  { unfold side_of. by destruct (or_side _ _ Ho) as [E|E]; rewrite E. }
  destruct (newState_ok e pr1 nq r (side_of st) price Hrs Hpi (ev_locate e M He) Hnq Hprice Esb'
    ltac:(rewrite Esb; apply Ho)) as [Hst' Habs].
  change (newState e nq r (side_of st)) with (newState e1 nq r (side_of st)) in *.
  set (st' := OrderTable.mark (newState e1 nq r (side_of st))) in *.
  pose proof (f_equal o_price Habs) as Epr. cbn in Epr.
  pose proof (or_active _ _ Hst') as Hact.
  split; [done|]. unfold replaceMove. cbn [orders prices book with_prices with_orders e1].
  destruct repl_move as [(Hm1&Hm2&Hm3&Hm4)|[Hm1 Hm2]].
  - destruct (PriceLevelStore.move _ _ _ _ _ _) as [mr pr2]. cbn [fst snd] in *. subst mr. enum.
    cbn [OrderTable.erase]. rewrite Hd1, (or_active _ _ Ho). cbn [negb]. enum.
    apply outcome_applied; [cbn; split_and!; (by eauto) || lia|].
    exists st, st'. split; [done|]. split; [by rewrite Hl|]. split; [|done].
    apply (replace_applied e M pr1 pr2 _ old new st st'); try done.
    + right. by apply (live_none e M).
    + by apply (OrderTable.store_ok _ old).
    + intros x. rewrite (live_of_record _ _ _ _ (λ x, OrderTable.record_store _ old p
        OrderTable.tombstone x Htab Hp1 eq_refl)).
      change (isActive OrderTable.tombstone) with false. cbn match.
      rewrite (live_of_record _ _ _ _ Hrec), Hact, lookup_insert.
      destruct (decide (x = old)) as [->|Hxo].
      * rewrite decide_False by done. by rewrite lookup_delete_eq.
      * destruct (decide (x = new)) as [->|Hxn]; [by rewrite decide_True|].
        rewrite decide_False, lookup_delete_ne by done. apply (lg_live _ _ _ HL).
    + cbn zeta. rewrite Epr. done.
    + eapply keeps_trans; [by eapply keeps_record|]. eapply keeps_record. intros x.
      by apply (OrderTable.record_store _ old p OrderTable.tombstone x Htab).
  - rewrite Hm1. enum. cbn [orders with_orders with_prices].
    assert (OrderTable.live (snd res) new = Some st') as Hln.
    { rewrite (live_of_record _ _ _ _ Hrec), Hact. by rewrite decide_True. }
    destruct (OrderTable.eraseRef_live _ _ _ Htab Hln) as (Her&Htab2&Hrec2).
    destruct (OrderTable.eraseRef (snd res) new) as [er o2]. cbn [fst snd] in *. subst er. enum.
    assert (ledger o2 pr1 M) as HL2.
    { destruct HL1. split; try done. intros x. rewrite (live_of_record _ _ _ _ Hrec2).
      change (isActive OrderTable.tombstone) with false. cbn match.
      rewrite (live_of_record _ _ _ _ Hrec). destruct (decide (x = new)) as [->|Hxn].
      - symmetry. by apply (live_none e M).
      - apply (lg_live _ _ _ HL). }
    pose proof (env_extends e pr1 M He Hex) as He1.
    apply outcome_reject; try done.
    + destruct He1. by split.
    + pose proof (frame_extends e pr1 Hex) as []. split; try done. cbn [orders with_orders].
      eapply keeps_trans; by eapply keeps_record.
    + by exists st.
Qed.

End replacement.

Lemma replaceOrder_spec e M old new price nq ts :
  env_ok e M → 0 <= price → fits 32 nq →
  outcome e M (replace_reason e M old new price nq) (replace_effect e M old new price nq ts)
    (replaceOrder e old new price nq ts).
Proof.
  intros He Hp0 [Hq0 Hq1]. pose proof (ev_ledger e M He) as HL.
  pose proof (validate_lookup e M old He) as Hv. unfold replaceOrder, isValidItchPrice4.
  rewrite (ev_valid e M He). destruct (Z.eqb_spec nq 0) as [->|Hq]; [by apply outcome_reject|].
  destruct (Z.leb_spec price kMaxItchPrice4) as [Hp|Hp]; cbn [negb]; [|by apply outcome_reject].
  destruct (validateState e (OrderTable.findState (orders e) old)) as [res|p].
  { destruct Hv as [[-> ?]|[-> ?]]; by apply outcome_reject. }
  cbn zeta in Hv. set (st := OrderTable.deref (orders e) p) in *. destruct Hv as [Hst Hhp].
  pose proof (OrderTable.reserve_commit (orders e) new zeroed (lg_table _ _ _ HL)) as Hres.
  cbn zeta in Hres. unfold OrderTable.reservation_valid.
  assert (∀ X : Prop, (new = old → X) → (new ≠ old → OrderTable.rs_result (OrderTable.reserve (orders e) new)
    = Applied → OrderTable.record (orders e) new = None → X) →
    (new ≠ old → OrderTable.rs_result (OrderTable.reserve (orders e) new) ≠ Applied → X) → X) as Hcases.
  { intros X H1 H2 H3. destruct (decide (new = old)); [by apply H1|].
    destruct (decide (OrderTable.rs_result (OrderTable.reserve (orders e) new) = Applied)) as [E|E];
      [|by apply H3]. rewrite E in Hres. by apply H2; [..|apply Hres]. }
  apply Hcases; clear Hcases.
  - intros Enew. rewrite (proj2 (Z.eqb_eq _ _) Enew). cbn [negb andb].
    destruct (acquirePage_spec e M price He ltac:(lia)) as [(e1&->&He1&Hfr&Hno)|(r&pr1&->&Hex&Hrs&Hpi)].
    { split; [done|]. cbn [fst snd]. enum. by split. }
    cbn [orders with_prices]. fold st.
    by apply (replace_in_place e M old new price nq ts st He Hst ltac:(lia) Hp p Hhp r pr1 Hex Hrs Hpi).
  - intros Hne Er Hnone. rewrite (proj2 (Z.eqb_neq _ _) Hne), Er. enum.
    destruct (acquirePage_spec e M price He ltac:(lia)) as [(e1&->&He1&Hfr&Hno)|(r&pr1&->&Hex&Hrs&Hpi)].
    { split; [done|]. cbn [fst snd]. enum. by split. }
    cbn [orders with_prices]. fold st.
    destruct (repl_order_ok e M old st He Hst pr1 Hex) as [Ho _]. rewrite (decodeSide_of _ _ Ho).
    destruct (replace_new_ref e M old new price nq ts st He Hst ltac:(lia) Hp p Hhp eq_refl r pr1
      Hex Hrs Hpi Hne Er Hnone) as [Hc Hout].
    rewrite (surjective_pairing (OrderTable.commit _ _ _)). cbn zeta in Hc. rewrite Hc. enum.
    exact Hout.
  - intros Hne Er. rewrite (proj2 (Z.eqb_neq _ _) Hne), (bool_decide_eq_false_2 _ Er). cbn [negb andb].
    apply outcome_reject; try done; destruct (OrderTable.rs_result _); unfold replace_reason, no_slot; naive_solver.
Qed.

End BookOps.
