(* ===== verification/BookTop.v ===== *)
(** What a book publishes: the top of book and the ten-level update, in terms of
    the live orders. *)
From stdpp Require Import base list gmap.
From Stdlib Require Import ZArith Lia Sorting.Sorted.
From S2P Require Import Prelude Bits Bitmap BookTypes Orders Prices PricesInv PricesAdd PricesErase.
From S2P Require Import PricesRead Book BookInv BookOps.
#[local] Open Scope Z_scope.
#[local] Open Scope astra_scope.

Module BookTop.
Import OrderBook PriceStoreInv PriceStoreRead BookInv.

(** Some live order of the book rests at price [x] on side [sd]. *)
Definition quoted (M : gmap Z OrderState) (loc : Z) (sd : OrderSide) (x : Z) : Prop :=
  ∃ ref st, M !! ref = Some st ∧ at_level loc sd x st.

(** One side of the top of book. *)
Definition top_side (M : gmap Z OrderState) (loc : Z) (sd : OrderSide) (has : bool) (price qty : Z) : Prop :=
  if has
  then quoted M loc sd price ∧ qty = msum (qty_at loc sd price) M ∧
       ∀ y, quoted M loc sd y → y ≠ price → PriceLevelStore.better sd price y = true
  else price = 0 ∧ qty = 0 ∧ ∀ y, ¬ quoted M loc sd y.

(** Levels (price, quantity, orders), best first; one that is missing is worse
    than all of them and there was no room for it. *)
Record depth_side (M : gmap Z OrderState) (loc : Z) (sd : OrderSide) (limit : nat)
    (levels : list (Z * Z * Z)) : Prop := {
  ds_length : (length levels <= limit)%nat;
  ds_levels : Forall (λ '(x, q, n), quoted M loc sd x ∧ q = msum (qty_at loc sd x) M ∧
                                    n = msum (count_at loc sd x) M) levels;
  ds_sorted : StronglySorted (λ v w, PriceLevelStore.better sd v.1.1 w.1.1 = true) levels;
  ds_complete : ∀ y, quoted M loc sd y → y ∉ (λ v, v.1.1) <$> levels →
    length levels = limit ∧ Forall (λ v, PriceLevelStore.better sd v.1.1 y = true) levels }.

Section reading.
Context (e : env) (M : gmap Z OrderState) (He : env_ok e M).
Let loc : Z := stock_locate (book e).
Context (sd : OrderSide) (Hsd : PriceLevelStore.validSide sd = true).

Lemma count_zero x : msum (count_at loc sd x) M = 0 ↔ ¬ quoted M loc sd x.
Proof.
  split.
  - intros H0 (ref&st&Hst&Hat). rewrite (msum_delete _ M ref st Hst) in H0.
    assert (0 <= msum (count_at loc sd x) (delete ref M)).
    { apply msum_nonneg. intros. unfold count_at. case_decide; lia. }
    unfold count_at in H0 at 1. rewrite decide_True in H0 by done. lia.
  - intros Hno. transitivity (msum (λ _ : OrderState, 0 * 0) M); [|rewrite msum_scale; lia].
    apply msum_ext. intros ref st Hst. unfold count_at. rewrite decide_False; [done|].
    intros Hat. apply Hno. by exists ref, st.
Qed.

Lemma quoted_active x : active_price (prices e) loc sd x ↔ quoted M loc sd x.
Proof.
  pose proof (ev_ledger e M He) as HL. pose proof (ev_locate e M He) as Hg.
  assert (quoted M loc sd x → fits 32 x) as Hf.
  { intros (ref&st&Hst&_&_&<-). apply (or_address _ _ (lg_order _ _ _ HL ref st Hst)). }
  unfold active_price. split.
  - intros [Hfx Hc]. rewrite (lg_level _ _ _ HL) in Hc by done. cbn in Hc.
    destruct (decide (Exists (λ p, at_level loc sd x p.2) (map_to_list M))) as [Hex|Hex].
    + apply Exists_exists in Hex as ([ref st]&Hin&Hat). apply elem_of_map_to_list in Hin. by exists ref, st.
    + destruct Hc. apply count_zero. intros (ref&st&Hst&Hat). apply Hex, Exists_exists.
      exists (ref, st). by rewrite elem_of_map_to_list.
  - intros Hq. specialize (Hf Hq). split; [done|]. rewrite (lg_level _ _ _ HL) by done. cbn.
    by rewrite count_zero; intros H.
Qed.

Lemma best_side :
  let v := PriceLevelStore.view (prices e) (PriceLevelStore.best (prices e) loc sd) sd in
  top_side M loc sd (PriceLevelStore.vw_valid v)
    (if PriceLevelStore.vw_valid v then PriceLevelStore.vw_raw_price v else 0)
    (if PriceLevelStore.vw_valid v then PriceLevelStore.vw_total_qty v else 0).
Proof.
  pose proof (ev_ledger e M He) as HL. pose proof (ev_locate e M He) as Hg.
  destruct (best_spec (prices e) loc sd (lg_store _ _ _ HL) Hg Hsd (ev_prepared e M He))
    as [[-> Hno]|[Hc [Hact Hbest]]]; cbn zeta.
  - cbn. split; [done|]. split; [done|]. intros y. rewrite <- quoted_active. apply Hno.
  - rewrite (view_spec _ loc) by (done || apply HL). cbn.
    pose proof Hact as [Hf _]. split; [by apply quoted_active|]. split.
    + by rewrite (lg_level _ _ _ HL) by done.
    + intros y. rewrite <- quoted_active. apply Hbest.
Qed.

Lemma depth_ok limit vs :
  top_levels (prices e) loc sd limit vs → depth_side M loc sd limit (levelUpdate <$> vs).
Proof.
  pose proof (ev_ledger e M He) as HL. pose proof (ev_locate e M He) as Hg.
  assert ((λ v : Z * Z * Z, v.1.1) <$> (levelUpdate <$> vs) = PriceLevelStore.vw_raw_price <$> vs) as Hmap
    by (by rewrite <- list_fmap_compose).
  intros [Hlen Hv Hs Hc]. split.
  - by rewrite length_fmap.
  - apply Forall_fmap. eapply Forall_impl; [exact Hv|]. intros v [Hact Hv'].
    pose proof Hact as [Hf _]. rewrite (lg_level _ _ _ HL) in Hv' by done.
    cbn. rewrite Hv'. cbn. split; [by apply quoted_active|done].
  - clear -Hs. induction Hs as [|v vs Hs IH Hall]; constructor; [done|].
    by apply Forall_fmap.
  - intros y Hy. rewrite Hmap, length_fmap. intros Hnin.
    destruct (Hc y) as [H1 H2]; [by apply quoted_active|done|]. split; [done|]. by apply Forall_fmap.
Qed.

End reading.

Lemma getTopOfBook_spec e M :
  env_ok e M →
  let top := getTopOfBook e in
  let loc := stock_locate (book e) in
  top_side M loc Buy (has_bid top) (bid_price top) (bid_qty top) ∧
  top_side M loc Sell (has_ask top) (ask_price top) (ask_qty top) ∧
  top_symbol_id top = loc ∧ top_timestamp top = latest_update_timestamp (book e).
Proof.
  intros He. split; [by apply (best_side e M He Buy)|]. split; [by apply (best_side e M He Sell)|].
  split; [apply (ev_symbol e M He)|done].
Qed.

Lemma getBookUpdate_spec e M :
  env_ok e M →
  let up := getBookUpdate e in
  let loc := stock_locate (book e) in
  depth_side M loc Buy 10 (up_bids up) ∧ depth_side M loc Sell 10 (up_asks up) ∧
  bids_depth up = Z.of_nat (length (up_bids up)) ∧ asks_depth up = Z.of_nat (length (up_asks up)).
Proof.
  intros He. pose proof (ev_ledger e M He) as HL. pose proof (ev_locate e M He) as Hg.
  assert (∀ sd, PriceLevelStore.validSide sd = true →
    top_levels (prices e) (stock_locate (book e)) sd 10
      (PriceLevelStore.topTen (prices e) (stock_locate (book e)) sd 10)) as Hten.
  { intros sd Hsd. by apply (topTen_spec _ _ sd 10); [apply HL|..|apply (ev_prepared e M He)]. }
  assert (∀ sd, PriceLevelStore.validSide sd = true → ∀ vs : list PriceLevelStore.PriceLevelView,
    top_levels (prices e) (stock_locate (book e)) sd 10 vs →
    u8 (Z.of_nat (length vs)) = Z.of_nat (length (levelUpdate <$> vs))) as Hu8.
  { intros sd Hsd vs Hvs. rewrite length_fmap. pose proof (tl_length _ _ _ _ _ Hvs).
    apply Z.mod_small. lia. }
  pose proof (Hten Buy eq_refl) as Hb. pose proof (Hten Sell eq_refl) as Ha.
  split; [exact (depth_ok e M He Buy eq_refl 10 _ Hb)|].
  split; [exact (depth_ok e M He Sell eq_refl 10 _ Ha)|].
  split; [exact (Hu8 Buy eq_refl _ Hb)|exact (Hu8 Sell eq_refl _ Ha)].
Qed.

End BookTop.
