(* ===== verification/PricesProps.v ===== *)
(** The contract of the price-level store: what each of its operations does to
    the aggregate of every (locate, side, price), errors included, and what its
    readers return. *)
From stdpp Require Import base list gmap.
From Stdlib Require Import ZArith Lia Sorting.Sorted.
From S2P Require Import Prelude Bits Bitmap BookTypes Prices PricesInv PricesAdd PricesErase.
From S2P Require Import PricesRead.
#[local] Open Scope Z_scope.
#[local] Open Scope astra_scope.

Module PriceStoreProps.
Import PriceLevelStore PriceStoreInv PriceStoreAdd PriceStoreErase PriceStoreRead.

(** Adding an order at an address that resolves a price of a book
    adds its quantity and one order to exactly that level and keeps the store
    well formed (page and book summaries, occupancy bitmaps, cached best prices);
    a zero quantity, a saturated order count and a 64-bit quantity overflow are
    rejected without any change. *)
Theorem price_add_exact s a loc price side qty :
  store_ok s → resolves s a loc price → validSide side = true → fits 32 qty →
  add_outcome s loc side price qty (add s a side qty).
Proof. apply add_spec. Qed.

(** Erasing an order removes its quantity and one order from
    exactly its level, deactivating the level, page and book side when they become
    empty; every inconsistent request (missing level, underflow, a last order
    whose quantity is not the whole level) is rejected without any change. *)
Theorem price_erase_exact s a loc price side qty :
  store_ok s → resolves s a loc price → validSide side = true → 0 <= qty →
  erase_outcome s loc side price qty (erase s a side qty).
Proof. apply erase_spec. Qed.

(** The checked reduction lowers the quantity of exactly the
    addressed level and keeps its order count; the two entry points agree, and
    every rejection leaves the store unchanged. *)
Theorem price_reduce_exact s a loc price side current reduction :
  store_ok s → resolves s a loc price → validSide side = true → 0 <= reduction →
  reduce_outcome s loc side price current reduction (reduce s a side current reduction) ∧
  reduceChecked s loc (page_index (splitPrice price)) a side current reduction =
  reduce s a side current reduction.
Proof.
  intros Hok Ha Hsd Hr. split; [by apply reduce_spec|]. by apply reduceChecked_reduce.
Qed.

(** Moving an order between two prices of a book is atomic: it
    either takes the old quantity off the old level and puts the new quantity on
    the new level (the same level included), or returns the first reason and
    changes nothing. *)
Theorem price_move_atomic s a a' loc side old new old_qty new_qty :
  store_ok s → resolves s a loc old → resolves s a' loc new → validSide side = true →
  fits 32 old_qty → fits 32 new_qty →
  move_outcome s loc side old new old_qty new_qty (move s a old_qty a' new_qty side).
Proof. apply move_spec. Qed.

(** Reserving the page of a price in a prepared book either
    reports that the page arena is exhausted, or yields (after publishing the page
    if it is new, which then cannot fail) an address that resolves the price;
    nothing an earlier address resolves and no aggregate changes. *)
Theorem price_reserve_publish s loc price :
  store_ok s → good_locate loc → isBookPrepared s loc = true → fits 32 price →
  let r := fst (reservePrice s loc price) in
  let s1 := snd (reservePrice s loc price) in
  (rv_result r = PricePageCapacityExceeded ∧ extends s s1 ∧
   root s loc (page_index (splitPrice price)) = 0 ∧ committed_pages s = page_capacity s) ∨
  (rv_result r = Applied ∧ address_valid (rv_address r) = true ∧
   rv_page_index r = page_index (splitPrice price) ∧
   let s2 := if rv_requires_commit r then snd (commitReservation s1 r) else s1 in
   (rv_requires_commit r = true → fst (commitReservation s1 r) = Applied) ∧
   extends s s2 ∧ resolves s2 (rv_address r) loc price).
Proof.
  intros Hok Hg Hp. apply reserve_price_spec; [done|done|]. unfold isBookPrepared in Hp. by zbool.
Qed.

(** Walking a book side from its best price lists its active
    prices in strictly worsening order with their aggregates, without gaps: a
    missing active price is worse than all listed ones and there was no room. *)
Theorem price_walk_sorted s loc side size :
  store_ok s → validSide side = true → good_locate loc → isBookPrepared s loc = true →
  top_levels s loc side (Nat.min size 10) (topTen s loc side size).
Proof.
  intros Hok Hsd Hg Hp. apply topTen_spec; [done..|]. unfold isBookPrepared in Hp. by zbool.
Qed.

(** ** A concrete store

    Four pages, the book of locate 7 prepared, and the page of price 1000
    published. *)

Definition blank : t := mk 4 ∅ ∅ ∅ ∅ ∅ ∅ ∅ ∅ 0 0 0.
Definition opened : t := snd (prepareBook blank 7).
Definition reservation : PricePageReservation := fst (reservePrice opened 7 1000).
Definition published : t := snd (commitReservation opened reservation).
Definition address : PriceAddress := rv_address reservation.

Lemma opened_ok : store_ok opened.
Proof.
  destruct (make_store_ok 4 blank eq_refl ltac:(done)) as [Hok _].
  apply (prepareBook_spec blank 7 Hok ltac:(done)).
Qed.

Lemma opened_reserve :
  rv_result reservation = Applied ∧ rv_requires_commit reservation = true ∧
  snd (reservePrice opened 7 1000) = opened.
Proof. vm_compute. done. Qed.

Lemma published_store_ok : store_ok published ∧ resolves published address 7 1000.
Proof.
  pose proof (reserve_price_spec opened 7 1000 opened_ok ltac:(done) ltac:(vm_compute; done)
    ltac:(done)) as H. cbn zeta in H. fold reservation in H. fold address in H.
  destruct opened_reserve as (E1&E2&E3). rewrite E1, E2, E3 in H. fold published in H.
  destruct H as [[? _]|(_&_&_&_&Hex&Hrs)]; [done|]. split; [apply (ex_ok _ _ Hex)|exact Hrs].
Qed.

Definition loaded : t := snd (add published address Buy 5).

Lemma loaded_ok : store_ok loaded ∧ resolves loaded address 7 1000 ∧
  level_at loaded 7 Buy 1000 = mkLevel 5 1.
Proof.
  destruct published_store_ok as [Hok Hrs].
  pose proof (add_spec published address 7 1000 Buy 5 Hok Hrs eq_refl ltac:(done)) as H.
  unfold add_outcome in H. assert (level_at published 7 Buy 1000 = mkLevel 0 0) as E
    by (vm_compute; reflexivity). rewrite E in H. fold loaded in H.
  change (store_ok loaded ∧ _ ∧ _) with (store_ok loaded ∧ resolves loaded address 7 1000 ∧
    level_at loaded 7 Buy 1000 = mkLevel 5 1).
  destruct H as (_&H1&H2&H3). split; [exact H1|]. split; [by eapply same_layout_resolves|].
  rewrite H3 by done. by rewrite decide_True.
Qed.

Lemma price_add_exact_witness :
  level_update published loaded 7 Buy 1000 (mkLevel 5 1).
Proof.
  destruct published_store_ok as [Hok Hrs].
  pose proof (price_add_exact published address 7 1000 Buy 5 Hok Hrs eq_refl ltac:(done)) as H.
  unfold add_outcome in H. assert (level_at published 7 Buy 1000 = mkLevel 0 0) as E
    by (vm_compute; reflexivity). rewrite E in H. apply H.
Defined.

Lemma price_erase_exact_witness :
  fst (erase loaded address Buy 5) = Applied ∧
  level_update loaded (snd (erase loaded address Buy 5)) 7 Buy 1000 (mkLevel 0 0).
Proof.
  destruct loaded_ok as (Hok&Hrs&E).
  pose proof (price_erase_exact loaded address 7 1000 Buy 5 Hok Hrs eq_refl ltac:(done)) as H.
  unfold erase_outcome in H. rewrite E in H. destruct H as [H1 H2].
  split; [exact H1|]. exact (proj2 (proj2 H2)).
Defined.

Lemma price_reduce_exact_witness :
  level_update loaded (snd (reduce loaded address Buy 5 2)) 7 Buy 1000 (mkLevel 3 1).
Proof.
  destruct loaded_ok as (Hok&Hrs&E).
  destruct (price_reduce_exact loaded address 7 1000 Buy 5 2 Hok Hrs eq_refl ltac:(done)) as [H _].
  unfold reduce_outcome in H. rewrite E in H. destruct H as [H1 H2]. exact (proj2 (proj2 H2)).
Defined.

Lemma price_move_atomic_witness :
  fst (move loaded address 5 address 9 Buy) = Applied ∧
  moved_levels loaded (snd (move loaded address 5 address 9 Buy)) 7 Buy 1000 1000 5 9.
Proof.
  destruct loaded_ok as (Hok&Hrs&E).
  pose proof (price_move_atomic loaded address address 7 Buy 1000 1000 5 9 Hok Hrs Hrs eq_refl
    ltac:(done) ltac:(done)) as H.
  assert (movable loaded 7 Buy 1000 1000 5 9 = Applied) as Em by (unfold movable; by rewrite E).
  unfold move_outcome in H. rewrite Em in H. destruct H as [H1 H2].
  split; [exact H1|]. exact (proj2 (proj2 H2)).
Defined.

Lemma price_reserve_publish_witness : resolves published address 7 1000.
Proof.
  pose proof (price_reserve_publish opened 7 1000 opened_ok ltac:(done) ltac:(vm_compute; done)
    ltac:(done)) as H. cbn zeta in H. fold reservation in H. fold address in H.
  destruct opened_reserve as (E1&E2&E3). rewrite E1, E2, E3 in H. fold published in H.
  destruct H as [[? _]|(_&_&_&_&_&Hrs)]; [done|exact Hrs].
Defined.

Lemma price_walk_sorted_witness :
  top_levels loaded 7 Buy 10 [mkView 1000 5 1 true].
Proof.
  destruct loaded_ok as (Hok&_).
  pose proof (price_walk_sorted loaded 7 Buy 10 Hok eq_refl ltac:(done) ltac:(vm_compute; done)) as H.
  assert (topTen loaded 7 Buy 10 = [mkView 1000 5 1 true]) as E by (vm_compute; reflexivity).
  rewrite E in H. exact H.
Defined.

End PriceStoreProps.
