(* ===== verification/Probe.v ===== *)
(** Circular linear probing, shared by the ticker index of the stock directory
    and the gap buffer.

    A table is a function from slots of [0, cap) to optional entries; an entry
    has a key and a key has a home slot.  [probed] is the invariant: keys are
    unique, every slot between an entry's home and its position is occupied, and
    some slot (the cut) lies inside no probe chain.  An empty slot is always a
    cut; naming it explicitly lets the backward-shift deletion be proved for a
    completely full table too. *)
From stdpp Require Import base list.
From Stdlib Require Import ZArith Lia.
From S2P Require Import Prelude.
#[local] Open Scope Z_scope.

Module Probe.

Section probing.
Context (cap : Z) (Hcap : 0 < cap).
Context {E K : Type} (key : E → K) (home : K → Z).
Context (Hhome : ∀ k, 0 <= home k < cap).

Definition slot (x : Z) : Prop := 0 <= x < cap.
Definition dist (a b : Z) : Z := (b - a) mod cap.
Definition next (x : Z) : Z := (x + 1) mod cap.
Definition upd (T : Z → option E) (x : Z) (v : option E) : Z → option E :=
  λ y, if y =? x then v else T y.

Record probed (T : Z → option E) : Prop := {
  pb_dom : ∀ x e, T x = Some e → slot x;
  pb_uniq : ∀ x y a b, T x = Some a → T y = Some b → key a = key b → x = y;
  pb_chain : ∀ x e y, T x = Some e → slot y →
    dist (home (key e)) y < dist (home (key e)) x → T y ≠ None;
  pb_cut : ∃ z, slot z ∧ ∀ x e, T x = Some e → dist (home (key e)) x <= dist (home (key e)) z }.

Lemma probed_ext T T' : (∀ x, T' x = T x) → probed T → probed T'.
Proof.
  intros Heq [Hd Hu Hc (z&Hz&Hcut)]. split.
  - intros x e. rewrite Heq. apply Hd.
  - intros x y a b. rewrite !Heq. apply Hu.
  - intros x e y. rewrite !Heq. apply Hc.
  - exists z. split; [done|]. intros x e. rewrite Heq. apply Hcut.
Qed.

(** Distances by cases, for [lia]. *)
Lemma dist_cases a b :
  slot a → slot b → (a <= b ∧ dist a b = b - a) ∨ (b < a ∧ dist a b = b - a + cap).
Proof.
  intros [] []. unfold dist. destruct (Z.le_gt_cases a b).
  - left. split; [done|]. apply Z.mod_small. lia.
  - right. split; [done|]. rewrite <- (Z.mod_add _ 1), Z.mul_1_l by lia. apply Z.mod_small. lia.
Qed.

(** Seen from [h] the slots come in the order [x], [y], [z]; if [o] sees [x] no
    later than [z], it sees [y] after [x]. *)
Lemma cyclic_order o h x y z :
  slot o → slot h → slot x → slot y → slot z →
  dist h x < dist h y → dist h y <= dist h z → dist o x <= dist o z → dist o x < dist o y.
Proof.
  intros Ho Hh Hx Hy Hz.
  destruct (dist_cases _ _ Ho Hx) as [[? ->]|[? ->]], (dist_cases _ _ Ho Hy) as [[? ->]|[? ->]],
    (dist_cases _ _ Ho Hz) as [[? ->]|[? ->]], (dist_cases _ _ Hh Hx) as [[? ->]|[? ->]],
    (dist_cases _ _ Hh Hy) as [[? ->]|[? ->]], (dist_cases _ _ Hh Hz) as [[? ->]|[? ->]];
    unfold slot in *; lia.
Qed.

Lemma next_cases x : slot x → (x + 1 < cap ∧ next x = x + 1) ∨ (x + 1 = cap ∧ next x = 0).
Proof.
  intros []. unfold next. destruct (Z.eq_dec (x + 1) cap) as [->|].
  - right. split; [done|]. apply Z.mod_same. lia.
  - left. split; [lia|]. apply Z.mod_small. lia.
Qed.

Lemma slot_next x : slot x → slot (next x).
Proof. intros Hx. destruct (next_cases x Hx) as [[? ->]|[? ->]]; unfold slot in *; lia. Qed.

Lemma upd_eq T x v : upd T x v x = v.
Proof. unfold upd. by rewrite Z.eqb_refl. Qed.
Lemma upd_ne T x v y : y ≠ x → upd T x v y = T y.
Proof. intros. unfold upd. by rewrite (proj2 (Z.eqb_neq y x)). Qed.

(** ** Searching *)

Fixpoint scan (stop : Z → bool) (n : nat) (x : Z) : option Z :=
  match n with
  | O => None
  | S n => if stop x then Some x else scan stop n (next x)
  end.

Lemma scan_spec stop n x :
  slot x → Z.of_nat n <= cap →
  match scan stop n x with
  | Some y => slot y ∧ stop y = true ∧ dist x y < Z.of_nat n ∧
              ∀ w, slot w → dist x w < dist x y → stop w = false
  | None => ∀ w, slot w → dist x w < Z.of_nat n → stop w = false
  end.
Proof.
  revert x. induction n as [|n IH]; intros x Hx Hn.
  { intros w Hw Hd. pose proof (dist_cases x w Hx Hw). unfold slot in *. lia. }
  cbn [scan]. destruct (stop x) eqn:Es.
  { split; [done|]. split; [done|]. assert (dist x x = 0) as ->.
    { destruct (dist_cases x x Hx Hx); lia. }
    split; [lia|]. intros w Hw Hd. destruct (dist_cases x w Hx Hw); unfold slot in *; lia. }
  pose proof (slot_next x Hx) as Hnx.
  assert (∀ w, slot w → w ≠ x → dist (next x) w = dist x w - 1) as Hdist.
  { intros w Hw Hne. pose proof (dist_cases x w Hx Hw). pose proof (dist_cases (next x) w Hnx Hw).
    pose proof (next_cases x Hx). unfold slot in *. lia. }
  specialize (IH (next x) Hnx ltac:(lia)). destruct (scan stop n (next x)) as [y|].
  - destruct IH as (Hy&Hs&Hd&Hw). split; [done|]. split; [done|].
    assert (y ≠ x) as Hne by congruence. rewrite Hdist in Hd, Hw by done. split; [lia|].
    intros w Hws Hlt. destruct (Z.eq_dec w x) as [->|Hwx]; [done|].
    apply Hw; [done|]. rewrite Hdist by done. lia.
  - intros w Hws Hlt. destruct (Z.eq_dec w x) as [->|Hwx]; [done|].
    apply IH; [done|]. rewrite Hdist by done. lia.
Qed.

(** What a probe for [k] stops at: an empty slot or the key itself. *)
Section search.
Context (T : Z → option E) (HT : probed T) (stop : Z → bool) (k : K).
Context (Hstop : ∀ x, slot x → stop x = true ↔ T x = None ∨ ∃ e, T x = Some e ∧ key e = k).

Lemma search_hit x e :
  T x = Some e → key e = k → scan stop (Z.to_nat cap) (home k) = Some x.
Proof.
  intros Hx Hk. pose proof (pb_dom T HT x e Hx) as Hsx.
  pose proof (scan_spec stop (Z.to_nat cap) (home k) (Hhome k) ltac:(lia)) as Hscan.
  rewrite Z2Nat.id in Hscan by lia. assert (stop x = true) as Hst.
  { apply Hstop; [done|]. right. by exists e. }
  destruct (scan _ _ _) as [y|].
  - destruct Hscan as (Hy&Hs&_&Hmin). apply Hstop in Hs; [|done].
    destruct Hs as [Hn|(e'&He'&Hk')]; [|f_equal; eapply (pb_uniq T HT); [done|done|congruence]].
    destruct (Z.lt_ge_cases (dist (home k) x) (dist (home k) y)) as [Hlt|Hge].
    { by rewrite (Hmin x Hsx Hlt) in Hst. }
    destruct (Z.eq_dec (dist (home k) y) (dist (home k) x)) as [Heq|Hne].
    + pose proof (dist_cases _ _ (Hhome k) Hsx). pose proof (dist_cases _ _ (Hhome k) Hy).
      f_equal. unfold slot in *. lia.
    + destruct (pb_chain T HT x e y Hx Hy); [rewrite Hk; lia|done].
  - exfalso. rewrite (Hscan x Hsx) in Hst; [done|].
    pose proof (dist_cases _ _ (Hhome k) Hsx). pose proof (Hhome k). unfold slot in *. lia.
Qed.

Lemma search_miss :
  (∀ x e, T x = Some e → key e ≠ k) →
  match scan stop (Z.to_nat cap) (home k) with
  | Some y => slot y ∧ T y = None ∧
              ∀ w, slot w → dist (home k) w < dist (home k) y → T w ≠ None
  | None => ∀ w, slot w → T w ≠ None
  end.
Proof.
  intros Habs. pose proof (scan_spec stop (Z.to_nat cap) (home k) (Hhome k) ltac:(lia)) as Hscan.
  rewrite Z2Nat.id in Hscan by lia.
  assert (∀ w, slot w → stop w = false → T w ≠ None) as Hocc.
  { intros w Hw Hs Hn. assert (stop w = true) by (apply Hstop; [done|by left]). congruence. }
  destruct (scan _ _ _) as [y|].
  - destruct Hscan as (Hy&Hs&_&Hmin). split; [done|]. split.
    + apply Hstop in Hs; [|done]. destruct Hs as [?|(e&He&Hk)]; [done|]. by destruct (Habs _ _ He).
    + intros w Hw Hlt. by apply Hocc, Hmin.
  - intros w Hw. apply Hocc; [done|]. apply Hscan; [done|].
    pose proof (dist_cases _ _ (Hhome k) Hw). pose proof (Hhome k). unfold slot in *. lia.
Qed.

End search.

(** ** Insertion *)

Lemma probed_insert T y e :
  probed T → slot y → T y = None → (∀ x a, T x = Some a → key a ≠ key e) →
  (∀ w, slot w → dist (home (key e)) w < dist (home (key e)) y → T w ≠ None) →
  probed (upd T y (Some e)).
Proof.
  intros HT Hy Hn Habs Hch.
  assert (∀ x a, upd T y (Some e) x = Some a → x = y ∧ a = e ∨ x ≠ y ∧ T x = Some a) as Hinv.
  { intros x a. destruct (Z.eq_dec x y) as [->|Hne]; [rewrite upd_eq|rewrite upd_ne by done].
    - intros [= ->]. by left.
    - by right. }
  split.
  - intros x a Hx. destruct (Hinv x a Hx) as [[-> _]|[_ H]]; [done|by eapply (pb_dom T HT)].
  - intros x x' a b Hx Hx' Hk. destruct (Hinv x a Hx) as [[-> ->]|[_ H]],
      (Hinv x' b Hx') as [[-> ->]|[_ H']].
    + done.
    + symmetry in Hk. by destruct (Habs _ _ H').
    + by destruct (Habs _ _ H).
    + by eapply (pb_uniq T HT).
  - intros x a w Hx Hw Hlt. destruct (Z.eq_dec w y) as [->|Hne]; [by rewrite upd_eq|].
    rewrite upd_ne by done. destruct (Hinv x a Hx) as [[-> ->]|[_ H]]; [by apply Hch|].
    by eapply (pb_chain T HT).
  - exists y. split; [done|]. intros x a Hx. destruct (Hinv x a Hx) as [[-> ->]|[_ H]]; [lia|].
    apply Z.nlt_ge. intros Hlt. by apply (pb_chain T HT x a y H Hy Hlt).
Qed.

Lemma probed_empty : probed (λ _, None).
Proof. split; try done. exists 0. split; [unfold slot; lia|done]. Qed.

(** ** Backward-shift deletion *)

Fixpoint shift (n : nat) (T : Z → option E) (gap x : Z) : (Z → option E) * Z :=
  match n with
  | O => (T, gap)
  | S n =>
    match T x with
    | None => (T, gap)
    | Some e =>
      if dist (home (key e)) gap <? dist (home (key e)) x
      then shift n (upd T gap (Some e)) x (next x)
      else shift n T gap (next x)
    end
  end.

Definition same_entries (T T' : Z → option E) : Prop :=
  ∀ e, (∃ x, T x = Some e) ↔ (∃ x, T' x = Some e).

Section deletion.
Context (origin cut : Z) (Ho : slot origin) (Hcut : slot cut).

(** [T] with its hole at [gap]: positions at distance less than [d] from the
    origin have been processed. *)
Record shifting (T : Z → option E) (gap d : Z) : Prop := {
  sh_gap : slot gap;
  sh_order : dist origin gap < d;
  sh_gap_cut : dist origin gap <= dist origin cut;
  sh_dom : ∀ x e, T x = Some e → slot x;
  sh_hole : T gap = None;
  sh_uniq : ∀ x y a b, T x = Some a → T y = Some b → key a = key b → x = y;
  sh_cut : ∀ x e, T x = Some e → dist (home (key e)) x <= dist (home (key e)) cut;
  sh_chain : ∀ x e y, T x = Some e → slot y → y ≠ gap →
    dist (home (key e)) y < dist (home (key e)) x → T y ≠ None;
  sh_pending : ∀ x e, T x = Some e →
    dist (home (key e)) gap < dist (home (key e)) x → d <= dist origin x }.

(** Once no entry is pending, the table is well formed. *)
Lemma shifting_done T gap d :
  shifting T gap d →
  (∀ x e, T x = Some e → dist (home (key e)) gap < dist (home (key e)) x → False) →
  probed T.
Proof.
  intros [] Hnone. split; try done.
  - intros x e y Hx Hy Hlt. destruct (Z.eq_dec y gap) as [->|Hne]; [by destruct (Hnone x e)|by eauto].
  - exists cut. by split.
Qed.

(** Processing the entry at [x], when it stays. *)
Lemma shifting_skip T gap d x e :
  shifting T gap d → slot x → dist origin x = d → T x = Some e →
  dist (home (key e)) x <= dist (home (key e)) gap → shifting T gap (d + 1).
Proof.
  intros [] Hx Hd He Hle. split; try done; [lia|].
  intros y e' Hy Hlt. pose proof (sh_pending0 y e' Hy Hlt).
  destruct (Z.eq_dec (dist origin y) d) as [Heq|?]; [|lia]. exfalso.
  pose proof (sh_dom0 y e' Hy) as Hys. pose proof (dist_cases _ _ Ho Hys).
  pose proof (dist_cases _ _ Ho Hx). assert (y = x) as -> by (unfold slot in *; lia).
  rewrite He in Hy. injection Hy as ->. lia.
Qed.

(** Processing the entry at [x], when it moves back into the gap. *)
Lemma shifting_move T gap d x e :
  shifting T gap d → slot x → dist origin x = d → T x = Some e →
  dist (home (key e)) gap < dist (home (key e)) x →
  shifting (upd (upd T gap (Some e)) x None) x (d + 1).
Proof.
  intros [] Hx Hd He Hlt. assert (gap ≠ x) as Hgx by congruence.
  set (T2 := upd (upd T gap (Some e)) x None).
  assert (∀ y a, T2 y = Some a → y = gap ∧ a = e ∨ y ≠ gap ∧ y ≠ x ∧ T y = Some a) as Hinv.
  { intros y a. unfold T2. destruct (Z.eq_dec y x) as [->|Hyx]; [by rewrite upd_eq|].
    rewrite upd_ne by done. destruct (Z.eq_dec y gap) as [->|Hyg]; [rewrite upd_eq|rewrite upd_ne by done].
    - intros [= ->]. by left.
    - by right. }
  pose proof (sh_cut0 x e He) as Hcx. pose proof (Hhome (key e)) as Hh.
  assert (dist origin x <= dist origin cut) as Hxc.
  { pose proof (dist_cases _ _ Ho Hx). pose proof (dist_cases _ _ Ho sh_gap0).
    pose proof (dist_cases _ _ Ho Hcut). pose proof (dist_cases _ _ Hh Hx).
    pose proof (dist_cases _ _ Hh sh_gap0). pose proof (dist_cases _ _ Hh Hcut).
    unfold slot in *. lia. }
  split.
  - done.
  - lia.
  - done.
  - intros y a Hy. destruct (Hinv y a Hy) as [[-> _]|(_&_&H')]; [done|by eauto].
  - unfold T2. by rewrite upd_eq.
  - intros y y' a b Hy Hy' Hk. destruct (Hinv y a Hy) as [[-> ->]|(_&Hyx&H')],
      (Hinv y' b Hy') as [[-> ->]|(_&Hyx'&H'')]; [done|..].
    + destruct Hyx'. by eapply sh_uniq0.
    + destruct Hyx. by eapply sh_uniq0.
    + by eapply sh_uniq0.
  - intros y a Hy. destruct (Hinv y a Hy) as [[-> ->]|(_&_&H')]; [lia|by eauto].
  - intros y a w Hy Hw Hwx Hlw. unfold T2. rewrite upd_ne by done.
    destruct (Z.eq_dec w gap) as [->|Hwg]; [by rewrite upd_eq|]. rewrite upd_ne by done.
    destruct (Hinv y a Hy) as [[-> ->]|(_&_&H')]; [|by eapply sh_chain0].
    apply (sh_chain0 x e w He Hw Hwg). lia.
  - intros y a Hy Hlx. destruct (Hinv y a Hy) as [[-> ->]|(Hyg&Hyx&H')]; [lia|].
    pose proof (sh_dom0 y a H') as Hys. pose proof (sh_cut0 y a H') as Hcy.
    pose proof (cyclic_order origin _ x y cut Ho (Hhome (key a)) Hx Hys Hcut Hlx Hcy Hxc). lia.
Qed.

(** The table the loop works on still holds the entry at [gap]; the invariant
    speaks of the table with the hole. *)
Lemma shift_spec n T gap x d :
  shifting (upd T gap None) gap d → slot x → dist origin x = d → d + Z.of_nat n = cap →
  let '(T', gap') := shift n T gap x in
  probed (upd T' gap' None) ∧ slot gap' ∧ same_entries (upd T gap None) (upd T' gap' None).
Proof.
  revert T gap x d. induction n as [|n IH]; intros T gap x d Hsh Hx Hd Hn; cbn [shift].
  { pose proof (dist_cases _ _ Ho Hx). unfold slot in *. lia. }
  pose proof (sh_gap _ _ _ Hsh) as Hg. pose proof (sh_order _ _ _ Hsh) as Hod.
  assert (x ≠ gap) as Hxg. { intros ->. lia. }
  destruct (T x) as [e|] eqn:He.
  2: { split; [|done]. eapply shifting_done; [done|]. intros y a Hy Hlt.
       pose proof (sh_pending _ _ _ Hsh y a Hy Hlt). pose proof (sh_dom _ _ _ Hsh y a Hy) as Hys.
       assert (y ≠ x) as Hyx. { intros ->. rewrite upd_ne in Hy by done. congruence. }
       apply (sh_chain _ _ _ Hsh y a x Hy Hx Hxg); [|by rewrite upd_ne by done].
       pose proof (Hhome (key a)) as Ha. pose proof (dist_cases _ _ Ho Hys).
       pose proof (dist_cases _ _ Ho Hx). pose proof (dist_cases _ _ Ho Hg).
       pose proof (dist_cases _ _ Ha Hys). pose proof (dist_cases _ _ Ha Hg).
       pose proof (dist_cases _ _ Ha Hx). unfold slot in *. lia. }
  assert (upd T gap None x = Some e) as He' by (by rewrite upd_ne by done).
  pose proof (slot_next x Hx) as Hnx.
  assert (n = O ∨ dist origin (next x) = d + 1) as Hdn.
  { destruct n; [by left|right]. pose proof (dist_cases _ _ Ho Hx). pose proof (next_cases x Hx).
    pose proof (dist_cases _ _ Ho Hnx). unfold slot in *. lia. }
  assert (∀ T1 gap1 d1, shifting (upd T1 gap1 None) gap1 d1 → d1 = cap →
    probed (upd T1 gap1 None) ∧ slot gap1) as Hend.
  { intros T1 gap1 d1 Hs ->. split; [|apply (sh_gap _ _ _ Hs)]. eapply shifting_done; [done|].
    intros y a Hy Hlt. pose proof (sh_pending _ _ _ Hs y a Hy Hlt).
    pose proof (dist_cases _ _ Ho (sh_dom _ _ _ Hs y a Hy)).
    pose proof (sh_dom _ _ _ Hs y a Hy). unfold slot in *. lia. }
  destruct (Z.ltb_spec (dist (home (key e)) gap) (dist (home (key e)) x)) as [Hlt|Hge].
  - pose proof (shifting_move _ _ _ _ _ Hsh Hx Hd He' Hlt) as Hsh2.
    set (T2 := upd T gap (Some e)).
    assert (∀ y, upd (upd (upd T gap None) gap (Some e)) x None y = upd T2 x None y) as Heq.
    { intros y. unfold T2, upd. repeat case_if; done. }
    assert (shifting (upd T2 x None) x (d + 1)) as Hsh3.
    { destruct Hsh2. split; intros; rewrite <- ?Heq in *; eauto. }
    assert (same_entries (upd T gap None) (upd T2 x None)) as Hsame.
    { intros a. split; intros [y Hy].
      - destruct (Z.eq_dec y x) as [->|Hyx].
        + exists gap. rewrite He' in Hy. injection Hy as ->. unfold T2. by rewrite upd_ne, upd_eq.
        + exists y. rewrite upd_ne by done. unfold T2. destruct (Z.eq_dec y gap) as [->|Hyg];
            [by rewrite upd_eq in Hy|]. by rewrite upd_ne in Hy |- * by done.
      - rewrite <- Heq in Hy. unfold upd in Hy. repeat case_if_in Hy; try done.
        + injection Hy as <-. by exists x.
        + exists y. unfold upd. by repeat case_if. }
    destruct Hdn as [->|Hdn].
    { cbn [shift]. destruct (Hend T2 x (d + 1) Hsh3 ltac:(lia)). done. }
    specialize (IH T2 x (next x) (d + 1) Hsh3 Hnx Hdn ltac:(lia)).
    destruct (shift n T2 x (next x)) as [T' gap']. destruct IH as (H1&H2&H3).
    split; [done|]. split; [done|]. intros a. by rewrite (Hsame a).
  - pose proof (shifting_skip _ _ _ _ _ Hsh Hx Hd He' Hge) as Hsh2.
    destruct Hdn as [->|Hdn].
    { cbn [shift]. destruct (Hend T gap (d + 1) Hsh2 ltac:(lia)). done. }
    by apply (IH T gap (next x) (d + 1)); [..|lia].
Qed.

End deletion.

(** Deleting the entry at [x]. *)
Lemma probed_erase T x e :
  probed T → T x = Some e →
  let '(T', gap') := shift (Z.to_nat (cap - 1)) T x (next x) in
  slot gap' ∧ probed (upd T' gap' None) ∧
  ∀ a, (∃ y, upd T' gap' None y = Some a) ↔ (∃ y, T y = Some a) ∧ key a ≠ key e.
Proof.
  intros HT Hx. pose proof (pb_dom T HT x e Hx) as Hsx. destruct (pb_cut T HT) as (z&Hz&Hcut).
  assert (∀ y a, upd T x None y = Some a → y ≠ x ∧ T y = Some a) as Hinv.
  { intros y a. destruct (Z.eq_dec y x) as [->|Hne]; [by rewrite upd_eq|by rewrite upd_ne]. }
  assert (dist x x = 0) as Hd0 by (destruct (dist_cases x x Hsx Hsx); lia).
  assert (shifting x z (upd T x None) x 1) as Hsh.
  { split; try done; rewrite ?Hd0; try lia.
    - apply Z.mod_pos_bound. done.
    - intros y a Hy. apply Hinv in Hy as [_ Hy]. by eapply (pb_dom T HT).
    - by rewrite upd_eq.
    - intros y y' a b [_ Hy]%Hinv [_ Hy']%Hinv. by eapply (pb_uniq T HT).
    - intros y a [_ Hy]%Hinv. by apply Hcut.
    - intros y a w [_ Hy]%Hinv Hw Hne Hlt. rewrite upd_ne by done. by eapply (pb_chain T HT).
    - intros y a [Hne Hy]%Hinv _. pose proof (pb_dom T HT y a Hy) as Hys.
      pose proof (dist_cases x y Hsx Hys). unfold slot in *. lia. }
  assert (∀ a, (∃ y, upd T x None y = Some a) ↔ (∃ y, T y = Some a) ∧ key a ≠ key e) as Hkeys.
  { intros a. split.
    - intros [y [Hne Hy]%Hinv]. split; [by exists y|]. intros Hk. by destruct Hne; eapply (pb_uniq T HT).
    - intros [[y Hy] Hk]. exists y. rewrite upd_ne; [done|]. intros ->. congruence. }
  destruct (Z.eq_dec cap 1) as [Hc1|Hc1].
  { rewrite Hc1. cbn [Z.to_nat Z.sub shift]. split; [done|]. split; [|done].
    eapply (shifting_done x z Hz); [exact Hsh|]. intros y a Hy Hlt. pose proof (sh_pending _ _ _ _ _ Hsh y a Hy Hlt).
    pose proof (pb_dom T HT _ _ (proj2 (Hinv y a Hy))) as Hys.
    pose proof (dist_cases x y Hsx Hys). unfold slot in *. lia. }
  pose proof (slot_next x Hsx) as Hnx. assert (dist x (next x) = 1) as Hdn.
  { pose proof (dist_cases _ _ Hsx Hnx). pose proof (next_cases x Hsx). unfold slot in *. lia. }
  pose proof (shift_spec x z Hsx Hz (Z.to_nat (cap - 1)) T x (next x) 1 Hsh Hnx Hdn ltac:(lia)) as Hspec.
  destruct (shift _ _ _ _) as [T' gap']. destruct Hspec as (H1&H2&H3). split; [done|]. split; [done|].
  intros a. rewrite <- Hkeys. symmetry. apply H3.
Qed.

End probing.

End Probe.
