(* ===== verification/Directory.v ===== *)
(** The stock directory of [StockDirectory.hpp]: entries addressed by locate and
    a reverse index of tickers with linear probing.

    Module [StockDirectory] holds the class and its invariant.  The directory
    refines a one-to-one map between locates and tickers: [set] accepts exactly
    the registrations that keep it one-to-one, and the probe for a ticker finds
    its locate. *)
From stdpp Require Import base list gmap.
From Stdlib Require Import ZArith Lia.
From S2P Require Import Prelude Bits BookTypes Probe.
#[local] Open Scope Z_scope.
#[local] Open Scope astra_scope.

Module StockDirectory.

Record Entry := mkEntry {
  round_lot_size : Z;
  e_locate : Z;
  ticker : list Z;
  market_category : Z;
  fin_status : Z;
  is_test : bool;
  round_lots_only : bool;
  issue_classification : Z }.
#[global] Instance Entry_zeroed : Zeroed Entry := mkEntry 0 0 (replicate 9 0) 0 0 false false 0.

Record t := mk { entries : arr Entry; ticker_index : arr Z; count : Z }.

Definition empty : t := mk ∅ ∅ 0.

Definition kTickerIndexCapacity : Z := 131072.
Definition kTickerIndexMask : Z := kTickerIndexCapacity - 1.

(** [ticker[0]] of an entry. *)
Definition firstByte (e : Entry) : Z := default 0 (ticker e !! 0%nat).

Fixpoint viewUpTo (n : nat) (bytes : list Z) : list Z :=
  match n, bytes with
  | S n, b :: bytes => if b =? 0 then [] else b :: viewUpTo n bytes
  | _, _ => []
  end.

Definition tickerView (e : Entry) : list Z := viewUpTo 8 (ticker e).

Definition canonicalEntry (locate : Z) (e : Entry) (ticker_value : list Z) : Entry :=
  let n := length ticker_value in
  mkEntry (round_lot_size e) locate (take n (ticker e) ++ replicate (9 - n) 0)
    (market_category e) (fin_status e) (is_test e) (round_lots_only e) (issue_classification e).

(** FNV-1a over the bytes of the ticker, at 64 bits. *)
Definition tickerHash (ticker_value : list Z) : Z :=
  fold_left (λ hash byte, u64 ((hash .^ byte) * 1099511628211)) ticker_value 14695981039346656037.

Definition home (ticker_value : list Z) : Z := tickerHash ticker_value .& kTickerIndexMask.

Definition isRegistered (d : t) (locate : Z) : bool :=
  isValidStockLocate locate && negb (firstByte (entries d).[locate] =? 0).

Definition get (d : t) (locate : Z) : option Entry :=
  if negb (isValidStockLocate locate) || (firstByte (entries d).[locate] =? 0) then None
  else Some (entries d).[locate].

Fixpoint locateLoop (d : t) (ticker_value : list Z) (n : nat) (slot : Z) : Z :=
  match n with
  | O => kInvalidStockLocate
  | S n =>
    let locate := (ticker_index d).[slot] in
    if locate =? kInvalidStockLocate then kInvalidStockLocate else
    if bool_decide (tickerView (entries d).[locate] = ticker_value) then locate else
    locateLoop d ticker_value n ((slot + 1) .& kTickerIndexMask)
  end.

Definition locateForTicker (d : t) (ticker_value : list Z) : Z :=
  match ticker_value with
  | [] => kInvalidStockLocate
  | _ => locateLoop d ticker_value (Z.to_nat kTickerIndexCapacity) (home ticker_value)
  end.

Fixpoint emptyLoop (d : t) (n : nat) (slot : Z) : Z :=
  match n with
  | O => kTickerIndexCapacity
  | S n =>
    if (ticker_index d).[slot] =? kInvalidStockLocate then slot
    else emptyLoop d n ((slot + 1) .& kTickerIndexMask)
  end.

Definition emptyReverseSlot (d : t) (ticker_value : list Z) : Z :=
  emptyLoop d (Z.to_nat kTickerIndexCapacity) (home ticker_value).

Definition set (d : t) (locate : Z) (entry : Entry) : bool * t :=
  if negb (isValidStockLocate locate) then (false, d) else
  let new_ticker := tickerView entry in
  if bool_decide (new_ticker = []) then (false, d) else
  match get d locate with
  | Some existing =>
    if negb (bool_decide (tickerView existing = new_ticker)) then (false, d)
    else (true, mk (<[locate := canonicalEntry locate entry new_ticker]> (entries d))
                   (ticker_index d) (count d))
  | None =>
    if negb (locateForTicker d new_ticker =? kInvalidStockLocate) then (false, d) else
    let reverse_slot := emptyReverseSlot d new_ticker in
    if reverse_slot =? kTickerIndexCapacity then (false, d) else
    (true, mk (<[locate := canonicalEntry locate entry new_ticker]> (entries d))
              (<[reverse_slot := locate]> (ticker_index d)) (count d + 1))
  end.

Definition size (d : t) : Z := count d.

#[local] Strategy opaque [Z.to_nat].

(** ** Tickers *)

Lemma viewUpTo_prefix n bytes : take (length (viewUpTo n bytes)) bytes = viewUpTo n bytes.
Proof.
  revert bytes. induction n as [|n IH]; intros [|b bytes]; cbn; try done.
  case_if; [done|]. cbn. by rewrite IH.
Qed.

Lemma viewUpTo_length n bytes : (length (viewUpTo n bytes) <= n)%nat.
Proof.
  revert bytes. induction n as [|n IH]; intros [|b bytes]; cbn; try lia.
  case_if; cbn; [lia|]. specialize (IH bytes). lia.
Qed.

Lemma viewUpTo_again n m bytes :
  viewUpTo n (viewUpTo n bytes ++ replicate (S m) 0) = viewUpTo n bytes.
Proof.
  revert bytes. induction n as [|n IH]; intros [|b bytes]; try done.
  cbn [viewUpTo]. destruct (Z.eqb_spec b 0) as [->|Hb]; [done|].
  cbn [app viewUpTo]. rewrite (proj2 (Z.eqb_neq b 0) Hb). by rewrite IH.
Qed.

Lemma view_head e : tickerView e = [] ↔ firstByte e = 0.
Proof.
  unfold tickerView, firstByte. destruct (ticker e) as [|b bs]; [done|]. cbn [viewUpTo].
  destruct (Z.eqb_spec b 0) as [->|Hb]; cbn; [done|]. split; [done|congruence].
Qed.

(** The stored entry shows the ticker it was registered under. *)
Lemma canonical_view locate e : tickerView (canonicalEntry locate e (tickerView e)) = tickerView e.
Proof.
  unfold tickerView, canonicalEntry; cbn [ticker]. rewrite viewUpTo_prefix.
  pose proof (viewUpTo_length 8 (ticker e)).
  replace (9 - length (viewUpTo 8 (ticker e)))%nat with (S (8 - length (viewUpTo 8 (ticker e)))) by lia.
  apply viewUpTo_again.
Qed.

(** ** The invariant *)

Definition registered (d : t) (l : Z) : Prop := good_locate l ∧ tickerView (entries d).[l] ≠ [].

(** The reverse index as a probed table of tickers. *)
Definition index (d : t) (x : Z) : option (list Z) :=
  let l := (ticker_index d).[x] in
  if l =? 0 then None else Some (tickerView (entries d).[l]).

Abbreviation probed := (Probe.probed kTickerIndexCapacity (λ tk : list Z, tk) home).
Abbreviation slot := (Probe.slot kTickerIndexCapacity).

Record dir_ok (d : t) : Prop := {
  do_probed : probed (index d);
  do_index : ∀ x, (ticker_index d).[x] = 0 ∨ registered d (ticker_index d).[x];
  do_back : ∀ l, registered d l → ∃ x, (ticker_index d).[x] = l;
  do_self : ∀ l, registered d l → e_locate (entries d).[l] = l;
  do_count : ∃ R : gset Z, (∀ l, l ∈ R ↔ registered d l) ∧ count d = Z.of_nat (base.size R) }.

Lemma home_slot tk : slot (home tk).
Proof.
  unfold home, kTickerIndexMask, Probe.slot, kTickerIndexCapacity.
  change (131072 - 1) with (2 ^ 17 - 1). rewrite land_ones_mod by lia. by apply Z.mod_pos_bound.
Qed.

Lemma next_slot x : slot x → (x + 1) .& kTickerIndexMask = Probe.next kTickerIndexCapacity x.
Proof.
  intros. unfold kTickerIndexMask, Probe.next, kTickerIndexCapacity.
  change (131072 - 1) with (2 ^ 17 - 1). by rewrite land_ones_mod by lia.
Qed.

Lemma isRegistered_iff d l : fits 16 l → isRegistered d l = true ↔ registered d l.
Proof.
  intros Hl. unfold isRegistered, registered. rewrite (view_head (entries d).[l]). split.
  - intros [Hv Hn]%andb_prop. zbool. split; [by apply valid_good_locate|done].
  - intros [Hg Hn]. rewrite (good_locate_valid l Hg). by rewrite (proj2 (Z.eqb_neq _ _) Hn).
Qed.

Lemma get_registered d l :
  fits 16 l → get d l = if isRegistered d l then Some (entries d).[l] else None.
Proof. intros. unfold get, isRegistered. by destruct (isValidStockLocate l), (_ =? 0). Qed.

Lemma index_registered d x tk :
  dir_ok d → index d x = Some tk →
  registered d (ticker_index d).[x] ∧ tickerView (entries d).[(ticker_index d).[x]] = tk.
Proof.
  intros Hd. unfold index. case_if; [done|]. intros [= <-]. split; [|done].
  by destruct (do_index d Hd x).
Qed.

(** Two locates never share a ticker. *)
Lemma registered_inj d l l' :
  dir_ok d → registered d l → registered d l' →
  tickerView (entries d).[l] = tickerView (entries d).[l'] → l = l'.
Proof.
  intros Hd Hl Hl' Heq. destruct (do_back d Hd l Hl) as [x <-].
  destruct (do_back d Hd l' Hl') as [x' <-].
  assert (∀ y, registered d (ticker_index d).[y] →
    index d y = Some (tickerView (entries d).[(ticker_index d).[y]])) as Hidx.
  { intros y [Hg _]. unfold index. rewrite (proj2 (Z.eqb_neq _ _)); [done|]. unfold good_locate in Hg. lia. }
  f_equal. by eapply (Probe.pb_uniq _ _ _ _ (do_probed d Hd) x x'); [by apply Hidx..|].
Qed.

(** ** The probe loops *)

Definition stopAt (d : t) (tk : list Z) (x : Z) : bool :=
  ((ticker_index d).[x] =? 0) || bool_decide (tickerView (entries d).[(ticker_index d).[x]] = tk).

Lemma locateLoop_scan d tk n x :
  slot x → Z.of_nat n <= kTickerIndexCapacity →
  locateLoop d tk n x =
  match Probe.scan kTickerIndexCapacity (stopAt d tk) n x with
  | Some y => (ticker_index d).[y]
  | None => 0
  end.
Proof.
  revert x. induction n as [|n IH]; intros x Hx Hn; [done|]. cbn [locateLoop Probe.scan].
  unfold stopAt at 1, kInvalidStockLocate. destruct (Z.eqb_spec (ticker_index d).[x] 0) as [E|E]; [done|].
  cbn [orb]. case_bool_decide; [done|]. rewrite next_slot by done.
  apply IH; [by apply Probe.slot_next|lia].
Qed.

Definition emptyAt (d : t) (x : Z) : bool := (ticker_index d).[x] =? 0.

Lemma emptyLoop_scan d n x :
  slot x → Z.of_nat n <= kTickerIndexCapacity →
  emptyLoop d n x = default kTickerIndexCapacity (Probe.scan kTickerIndexCapacity (emptyAt d) n x).
Proof.
  revert x. induction n as [|n IH]; intros x Hx Hn; [done|]. cbn [emptyLoop Probe.scan].
  unfold emptyAt at 1, kInvalidStockLocate. case_if; [done|]. rewrite next_slot by done.
  apply IH; [by apply Probe.slot_next|lia].
Qed.

Lemma stopAt_iff d tk x :
  slot x → stopAt d tk x = true ↔ index d x = None ∨ ∃ e, index d x = Some e ∧ e = tk.
Proof.
  intros _. unfold stopAt, index. destruct (Z.eqb_spec (ticker_index d).[x] 0) as [E|E]; cbn [orb].
  - split; [by left|done].
  - rewrite bool_decide_eq_true. split; [intros ->; right; by eexists|].
    intros [?|(e&[= <-]&->)]; done.
Qed.

Lemma capacity_pos : 0 < kTickerIndexCapacity.
Proof. done. Qed.

Lemma fuel_le : Z.of_nat (Z.to_nat kTickerIndexCapacity) <= kTickerIndexCapacity.
Proof. rewrite Z2Nat.id by done. done. Qed.

Abbreviation scanFor d tk :=
  (Probe.scan kTickerIndexCapacity (stopAt d tk) (Z.to_nat kTickerIndexCapacity) (home tk)).

Lemma locateForTicker_scan d tk :
  tk ≠ [] →
  locateForTicker d tk = match scanFor d tk with Some y => (ticker_index d).[y] | None => 0 end.
Proof.
  intros Hne. unfold locateForTicker. destruct tk; [done|].
  apply locateLoop_scan; [apply home_slot|apply fuel_le].
Qed.

Lemma registered_index d l :
  dir_ok d → registered d l → ∃ x, (ticker_index d).[x] = l ∧ index d x = Some (tickerView (entries d).[l]).
Proof.
  intros Hd Hl. destruct (do_back d Hd l Hl) as [x Hx]. exists x. split; [done|].
  destruct Hl as [Hg _]. unfold index. rewrite Hx, (proj2 (Z.eqb_neq l 0)); [done|].
  unfold good_locate in Hg. lia.
Qed.

Lemma locateForTicker_hit d l :
  dir_ok d → registered d l → locateForTicker d (tickerView (entries d).[l]) = l.
Proof.
  intros Hd Hl. destruct (registered_index d l Hd Hl) as (x&Hx&Hidx).
  rewrite locateForTicker_scan by apply Hl.
  rewrite (Probe.search_hit _ capacity_pos _ _ home_slot _ (do_probed d Hd) _ _
    (stopAt_iff d _) x _ Hidx eq_refl). done.
Qed.

Lemma locateForTicker_miss d tk :
  dir_ok d → (∀ l, registered d l → tickerView (entries d).[l] ≠ tk) → locateForTicker d tk = 0.
Proof.
  intros Hd Hno. destruct (decide (tk = [])) as [->|Hne]; [done|].
  rewrite locateForTicker_scan by done.
  pose proof (Probe.search_miss _ capacity_pos _ _ home_slot (index d) (stopAt d tk) tk
    (stopAt_iff d tk)) as Hm.
  assert (∀ x e, index d x = Some e → e ≠ tk) as Habs.
  { intros x e He ->. destruct (index_registered d x tk Hd He) as [Hr Hv]. by destruct (Hno _ Hr). }
  specialize (Hm Habs). destruct (Probe.scan _ _ _ _) as [y|]; [|done].
  destruct Hm as (_&Hn&_). unfold index in Hn. by case_if_in Hn.
Qed.

(** ** A free index slot always exists *)

Lemma index_not_full d : dir_ok d → ¬ ∀ w, slot w → index d w ≠ None.
Proof.
  intros Hd Hfull. pose proof (pigeonhole (λ x, (ticker_index d).[x]) kTickerIndexCapacity 65536) as Hp.
  assert (∀ x, slot x → registered d (ticker_index d).[x]) as Hreg.
  { intros x Hx. destruct (index d x) as [tk|] eqn:E; [|by destruct (Hfull x Hx)].
    by apply (index_registered d x tk Hd). }
  assert (kTickerIndexCapacity <= 65536); [|unfold kTickerIndexCapacity in *; lia].
  apply Hp; [done|..].
  - intros i Hi. destruct (Hreg i Hi) as [[] _]. unfold kStockLocateSlots in *. lia.
  - intros i j Hi Hj Heq. destruct (index d i) as [a|] eqn:Ea; [|by destruct (Hfull i Hi)].
    destruct (index d j) as [b|] eqn:Eb; [|by destruct (Hfull j Hj)].
    apply (Probe.pb_uniq _ _ _ _ (do_probed d Hd) i j a b Ea Eb).
    apply index_registered in Ea as [_ <-]; [|done]. apply index_registered in Eb as [_ <-]; [|done].
    cbn in Heq. by rewrite Heq.
Qed.

Lemma emptyReverseSlot_spec d tk :
  dir_ok d → (∀ l, registered d l → tickerView (entries d).[l] ≠ tk) →
  let y := emptyReverseSlot d tk in
  slot y ∧ index d y = None ∧
  ∀ w, slot w → Probe.dist kTickerIndexCapacity (home tk) w < Probe.dist kTickerIndexCapacity (home tk) y →
       index d w ≠ None.
Proof.
  intros Hd Hno. unfold emptyReverseSlot.
  rewrite (emptyLoop_scan d _ _ (home_slot tk) fuel_le).
  pose proof (Probe.search_miss _ capacity_pos (λ k : list Z, k) home home_slot (index d) (emptyAt d) tk) as Hm.
  assert (∀ x e, index d x = Some e → e ≠ tk) as Habs.
  { intros x e He ->. destruct (index_registered d x tk Hd He) as [Hr Hv]. by destruct (Hno _ Hr). }
  assert (∀ x, slot x → emptyAt d x = true ↔ index d x = None ∨ ∃ e, index d x = Some e ∧ e = tk) as Hst.
  { intros x _. split.
    - intros He. left. unfold emptyAt in He. unfold index. by rewrite He.
    - intros [Hn|(e&He&->)]; [|by destruct (Habs x tk He)].
      unfold index in Hn. unfold emptyAt. by case_if_in Hn. }
  specialize (Hm Hst Habs). destruct (Probe.scan _ _ _ _) as [y|]; [exact Hm|].
  by destruct (index_not_full d Hd).
Qed.

(** ** Registration *)

(** The directory as a map from locates to tickers. *)
Definition tickerOf (d : t) (l : Z) : option (list Z) :=
  if isRegistered d l then Some (tickerView (entries d).[l]) else None.

(** A refresh keeps every ticker; a registration adds one. *)
Section writing.
Context (d : t) (Hd : dir_ok d) (locate : Z) (Hg : good_locate locate).
Context (entry : Entry) (Hne : tickerView entry ≠ []).
Let stored : Entry := canonicalEntry locate entry (tickerView entry).
Let entries' : arr Entry := <[locate := stored]> (entries d).

Lemma stored_view l :
  tickerView entries'.[l] = if decide (l = locate) then tickerView entry else tickerView (entries d).[l].
Proof.
  unfold entries'. rewrite aget_insert. destruct (decide (locate = l)) as [->|];
    destruct (decide _); try done. apply canonical_view.
Qed.

Lemma written_registered ix n l :
  registered (mk entries' ix n) l ↔ l = locate ∨ registered d l.
Proof.
  unfold registered. cbn [entries]. rewrite stored_view. destruct (decide (l = locate)) as [->|]; naive_solver.
Qed.

Lemma stored_self ix n l : registered (mk entries' ix n) l → e_locate entries'.[l] = l.
Proof.
  intros Hl. apply written_registered in Hl. unfold entries'. rewrite aget_insert.
  case_decide as E; [by subst|]. destruct Hl as [?|Hl]; [by subst|]. by apply (do_self d Hd).
Qed.

Lemma refresh_ok :
  registered d locate → tickerView (entries d).[locate] = tickerView entry →
  dir_ok (mk entries' (ticker_index d) (count d)).
Proof.
  intros Hr Hv. assert (∀ l, tickerView entries'.[l] = tickerView (entries d).[l]) as Hsame.
  { intros l. rewrite stored_view. case_decide as E; [by subst|done]. }
  assert (∀ l, registered (mk entries' (ticker_index d) (count d)) l ↔ registered d l) as Hreg.
  { intros l. unfold registered. cbn [entries]. by rewrite Hsame. }
  assert (∀ x, index (mk entries' (ticker_index d) (count d)) x = index d x) as Hidx.
  { intros x. unfold index. cbn [entries ticker_index]. by rewrite Hsame. }
  destruct Hd as [Hp Hi Hb Hs (R&HR&Hc)]. split; cbn [ticker_index count].
  - by apply (Probe.probed_ext _ _ _ (index d)).
  - intros x. rewrite Hreg. apply Hi.
  - intros l. rewrite Hreg. apply Hb.
  - intros l. apply stored_self.
  - exists R. split; [|done]. intros l. by rewrite Hreg.
Qed.

Lemma register_ok y :
  ¬ registered d locate → (∀ l, registered d l → tickerView (entries d).[l] ≠ tickerView entry) →
  slot y → index d y = None →
  (∀ w, slot w → Probe.dist kTickerIndexCapacity (home (tickerView entry)) w <
                 Probe.dist kTickerIndexCapacity (home (tickerView entry)) y → index d w ≠ None) →
  dir_ok (mk entries' (<[y := locate]> (ticker_index d)) (count d + 1)).
Proof.
  intros Hr Hno Hy Hn Hch. set (d' := mk _ _ _). assert (locate ≠ 0) as H0 by (unfold good_locate in Hg; lia).
  assert (∀ x, (ticker_index d).[x] ≠ 0 → (ticker_index d).[x] ≠ locate) as Hfresh.
  { intros x Hx E. destruct (do_index d Hd x); [done|]. by rewrite E in *. }
  assert (∀ x, index d' x = Probe.upd (index d) y (Some (tickerView entry)) x) as Hidx.
  { intros x. unfold index, Probe.upd, d'. cbn [entries ticker_index]. rewrite aget_insert.
    destruct (Z.eqb_spec x y) as [->|Hxy].
    - rewrite decide_True by done. rewrite (proj2 (Z.eqb_neq _ _) H0), stored_view. by rewrite decide_True.
    - rewrite decide_False by done. destruct (Z.eqb_spec (ticker_index d).[x] 0); [done|].
      rewrite stored_view, decide_False by (by apply Hfresh). done. }
  assert (∀ x e, index d x = Some e → e ≠ tickerView entry) as Habs.
  { intros x e He ->. destruct (index_registered d x _ Hd He) as [H1 H2]. by destruct (Hno _ H1). }
  destruct (do_count d Hd) as (R&HR&Hc). split.
  - eapply Probe.probed_ext; [exact Hidx|].
    apply Probe.probed_insert; [apply (do_probed d Hd)|done|done|exact Habs|exact Hch].
  - intros x. unfold d' at 1 3. cbn [ticker_index]. rewrite aget_insert.
    destruct (decide (y = x)); [right; apply written_registered; by left|].
    destruct (do_index d Hd x); [by left|]. right. apply written_registered. by right.
  - intros l Hl. apply written_registered in Hl as [->|Hl]; [exists y; cbn; by arena|].
    destruct (do_back d Hd l Hl) as [x Hx]. exists x. cbn. rewrite aget_insert_ne; [done|].
    intros <-. unfold index in Hn. rewrite Hx in Hn. case_if_in Hn; [|done]. subst.
    destruct Hl as [[? ?] _]. lia.
  - intros l. apply stored_self.
  - exists ({[locate]} ∪ R). split.
    + intros l. rewrite elem_of_union, elem_of_singleton, HR. unfold d'. by rewrite written_registered.
    + cbn. rewrite Hc, size_add_new by (by rewrite HR). lia.
Qed.

End writing.

(** When [set] accepts, in terms of the registered tickers. *)
Definition acceptable (d : t) (l : Z) (tk : list Z) : Prop :=
  good_locate l ∧ tk ≠ [] ∧
  (tickerOf d l = Some tk ∨ tickerOf d l = None ∧ ∀ l', good_locate l' → tickerOf d l' ≠ Some tk).

Lemma good_fits l : good_locate l → fits 16 l.
Proof. unfold good_locate, fits, kStockLocateSlots. lia. Qed.

Lemma tickerOf_some d l tk :
  good_locate l → tickerOf d l = Some tk ↔ registered d l ∧ tickerView (entries d).[l] = tk.
Proof.
  intros Hg. pose proof (isRegistered_iff d l (good_fits l Hg)) as Hi. unfold tickerOf.
  destruct (isRegistered d l); naive_solver.
Qed.

Lemma tickerOf_none d l : good_locate l → tickerOf d l = None ↔ ¬ registered d l.
Proof.
  intros Hg. pose proof (isRegistered_iff d l (good_fits l Hg)) as Hi. unfold tickerOf.
  destruct (isRegistered d l); naive_solver.
Qed.

Lemma set_spec d l entry :
  dir_ok d → fits 16 l →
  let tk := tickerView entry in
  let res := set d l entry in
  (fst res = true ↔ acceptable d l tk) ∧
  (fst res = false → snd res = d) ∧
  (fst res = true →
    dir_ok (snd res) ∧ get (snd res) l = Some (canonicalEntry l entry tk) ∧
    (∀ l', l' ≠ l → get (snd res) l' = get d l') ∧
    size (snd res) = size d + (if isRegistered d l then 0 else 1)).
Proof.
  intros Hd Hl tk res. unfold acceptable.
  destruct (isValidStockLocate l) eqn:Hv.
  2: { subst res. unfold set. rewrite Hv. cbn. split; [|done]. split; [done|].
       intros (Hg&_). by rewrite (good_locate_valid l Hg) in Hv. }
  pose proof (valid_good_locate l Hl Hv) as Hg.
  destruct (decide (tk = [])) as [E|E].
  { subst res. unfold set. fold tk. rewrite Hv, (bool_decide_eq_true_2 _ E). cbn. naive_solver. }
  pose proof (isRegistered_iff d l Hl) as Hreg.
  assert (∀ d', entries d' = <[l := canonicalEntry l entry tk]> (entries d) →
    get d' l = Some (canonicalEntry l entry tk) ∧ ∀ l', l' ≠ l → get d' l' = get d l') as Hget.
  { intros d' Hd'. unfold get. rewrite Hd', Hv. cbn [negb orb]. split.
    - arena. rewrite (proj2 (Z.eqb_neq _ _)); [done|]. rewrite <- view_head. unfold tk.
      by rewrite canonical_view.
    - intros l' Hne. by arena. }
  assert (set d l entry = res) as Hres by done. unfold set in Hres. fold tk in Hres.
  rewrite Hv, (bool_decide_eq_false_2 _ E), (get_registered d l Hl) in Hres. cbn [negb] in Hres.
  destruct (isRegistered d l) eqn:Er.
  - destruct (proj1 Hreg eq_refl) as [_ Hne0]. pose proof (proj1 Hreg eq_refl) as Hr.
    assert (tickerOf d l = Some (tickerView (entries d).[l])) as Ht by (by apply tickerOf_some).
    destruct (decide (tickerView (entries d).[l] = tk)) as [Etk|Etk].
    + rewrite (bool_decide_eq_true_2 _ Etk) in Hres. cbn [negb] in Hres. rewrite <- Hres. cbn [fst snd].
      split; [split; [|done]; intros _; rewrite Ht, Etk; by auto|]. split; [done|]. intros _.
      split; [by apply refresh_ok|]. destruct (Hget (mk (<[l := canonicalEntry l entry tk]> (entries d))
        (ticker_index d) (count d)) eq_refl). split; [done|]. split; [done|]. unfold size; cbn [count]. lia.
    + rewrite (bool_decide_eq_false_2 _ Etk) in Hres. cbn [negb] in Hres. rewrite <- Hres. cbn [fst snd].
      split; [|done]. rewrite Ht. naive_solver.
  - assert (¬ registered d l) as Hr by (rewrite <- Hreg; done).
    assert (tickerOf d l = None) as Ht by (by apply tickerOf_none).
    destruct (Z.eqb_spec (locateForTicker d tk) kInvalidStockLocate) as [Ez|Ez]; cbn [negb] in Hres.
    + assert (∀ l', registered d l' → tickerView (entries d).[l'] ≠ tk) as Hno.
      { intros l' Hl' Hv'. pose proof (locateForTicker_hit d l' Hd Hl') as Hh. rewrite Hv' in Hh.
        destruct Hl' as [[? ?] _]. unfold kInvalidStockLocate in Ez. lia. }
      destruct (emptyReverseSlot_spec d tk Hd Hno) as (Hy&Hn&Hch). cbn zeta in *.
      rewrite (proj2 (Z.eqb_neq (emptyReverseSlot d tk) kTickerIndexCapacity)) in Hres
        by (unfold Probe.slot in Hy; lia).
      rewrite <- Hres. cbn [fst snd]. split.
      { split; [|done]. intros _. split; [done|]. split; [done|]. right. split; [done|].
        intros l' Hg'. rewrite tickerOf_some by done. naive_solver. }
      split; [done|]. intros _. split; [by apply register_ok|].
      destruct (Hget (mk (<[l := canonicalEntry l entry tk]> (entries d))
        (<[emptyReverseSlot d tk := l]> (ticker_index d)) (count d + 1)) eq_refl).
      split; [done|]. split; [done|]. done.
    + rewrite <- Hres. cbn [fst snd]. split; [|done]. split; [done|]. rewrite Ht.
      intros (_&_&[?|[_ Hall]]); [done|]. exfalso. apply Ez, locateForTicker_miss; [done|].
      intros l' Hl' Hv'. apply (Hall l' (proj1 Hl')). by apply tickerOf_some; [apply Hl'|].
Qed.

Lemma empty_ok : dir_ok empty.
Proof.
  assert (∀ l, ¬ registered empty l) as Hr. { intros l [_ H]. apply H. unfold empty. cbn. by arena. }
  split.
  - eapply Probe.probed_ext; [|by apply Probe.probed_empty]. intros x. unfold index, empty. cbn. by arena.
  - intros x. left. cbn. by arena.
  - intros l Hl. by destruct (Hr l).
  - intros l Hl. by destruct (Hr l).
  - exists ∅. split; [|done]. intros l. split; [set_solver|]. intros Hl. by destruct (Hr l).
Qed.

(** ** Properties *)

(** [set] accepts an entry exactly when the locate is valid, the
    ticker is nonempty, and either the locate already carries that ticker or the
    locate is free and no other locate carries it (the reverse index never runs
    out of slots).  A rejected entry changes nothing; an accepted one is stored in
    canonical form under its locate, leaves every other locate alone, counts new
    locates only, and keeps the index consistent. *)
Theorem directory_set d l entry :
  dir_ok d → fits 16 l →
  let tk := tickerView entry in
  let res := set d l entry in
  (fst res = true ↔ acceptable d l tk) ∧
  (fst res = false → snd res = d) ∧
  (fst res = true →
    dir_ok (snd res) ∧ get (snd res) l = Some (canonicalEntry l entry tk) ∧
    (∀ l', l' ≠ l → get (snd res) l' = get d l') ∧
    size (snd res) = size d + (if isRegistered d l then 0 else 1)).
Proof. apply set_spec. Qed.

(** The probe for a ticker returns the locate registered under
    it, and locate zero for a ticker nobody registered: the reverse index is the
    inverse of the entries, and no two locates share a ticker. *)
Theorem directory_lookup d :
  dir_ok d →
  (∀ l tk, good_locate l → tickerOf d l = Some tk → locateForTicker d tk = l) ∧
  (∀ tk, (∀ l, good_locate l → tickerOf d l ≠ Some tk) → locateForTicker d tk = kInvalidStockLocate) ∧
  (∀ l l' tk, good_locate l → good_locate l' → tickerOf d l = Some tk → tickerOf d l' = Some tk → l = l').
Proof.
  intros Hd. split; [|split].
  - intros l tk Hg Ht. apply tickerOf_some in Ht as [Hr <-]; [|done]. by apply locateForTicker_hit.
  - intros tk Hno. apply locateForTicker_miss; [done|]. intros l Hr Hv.
    apply (Hno l (proj1 Hr)). by apply tickerOf_some; [apply Hr|].
  - intros l l' tk Hg Hg' Ht Ht'. apply tickerOf_some in Ht as [Hr Hv]; [|done].
    apply tickerOf_some in Ht' as [Hr' Hv']; [|done]. apply (registered_inj d); congruence.
Qed.

(** A directory with the ticker "AB" under locate 7. *)
Definition sampleEntry : Entry := mkEntry 100 7 [65; 66; 0; 0; 0; 0; 0; 0; 0] 81 78 false false 67.
Definition sample : t := snd (set empty 7 sampleEntry).

Lemma sample_set : fst (set empty 7 sampleEntry) = true.
Proof. vm_compute. reflexivity. Qed.

Lemma sample_ok : dir_ok sample.
Proof.
  destruct (set_spec empty 7 sampleEntry empty_ok ltac:(by vm_compute)) as (_&_&H).
  by apply H, sample_set.
Qed.

Lemma directory_set_witness :
  fst (set sample 9 sampleEntry) = false ∧ ¬ acceptable sample 9 (tickerView sampleEntry).
Proof.
  assert (fst (set sample 9 sampleEntry) = false) as Hf by (vm_compute; reflexivity).
  split; [exact Hf|]. intros Ha.
  apply (directory_set sample 9 sampleEntry sample_ok ltac:(by vm_compute)) in Ha. congruence.
Defined.

Lemma directory_lookup_witness : locateForTicker sample [65; 66] = 7.
Proof.
  apply (directory_lookup sample sample_ok); [done|]. vm_compute. reflexivity.
Defined.

End StockDirectory.
