(* ===== verification/Manager.v ===== *)
(** The book manager of [BookManager.hpp]/[BookManager.cpp]: one order table and
    one price store shared by the books, which are addressed by stock locate.

    Module [BookManager] models the class; [mutate] is the routing every message
    mutation goes through.  [mgr_ok] ties all books to one map of live orders. *)
From stdpp Require Import base list gmap.
From Stdlib Require Import ZArith Lia.
From S2P Require Import Prelude Bits Bitmap BookTypes Orders Prices PricesInv PricesAdd PricesErase.
From S2P Require Import PricesRead Book BookInv BookOps Probe Directory.
#[local] Open Scope Z_scope.
#[local] Open Scope astra_scope.

Module BookManager.
Import OrderBook.

(** [config_.orders.direct_slots], the two stores and the descriptor slots. *)
Record t := mk {
  direct_slots : Z;
  m_orders : OrderTable.t;
  m_prices : PriceLevelStore.t;
  books : gmap Z OrderBook.t }.

Definition make (direct buckets pages : Z) : option t :=
  match OrderTable.make direct buckets, PriceLevelStore.make pages with
  | Some o, Some p => Some (mk direct o p ∅)
  | _, _ => None
  end.

Definition find (m : t) (locate : Z) : option OrderBook.t :=
  if negb (isValidStockLocate locate) then None else books m !! locate.

Definition getOrderBook (m : t) (locate : Z) : option OrderBook.t := find m locate.

(** The book as the members of [OrderBook] see it, and the state after one. *)
Definition view (m : t) (b : OrderBook.t) : env := mkEnv b (m_orders m) (m_prices m).
Definition update (m : t) (locate : Z) (e : env) : t :=
  mk (direct_slots m) (orders e) (prices e) (<[locate := book e]> (books m)).

Definition getOrCreate (m : t) (locate : Z) : option OrderBook.t * t :=
  if negb (isValidStockLocate locate) then (None, m) else
  match find m locate with
  | Some b => (Some b, m)
  | None =>
    let '(r, prices1) := PriceLevelStore.prepareBook (m_prices m) locate in
    let m := mk (direct_slots m) (m_orders m) prices1 (books m) in
    if negb (bool_decide (r = Applied)) then (None, m) else
    let reported_capacity := if max_u64 <? direct_slots m then max_u64 else direct_slots m in
    let b := OrderBook.make locate prices1 reported_capacity in
    (Some b, mk (direct_slots m) (m_orders m) prices1 (<[locate := b]> (books m)))
  end.

(** [find], then the member of the book, or [BookNotPrepared]. *)
Definition mutate (m : t) (locate : Z) (f : env → MutationResult * env) : MutationResult * t :=
  match find m locate with
  | Some b => let '(r, e) := f (view m b) in (r, update m locate e)
  | None => (BookNotPrepared, m)
  end.

Definition addOrder (m : t) (locate order_id price qty side timestamp : Z) :=
  mutate m locate (λ e, OrderBook.addOrder e order_id price qty side timestamp).
Definition cancelShares (m : t) (locate order_id canceled_qty timestamp : Z) :=
  mutate m locate (λ e, OrderBook.cancelShares e order_id canceled_qty timestamp).
Definition deleteOrder (m : t) (locate order_id timestamp : Z) :=
  mutate m locate (λ e, OrderBook.deleteOrder e order_id timestamp).
Definition executeOrder (m : t) (locate order_id executed_qty timestamp : Z) :=
  mutate m locate (λ e, OrderBook.executeOrder e order_id executed_qty timestamp).
Definition replaceOrder (m : t) (locate old_id new_id new_price new_qty timestamp : Z) :=
  mutate m locate (λ e, OrderBook.replaceOrder e old_id new_id new_price new_qty timestamp).
Definition trade (m : t) (locate order_id executed_qty timestamp : Z) : bool * t :=
  let '(r, m') := executeOrder m locate order_id executed_qty timestamp in
  (bool_decide (r = Applied), m').

(** The locates [1 .. kMaxStockLocate) of the cold scans. *)
Definition locates : list Z := range (Z.to_nat (kStockLocateSlots - 1)) 1.

Definition totalLiveOrderCount (m : t) : Z :=
  fold_left (λ total slot, match books m !! slot with
                           | Some b => u64 (total + live_order_count b)
                           | None => total
                           end) locates 0.

Record Audit := mkAudit {
  registered_symbols : Z;
  materialized_books : Z;
  prepared_books : Z;
  registered_books_missing : Z;
  unregistered_books_present : Z;
  descriptor_price_state_mismatches : Z;
  descriptor_identity_mismatches : Z }.

Definition auditStep (d : StockDirectory.t) (m : t) (a : Audit) (slot : Z) : Audit :=
  let registered := StockDirectory.isRegistered d slot in
  let materialized := bool_decide (is_Some (books m !! slot)) in
  let prepared := PriceLevelStore.isBookPrepared (m_prices m) slot in
  let count (b : bool) (n : Z) := if b then n + 1 else n in
  mkAudit (registered_symbols a)
    (count materialized (materialized_books a))
    (prepared_books a)
    (count (registered && (negb materialized || negb prepared)) (registered_books_missing a))
    (count (negb registered && (materialized || prepared)) (unregistered_books_present a))
    (count (negb (eqb materialized prepared)) (descriptor_price_state_mismatches a))
    (count (match books m !! slot with
            | Some b => negb (stock_locate b =? slot) || negb (symbol_id b =? slot)
            | None => false
            end) (descriptor_identity_mismatches a)).

Definition auditDirectory (m : t) (d : StockDirectory.t) : Audit :=
  fold_left (auditStep d m) locates
    (mkAudit (StockDirectory.size d) 0 (PriceLevelStore.prepared_book_count (m_prices m)) 0 0 0 0).

Definition clean (a : Audit) : bool :=
  (registered_books_missing a =? 0) && (unregistered_books_present a =? 0) &&
  (descriptor_price_state_mismatches a =? 0) && (descriptor_identity_mismatches a =? 0) &&
  (registered_symbols a =? materialized_books a) && (registered_symbols a =? prepared_books a).

End BookManager.
