(* ===== verification/ManagerInv.v ===== *)
(** The manager refines one abstract map from order references to orders.

    [Command] is a message mutation, [effect] what it does to the abstract map
    and [explains] why each result is returned.  [mgr_ok] is the invariant that
    ties the concrete manager to the map; it holds in every [reachable] state. *)
From stdpp Require Import base list gmap.
From Stdlib Require Import ZArith Lia.
From S2P Require Import Prelude Bits Bitmap BookTypes Orders Prices PricesInv PricesAdd PricesErase.
From S2P Require Import PricesRead Book BookInv BookOps Probe Directory Manager.
#[local] Open Scope Z_scope.
#[local] Open Scope astra_scope.

Module ManagerInv.
Import OrderBook BookInv BookOps BookManager PriceStoreInv PriceStoreRead.

(** ** Message mutations and their abstract meaning *)

Inductive Command :=
  | AddOrder (locate id price qty side ts : Z)
  | CancelShares (locate id qty ts : Z)
  | DeleteOrder (locate id ts : Z)
  | ExecuteOrder (locate id qty ts : Z)
  | ReplaceOrder (locate old new price qty ts : Z).

Definition cmd_locate (c : Command) : Z :=
  match c with
  | AddOrder l _ _ _ _ _ | CancelShares l _ _ _ | DeleteOrder l _ _ | ExecuteOrder l _ _ _
  | ReplaceOrder l _ _ _ _ _ => l
  end.

(** The argument types of the members: an unsigned price and 32-bit quantities. *)
Definition cmd_ok (c : Command) : Prop :=
  match c with
  | AddOrder _ _ price qty _ _ | ReplaceOrder _ _ _ price qty _ => 0 <= price ∧ fits 32 qty
  | CancelShares _ _ qty _ | ExecuteOrder _ _ qty _ => fits 32 qty
  | DeleteOrder _ _ _ => True
  end.

Definition run (m : t) (c : Command) : MutationResult * t :=
  match c with
  | AddOrder l id price qty side ts => addOrder m l id price qty side ts
  | CancelShares l id qty ts => cancelShares m l id qty ts
  | DeleteOrder l id ts => deleteOrder m l id ts
  | ExecuteOrder l id qty ts => executeOrder m l id qty ts
  | ReplaceOrder l old new price qty ts => replaceOrder m l old new price qty ts
  end.

Definition reduceBy (q : Z) (o : Order) : Order :=
  mkO (o_locate o) (o_side o) (o_price o) (o_qty o - q).

Definition effect (c : Command) (A : gmap Z Order) : gmap Z Order :=
  match c with
  | AddOrder l id price qty side _ => <[id := mkO l (decodeSideChar side) price qty]> A
  | CancelShares _ id q _ => alter (reduceBy q) id A
  | DeleteOrder _ id _ => delete id A
  | ExecuteOrder _ id q _ =>
    match A !! id with
    | Some o => if q =? o_qty o then delete id A else <[id := reduceBy q o]> A
    | None => A
    end
  | ReplaceOrder l old new price qty _ =>
    match A !! old with
    | Some o => <[new := mkO l (o_side o) price qty]> (delete old A)
    | None => A
    end
  end.

(** Why a result is returned: the documented reasons, and no internal failure. *)
Definition explains (m : t) (M : gmap Z OrderState) (c : Command) (r : MutationResult) : Prop :=
  match find m (cmd_locate c) with
  | None => r = BookNotPrepared
  | Some b =>
    let e := view m b in
    match c with
    | AddOrder _ id price qty side _ => add_reason e M id price qty side r
    | CancelShares _ id q _ => cancel_reason e M id q r
    | DeleteOrder _ id _ => delete_reason e M id r
    | ExecuteOrder _ id q _ => execute_reason e M id q r
    | ReplaceOrder _ old new price qty _ => replace_reason e M old new price qty r
    end
  end.

(** ** The invariant *)

Record book_entry (m : t) (M : gmap Z OrderState) (loc : Z) (b : OrderBook.t) : Prop := {
  be_good : good_locate loc;
  be_locate : stock_locate b = loc;
  be_symbol : symbol_id b = loc;
  be_valid : local_invalid b = false;
  be_count : live_order_count b = u64 (msum (here loc) M) }.

Record mgr_ok (m : t) (M : gmap Z OrderState) : Prop := {
  mg_ledger : ledger (m_orders m) (m_prices m) M;
  mg_book : ∀ loc b, books m !! loc = Some b → book_entry m M loc b;
  mg_prepared : ∀ loc, good_locate loc →
    PriceLevelStore.isBookPrepared (m_prices m) loc = bool_decide (is_Some (books m !! loc));
  mg_home : ∀ ref st, M !! ref = Some st → is_Some (books m !! locate st);
  mg_count : PriceLevelStore.prepared_book_count (m_prices m) = Z.of_nat (size (books m)) }.

(** There is a locate for every book, so the 32-bit counter never wraps. *)
Lemma books_bound m M : mgr_ok m M → Z.of_nat (size (books m)) < 65536.
Proof.
  intros Hm. rewrite <- size_dom.
  assert (dom (books m) ⊆ list_to_set (range (Z.to_nat 65535) 1)) as Hsub.
  { intros l [b Hb]%elem_of_dom. apply elem_of_list_to_set, elem_of_range.
    pose proof (be_good _ _ _ _ (mg_book m M Hm l b Hb)) as [? ?]. unfold kStockLocateSlots in *. lia. }
  apply subseteq_size in Hsub. rewrite size_list_to_set in Hsub by apply NoDup_range.
  rewrite length_range in Hsub. lia.
Qed.

Lemma find_book m M loc :
  mgr_ok m M → find m loc = books m !! loc.
Proof.
  intros Hm. unfold find. destruct (isValidStockLocate loc) eqn:Hv; [done|]. cbn.
  destruct (books m !! loc) as [b|] eqn:E; [|done].
  by rewrite (good_locate_valid loc (be_good _ _ _ _ (mg_book m M Hm loc b E))) in Hv.
Qed.

Lemma view_ok m M loc b : mgr_ok m M → books m !! loc = Some b → env_ok (view m b) M.
Proof.
  intros Hm Hb. destruct (mg_book m M Hm loc b Hb). split; cbn; rewrite ?be_locate0; try done.
  - apply (mg_ledger m M Hm).
  - apply prepared_iff; [done|]. rewrite (mg_prepared m M Hm) by done.
    apply bool_decide_eq_true. by rewrite Hb.
Qed.

(** [M'] differs from [M] only in orders of [loc]. *)
Record local_change (loc : Z) (M M' : gmap Z OrderState) : Prop := {
  lc_here : ∀ l, l ≠ loc → msum (here l) M' = msum (here l) M;
  lc_home : ∀ ref st, M' !! ref = Some st → locate st = loc ∨ M !! ref = Some st }.

Lemma update_ok m M M' loc b e' :
  mgr_ok m M → books m !! loc = Some b → leads (view m b) e' M' → local_change loc M M' →
  mgr_ok (update m loc e') M'.
Proof.
  intros Hm Hb [He Hfr] Hlc. pose proof (mg_book m M Hm loc b Hb) as Hbe.
  pose proof (fr_locate _ _ Hfr) as Hl. cbn in Hl. rewrite (be_locate _ _ _ _ Hbe) in Hl. split.
  - apply (ev_ledger _ _ He).
  - intros l b'. cbn. rewrite lookup_insert. case_decide as E.
    + subst l. intros [= <-]. pose proof (be_good _ _ _ _ Hbe). split; try done.
      * by rewrite (ev_symbol _ _ He).
      * apply (ev_valid _ _ He).
      * by rewrite (ev_count _ _ He), Hl.
    + intros Hb'. destruct (mg_book m M Hm l b' Hb'). split; try done.
      by rewrite (lc_here _ _ _ Hlc) by done.
  - intros l Hg. cbn. rewrite (fr_prepared _ _ Hfr). cbn. rewrite (mg_prepared m M Hm) by done.
    rewrite lookup_insert. case_decide as E; [|done]. subst l. by rewrite Hb.
  - intros ref st Hst. cbn. rewrite lookup_insert_is_Some'.
    destruct (lc_home _ _ _ Hlc ref st Hst) as [<-|Hst']; [by left|right].
    by apply (mg_home m M Hm ref).
  - cbn. rewrite (fr_books _ _ Hfr), map_size_insert_Some by done. apply (mg_count m M Hm).
Qed.

Lemma change_refl loc M : local_change loc M M.
Proof. split; [done|]. intros. by right. Qed.

Lemma change_insert loc M ref st : M !! ref = None → locate st = loc → local_change loc M (<[ref := st]> M).
Proof.
  intros Hn Hl. split.
  - intros l Hne. rewrite msum_insert by done. unfold here at 1. rewrite decide_False by congruence. lia.
  - intros x st'. rewrite lookup_insert. case_decide; [|by right]. intros [= <-]. by left.
Qed.

Lemma change_delete loc M ref st : M !! ref = Some st → locate st = loc → local_change loc M (delete ref M).
Proof.
  intros Hs Hl. split.
  - intros l Hne. rewrite (msum_delete _ M ref st Hs). unfold here at 2.
    rewrite decide_False by congruence. lia.
  - intros x st'. rewrite lookup_delete. case_decide; [done|]. by right.
Qed.

Lemma change_trans loc M1 M2 M3 : local_change loc M1 M2 → local_change loc M2 M3 → local_change loc M1 M3.
Proof.
  intros [H1 H2] [H3 H4]. split.
  - intros l Hne. by rewrite H3, H1.
  - intros x st Hx. destruct (H4 x st Hx); [by left|by eauto].
Qed.

Lemma change_update loc M ref st st' :
  M !! ref = Some st → locate st = loc → locate st' = loc → local_change loc M (<[ref := st']> M).
Proof.
  intros Hs Hl Hl'. eapply change_trans; [by apply (change_delete loc M ref st)|].
  rewrite <- (insert_delete_eq M ref). apply change_insert; [apply lookup_delete_eq|done].
Qed.

(** ** One mutation *)

(** The abstract map after a command: its effect when applied, else unchanged. *)
Definition steps (m : t) (M : gmap Z OrderState) (c : Command) (res : MutationResult * t) : Prop :=
  explains m M c (fst res) ∧ keeps_seen (m_orders m) (m_orders (snd res)) ∧
  ∃ M', mgr_ok (snd res) M' ∧
    (if bool_decide (fst res = Applied) then abs <$> M' = effect c (abs <$> M) else M' = M).

(** Routing: a specification of the book's member lifts to the manager. *)
Lemma route_ok m M c f (reason : env → MutationResult → Prop) (eff : env → env → Prop) :
  mgr_ok m M →
  (∀ b, find m (cmd_locate c) = Some b →
        (∀ r, reason (view m b) r → explains m M c r) ∧
        outcome (view m b) M (reason (view m b)) (eff (view m b)) (f (view m b))) →
  (∀ b e', find m (cmd_locate c) = Some b → reason (view m b) Applied → eff (view m b) e' →
        ∃ M', leads (view m b) e' M' ∧ local_change (cmd_locate c) M M' ∧
              abs <$> M' = effect c (abs <$> M)) →
  steps m M c (mutate m (cmd_locate c) f).
Proof.
  intros Hm Hspec Heff. unfold steps, mutate.
  destruct (find m (cmd_locate c)) as [b|] eqn:Hf.
  2: { cbn [fst snd]. split; [unfold explains; by rewrite Hf|]. split; [apply keeps_refl|].
       exists M. by enum. }
  destruct (Hspec b eq_refl) as [Hre [Hr Ho]]. pose proof Hf as Hb. rewrite (find_book m M) in Hb by done.
  destruct (f (view m b)) as [r e']. cbn [fst snd] in *. split; [by apply Hre|].
  case_bool_decide as E.
  - subst r. destruct (Heff b e' eq_refl Hr Ho) as (M'&Hl&Hc&Ha).
    split; [apply (fr_seen _ _ (proj2 Hl))|]. exists M'. split; [by eapply update_ok|done].
  - split; [apply (fr_seen _ _ (proj2 Ho))|]. exists M. split; [|done]. eapply update_ok; [done..|apply change_refl].
Qed.

(** The abstract image of an order of a book. *)
Lemma abs_lookup (M : gmap Z OrderState) ref st : M !! ref = Some st → (abs <$> M) !! ref = Some (abs st).
Proof. intros H. by rewrite lookup_fmap, H. Qed.

Lemma owned_view m M c b id st :
  mgr_ok m M → find m (cmd_locate c) = Some b → owned_order (view m b) M id st →
  M !! id = Some st ∧ locate st = cmd_locate c.
Proof.
  intros Hm Hf [Hst Hl]. split; [done|]. rewrite (find_book m M) in Hf by done.
  rewrite Hl. apply (be_locate _ _ _ _ (mg_book m M Hm _ _ Hf)).
Qed.

Lemma resize_abs (M : gmap Z OrderState) id st q :
  M !! id = Some st →
  abs <$> <[id := with_qty st (qty st - q)]> M = <[id := reduceBy q (abs st)]> (abs <$> M).
Proof. intros. rewrite fmap_insert. done. Qed.

Lemma run_add m M l id price qty side ts :
  mgr_ok m M → 0 <= price → fits 32 qty →
  steps m M (AddOrder l id price qty side ts) (addOrder m l id price qty side ts).
Proof.
  intros Hm Hp Hq. set (c := AddOrder l id price qty side ts).
  apply (route_ok m M c _ (λ e, add_reason e M id price qty side) (λ e, add_effect e M id price qty side ts)); [done|..].
  - intros b Hf. split; [intros r; unfold explains; rewrite Hf; done|].
    rewrite (find_book m M) in Hf by done.
    by apply addOrder_spec; [eapply view_ok|..].
  - intros b e' Hf Hr (st&Habs&Hl&_). exists (<[id := st]> M). split; [done|].
    rewrite (find_book m M) in Hf by done. pose proof (view_ok m M _ b Hm Hf) as He.
    pose proof (be_locate _ _ _ _ (mg_book m M Hm _ _ Hf)) as El. cbn in El.
    pose proof (f_equal o_locate Habs) as Eo. cbn in Eo. rewrite El in Eo.
    split; [apply change_insert; [|done]|].
    + apply (live_none (view m b) M id He). apply Hr.
    + rewrite fmap_insert, Habs. cbn. by rewrite El.
Qed.

Lemma run_cancel m M l id q ts :
  mgr_ok m M → fits 32 q → steps m M (CancelShares l id q ts) (cancelShares m l id q ts).
Proof.
  intros Hm Hq. set (c := CancelShares l id q ts).
  apply (route_ok m M c _ (λ e, cancel_reason e M id q) (λ e, resize_effect e M id q ts)); [done|..].
  - intros b Hf. split; [intros r; unfold explains; rewrite Hf; done|].
    rewrite (find_book m M) in Hf by done. by apply cancelShares_spec; [eapply view_ok|..].
  - intros b e' Hf _ (st&Hst&Hl&_). destruct (owned_view m M c b id st Hm Hf Hst) as [Hs El].
    eexists. split; [exact Hl|]. split; [by apply (change_update _ M id st)|].
    rewrite resize_abs by done. cbn [effect c]. apply map_eq. intros x.
    rewrite lookup_insert. case_decide as E; [subst x; by rewrite lookup_alter_eq, (abs_lookup M id st Hs)|].
    by rewrite lookup_alter_ne.
Qed.

Lemma run_delete m M l id ts :
  mgr_ok m M → steps m M (DeleteOrder l id ts) (deleteOrder m l id ts).
Proof.
  intros Hm. set (c := DeleteOrder l id ts).
  apply (route_ok m M c _ (λ e, delete_reason e M id) (λ e, remove_effect e M id ts)); [done|..].
  - intros b Hf. split; [intros r; unfold explains; rewrite Hf; done|].
    rewrite (find_book m M) in Hf by done. by apply deleteOrder_spec; eapply view_ok.
  - intros b e' Hf [st Hst] [Hl _]. destruct (owned_view m M c b id st Hm Hf Hst) as [Hs El].
    eexists. split; [exact Hl|]. split; [by apply (change_delete _ M id st)|]. by rewrite fmap_delete.
Qed.

Lemma run_execute m M l id q ts :
  mgr_ok m M → fits 32 q → steps m M (ExecuteOrder l id q ts) (executeOrder m l id q ts).
Proof.
  intros Hm Hq. set (c := ExecuteOrder l id q ts).
  apply (route_ok m M c _ (λ e, execute_reason e M id q) (λ e, execute_effect e M id q ts)); [done|..].
  - intros b Hf. split; [intros r; unfold explains; rewrite Hf; done|].
    rewrite (find_book m M) in Hf by done. by apply executeOrder_spec; [eapply view_ok|..].
  - intros b e' Hf _ (st&Hst&_&Hl). destruct (owned_view m M c b id st Hm Hf Hst) as [Hs El].
    eexists. split; [exact Hl|]. cbn [effect c]. rewrite (abs_lookup M id st Hs). cbn [o_qty abs].
    destruct (q =? qty st); (split; [|by rewrite ?fmap_delete, ?resize_abs]).
    + by apply (change_delete _ M id st).
    + by apply (change_update _ M id st).
Qed.

Lemma run_replace m M l old new price qty ts :
  mgr_ok m M → 0 <= price → fits 32 qty →
  steps m M (ReplaceOrder l old new price qty ts) (replaceOrder m l old new price qty ts).
Proof.
  intros Hm Hp Hq. set (c := ReplaceOrder l old new price qty ts).
  apply (route_ok m M c _ (λ e, replace_reason e M old new price qty)
    (λ e, replace_effect e M old new price qty ts)); [done|..].
  - intros b Hf. split; [intros r; unfold explains; rewrite Hf; done|].
    rewrite (find_book m M) in Hf by done. by apply replaceOrder_spec; [eapply view_ok|..].
  - intros b e' Hf (_&_&_&Hnew) (st&st'&Hst&Habs&Hl&_).
    destruct (owned_view m M c b old st Hm Hf Hst) as [Hs El].
    pose proof (f_equal o_locate Habs) as Eo. cbn in Eo.
    eexists. split; [exact Hl|]. split.
    + eapply change_trans; [by apply (change_delete _ M old st)|].
      apply change_insert; [|congruence]. rewrite lookup_delete. case_decide; [done|].
      destruct Hnew as [?|Hn]; [congruence|]. rewrite (find_book m M) in Hf by done.
      by apply (live_none (view m b) M new (view_ok m M _ b Hm Hf)).
    + rewrite fmap_insert, fmap_delete, Habs. cbn. rewrite (abs_lookup M old st Hs). cbn.
      by rewrite El.
Qed.

Lemma run_steps m M c : mgr_ok m M → cmd_ok c → steps m M c (run m c).
Proof.
  intros Hm. destruct c; cbn [cmd_ok run].
  - intros []. by apply run_add.
  - by apply run_cancel.
  - intros _. by apply run_delete.
  - by apply run_execute.
  - intros []. by apply run_replace.
Qed.

(** ** Creating books *)

Lemma getOrCreate_spec m M loc :
  mgr_ok m M → fits 16 loc →
  let res := getOrCreate m loc in
  mgr_ok (snd res) M ∧
  (isValidStockLocate loc = false → res = (None, m)) ∧
  (isValidStockLocate loc = true →
     fst res = books (snd res) !! loc ∧ is_Some (fst res) ∧
     (∀ l, l ≠ loc → books (snd res) !! l = books m !! l) ∧
     (∀ b, books m !! loc = Some b → res = (Some b, m))).
Proof.
  intros Hm Hl. unfold getOrCreate. rewrite (find_book m M) by done.
  pose proof (prepareBook_spec (m_prices m) loc (lg_store _ _ _ (mg_ledger m M Hm)) Hl) as Hp.
  destruct (isValidStockLocate loc) eqn:Hv; cbn [negb]; [|done].
  destruct (books m !! loc) as [b|] eqn:Hb.
  { cbn [fst snd]. split; [done|]. split; [done|]. intros _. rewrite Hb. naive_solver. }
  destruct (PriceLevelStore.prepareBook (m_prices m) loc) as [r pr] eqn:Epb. cbn [fst snd] in Hp.
  destruct Hp as (->&Hok&Hsd&Hprep). enum. cbn [fst snd books direct_slots m_orders].
  pose proof (valid_good_locate loc Hl Hv) as Hg.
  split; [|split; [done|]; intros _; rewrite lookup_insert_eq; split; [done|]; split; [done|]; split;
    [intros l Hne; by rewrite lookup_insert_ne by done|done]].
  assert (msum (here loc) M = 0) as H0.
  { assert (msum (here loc) M = msum (λ _, 0 * 0) M) as ->; [|rewrite msum_scale; lia].
    apply msum_ext. intros ref st Hst. unfold here. rewrite decide_False; [done|].
    intros E. destruct (mg_home m M Hm ref st Hst) as [b Hb']. congruence. }
  split; cbn [m_orders m_prices books].
  - apply (ledger_same_data _ (m_prices m)); [apply (mg_ledger m M Hm)|done|done].
  - intros l b'. rewrite lookup_insert. case_decide as E.
    + subst l. intros [= <-]. split; try done; cbn.
      * rewrite Hprep, bool_decide_eq_true_2 by done. done.
      * by rewrite H0.
    + intros Hb'. destruct (mg_book m M Hm l b' Hb'). by split.
  - intros l Hgl. rewrite Hprep, (mg_prepared m M Hm) by done. rewrite lookup_insert.
    case_decide as E; [subst; by rewrite bool_decide_eq_true_2|]. by rewrite bool_decide_eq_false_2.
  - intros ref st Hst. rewrite lookup_insert_is_Some'. right. by apply (mg_home m M Hm ref).
  - pose proof (prepareBook_count (m_prices m) loc Hv) as Hc. rewrite Epb in Hc. cbn [snd] in Hc.
    rewrite Hc, (mg_prepared m M Hm), Hb by done. cbn. rewrite map_size_insert_None by done.
    rewrite (mg_count m M Hm). pose proof (books_bound m M Hm).
    rewrite Nat2Z.inj_succ, <- Z.add_1_r. apply Z.mod_small. lia.
Qed.

(** ** Reachable managers *)

Inductive reachable : t → Prop :=
  | reach_make direct buckets pages m :
      fits 64 direct → fits 32 buckets → fits 32 pages →
      make direct buckets pages = Some m → reachable m
  | reach_create m loc : reachable m → fits 16 loc → reachable (snd (getOrCreate m loc))
  | reach_run m c : reachable m → cmd_ok c → reachable (snd (run m c)).

Lemma make_mgr_ok direct buckets pages m :
  fits 64 direct → fits 32 buckets → fits 32 pages → make direct buckets pages = Some m → mgr_ok m ∅.
Proof.
  intros Hd Hb Hp. unfold make.
  destruct (OrderTable.make direct buckets) as [o|] eqn:Ho; [|done].
  destruct (PriceLevelStore.make pages) as [pr|] eqn:Hpr; [|done]. intros [= <-].
  destruct (make_store_ok pages pr Hpr Hp) as [Hok Hlev].
  destruct (OrderTable.make_table_ok direct buckets o Hd Hb Ho) as [Htab Hrec].
  split; cbn [m_orders m_prices books].
  - split; try done. intros ref. unfold OrderTable.live. by rewrite Hrec, lookup_empty.
  - intros loc b. by rewrite lookup_empty.
  - intros loc _. unfold PriceLevelStore.make in Hpr. case_if_in Hpr; [|done]. injection Hpr as <-.
    unfold PriceLevelStore.isBookPrepared. cbn. arena. rewrite andb_false_r. by rewrite lookup_empty.
  - intros ref st. by rewrite lookup_empty.
  - unfold PriceLevelStore.make in Hpr. case_if_in Hpr; [|done]. by injection Hpr as <-.
Qed.

Lemma reachable_ok m : reachable m → ∃ M, mgr_ok m M.
Proof.
  induction 1 as [direct buckets pages m Hd Hb Hp Hm|m loc _ [M IH] Hl|m c _ [M IH] Hc].
  - exists ∅. exact (make_mgr_ok direct buckets pages m Hd Hb Hp Hm).
  - exists M. apply (getOrCreate_spec m M loc IH Hl).
  - destruct (run_steps m M c IH Hc) as (_&_&M'&Hok&_). by exists M'.
Qed.

End ManagerInv.
