(* ===== verification/ManagerProps.v ===== *)
(** The properties of the book manager: refinement of the abstract order map on
    every mutation, absence of internal failures, day-unique references, what the
    books publish, and the two cold scans of the end of a session. *)
From stdpp Require Import base list gmap relations.
From Stdlib Require Import ZArith Lia.
From S2P Require Import Prelude Bits Bitmap BookTypes Orders Prices PricesInv PricesAdd PricesErase.
From S2P Require Import PricesRead Book BookInv BookOps BookTop Probe Directory Manager ManagerInv.
#[local] Open Scope Z_scope.
#[local] Open Scope astra_scope.

Module ManagerProps.
Import OrderBook BookInv BookOps BookTop BookManager ManagerInv PriceStoreInv PriceStoreRead.

(** ** The live-order scan *)

Definition among (ls : list Z) (st : OrderState) : Z := if decide (locate st ∈ ls) then 1 else 0.

Lemma live_scan m M ls start :
  mgr_ok m M → NoDup ls →
  fold_left (λ total slot, match books m !! slot with
                           | Some b => u64 (total + live_order_count b)
                           | None => total
                           end) ls (u64 start) = u64 (start + msum (among ls) M).
Proof.
  intros Hm. revert start. induction ls as [|l ls IH]; intros start Hnd.
  { cbn. f_equal. rewrite (msum_ext _ (λ _, 0 * 0)) by done. rewrite msum_scale. lia. }
  apply NoDup_cons in Hnd as [Hl Hnd]. cbn [fold_left].
  assert (msum (among (l :: ls)) M = msum (here l) M + msum (among ls) M) as ->.
  { rewrite <- msum_plus. apply msum_ext. intros ref st _. unfold among, here.
    destruct (decide (locate st = l)) as [->|Hne].
    - rewrite decide_True by set_solver. by rewrite decide_False.
    - destruct (decide (locate st ∈ ls)); [rewrite decide_True by set_solver|rewrite decide_False by set_solver]; lia. }
  rewrite Z.add_assoc. destruct (books m !! l) as [b|] eqn:Hb.
  - rewrite (be_count _ _ _ _ (mg_book m M Hm l b Hb)).
    assert (u64 (u64 start + u64 (msum (here l) M)) = u64 (start + msum (here l) M)) as ->
      by (unfold u64; by rewrite <- Zplus_mod). by apply IH.
  - assert (msum (here l) M = 0) as ->; [|rewrite Z.add_0_r; by apply IH].
    rewrite (msum_ext _ (λ _, 0 * 0)); [by rewrite msum_scale|]. intros ref st Hst. unfold here.
    rewrite decide_False; [done|]. intros E. destruct (mg_home m M Hm ref st Hst). congruence.
Qed.

Lemma msum_size {A} (M : gmap Z A) : msum (λ _, 1) M = Z.of_nat (size M).
Proof.
  induction M as [|k x M Hk IH] using map_ind; [by rewrite msum_empty, map_size_empty|].
  rewrite msum_insert, map_size_insert_None by done. lia.
Qed.

Lemma total_live m M : mgr_ok m M → totalLiveOrderCount m = u64 (Z.of_nat (size M)).
Proof.
  intros Hm. unfold totalLiveOrderCount. change 0 with (u64 0).
  rewrite (live_scan m M locates 0 Hm) by apply NoDup_range. rewrite <- msum_size. f_equal.
  rewrite Z.add_0_l. apply msum_ext. intros ref st Hst. unfold among. rewrite decide_True; [done|].
  pose proof (or_locate _ _ (lg_order _ _ _ (mg_ledger m M Hm) ref st Hst)) as Hg.
  unfold good_locate in Hg. apply elem_of_range. lia.
Qed.

(** ** The directory audit *)

Definition countOf (P : Z → bool) (ls : list Z) : Z := Z.of_nat (length (filter (λ x, P x = true) ls)).

Lemma count_cons P x ls : countOf P (x :: ls) = (if P x then 1 else 0) + countOf P ls.
Proof.
  unfold countOf. rewrite filter_cons. destruct (P x); [rewrite decide_True by done|rewrite decide_False by done];
    cbn [length]; lia.
Qed.

Lemma count_zero_iff P ls : countOf P ls = 0 ↔ ∀ x, x ∈ ls → P x = false.
Proof.
  induction ls as [|y ls IH]; [split; [intros _ x []%elem_of_nil|done]|].
  rewrite count_cons. assert (0 <= countOf P ls) by (unfold countOf; lia).
  split.
  - intros H0 x [->|Hx]%elem_of_cons; destruct (P _) eqn:E; try lia; try done.
    apply IH in Hx; [congruence|]. destruct (P y); lia.
  - intros Hall. rewrite (Hall y) by set_solver. rewrite (proj2 IH); [done|]. set_solver.
Qed.

Section audit.
Context (d : StockDirectory.t) (m : t).
Let reg (l : Z) : bool := StockDirectory.isRegistered d l.
Let mat (l : Z) : bool := bool_decide (is_Some (books m !! l)).
Let prep (l : Z) : bool := PriceLevelStore.isBookPrepared (m_prices m) l.
Let alien (l : Z) : bool :=
  match books m !! l with
  | Some b => negb (stock_locate b =? l) || negb (symbol_id b =? l)
  | None => false
  end.

Lemma audit_fold ls a :
  fold_left (auditStep d m) ls a =
  mkAudit (registered_symbols a) (materialized_books a + countOf mat ls) (prepared_books a)
    (registered_books_missing a + countOf (λ l, reg l && (negb (mat l) || negb (prep l))) ls)
    (unregistered_books_present a + countOf (λ l, negb (reg l) && (mat l || prep l)) ls)
    (descriptor_price_state_mismatches a + countOf (λ l, negb (eqb (mat l) (prep l))) ls)
    (descriptor_identity_mismatches a + countOf alien ls).
Proof.
  revert a. induction ls as [|l ls IH]; intros a.
  { unfold countOf. cbn. rewrite !Z.add_0_r. by destruct a. }
  cbn [fold_left]. rewrite IH. unfold auditStep. cbn [registered_symbols materialized_books prepared_books
    registered_books_missing unregistered_books_present descriptor_price_state_mismatches
    descriptor_identity_mismatches]. rewrite !count_cons. cbn beta. fold (reg l) (mat l) (prep l) (alien l).
  f_equal; repeat case_if; lia.
Qed.

Lemma clean_iff :
  clean (auditDirectory m d) = true ↔
  (∀ l, good_locate l → reg l = mat l ∧ prep l = mat l ∧ alien l = false) ∧
  StockDirectory.size d = countOf mat locates ∧
  StockDirectory.size d = PriceLevelStore.prepared_book_count (m_prices m).
Proof.
  unfold auditDirectory. rewrite audit_fold. unfold clean. cbn [registered_symbols materialized_books
    prepared_books registered_books_missing unregistered_books_present descriptor_price_state_mismatches
    descriptor_identity_mismatches]. rewrite !Z.add_0_l, !andb_true_iff, !Z.eqb_eq, !count_zero_iff.
  assert (∀ l, l ∈ locates ↔ good_locate l) as Hin.
  { intros l. unfold locates. rewrite elem_of_range. unfold good_locate. lia. }
  split.
  - intros (((((H1&H2)&H3)&H4)&H5)&H6). split; [|done]. intros l Hl. apply Hin in Hl.
    specialize (H1 l Hl); specialize (H2 l Hl); specialize (H3 l Hl); specialize (H4 l Hl).
    by destruct (reg l), (mat l), (prep l).
  - intros (Hall&H5&H6). repeat split; try done; intros l Hl; apply Hin in Hl;
      destruct (Hall l Hl) as (E1&E2&E3); rewrite ?E1, ?E2, ?E3; by destruct (mat l).
Qed.

End audit.

(** The books counted by the scan are all the books. *)
Lemma count_books m M :
  mgr_ok m M → countOf (λ l, bool_decide (is_Some (books m !! l))) locates = Z.of_nat (size (books m)).
Proof.
  intros Hm. unfold countOf. f_equal. rewrite <- size_dom.
  assert (dom (books m) = list_to_set (filter (λ l, bool_decide (is_Some (books m !! l)) = true) locates)) as ->.
  { apply set_eq. intros l. rewrite elem_of_list_to_set, list_elem_of_filter, elem_of_dom, bool_decide_eq_true.
    split; [|tauto]. intros [b Hb]. split; [by exists b|].
    pose proof (be_good _ _ _ _ (mg_book m M Hm l b Hb)) as Hg. unfold good_locate in Hg.
    apply elem_of_range. lia. }
  rewrite size_list_to_set; [done|]. apply NoDup_filter, NoDup_range.
Qed.

(** When registrations and books agree, so do their numbers. *)
Lemma directory_size m M d :
  mgr_ok m M → StockDirectory.dir_ok d →
  (∀ l, good_locate l → StockDirectory.registered d l ↔ is_Some (books m !! l)) →
  StockDirectory.size d = Z.of_nat (size (books m)).
Proof.
  intros Hm Hd Hall. destruct (StockDirectory.do_count d Hd) as (R&HR&Hc).
  unfold StockDirectory.size. rewrite Hc, <- size_dom. do 2 f_equal. apply set_eq. intros l.
  rewrite HR, elem_of_dom. split.
  - intros Hr. by apply Hall; [apply Hr|].
  - intros Hb. apply Hall; [|done]. destruct Hb as [b Hb]. apply (be_good _ _ _ _ (mg_book m M Hm l b Hb)).
Qed.

Lemma clean_registered m M d :
  mgr_ok m M → StockDirectory.dir_ok d →
  clean (auditDirectory m d) = true ↔
  ∀ l, good_locate l → StockDirectory.registered d l ↔ is_Some (getOrderBook m l).
Proof.
  intros Hm Hd. rewrite clean_iff. unfold getOrderBook.
  assert (∀ l, good_locate l →
    StockDirectory.isRegistered d l = bool_decide (is_Some (books m !! l)) ↔
    (StockDirectory.registered d l ↔ is_Some (books m !! l))) as Heq.
  { intros l Hg. rewrite <- (StockDirectory.isRegistered_iff d l (StockDirectory.good_fits l Hg)).
    case_bool_decide; destruct (StockDirectory.isRegistered d l); naive_solver. }
  setoid_rewrite (find_book m M); [|done]. split.
  - intros [Hall _] l Hg. apply Heq; [done|]. apply (Hall l Hg).
  - intros Hall. rewrite (count_books m M Hm), (mg_count m M Hm), (directory_size m M d Hm Hd Hall).
    split; [|done]. intros l Hg. split; [by apply Heq, Hall|]. split; [apply (mg_prepared m M Hm l Hg)|].
    destruct (books m !! l) as [b|] eqn:Hb; [|done].
    destruct (mg_book m M Hm l b Hb). by rewrite be_locate0, be_symbol0, Z.eqb_refl.
Qed.

(** ** Evolution *)

(** One administrative or message step of the manager. *)
Inductive evolve : t → t → Prop :=
  | evolve_create m loc : fits 16 loc → evolve m (snd (getOrCreate m loc))
  | evolve_run m c : cmd_ok c → evolve m (snd (run m c)).

Lemma create_orders m loc : m_orders (snd (getOrCreate m loc)) = m_orders m.
Proof.
  unfold getOrCreate. destruct (negb _); [done|]. destruct (find m loc); [done|].
  destruct (PriceLevelStore.prepareBook _ _). by destruct (negb _).
Qed.

Lemma evolve_ok m m' M :
  mgr_ok m M → evolve m m' → keeps_seen (m_orders m) (m_orders m') ∧ ∃ M', mgr_ok m' M'.
Proof.
  intros Hm Hev. revert Hm. destruct Hev as [m loc Hl|m c Hc]; intros Hm.
  - rewrite create_orders. split; [apply keeps_refl|]. exists M. apply (getOrCreate_spec _ M loc Hm Hl).
  - destruct (run_steps _ M c Hm Hc) as (_&Hk&M'&Hok&_). split; [done|by exists M'].
Qed.

Lemma evolve_seen m m' M :
  mgr_ok m M → rtc evolve m m' → keeps_seen (m_orders m) (m_orders m') ∧ ∃ M', mgr_ok m' M'.
Proof.
  intros Hm Hr. revert M Hm. induction Hr as [m|m1 m2 m3 H12 _ IH]; intros M Hm.
  - split; [apply keeps_refl|by exists M].
  - destruct (evolve_ok m1 m2 M Hm H12) as (Hk&M2&Hm2). destruct (IH M2 Hm2) as [Hk' HM].
    split; [by eapply keeps_trans|done].
Qed.

(** The reference a command would enter into the table. *)
Definition creates (c : Command) (id : Z) : Prop :=
  match c with
  | AddOrder _ x _ _ _ _ => x = id
  | ReplaceOrder _ old new _ _ _ => new = id ∧ old ≠ id
  | _ => False
  end.

Lemma creates_fresh m M c id :
  explains m M c Applied → creates c id → OrderTable.record (m_orders m) id = None.
Proof.
  unfold explains. destruct (find m (cmd_locate c)) as [b|]; [|done].
  destruct c; cbn; try done.
  - by intros (_&_&_&?) ->.
  - intros (_&_&_&[->|H]) [-> Hne]; [done|exact H].
Qed.

Lemma created_seen m M c id :
  mgr_ok m M → cmd_ok c → fst (run m c) = Applied → creates c id →
  OrderTable.record (m_orders (snd (run m c))) id ≠ None.
Proof.
  intros Hm Hc Ha Hcr. destruct (run_steps m M c Hm Hc) as (Hex&_&M'&Hm'&Heff).
  rewrite Ha in Hex, Heff. enum in Heff. unfold explains in Hex.
  destruct (find m (cmd_locate c)) as [b|]; [|done].
  assert (is_Some ((abs <$> M') !! id)) as [o Ho].
  { rewrite Heff. destruct c; cbn in *; try done; subst.
    - rewrite lookup_insert_eq. by eexists.
    - destruct Hcr as [-> _]. destruct Hex as ([st [Hst _]]&_). rewrite lookup_fmap, Hst. cbn. rewrite lookup_insert_eq. by eexists. }
  rewrite lookup_fmap in Ho. destruct (M' !! id) as [st|] eqn:E; [|done].
  intros Hn. rewrite <- (lg_live _ _ _ (mg_ledger _ _ Hm')) in E. unfold OrderTable.live in E.
  by rewrite Hn in E.
Qed.

(** ** Properties *)

(** C4. Every mutation routed by the manager (add, cancel, delete,
    execute, replace) refines the abstract map of live orders: an applied message
    performs exactly its abstract effect and keeps the invariant, a rejected one
    leaves every live order as it was, and each result is returned for its
    documented reason only (in particular an unprepared locate gives
    BookNotPrepared and no internal-failure result is possible). *)
Theorem manager_refines m M c :
  mgr_ok m M → cmd_ok c →
  explains m M c (fst (run m c)) ∧
  ∃ M', mgr_ok (snd (run m c)) M' ∧
    (fst (run m c) = Applied → abs <$> M' = effect c (abs <$> M)) ∧
    (fst (run m c) ≠ Applied → M' = M).
Proof.
  intros Hm Hc. destruct (run_steps m M c Hm Hc) as (He&_&M'&Hok&H). split; [done|].
  exists M'. split; [done|]. case_bool_decide; naive_solver.
Qed.

(** In every state reachable from construction by
    creating books and applying messages, no message produces one of the results
    that invalidate a book (quantity over- or underflow, invalid page, missing
    level, stale reservation, invariant violation), and every materialised book
    is valid. *)
Theorem manager_never_invalidates m c :
  reachable m → cmd_ok c →
  invalidating (fst (run m c)) = false ∧
  ∀ loc b, books m !! loc = Some b → local_invalid b = false.
Proof.
  intros Hr Hc. destruct (reachable_ok m Hr) as [M Hm]. split.
  - destruct (run_steps m M c Hm Hc) as (He&_). unfold explains in He.
    destruct (find m (cmd_locate c)) as [b|]; [|by rewrite He].
    destruct c, (fst (run m _)); done.
  - intros loc b Hb. apply (be_valid _ _ _ _ (mg_book m M Hm loc b Hb)).
Qed.

(** Once a reference has been entered by an applied
    add or replace, no later add or replace enters it again, whatever messages and
    registrations come between, also after the order was deleted or executed. *)
Theorem references_are_day_unique m c c' id m' :
  reachable m → cmd_ok c → fst (run m c) = Applied → creates c id →
  rtc evolve (snd (run m c)) m' → cmd_ok c' → creates c' id → fst (run m' c') ≠ Applied.
Proof.
  intros Hr Hc Ha Hcr Hev Hc' Hcr' Ha'. destruct (reachable_ok m Hr) as [M Hm].
  pose proof (created_seen m M c id Hm Hc Ha Hcr) as Hseen.
  destruct (run_steps m M c Hm Hc) as (_&_&M1&Hm1&_).
  destruct (evolve_seen _ _ M1 Hm1 Hev) as (Hk&M2&Hm2).
  destruct (run_steps m' M2 c' Hm2 Hc') as (He&_). rewrite Ha' in He.
  apply (Hk id Hseen). by eapply creates_fresh.
Qed.

(** Creating a book for a valid locate always succeeds,
    is idempotent, touches no other book and no live order, and keeps the
    invariant; the reserved locate zero creates nothing. *)
Theorem manager_get_or_create m M loc :
  mgr_ok m M → fits 16 loc →
  let res := getOrCreate m loc in
  mgr_ok (snd res) M ∧
  (isValidStockLocate loc = false → res = (None, m)) ∧
  (isValidStockLocate loc = true →
     fst res = books (snd res) !! loc ∧ is_Some (fst res) ∧
     (∀ l, l ≠ loc → books (snd res) !! l = books m !! l) ∧
     (∀ b, books m !! loc = Some b → res = (Some b, m))).
Proof. apply getOrCreate_spec. Qed.

(** C30. The top of book of a materialised book is the best bid
    and the best ask among its live orders: the highest (lowest) price with a live
    buy (sell) order and the total quantity resting there; a side is absent exactly
    when it has no live order. *)
Theorem top_of_book_is_best m M loc b :
  mgr_ok m M → getOrderBook m loc = Some b →
  let top := getTopOfBook (view m b) in
  top_side M loc Buy (has_bid top) (bid_price top) (bid_qty top) ∧
  top_side M loc Sell (has_ask top) (ask_price top) (ask_qty top) ∧
  top_symbol_id top = loc.
Proof.
  intros Hm Hf. unfold getOrderBook in Hf. rewrite (find_book m M) in Hf by done.
  pose proof (getTopOfBook_spec _ M (ManagerInv.view_ok m M loc b Hm Hf)) as (H1&H2&H3&_).
  cbn [book view] in H1, H2, H3. rewrite (be_locate _ _ _ _ (mg_book m M Hm loc b Hf)) in H1, H2, H3.
  split; [exact H1|]. split; [exact H2|exact H3].
Qed.

(** The depth update of a book lists, best first, at most
    ten price levels per side, each with the total quantity and the number of its
    live orders; a price with live orders is left out only when ten better ones
    are listed. *)
Theorem book_update_is_top_ten m M loc b :
  mgr_ok m M → getOrderBook m loc = Some b →
  let up := getBookUpdate (view m b) in
  depth_side M loc Buy 10 (up_bids up) ∧ depth_side M loc Sell 10 (up_asks up) ∧
  bids_depth up = Z.of_nat (length (up_bids up)) ∧ asks_depth up = Z.of_nat (length (up_asks up)).
Proof.
  intros Hm Hf. unfold getOrderBook in Hf. rewrite (find_book m M) in Hf by done.
  pose proof (getBookUpdate_spec _ M (ManagerInv.view_ok m M loc b Hm Hf)) as Hup.
  cbn [book view] in Hup. rewrite (be_locate _ _ _ _ (mg_book m M Hm loc b Hf)) in Hup. exact Hup.
Qed.

(** The end-of-session scan returns the number of live
    orders of all books together (modulo 2^64), so it is zero when no order is
    live. *)
Theorem live_count_is_exact m M :
  mgr_ok m M → totalLiveOrderCount m = u64 (Z.of_nat (size M)).
Proof. apply total_live. Qed.

(** For a manager and a directory that satisfy their invariants,
    the end-of-session audit is clean exactly when every registered locate has a
    book and every book a registered locate. *)
Theorem audit_clean_iff m M d :
  mgr_ok m M → StockDirectory.dir_ok d →
  clean (auditDirectory m d) = true ↔
  ∀ l, good_locate l → StockDirectory.registered d l ↔ is_Some (getOrderBook m l).
Proof. apply clean_registered. Qed.

(** ** A concrete manager

    Sixteen direct slots, four fallback buckets and four pages; the book of
    locate 7 with one buy order of 5 shares at 0.1000. *)

Definition fresh : t :=
  mk 16 (OrderTable.mk 16 4 ∅ ∅) (PriceLevelStore.mk 4 ∅ ∅ ∅ ∅ ∅ ∅ ∅ ∅ 0 0 0) ∅.
Definition prepared : t := snd (getOrCreate fresh 7).
Definition firstAdd : Command := AddOrder 7 100 1000 5 66 1.
Definition trading : t := snd (run prepared firstAdd).

Lemma prepared_reachable : reachable prepared.
Proof. by apply reach_create; [apply (reach_make 16 4 4)|]. Qed.

Lemma firstAdd_applied : fst (run prepared firstAdd) = Applied.
Proof. vm_compute. reflexivity. Qed.

Lemma prepared_ok : mgr_ok prepared ∅.
Proof.
  apply (getOrCreate_spec fresh ∅ 7); [|done]. by apply (make_mgr_ok 16 4 4).
Qed.

Lemma trading_ok :
  ∃ M, mgr_ok trading M ∧ abs <$> M = {[100 := mkO 7 Buy 1000 5]}.
Proof.
  destruct (run_steps prepared ∅ firstAdd prepared_ok) as (_&_&M&Hok&Heff); [by split|].
  rewrite firstAdd_applied in Heff. enum in Heff. exists M. split; [exact Hok|]. by rewrite Heff.
Qed.

Lemma manager_refines_witness :
  ∃ M, mgr_ok trading M ∧ abs <$> M = {[100 := mkO 7 Buy 1000 5]}.
Proof.
  destruct (manager_refines prepared ∅ firstAdd prepared_ok) as (_&M&Hok&Heff&_); [by split|].
  exists M. split; [exact Hok|]. by rewrite (Heff firstAdd_applied).
Defined.

Lemma manager_never_invalidates_witness :
  invalidating (fst (run prepared (CancelShares 7 100 3 2))) = false.
Proof.
  exact (proj1 (manager_never_invalidates prepared (CancelShares 7 100 3 2) prepared_reachable
    ltac:(done))).
Defined.

Lemma references_are_day_unique_witness :
  fst (run (snd (run trading (DeleteOrder 7 100 2))) (AddOrder 7 100 2000 1 83 3)) ≠ Applied.
Proof.
  refine (references_are_day_unique prepared firstAdd (AddOrder 7 100 2000 1 83 3) 100 _
    prepared_reachable _ firstAdd_applied eq_refl _ _ eq_refl); [done| |done].
  apply rtc_once. by apply (evolve_run _ (DeleteOrder 7 100 2)).
Defined.

Lemma manager_get_or_create_witness : is_Some (fst (getOrCreate fresh 7)).
Proof.
  assert (mgr_ok fresh ∅) as Hf by (by apply (make_mgr_ok 16 4 4)).
  destruct (manager_get_or_create fresh ∅ 7 Hf ltac:(done)) as (_&_&H). apply (H eq_refl).
Defined.

Lemma trading_book : getOrderBook trading 7 = Some (OrderBook.mk 7 7 false 16 1 0 1).
Proof. vm_compute. reflexivity. Qed.

Lemma top_of_book_is_best_witness :
  ∃ M, mgr_ok trading M ∧ quoted M 7 Buy 1000 ∧ msum (qty_at 7 Buy 1000) M = 5.
Proof.
  destruct trading_ok as (M&Hok&_). exists M. split; [exact Hok|].
  destruct (top_of_book_is_best trading M 7 _ Hok trading_book) as (H&_).
  assert (has_bid (getTopOfBook (view trading (OrderBook.mk 7 7 false 16 1 0 1))) = true) as E1
    by (vm_compute; reflexivity).
  assert (bid_price (getTopOfBook (view trading (OrderBook.mk 7 7 false 16 1 0 1))) = 1000) as E2
    by (vm_compute; reflexivity).
  assert (bid_qty (getTopOfBook (view trading (OrderBook.mk 7 7 false 16 1 0 1))) = 5) as E3
    by (vm_compute; reflexivity).
  rewrite E1, E2, E3 in H. destruct H as (H1&H2&_). split; [exact H1|symmetry; exact H2].
Defined.

Lemma book_update_is_top_ten_witness :
  ∃ M, mgr_ok trading M ∧ depth_side M 7 Buy 10 [(1000, 5, 1)].
Proof.
  destruct trading_ok as (M&Hok&_). exists M. split; [exact Hok|].
  destruct (book_update_is_top_ten trading M 7 _ Hok trading_book) as (H&_).
  assert (up_bids (getBookUpdate (view trading (OrderBook.mk 7 7 false 16 1 0 1))) = [(1000, 5, 1)]) as E
    by (vm_compute; reflexivity).
  rewrite E in H. exact H.
Defined.

Lemma live_count_is_exact_witness : totalLiveOrderCount prepared = 0.
Proof. rewrite (live_count_is_exact prepared ∅ prepared_ok). reflexivity. Defined.

Lemma audit_clean_iff_witness :
  StockDirectory.registered StockDirectory.sample 7 ↔ is_Some (getOrderBook prepared 7).
Proof.
  refine (proj1 (audit_clean_iff prepared ∅ StockDirectory.sample prepared_ok
    StockDirectory.sample_ok) _ 7 _); [vm_compute; reflexivity|done].
Defined.

End ManagerProps.
