(* ===== verification/Gap.v ===== *)
(** The gap buffer of [GapBuffer.hpp]: an open-addressing table of packets that
    arrived ahead of the expected sequence.

    Module [GapBuffer] is the class, parametrised by its capacity (the code's is
    [kCapacity]); it implements the interface [RecoveryBuffer] the decoder is
    written against: a finite map from first sequence to packet. *)
From stdpp Require Import base list gmap.
From Stdlib Require Import ZArith Lia.
From S2P Require Import Prelude Bits Probe.
#[local] Open Scope Z_scope.
#[local] Open Scope astra_scope.

(** [SequencedPacket]: [data] holds the [len] bytes copied in; the rest of the
    fixed array is never read. *)
Record SequencedPacket := mkPacket {
  seq : Z;
  receive_start_ticks : Z;
  msg_count : Z;
  len : Z;
  data : list Z }.
#[global] Instance SequencedPacket_eq_dec : EqDecision SequencedPacket.
Proof. solve_decision. Defined.
#[global] Instance SequencedPacket_zeroed : Zeroed SequencedPacket := mkPacket 0 0 0 0 [].

Definition kMaxPacketSize : Z := 2048.

Inductive InsertResult :=
  | Inserted | DuplicateIdentical | ConflictingDuplicate | InvalidPacket | CapacityExceeded.
#[global] Instance InsertResult_eq_dec : EqDecision InsertResult.
Proof. solve_decision. Defined.

(** Two copies of a packet agree on everything but their arrival time. *)
Definition same_packet (p q : SequencedPacket) : Prop :=
  seq p = seq q ∧ len p = len q ∧ msg_count p = msg_count q ∧ data p = data q.
#[global] Instance same_packet_dec p q : Decision (same_packet p q).
Proof. unfold same_packet. apply _. Defined.

(** ** What the decoder relies on *)

Class RecoveryBuffer (B : Type) := {
  rb_empty : B;
  rb_insert : B → SequencedPacket → InsertResult * B;
  rb_find : B → Z → option SequencedPacket;
  rb_erase : B → Z → B;
  rb_size : B → Z;
  rb_capacity : Z;
  (** The buffer holds exactly the packets of the map, each under its sequence. *)
  rb_holds : B → gmap Z SequencedPacket → Prop;
  rb_holds_empty : rb_holds rb_empty ∅;
  rb_holds_key : ∀ b M k p, rb_holds b M → M !! k = Some p → seq p = k;
  rb_find_spec : ∀ b M k, rb_holds b M → rb_find b k = M !! k;
  rb_size_spec : ∀ b M, rb_holds b M → rb_size b = Z.of_nat (size M);
  rb_erase_spec : ∀ b M k, rb_holds b M → rb_holds (rb_erase b k) (delete k M);
  rb_insert_spec : ∀ b M p, rb_holds b M → len p <= kMaxPacketSize →
    let res := rb_insert b p in
    match M !! seq p with
    | Some q => snd res = b ∧
                fst res = if decide (same_packet q p) then DuplicateIdentical else ConflictingDuplicate
    | None => if Z.of_nat (size M) <? rb_capacity
              then fst res = Inserted ∧ rb_holds (snd res) (<[seq p := p]> M)
              else res = (CapacityExceeded, b)
    end }.

Module GapBuffer.

Definition kCapacity : Z := 1024 * 1024.

Record Slot := mkSlot { occupied : bool; packet : SequencedPacket }.
#[global] Instance Slot_zeroed : Zeroed Slot := mkSlot false zeroed.

Record t := mk { slots : arr Slot; count : Z }.

Definition clear : t := mk ∅ 0.
Definition empty (g : t) : bool := count g =? 0.
Definition size (g : t) : Z := count g.

(** The finalizer of MurmurHash3, at 64 bits. *)
Definition hash (value : Z) : Z :=
  let value := value .^ (value ≫ 33) in
  let value := u64 (value * 0xff51afd7ed558ccd) in
  let value := value .^ (value ≫ 33) in
  let value := u64 (value * 0xc4ceb9fe1a85ec53) in
  value .^ (value ≫ 33).

Section buffer.
Context (capacity : Z).

Definition kMask : Z := capacity - 1.
Definition slotFor (seq : Z) : Z := hash seq .& kMask.
Definition next (slot : Z) : Z := (slot + 1) .& kMask.
Definition probeDistance (natural slot : Z) : Z := u32 (slot - natural) .& kMask.

(** [insert] from the [probes]-th probe on; [n] probes remain. *)
Fixpoint insertLoop (g : t) (p : SequencedPacket) (start : Z) (n : nat) (probes : Z) : InsertResult * t :=
  match n with
  | O => (CapacityExceeded, g)
  | S n =>
    let i := (start + probes) .& kMask in
    let slot := (slots g).[i] in
    if occupied slot && (seq (packet slot) =? seq p) then
      if negb (len (packet slot) =? len p) || negb (msg_count (packet slot) =? msg_count p) ||
         negb (bool_decide (data (packet slot) = data p))
      then (ConflictingDuplicate, g) else (DuplicateIdentical, g)
    else if negb (occupied slot) then
      (Inserted, mk (<[i := mkSlot true p]> (slots g)) (u32 (count g + 1)))
    else insertLoop g p start n (probes + 1)
  end.

(** [insert]; the arguments are the members of [p]. *)
Definition insert (g : t) (p : SequencedPacket) : InsertResult * t :=
  if kMaxPacketSize <? len p then (InvalidPacket, g)
  else insertLoop g p (slotFor (seq p)) (Z.to_nat capacity) 0.

Fixpoint findLoop (g : t) (key start : Z) (n : nat) (probes : Z) : option Z :=
  match n with
  | O => None
  | S n =>
    let i := (start + probes) .& kMask in
    if negb (occupied (slots g).[i]) then None else
    if seq (packet (slots g).[i]) =? key then Some i else
    findLoop g key start n (probes + 1)
  end.

Definition find (g : t) (key : Z) : option SequencedPacket :=
  (λ i, packet (slots g).[i]) <$> findLoop g key (slotFor key) (Z.to_nat capacity) 0.

(** The loop of [eraseAt]: the slots and the final gap. *)
Fixpoint shiftLoop (s : arr Slot) (n : nat) (gap slot : Z) : arr Slot * Z :=
  match n with
  | O => (s, gap)
  | S n =>
    let entry := s.[slot] in
    if negb (occupied entry) then (s, gap) else
    let natural := slotFor (seq (packet entry)) in
    if probeDistance natural gap <? probeDistance natural slot
    then shiftLoop (<[gap := entry]> s) n slot (next slot)
    else shiftLoop s n gap (next slot)
  end.

Definition eraseAt (g : t) (erase_slot : Z) : t :=
  let '(s, gap) := shiftLoop (slots g) (Z.to_nat (capacity - 1)) erase_slot (next erase_slot) in
  mk (<[gap := zeroed]> s) (u32 (count g - 1)).

(** [erase] probes like [find] and removes the slot it stops at. *)
Definition erase (g : t) (key : Z) : t :=
  match findLoop g key (slotFor key) (Z.to_nat capacity) 0 with
  | Some i => eraseAt g i
  | None => g
  end.

Record Stats := mkStats { st_size : Z; min_seq : Z; max_seq : Z; next_seq_at_or_after : Z }.

(** One slot of the scan of [stats]: the running minimum, maximum and next. *)
Definition statStep (g : t) (expected : Z) (acc : Z * Z * Z) (i : Z) : Z * Z * Z :=
  let '(lo, hi, nx) := acc in
  if negb (occupied (slots g).[i]) then acc else
  let s := seq (packet (slots g).[i]) in
  (if s <? lo then s else lo, if hi <? s then s else hi,
   if (expected <=? s) && (s <? nx) then s else nx).

Definition stats (g : t) (expected_seq : Z) : Stats :=
  if count g =? 0 then mkStats (count g) 0 0 0 else
  let '(lo, hi, nx) :=
    fold_left (statStep g expected_seq) (range (Z.to_nat capacity) 0) (max_u64, 0, max_u64) in
  mkStats (count g) lo hi (if negb (nx =? max_u64) then nx else 0).

(** ** Correctness *)

Context (bits : Z) (Hbits : 0 <= bits <= 31) (Hcapacity : capacity = 2 ^ bits).

Lemma cap_pos : 0 < capacity.
Proof. rewrite Hcapacity. apply Z.pow_pos_nonneg; lia. Qed.

Lemma mask_mod x : x .& kMask = x mod capacity.
Proof. unfold kMask. rewrite Hcapacity. apply land_ones_mod. lia. Qed.

Lemma slotFor_slot k : 0 <= slotFor k < capacity.
Proof. unfold slotFor. rewrite mask_mod. apply Z.mod_pos_bound, cap_pos. Qed.

Lemma next_next x : next x = Probe.next capacity x.
Proof. unfold next. by rewrite mask_mod. Qed.

Lemma distance_dist a b : probeDistance a b = Probe.dist capacity a b.
Proof.
  unfold probeDistance, u32, Probe.dist. rewrite mask_mod, Hcapacity.
  apply Z.mod_mod_divide.
  exists (2 ^ (32 - bits)). rewrite <- Z.pow_add_r by lia. f_equal. lia.
Qed.

(** The table of the probing theory. *)
Definition table (s : arr Slot) (x : Z) : option SequencedPacket :=
  if occupied s.[x] then Some (packet s.[x]) else None.

Abbreviation probed := (Probe.probed capacity seq slotFor).
Abbreviation slot := (Probe.slot capacity).

Record holds (g : t) (M : gmap Z SequencedPacket) : Prop := {
  gb_probed : probed (table (slots g));
  gb_map : ∀ k p, M !! k = Some p ↔ seq p = k ∧ ∃ x, table (slots g) x = Some p;
  gb_count : count g = Z.of_nat (base.size M) }.

Definition stopAt (g : t) (key : Z) (x : Z) : bool :=
  negb (occupied (slots g).[x]) || (seq (packet (slots g).[x]) =? key).

Lemma gap_stopAt_iff g key x :
  slot x → stopAt g key x = true ↔
  table (slots g) x = None ∨ ∃ e, table (slots g) x = Some e ∧ seq e = key.
Proof.
  intros _. unfold stopAt, table. destruct (occupied (slots g).[x]); cbn [negb orb].
  - rewrite Z.eqb_eq. naive_solver.
  - naive_solver.
Qed.

(** Probe number [probes] of a loop is the slot [scan] is at. *)
Lemma probe_next start probes :
  Probe.next capacity ((start + probes) mod capacity) = (start + (probes + 1)) mod capacity.
Proof.
  pose proof cap_pos. unfold Probe.next. rewrite Zplus_mod_idemp_l. f_equal. lia.
Qed.

Lemma findLoop_scan g key start n probes :
  findLoop g key start n probes =
  match Probe.scan capacity (stopAt g key) n ((start + probes) mod capacity) with
  | Some y => if occupied (slots g).[y] then Some y else None
  | None => None
  end.
Proof.
  revert probes. induction n as [|n IH]; intros probes; [done|]. cbn [findLoop Probe.scan].
  rewrite mask_mod. unfold stopAt at 1. set (i := (start + probes) mod capacity).
  destruct (occupied (slots g).[i]) eqn:Eo; cbn [negb orb]; [|by rewrite Eo].
  case_if; [by rewrite Eo|]. rewrite IH. unfold i. by rewrite probe_next.
Qed.

Lemma start_mod key : (slotFor key + 0) mod capacity = slotFor key.
Proof. rewrite Z.add_0_r. apply Z.mod_small, slotFor_slot. Qed.

Abbreviation scanFor g key :=
  (Probe.scan capacity (stopAt g key) (Z.to_nat capacity) (slotFor key)).

Lemma scan_hit g M key p :
  holds g M → M !! key = Some p → ∃ x, scanFor g key = Some x ∧ table (slots g) x = Some p.
Proof.
  intros Hg Hp. apply (gb_map g M Hg) in Hp as (Hk&x&Hx). exists x. split; [|done].
  by apply (Probe.search_hit capacity cap_pos seq slotFor slotFor_slot _ (gb_probed g M Hg) _ _
    (gap_stopAt_iff g key) x p).
Qed.

Lemma scan_miss g M key :
  holds g M → M !! key = None →
  match scanFor g key with
  | Some y => slot y ∧ table (slots g) y = None ∧
      ∀ w, slot w → Probe.dist capacity (slotFor key) w < Probe.dist capacity (slotFor key) y →
           table (slots g) w ≠ None
  | None => ∀ w, slot w → table (slots g) w ≠ None
  end.
Proof.
  intros Hg Hn. apply (Probe.search_miss capacity cap_pos seq slotFor slotFor_slot _ _ _
    (gap_stopAt_iff g key)).
  intros x e He Hk. assert (M !! key = Some e); [|congruence]. apply (gb_map g M Hg). eauto.
Qed.

Lemma find_holds g M key : holds g M → find g key = M !! key.
Proof.
  intros Hg. unfold find. rewrite findLoop_scan, start_mod. destruct (M !! key) as [p|] eqn:E.
  - destruct (scan_hit g M key p Hg E) as (x&->&Hx). unfold table in Hx.
    destruct (occupied (slots g).[x]); [|done]. cbn. congruence.
  - pose proof (scan_miss g M key Hg E) as Hm. destruct (Probe.scan _ _ _ _) as [y|]; [|done].
    destruct Hm as (_&Hy&_). unfold table in Hy. by destruct (occupied (slots g).[y]).
Qed.

(** ** Counting slots *)

Lemma size_slots g M :
  holds g M →
  base.size M = length (filter (λ x, table (slots g) x ≠ None) (range (Z.to_nat capacity) 0)).
Proof.
  intros Hg. pose proof cap_pos. set (L := filter _ _).
  assert (∀ x, x ∈ L ↔ ∃ p, table (slots g) x = Some p) as HL.
  { intros x. unfold L. rewrite list_elem_of_filter, elem_of_range. split.
    - intros [Hn _]. destruct (table (slots g) x) as [p|]; [by exists p|done].
    - intros [p Hp]. split; [congruence|]. pose proof (Probe.pb_dom _ _ _ _ (gb_probed g M Hg) x p Hp) as Hs.
      unfold Probe.slot in Hs. lia. }
  rewrite <- size_dom. set (key x := seq (packet (slots g).[x])).
  assert (∀ x p, table (slots g) x = Some p → key x = seq p) as Hkey.
  { intros x p. unfold table, key. destruct (occupied _); [|done]. by intros [= ->]. }
  assert (dom M = list_to_set (key <$> L)) as ->.
  { apply set_eq. intros k. rewrite elem_of_dom, elem_of_list_to_set, list_elem_of_fmap. split.
    - intros [p Hp]. apply (gb_map g M Hg) in Hp as (<-&x&Hx). exists x. split.
      + symmetry. by apply Hkey.
      + apply HL. by exists p.
    - intros (x&->&Hx). apply HL in Hx as [p Hp]. exists p. apply (gb_map g M Hg).
      split; [symmetry; by apply Hkey|by exists x]. }
  rewrite size_list_to_set, length_fmap; [done|]. apply NoDup_fmap_2_strong.
  - intros x y Hx Hy Hk. apply HL in Hx as [p Hp]. apply HL in Hy as [q Hq].
    rewrite (Hkey x p Hp), (Hkey y q Hq) in Hk. by apply (Probe.pb_uniq _ _ _ _ (gb_probed g M Hg) x y p q).
  - apply NoDup_filter, NoDup_range.
Qed.

Lemma full_iff g M :
  holds g M → (∀ w, slot w → table (slots g) w ≠ None) ↔ capacity <= Z.of_nat (base.size M).
Proof.
  intros Hg. rewrite (size_slots g M Hg). pose proof cap_pos.
  pose proof (length_range (Z.to_nat capacity) 0) as Hlen. split.
  - intros Hfull. assert (filter (λ x, table (slots g) x ≠ None) (range (Z.to_nat capacity) 0) =
      range (Z.to_nat capacity) 0) as ->; [|lia].
    apply filter_all. intros x Hx%elem_of_range. apply Hfull. unfold Probe.slot. lia.
  - intros Hle w Hw Hn.
    assert (length (filter (λ x, table (slots g) x ≠ None) (range (Z.to_nat capacity) 0)) <
            length (range (Z.to_nat capacity) 0))%nat; [|lia].
    apply (length_filter_lt _ _ w); [apply elem_of_range; unfold Probe.slot in Hw; lia|].
    intros Hf. by apply Hf.
Qed.

Lemma size_le g M : holds g M → Z.of_nat (base.size M) <= capacity.
Proof.
  intros Hg. rewrite (size_slots g M Hg). pose proof cap_pos.
  pose proof (length_filter (λ x, table (slots g) x ≠ None) (range (Z.to_nat capacity) 0)) as Hl.
  rewrite length_range in Hl. lia.
Qed.

(** ** [insert] *)

Lemma insertLoop_scan g p start n probes :
  insertLoop g p start n probes =
  match Probe.scan capacity (stopAt g (seq p)) n ((start + probes) mod capacity) with
  | Some y =>
    if occupied (slots g).[y]
    then (if decide (same_packet (packet (slots g).[y]) p) then DuplicateIdentical
          else ConflictingDuplicate, g)
    else (Inserted, mk (<[y := mkSlot true p]> (slots g)) (u32 (count g + 1)))
  | None => (CapacityExceeded, g)
  end.
Proof.
  revert probes. induction n as [|n IH]; intros probes; [done|]. cbn [insertLoop Probe.scan].
  rewrite mask_mod. unfold stopAt at 1. set (i := (start + probes) mod capacity).
  destruct (occupied (slots g).[i]) eqn:Eo; cbn [negb orb andb]; [|by rewrite Eo].
  destruct (Z.eqb_spec (seq (packet (slots g).[i])) (seq p)) as [Es|Es].
  - rewrite Eo. unfold same_packet.
    destruct (Z.eqb_spec (len (packet (slots g).[i])) (len p)); cbn [negb orb];
      [|rewrite decide_False by tauto; done].
    destruct (Z.eqb_spec (msg_count (packet (slots g).[i])) (msg_count p)); cbn [negb orb];
      [|rewrite decide_False by tauto; done].
    case_bool_decide; cbn [negb]; [by rewrite decide_True|rewrite decide_False by tauto; done].
  - rewrite IH. unfold i. by rewrite probe_next.
Qed.

Lemma table_insert s y p x :
  table (<[y := mkSlot true p]> s) x = Probe.upd (table s) y (Some p) x.
Proof.
  unfold table, Probe.upd. rewrite aget_insert. destruct (Z.eqb_spec x y) as [->|Hne].
  - by rewrite decide_True.
  - by rewrite decide_False by done.
Qed.

Lemma insert_holds g M p :
  holds g M → len p <= kMaxPacketSize →
  let res := insert g p in
  match M !! seq p with
  | Some q => snd res = g ∧
              fst res = if decide (same_packet q p) then DuplicateIdentical else ConflictingDuplicate
  | None => if Z.of_nat (base.size M) <? capacity
            then fst res = Inserted ∧ holds (snd res) (<[seq p := p]> M)
            else res = (CapacityExceeded, g)
  end.
Proof.
  intros Hg Hl. cbn zeta. unfold insert. rewrite (proj2 (Z.ltb_ge _ _) Hl), insertLoop_scan, start_mod.
  destruct (M !! seq p) as [q|] eqn:E.
  - destruct (scan_hit g M _ q Hg E) as (x&->&Hx). unfold table in Hx.
    destruct (occupied (slots g).[x]); [|done]. injection Hx as ->. done.
  - pose proof (scan_miss g M _ Hg E) as Hm. pose proof (full_iff g M Hg) as Hf.
    pose proof (size_le g M Hg) as Hsz. destruct (Probe.scan _ _ _ _) as [y|].
    + destruct Hm as (Hy&Hn&Hch). destruct (Z.ltb_spec (Z.of_nat (base.size M)) capacity) as [Hlt|Hge].
      2: { by destruct (proj2 Hf Hge y Hy). }
      assert (occupied (slots g).[y] = false) as -> by (unfold table in Hn; by destruct (occupied _)).
      cbn [fst snd]. split; [done|].
      assert (∀ x e, table (slots g) x = Some e → seq e ≠ seq p) as Habs.
      { intros x e He Hk. assert (M !! seq p = Some e); [|congruence].
        apply (gb_map g M Hg). eauto. }
      split; cbn [slots count].
      * eapply Probe.probed_ext; [apply table_insert|].
        apply Probe.probed_insert; [apply (gb_probed g M Hg)|done|done|exact Habs|exact Hch].
      * intros k q. setoid_rewrite table_insert. unfold Probe.upd. rewrite lookup_insert.
        case_decide as Ek.
        -- subst k. split; [intros [= <-]; split; [done|]; exists y; by rewrite Z.eqb_refl|].
           intros (Hk&x&Hx). case_if_in Hx; [done|]. by destruct (Habs x q Hx).
        -- rewrite (gb_map g M Hg). split.
           ++ intros (Hk&x&Hx). split; [done|]. exists x. rewrite (proj2 (Z.eqb_neq x y)); [done|].
              intros ->. congruence.
           ++ intros (Hk&x&Hx). split; [done|]. case_if_in Hx; [congruence|]. by exists x.
      * rewrite (gb_count g M Hg), map_size_insert_None by done.
        assert (capacity <= 2 ^ 31) by (rewrite Hcapacity; apply Z.pow_le_mono_r; lia).
        rewrite Nat2Z.inj_succ, <- Z.add_1_r. apply Z.mod_small. lia.
    + rewrite (proj2 (Z.ltb_ge _ _)); [done|]. by apply Hf.
Qed.

(** ** [erase] *)

Lemma shiftLoop_shift n s gap x :
  let '(s', gap') := shiftLoop s n gap x in
  let '(T', g') := Probe.shift capacity seq slotFor n (table s) gap x in
  g' = gap' ∧ ∀ y, table s' y = T' y.
Proof.
  assert (∀ n T T' gap x, (∀ y, T y = T' y) →
    let '(T1, g1) := Probe.shift capacity seq slotFor n T gap x in
    let '(T2, g2) := Probe.shift capacity seq slotFor n T' gap x in
    g1 = g2 ∧ ∀ y, T1 y = T2 y) as Hext.
  { clear n s gap x. intros n. induction n as [|n IH]; intros T T' gap x Heq; cbn [Probe.shift]; [done|].
    rewrite Heq. destruct (T' x) as [e|]; [|done]. case_if; apply IH; [|done].
    intros y. unfold Probe.upd. by rewrite Heq. }
  revert s gap x. induction n as [|n IH]; intros s gap x; cbn [shiftLoop Probe.shift]; [done|].
  unfold table at 1. destruct (occupied s.[x]) eqn:Eo; cbn [negb]; [|done].
  rewrite !distance_dist, next_next. case_if; [|apply IH].
  specialize (IH (<[gap := s.[x]]> s) x (Probe.next capacity x)).
  destruct (shiftLoop _ n x _) as [s1 g1].
  pose proof (Hext n (table (<[gap := s.[x]]> s)) (Probe.upd (table s) gap (Some (packet s.[x]))) x
    (Probe.next capacity x)) as Hx.
  destruct (Probe.shift _ _ _ n (table (<[gap := s.[x]]> s)) _ _) as [T1 g1'].
  destruct (Probe.shift _ _ _ n (Probe.upd _ _ _) _ _) as [T2 g2].
  destruct IH as [-> IH]. destruct Hx as [-> Hx].
  { intros y. unfold table, Probe.upd. rewrite aget_insert. destruct (Z.eqb_spec y gap) as [->|Hne].
    - rewrite decide_True by done. by rewrite Eo.
    - by rewrite decide_False by done. }
  split; [done|]. intros y. by rewrite IH, Hx.
Qed.

Lemma eraseAt_holds g M x p :
  holds g M → table (slots g) x = Some p → holds (eraseAt g x) (delete (seq p) M).
Proof.
  intros Hg Hx. unfold eraseAt.
  pose proof (Probe.probed_erase capacity cap_pos seq slotFor slotFor_slot _ x p (gb_probed g M Hg) Hx) as Hs.
  pose proof (shiftLoop_shift (Z.to_nat (capacity - 1)) (slots g) x (Probe.next capacity x)) as Hsh.
  rewrite next_next. destruct (shiftLoop _ _ _ _) as [s gap].
  destruct (Probe.shift _ _ _ _ _ _ _) as [T' gap']. destruct Hsh as [-> Hsh].
  destruct Hs as (_&Hp&Hk).
  assert (∀ y, table (<[gap := zeroed]> s) y = Probe.upd T' gap None y) as Ht.
  { intros y. unfold table, Probe.upd. rewrite aget_insert. destruct (Z.eqb_spec y gap) as [->|Hne].
    - by rewrite decide_True.
    - rewrite decide_False by done. apply Hsh. }
  assert (M !! seq p = Some p) as Hin by (apply (gb_map g M Hg); eauto).
  split; cbn [slots count].
  - by eapply Probe.probed_ext.
  - intros k q. setoid_rewrite Ht. rewrite Hk, lookup_delete. case_decide as Ek.
    + subst k. split; [done|]. intros (Hq&_&Hne). done.
    + rewrite (gb_map g M Hg). split; [intros (<-&Hex); split; [done|]; split; [done|congruence]|tauto].
  - pose proof (gb_count g M Hg) as Hc. pose proof (size_le g M Hg) as Hsz.
    assert (base.size M = S (base.size (delete (seq p) M))) as Hsize.
    { rewrite <- (insert_delete_id M (seq p) p Hin) at 1.
      by rewrite map_size_insert_None by apply lookup_delete_eq. }
    assert (capacity <= 2 ^ 31) by (rewrite Hcapacity; apply Z.pow_le_mono_r; lia).
    rewrite Hc, Hsize, Nat2Z.inj_succ. unfold u32. rewrite Z.mod_small; lia.
Qed.

Lemma erase_holds g M key : holds g M → holds (erase g key) (delete key M).
Proof.
  intros Hg. unfold erase. rewrite findLoop_scan, start_mod. destruct (M !! key) as [p|] eqn:E.
  - pose proof (proj1 (gb_map g M Hg key p) E) as [Hk _].
    destruct (scan_hit g M key p Hg E) as (x&->&Hx). pose proof Hx as Hx'. unfold table in Hx'.
    destruct (occupied (slots g).[x]); [|done]. rewrite <- Hk. by apply (eraseAt_holds g M x p).
  - pose proof (scan_miss g M key Hg E) as Hm. rewrite delete_id by done.
    destruct (Probe.scan _ _ _ _) as [y|]; [|done].
    destruct Hm as (_&Hy&_). unfold table in Hy. by destruct (occupied (slots g).[y]).
Qed.

(** ** [stats] *)

(** The sequences met by the scan, in slot order. *)
Definition seen (g : t) (L : list Z) : list Z := omap (λ i, seq <$> table (slots g) i) L.

Definition keyStep (expected : Z) (acc : Z * Z * Z) (s : Z) : Z * Z * Z :=
  let '(lo, hi, nx) := acc in
  (if s <? lo then s else lo, if hi <? s then s else hi,
   if (expected <=? s) && (s <? nx) then s else nx).

Lemma stat_keys g expected L acc :
  fold_left (statStep g expected) L acc = fold_left (keyStep expected) (seen g L) acc.
Proof.
  revert acc. induction L as [|i L IH]; intros [[lo hi] nx]; [done|].
  cbn [fold_left seen omap list_omap]. unfold statStep at 2, table at 1.
  destruct (occupied (slots g).[i]); cbn [negb fmap option_fmap option_map fold_left]; by rewrite IH.
Qed.

(** The running values bound the sequences and are among them. *)
Lemma key_fold expected ks lo hi nx lo' hi' nx' :
  fold_left (keyStep expected) ks (lo, hi, nx) = (lo', hi', nx') →
  (lo' <= lo ∧ (∀ k, k ∈ ks → lo' <= k) ∧ (lo' = lo ∨ lo' ∈ ks)) ∧
  (hi <= hi' ∧ (∀ k, k ∈ ks → k <= hi') ∧ (hi' = hi ∨ hi' ∈ ks)) ∧
  (nx' <= nx ∧ (∀ k, k ∈ ks → expected <= k → nx' <= k) ∧ (nx' = nx ∨ nx' ∈ ks ∧ expected <= nx')).
Proof.
  revert lo hi nx. induction ks as [|s ks IH]; intros lo hi nx Hf.
  { injection Hf as -> -> ->. setoid_rewrite elem_of_nil. naive_solver lia. }
  cbn [fold_left keyStep] in Hf. apply IH in Hf as ((L1&L2&L3)&(H1&H2&H3)&(N1&N2&N3)).
  setoid_rewrite elem_of_cons. split; [|split].
  - destruct (Z.ltb_spec s lo); (split; [lia|]; split; [intros k [->|Hk]; [lia|by apply L2]|naive_solver]).
  - destruct (Z.ltb_spec hi s); (split; [lia|]; split; [intros k [->|Hk]; [lia|by apply H2]|naive_solver]).
  - destruct (Z.leb_spec expected s), (Z.ltb_spec s nx); cbn [andb] in *;
      (split; [lia|]; split; [intros k [->|Hk] ?; [lia|by apply N2]|naive_solver]).
Qed.

Lemma seen_iff g M k :
  holds g M → k ∈ seen g (range (Z.to_nat capacity) 0) ↔ is_Some (M !! k).
Proof.
  intros Hg. pose proof cap_pos. unfold seen. rewrite list_elem_of_omap. split.
  - intros (i&Hi&Hk). destruct (table (slots g) i) as [p|] eqn:E; [|done]. injection Hk as <-.
    exists p. apply (gb_map g M Hg). eauto.
  - intros [p Hp]. apply (gb_map g M Hg) in Hp as (<-&x&Hx). exists x. rewrite elem_of_range, Hx.
    pose proof (Probe.pb_dom _ _ _ _ (gb_probed g M Hg) x p Hx) as Hs. unfold Probe.slot in Hs.
    split; [lia|done].
Qed.

Lemma stats_holds g M expected :
  holds g M → (∀ k, is_Some (M !! k) → 0 <= k < max_u64) →
  let st := stats g expected in
  st_size st = Z.of_nat (base.size M) ∧
  (M = ∅ → st = mkStats 0 0 0 0) ∧
  (M ≠ ∅ → is_Some (M !! min_seq st) ∧ is_Some (M !! max_seq st) ∧
     (∀ k, is_Some (M !! k) → min_seq st <= k <= max_seq st) ∧
     ((∀ k, is_Some (M !! k) → k < expected) → next_seq_at_or_after st = 0) ∧
     (∀ k, is_Some (M !! k) → expected <= k →
        is_Some (M !! next_seq_at_or_after st) ∧ expected <= next_seq_at_or_after st <= k)).
Proof.
  intros Hg Hfit. unfold stats. rewrite (gb_count g M Hg).
  destruct (decide (M = ∅)) as [->|Hne]; [by rewrite map_size_empty|].
  assert (base.size M ≠ 0%nat) as Hs by (by apply map_size_non_empty_iff).
  rewrite (proj2 (Z.eqb_neq _ 0)) by lia. rewrite stat_keys.
  destruct (fold_left _ _ _) as [[lo hi] nx] eqn:Ef.
  apply key_fold in Ef as ((L1&L2&L3)&(H1&H2&H3)&(N1&N2&N3)).
  setoid_rewrite (seen_iff g M) in L2; [|done]. setoid_rewrite (seen_iff g M) in H2; [|done].
  setoid_rewrite (seen_iff g M) in N2; [|done]. rewrite (seen_iff g M) in L3, H3, N3 by done.
  destruct (map_choose M Hne) as (k0&p0&Hk0).
  pose proof (Hfit k0 ltac:(by eexists)). pose proof (L2 k0 ltac:(by eexists)).
  pose proof (H2 k0 ltac:(by eexists)).
  split; [done|]. split; [done|]. intros _. cbn [min_seq max_seq next_seq_at_or_after].
  split; [destruct L3; [lia|done]|]. split.
  { destruct H3 as [->|]; [|done]. assert (k0 = 0) as <- by lia. by eexists. }
  split; [intros k Hk; split; [by apply L2|by apply H2]|]. split.
  - intros Hall. destruct N3 as [->|[Hk Hle]]; [done|]. specialize (Hall nx Hk). lia.
  - intros k Hk Hle. pose proof (N2 k Hk Hle). pose proof (Hfit k Hk).
    rewrite (proj2 (Z.eqb_neq _ _)) by lia. cbn [negb]. destruct N3 as [?|[? ?]]; [lia|]. split; [done|lia].
Qed.

Lemma clear_holds : holds clear ∅.
Proof.
  assert (∀ x, table (slots clear) x = None) as Ht by (intros x; unfold table; cbn; by arena).
  split.
  - eapply Probe.probed_ext; [exact Ht|]. apply Probe.probed_empty, cap_pos.
  - intros k p. rewrite lookup_empty. split; [done|]. intros (_&x&Hx). by rewrite Ht in Hx.
  - done.
Qed.

End buffer.

#[global] Arguments holds capacity g M : clear implicits.

(** The gap buffer with a capacity of [2 ^ bits] packets. *)
Program Definition recoveryBuffer (bits : Z) (Hbits : 0 <= bits <= 31) : RecoveryBuffer t :=
  {| rb_empty := clear;
     rb_insert := insert (2 ^ bits);
     rb_find := find (2 ^ bits);
     rb_erase := erase (2 ^ bits);
     rb_size := size;
     rb_capacity := 2 ^ bits;
     rb_holds := holds (2 ^ bits) |}.
Next Obligation. intros bits Hbits. by eapply clear_holds. Qed.
Next Obligation. intros bits Hbits b M k p Hb Hk. by apply (gb_map _ b M Hb) in Hk as [? _]. Qed.
Next Obligation. intros bits Hbits b M k. by eapply find_holds. Qed.
Next Obligation. intros bits Hbits b M. by apply gb_count. Qed.
Next Obligation. intros bits Hbits b M k. by eapply erase_holds. Qed.
Next Obligation. intros bits Hbits b M p. by eapply insert_holds. Qed.

(** ** Properties *)

(** Inserting a packet into the buffer of 2^bits slots: a packet
    whose sequence is not held is stored while there is room and refused as
    CapacityExceeded, without change, only when every slot is taken; a sequence
    that is already held keeps its first copy, and the result tells an identical
    copy from a conflicting one. *)
Theorem gap_buffer_insert bits g M p :
  0 <= bits <= 31 → holds (2 ^ bits) g M → len p <= kMaxPacketSize →
  let res := insert (2 ^ bits) g p in
  match M !! seq p with
  | Some q => snd res = g ∧
              fst res = if decide (same_packet q p) then DuplicateIdentical else ConflictingDuplicate
  | None => if Z.of_nat (base.size M) <? 2 ^ bits
            then fst res = Inserted ∧ holds (2 ^ bits) (snd res) (<[seq p := p]> M)
            else res = (CapacityExceeded, g)
  end.
Proof. intros Hb. by eapply insert_holds. Qed.

(** Backward-shift deletion removes exactly the packet of the given
    sequence: every other packet is still found by its probe, also when the table
    was completely full, and an absent sequence changes nothing. *)
Theorem gap_buffer_erase bits g M key :
  0 <= bits <= 31 → holds (2 ^ bits) g M →
  holds (2 ^ bits) (erase (2 ^ bits) g key) (delete key M) ∧
  (∀ k, find (2 ^ bits) (erase (2 ^ bits) g key) k = if decide (k = key) then None else find (2 ^ bits) g k).
Proof.
  intros Hb Hg. pose proof (erase_holds (2 ^ bits) bits Hb eq_refl g M key Hg) as He. split; [done|].
  intros k. rewrite (find_holds _ bits Hb eq_refl _ _ k He), (find_holds _ bits Hb eq_refl _ _ k Hg).
  rewrite lookup_delete. by destruct (decide (key = k)), (decide (k = key)); congruence.
Qed.

(** The statistics report the number of held packets and the
    smallest and largest held sequence, and the smallest one at or after the
    expected sequence (zero if there is none). *)
Theorem gap_buffer_stats bits g M expected :
  0 <= bits <= 31 → holds (2 ^ bits) g M → (∀ k, is_Some (M !! k) → 0 <= k < max_u64) →
  let st := stats (2 ^ bits) g expected in
  st_size st = Z.of_nat (base.size M) ∧
  (M = ∅ → st = mkStats 0 0 0 0) ∧
  (M ≠ ∅ → is_Some (M !! min_seq st) ∧ is_Some (M !! max_seq st) ∧
     (∀ k, is_Some (M !! k) → min_seq st <= k <= max_seq st) ∧
     ((∀ k, is_Some (M !! k) → k < expected) → next_seq_at_or_after st = 0) ∧
     (∀ k, is_Some (M !! k) → expected <= k →
        is_Some (M !! next_seq_at_or_after st) ∧ expected <= next_seq_at_or_after st <= k)).
Proof. intros Hb. by eapply stats_holds. Qed.

(** A buffer of four slots filled with the packets 5, 6, 7 and 9. *)
Definition samplePacket (k : Z) : SequencedPacket := mkPacket k 1 1 3 [k; k; k].
Definition sampleBuffer : t :=
  fold_left (λ g k, snd (insert 4 g (samplePacket k))) [5; 6; 7; 9] clear.
Definition sampleMap : gmap Z SequencedPacket :=
  {[9 := samplePacket 9; 7 := samplePacket 7; 6 := samplePacket 6; 5 := samplePacket 5]}.

Lemma sample_holds : holds 4 sampleBuffer sampleMap.
Proof.
  assert (0 <= 2 <= 31) as Hb by lia.
  assert (∀ g M k, holds 4 g M → M !! k = None → Z.of_nat (base.size M) < 4 →
    holds 4 (snd (insert 4 g (samplePacket k))) (<[k := samplePacket k]> M)) as Hins.
  { intros g M k Hg Hn Hs. pose proof (insert_holds 4 2 Hb eq_refl g M (samplePacket k) Hg ltac:(done)) as H.
    change (seq (samplePacket k)) with k in H. cbn zeta in H. rewrite Hn in H.
    rewrite (proj2 (Z.ltb_lt _ _) Hs) in H. apply H. }
  unfold sampleBuffer, sampleMap. cbn [fold_left].
  apply (Hins _ {[7 := samplePacket 7; 6 := samplePacket 6; 5 := samplePacket 5]}); [|done|done].
  apply (Hins _ {[6 := samplePacket 6; 5 := samplePacket 5]}); [|done|done].
  apply (Hins _ {[5 := samplePacket 5]}); [|done|done].
  apply (Hins clear ∅); [|done|done]. by apply (clear_holds 4 2).
Qed.

Lemma gap_buffer_insert_witness : insert 4 sampleBuffer (samplePacket 11) = (CapacityExceeded, sampleBuffer).
Proof. exact (gap_buffer_insert 2 sampleBuffer sampleMap (samplePacket 11) ltac:(lia) sample_holds ltac:(done)). Defined.

Lemma gap_buffer_erase_witness :
  find 4 (erase 4 sampleBuffer 6) 6 = None ∧
  find 4 (erase 4 sampleBuffer 6) 9 = find 4 sampleBuffer 9.
Proof.
  pose proof (proj2 (gap_buffer_erase 2 sampleBuffer sampleMap 6 ltac:(lia) sample_holds)) as H.
  exact (conj (H 6) (H 9)).
Defined.

Lemma gap_buffer_stats_witness :
  (∀ k, is_Some (sampleMap !! k) → 5 <= k <= 9) ∧ stats 4 sampleBuffer 8 = mkStats 4 5 9 9.
Proof.
  assert (stats 4 sampleBuffer 8 = mkStats 4 5 9 9) as E by (vm_compute; reflexivity).
  assert (∀ k, is_Some (sampleMap !! k) → 0 <= k < max_u64) as Hfit.
  { intros k [q Hq]. unfold sampleMap in Hq. rewrite !lookup_insert, lookup_singleton in Hq.
    unfold max_u64. repeat (case_decide; [lia|]). discriminate. }
  destruct (gap_buffer_stats 2 sampleBuffer sampleMap 8 ltac:(lia) sample_holds Hfit) as (_&_&H).
  change (2 ^ 2) with 4 in H. rewrite E in H. split; [|exact E]. apply H. done.
Defined.

End GapBuffer.
