(* ===== verification/Protocol.v ===== *)
(** The wire formats: big-endian integers, the table of ITCH message lengths, and
    the MoldUDP64 header with its control packets.

    A message is a list of bytes (integers in [0, 256)); [byteAt] reads one, and
    zero past the end, where the code would be undefined: the readers are only
    used on messages whose length was checked. *)
From stdpp Require Import base list.
From Stdlib Require Import ZArith Lia Ascii.
From S2P Require Import Prelude.
#[local] Open Scope Z_scope.
#[local] Open Scope astra_scope.

Module Protocol.

(** The code of a character literal. *)
Definition ch (c : ascii) : Z := Z.of_nat (nat_of_ascii c).
#[global] Arguments ch c%_char_scope.

Definition byteAt (bs : list Z) (off : nat) : Z := default 0 (bs !! off).

Definition bytes (bs : list Z) : Prop := Forall (λ b, 0 <= b < 256) bs.

(** ** Big-endian readers *)

Definition readU16BE (bs : list Z) (off : nat) : Z :=
  (byteAt bs off ≪ 8) .| byteAt bs (off + 1).

Definition readU32BE (bs : list Z) (off : nat) : Z :=
  (((byteAt bs off ≪ 24) .| (byteAt bs (off + 1) ≪ 16)) .| (byteAt bs (off + 2) ≪ 8)) .|
  byteAt bs (off + 3).

(** The loop [v = (v << 8) | byte] over [n] bytes. *)
Definition readLoop (bs : list Z) (off n : nat) : Z :=
  fold_left (λ v i, u64 (v ≪ 8) .| byteAt bs (off + i)) (seq 0 n) 0.

Definition readU48BE (bs : list Z) (off : nat) : Z := readLoop bs off 6.
Definition readU64BE (bs : list Z) (off : nat) : Z := readLoop bs off 8.

(** ** Writers *)

(** The [n] low bytes of [v], most significant first: the loop that stores
    [v & 0xff] from the last position backwards and shifts [v] right. *)
Fixpoint putBE (n : nat) (v : Z) : list Z :=
  match n with
  | O => []
  | S n => putBE n (v ≫ 8) ++ [v .& 255]
  end.

(** ** Message lengths *)

Definition itchLengths : list (Z * Z) :=
  [(ch "S", 12); (ch "R", 39); (ch "H", 25); (ch "Y", 20); (ch "L", 26); (ch "V", 35);
   (ch "W", 12); (ch "K", 28); (ch "J", 35); (ch "h", 21); (ch "A", 36); (ch "F", 40);
   (ch "E", 31); (ch "C", 36); (ch "X", 23); (ch "D", 19); (ch "U", 35); (ch "P", 44);
   (ch "Q", 40); (ch "B", 19); (ch "I", 50); (ch "N", 20); (ch "O", 48)].

(** The entry of the 256-element table; zero for a type that is not listed. *)
Definition expectedItchMessageLength (type : Z) : Z :=
  default 0 (snd <$> head (filter (λ e, e.1 = type) itchLengths)).

(** ** MoldUDP64 headers *)

Definition kSessionSize : nat := 10.
Definition kHeaderSize : Z := 20.
Definition kEndOfSessionMessageCount : Z := 0xFFFF.

(** The session field: the first ten bytes, padded with blanks. *)
Definition sessionField (session : list Z) : list Z :=
  map (λ i, if Nat.ltb i (length session) then byteAt session i else ch " ") (seq 0 kSessionSize).

Definition makeMoldControlPacket (session : list Z) (next_sequence message_count : Z) : list Z :=
  sessionField session ++ putBE 8 next_sequence ++ [message_count ≫ 8; message_count .& 255].

Definition makeMoldHeartbeatPacket (session : list Z) (next_sequence : Z) : list Z :=
  makeMoldControlPacket session next_sequence 0.
Definition makeMoldEndOfSessionPacket (session : list Z) (next_sequence : Z) : list Z :=
  makeMoldControlPacket session next_sequence kEndOfSessionMessageCount.

(** ** Round trips *)

(** The value of a big-endian byte string. *)
Definition valueBE (bs : list Z) : Z := fold_left (λ v b, v * 256 + b) bs 0.

Lemma valueBE_snoc bs b : valueBE (bs ++ [b]) = valueBE bs * 256 + b.
Proof. unfold valueBE. by rewrite fold_left_app. Qed.

Lemma shift8 v b : 0 <= b < 256 → (v ≪ 8) .| b = v * 256 + b.
Proof. intros Hb. by rewrite lor_shiftl_add by lia. Qed.

Lemma length_putBE n v : length (putBE n v) = n.
Proof. revert v. induction n as [|n IH]; intros v; cbn; [done|]. rewrite length_app, IH. cbn. lia. Qed.

Lemma land255 v : v .& 255 = v mod 256.
Proof. apply (land_ones_mod v 8). lia. Qed.

Lemma bytes_putBE n v : bytes (putBE n v).
Proof.
  revert v. induction n as [|n IH]; intros v; cbn; [constructor|]. apply Forall_app. split; [apply IH|].
  constructor; [|constructor]. rewrite land255. by apply Z.mod_pos_bound.
Qed.

Lemma valueBE_putBE n v : valueBE (putBE n v) = v mod 256 ^ Z.of_nat n.
Proof.
  revert v. induction n as [|n IH]; intros v; [by rewrite Z.mod_1_r|].
  cbn [putBE]. rewrite valueBE_snoc, IH, land255, Z.shiftr_div_pow2 by lia. change (2 ^ 8) with 256.
  rewrite Nat2Z.inj_succ, Z.pow_succ_r by lia.
  rewrite Z.rem_mul_r by (try apply Z.pow_pos_nonneg; lia). lia.
Qed.

(** The value of the first [k] bytes fits in [8 * k] bits. *)
Lemma valueBE_bound bs : bytes bs → 0 <= valueBE bs < 256 ^ Z.of_nat (length bs).
Proof.
  induction bs as [|b bs IH] using rev_ind; intros Hb; [done|].
  apply Forall_app in Hb as [Hb1 Hb2]. apply Forall_cons in Hb2 as [Hb2 _]. specialize (IH Hb1).
  rewrite valueBE_snoc, length_app, Nat2Z.inj_add. cbn [length]. change (Z.of_nat 1) with 1.
  rewrite Z.pow_add_r by lia. lia.
Qed.

Lemma readLoop_value bs off n part :
  (n <= 8)%nat → take n (drop off bs) = part → length part = n → bytes part →
  readLoop bs off n = valueBE part.
Proof.
  intros Hn Ht Hl Hb. assert (∀ k, (k <= n)%nat → readLoop bs off k = valueBE (take k part)) as Hk.
  2: { rewrite Hk by lia. by rewrite take_ge by lia. }
  induction k as [|k IH]; intros Hkn; [done|].
  unfold readLoop. rewrite seq_S, fold_left_app. fold (readLoop bs off k). rewrite IH by lia. cbn [fold_left].
  assert (∃ b, part !! k = Some b) as [b Hpb] by (apply lookup_lt_is_Some; lia).
  assert (byteAt bs (off + (0 + k)) = b) as ->.
  { unfold byteAt. rewrite <- Ht, lookup_take_lt, lookup_drop in Hpb by lia. cbn. by rewrite Hpb. }
  rewrite (take_S_r part k b) by done. rewrite valueBE_snoc.
  assert (0 <= b < 256) by (by eapply Forall_lookup in Hb).
  pose proof (valueBE_bound (take k part) ltac:(by apply Forall_take)) as Hv.
  rewrite length_take, Nat.min_l in Hv by lia.
  assert (256 ^ Z.of_nat k <= 256 ^ 7) by (apply Z.pow_le_mono_r; lia).
  rewrite u64_id by (rewrite Z.shiftl_mul_pow2 by lia; unfold fits; lia). by apply shift8.
Qed.

Lemma readU16BE_value bs off part :
  take 2 (drop off bs) = part → length part = 2%nat → bytes part → readU16BE bs off = valueBE part.
Proof.
  intros Ht Hl Hb. destruct part as [|a [|b [|]]]; try done.
  assert (byteAt bs off = a ∧ byteAt bs (off + 1) = b) as [Ea Eb].
  { unfold byteAt. pose proof (f_equal (λ l, (l !! 0%nat, l !! 1%nat)) Ht) as E. cbn in E.
    rewrite !lookup_take_lt, !lookup_drop, Nat.add_0_r in E by lia. injection E as -> ->. done. }
  apply Forall_cons in Hb as [Ha Hb]. apply Forall_cons in Hb as [Hb _].
  unfold readU16BE. rewrite Ea, Eb, shift8 by done. unfold valueBE. cbn [fold_left]. lia.
Qed.

Lemma readU32BE_value bs off part :
  take 4 (drop off bs) = part → length part = 4%nat → bytes part → readU32BE bs off = valueBE part.
Proof.
  intros Ht Hl Hb. destruct part as [|a [|b [|c [|d [|]]]]]; try done.
  assert (byteAt bs off = a ∧ byteAt bs (off + 1) = b ∧ byteAt bs (off + 2) = c ∧ byteAt bs (off + 3) = d)
    as (Ea&Eb&Ec&Ed).
  { unfold byteAt. pose proof (f_equal (λ l, (l !! 0%nat, l !! 1%nat, l !! 2%nat, l !! 3%nat)) Ht) as E.
    cbn in E. rewrite !lookup_take_lt, !lookup_drop, Nat.add_0_r in E by lia. by injection E as -> -> -> ->. }
  do 4 (apply Forall_cons in Hb as [? Hb]). unfold readU32BE. rewrite Ea, Eb, Ec, Ed.
  replace (b ≪ 16) with ((b ≪ 8) ≪ 8) by (by rewrite Z.shiftl_shiftl by lia).
  replace (a ≪ 24) with (((a ≪ 8) ≪ 8) ≪ 8) by (by rewrite !Z.shiftl_shiftl by lia).
  rewrite <- !Z.shiftl_lor. rewrite !shift8 by done.
  unfold valueBE. cbn [fold_left]. lia.
Qed.

(** Reading back a field written with [putBE]. *)
Lemma read_putBE n v bs off :
  (n <= 8)%nat → take n (drop off bs) = putBE n v → fits (8 * Z.of_nat n) v → readLoop bs off n = v.
Proof.
  intros Hn Ht [Hv0 Hv1]. rewrite (readLoop_value bs off n (putBE n v)) by
    (done || apply length_putBE || apply bytes_putBE).
  rewrite valueBE_putBE. apply Z.mod_small. split; [done|].
  by rewrite Z.pow_mul_r in Hv1 by lia.
Qed.

Lemma read16_putBE v bs off : take 2 (drop off bs) = putBE 2 v → fits 16 v → readU16BE bs off = v.
Proof.
  intros Ht Hv. rewrite (readU16BE_value bs off (putBE 2 v) Ht) by (done || apply bytes_putBE).
  rewrite valueBE_putBE. by apply Z.mod_small.
Qed.

Lemma read32_putBE v bs off : take 4 (drop off bs) = putBE 4 v → fits 32 v → readU32BE bs off = v.
Proof.
  intros Ht Hv. rewrite (readU32BE_value bs off (putBE 4 v) Ht) by (done || apply bytes_putBE).
  rewrite valueBE_putBE. by apply Z.mod_small.
Qed.

(** ** The ranges of the readers *)

Lemma readU16BE_fits bs off : bytes bs → (off + 2 <= length bs)%nat → fits 16 (readU16BE bs off).
Proof.
  intros Hb Hl. rewrite (readU16BE_value bs off _ eq_refl).
  - pose proof (valueBE_bound (take 2 (drop off bs))) as H.
    rewrite length_take, length_drop, Nat.min_l in H by lia. apply H. by apply Forall_take, Forall_drop.
  - rewrite length_take, length_drop. lia.
  - by apply Forall_take, Forall_drop.
Qed.

Lemma readU32BE_fits bs off : bytes bs → (off + 4 <= length bs)%nat → fits 32 (readU32BE bs off).
Proof.
  intros Hb Hl. rewrite (readU32BE_value bs off _ eq_refl).
  - pose proof (valueBE_bound (take 4 (drop off bs))) as H.
    rewrite length_take, length_drop, Nat.min_l in H by lia. apply H. by apply Forall_take, Forall_drop.
  - rewrite length_take, length_drop. lia.
  - by apply Forall_take, Forall_drop.
Qed.

Lemma length_sessionField session : length (sessionField session) = kSessionSize.
Proof. unfold sessionField. by rewrite length_map, length_seq. Qed.

(** The fields of a control packet. *)
Lemma control_fields session next count :
  fits 64 next → fits 16 count →
  let p := makeMoldControlPacket session next count in
  Z.of_nat (length p) = kHeaderSize ∧ take kSessionSize p = sessionField session ∧
  readU64BE p 10 = next ∧ readU16BE p 18 = count.
Proof.
  intros Hn Hc p. pose proof (length_sessionField session) as Hs. unfold kSessionSize in *.
  assert (drop 10 p = putBE 8 next ++ [count ≫ 8; count .& 255]) as Hd
    by (unfold p, makeMoldControlPacket; by rewrite drop_app_length').
  split; [|split; [|split]].
  - unfold p, makeMoldControlPacket. rewrite !length_app, Hs, length_putBE. done.
  - unfold p, makeMoldControlPacket. by rewrite take_app_length'.
  - apply read_putBE; [lia| |done]. rewrite Hd. by rewrite take_app_length' by (by rewrite length_putBE).
  - apply read16_putBE; [|done]. replace (drop 18 p) with (drop 8 (drop 10 p)) by (by rewrite drop_drop).
    rewrite Hd, drop_app_length' by (by rewrite length_putBE). cbn [take putBE app].
    destruct Hc as [Hc0 Hc1]. rewrite (land255 (count ≫ 8)), Z.shiftr_div_pow2 by lia.
    rewrite (Z.mod_small (count / 2 ^ 8)); [done|].
    split; [apply Z.div_pos; lia|]. apply Z.div_lt_upper_bound; lia.
Qed.

(** A control packet is a bare 20-byte header; reading it
    back gives the blank-padded session, the sequence number and the message count
    it was made with, so a heartbeat and an end-of-session marker are recognised
    as such. *)
Theorem control_packet_roundtrip session next count :
  fits 64 next → fits 16 count →
  let p := makeMoldControlPacket session next count in
  Z.of_nat (length p) = kHeaderSize ∧ take kSessionSize p = sessionField session ∧
  readU64BE p 10 = next ∧ readU16BE p 18 = count.
Proof. apply control_fields. Qed.

Lemma control_packet_roundtrip_witness :
  readU16BE (makeMoldEndOfSessionPacket [65; 66] 77) 18 = kEndOfSessionMessageCount.
Proof.
  refine (proj2 (proj2 (proj2 (control_packet_roundtrip [65; 66] 77 kEndOfSessionMessageCount _ _))));
    vm_compute; done.
Defined.

End Protocol.
