(* ===== verification/Parser.v ===== *)
(** The ITCH 5.0 parser of [ItchParser.hpp]/[ItchParser.cpp].

    Module [ItchParser] has the state of the class (the directory and the books it
    refers to included), one definition per member, and the dispatch over message
    types; every handler returns the state after it, with the skip flag and the
    error text it set.  [last_error] is the empty string when there is no error. *)
From stdpp Require Import base list gmap strings.
From Stdlib Require Import ZArith Lia Ascii.
From S2P Require Import Prelude Bits Bitmap BookTypes Orders Prices Book Probe Directory Manager.
From S2P Require Import Protocol.
#[local] Open Scope Z_scope.
#[local] Open Scope astra_scope.

Inductive ChannelPhase :=
  | WaitingStartOfMessages | StartupDirectorySpin | StartupAdminSpin | SystemHours
  | MarketHours | PostMarketHours | PostSystemHours | EndOfMessages.
#[global] Instance ChannelPhase_eq_dec : EqDecision ChannelPhase.
Proof. solve_decision. Defined.

Module ItchParser.
Import Protocol.

Record t := mk {
  symbols : StockDirectory.t;
  books : BookManager.t;
  channel_id : Z;
  channel_phase : ChannelPhase;
  last_message_skipped : bool;
  last_error : string;
  books_prepared : bool }.

Definition make (symbols : StockDirectory.t) (books : BookManager.t) (channel_id : Z) : t :=
  mk symbols books channel_id WaitingStartOfMessages false "" false.

(** Assignments to single members. *)
Definition with_symbols (p : t) (d : StockDirectory.t) : t :=
  mk d (books p) (channel_id p) (channel_phase p) (last_message_skipped p) (last_error p) (books_prepared p).
Definition with_books (p : t) (b : BookManager.t) : t :=
  mk (symbols p) b (channel_id p) (channel_phase p) (last_message_skipped p) (last_error p) (books_prepared p).
Definition with_phase (p : t) (ph : ChannelPhase) : t :=
  mk (symbols p) (books p) (channel_id p) ph (last_message_skipped p) (last_error p) (books_prepared p).
Definition with_status (p : t) (skipped : bool) (error : string) : t :=
  mk (symbols p) (books p) (channel_id p) (channel_phase p) skipped error (books_prepared p).
Definition with_prepared (p : t) (b : bool) : t :=
  mk (symbols p) (books p) (channel_id p) (channel_phase p) (last_message_skipped p) (last_error p) b.

Definition setChannelId (p : t) (id : Z) : t :=
  mk (symbols p) (books p) id (channel_phase p) (last_message_skipped p) (last_error p) (books_prepared p).

Definition kStockLen : nat := 8.
Definition kTimestampOffset : nat := 5.
Definition kAddStockOffset : nat := 24.
Definition kSystemEventCodeOffset : nat := 11.
Definition kNanosecondsPerDay : Z := 86400000000000.

(** [skip] and [fail]; both members return false. *)
Definition skip (p : t) : t := with_status p true (last_error p).
Definition fail (p : t) (error : string) : t := with_status p true error.

(** The length of a fixed text field without its trailing blanks and NULs. *)
Fixpoint textLength (field : list Z) (n : nat) : nat :=
  match n with
  | O => O
  | S m => if (byteAt field m =? ch " ") || (byteAt field m =? 0) then textLength field m else n
  end.

Definition fixedText (msg : list Z) (off len : nat) : list Z :=
  let field := drop off msg in take (textLength field len) field.

Definition wireStockMatches (entry : StockDirectory.Entry) (msg : list Z) (offset : nat) : bool :=
  let ticker_length := length (StockDirectory.tickerView entry) in
  forallb (λ index,
    let expected := if Nat.ltb index ticker_length then byteAt (StockDirectory.ticker entry) index else ch " " in
    byteAt msg (offset + index) =? expected) (seq 0 kStockLen).

Definition applyBookResult (p : t) (result : MutationResult) (operation : string) : t :=
  if bool_decide (result = Applied) then p
  else with_status p true (operation +:+ ": " +:+ mutationResultName result).

(** Apply a mutation of the manager and report its result. *)
Definition mutateBooks (p : t) (res : MutationResult * BookManager.t) (operation : string) : t :=
  let '(result, books') := res in applyBookResult (with_books p books') result operation.

Definition handleAdd (p : t) (msg : list Z) (locate : Z) : t :=
  match StockDirectory.get (symbols p) locate with
  | None => fail p "add order uses unregistered stock locate"
  | Some directory_entry =>
    if negb (wireStockMatches directory_entry msg kAddStockOffset)
    then fail p "add order stock does not match registered ticker"
    else
      let order_id := readU64BE msg 11 in
      let qty := readU32BE msg 20 in
      let price := readU32BE msg 32 in
      let timestamp := readU48BE msg kTimestampOffset in
      mutateBooks p (BookManager.addOrder (books p) locate order_id price qty (byteAt msg 19) timestamp)
        "add order"
  end.

Definition applyExecution (p : t) (msg : list Z) (locate : Z) : t :=
  let order_id := readU64BE msg 11 in
  let executed_qty := readU32BE msg 19 in
  let timestamp := readU48BE msg kTimestampOffset in
  mutateBooks p (BookManager.executeOrder (books p) locate order_id executed_qty timestamp)
    "order execution".

Definition handleOrderExecuted (p : t) (msg : list Z) (locate : Z) : t := applyExecution p msg locate.

Definition handleOrderExecutedWithPrice (p : t) (msg : list Z) (locate : Z) : t :=
  let execution_price := readU32BE msg 32 in
  if negb (isValidItchPrice4 execution_price)
  then fail p "order execution with price: price out of range"
  else applyExecution p msg locate.

Definition handleCancel (p : t) (msg : list Z) (locate : Z) : t :=
  let order_id := readU64BE msg 11 in
  let canceled_qty := readU32BE msg 19 in
  let timestamp := readU48BE msg kTimestampOffset in
  mutateBooks p (BookManager.cancelShares (books p) locate order_id canceled_qty timestamp) "order cancel".

Definition handleDelete (p : t) (msg : list Z) (locate : Z) : t :=
  let order_id := readU64BE msg 11 in
  let timestamp := readU48BE msg kTimestampOffset in
  mutateBooks p (BookManager.deleteOrder (books p) locate order_id timestamp) "order delete".

Definition handleReplace (p : t) (msg : list Z) (locate : Z) : t :=
  let old_id := readU64BE msg 11 in
  let new_id := readU64BE msg 19 in
  let new_qty := readU32BE msg 27 in
  let new_price := readU32BE msg 31 in
  let timestamp := readU48BE msg kTimestampOffset in
  if new_id =? old_id then fail p "replacement order reference is not new" else
  mutateBooks p (BookManager.replaceOrder (books p) locate old_id new_id new_price new_qty timestamp)
    "order replace".

(** Match-number history is not tracked. *)
Definition handleBrokenTrade (p : t) : t := skip p.

Definition createRegisteredBook (p : t) (locate : Z) : bool * t :=
  if negb (isValidStockLocate locate) || negb (StockDirectory.isRegistered (symbols p) locate)
  then (false, p) else
  let '(b, books') := BookManager.getOrCreate (books p) locate in
  (bool_decide (is_Some b), with_books p books').

Definition createRegisteredBooks (p : t) : bool * t :=
  fold_left (λ '(success, p) locate,
    if StockDirectory.isRegistered (symbols p) locate then
      let '(created, p') := createRegisteredBook p locate in (created && success, p')
    else (success, p)) BookManager.locates (true, p).

(** The entry built from an 'R' message; [sym] is its trimmed ticker. *)
Definition directoryEntry (msg : list Z) (locate : Z) (sym : list Z) : StockDirectory.Entry :=
  let n := Nat.min (length sym) 8 in
  StockDirectory.mkEntry (readU32BE msg 21) locate (take n sym ++ replicate (9 - n) 0)
    (byteAt msg 19) (byteAt msg 20) (byteAt msg 29 =? ch "T") (byteAt msg 25 =? ch "Y") (byteAt msg 26).

Definition handleStockDirectory (p : t) (msg : list Z) : t :=
  let locate := readU16BE msg 1 in
  let sym := fixedText msg 11 kStockLen in
  if bool_decide (sym = []) || negb (isValidStockLocate locate)
  then fail p "invalid stock-directory identity" else
  if match StockDirectory.get (symbols p) locate with
     | Some existing => negb (bool_decide (StockDirectory.viewUpTo 9 (StockDirectory.ticker existing) = sym))
     | None => false
     end
  then fail p "conflicting ticker for stock locate" else
  let existing_locate := StockDirectory.locateForTicker (symbols p) sym in
  if negb (existing_locate =? kInvalidStockLocate) && negb (existing_locate =? locate)
  then fail p "ticker is already registered to another stock locate" else
  let p := if bool_decide (channel_phase p = WaitingStartOfMessages)
           then with_phase p StartupDirectorySpin else p in
  let '(registered, symbols') := StockDirectory.set (symbols p) locate (directoryEntry msg locate sym) in
  let p := with_symbols p symbols' in
  if negb registered then fail p "unable to register stock-directory identity" else
  if books_prepared p then
    let '(created, p) := createRegisteredBook p locate in
    if negb created then fail p "unable to prepare stock-directory book" else p
  else p.

(** Which phases precede [next_phase]. *)
Definition allowedFrom (next_phase current : ChannelPhase) : bool :=
  match next_phase with
  | StartupDirectorySpin => bool_decide (current = WaitingStartOfMessages)
  | SystemHours => bool_decide (current = StartupDirectorySpin) || bool_decide (current = StartupAdminSpin)
  | MarketHours => bool_decide (current = SystemHours)
  | PostMarketHours => bool_decide (current = MarketHours)
  | PostSystemHours => bool_decide (current = PostMarketHours)
  | EndOfMessages => bool_decide (current = PostSystemHours)
  | WaitingStartOfMessages | StartupAdminSpin => false
  end.

Definition advancePhase (p : t) (next_phase : ChannelPhase) : bool * t :=
  if negb (allowedFrom next_phase (channel_phase p))
  then (false, fail p "out-of-order or duplicate system event")
  else (true, with_phase p next_phase).

Definition handleSystemHoursStart (p : t) : t :=
  let '(advanced, p) := advancePhase p SystemHours in
  if negb advanced then p else
  if books_prepared p then p else
  let p := with_prepared p true in
  let '(success, p) := createRegisteredBooks p in
  if negb success then fail p "unable to prepare registered books" else p.

Definition handleSystemEvent (p : t) (msg : list Z) : t :=
  let event_code := byteAt msg kSystemEventCodeOffset in
  if event_code =? ch "O" then snd (advancePhase p StartupDirectorySpin) else
  if event_code =? ch "S" then handleSystemHoursStart p else
  if event_code =? ch "Q" then snd (advancePhase p MarketHours) else
  if event_code =? ch "M" then snd (advancePhase p PostMarketHours) else
  if event_code =? ch "E" then snd (advancePhase p PostSystemHours) else
  if event_code =? ch "C" then
    if negb (BookManager.totalLiveOrderCount (books p) =? 0) then fail p "end of messages with live orders"
    else snd (advancePhase p EndOfMessages)
  else
  if (event_code =? ch "A") || (event_code =? ch "R") || (event_code =? ch "B") then p
  else fail p "unsupported system event code".

Definition markStartupAdminMessage (p : t) : t :=
  if bool_decide (channel_phase p = StartupDirectorySpin) then with_phase p StartupAdminSpin else p.

(** The types that only mark the start-up administration spin. *)
Definition adminType (type : Z) : bool :=
  (type =? ch "H") || (type =? ch "Y") || (type =? ch "L") || (type =? ch "V") ||
  (type =? ch "W") || (type =? ch "K") || (type =? ch "J") || (type =? ch "h").

(** The guards of [dispatchMessage], in order; the error of the first that fails. *)
Definition dispatchGuard (p : t) (msg : list Z) : option string :=
  let type := byteAt msg 0 in
  let locate := readU16BE msg 1 in
  let system_event_code := if type =? ch "S" then byteAt msg kSystemEventCodeOffset else 0 in
  if kNanosecondsPerDay <=? readU48BE msg kTimestampOffset
  then Some "ITCH timestamp is outside trading day"%string else
  if (type =? ch "S") && negb (locate =? 0) then Some "System Event stock locate is not zero"%string else
  if bool_decide (channel_phase p = WaitingStartOfMessages) &&
     (negb (type =? ch "S") || negb (system_event_code =? ch "O"))
  then Some "first ITCH message is not System Event O"%string else
  if bool_decide (channel_phase p = EndOfMessages) then Some "ITCH message after end of messages"%string else
  if bool_decide (channel_phase p = PostSystemHours) && negb (type =? ch "X") && negb (type =? ch "D") &&
     negb (type =? ch "B") && negb ((type =? ch "S") && (system_event_code =? ch "C"))
  then Some "ITCH message is not permitted after System Event E"%string else None.

(** The switch over the message type. *)
Definition dispatchType (p : t) (msg : list Z) : bool * t :=
  let type := byteAt msg 0 in
  let locate := readU16BE msg 1 in
  let book (p : t) := (negb (last_message_skipped p), p) in
  if type =? ch "A" then book (handleAdd p msg locate) else
  if type =? ch "F" then book (handleAdd p msg locate) else
  if type =? ch "E" then book (handleOrderExecuted p msg locate) else
  if type =? ch "C" then book (handleOrderExecutedWithPrice p msg locate) else
  if type =? ch "X" then book (handleCancel p msg locate) else
  if type =? ch "D" then book (handleDelete p msg locate) else
  if type =? ch "U" then book (handleReplace p msg locate) else
  if type =? ch "B" then book (handleBrokenTrade p) else
  if type =? ch "R" then (false, handleStockDirectory p msg) else
  if type =? ch "S" then (false, handleSystemEvent p msg) else
  if adminType type then (false, markStartupAdminMessage p) else
  (false, skip p).

Definition dispatchMessage (p : t) (msg : list Z) : bool * t :=
  match dispatchGuard p msg with
  | Some error => (false, fail p error)
  | None => dispatchType p msg
  end.

Definition handleMessage (p : t) (msg : list Z) : bool * t :=
  let p := with_status p false "" in
  match msg with
  | [] => (false, fail p "empty ITCH message")
  | type :: _ =>
    let expected_length := expectedItchMessageLength type in
    if expected_length =? 0 then (false, fail p "unsupported ITCH message type") else
    if negb (Z.of_nat (length msg) =? expected_length) then (false, fail p "invalid ITCH message length") else
    dispatchMessage p msg
  end.

Definition handlePrevalidatedMessage (p : t) (msg : list Z) : bool * t :=
  let p := with_status p false "" in
  match msg with
  | [] => (false, fail p "empty prevalidated ITCH message")
  | _ => dispatchMessage p msg
  end.

End ItchParser.
