(* ===== verification/ParserInv.v ===== *)
(** The parser keeps the directory, the books and the phase of the day consistent,
    and every accepted message has exactly the abstract effect of its fields. *)
From stdpp Require Import base list gmap strings.
From Stdlib Require Import ZArith Lia Ascii.
From S2P Require Import Prelude Bits Bitmap BookTypes Orders Prices PricesInv PricesAdd PricesErase.
From S2P Require Import PricesRead Book BookInv BookOps Probe Directory Manager ManagerInv.
From S2P Require Import ManagerProps Protocol Parser.
#[local] Open Scope Z_scope.
#[local] Open Scope astra_scope.

Module ParserInv.
Import Protocol ItchParser ManagerInv.

(** ** The meaning of a message *)

(** The mutation a book message asks for, from its fields. *)
Definition command_of (msg : list Z) : option Command :=
  let type := byteAt msg 0 in
  let locate := readU16BE msg 1 in
  let ref := readU64BE msg 11 in
  let ts := readU48BE msg kTimestampOffset in
  if (type =? ch "A") || (type =? ch "F")
  then Some (AddOrder locate ref (readU32BE msg 32) (readU32BE msg 20) (byteAt msg 19) ts) else
  if (type =? ch "E") || (type =? ch "C") then Some (ExecuteOrder locate ref (readU32BE msg 19) ts) else
  if type =? ch "X" then Some (CancelShares locate ref (readU32BE msg 19) ts) else
  if type =? ch "D" then Some (DeleteOrder locate ref ts) else
  if type =? ch "U"
  then Some (ReplaceOrder locate ref (readU64BE msg 19) (readU32BE msg 31) (readU32BE msg 27) ts)
  else None.

Definition message_effect (msg : list Z) (A : gmap Z BookOps.Order) : gmap Z BookOps.Order :=
  match command_of msg with
  | Some c => effect c A
  | None => A
  end.

(** A message the length check accepts. *)
Definition well_formed (msg : list Z) : Prop :=
  bytes msg ∧ msg ≠ [] ∧ Z.of_nat (length msg) = expectedItchMessageLength (byteAt msg 0).

(** ** Phases of the day *)

Definition phase_rank (ph : ChannelPhase) : Z :=
  match ph with
  | WaitingStartOfMessages => 0 | StartupDirectorySpin => 1 | StartupAdminSpin => 2 | SystemHours => 3
  | MarketHours => 4 | PostMarketHours => 5 | PostSystemHours => 6 | EndOfMessages => 7
  end.

(** ** The invariant *)

Record par_ok (p : t) (M : gmap Z OrderState) : Prop := {
  pa_dir : StockDirectory.dir_ok (symbols p);
  pa_mgr : mgr_ok (books p) M;
  pa_books : ∀ l, good_locate l →
    is_Some (BookManager.books (books p) !! l) ↔
    books_prepared p = true ∧ StockDirectory.registered (symbols p) l;
  pa_prepared : books_prepared p = true ↔ 3 <= phase_rank (channel_phase p);
  pa_end : channel_phase p = EndOfMessages → u64 (Z.of_nat (size M)) = 0 }.

(** The state after one message handled from [p] and live orders [M]. *)
Definition parsed (p : t) (M : gmap Z OrderState) (msg : list Z) (p' : t) : Prop :=
  phase_rank (channel_phase p) <= phase_rank (channel_phase p') ∧
  ∃ M', par_ok p' M' ∧
    (last_error p' = ""%string → BookOps.abs <$> M' = message_effect msg (BookOps.abs <$> M)) ∧
    (last_error p' ≠ ""%string → M' = M).

Lemma par_status p M s e : par_ok p M → par_ok (with_status p s e) M.
Proof. by intros []. Qed.

Lemma parsed_fail p M msg e : par_ok p M → e ≠ ""%string → parsed p M msg (fail p e).
Proof.
  intros Hp He. split; [done|]. exists M. split; [by apply par_status|]. split; [intros E; by cbn in E|done].
Qed.

Lemma parsed_same p M msg : par_ok p M → command_of msg = None → parsed p M msg p.
Proof.
  intros Hp Hc. split; [done|]. exists M. split; [done|]. unfold message_effect. by rewrite Hc.
Qed.

(** ** Mutations *)

Lemma run_books m c l :
  is_Some (BookManager.books (snd (run m c)) !! l) ↔ is_Some (BookManager.books m !! l).
Proof.
  assert (∀ loc f, is_Some (BookManager.books (snd (BookManager.mutate m loc f)) !! l) ↔
    is_Some (BookManager.books m !! l)) as H.
  { intros loc f. unfold BookManager.mutate. destruct (BookManager.find m loc) as [b|] eqn:Hf; [|done].
    destruct (f _) as [r e]. cbn. rewrite lookup_insert_is_Some'. split; [|tauto].
    intros [<-|?]; [|done]. unfold BookManager.find in Hf. destruct (negb _); [done|]. by exists b. }
  destruct c; apply H.
Qed.

Lemma append_nonempty (a b : string) : (a +:+ b)%string = ""%string → a = ""%string.
Proof. by destruct a. Qed.

Lemma parsed_mutate p M msg c op :
  par_ok p M → last_error p = ""%string → command_of msg = Some c → cmd_ok c → op ≠ ""%string →
  channel_phase p ≠ EndOfMessages → parsed p M msg (mutateBooks p (run (books p) c) op).
Proof.
  intros Hp He Hcmd Hc Hop Hph. destruct (run_steps (books p) M c (pa_mgr p M Hp) Hc) as (_&_&M'&Hm'&Heff).
  pose proof (run_books (books p) c) as Hdom. unfold mutateBooks, applyBookResult.
  destruct (run (books p) c) as [r b']. cbn [fst snd] in *.
  assert (par_ok (with_books p b') M') as Hp'.
  { destruct Hp. split; try done. intros l Hl. cbn. rewrite Hdom. by apply pa_books0. }
  unfold parsed, message_effect. rewrite Hcmd. case_bool_decide as Er.
  - split; [done|]. exists M'. split; [done|]. split; [done|]. cbn. congruence.
  - split; [done|]. exists M'. split; [by apply par_status|]. cbn. split; [|done].
    intros E. by destruct Hop; apply append_nonempty in E.
Qed.

(** ** Directory messages and books *)

Lemma set_registered d l entry :
  StockDirectory.dir_ok d → good_locate l → fst (StockDirectory.set d l entry) = true →
  ∀ l', good_locate l' →
    StockDirectory.registered (snd (StockDirectory.set d l entry)) l' ↔ l' = l ∨ StockDirectory.registered d l'.
Proof.
  intros Hd Hl Hs l' Hl'. pose proof (StockDirectory.good_fits l Hl) as Hf.
  pose proof (StockDirectory.good_fits l' Hl') as Hf'.
  destruct (StockDirectory.set_spec d l entry Hd Hf) as (_&_&H). destruct (H Hs) as (_&Hget&Hother&_).
  clear H Hs. set (d' := snd (StockDirectory.set d l entry)) in *.
  rewrite <- !StockDirectory.isRegistered_iff by done.
  assert (∀ x, StockDirectory.isRegistered x l' = true ↔ is_Some (StockDirectory.get x l')) as Hiff.
  { intros x. rewrite StockDirectory.get_registered by done.
    destruct (StockDirectory.isRegistered x l'); [by split; eauto|]. split; [done|by intros []]. }
  rewrite !Hiff. destruct (decide (l' = l)) as [->|Hne].
  - rewrite Hget. split; [by left|by eexists].
  - rewrite Hother by done. tauto.
Qed.

Lemma createRegisteredBook_ok p M l :
  mgr_ok (books p) M → good_locate l → StockDirectory.registered (symbols p) l →
  ∃ b', createRegisteredBook p l = (true, with_books p b') ∧ mgr_ok b' M ∧
    ∀ l', is_Some (BookManager.books b' !! l') ↔ l' = l ∨ is_Some (BookManager.books (books p) !! l').
Proof.
  intros Hm Hg Hr. pose proof (StockDirectory.good_fits l Hg) as Hf. unfold createRegisteredBook.
  rewrite (good_locate_valid l Hg), (proj2 (StockDirectory.isRegistered_iff _ l Hf) Hr). cbn [negb orb].
  destruct (getOrCreate_spec (books p) M l Hm Hf) as (Hm'&_&Hb).
  destruct (Hb (good_locate_valid l Hg)) as (Eb&Hsome&Hother&_).
  destruct (BookManager.getOrCreate (books p) l) as [b m']. cbn [fst snd] in *.
  rewrite (bool_decide_eq_true_2 _ Hsome). exists m'. split; [done|]. split; [done|]. intros l'.
  destruct (decide (l' = l)) as [->|Hne]; [rewrite <- Eb; tauto|]. rewrite Hother by done. tauto.
Qed.

Lemma createRegisteredBooks_ok p M :
  mgr_ok (books p) M →
  ∃ b', createRegisteredBooks p = (true, with_books p b') ∧ mgr_ok b' M ∧
    ∀ l, good_locate l → is_Some (BookManager.books b' !! l) ↔
      StockDirectory.registered (symbols p) l ∨ is_Some (BookManager.books (books p) !! l).
Proof.
  intros Hm. unfold createRegisteredBooks.
  assert (∀ ls b0, (∀ l, l ∈ ls → good_locate l) → mgr_ok b0 M →
    ∃ b', fold_left (λ '(success, p) locate,
        if StockDirectory.isRegistered (symbols p) locate then
          let '(created, p') := createRegisteredBook p locate in (created && success, p')
        else (success, p)) ls (true, with_books p b0) = (true, with_books p b') ∧ mgr_ok b' M ∧
      ∀ l, is_Some (BookManager.books b' !! l) ↔
        (l ∈ ls ∧ StockDirectory.registered (symbols p) l) ∨ is_Some (BookManager.books b0 !! l)) as Hloop.
  { induction ls as [|l ls IH]; intros b0 Hls Hb0.
    { exists b0. split; [done|]. split; [done|]. intros l. rewrite elem_of_nil. tauto. }
    assert (good_locate l) as Hg by (apply Hls; set_solver).
    pose proof (StockDirectory.isRegistered_iff (symbols p) l (StockDirectory.good_fits l Hg)) as Hreg.
    cbn [fold_left symbols with_books]. destruct (StockDirectory.isRegistered (symbols p) l).
    - destruct (createRegisteredBook_ok (with_books p b0) M l Hb0 Hg (proj1 Hreg eq_refl)) as (b1&->&Hb1&Hdom).
      cbn [andb]. destruct (IH b1) as (b'&Hfold&Hb'&Hdom'); [set_solver|done|].
      exists b'. split; [exact Hfold|]. split; [done|]. intros l'. rewrite Hdom', Hdom, elem_of_cons. cbn.
      destruct (decide (l' = l)) as [->|]; tauto.
    - destruct (IH b0) as (b'&Hfold&Hb'&Hdom'); [set_solver|done|].
      exists b'. split; [exact Hfold|]. split; [done|]. intros l'. rewrite Hdom', elem_of_cons.
      destruct (decide (l' = l)) as [->|]; [|tauto]. assert (¬ StockDirectory.registered (symbols p) l); [|tauto].
      intros H. by apply Hreg in H. }
  destruct (Hloop BookManager.locates (books p)) as (b'&Hfold&Hb'&Hdom); [|done|].
  { intros l. unfold BookManager.locates. rewrite elem_of_range. unfold good_locate. lia. }
  exists b'. split; [by destruct p|]. split; [done|]. intros l Hg. rewrite Hdom.
  assert (l ∈ BookManager.locates); [|tauto]. unfold BookManager.locates. rewrite elem_of_range.
  unfold good_locate in Hg. lia.
Qed.

Lemma parsed_directory p M msg :
  par_ok p M → well_formed msg → byteAt msg 0 = ch "R" → last_error p = ""%string →
  channel_phase p ≠ WaitingStartOfMessages → parsed p M msg (handleStockDirectory p msg).
Proof.
  intros Hp (Hb&Hne&Hlen) Ht He Hph. assert (command_of msg = None) as Hcmd by (unfold command_of; by rewrite Ht).
  rewrite Ht in Hlen. unfold handleStockDirectory. set (l := readU16BE msg 1).
  set (sym := fixedText msg 11 kStockLen).
  assert (fits 16 l) as Hf. { apply readU16BE_fits; [done|]. change (expectedItchMessageLength (ch "R")) with 39 in Hlen. lia. }
  destruct (isValidStockLocate l) eqn:Hv; cbn [negb]; rewrite ?orb_true_r; [|by apply parsed_fail].
  rewrite orb_false_r. case_bool_decide; [by apply parsed_fail|].
  pose proof (valid_good_locate l Hf Hv) as Hg.
  destruct (match StockDirectory.get (symbols p) l with Some _ => _ | None => _ end); [by apply parsed_fail|].
  destruct (_ && _); [by apply parsed_fail|]. rewrite (bool_decide_eq_false_2 _ Hph).
  pose proof (StockDirectory.set_spec (symbols p) l (directoryEntry msg l sym) (pa_dir p M Hp) Hf) as (_&Hfail&Hok).
  pose proof (set_registered (symbols p) l (directoryEntry msg l sym) (pa_dir p M Hp) Hg) as Hreg.
  destruct (StockDirectory.set (symbols p) l _) as [r d']. cbn [fst snd] in *.
  destruct r; cbn [negb].
  2: { rewrite Hfail by done. assert (with_symbols p (symbols p) = p) as -> by (by destruct p).
       by apply parsed_fail. }
  destruct (Hok eq_refl) as (Hd'&_). specialize (Hreg eq_refl). cbn [books_prepared with_symbols].
  destruct Hp as [Hdir Hmgr Hbooks Hprep Hend]. destruct (books_prepared p) eqn:Ep.
  - destruct (createRegisteredBook_ok (with_symbols p d') M l Hmgr Hg) as (b'&->&Hb'&Hdom);
      [by apply Hreg; [|left]|]. cbn [negb].
    split; [done|]. exists M. split; [|unfold message_effect; rewrite Hcmd; cbn; by rewrite He].
    split; cbn; try done.
    + intros l' Hl'. rewrite Hdom, Hreg by done. cbn. rewrite Hbooks by done. tauto.
    + by rewrite Ep.
  - split; [done|]. exists M. split; [|unfold message_effect; rewrite Hcmd; cbn; by rewrite He].
    split; cbn; try done.
    + intros l' Hl'. rewrite Ep, Hbooks by done. naive_solver.
    + by rewrite Ep.
Qed.

(** ** System events *)

Lemma advance_ok p M msg next :
  par_ok p M → last_error p = ""%string → command_of msg = None →
  next ≠ SystemHours → (next = EndOfMessages → u64 (Z.of_nat (size M)) = 0) →
  parsed p M msg (snd (advancePhase p next)).
Proof.
  intros Hp He Hcmd Hn Hend. unfold advancePhase.
  destruct (allowedFrom next (channel_phase p)) eqn:Ea; cbn [negb snd]; [|by apply parsed_fail].
  assert (phase_rank (channel_phase p) <= phase_rank next ∧
    (3 <= phase_rank (channel_phase p) ↔ 3 <= phase_rank next)) as [Hr1 Hr2].
  { destruct next, (channel_phase p); cbn in Ea |- *; try done; lia. }
  split; [done|]. exists M. split; [|unfold message_effect; rewrite Hcmd; cbn; by rewrite He].
  destruct Hp as [? ? ? Hprep ?]. split; try done. cbn. by rewrite Hprep.
Qed.

Lemma systemHours_ok p M msg :
  par_ok p M → last_error p = ""%string → command_of msg = None →
  parsed p M msg (handleSystemHoursStart p).
Proof.
  intros Hp He Hcmd. unfold handleSystemHoursStart, advancePhase.
  destruct (allowedFrom SystemHours (channel_phase p)) eqn:Ea; cbn [negb]; [|by apply parsed_fail].
  assert (phase_rank (channel_phase p) < 3) as Hr by (destruct (channel_phase p); cbn in Ea |- *; done || lia).
  destruct Hp as [Hdir Hmgr Hbooks Hprep Hend]. cbn [books_prepared with_phase].
  destruct (books_prepared p) eqn:Ep; [assert (3 <= phase_rank (channel_phase p)) by tauto; lia|].
  destruct (createRegisteredBooks_ok (with_prepared (with_phase p SystemHours) true) M Hmgr) as (b'&->&Hb'&Hdom).
  cbn [negb]. split; [cbn; lia|]. exists M.
  split; [|unfold message_effect; rewrite Hcmd; cbn; by rewrite He].
  split; try done. intros l Hl. cbn. rewrite Hdom by done. cbn. rewrite Hbooks by done. naive_solver.
Qed.

Lemma parsed_event p M msg :
  par_ok p M → byteAt msg 0 = ch "S" → last_error p = ""%string → parsed p M msg (handleSystemEvent p msg).
Proof.
  intros Hp Ht He. assert (command_of msg = None) as Hcmd by (unfold command_of; by rewrite Ht).
  unfold handleSystemEvent.
  case_if; [by apply advance_ok|]. case_if; [by apply systemHours_ok|]. case_if; [by apply advance_ok|].
  case_if; [by apply advance_ok|]. case_if; [by apply advance_ok|].
  destruct (byteAt msg kSystemEventCodeOffset =? ch "C").
  - rewrite (ManagerProps.total_live (books p) M (pa_mgr p M Hp)). case_if; [by apply parsed_fail|]. by apply advance_ok.
  - case_if; [by apply parsed_same|by apply parsed_fail].
Qed.

Lemma parsed_admin p M msg :
  par_ok p M → last_error p = ""%string → command_of msg = None →
  parsed p M msg (markStartupAdminMessage p).
Proof.
  intros Hp He Hcmd. unfold markStartupAdminMessage. case_bool_decide as E; [|by apply parsed_same].
  split; [by rewrite E|]. exists M. split; [|unfold message_effect; rewrite Hcmd; cbn; by rewrite He].
  destruct Hp as [? ? ? Hprep ?]. split; try done. cbn. rewrite Hprep, E. done.
Qed.

(** ** Dispatch *)

Lemma guard_phase p msg :
  dispatchGuard p msg = None →
  channel_phase p ≠ EndOfMessages ∧ (channel_phase p = WaitingStartOfMessages → byteAt msg 0 = ch "S").
Proof.
  unfold dispatchGuard. case_if; [done|]. case_if; [done|].
  destruct (bool_decide (channel_phase p = WaitingStartOfMessages) && _) eqn:E1; [done|].
  destruct (decide (channel_phase p = EndOfMessages)) as [E2|E2];
    [by rewrite (bool_decide_eq_true_2 _ E2)|].
  intros _. split; [done|]. intros Ew.
  rewrite (bool_decide_eq_true_2 _ Ew) in E1. cbn [andb] in E1. apply orb_false_elim in E1 as [E1 _].
  apply negb_false_iff, Z.eqb_eq in E1. done.
Qed.

Lemma well_formed_length msg c n :
  well_formed msg → byteAt msg 0 = ch c → expectedItchMessageLength (ch c) = Z.of_nat n → length msg = n.
Proof. intros (_&_&Hl) Ht He. rewrite Ht, He in Hl. lia. Qed.

Lemma read32_range msg off :
  well_formed msg → (off + 4 <= length msg)%nat → fits 32 (readU32BE msg off).
Proof. intros (Hb&_) Hl. by apply readU32BE_fits. Qed.

Lemma dispatch_parsed p M msg :
  par_ok p M → last_error p = ""%string → well_formed msg → parsed p M msg (snd (dispatchMessage p msg)).
Proof.
  intros Hp He Hw. unfold dispatchMessage. destruct (dispatchGuard p msg) as [err|] eqn:Eg; cbn [snd].
  { apply parsed_fail; [done|]. unfold dispatchGuard in Eg.
    repeat (case_if_in Eg; [by injection Eg as <-|]). done. }
  destruct (guard_phase p msg Eg) as [Hend Hwait]. unfold dispatchType.
  assert (∀ c op, command_of msg = Some c → cmd_ok c → op ≠ ""%string →
    parsed p M msg (mutateBooks p (run (books p) c) op)) as Hmut.
  { intros c op H1 H2 H3. by apply parsed_mutate. }
  assert (∀ a, byteAt msg 0 = ch a → ch a ≠ ch "S" → channel_phase p ≠ WaitingStartOfMessages) as Hnw.
  { intros a Ha Hne Hph. rewrite Ha in Hwait. by destruct Hne; apply Hwait. }
  destruct (Z.eqb_spec (byteAt msg 0) (ch "A")) as [E|E].
  { cbn [snd]. unfold handleAdd. destruct (StockDirectory.get _ _); [|by apply parsed_fail].
    destruct (negb _); [by apply parsed_fail|].
    pose proof (well_formed_length msg "A" 36 Hw E eq_refl) as Hl.
    apply (Hmut (AddOrder _ _ _ _ _ _)); [unfold command_of; by rewrite E| |done].
    split; [apply (read32_range msg 32 Hw)|apply (read32_range msg 20 Hw)]; lia. }
  destruct (Z.eqb_spec (byteAt msg 0) (ch "F")) as [E1|E1].
  { cbn [snd]. unfold handleAdd. destruct (StockDirectory.get _ _); [|by apply parsed_fail].
    destruct (negb _); [by apply parsed_fail|].
    pose proof (well_formed_length msg "F" 40 Hw E1 eq_refl) as Hl.
    apply (Hmut (AddOrder _ _ _ _ _ _)); [unfold command_of; by rewrite E1| |done].
    split; [apply (read32_range msg 32 Hw)|apply (read32_range msg 20 Hw)]; lia. }
  destruct (Z.eqb_spec (byteAt msg 0) (ch "E")) as [E2|E2].
  { cbn [snd]. pose proof (well_formed_length msg "E" 31 Hw E2 eq_refl) as Hl.
    apply (Hmut (ExecuteOrder _ _ _ _)); [unfold command_of; by rewrite E2| |done]. apply (read32_range msg 19 Hw). lia. }
  destruct (Z.eqb_spec (byteAt msg 0) (ch "C")) as [E3|E3].
  { cbn [snd]. unfold handleOrderExecutedWithPrice. destruct (negb _); [by apply parsed_fail|].
    pose proof (well_formed_length msg "C" 36 Hw E3 eq_refl) as Hl.
    apply (Hmut (ExecuteOrder _ _ _ _)); [unfold command_of; by rewrite E3| |done]. apply (read32_range msg 19 Hw). lia. }
  destruct (Z.eqb_spec (byteAt msg 0) (ch "X")) as [E4|E4].
  { cbn [snd]. pose proof (well_formed_length msg "X" 23 Hw E4 eq_refl) as Hl.
    apply (Hmut (CancelShares _ _ _ _)); [unfold command_of; by rewrite E4| |done]. apply (read32_range msg 19 Hw). lia. }
  destruct (Z.eqb_spec (byteAt msg 0) (ch "D")) as [E5|E5].
  { cbn [snd]. apply (Hmut (DeleteOrder _ _ _)); [unfold command_of; by rewrite E5|done|done]. }
  destruct (Z.eqb_spec (byteAt msg 0) (ch "U")) as [E6|E6].
  { cbn [snd]. unfold handleReplace. case_if; [by apply parsed_fail|].
    pose proof (well_formed_length msg "U" 35 Hw E6 eq_refl) as Hl.
    apply (Hmut (ReplaceOrder _ _ _ _ _ _)); [unfold command_of; by rewrite E6| |done].
    split; [apply (read32_range msg 31 Hw)|apply (read32_range msg 27 Hw)]; lia. }
  assert (command_of msg = None) as Hcmd.
  { unfold command_of. by rewrite (proj2 (Z.eqb_neq _ _) E), (proj2 (Z.eqb_neq _ _) E1),
      (proj2 (Z.eqb_neq _ _) E2), (proj2 (Z.eqb_neq _ _) E3), (proj2 (Z.eqb_neq _ _) E4),
      (proj2 (Z.eqb_neq _ _) E5), (proj2 (Z.eqb_neq _ _) E6). }
  assert (parsed p M msg (skip p)) as Hskip.
  { split; [done|]. exists M. split; [by apply par_status|]. unfold message_effect. rewrite Hcmd. cbn.
    by rewrite He. }
  case_if; [exact Hskip|].
  destruct (Z.eqb_spec (byteAt msg 0) (ch "R")) as [E8|E8]; cbn [snd].
  { by apply parsed_directory; [..|apply (Hnw "R"%char)]. }
  destruct (Z.eqb_spec (byteAt msg 0) (ch "S")) as [E9|E9]; cbn [snd]; [by apply parsed_event|].
  case_if; [by apply parsed_admin|exact Hskip].
Qed.

Lemma handle_parsed p M msg :
  par_ok p M → well_formed msg → parsed p M msg (snd (handleMessage p msg)).
Proof.
  intros Hp Hw. pose proof Hw as (_&Hne&Hl). unfold handleMessage. destruct msg as [|ty rest]; [done|].
  change (byteAt (ty :: rest) 0) with ty in Hl.
  rewrite (proj2 (Z.eqb_eq _ _) Hl). rewrite (proj2 (Z.eqb_neq (expectedItchMessageLength ty) 0)) by
    (rewrite <- Hl; cbn [length]; lia). cbn [negb].
  assert (par_ok (with_status p false "") M) as Hp' by (by apply par_status).
  exact (dispatch_parsed _ M (ty :: rest) Hp' eq_refl Hw).
Qed.

(** The decoder's entry point agrees with the public one on well-formed messages. *)
Lemma prevalidated_same p msg : well_formed msg → handlePrevalidatedMessage p msg = handleMessage p msg.
Proof.
  intros (_&Hne&Hl). unfold handleMessage, handlePrevalidatedMessage. destruct msg as [|ty rest]; [done|].
  change (byteAt (ty :: rest) 0) with ty in Hl. rewrite (proj2 (Z.eqb_eq _ _) Hl).
  rewrite (proj2 (Z.eqb_neq (expectedItchMessageLength ty) 0)) by (rewrite <- Hl; cbn [length]; lia). done.
Qed.

(** ** Runs *)

(** A parser over an empty directory and a fresh manager. *)
Lemma make_par_ok direct buckets pages m id :
  fits 64 direct → fits 32 buckets → fits 32 pages → BookManager.make direct buckets pages = Some m →
  par_ok (make StockDirectory.empty m id) ∅.
Proof.
  intros Hd Hb Hp Hm. pose proof (make_mgr_ok direct buckets pages m Hd Hb Hp Hm) as Hok.
  split; try done; [apply StockDirectory.empty_ok|].
  intros l Hl. cbn. split; [|by intros [? _]]. unfold BookManager.make in Hm.
  destruct (OrderTable.make _ _); [|done]. destruct (PriceLevelStore.make _); [|done].
  injection Hm as <-. cbn. rewrite lookup_empty. by intros [].
Qed.

Definition feed (p : t) (msgs : list (list Z)) : t := fold_left (λ p msg, snd (handleMessage p msg)) msgs p.

Lemma feed_ok p M msgs :
  par_ok p M → Forall well_formed msgs →
  phase_rank (channel_phase p) <= phase_rank (channel_phase (feed p msgs)) ∧ ∃ M', par_ok (feed p msgs) M'.
Proof.
  intros Hp Hw. revert p M Hp. induction Hw as [|msg msgs Hmsg _ IH]; intros p M Hp; [split; [done|by exists M]|].
  destruct (handle_parsed p M msg Hp Hmsg) as (Hr&M'&Hp'&_). cbn [feed fold_left].
  destruct (IH _ M' Hp') as [Hr' HM]. split; [|done]. unfold feed in Hr'. lia.
Qed.

End ParserInv.
