(* ===== verification/ParserProps.v ===== *)
(** The properties of the parser: refinement of the order map by messages, the
    life cycle of a day, the directory/book audit, and the wire format of the
    book messages. *)
From stdpp Require Import base list gmap strings.
From Stdlib Require Import ZArith Lia Ascii.
From S2P Require Import Prelude Bits Bitmap BookTypes Orders Prices PricesInv PricesAdd PricesErase.
From S2P Require Import PricesRead Book BookInv BookOps Probe Directory Manager ManagerInv.
From S2P Require Import ManagerProps Protocol Parser ParserInv.
#[local] Open Scope Z_scope.
#[local] Open Scope astra_scope.

Module ParserProps.
Import Protocol ItchParser ManagerInv ParserInv.

(** ** Wire encoding of the book messages *)

Definition header (type : ascii) (locate tracking ts : Z) : list Z :=
  ch type :: putBE 2 locate ++ putBE 2 tracking ++ putBE 6 ts.

(** The message for a command; [stock] and [mtch] are the fields the parser
    does not pass on (ticker and match number). *)
Definition encode (c : Command) (tracking mtch : Z) (stock : list Z) : list Z :=
  match c with
  | AddOrder l id price qty side ts =>
    header "A" l tracking ts ++ putBE 8 id ++ [side] ++ putBE 4 qty ++ stock ++ putBE 4 price
  | ExecuteOrder l id qty ts => header "E" l tracking ts ++ putBE 8 id ++ putBE 4 qty ++ putBE 8 mtch
  | CancelShares l id qty ts => header "X" l tracking ts ++ putBE 8 id ++ putBE 4 qty
  | DeleteOrder l id ts => header "D" l tracking ts ++ putBE 8 id
  | ReplaceOrder l old new price qty ts =>
    header "U" l tracking ts ++ putBE 8 old ++ putBE 8 new ++ putBE 4 qty ++ putBE 4 price
  end.

(** The fields have their wire widths. *)
Definition cmd_fits (c : Command) : Prop :=
  match c with
  | AddOrder l id price qty side ts =>
    fits 16 l ∧ fits 64 id ∧ fits 32 price ∧ fits 32 qty ∧ fits 8 side ∧ fits 48 ts
  | ExecuteOrder l id qty ts | CancelShares l id qty ts =>
    fits 16 l ∧ fits 64 id ∧ fits 32 qty ∧ fits 48 ts
  | DeleteOrder l id ts => fits 16 l ∧ fits 64 id ∧ fits 48 ts
  | ReplaceOrder l old new price qty ts =>
    fits 16 l ∧ fits 64 old ∧ fits 64 new ∧ fits 32 price ∧ fits 32 qty ∧ fits 48 ts
  end.

Lemma encode_bytes c tracking mtch stock :
  cmd_fits c → bytes stock → bytes (encode c tracking mtch stock).
Proof.
  intros Hc Hs. unfold bytes, encode, header.
  assert (∀ n v, Forall (λ b, 0 <= b < 256) (putBE n v)) as Hp by apply bytes_putBE.
  destruct c; cbn [cmd_fits] in Hc; decompose [and] Hc; clear Hc;
    repeat first [apply Hp | exact Hs | apply Forall_app; split | apply Forall_cons; split
                 | apply Forall_nil; exact I | assumption | (split; [discriminate|reflexivity])].
Qed.

(** Reading the fields of an encoded message. *)
Ltac read_field :=
  lazymatch goal with
  | |- readU16BE ?bs ?off = ?v => refine (read16_putBE v bs off _ _); [reflexivity|assumption]
  | |- readU32BE ?bs ?off = ?v => refine (read32_putBE v bs off _ _); [reflexivity|assumption]
  | |- readU64BE ?bs ?off = ?v => refine (read_putBE 8 v bs off _ _ _); [lia|reflexivity|assumption]
  | |- readU48BE ?bs ?off = ?v => refine (read_putBE 6 v bs off _ _ _); [lia|reflexivity|assumption]
  | |- byteAt ?bs ?off = ?v => reflexivity
  end.

(** Resolve the tests on the type of an encoded message. *)
Ltac typed a :=
  match goal with
  | |- context [encode ?c ?tr ?m ?st] =>
    let msg := fresh "msg" in
    set (msg := encode c tr m st);
    change (byteAt msg 0) with (ch a);
    repeat match goal with
    | |- context [ch ?x =? ch ?y] =>
      let v := eval vm_compute in (ch x =? ch y) in change (ch x =? ch y) with v
    end; cbn [orb]
  end.

Lemma decode_encode c tracking mtch stock :
  cmd_fits c → length stock = 8%nat → command_of (encode c tracking mtch stock) = Some c.
Proof.
  intros Hc Hl. do 8 (destruct stock as [|? stock]; [done|]). destruct stock; [|done].
  destruct c; cbn [cmd_fits] in Hc; decompose [and] Hc; clear Hc; unfold command_of;
    match goal with
    | |- context [encode (AddOrder _ _ _ _ _ _)] => typed "A"%char
    | |- context [encode (ExecuteOrder _ _ _ _)] => typed "E"%char
    | |- context [encode (CancelShares _ _ _ _)] => typed "X"%char
    | |- context [encode (DeleteOrder _ _ _)] => typed "D"%char
    | |- context [encode (ReplaceOrder _ _ _ _ _ _)] => typed "U"%char
    end; do 2 f_equal; read_field.
Qed.

Lemma encode_well_formed c tracking mtch stock :
  cmd_fits c → length stock = 8%nat → bytes stock → well_formed (encode c tracking mtch stock).
Proof.
  intros Hc Hl Hs. split; [by apply encode_bytes|].
  do 8 (destruct stock as [|? stock]; [done|]). destruct stock; [|done]. by destruct c.
Qed.

(** ** Lemmas for the properties *)

Lemma clean_parser p M :
  par_ok p M → 3 <= phase_rank (channel_phase p) →
  BookManager.clean (BookManager.auditDirectory (books p) (symbols p)) = true.
Proof.
  intros Hp Hr. apply (ManagerProps.clean_registered _ M _ (pa_mgr p M Hp) (pa_dir p M Hp)). intros l Hl.
  unfold BookManager.getOrderBook. rewrite (find_book _ M _ (pa_mgr p M Hp)).
  rewrite (pa_books p M Hp l Hl). pose proof (proj2 (pa_prepared p M Hp) Hr). tauto.
Qed.

Lemma feed_app p msgs1 msgs2 : feed p (msgs1 ++ msgs2) = feed (feed p msgs1) msgs2.
Proof. unfold feed. by rewrite fold_left_app. Qed.

(** The guard of the teardown phase. *)
Lemma teardown_guard p msg :
  channel_phase p = PostSystemHours → dispatchGuard p msg = None →
  byteAt msg 0 = ch "X" ∨ byteAt msg 0 = ch "D" ∨ byteAt msg 0 = ch "B" ∨ byteAt msg 0 = ch "S".
Proof.
  intros Hph. unfold dispatchGuard. rewrite Hph. enum. case_if; [done|]. case_if; [done|].
  destruct (Z.eqb_spec (byteAt msg 0) (ch "X")); [by left|].
  destruct (Z.eqb_spec (byteAt msg 0) (ch "D")); [by right; left|].
  destruct (Z.eqb_spec (byteAt msg 0) (ch "B")); [by right; right; left|].
  destruct (Z.eqb_spec (byteAt msg 0) (ch "S")); [by right; right; right|]. done.
Qed.

Lemma guard_error p msg err : dispatchGuard p msg = Some err → err ≠ ""%string.
Proof. unfold dispatchGuard. intros Eg. repeat (case_if_in Eg; [by injection Eg as <-|]). done. Qed.

(** ** Properties *)

(** C14. Handling a message of a valid length keeps the directory,
    the books and the phase consistent; a message that is accepted changes the
    live orders exactly as its decoded fields say (add, execute, cancel, delete,
    replace; every other type changes none), and a message that reports an error
    changes none. *)
Theorem parser_refines_orders p M msg :
  par_ok p M → well_formed msg →
  let p' := snd (handleMessage p msg) in
  ∃ M', par_ok p' M' ∧
    (last_error p' = ""%string → BookOps.abs <$> M' = message_effect msg (BookOps.abs <$> M)) ∧
    (last_error p' ≠ ""%string → M' = M).
Proof. intros Hp Hw. apply (handle_parsed p M msg Hp Hw). Qed.

(** Round trip of the wire format: for every book mutation
    whose fields have their wire widths, the encoded message passes the length
    check and handling it, when it reports no error, performs exactly that
    mutation on the live orders. *)
Theorem parser_encoded_command p M c tracking mtch stock :
  par_ok p M → cmd_fits c → length stock = 8%nat → bytes stock →
  let msg := encode c tracking mtch stock in
  let p' := snd (handleMessage p msg) in
  well_formed msg ∧
  (last_error p' = ""%string → ∃ M', par_ok p' M' ∧ BookOps.abs <$> M' = effect c (BookOps.abs <$> M)).
Proof.
  intros Hp Hc Hl Hs msg p'. pose proof (encode_well_formed c tracking mtch stock Hc Hl Hs) as Hw.
  split; [done|]. intros He. destruct (handle_parsed p M msg Hp Hw) as (_&M'&Hp'&Heff&_).
  exists M'. split; [done|]. fold p' in Heff. rewrite (Heff He). unfold message_effect, msg.
  by rewrite (decode_encode c tracking mtch stock Hc Hl).
Qed.

(** C32. From construction on, over any messages of valid length: the
    phase of the day never moves backwards; a book exists exactly for the
    registered locates once system hours have started and for none before; and end
    of messages is only ever reached with no live order (their number is zero
    modulo 2^64). *)
Theorem parser_lifecycle direct buckets pages m id msgs1 msgs2 :
  fits 64 direct → fits 32 buckets → fits 32 pages → BookManager.make direct buckets pages = Some m →
  Forall well_formed (msgs1 ++ msgs2) →
  let p0 := make StockDirectory.empty m id in
  let p := feed p0 (msgs1 ++ msgs2) in
  phase_rank (channel_phase (feed p0 msgs1)) <= phase_rank (channel_phase p) ∧
  (∀ l, good_locate l → is_Some (BookManager.getOrderBook (books p) l) ↔
     3 <= phase_rank (channel_phase p) ∧ StockDirectory.registered (symbols p) l) ∧
  ∃ M, par_ok p M ∧ (channel_phase p = EndOfMessages → u64 (Z.of_nat (size M)) = 0).
Proof.
  intros Hd Hb Hp Hm Hw p0 p. apply Forall_app in Hw as [Hw1 Hw2].
  pose proof (make_par_ok direct buckets pages m id Hd Hb Hp Hm) as Hok.
  destruct (feed_ok p0 ∅ msgs1 Hok Hw1) as (_&M1&Hok1).
  destruct (feed_ok _ M1 msgs2 Hok1 Hw2) as (Hr&M&Hok2). rewrite <- feed_app in Hr, Hok2.
  split; [done|]. split; [|exists M; split; [done|apply (pa_end _ _ Hok2)]].
  intros l Hl. unfold BookManager.getOrderBook. rewrite (find_book _ M _ (pa_mgr _ _ Hok2)).
  rewrite (pa_books _ _ Hok2 l Hl). by rewrite (pa_prepared _ _ Hok2).
Qed.

(** Once system hours have started, the one-directory-entry,
    one-book audit is clean at every later point of the day, late registrations
    included. *)
Theorem parser_audit_clean direct buckets pages m id msgs :
  fits 64 direct → fits 32 buckets → fits 32 pages → BookManager.make direct buckets pages = Some m →
  Forall well_formed msgs →
  let p := feed (make StockDirectory.empty m id) msgs in
  3 <= phase_rank (channel_phase p) →
  BookManager.clean (BookManager.auditDirectory (books p) (symbols p)) = true.
Proof.
  intros Hd Hb Hp Hm Hw p Hr. pose proof (make_par_ok direct buckets pages m id Hd Hb Hp Hm) as Hok.
  destruct (feed_ok _ ∅ msgs Hok Hw) as (_&M&HM). by apply (clean_parser p M).
Qed.

(** After system event E the parser only lets the book shrink:
    an accepted message is a cancel, a delete, a broken trade or a system event,
    and after end of messages every message is refused and changes neither the
    directory nor the books nor the phase. *)
Theorem parser_teardown_only p msg :
  well_formed msg →
  let p' := snd (handleMessage p msg) in
  (channel_phase p = PostSystemHours → last_error p' = ""%string →
     byteAt msg 0 = ch "X" ∨ byteAt msg 0 = ch "D" ∨ byteAt msg 0 = ch "B" ∨ byteAt msg 0 = ch "S") ∧
  (channel_phase p = EndOfMessages →
     fst (handleMessage p msg) = false ∧ last_error p' ≠ ""%string ∧
     symbols p' = symbols p ∧ books p' = books p ∧ channel_phase p' = EndOfMessages).
Proof.
  intros Hw p'. unfold p'. rewrite <- (prevalidated_same p msg Hw). destruct Hw as (_&Hne&_).
  unfold handlePrevalidatedMessage. destruct msg as [|ty rest]; [done|]. unfold dispatchMessage.
  set (q := with_status p false ""). split; intros Hph.
  - destruct (dispatchGuard q (ty :: rest)) as [err|] eqn:Eg; cbn [snd].
    + intros He. by destruct (guard_error q _ err Eg).
    + intros _. by apply (teardown_guard q).
  - destruct (dispatchGuard q (ty :: rest)) as [err|] eqn:Eg; cbn [fst snd].
    + pose proof (guard_error q _ err Eg). done.
    + by destruct (guard_phase q _ Eg).
Qed.

(** ** A short day: start of messages, one registration, start of system hours,
    one order. *)

Definition sampleStock : list Z := [65; 66; 32; 32; 32; 32; 32; 32].
Definition systemEvent (ts : Z) (code : ascii) : list Z := header "S" 0 0 ts ++ [ch code].
Definition directoryMessage : list Z :=
  header "R" 7 0 2 ++ sampleStock ++ [81; 78] ++ putBE 4 100 ++ [78; 67; 90; 32; 80] ++
  [78; 32; 49; 78] ++ putBE 4 0 ++ [78].
Definition sampleAdd : Command := AddOrder 7 100 1000 5 66 4.
Definition openingMessages : list (list Z) :=
  [systemEvent 1 "O"; directoryMessage; systemEvent 3 "S"].
Definition opened : t := feed (make StockDirectory.empty ManagerProps.fresh 0) openingMessages.

Lemma opening_well_formed : Forall well_formed openingMessages.
Proof.
  unfold openingMessages. repeat (apply Forall_cons; split); [..|by apply Forall_nil].
  all: split; [unfold bytes; apply (bool_decide_eq_true_1 _); vm_compute; reflexivity|done].
Qed.

Lemma opened_par_ok : ∃ M, par_ok opened M.
Proof.
  apply (feed_ok _ ∅ openingMessages); [|apply opening_well_formed].
  by apply (make_par_ok 16 4 4).
Qed.

Lemma sampleAdd_fits : cmd_fits sampleAdd.
Proof. cbn. unfold fits. lia. Qed.

Lemma sampleStock_bytes : bytes sampleStock.
Proof. unfold sampleStock. repeat (apply Forall_cons; split; [done|]). by apply Forall_nil. Qed.

Lemma parser_refines_orders_witness :
  ∃ M M', par_ok opened M ∧ par_ok (snd (handleMessage opened (systemEvent 5 "Q"))) M' ∧
    BookOps.abs <$> M' = BookOps.abs <$> M.
Proof.
  destruct opened_par_ok as [M HM].
  assert (well_formed (systemEvent 5 "Q")) as Hw.
  { split; [|done]. unfold bytes. apply (bool_decide_eq_true_1 _). vm_compute. reflexivity. }
  destruct (parser_refines_orders opened M (systemEvent 5 "Q") HM Hw) as (M'&Hp&Heff&_).
  exists M, M'. split; [exact HM|]. split; [exact Hp|]. apply Heff. vm_compute. reflexivity.
Defined.

Lemma parser_encoded_command_witness :
  ∃ M M', par_ok opened M ∧ par_ok (snd (handleMessage opened (encode sampleAdd 0 0 sampleStock))) M' ∧
    BookOps.abs <$> M' = <[100 := BookOps.mkO 7 Buy 1000 5]> (BookOps.abs <$> M).
Proof.
  destruct opened_par_ok as [M HM]. exists M.
  destruct (parser_encoded_command opened M sampleAdd 0 0 sampleStock HM sampleAdd_fits eq_refl
    sampleStock_bytes) as [_ H].
  destruct H as (M'&Hp&Heff); [vm_compute; reflexivity|]. exists M'. split; [exact HM|]. split; [exact Hp|].
  exact Heff.
Defined.

Lemma parser_lifecycle_witness :
  is_Some (BookManager.getOrderBook (books opened) 7) ↔
    3 <= phase_rank (channel_phase opened) ∧ StockDirectory.registered (symbols opened) 7.
Proof.
  exact (proj1 (proj2 (parser_lifecycle 16 4 4 ManagerProps.fresh 0 openingMessages [] ltac:(done) ltac:(done)
    ltac:(done) eq_refl opening_well_formed)) 7 ltac:(done)).
Defined.

Lemma parser_audit_clean_witness :
  BookManager.clean (BookManager.auditDirectory (books opened) (symbols opened)) = true.
Proof.
  refine (parser_audit_clean 16 4 4 ManagerProps.fresh 0 openingMessages ltac:(done) ltac:(done)
    ltac:(done) eq_refl opening_well_formed _).
  assert (channel_phase opened = SystemHours) as E by (vm_compute; reflexivity).
  fold opened. rewrite E. cbn. lia.
Defined.

Lemma parser_teardown_only_witness :
  fst (handleMessage (with_phase opened EndOfMessages) (encode sampleAdd 0 0 sampleStock)) = false.
Proof.
  refine (proj1 (proj2 (parser_teardown_only (with_phase opened EndOfMessages)
    (encode sampleAdd 0 0 sampleStock) _) eq_refl)).
  exact (encode_well_formed sampleAdd 0 0 sampleStock sampleAdd_fits eq_refl sampleStock_bytes).
Defined.

End ParserProps.
