(* ===== verification/Decoder.v ===== *)
(** The MoldUDP64 decoder of [MoldUdpDecoder.hpp]/[MoldUdpDecoder.cpp], with the
    channel state of [ChannelState.hpp].

    Module [MoldUdpDecoder] is written against two interfaces: the gap buffer
    ([RecoveryBuffer]) and the parser it drives ([MessageSink]).  [processPacket]
    is the whole member; console output is left out.  [drainLoop] is the unbounded
    loop of [drainGapBuffer] with fuel; [DecoderInv] shows the fuel suffices. *)
From stdpp Require Import base list gmap strings.
From Stdlib Require Import ZArith Lia Ascii.
From S2P Require Import Prelude Bits Probe Gap Protocol Parser.
#[local] Open Scope Z_scope.
#[local] Open Scope astra_scope.

Inductive DecodeStatus :=
  | Ok | PacketTooSmall | InvalidMessageType | InvalidSize | UnSupportedVersion | InvalidOrderSide
  | Heartbeat | EndOfStream | InvalidSequence | InvalidSession | RedundantFeedMismatch
  | InvalidItchMessage | IncompleteSession.
#[global] Instance DecodeStatus_eq_dec : EqDecision DecodeStatus.
Proof. solve_decision. Defined.

Definition decodeStatusName (status : DecodeStatus) : string :=
  match status with
  | Ok => "Ok"
  | PacketTooSmall => "PacketTooSmall"
  | InvalidMessageType => "InvalidMessageType"
  | InvalidSize => "InvalidSize"
  | UnSupportedVersion => "UnSupportedVersion"
  | InvalidOrderSide => "InvalidOrderSide"
  | Heartbeat => "Heartbeat"
  | EndOfStream => "EndOfStream"
  | InvalidSequence => "InvalidSequence"
  | InvalidSession => "InvalidSession"
  | RedundantFeedMismatch => "RedundantFeedMismatch"
  | InvalidItchMessage => "InvalidItchMessage"
  | IncompleteSession => "IncompleteSession"
  end.

Definition isTerminalDecodeFailure (status : DecodeStatus) : bool :=
  match status with
  | InvalidSize | InvalidSequence | InvalidSession | RedundantFeedMismatch | InvalidItchMessage
  | IncompleteSession => true
  | _ => false
  end.

Record DecodeResult := mkResult {
  status : DecodeStatus;
  had_gap : bool;
  latency_total_ns : Z;
  latency_sample_count : Z }.

(** [{status}] and [{status, had_gap}]. *)
Definition only (s : DecodeStatus) : DecodeResult := mkResult s false 0 0.
Definition gapped (s : DecodeStatus) : DecodeResult := mkResult s true 0 0.

Inductive ChannelHealth := Good | GapDetected | Recovering | Stale | Invalid.
#[global] Instance ChannelHealth_eq_dec : EqDecision ChannelHealth.
Proof. solve_decision. Defined.

(** What the decoder uses of its parser. *)
Class MessageSink (P : Type) := {
  ms_handle : P → list Z → P;
  ms_error : P → string;
  ms_phase : P → ChannelPhase }.

#[global] Instance itchSink : MessageSink ItchParser.t := {|
  ms_handle p msg := snd (ItchParser.handlePrevalidatedMessage p msg);
  ms_error := ItchParser.last_error;
  ms_phase := ItchParser.channel_phase |}.

Module MoldUdpDecoder.
Import Protocol.

Definition kMinimumFramedItchMessageBytes : Z := 2 + 12.
Definition kMaxMessagesPerStoredPacket : Z :=
  (kMaxPacketSize - kHeaderSize) / kMinimumFramedItchMessageBytes.

Section decoder.
Context {B : Type} `{RecoveryBuffer B} {P : Type} `{MessageSink P}.
(** [elapsedRdtscNs(start, rdtsc())], the clock the latency figures are read from. *)
Context (elapsed : Z → Z).

Record ChannelState := mkChannel {
  channel_id : Z;
  session : list Z;
  next_expected_seq : Z;
  heartbeat_next_seq_high_watermark : Z;
  identical_buffered_redundant_packets : Z;
  conflicting_buffered_redundant_packets : Z;
  health : ChannelHealth;
  phase : ChannelPhase;
  gap_buffer : B }.

Record t := mk {
  first_packet_seen : bool;
  pending_end_sequence : Z;
  terminal_status : DecodeStatus;
  channel : ChannelState;
  parser : P }.

Definition make (parser : P) (id initial_expected_sequence : Z) : t :=
  mk false 0 Ok (mkChannel id (replicate 11 0) initial_expected_sequence 0 0 0 Good
                   WaitingStartOfMessages rb_empty) parser.

(** Assignments to single members. *)
Definition with_channel (d : t) (c : ChannelState) : t :=
  mk (first_packet_seen d) (pending_end_sequence d) (terminal_status d) c (parser d).
Definition with_parser (d : t) (p : P) : t :=
  mk (first_packet_seen d) (pending_end_sequence d) (terminal_status d) (channel d) p.
Definition with_pending (d : t) (s : Z) : t :=
  mk (first_packet_seen d) s (terminal_status d) (channel d) (parser d).
Definition with_terminal (d : t) (s : DecodeStatus) : t :=
  mk (first_packet_seen d) (pending_end_sequence d) s (channel d) (parser d).
Definition set_first_seen (d : t) : t :=
  mk true (pending_end_sequence d) (terminal_status d) (channel d) (parser d).

Definition set_session (d : t) (bytes : list Z) : t :=
  let c := channel d in
  with_channel d (mkChannel (channel_id c) (take 10 bytes ++ [0]) (next_expected_seq c)
    (heartbeat_next_seq_high_watermark c) (identical_buffered_redundant_packets c)
    (conflicting_buffered_redundant_packets c) (health c) (phase c) (gap_buffer c)).
Definition set_health (d : t) (h : ChannelHealth) : t :=
  let c := channel d in
  with_channel d (mkChannel (channel_id c) (session c) (next_expected_seq c)
    (heartbeat_next_seq_high_watermark c) (identical_buffered_redundant_packets c)
    (conflicting_buffered_redundant_packets c) h (phase c) (gap_buffer c)).
Definition set_watermark (d : t) (w : Z) : t :=
  let c := channel d in
  with_channel d (mkChannel (channel_id c) (session c) (next_expected_seq c) w
    (identical_buffered_redundant_packets c) (conflicting_buffered_redundant_packets c) (health c)
    (phase c) (gap_buffer c)).
Definition set_expected (d : t) (s : Z) : t :=
  let c := channel d in
  with_channel d (mkChannel (channel_id c) (session c) s (heartbeat_next_seq_high_watermark c)
    (identical_buffered_redundant_packets c) (conflicting_buffered_redundant_packets c) (health c)
    (phase c) (gap_buffer c)).
Definition set_phase (d : t) (ph : ChannelPhase) : t :=
  let c := channel d in
  with_channel d (mkChannel (channel_id c) (session c) (next_expected_seq c)
    (heartbeat_next_seq_high_watermark c) (identical_buffered_redundant_packets c)
    (conflicting_buffered_redundant_packets c) (health c) ph (gap_buffer c)).
Definition set_buffer (d : t) (b : B) : t :=
  let c := channel d in
  with_channel d (mkChannel (channel_id c) (session c) (next_expected_seq c)
    (heartbeat_next_seq_high_watermark c) (identical_buffered_redundant_packets c)
    (conflicting_buffered_redundant_packets c) (health c) (phase c) b).
Definition count_identical (d : t) : t :=
  let c := channel d in
  with_channel d (mkChannel (channel_id c) (session c) (next_expected_seq c)
    (heartbeat_next_seq_high_watermark c) (u64 (identical_buffered_redundant_packets c + 1))
    (conflicting_buffered_redundant_packets c) (health c) (phase c) (gap_buffer c)).
Definition count_conflicting (d : t) : t :=
  let c := channel d in
  with_channel d (mkChannel (channel_id c) (session c) (next_expected_seq c)
    (heartbeat_next_seq_high_watermark c) (identical_buffered_redundant_packets c)
    (u64 (conflicting_buffered_redundant_packets c + 1)) (health c) (phase c) (gap_buffer c)).

Definition sessionMatches (c : ChannelState) (bytes : list Z) : bool :=
  bool_decide (take 10 (session c) = take 10 bytes).

Definition buffer_empty (d : t) : bool := rb_size (gap_buffer (channel d)) =? 0.

Definition terminalFailure (d : t) (s : DecodeStatus) : DecodeResult * t :=
  (only s, with_terminal (set_health d Invalid) s).

Definition mergeLatency (target source : DecodeResult) : DecodeResult :=
  mkResult (status target) (had_gap target)
    (u64 (latency_total_ns target + latency_total_ns source))
    (u64 (latency_sample_count target + latency_sample_count source)).

(** The framing and length check of a whole packet, from message [i] on. *)
Fixpoint validateLoop (data : list Z) (size n offset : nat) : DecodeStatus :=
  match n with
  | O => if Nat.eqb offset size then Ok else InvalidSize
  | S n =>
    if Nat.ltb size (offset + 2) then InvalidSize else
    let msg_len := Z.to_nat (readU16BE data offset) in
    let offset := (offset + 2)%nat in
    if Nat.eqb msg_len 0 || Nat.ltb (size - offset) msg_len then InvalidSize else
    let expected_len := expectedItchMessageLength (byteAt data offset) in
    if (expected_len =? 0) || negb (Z.of_nat msg_len =? expected_len) then InvalidItchMessage else
    validateLoop data size n (offset + msg_len)
  end.

Definition validateSequencedPacket (data : list Z) (size : nat) (msg_count : Z) : DecodeStatus :=
  validateLoop data size (Z.to_nat msg_count) (Z.to_nat kHeaderSize).

(** The message loop of [processSequencedPacket]: its status, the number of
    messages handled and the decoder after it. *)
Fixpoint messageLoop (d : t) (data : list Z) (size : nat) (start_seq : Z) (n offset : nat)
    (message_seq processed : Z) : DecodeStatus * Z * t :=
  match n with
  | O => (Ok, processed, d)
  | S n =>
    if Nat.ltb size (offset + 2) then (InvalidSize, processed, d) else
    let msg_len := Z.to_nat (readU16BE data offset) in
    let offset := (offset + 2)%nat in
    if Nat.eqb msg_len 0 || Nat.ltb size (offset + msg_len) then (InvalidSize, processed, d) else
    if start_seq <=? message_seq then
      let p := ms_handle (parser d) (take msg_len (drop offset data)) in
      let d := set_phase (with_parser d p) (ms_phase p) in
      if negb (bool_decide (ms_error p = ""%string))
      then (InvalidItchMessage, processed, set_health d Invalid)
      else messageLoop d data size start_seq n (offset + msg_len) (u64 (message_seq + 1)) (processed + 1)
    else messageLoop d data size start_seq n (offset + msg_len) (u64 (message_seq + 1)) processed
  end.

Definition processSequencedPacket (d : t) (data : list Z) (size : nat)
    (first_seq msg_count start_seq receive_start_ticks : Z) : DecodeResult * t :=
  let packet_end := u64 (first_seq + msg_count) in
  if (start_seq <? first_seq) || (packet_end <? start_seq) then (only InvalidSequence, d) else
  let '(s, processed, d) :=
    messageLoop d data size start_seq (Z.to_nat msg_count) (Z.to_nat kHeaderSize) first_seq 0 in
  if negb (bool_decide (s = Ok)) then (only s, d) else
  if negb (receive_start_ticks =? 0) && negb (processed =? 0)
  then (mkResult Ok false (elapsed receive_start_ticks) processed, d)
  else (only Ok, d).

(** The search of [drainGapBuffer] for a stored packet that starts at most
    [max_distance] before the expected sequence, nearest first. *)
Fixpoint candidateLoop (b : B) (expected : Z) (n : nat) (distance : Z) : option SequencedPacket :=
  match n with
  | O => None
  | S n =>
    match rb_find b (u64 (expected - distance)) with
    | Some p => Some p
    | None => candidateLoop b expected n (distance + 1)
    end
  end.

Definition candidate (d : t) : option SequencedPacket :=
  let expected := next_expected_seq (channel d) in
  let max_distance := Z.min expected kMaxMessagesPerStoredPacket in
  candidateLoop (gap_buffer (channel d)) expected (Z.to_nat (max_distance + 1)) 0.

Definition erase (d : t) (s : Z) : t := set_buffer d (rb_erase (gap_buffer (channel d)) s).

(** [None] when the fuel runs out. *)
Fixpoint drainLoop (fuel : nat) (d : t) (aggregate : DecodeResult) : option (DecodeResult * t) :=
  match fuel with
  | O => None
  | S fuel =>
    match candidate d with
    | None => Some (aggregate, d)
    | Some p =>
      let packet_end := u64 (seq p + msg_count p) in
      if packet_end <=? next_expected_seq (channel d) then drainLoop fuel (erase d (seq p)) aggregate else
      let '(result, d) :=
        processSequencedPacket d (data p) (Z.to_nat (len p)) (seq p) (msg_count p)
          (next_expected_seq (channel d)) (receive_start_ticks p) in
      let aggregate := mergeLatency aggregate result in
      let d := erase d (seq p) in
      if negb (bool_decide (status result = Ok)) then
        Some (mkResult (status result) (had_gap aggregate) (latency_total_ns aggregate)
                (latency_sample_count aggregate), set_health d Invalid)
      else drainLoop fuel (set_expected d packet_end) aggregate
    end
  end.

(** Every turn of the loop removes a stored packet. *)
Definition drainGapBuffer (d : t) : DecodeResult * t :=
  default (only Ok, d) (drainLoop (S (Z.to_nat (rb_size (gap_buffer (channel d))))) d (only Ok)).

Definition resolvePendingEndOfStream (d : t) : DecodeStatus * t :=
  let c := channel d in
  if (pending_end_sequence d =? 0) || (next_expected_seq c <? pending_end_sequence d) then (Ok, d) else
  if pending_end_sequence d <? next_expected_seq c then (InvalidSequence, d) else
  if negb (bool_decide (health c = Good)) || negb (buffer_empty d) ||
     negb (heartbeat_next_seq_high_watermark c =? 0) then (Ok, d) else
  if negb (bool_decide (phase c = EndOfMessages)) then (IncompleteSession, d) else
  (EndOfStream, with_terminal (with_pending d 0) EndOfStream).

(** The end-of-session branch of [processPacket]. *)
Definition processEndOfSession (d : t) (first_seq : Z) : DecodeResult * t :=
  let c := channel d in
  if (first_seq <? next_expected_seq c) ||
     (negb (pending_end_sequence d =? 0) && negb (pending_end_sequence d =? first_seq)) ||
     (first_seq <? heartbeat_next_seq_high_watermark c)
  then terminalFailure d InvalidSequence else
  if next_expected_seq c <? first_seq then
    if bool_decide (phase c = EndOfMessages) || bool_decide (health c = Invalid) ||
       bool_decide (health c = Stale)
    then terminalFailure d InvalidSequence else
    let d := with_pending d first_seq in
    let d := set_watermark d (Z.max (heartbeat_next_seq_high_watermark c) first_seq) in
    (gapped Ok, set_health d GapDetected)
  else
  if negb (bool_decide (health c = Good)) || negb (buffer_empty d) ||
     negb (heartbeat_next_seq_high_watermark c =? 0)
  then terminalFailure d InvalidSequence else
  if negb (bool_decide (phase c = EndOfMessages)) then terminalFailure d IncompleteSession else
  (only EndOfStream, with_terminal d EndOfStream).

(** The heartbeat branch. *)
Definition processHeartbeat (d : t) (first_seq : Z) : DecodeResult * t :=
  let c := channel d in
  if negb (pending_end_sequence d =? 0) && (pending_end_sequence d <? first_seq)
  then terminalFailure d InvalidSequence else
  if next_expected_seq c <? first_seq then
    let d := set_watermark d (Z.max (heartbeat_next_seq_high_watermark c) first_seq) in
    (gapped Ok,
     if negb (bool_decide (health c = Stale)) && negb (bool_decide (health c = Invalid))
     then set_health d GapDetected else d)
  else
  if negb (heartbeat_next_seq_high_watermark c =? 0) &&
     (heartbeat_next_seq_high_watermark c <=? next_expected_seq c) then
    let d := set_watermark d 0 in
    (only Ok,
     if buffer_empty d && negb (bool_decide (health c = Invalid)) && negb (bool_decide (health c = Stale))
     then set_health d Good else d)
  else (only Ok, d).

(** A sequenced packet that starts after the expected sequence. *)
Definition bufferAhead (d : t) (data : list Z) (size : nat) (first_seq msg_count ticks : Z)
  : DecodeResult * t :=
  let already_stale := bool_decide (health (channel d) = Stale) in
  let d := set_health d GapDetected in
  if already_stale then (gapped Ok, set_health d Stale) else
  if kMaxPacketSize <? Z.of_nat size then terminalFailure d InvalidSize else
  let '(insert_result, b) :=
    rb_insert (gap_buffer (channel d))
      (mkPacket first_seq ticks msg_count (u16 (Z.of_nat size)) data) in
  let d := set_buffer d b in
  match insert_result with
  | ConflictingDuplicate => terminalFailure (count_conflicting d) RedundantFeedMismatch
  | DuplicateIdentical => (gapped Ok, count_identical d)
  | Inserted => (gapped Ok, d)
  | _ => (gapped Ok, set_health d Stale)
  end.

(** After the drain: the channel's health and the pending end marker. *)
Definition settle (d : t) (result : DecodeResult) (had_gap : bool) : DecodeResult * t :=
  let d :=
    if negb (bool_decide (health (channel d) = Invalid)) && negb (bool_decide (health (channel d) = Stale))
    then
      let c := channel d in
      let d := if negb (heartbeat_next_seq_high_watermark c =? 0) &&
                  (heartbeat_next_seq_high_watermark c <=? next_expected_seq c)
               then set_watermark d 0 else d in
      let resolved := buffer_empty d && (heartbeat_next_seq_high_watermark (channel d) =? 0) in
      set_health d (if resolved then Good else Recovering)
    else d in
  let result := mkResult (status result) had_gap (latency_total_ns result) (latency_sample_count result) in
  let '(pending_status, d) := resolvePendingEndOfStream d in
  if negb (bool_decide (pending_status = Ok)) then
    if bool_decide (pending_status = EndOfStream)
    then (mkResult EndOfStream had_gap (latency_total_ns result) (latency_sample_count result), d)
    else terminalFailure d pending_status
  else (result, d).

(** A sequenced packet that reaches the expected sequence. *)
Definition applyPacket (d : t) (data : list Z) (size : nat) (first_seq msg_count ticks : Z)
  : DecodeResult * t :=
  let expected := next_expected_seq (channel d) in
  let packet_end := u64 (first_seq + msg_count) in
  let start_seq := if first_seq <? expected then expected else first_seq in
  let '(result, d) := processSequencedPacket d data size first_seq msg_count start_seq ticks in
  if negb (bool_decide (status result = Ok)) then terminalFailure d (status result) else
  let d := if bool_decide (health (channel d) = GapDetected) then set_health d Recovering else d in
  let d := set_expected d packet_end in
  let had_gap := bool_decide (health (channel d) = GapDetected) ||
                 bool_decide (health (channel d) = Recovering) in
  let '(drained, d) := drainGapBuffer d in
  let result := mergeLatency result drained in
  if negb (bool_decide (status drained = Ok)) then terminalFailure d (status drained) else
  settle d result had_gap.

(** The sequenced branch, after the header. *)
Definition processSequenced (d : t) (data : list Z) (size : nat) (first_seq msg_count ticks : Z)
  : DecodeResult * t :=
  if max_u64 - msg_count <? first_seq then terminalFailure d InvalidSequence else
  let validation_status := validateSequencedPacket data size msg_count in
  if negb (bool_decide (validation_status = Ok)) then terminalFailure d validation_status else
  let expected := next_expected_seq (channel d) in
  let packet_end := u64 (first_seq + msg_count) in
  if negb (pending_end_sequence d =? 0) && (pending_end_sequence d <? packet_end)
  then terminalFailure d InvalidSequence else
  if packet_end <=? expected then (only Ok, d) else
  if expected <? first_seq then bufferAhead d data size first_seq msg_count ticks else
  applyPacket d data size first_seq msg_count ticks.

(** [processPacket] on a packet view: its bytes ([None] is a null pointer) and the
    ticks at which it was received. *)
Definition processPacket (d : t) (packet : option (list Z)) (ticks : Z) : DecodeResult * t :=
  if negb (bool_decide (terminal_status d = Ok)) then (only (terminal_status d), d) else
  match packet with
  | None => (only PacketTooSmall, d)
  | Some data =>
    let size := length data in
    if Z.of_nat size <? kHeaderSize then (only PacketTooSmall, d) else
    let msg_count := readU16BE data 18 in
    let first_seq := readU64BE data 10 in
    if ((msg_count =? 0) || (msg_count =? kEndOfSessionMessageCount)) &&
       negb (Z.of_nat size =? kHeaderSize)
    then terminalFailure d InvalidSize else
    if first_packet_seen d && negb (sessionMatches (channel d) data)
    then terminalFailure d InvalidSession else
    let d := if first_packet_seen d then d else set_session (set_first_seen d) data in
    if msg_count =? kEndOfSessionMessageCount then processEndOfSession d first_seq else
    if msg_count =? 0 then processHeartbeat d first_seq else
    processSequenced d data size first_seq msg_count ticks
  end.

Definition endOfStreamAccepted (d : t) : bool := bool_decide (terminal_status d = EndOfStream).

End decoder.

#[global] Arguments ChannelState B : clear implicits.
#[global] Arguments t B P : clear implicits.

End MoldUdpDecoder.
