(* ===== verification/DecoderInv.v ===== *)
(** The decoder hands the parser every message of the stream once and in order.

    [stream] is the sequence of messages the feed numbers; a packet [carries] the
    part of it that its header claims.  [decoded] is the invariant: the parser has
    been given exactly the messages from the initial sequence up to some point,
    which is the expected sequence as long as the decoder has not failed; stored
    packets lie ahead of it. *)
From stdpp Require Import base list gmap strings.
From Stdlib Require Import ZArith Lia Ascii.
From S2P Require Import Prelude Bits Probe Gap Protocol Parser Decoder.
#[local] Open Scope Z_scope.
#[local] Open Scope astra_scope.

Module DecoderInv.
Import Protocol MoldUdpDecoder.

(** ** Framing *)

(** The [n] length-prefixed messages of a payload. *)
Fixpoint unframe (n : nat) (bs : list Z) : option (list (list Z)) :=
  match n with
  | O => match bs with [] => Some [] | _ => None end
  | S n =>
    if Nat.ltb (length bs) 2 then None else
    let msg_len := Z.to_nat (readU16BE bs 0) in
    let rest := drop 2 bs in
    if Nat.eqb msg_len 0 || Nat.ltb (length rest) msg_len then None else
    (λ ms, take msg_len rest :: ms) <$> unframe n (drop msg_len rest)
  end.

Lemma byteAt_drop bs off i : byteAt (drop off bs) i = byteAt bs (off + i).
Proof. unfold byteAt. by rewrite lookup_drop. Qed.

Lemma readU16BE_drop bs off : readU16BE bs off = readU16BE (drop off bs) 0.
Proof. unfold readU16BE. rewrite !byteAt_drop. by rewrite Nat.add_0_r. Qed.

Lemma length_unframe n bs ms : unframe n bs = Some ms → length ms = n.
Proof.
  revert bs ms. induction n as [|n IH]; intros bs ms; cbn [unframe].
  { destruct bs; [|done]. by intros [= <-]. }
  case_if; [done|]. case_if; [done|]. intros (ms'&Hms&->)%fmap_Some. cbn. f_equal. by eapply IH.
Qed.

(** A message of the length its type prescribes. *)
Definition sized (m : list Z) : Prop :=
  m ≠ [] ∧ Z.of_nat (length m) = expectedItchMessageLength (byteAt m 0).

Lemma validate_unframe data n offset :
  validateLoop data (length data) n offset = Ok →
  ∃ ms, unframe n (drop offset data) = Some ms ∧ Forall sized ms.
Proof.
  revert offset. induction n as [|n IH]; intros offset; cbn [validateLoop unframe].
  { destruct (Nat.eqb_spec offset (length data)) as [->|]; [|done]. intros _. exists [].
    by rewrite drop_all. }
  rewrite length_drop, drop_drop, length_drop.
  destruct (Nat.ltb_spec (length data) (offset + 2)) as [|Hlt]; [done|].
  rewrite (readU16BE_drop data offset). set (k := Z.to_nat (readU16BE (drop offset data) 0)).
  destruct (Nat.eqb_spec k 0) as [|Hk]; [done|]. cbn [orb].
  destruct (Nat.ltb_spec (length data - (offset + 2)) k) as [|Hle]; [done|].
  destruct (_ || _) eqn:Elen; [done|]. apply orb_false_elim in Elen as [_ Elen]. zbool.
  intros (ms&Hms&Hall)%IH. rewrite (proj2 (Nat.ltb_ge _ _)) by lia.
  exists (take k (drop (offset + 2) data) :: ms).
  split; [by rewrite drop_drop, Hms|]. constructor; [|done].
  assert (length (take k (drop (offset + 2) data)) = k) as Hlen by (rewrite length_take, length_drop; lia).
  split; [intros E; by rewrite E in Hlen|]. rewrite Hlen, Elen. f_equal.
  unfold byteAt at 2. rewrite lookup_take_lt by lia. fold (byteAt (drop (offset + 2) data) 0).
  rewrite byteAt_drop. f_equal. lia.
Qed.

Lemma validate_failure data n :
  validateSequencedPacket data (length data) n ≠ Ok →
  isTerminalDecodeFailure (validateSequencedPacket data (length data) n) = true.
Proof.
  unfold validateSequencedPacket. generalize (Z.to_nat kHeaderSize). generalize (Z.to_nat n).
  intros k. induction k as [|k IH]; intros offset; cbn [validateLoop].
  - by case_if.
  - case_if; [done|]. case_if; [done|]. case_if; [done|]. apply IH.
Qed.

Lemma sized_length m : sized m → (12 <= length m)%nat.
Proof.
  intros [Hne Hl]. assert (∀ ty, expectedItchMessageLength ty = 0 ∨ 12 <= expectedItchMessageLength ty) as H.
  { intros ty. unfold expectedItchMessageLength. destruct (filter _ itchLengths) as [|e l] eqn:E; [by left|].
    assert (e ∈ itchLengths) as He.
    { assert (e ∈ filter (λ e, e.1 = ty) itchLengths) as Hf by (rewrite E; left).
      by apply list_elem_of_filter in Hf as [_ ?]. }
    right. cbn. clear -He.
    assert (Forall (λ e : Z * Z, 12 <= e.2) itchLengths) as Hall by (apply (bool_decide_eq_true_1 _); reflexivity).
    by eapply Forall_forall in Hall. }
  destruct (H (byteAt m 0)); destruct m; try done; cbn [length] in *; lia.
Qed.

(** The bytes of the frames bound the number of messages. *)
Lemma unframe_bytes n bs ms :
  unframe n bs = Some ms → Forall sized ms → (14 * n <= length bs)%nat.
Proof.
  revert bs ms. induction n as [|n IH]; intros bs ms; cbn [unframe]; [lia|].
  destruct (Nat.ltb_spec (length bs) 2) as [|H2]; [done|].
  set (k := Z.to_nat (readU16BE bs 0)). destruct (Nat.eqb k 0); [done|]. cbn [orb].
  destruct (Nat.ltb_spec (length (drop 2 bs)) k) as [|Hk]; [done|].
  intros (ms'&Hms&->)%fmap_Some [Hm Hms']%Forall_cons. specialize (IH _ _ Hms Hms').
  apply sized_length in Hm. rewrite length_take, Nat.min_l in Hm by done.
  rewrite !length_drop in *. lia.
Qed.

(** ** The message loop *)

Section loops.
Context {B : Type} `{RecoveryBuffer B} {P : Type} `{MessageSink P}.
Context (elapsed : Z → Z).
Implicit Types d : MoldUdpDecoder.t B P.

(** Hand messages to the parser until one reports an error. *)
Fixpoint runList d (ms : list (list Z)) (processed : Z) : DecodeStatus * Z * MoldUdpDecoder.t B P :=
  match ms with
  | [] => (Ok, processed, d)
  | m :: ms =>
    let p := ms_handle (parser d) m in
    let d := set_phase (with_parser d p) (ms_phase p) in
    if negb (bool_decide (ms_error p = ""%string)) then (InvalidItchMessage, processed, set_health d Invalid)
    else runList d ms (processed + 1)
  end.

Lemma messageLoop_runList d data start n offset sq processed ms :
  unframe n (drop offset data) = Some ms → 0 <= sq → sq + Z.of_nat n <= max_u64 →
  messageLoop d data (length data) start n offset sq processed =
  runList d (drop (Z.to_nat (start - sq)) ms) processed.
Proof.
  revert d offset sq processed ms. induction n as [|n IH]; intros d offset sq processed ms Hun Hs0 Hs.
  { cbn in *. destruct (drop offset data); [|done]. injection Hun as <-. by rewrite drop_nil. }
  cbn [messageLoop unframe] in *. rewrite length_drop, drop_drop, length_drop in Hun.
  destruct (Nat.ltb_spec (length data - offset) 2) as [|H2]; [done|].
  rewrite (proj2 (Nat.ltb_ge _ _)) by lia. rewrite (readU16BE_drop data offset).
  set (k := Z.to_nat (readU16BE (drop offset data) 0)) in *. destruct (Nat.eqb k 0); [done|]. cbn [orb] in *.
  destruct (Nat.ltb_spec (length data - (offset + 2)) k) as [|Hk]; [done|].
  rewrite (proj2 (Nat.ltb_ge _ _)) by lia. apply fmap_Some in Hun as (ms'&Hms&->).
  rewrite drop_drop in Hms. rewrite u64_id by (unfold fits, max_u64 in *; lia).
  destruct (Z.leb_spec start sq) as [Hle|Hgt].
  - replace (Z.to_nat (start - sq)) with 0%nat by lia. cbn [drop runList]. case_if; [done|].
    rewrite (IH _ _ _ _ ms') by (done || lia).
    by replace (Z.to_nat (start - (sq + 1))) with 0%nat by lia.
  - replace (Z.to_nat (start - sq)) with (S (Z.to_nat (start - (sq + 1)))) by lia. cbn [drop].
    by rewrite (IH _ _ _ _ ms') by (done || lia).
Qed.

(** Everything but the parser, the phase and the health. *)
Record same_frame d d' : Prop := {
  sf_seen : first_packet_seen d' = first_packet_seen d;
  sf_pending : pending_end_sequence d' = pending_end_sequence d;
  sf_terminal : terminal_status d' = terminal_status d;
  sf_session : session (channel d') = session (channel d);
  sf_expected : next_expected_seq (channel d') = next_expected_seq (channel d);
  sf_watermark : heartbeat_next_seq_high_watermark (channel d') =
                 heartbeat_next_seq_high_watermark (channel d);
  sf_buffer : gap_buffer (channel d') = gap_buffer (channel d) }.

Lemma same_frame_trans d1 d2 d3 : same_frame d1 d2 → same_frame d2 d3 → same_frame d1 d3.
Proof. intros [] []. split; congruence. Qed.

Definition handle_all (ms : list (list Z)) (p : P) : P := fold_left ms_handle ms p.

Lemma runList_spec d ms processed :
  let '(s, n, d') := runList d ms processed in
  same_frame d d' ∧
  ∃ k, (k <= length ms)%nat ∧ parser d' = handle_all (take k ms) (parser d) ∧
    ((s = Ok ∧ k = length ms ∧ n = processed + Z.of_nat (length ms) ∧
      (∀ i, (0 < i <= length ms)%nat → ms_error (handle_all (take i ms) (parser d)) = ""%string) ∧
      health (channel d') = health (channel d) ∧
      phase (channel d') = (match ms with [] => phase (channel d) | _ => ms_phase (parser d') end)) ∨
     (s = InvalidItchMessage ∧ (0 < k)%nat ∧ ms_error (parser d') ≠ ""%string ∧
      ∀ i, (0 < i < k)%nat → ms_error (handle_all (take i ms) (parser d)) = ""%string)).
Proof.
  revert d processed. induction ms as [|m ms IH]; intros d processed; cbn [runList].
  { split; [done|]. exists 0%nat. split; [done|]. split; [done|]. left. cbn. rewrite Z.add_0_r.
    split; [done|]. split; [done|]. split; [done|]. split; [lia|done]. }
  set (p := ms_handle (parser d) m). set (d1 := set_phase (with_parser d p) (ms_phase p)).
  case_bool_decide as Ee; cbn [negb].
  - specialize (IH d1 (processed + 1)). destruct (runList d1 ms (processed + 1)) as [[s n] d'].
    destruct IH as (Hf&k&Hk&Hp&Hr). split; [by apply (same_frame_trans d d1)|].
    exists (S k). split; [cbn; lia|]. split; [done|].
    destruct Hr as [(->&->&->&Hcl&Hh&Hph)|(?&_&?&Hcl)]; [left|right].
    2: { split_and!; [done|lia|done|]. intros [|[|i]] Hi; [lia|done|]. apply (Hcl (S i)). lia. }
    split; [done|]. split; [done|]. split; [cbn [length]; lia|]. split.
    { intros [|[|i]] Hi; [lia|done|]. apply (Hcl (S i)). cbn [length] in Hi. lia. }
    split; [done|]. rewrite Hph.
    destruct ms; [|done]. cbn in Hp. by rewrite Hp.
  - split; [done|]. exists 1%nat. split; [cbn; lia|]. split; [done|]. right. split_and!; [done|lia|done|lia].
Qed.

End loops.

(** ** The stream *)

Section stream.
Context {B : Type} `{RecoveryBuffer B} {P : Type} `{MessageSink P}.
Context (elapsed : Z → Z) (stream : Z → list Z) (init : Z) (p0 : P) (Hinit : 0 <= init).
Implicit Types d : MoldUdpDecoder.t B P.
Abbreviation expected d := (next_expected_seq (channel d)).

(** The parser after the messages from [init] up to [j]. *)
Definition upto (j : Z) : P := handle_all (stream <$> (range (Z.to_nat (j - init)) init)) p0.

Lemma upto_extend a b :
  init <= a <= b → handle_all (stream <$> (range (Z.to_nat (b - a)) a)) (upto a) = upto b.
Proof.
  intros Hab. unfold upto, handle_all. rewrite <- fold_left_app, <- fmap_app.
  replace a with (init + Z.of_nat (Z.to_nat (a - init))) at 3 by lia. rewrite <- range_app.
  do 3 f_equal. lia.
Qed.

(** The payload is the part of the stream the header claims. *)
Definition carries (data : list Z) (first n : Z) : Prop :=
  unframe (Z.to_nat n) (drop (Z.to_nat kHeaderSize) data) =
  Some (stream <$> (range (Z.to_nat n) first)).

Record stored (pk : SequencedPacket) : Prop := {
  st_seq : 0 <= seq pk;
  st_count : 0 < msg_count pk <= kMaxMessagesPerStoredPacket;
  st_end : seq pk + msg_count pk <= max_u64;
  st_len : Z.to_nat (len pk) = length (data pk);
  st_carries : carries (data pk) (seq pk) (msg_count pk) }.

(** A decoder that has not failed, with its stored packets. *)
Record live d (M : gmap Z SequencedPacket) : Prop := {
  lv_holds : rb_holds (gap_buffer (channel d)) M;
  lv_stored : ∀ k pk, M !! k = Some pk → stored pk;
  lv_range : init <= expected d <= max_u64;
  lv_applied : parser d = upto (expected d);
  lv_clean : ∀ j, init < j <= expected d → ms_error (upto j) = ""%string;
  lv_phase : init < expected d → phase (channel d) = ms_phase (parser d) }.

(** No stored packet contains the message that is awaited. *)
Definition uncovered (n : Z) (M : gmap Z SequencedPacket) : Prop :=
  ∀ k pk, M !! k = Some pk → ¬ (k <= n < k + msg_count pk).

(** The message is applied or in a stored packet. *)
Definition have (n : Z) (M : gmap Z SequencedPacket) (s : Z) : Prop :=
  init <= s < n ∨ ∃ k pk, M !! k = Some pk ∧ k <= s < k + msg_count pk.

(** Applying or dropping a stored packet loses nothing. *)
Lemma have_delete n M k pk s :
  M !! k = Some pk → k <= n → init <= s →
  have (Z.max n (k + msg_count pk)) (delete k M) s ↔ have n M s.
Proof.
  intros Hk Hle Hs. unfold have. split.
  - intros [Hn|(k'&q&[_ Hq]%lookup_delete_Some&Hr)]; [|right; by eauto].
    destruct (Z.lt_ge_cases s n); [left; lia|]. right. exists k, pk. split; [done|lia].
  - intros [Hn|(k'&q&Hq&Hr)]; [left; lia|]. destruct (decide (k' = k)) as [->|Hne].
    + simplify_eq. left. lia.
    + right. exists k', q. split; [|done]. by rewrite lookup_delete_ne.
Qed.

Lemma processSequencedPacket_spec d M data first n ticks :
  live d M → carries data first n → 0 <= first → 0 < n → first + n <= max_u64 →
  first <= expected d <= first + n →
  let res := processSequencedPacket elapsed d data (length data) first n (expected d) ticks in
  same_frame d (snd res) ∧
  ∃ j, expected d <= j <= first + n ∧ parser (snd res) = upto j ∧
    ((status (fst res) = Ok ∧ j = first + n ∧ health (channel (snd res)) = health (channel d) ∧
      (∀ i, init < i <= first + n → ms_error (upto i) = ""%string) ∧
      (init < first + n → phase (channel (snd res)) = ms_phase (parser (snd res)))) ∨
     (status (fst res) = InvalidItchMessage ∧ expected d < j ∧ ms_error (upto j) ≠ ""%string ∧
      ∀ i, init < i < j → ms_error (upto i) = ""%string)).
Proof.
  intros Hl Hc Hf Hn Hend Hr. pose proof (lv_range d M Hl) as Hrange. unfold processSequencedPacket.
  rewrite u64_id by (unfold fits, max_u64 in *; lia).
  rewrite (proj2 (Z.ltb_ge _ _)), (proj2 (Z.ltb_ge (first + n) _)) by lia. cbn [orb].
  rewrite (messageLoop_runList d data (expected d) _ _ first 0 _ Hc Hf) by lia.
  rewrite <- fmap_drop, drop_range by lia.
  replace (first + Z.of_nat (Z.to_nat (expected d - first))) with (expected d) by lia.
  replace (Z.to_nat n - Z.to_nat (expected d - first))%nat with (Z.to_nat (first + n - expected d)) by lia.
  set (ms := stream <$> (range (Z.to_nat (first + n - expected d)) (expected d))).
  pose proof (runList_spec d ms 0) as Hrun. destruct (runList d ms 0) as [[s cnt] d'].
  destruct Hrun as (Hfr&k&Hk&Hp&Hs). unfold ms in Hk. rewrite length_fmap, length_range in Hk.
  assert (∀ i, (i <= Z.to_nat (first + n - expected d))%nat →
    handle_all (take i ms) (parser d) = upto (expected d + Z.of_nat i)) as Htake.
  { intros i Hi. rewrite (lv_applied d M Hl). unfold ms. rewrite <- fmap_take, take_range by lia.
    rewrite <- (upto_extend (expected d) (expected d + Z.of_nat i)) by lia. do 3 f_equal. lia. }
  assert (parser d' = upto (expected d + Z.of_nat k)) as Hp' by (rewrite Hp; apply Htake; lia).
  destruct Hs as [(->&Hk'&Hcnt&Hcl&Hh&Hph)|(->&Hk0&Hbad&Hcl)].
  - enum. set (r := if negb (ticks =? 0) && negb (cnt =? 0) then _ else _).
    assert (snd r = d' ∧ status (fst r) = Ok) as [Er Es] by (unfold r; by destruct (_ && _)).
    rewrite Er, Es. split; [done|]. exists (expected d + Z.of_nat k). split; [lia|]. split; [done|]. left.
    unfold ms in Hk'. rewrite length_fmap, length_range in Hk'.
    split; [done|]. split; [lia|]. split; [done|]. split.
    { intros i Hi. destruct (Z.le_gt_cases i (expected d)); [apply (lv_clean d M Hl); lia|].
      replace i with (expected d + Z.of_nat (Z.to_nat (i - expected d))) by lia.
      rewrite <- Htake by lia. apply Hcl. unfold ms. rewrite length_fmap, length_range. lia. }
    intros Hi. rewrite Hph. unfold ms in *.
    destruct (Z.eq_dec (expected d) (first + n)) as [E|E].
    + rewrite <- E, Z.sub_diag. cbn. rewrite (lv_phase d M Hl) by lia. f_equal.
      rewrite Hp', (lv_applied d M Hl). f_equal. lia.
    + by destruct (Z.to_nat (first + n - expected d)) eqn:En; [lia|].
  - enum. split; [done|]. exists (expected d + Z.of_nat k). split; [lia|]. split; [done|]. right.
    split; [done|]. split; [lia|]. split; [by rewrite <- Hp'|]. intros i Hi.
    destruct (Z.le_gt_cases i (expected d)); [apply (lv_clean d M Hl); lia|].
    replace i with (expected d + Z.of_nat (Z.to_nat (i - expected d))) by lia. rewrite <- Htake by lia. apply Hcl. lia.
Qed.

(** ** The drain *)

Lemma candidateLoop_spec b M e n dist :
  rb_holds b M → e <= max_u64 → 0 <= dist → dist + Z.of_nat n <= e + 1 →
  match candidateLoop b e n dist with
  | Some pk => M !! seq pk = Some pk ∧ e - (dist + Z.of_nat n) < seq pk <= e - dist ∧
               ∀ k, seq pk < k <= e - dist → M !! k = None
  | None => ∀ i, dist <= i < dist + Z.of_nat n → M !! (e - i) = None
  end.
Proof.
  intros Hb He. revert dist. induction n as [|n IH]; intros dist Hd Hle; cbn [candidateLoop]; [lia|].
  rewrite (rb_find_spec b M) by done. rewrite u64_id by (unfold fits, max_u64 in *; lia).
  destruct (M !! (e - dist)) as [pk|] eqn:E.
  - rewrite (rb_holds_key b M _ pk Hb E). split; [done|]. split; [lia|]. intros k Hk. lia.
  - specialize (IH (dist + 1) ltac:(lia) ltac:(lia)). destruct (candidateLoop b e n (dist + 1)) as [pk|].
    + destruct IH as (Hpk&Hr&Hnear). split; [done|]. split; [lia|]. intros k Hk.
      destruct (Z.eq_dec k (e - dist)) as [->|]; [done|]. apply Hnear. lia.
    + intros i Hi. destruct (Z.eq_dec i dist) as [->|]; [done|]. apply IH. lia.
Qed.

(** The packet the drain takes next is the nearest within reach, or none covers the
    expected message. *)
Lemma candidate_spec d M :
  live d M →
  match candidate d with
  | Some pk => M !! seq pk = Some pk ∧ stored pk ∧ seq pk <= expected d <= seq pk + kMaxMessagesPerStoredPacket ∧
               ∀ k, seq pk < k <= expected d → M !! k = None
  | None => uncovered (expected d) M
  end.
Proof.
  intros Hl. pose proof (lv_range d M Hl) as Hr. unfold candidate.
  assert (0 <= kMaxMessagesPerStoredPacket) as Hm by done.
  pose proof (candidateLoop_spec (gap_buffer (channel d)) M (expected d)
    (Z.to_nat (Z.min (expected d) kMaxMessagesPerStoredPacket + 1)) 0 (lv_holds d M Hl)
    ltac:(lia) ltac:(lia) ltac:(lia)) as Hc.
  destruct (candidateLoop _ _ _ _) as [pk|].
  - destruct Hc as (Hpk&Hle&Hnear). split; [done|]. split; [by eapply lv_stored|]. split; [lia|].
    intros k Hk. apply Hnear. lia.
  - intros k pk Hk Hcov. pose proof (lv_stored d M Hl k pk Hk) as Hst.
    pose proof (rb_holds_key _ M k pk (lv_holds d M Hl) Hk) as Hkey.
    pose proof (st_count pk Hst). pose proof (st_seq pk Hst).
    assert (M !! (expected d - (expected d - k)) = None) as Hn by (apply Hc; lia).
    replace (expected d - (expected d - k)) with k in Hn by lia. congruence.
Qed.

Lemma live_erase d M k : live d M → live (erase d k) (delete k M).
Proof.
  intros []. split; try done.
  - by apply rb_erase_spec.
  - intros x pk [_ Hx]%lookup_delete_Some. by eapply lv_stored0.
Qed.

(** What the drain leaves alone. *)
Record drain_frame d d' : Prop := {
  df_seen : first_packet_seen d' = first_packet_seen d;
  df_pending : pending_end_sequence d' = pending_end_sequence d;
  df_terminal : terminal_status d' = terminal_status d;
  df_watermark : heartbeat_next_seq_high_watermark (channel d') =
                 heartbeat_next_seq_high_watermark (channel d);
  df_expected : expected d <= expected d' }.

Lemma drain_frame_refl d : drain_frame d d.
Proof. split; done || lia. Qed.
Lemma drain_frame_trans d1 d2 d3 : drain_frame d1 d2 → drain_frame d2 d3 → drain_frame d1 d3.
Proof. intros [] []. split; try congruence. lia. Qed.

(** The parser rejected the message before [j], the first one it rejected. *)
Definition broken d (j : Z) : Prop :=
  expected d < j ∧ parser d = upto j ∧ ms_error (upto j) ≠ ""%string ∧
  ∀ i, init < i < j → ms_error (upto i) = ""%string.

(** From [e] on, as far as the drain reaches back to [k], every message is in a stored
    packet that starts after [k]. *)
Definition bridged (e : Z) (M : gmap Z SequencedPacket) (k : Z) : Prop :=
  ∀ x, e <= x <= k + kMaxMessagesPerStoredPacket → ∃ q p, M !! q = Some p ∧ k < q <= x ∧ x < q + msg_count p.

Lemma bridged_mono e e' M k : e <= e' → bridged e M k → bridged e' M k.
Proof. intros He Hb x Hx. apply Hb. lia. Qed.

(** The drain stops with nothing left to apply, or fails inside a stored packet; it only
    removes packets, and never one that is bridged. *)
Definition drained d M (r : DecodeResult) d' : Prop :=
  drain_frame d d' ∧
  ∃ M', rb_holds (gap_buffer (channel d')) M' ∧ M' ⊆ M ∧
    (∀ k pk, M !! k = Some pk → bridged (expected d) M k → M' !! k = Some pk) ∧
    ((status r = Ok ∧ health (channel d') = health (channel d) ∧ live d' M' ∧ uncovered (expected d') M' ∧
      (∀ s, init <= s → have (expected d') M' s ↔ have (expected d) M s)) ∨
     (status r = InvalidItchMessage ∧ ∃ j k pk, broken d' j ∧ M !! k = Some pk ∧
        k <= expected d' ∧ j <= k + msg_count pk)).

(** One turn of the loop takes the packet [pk] out of the buffer. *)
Lemma drain_turn fuel d M agg pk :
  live d M → candidate d = Some pk → status agg = Ok →
  (∃ d2 agg2, drainLoop elapsed (S fuel) d agg = drainLoop elapsed fuel d2 agg2 ∧ status agg2 = Ok ∧
     live d2 (delete (seq pk) M) ∧ expected d2 = Z.max (expected d) (seq pk + msg_count pk) ∧
     drain_frame d d2 ∧ health (channel d2) = health (channel d)) ∨
  (∃ r d' j, drainLoop elapsed (S fuel) d agg = Some (r, d') ∧ status r = InvalidItchMessage ∧
     rb_holds (gap_buffer (channel d')) (delete (seq pk) M) ∧ drain_frame d d' ∧ expected d' = expected d ∧
     broken d' j ∧ j <= seq pk + msg_count pk).
Proof.
  intros Hl Hc Hagg. pose proof (candidate_spec d M Hl) as Hs. cbn [drainLoop]. rewrite Hc in Hs |- *.
  destruct Hs as (Hpk&[H1 H2 H3 H4 H5]&Hle&_). pose proof (lv_range d M Hl) as Hr.
  rewrite u64_id by (unfold fits, max_u64 in *; lia).
  destruct (Z.leb_spec (seq pk + msg_count pk) (expected d)) as [Hold|Hnew].
  { left. exists (erase d (seq pk)), agg. split; [done|]. split; [done|]. split; [by apply live_erase|].
    split; [cbn; lia|]. split; [by split|done]. }
  rewrite H4. pose proof (processSequencedPacket_spec d M (data pk) (seq pk) (msg_count pk)
    (receive_start_ticks pk) Hl H5 H1 ltac:(lia) H3 ltac:(lia)) as Hp.
  destruct (processSequencedPacket _ _ _ _ _ _ _ _) as [res d1]. cbn [fst snd] in Hp.
  destruct Hp as (Hfr&j&Hj&Hpar&Hs). destruct Hfr as [F1 F2 F3 F4 F5 F6 F7].
  destruct Hs as [(Hok&->&Hh&Hcl&Hph)|(Hbad&Hlt&Herr&Hcl)].
  - left. rewrite Hok. enum. eexists _, _. split; [done|]. split; [done|]. split.
    { destruct Hl. split; try done.
      - cbn. rewrite F7. by apply rb_erase_spec.
      - intros x q [_ Hx]%lookup_delete_Some. by eapply lv_stored0.
      - cbn. lia. }
    split; [cbn; lia|]. split; [split; cbn; congruence || lia|done].
  - right. rewrite Hbad. enum. eexists _, _, j. split; [done|]. split; [done|].
    split; [cbn; rewrite F7; apply rb_erase_spec, Hl|]. split; [split; cbn; congruence || lia|].
    split; [done|]. split; [|lia]. split; [cbn; lia|done].
Qed.

(** A bridged packet is not the one taken, and stays bridged. *)
Lemma bridged_turn d M pk k :
  live d M → candidate d = Some pk → bridged (expected d) M k →
  k ≠ seq pk ∧ bridged (Z.max (expected d) (seq pk + msg_count pk)) (delete (seq pk) M) k.
Proof.
  intros Hl Hc Hb. pose proof (candidate_spec d M Hl) as Hs. rewrite Hc in Hs.
  destruct Hs as (Hpk&_&Hle&Hnear). split.
  - intros ->. destruct (Z.le_gt_cases (expected d) (seq pk + kMaxMessagesPerStoredPacket)); [|lia].
    destruct (Hb (expected d) ltac:(lia)) as (q&p&Hq&Hr&_). by rewrite Hnear in Hq by lia.
  - intros x Hx. destruct (Hb x ltac:(lia)) as (q&p&Hq&Hr). exists q, p. split; [|done].
    rewrite lookup_delete_ne; [done|]. intros <-. rewrite Hpk in Hq. simplify_eq. lia.
Qed.

Lemma drain_spec fuel d M agg :
  live d M → (base.size M < fuel)%nat → status agg = Ok →
  ∃ r d', drainLoop elapsed fuel d agg = Some (r, d') ∧ drained d M r d'.
Proof.
  revert d M agg. induction fuel as [|fuel IH]; intros d M agg Hl Hfuel Hagg; [lia|].
  pose proof (candidate_spec d M Hl) as Hc. destruct (candidate d) as [pk|] eqn:Ec.
  2: { exists agg, d. cbn [drainLoop]. rewrite Ec. split; [done|]. split; [apply drain_frame_refl|].
       exists M. split; [apply (lv_holds d M Hl)|]. split; [done|]. split; [done|]. by left. }
  destruct Hc as (Hpk&_&Hle&_). pose proof (λ k, bridged_turn d M pk k Hl Ec) as Hbr.
  destruct (drain_turn fuel d M agg pk Hl Ec Hagg) as [(d2&agg2&->&Hagg2&Hl2&He2&Hf2&Hh2)|(r&d'&j&->&Hs&Hb&Hf&He&Hj&Hjk)].
  - assert (base.size M = S (base.size (delete (seq pk) M))) as Hsize.
    { rewrite <- (insert_delete_id M (seq pk) pk Hpk) at 1.
      by rewrite map_size_insert_None by apply lookup_delete_eq. }
    destruct (IH d2 (delete (seq pk) M) agg2 Hl2 ltac:(lia) Hagg2) as (r&d'&Hd&Hdr&M'&Hb'&Hsub&Hkeep&Hout).
    exists r, d'. split; [done|]. split; [by eapply drain_frame_trans|]. exists M'. split; [done|].
    split; [etrans; [done|apply delete_subseteq]|]. split.
    { intros k q Hk [Hne Hb2]%Hbr. apply Hkeep; [by rewrite lookup_delete_ne by done|by rewrite He2]. }
    destruct Hout as [(?&Hh'&?&?&Hsame)|(?&j&k&q&?&[_ ?]%lookup_delete_Some&?)]; [left|right; by eauto 10].
    split; [done|]. split; [by rewrite Hh'|]. split; [done|]. split; [done|]. intros s Hs.
    rewrite (Hsame s Hs), He2. apply have_delete; done || lia.
  - exists r, d'. split; [done|]. split; [done|]. exists (delete (seq pk) M). split; [done|].
    split; [apply delete_subseteq|]. split.
    { intros k q Hk [Hne _]%Hbr. by rewrite lookup_delete_ne by done. }
    right. split; [done|]. exists j, (seq pk), pk. rewrite He. split; [done|]. split; [done|lia].
Qed.

Lemma drainGapBuffer_spec d M :
  live d M → drained d M (fst (drainGapBuffer elapsed d)) (snd (drainGapBuffer elapsed d)).
Proof.
  intros Hl. unfold drainGapBuffer. rewrite (rb_size_spec _ M (lv_holds d M Hl)), Nat2Z.id.
  destruct (drain_spec (S (base.size M)) d M (only Ok) Hl ltac:(lia) eq_refl) as (r&d'&->&Hd). done.
Qed.

(** ** Packets *)

Definition healthy d : Prop := terminal_status d = Ok ∨ terminal_status d = EndOfStream.

(** The parser has seen the stream up to some point, which is the expected
    sequence unless the decoder failed inside a packet. *)
Definition decoded d : Prop :=
  ∃ j, init <= expected d <= j ∧ parser d = upto j ∧
       (healthy d → ∃ M, live d M ∧ uncovered (expected d) M).

(** How a terminal status is explained. *)
Definition concluded (r : DecodeResult) d : Prop :=
  match terminal_status d with
  | Ok => True
  | EndOfStream => status r = EndOfStream ∧ phase (channel d) = EndOfMessages ∧
      buffer_empty d = true ∧ heartbeat_next_seq_high_watermark (channel d) = 0 ∧
      health (channel d) = Good
  | s => status r = s ∧ isTerminalDecodeFailure s = true
  end.

(** The buffer after a call that is offered the messages [fresh]: what is stored was
    stored before or is fresh, and a packet that is bridged from the end of the fresh
    messages on is still there. *)
Definition kept d (M : gmap Z SequencedPacket) (fresh : Z → Prop) d' : Prop :=
  ∃ M', rb_holds (gap_buffer (channel d')) M' ∧
    (∀ k pk, M' !! k = Some pk → M !! k = Some pk ∨ ∀ s, k <= s < k + msg_count pk → fresh s) ∧
    (∀ k pk x, M !! k = Some pk → expected d <= x → (∀ s, expected d <= s < x → fresh s) →
       bridged x M k → M' !! k = Some pk).

(** How far the parser got: to the expected sequence without an error, or to the first
    message it rejected, which together with everything since the expected sequence is in
    one packet, fresh or stored. *)
Definition halted (M : gmap Z SequencedPacket) (fresh : Z → Prop) d : Prop :=
  (parser d = upto (expected d) ∧ ∀ i, init < i <= expected d → ms_error (upto i) = ""%string) ∨
  ∃ j, broken d j ∧ ((∀ s, expected d <= s < j → fresh s) ∨
    ∃ k pk, M !! k = Some pk ∧ k <= expected d ∧ j <= k + msg_count pk).

(** One call that is offered the messages [fresh]: nothing is repeated, a terminal
    status is justified, and a decoder that is neither finished nor stale has what it
    had before and the fresh messages. *)
Definition stepped d M (fresh : Z → Prop) (res : DecodeResult * MoldUdpDecoder.t B P) : Prop :=
  let d' := snd res in
  expected d <= expected d' ∧ decoded d' ∧ concluded (fst res) d' ∧ kept d M fresh d' ∧ halted M fresh d' ∧
  (terminal_status d' = Ok → health (channel d') ≠ Stale →
   health (channel d) ≠ Stale ∧
   ∃ M', live d' M' ∧ uncovered (expected d') M' ∧
     ∀ s, init <= s → have (expected d') M' s ↔ have (expected d) M s ∨ fresh s).

Lemma live_congr d d' M :
  live d M → gap_buffer (channel d') = gap_buffer (channel d) → expected d' = expected d →
  parser d' = parser d → phase (channel d') = phase (channel d) → live d' M.
Proof. intros [] Hb He Hp Hph. split; rewrite ?Hb, ?He, ?Hp, ?Hph; done. Qed.

Lemma live_decoded d M : live d M → uncovered (expected d) M → decoded d.
Proof.
  intros Hl Hu. exists (expected d). pose proof (lv_range d M Hl). split; [lia|].
  split; [apply (lv_applied d M Hl)|]. intros _. by exists M.
Qed.

Lemma kept_same d M fresh d' : rb_holds (gap_buffer (channel d')) M → kept d M fresh d'.
Proof. intros Hb. exists M. split; [done|]. split; [by left|done]. Qed.

Lemma live_halted d M0 M fresh : live d M0 → halted M fresh d.
Proof. intros Hl. left. split; [apply (lv_applied d M0 Hl)|apply (lv_clean d M0 Hl)]. Qed.

(** A failure. *)
Lemma failed_stepped d M fresh d' s :
  init <= expected d <= expected d' → kept d M fresh d' → halted M fresh d' →
  isTerminalDecodeFailure s = true → stepped d M fresh (terminalFailure d' s).
Proof.
  intros Hi Hk Hh Hs. split; [cbn; lia|]. split; [|split; [|split; [done|split; [done|]]]].
  - destruct Hh as [[Hp _]|(j&(Hj&Hp&_)&_)].
    + exists (expected d'). split; [cbn; lia|]. split; [done|]. intros [E|E]; cbn in E; by subst.
    + exists j. split; [cbn; lia|]. split; [done|]. intros [E|E]; cbn in E; by subst.
  - unfold concluded. cbn. by destruct s.
  - cbn. intros ->. done.
Qed.

Lemma live_failed d M fresh d' s :
  live d M → expected d' = expected d → parser d' = parser d → gap_buffer (channel d') = gap_buffer (channel d) →
  isTerminalDecodeFailure s = true → stepped d M fresh (terminalFailure d' s).
Proof.
  intros Hl He Hp Hb. pose proof (lv_range d M Hl). apply failed_stepped; [lia| |].
  - apply kept_same. rewrite Hb. apply (lv_holds d M Hl).
  - left. rewrite He, Hp. split; [apply (lv_applied d M Hl)|apply (lv_clean d M Hl)].
Qed.

(** A branch that only touches counters, health, watermark or pending end. *)
Lemma live_stepped d M fresh r d' :
  live d M → uncovered (expected d) M →
  (health (channel d') = Stale ∨
   health (channel d) ≠ Stale ∧ ∀ s, init <= s → fresh s → have (expected d) M s) →
  gap_buffer (channel d') = gap_buffer (channel d) → expected d' = expected d → parser d' = parser d →
  phase (channel d') = phase (channel d) → concluded r d' → stepped d M fresh (r, d').
Proof.
  intros Hl Hu Hfresh Hb He Hp Hph Hc.
  assert (live d' M ∧ uncovered (expected d') M) as [Hl' Hu']
    by (split; [by eapply live_congr|by rewrite He]).
  split; [cbn; lia|]. split; [by apply (live_decoded _ M)|]. split; [done|].
  split; [apply kept_same, (lv_holds d' M Hl')|]. split; [by apply (live_halted _ M)|]. cbn [snd].
  intros _ Hns. destruct Hfresh as [|[Hns0 Hfresh]]; [done|]. split; [done|]. exists M.
  split; [done|]. split; [done|]. intros s Hs. rewrite He. specialize (Hfresh s Hs). tauto.
Qed.

(** The same without fresh messages; a stale decoder stays stale. *)
Lemma live_quiet d M r d' :
  live d M → uncovered (expected d) M → (health (channel d) = Stale → health (channel d') = Stale) →
  gap_buffer (channel d') = gap_buffer (channel d) → expected d' = expected d → parser d' = parser d →
  phase (channel d') = phase (channel d) → concluded r d' → stepped d M (λ _, False) (r, d').
Proof.
  intros Hl Hu Hst. apply live_stepped; [done|done|].
  destruct (decide (health (channel d) = Stale)); [left; by apply Hst|by right].
Qed.

Lemma endOfSession_stepped d M first :
  live d M → uncovered (expected d) M → terminal_status d = Ok →
  stepped d M (λ _, False) (processEndOfSession d first).
Proof.
  intros Hl Hu Ht. unfold processEndOfSession.
  destruct (_ || _ || _); [by apply live_failed|]. case_if.
  - destruct (_ || bool_decide (health _ = Invalid) || _) eqn:Eh; [by apply live_failed|].
    apply orb_false_elim in Eh as [_ Eh%bool_decide_eq_false]. apply live_quiet; try done.
    unfold concluded. cbn. by rewrite Ht.
  - destruct (negb _ || _ || _) eqn:Eg; [by apply live_failed|].
    apply orb_false_elim in Eg as [Eg Ew]. apply orb_false_elim in Eg as [Eh Ee].
    apply negb_false_iff in Eh, Ee, Ew. apply bool_decide_eq_true in Eh. apply Z.eqb_eq in Ew.
    case_bool_decide as Eph; cbn [negb]; [|by apply live_failed].
    by apply live_quiet.
Qed.

Lemma heartbeat_stepped d M first :
  live d M → uncovered (expected d) M → terminal_status d = Ok →
  stepped d M (λ _, False) (processHeartbeat d first).
Proof.
  intros Hl Hu Ht. unfold processHeartbeat.
  assert (∀ r d', terminal_status d' = terminal_status d → concluded r d') as Hc.
  { intros r d' E. unfold concluded. by rewrite E, Ht. }
  destruct (negb _ && _); [by apply live_failed|]. case_if; [|case_if].
  - destruct (negb _ && negb _) eqn:Eh; apply live_quiet; try done; try by apply Hc.
    apply andb_true_iff in Eh as [Eh%negb_true_iff%bool_decide_eq_false _]. done.
  - destruct (buffer_empty _ && _ && negb _) eqn:Eh; apply live_quiet; try done; try by apply Hc.
    apply andb_true_iff in Eh as [_ Eh%negb_true_iff%bool_decide_eq_false]. done.
  - apply live_quiet; done || by apply Hc.
Qed.

(** ** Sequenced packets *)

Section sequenced.
Context d (M : gmap Z SequencedPacket) (Hl : live d M) (Hu : uncovered (expected d) M).
Context (Ht : terminal_status d = Ok).
Context (data : list Z) (first n ticks : Z).
Context (Hfirst : 0 <= first) (Hn : 0 < n) (Hend : first + n <= max_u64).
Context (Hcarry : carries data first n).
Context (Hsized : Forall sized (stream <$> range (Z.to_nat n) first)).

(** The messages of the packet. *)
#[local] Abbreviation offered := (λ s, first <= s < first + n).

(** Its bytes fit a slot, and so do its messages. *)
Lemma stored_packet :
  Z.of_nat (length data) <= kMaxPacketSize →
  stored (mkPacket first ticks n (u16 (Z.of_nat (length data))) data).
Proof.
  intros Hlen. unfold kMaxPacketSize in Hlen. split; cbn; try done.
  - split; [done|]. pose proof (unframe_bytes _ _ _ Hcarry Hsized) as Hb. rewrite length_drop in Hb.
    change kMaxMessagesPerStoredPacket with 144. change (Z.to_nat kHeaderSize) with 20%nat in Hb. lia.
  - rewrite u16_id by (unfold fits; lia). lia.
Qed.

(** A new packet in the buffer. *)
Lemma stored_stepped pk b d' r :
  stored pk → seq pk = first → msg_count pk = n → M !! first = None → rb_holds b (<[first := pk]> M) →
  expected d < first → health (channel d) ≠ Stale →
  gap_buffer (channel d') = b → expected d' = expected d → parser d' = parser d →
  phase (channel d') = phase (channel d) → concluded r d' → stepped d M offered (r, d').
Proof.
  intros Hst Hs Hc Hm Hb Hgt Hns Hbuf He Hp Hph Hcon.
  assert (live d' (<[first := pk]> M)) as Hl'.
  { destruct Hl. split; rewrite ?He, ?Hp, ?Hph, ?Hbuf; try done.
    intros k q. rewrite lookup_insert. case_decide; [|by eauto]. by intros [= <-]. }
  assert (uncovered (expected d') (<[first := pk]> M)) as Hu'.
  { intros k q. rewrite He, lookup_insert. case_decide; [|apply Hu]. intros [= <-]. lia. }
  split; [cbn; lia|]. split; [by eapply live_decoded|]. split; [done|]. split.
  { exists (<[first := pk]> M). split; [cbn [snd]; by rewrite Hbuf|]. split.
    - intros k q. rewrite lookup_insert. case_decide; [|by left]. intros [= <-]. right. intros s. lia.
    - intros k q x Hk _ _ _. rewrite lookup_insert_ne; [done|]. intros ->. congruence. }
  split; [by eapply live_halted|]. cbn [snd]. intros _ _.
  split; [done|]. exists (<[first := pk]> M). split; [done|]. split; [done|]. intros s Hi. rewrite He.
  unfold have. split.
  - intros [Hlt|(k&q&Hk&Hr)]; [by left; left|]. rewrite lookup_insert in Hk. case_decide.
    + simplify_eq. right. lia.
    + left. right. by eauto.
  - intros [[Hlt|(k&q&Hk&Hr)]|Hr]; [by left| |].
    + right. exists k, q. split; [|done]. rewrite lookup_insert_ne; [done|]. intros ->. congruence.
    + right. exists first, pk. rewrite lookup_insert_eq, Hc. done.
Qed.

Lemma ahead_stepped :
  expected d < first → stepped d M offered (bufferAhead d data (length data) first n ticks).
Proof.
  intros Hgt. unfold bufferAhead.
  assert (∀ r d', terminal_status d' = terminal_status d → concluded r d') as Hc.
  { intros r d' E. unfold concluded. by rewrite E, Ht. }
  case_bool_decide as Estale; [apply live_stepped; try done; [by left|by apply Hc]|].
  case_if; [by apply live_failed|].
  set (pk := mkPacket first ticks n (u16 (Z.of_nat (length data))) data).
  assert (stored pk) as Hst by (apply stored_packet; lia).
  pose proof (rb_insert_spec (gap_buffer (channel d)) M pk (lv_holds d M Hl)) as Hins.
  cbn zeta in Hins. change (len pk) with (u16 (Z.of_nat (length data))) in Hins.
  rewrite u16_id in Hins by (unfold fits, kMaxPacketSize in *; lia).
  specialize (Hins ltac:(lia)). change (seq pk) with first in Hins.
  cbn [gap_buffer channel set_health with_channel]. destruct (rb_insert _ pk) as [ir b]. cbn [fst snd] in Hins.
  destruct (M !! first) as [q|] eqn:Em.
  - destruct Hins as [-> ->]. case_decide as Esame; [|by apply live_failed].
    apply live_stepped; try done; [|by apply Hc]. right. split; [done|]. intros s _ Hs. right.
    exists first, q. split; [done|]. destruct Esame as (_&_&Hcount&_). cbn in Hcount. lia.
  - destruct (Z.of_nat (base.size M) <? rb_capacity) eqn:Ecap.
    + destruct Hins as [-> Hb]. apply (stored_stepped pk b); try done. by apply Hc.
    + injection Hins as -> ->. apply live_stepped; try done; [by left|by apply Hc].
Qed.

(** After the drain the channel settles. *)
Lemma settle_stepped fresh d1 M1 r g :
  expected d <= expected d1 → live d1 M1 → uncovered (expected d1) M1 → terminal_status d1 = Ok →
  (health (channel d) = Stale → health (channel d1) = Stale) → kept d M fresh d1 →
  (∀ s, init <= s → have (expected d1) M1 s ↔ have (expected d) M s ∨ fresh s) →
  stepped d M fresh (settle d1 r g).
Proof.
  intros He Hl1 Hu1 Ht1 Hstale1 Hk1 Hhave. unfold settle. set (d2 := if _ && _ then _ else d1).
  assert (live d2 M1 ∧ expected d2 = expected d1 ∧ terminal_status d2 = Ok ∧
    (health (channel d1) = Stale → health (channel d2) = Stale) ∧ kept d M fresh d2) as (Hl2&He2&Ht2&Hs2&Hk2).
  { unfold d2. destruct (negb _ && negb _) eqn:Eh; [|done].
    apply andb_true_iff in Eh as [_ Eh%negb_true_iff%bool_decide_eq_false].
    destruct (_ && _); (split; [by eapply live_congr|done]). }
  clearbody d2. unfold resolvePendingEndOfStream. rewrite <- He2 in Hu1, Hhave.
  assert (∀ r, stepped d M fresh (r, d2)) as Hok.
  { intros r'. split; [cbn; lia|]. split; [by eapply live_decoded|]. split; [unfold concluded; cbn; by rewrite Ht2|].
    split; [done|]. split; [by eapply live_halted|]. cbn [snd]. intros _ Hns. split; [by intros ?%Hstale1%Hs2|]. by exists M1. }
  assert (∀ s, isTerminalDecodeFailure s = true → stepped d M fresh (terminalFailure d2 s)) as Hbad.
  { intros s. pose proof (lv_range d M Hl). apply failed_stepped; [lia|done|by eapply live_halted]. }
  destruct (_ || _); [apply Hok|]. case_if; [by apply Hbad|].
  destruct (negb _ || _ || _) eqn:Eg; [apply Hok|].
  apply orb_false_elim in Eg as [Eg Ew]. apply orb_false_elim in Eg as [Eh Ee].
  apply negb_false_iff in Eh, Ee, Ew. apply bool_decide_eq_true in Eh. apply Z.eqb_eq in Ew.
  case_bool_decide as Eph; cbn [negb]; [|by apply Hbad].
  enum. split; [cbn; lia|]. split; [apply (live_decoded _ M1); [by eapply live_congr|done]|]. split; [by split|].
  split; [done|]. split; [|done]. apply (live_halted _ M1). by eapply live_congr.
Qed.

(** The packet moves the sequence to its end. *)
Lemma have_applied s :
  first <= expected d < first + n → init <= s → have (first + n) M s ↔ have (expected d) M s ∨ offered s.
Proof.
  intros Hr Hs. unfold have. pose proof (lv_range d M Hl). split.
  - intros [Hn'|Hm]; [|by left; right]. destruct (Z.lt_ge_cases s (expected d)); [by left; left|right; lia].
  - intros [[Hlt|Hm]|Ho]; [left; lia|by right|left; lia].
Qed.

Lemma apply_stepped :
  first <= expected d < first + n →
  stepped d M offered (applyPacket elapsed d data (length data) first n ticks).
Proof.
  intros Hin. unfold applyPacket. rewrite u64_id by (unfold fits, max_u64 in *; lia).
  assert ((if first <? expected d then expected d else first) = expected d) as ->
    by (destruct (Z.ltb_spec first (expected d)); lia).
  pose proof (processSequencedPacket_spec d M data first n ticks Hl Hcarry Hfirst Hn Hend ltac:(lia)) as Hp.
  destruct (processSequencedPacket _ _ _ _ _ _ _ _) as [res d1]. cbn [fst snd] in Hp.
  destruct Hp as (Hfr&j&Hj&Hpar&Hs). destruct Hfr as [F1 F2 F3 F4 F5 F6 F7].
  pose proof (lv_range d M Hl) as Hr.
  destruct Hs as [(Hok&->&Hh&Hcl&Hph)|(Hbad&Hlt&Herr&Hcl)].
  2: { rewrite Hbad. enum. apply failed_stepped; [lia|apply kept_same; rewrite F7; apply (lv_holds d M Hl)| |done].
       right. exists j. split; [by split; [lia|]|left; intros s; lia]. }
  rewrite Hok. enum. set (d2 := if bool_decide (health (channel d1) = GapDetected) then _ else d1).
  set (d3 := set_expected d2 (first + n)).
  assert (parser d2 = parser d1 ∧ gap_buffer (channel d2) = gap_buffer (channel d1) ∧
    phase (channel d2) = phase (channel d1) ∧ terminal_status d2 = terminal_status d1 ∧
    (health (channel d1) = Stale → health (channel d2) = Stale)) as (G1&G2&G3&G4&G5).
  { unfold d2. case_bool_decide as Eg; [|done]. do 4 (split; [done|]). by rewrite Eg. }
  assert (live d3 M) as Hl3.
  { destruct Hl. split; try done; cbn.
    - by rewrite G2, F7.
    - lia.
    - by rewrite G1.
    - intros Hi. rewrite G3, G1. by apply Hph. }
  pose proof (drainGapBuffer_spec d3 M Hl3) as Hdr. destruct (drainGapBuffer elapsed d3) as [dr d4].
  cbn [fst snd] in Hdr. destruct Hdr as ([D1 D2 D3 D4 D5]&Hout). cbn in D5.
  destruct Hout as (M4&Hb4&Hsub&Hkeep&Hout).
  assert (kept d M offered d4) as Hk4.
  { exists M4. split; [done|]. split; [left; by eapply lookup_weaken|]. intros k pk x Hk Hx Hfresh Hbr.
    apply Hkeep; [done|]. apply (bridged_mono x); [|done]. cbn.
    destruct (Z.le_gt_cases x (first + n)); [done|]. specialize (Hfresh (first + n)). lia. }
  destruct Hout as [(Hs4&Hh4&Hl4&Hu4&Hsame)|(Hs4&j4&k4&pk4&Hj4&Hpk4&Hk5&Hj5)]; rewrite Hs4; enum.
  - apply (settle_stepped _ d4 M4); [lia|done|done| | |done|].
    + rewrite D3. cbn. by rewrite G4, F3.
    + intros E. rewrite Hh4. apply G5. by rewrite Hh.
    + intros s Hs. rewrite (Hsame s Hs). by apply have_applied.
  - apply failed_stepped; [lia|done| |done]. right. exists j4. split; [done|]. right. by exists k4, pk4.
Qed.

End sequenced.

(** A packet agrees with the stream. *)
Definition consistent (packet : option (list Z)) : Prop :=
  ∀ data, packet = Some data →
    bytes data ∧
    (validateSequencedPacket data (length data) (readU16BE data 18) = Ok →
     readU16BE data 18 ≠ 0 → readU16BE data 18 ≠ kEndOfSessionMessageCount →
     carries data (readU64BE data 10) (readU16BE data 18)).

Lemma readU64BE_nonneg data : bytes data → (18 <= length data)%nat → 0 <= readU64BE data 10.
Proof.
  intros Hb Hl. unfold readU64BE. rewrite (readLoop_value data 10 8 _ ltac:(lia) eq_refl).
  - apply valueBE_bound. by apply Forall_take, Forall_drop.
  - rewrite length_take, length_drop. lia.
  - by apply Forall_take, Forall_drop.
Qed.

(** The messages a packet offers: those of a well framed sequenced packet. *)
Definition offers (packet : option (list Z)) (s : Z) : Prop :=
  ∃ data, packet = Some data ∧ kHeaderSize <= Z.of_nat (length data) ∧
    readU16BE data 18 ≠ kEndOfSessionMessageCount ∧
    readU64BE data 10 <= s < readU64BE data 10 + readU16BE data 18.

Lemma stepped_congr d M fresh fresh' res :
  (∀ s, fresh s ↔ fresh' s) → stepped d M fresh res → stepped d M fresh' res.
Proof.
  intros Hf (H1&H2&H3&(M1&Hb&Hfrom&Hkeep)&H5&H4). split; [done|]. split; [done|]. split; [done|]. split.
  { exists M1. split; [done|]. split.
    - intros k pk Hk. destruct (Hfrom k pk Hk) as [|Hs]; [by left|right]. intros s Hr. by apply Hf, Hs.
    - intros k pk x Hk Hx Hs. apply Hkeep; [done|done|]. intros s Hr. by apply Hf, Hs. }
  split.
  { destruct H5 as [?|(j&Hj&[Hs|Hs])]; [by left|right; exists j; split; [done|left]|right; by eauto].
    intros s Hr. by apply Hf, Hs. }
  intros Ht Hh. destruct (H4 Ht Hh) as (Hs&M'&Hl&Hu&Hh'). split; [done|]. exists M'. split; [done|]. split; [done|].
  intros s Hi. rewrite (Hh' s Hi). by rewrite Hf.
Qed.

Lemma processSequenced_stepped d M data ticks :
  let n := readU16BE data 18 in let first := readU64BE data 10 in
  live d M → uncovered (expected d) M → terminal_status d = Ok →
  bytes data → (20 <= length data)%nat → n ≠ kEndOfSessionMessageCount → n ≠ 0 → consistent (Some data) →
  stepped d M (λ s, first <= s < first + n) (processSequenced elapsed d data (length data) first n ticks).
Proof.
  intros n first Hl Hu Ht Hb Hlen Hne Hn0 Hcons.
  assert (0 <= n < 2 ^ 16) as Hn by (apply readU16BE_fits; [done|lia]).
  assert (0 <= first) as Hf by (apply readU64BE_nonneg; [done|lia]).
  unfold processSequenced. case_if; [by apply live_failed|].
  destruct (decide (validateSequencedPacket data (length data) n = Ok)) as [Ev|Ev].
  2: { rewrite (bool_decide_eq_false_2 _ Ev). cbn [negb]. apply live_failed; try done. by apply validate_failure. }
  rewrite (bool_decide_eq_true_2 _ Ev). cbn [negb].
  destruct (Hcons data eq_refl) as [_ Hcarry]. specialize (Hcarry Ev Hn0 Hne).
  assert (Forall sized (stream <$> range (Z.to_nat n) first)) as Hsz.
  { destruct (validate_unframe data (Z.to_nat n) (Z.to_nat kHeaderSize) Ev) as (ms&Hms&Hall).
    unfold carries in Hcarry. unfold n, first in *. rewrite Hms in Hcarry. by injection Hcarry as ->. }
  rewrite u64_id by (unfold fits, max_u64 in *; lia).
  case_if; [by apply live_failed|].
  destruct (Z.leb_spec (first + n) (expected d)).
  { apply live_stepped; try done; [|unfold concluded; by rewrite Ht].
    destruct (decide (health (channel d) = Stale)); [by left|right]. split; [done|].
    intros s Hi Hs. left. lia. }
  destruct (Z.ltb_spec (expected d) first).
  - apply ahead_stepped; done || lia.
  - apply apply_stepped; done || lia.
Qed.

Lemma processPacket_stepped d M packet ticks :
  live d M → uncovered (expected d) M → terminal_status d = Ok → consistent packet →
  stepped d M (offers packet) (processPacket elapsed d packet ticks).
Proof.
  intros Hl Hu Ht Hcons. unfold processPacket. rewrite (bool_decide_eq_true_2 _ Ht). cbn [negb].
  assert (∀ r, stepped d M (λ _, False) (r, d)) as Hsame.
  { intros r. apply live_quiet; try done. unfold concluded. by rewrite Ht. }
  destruct packet as [data|].
  2: { eapply stepped_congr, Hsame. intros s. split; [done|]. by intros (?&?&_). }
  case_if. { eapply stepped_congr, Hsame. intros s. split; [done|]. intros (data'&[= <-]&Hh&_). lia. }
  destruct (Hcons data eq_refl) as [Hb _]. assert (20 <= length data)%nat as Hlen
    by (unfold kHeaderSize in *; lia).
  case_if; [by apply live_failed|]. destruct (first_packet_seen d && _); [by apply live_failed|].
  set (d1 := if first_packet_seen d then d else _).
  assert (live d1 M ∧ expected d1 = expected d ∧ terminal_status d1 = Ok ∧
    health (channel d1) = health (channel d)) as (Hl1&He1&Ht1&Hh1).
  { unfold d1. destruct (first_packet_seen d); [done|]. split; [by eapply live_congr|done]. }
  assert (uncovered (expected d1) M) as Hu1 by (by rewrite He1).
  assert (∀ fresh res, stepped d1 M fresh res → (∀ s, fresh s ↔ offers (Some data) s) →
    stepped d M (offers (Some data)) res) as Hst.
  { intros fresh res Hst Hf. eapply stepped_congr in Hst; [|exact Hf]. unfold stepped in Hst.
    unfold kept in Hst. rewrite He1, Hh1 in Hst. done. }
  clearbody d1.
  destruct (Z.eqb_spec (readU16BE data 18) kEndOfSessionMessageCount) as [|Hne].
  { eapply Hst; [by apply endOfSession_stepped|]. intros s. split; [done|]. intros (data'&[= <-]&_&?&_). done. }
  destruct (Z.eqb_spec (readU16BE data 18) 0) as [|Hn0].
  { eapply Hst; [by apply heartbeat_stepped|]. intros s. split; [done|]. intros (data'&[= <-]&_&_&?). lia. }
  eapply Hst; [by apply processSequenced_stepped|]. intros s. split.
  - intros Hs. exists data. split; [done|]. split; [lia|]. done.
  - by intros (data'&[= <-]&_&_&?).
Qed.

Lemma processPacket_final d packet ticks :
  terminal_status d ≠ Ok → processPacket elapsed d packet ticks = (only (terminal_status d), d).
Proof. intros Ht. unfold processPacket. by rewrite (bool_decide_eq_false_2 _ Ht). Qed.

End stream.

End DecoderInv.
