(* ===== verification/DecoderProps.v ===== *)
(** The properties of the decoder: exactly-once in-order delivery, the frontier of
    a received set of packets, independence of the arrival order, end of stream,
    termination of the drain, and the composition with the parser and the books. *)
From stdpp Require Import base list gmap strings.
From Stdlib Require Import ZArith Lia Ascii.
From S2P Require Import Prelude Bits BookTypes Orders BookOps Directory Manager ManagerInv Probe.
From S2P Require Import Gap Protocol Parser ParserInv ManagerProps ParserProps Decoder DecoderInv.
#[local] Open Scope Z_scope.
#[local] Open Scope astra_scope.

Module DecoderProps.
Import Protocol MoldUdpDecoder DecoderInv.

(** ** Runs *)

Section runs.
Context {B : Type} `{RecoveryBuffer B} {P : Type} `{MessageSink P}.
Context (elapsed : Z → Z) (stream : Z → list Z) (init : Z) (p0 : P) (Hinit : 0 <= init <= max_u64).
Implicit Types d : MoldUdpDecoder.t B P.
Implicit Types ps : list (option (list Z) * Z).
Abbreviation expected d := (next_expected_seq (channel d)).
Abbreviation decoded := (decoded stream init p0).
Abbreviation live := (live stream init p0).
Abbreviation agree := (Forall (λ pk : option (list Z) * Z, consistent stream pk.1)).

(** The packets of a session, with the ticks they arrive at. *)
Definition run d ps : MoldUdpDecoder.t B P :=
  fold_left (λ d pk, snd (processPacket elapsed d pk.1 pk.2)) ps d.

Lemma run_app d ps qs : run d (ps ++ qs) = run (run d ps) qs.
Proof. apply fold_left_app. Qed.

(** The message was in some packet. *)
Definition received ps (s : Z) : Prop := Exists (λ pk, offers pk.1 s) ps.

Lemma received_snoc ps pk s : received (ps ++ [pk]) s ↔ received ps s ∨ offers pk.1 s.
Proof. unfold received. by rewrite Exists_app, Exists_cons, Exists_nil, (right_id False or). Qed.

(** How far the parser got: to the expected sequence without an error, or to the first
    message it rejected, inside a packet that contained the expected message. *)
Definition reached ps d : Prop :=
  (parser d = upto stream init p0 (expected d) ∧ ∀ i, init < i <= expected d → ms_error (upto stream init p0 i) = ""%string) ∨
  ∃ j, ¬ healthy d ∧ broken stream init p0 d j ∧ Exists (λ pk, ∀ s, expected d <= s < j → offers pk.1 s) ps.

(** What holds after the packets [ps]. *)
Record session_ok ps d : Prop := {
  so_decoded : decoded d;
  so_reached : reached ps d;
  so_origin : ∃ M, rb_holds (gap_buffer (channel d)) M ∧ ∀ k pk, M !! k = Some pk →
    Exists (λ p, ∀ s, k <= s < k + msg_count pk → offers p.1 s) ps;
  so_end : terminal_status d = EndOfStream →
    phase (channel d) = EndOfMessages ∧ buffer_empty d = true ∧
    heartbeat_next_seq_high_watermark (channel d) = 0 ∧ health (channel d) = Good;
  so_have : terminal_status d = Ok → health (channel d) ≠ Stale →
    ∃ M, live d M ∧ uncovered (expected d) M ∧
      ∀ s, init <= s → have init (expected d) M s ↔ received ps s }.

Lemma make_live id : live (make p0 id init) ∅.
Proof.
  split; cbn [channel make gap_buffer next_expected_seq].
  - apply rb_holds_empty.
  - done.
  - lia.
  - unfold upto. by rewrite Z.sub_diag.
  - intros j. lia.
  - lia.
Qed.

(** The buffer determines its packets. *)
Lemma holds_unique b M M' : rb_holds b M → rb_holds b M' → M = M'.
Proof. intros HM HM'. apply map_eq. intros k. by rewrite <- (rb_find_spec b M), <- (rb_find_spec b M'). Qed.

Lemma make_session id : session_ok [] (make p0 id init).
Proof.
  assert (uncovered init ∅) as Hu by done.
  split; [by apply (live_decoded _ _ _ _ ∅), Hu; apply make_live| | |done|].
  { left. pose proof (make_live id) as Hl. split; [apply (lv_applied _ _ _ _ _ Hl)|apply (lv_clean _ _ _ _ _ Hl)]. }
  { exists ∅. by split; [apply rb_holds_empty|]. }
  intros _ _. exists ∅. split; [apply make_live|]. split; [done|]. intros s Hs. unfold have, received.
  rewrite Exists_nil. split; [|done]. cbn. intros [?|(?&?&?&_)]; [lia|done].
Qed.

(** A packet the decoder still looks at. *)
Lemma session_step ps d pk :
  session_ok ps d → consistent stream pk.1 →
  expected d <= expected (snd (processPacket elapsed d pk.1 pk.2)) ∧
  session_ok (ps ++ [pk]) (snd (processPacket elapsed d pk.1 pk.2)).
Proof.
  intros [Hd Hre Hor He Hh] Hc. destruct (decide (terminal_status d = Ok)) as [Ht|Ht].
  2: { rewrite processPacket_final by done. cbn [snd]. split; [lia|]. split; try done.
       - destruct Hre as [?|(j&?&?&?)]; [by left|right]. exists j. split; [done|]. split; [done|]. apply Exists_app. by left.
       - destruct Hor as (M&HM&Hor). exists M. split; [done|]. intros k q Hk. apply Exists_app. left. by eapply Hor. }
  pose proof Hd as (j&Hr&Hp&Hlive). destruct (Hlive (or_introl Ht)) as (M0&Hl0&Hu0).
  destruct (processPacket_stepped elapsed stream init p0 (proj1 Hinit) d M0 pk.1 pk.2 Hl0 Hu0 Ht Hc)
    as (Hle&Hd'&Hcon&(M1&Hb1&Hfrom&_)&Hhalt&Hstep). split; [done|]. set (d' := snd (processPacket elapsed d pk.1 pk.2)) in *.
  assert (∀ k q, M0 !! k = Some q → Exists (λ p, ∀ s, k <= s < k + msg_count q → offers p.1 s) ps) as Hor0
    by (destruct Hor as (M&HM&Hor); by rewrite (holds_unique _ _ _ (lv_holds _ _ _ d M0 Hl0) HM)).
  split.
  - done.
  - assert (healthy d' → reached (ps ++ [pk]) d') as Hfine.
    { intros Hg. destruct Hd' as (_&_&_&Hl'). destruct (Hl' Hg) as (M'&Hm&_). left.
      split; [apply (lv_applied _ _ _ d' M' Hm)|apply (lv_clean _ _ _ d' M' Hm)]. }
    destruct (decide (terminal_status d' = Ok)) as [?|Hn1]; [by apply Hfine; left|].
    destruct (decide (terminal_status d' = EndOfStream)) as [?|Hn2]; [by apply Hfine; right|].
    destruct Hhalt as [?|(j'&Hj&[Hs|(k&q&Hq&Hk&Hk')])]; [by left|right; exists j'; split; [by intros []|]; split; [done|]..].
    + apply Exists_app. right. by constructor.
    + apply Exists_app. left. apply (Exists_impl _ _ _ (Hor0 k q Hq)). intros p Hs s Hr'. apply Hs. lia.
  - exists M1. split; [done|]. intros k q Hk. apply Exists_app.
    destruct (Hfrom k q Hk) as [Hk0|Hs]; [left; by apply Hor0|right; by constructor].
  - unfold concluded in Hcon. intros E. rewrite E in Hcon. by destruct Hcon as [_ ?].
  - intros Ht' Hs'. destruct (Hstep Ht' Hs') as [Hs _]. destruct (Hh Ht Hs) as (M&Hl&Hu&Hhave).
    destruct (processPacket_stepped elapsed stream init p0 (proj1 Hinit) d M pk.1 pk.2 Hl Hu Ht Hc)
      as (_&_&_&_&_&Hstep'). destruct (Hstep' Ht' Hs') as (_&M'&Hl'&Hu'&Hhave').
    exists M'. split; [done|]. split; [done|]. intros s Hi.
    rewrite received_snoc, <- (Hhave s Hi). by apply Hhave'.
Qed.

Lemma session_run ps qs d :
  session_ok ps d → agree qs → expected d <= expected (run d qs) ∧ session_ok (ps ++ qs) (run d qs).
Proof.
  intros Hs Hq. revert ps d Hs. induction Hq as [|pk qs Hpk _ IH]; intros ps d Hs.
  { rewrite (right_id [] (++)). by split. }
  destruct (session_step ps d pk Hs Hpk) as [Hle Hs']. destruct (IH _ _ Hs') as [Hle' Hs''].
  rewrite <- (assoc (++)) in Hs''. unfold run in *. cbn [fold_left]. split; [lia|done].
Qed.

Lemma session_all id ps : agree ps → session_ok ps (run (make p0 id init) ps).
Proof. intros Ha. apply (session_run [] ps _ (make_session id) Ha). Qed.

Lemma run_final d ps : terminal_status d ≠ Ok → run d ps = d.
Proof.
  intros Ht. induction ps as [|pk ps IH]; [done|]. unfold run in *. cbn [fold_left].
  by rewrite processPacket_final.
Qed.

Lemma healthy_applied ps d : session_ok ps d → healthy d → parser d = upto stream init p0 (expected d).
Proof. intros [(j&_&_&Hl) _ _ _ _] Hh. destruct (Hl Hh) as (M&Hm&_). apply (lv_applied _ _ _ d M Hm). Qed.

(** The expected sequence is the first message that no packet contained. *)
Lemma session_frontier ps d :
  session_ok ps d → terminal_status d = Ok → health (channel d) ≠ Stale →
  (∀ s, init <= s < expected d → received ps s) ∧ ¬ received ps (expected d).
Proof.
  intros Hs Ht Hh. destruct (so_have ps d Hs Ht Hh) as (M&Hl&Hu&Hhave).
  pose proof (lv_range _ _ _ d M Hl) as Hr. split.
  - intros s Hi. apply Hhave; [lia|]. by left.
  - intros Hrec. apply Hhave in Hrec; [|lia]. destruct Hrec as [?|(k&pk&Hk&Hin)]; [lia|]. by apply (Hu k pk).
Qed.

End runs.

(** ** Packets that the drain cannot reach *)

Section orphans.
Context {B : Type} `{RecoveryBuffer B} {P : Type} `{MessageSink P}.
Context (elapsed : Z → Z).
Implicit Types d : MoldUdpDecoder.t B P.
Abbreviation expected d := (next_expected_seq (channel d)).

(** A channel in order stores nothing. *)
Definition good_empty d : Prop := health (channel d) = Good → buffer_empty d = true.

Lemma settle_good d r g : good_empty (snd (settle d r g)).
Proof.
  unfold settle. set (d2 := if _ && _ then _ else d). assert (good_empty d2) as Hd2.
  { unfold d2. destruct (negb _ && negb _) eqn:E.
    - set (d1 := if negb _ && _ then _ else d). unfold good_empty. cbn [health channel set_health with_channel].
      destruct (buffer_empty d1) eqn:Eb; [intros _; exact Eb|done].
    - intros Hg. rewrite Hg in E. done. }
  clearbody d2. unfold resolvePendingEndOfStream. repeat (case_if; try done).
Qed.

Lemma processPacket_good d packet ticks : good_empty d → good_empty (snd (processPacket elapsed d packet ticks)).
Proof.
  intros Hd. unfold processPacket. case_if; [done|]. destruct packet as [dat|]; [|done].
  case_if; [done|]. case_if; [done|]. case_if; [done|].
  set (d1 := if first_packet_seen d then d else _). assert (good_empty d1) as Hd1 by (unfold d1; by case_if).
  clearbody d1. case_if; [|case_if].
  - unfold processEndOfSession. repeat (case_if; try done).
  - unfold processHeartbeat. case_if; [done|]. case_if; [by case_if|]. case_if; [|done].
    destruct (buffer_empty _ && _ && _) eqn:Eb; [|done]. intros _. by apply andb_true_iff in Eb as [[Eb _]%andb_true_iff _].
  - unfold processSequenced. do 4 (case_if; [done|]). case_if.
    + unfold bufferAhead. case_if; [done|]. case_if; [done|]. destruct (rb_insert _ _) as [[] b]; done.
    + unfold applyPacket. destruct (processSequencedPacket _ _ _ _ _ _ _ _) as [r d2]. case_if; [done|].
      destruct (drainGapBuffer _ _) as [r' d3]. case_if; [done|]. apply settle_good.
Qed.

Lemma make_good p id init : good_empty (make p id init).
Proof. intros _. unfold buffer_empty. cbn [make channel gap_buffer]. by rewrite (rb_size_spec _ ∅ rb_holds_empty). Qed.

Lemma run_good d ps : good_empty d → good_empty (run elapsed d ps).
Proof. revert d. induction ps as [|pk ps IH]; intros d Hd; [done|]. by apply IH, processPacket_good. Qed.

(** A stored packet that starts further back than the drain looks. *)
Definition orphaned d (k : Z) (pk : SequencedPacket) : Prop :=
  rb_find (gap_buffer (channel d)) k = Some pk ∧ k + kMaxMessagesPerStoredPacket < expected d.

Context (stream : Z → list Z) (init : Z) (p0 : P) (Hinit : 0 <= init <= max_u64).
Abbreviation session_ok := (session_ok stream init p0).

(** Such a packet stays. *)
Lemma orphaned_run ps qs d k pk :
  session_ok ps d → Forall (λ pk : option (list Z) * Z, consistent stream pk.1) qs →
  orphaned d k pk → orphaned (run elapsed d qs) k pk.
Proof.
  intros Hs Hq. revert ps d Hs. induction Hq as [|q qs Hq _ IH]; intros ps d Hs Ho; [done|].
  destruct (session_step elapsed stream init p0 Hinit ps d q Hs Hq) as [Hle Hs'].
  apply (IH _ _ Hs'). destruct Ho as [Hk Hfar]. split; [|lia].
  destruct (decide (terminal_status d = Ok)) as [Ht|Ht]; [|by rewrite processPacket_final].
  pose proof (so_decoded _ _ _ _ _ Hs) as (_&_&_&Hlive). destruct (Hlive (or_introl Ht)) as (M&Hl&Hu).
  destruct (processPacket_stepped elapsed stream init p0 (proj1 Hinit) d M q.1 q.2 Hl Hu Ht Hq)
    as (_&_&_&(M'&Hb&_&Hkeep)&_).
  rewrite (rb_find_spec _ M' k Hb). rewrite (rb_find_spec _ M k (lv_holds _ _ _ d M Hl)) in Hk.
  apply (Hkeep k pk (expected d) Hk); [done|lia|]. intros x. lia.
Qed.

(** A packet that closes the gap makes an orphan of a stored packet when stored packets
    that start later take the sequence out of its reach. *)
Lemma orphan_left ps d packet k pk x :
  session_ok ps d → consistent stream packet.1 →
  rb_find (gap_buffer (channel d)) k = Some pk → expected d <= x → (∀ s, expected d <= s < x → offers packet.1 s) →
  (∀ s, x <= s <= k + kMaxMessagesPerStoredPacket →
     ∃ q p, rb_find (gap_buffer (channel d)) q = Some p ∧ k < q <= s ∧ s < q + msg_count p) →
  let d1 := snd (processPacket elapsed d packet.1 packet.2) in
  terminal_status d1 = Ok → health (channel d1) ≠ Stale →
  orphaned d1 k pk ∧ msg_count pk <= kMaxMessagesPerStoredPacket.
Proof.
  intros Hs Hc Hk Hx Hoff Hbr d1 Ht1 Hh1.
  assert (terminal_status d = Ok) as Ht.
  { destruct (decide (terminal_status d = Ok)); [done|]. unfold d1 in Ht1. by rewrite processPacket_final in Ht1. }
  pose proof (so_decoded _ _ _ _ _ Hs) as (_&_&_&Hlive). destruct (Hlive (or_introl Ht)) as (M&Hl&Hu).
  assert (bridged x M k) as Hbm.
  { intros s Hr. destruct (Hbr s Hr) as (q&p&Hq&?). exists q, p.
    by rewrite (rb_find_spec _ M q (lv_holds _ _ _ d M Hl)) in Hq. }
  rewrite (rb_find_spec _ M k (lv_holds _ _ _ d M Hl)) in Hk.
  destruct (processPacket_stepped elapsed stream init p0 (proj1 Hinit) d M packet.1 packet.2 Hl Hu Ht Hc)
    as (Hle&_&_&(M1&Hb1&_&Hkeep)&_&Hstep). fold d1 in Hle, Hb1, Hstep.
  destruct (Hstep Ht1 Hh1) as (_&M'&Hl'&Hu'&Hhave). pose proof (lv_range _ _ _ d M Hl) as Hr.
  assert (¬ have init (expected d1) M' (expected d1)) as Hnot
    by (intros [?|(q&p&Hq&?)]; [lia|by apply (Hu' q p)]).
  split; [split|].
  - rewrite (rb_find_spec _ M1 k Hb1). by apply (Hkeep k pk x).
  - apply Z.nle_gt. intros Hnear. apply Hnot, Hhave; [lia|].
    destruct (Z.lt_ge_cases (expected d1) x); [right; apply Hoff; lia|].
    destruct (Hbm (expected d1) ltac:(lia)) as (q&p&Hq&?&?). left. right. exists q, p. split; [done|lia].
  - apply (st_count _ _ (lv_stored _ _ _ d M Hl k pk Hk)).
Qed.

(** The end of the session is refused while a packet is stored. *)
Lemma end_refused d finish ticks :
  terminal_status d = Ok → health (channel d) ≠ Good → length finish = 20%nat →
  readU16BE finish 18 = kEndOfSessionMessageCount → readU64BE finish 10 = expected d →
  sessionMatches (channel d) finish = true →
  processPacket elapsed d (Some finish) ticks =
    terminalFailure (if first_packet_seen d then d else set_session (set_first_seen d) finish) InvalidSequence.
Proof.
  intros Ht Hh Hlen Hn Hf Hm. unfold processPacket. rewrite (bool_decide_eq_true_2 _ Ht), Hlen, Hn, Hf, Hm.
  change (Z.of_nat 20 <? kHeaderSize) with false. change (Z.of_nat 20 =? kHeaderSize) with true.
  rewrite Z.eqb_refl. cbn [negb orb andb]. rewrite andb_false_r, andb_false_r.
  set (d1 := if first_packet_seen d then d else _).
  assert (expected d1 = expected d ∧ health (channel d1) = health (channel d)) as [He1 Hh1] by (unfold d1; by case_if).
  unfold processEndOfSession. rewrite He1, Hh1, Z.ltb_irrefl, (bool_decide_eq_false_2 _ Hh). cbn [negb orb]. by case_if.
Qed.

End orphans.

(** ** The drain *)

Section drain.
Context {B : Type} `{RecoveryBuffer B} {P : Type} `{MessageSink P}.
Context (elapsed : Z → Z).
Implicit Types d : MoldUdpDecoder.t B P.

Lemma messageLoop_buffer d dat sz st n off sq k :
  gap_buffer (channel (snd (messageLoop d dat sz st n off sq k))) = gap_buffer (channel d).
Proof.
  revert d off sq k. induction n as [|n IH]; intros d off sq k; cbn [messageLoop]; [done|].
  case_if; [done|]. case_if; [done|]. case_if; [|by rewrite IH]. case_if; [done|]. by rewrite IH.
Qed.

Lemma processSequencedPacket_buffer d dat sz fs mc st ticks :
  gap_buffer (channel (snd (processSequencedPacket elapsed d dat sz fs mc st ticks))) = gap_buffer (channel d).
Proof.
  unfold processSequencedPacket. case_if; [done|].
  pose proof (messageLoop_buffer d dat sz st (Z.to_nat mc) (Z.to_nat kHeaderSize) fs 0) as Hb.
  destruct (messageLoop _ _ _ _ _ _ _ _) as [[s k] d']. case_if; [done|]. by case_if.
Qed.

Lemma candidateLoop_stored b M e n dist pk :
  rb_holds b M → candidateLoop b e n dist = Some pk → M !! seq pk = Some pk.
Proof.
  intros Hb. revert dist. induction n as [|n IH]; intros dist; cbn [candidateLoop]; [done|].
  rewrite (rb_find_spec b M) by done. destruct (M !! u64 (e - dist)) as [q|] eqn:E; [|apply IH].
  intros [= ->]. by rewrite (rb_holds_key b M _ pk Hb E).
Qed.

Lemma drain_total fuel d M agg :
  rb_holds (gap_buffer (channel d)) M → (base.size M < fuel)%nat →
  is_Some (drainLoop elapsed fuel d agg) ∧
  drainLoop elapsed fuel d agg = drainLoop elapsed (S (base.size M)) d agg.
Proof.
  revert d M agg. induction fuel as [|fuel IH]; intros d M agg Hb Hf; [lia|]. cbn [drainLoop].
  unfold candidate. destruct (candidateLoop _ _ _ _) as [pk|] eqn:Ec; [|by split; [eexists|]].
  pose proof (candidateLoop_stored _ M _ _ _ pk Hb Ec) as Hpk.
  assert (base.size M = S (base.size (delete (seq pk) M))) as Hsize.
  { rewrite <- (insert_delete_id M (seq pk) pk Hpk) at 1.
    by rewrite map_size_insert_None by apply lookup_delete_eq. }
  rewrite Hsize. case_if; [apply IH; [by apply rb_erase_spec|lia]|].
  set (st := next_expected_seq _).
  pose proof (processSequencedPacket_buffer d (data pk) (Z.to_nat (len pk)) (seq pk) (msg_count pk) st
    (receive_start_ticks pk)) as Hbuf.
  destruct (processSequencedPacket _ _ _ _ _ _ _ _) as [res d1]. cbn [snd] in Hbuf.
  case_if; [by split; [eexists|]|]. apply IH; [cbn; rewrite Hbuf; by apply rb_erase_spec|lia].
Qed.

End drain.

(** ** Properties *)

Section properties.
Context {B : Type} `{RecoveryBuffer B} {P : Type} `{MessageSink P}.
Context (elapsed : Z → Z).
Abbreviation expected d := (next_expected_seq (channel d)).
Abbreviation agree stream := (Forall (λ pk : option (list Z) * Z, consistent stream pk.1)).

(** C2. Whatever packets arrive, in any order, repeated, overlapping, malformed or with
    control packets between them, as long as the sequenced ones carry the messages their
    header numbers: the parser has been given the messages from the initial sequence up to
    some [j], each once and in order, and rejected none before the last of them; the
    expected sequence never moves backwards; [j] is the expected sequence unless the decoder
    failed on a message that the parser rejected, and then that message is the last one
    delivered, and it and everything delivered since the expected sequence were in one of
    the packets that arrived. *)
Theorem decoder_exactly_once (stream : Z → list Z) (init id : Z) (p0 : P) ps qs :
  0 <= init <= max_u64 → agree stream (ps ++ qs) →
  let d1 := run (B := B) elapsed (make p0 id init) ps in
  let d := run (B := B) elapsed (make p0 id init) (ps ++ qs) in
  init <= expected d1 <= expected d ∧
  (healthy d → parser d = upto stream init p0 (expected d)) ∧
  ∃ j, expected d <= j ∧ parser d = upto stream init p0 j ∧
    (∀ i, init < i < j → ms_error (upto stream init p0 i) = ""%string) ∧
    (j = expected d ∧ (init < j → ms_error (upto stream init p0 j) = ""%string) ∨
     ¬ healthy d ∧ ms_error (parser d) ≠ ""%string ∧
     Exists (λ pk, ∀ s, expected d <= s < j → offers pk.1 s) (ps ++ qs)).
Proof.
  intros Hi [Ha Hb]%Forall_app d1 d. pose proof (session_all elapsed stream init p0 Hi id ps Ha) as H1.
  destruct (session_run elapsed stream init p0 Hi ps qs _ H1 Hb) as [Hle H2].
  unfold d in *. rewrite run_app. fold d1 in Hle, H1, H2 |- *. pose proof (so_decoded _ _ _ _ _ H1) as (j1&Hr1&_).
  pose proof (healthy_applied _ _ _ _ _ H2) as Hok. split; [lia|]. split; [done|].
  destruct (so_reached _ _ _ _ _ H2) as [[Hp Hcl]|(j&Hbad&(Hj&Hp&Herr&Hcl)&Hin)].
  - exists (expected (run elapsed d1 qs)). split; [lia|]. split; [done|]. split; [intros i Hr; apply Hcl; lia|].
    left. split; [done|]. intros Hr. apply Hcl. lia.
  - exists j. split; [lia|]. split; [done|]. split; [done|]. right. by rewrite Hp.
Qed.

(** C3. As long as the decoder is neither finished nor stale, the expected
    sequence is exactly the first message that no received packet contained: every
    message before it was received, it itself was not, and the parser has been given
    everything before it.  In particular nothing that can be applied is left in the
    gap buffer. *)
Theorem decoder_frontier (stream : Z → list Z) (init id : Z) (p0 : P) ps :
  0 <= init <= max_u64 → agree stream ps →
  let d := run (B := B) elapsed (make p0 id init) ps in
  terminal_status d = Ok → health (channel d) ≠ Stale →
  (∀ s, init <= s < expected d → received ps s) ∧ ¬ received ps (expected d) ∧
  parser d = upto stream init p0 (expected d).
Proof.
  intros Hi Ha d Ht Hh. pose proof (session_all elapsed stream init p0 Hi id ps Ha) as Hs.
  destruct (session_frontier stream init p0 ps d Hs Ht Hh). split; [done|]. split; [done|].
  eapply healthy_applied; [done|by left].
Qed.

(** C13. Line arbitration: two sessions over the same messages,
    whatever the order, the packet boundaries, the losses and the duplicates on each
    line, that received the same set of messages and are neither finished nor stale
    expect the same message next and have the same parser state. *)
Theorem decoder_order_independent (stream : Z → list Z) (init id1 id2 : Z) (p0 : P) ps1 ps2 :
  0 <= init <= max_u64 → agree stream ps1 → agree stream ps2 →
  (∀ s, received ps1 s ↔ received ps2 s) →
  let d1 := run (B := B) elapsed (make p0 id1 init) ps1 in
  let d2 := run (B := B) elapsed (make p0 id2 init) ps2 in
  terminal_status d1 = Ok → health (channel d1) ≠ Stale →
  terminal_status d2 = Ok → health (channel d2) ≠ Stale →
  expected d1 = expected d2 ∧ parser d1 = parser d2.
Proof.
  intros Hi Ha1 Ha2 Hsame d1 d2 Ht1 Hh1 Ht2 Hh2.
  pose proof (session_all elapsed stream init p0 Hi id1 ps1 Ha1) as Hs1.
  pose proof (session_all elapsed stream init p0 Hi id2 ps2 Ha2) as Hs2.
  destruct (session_frontier stream init p0 ps1 d1 Hs1 Ht1 Hh1) as [Hb1 Hn1].
  destruct (session_frontier stream init p0 ps2 d2 Hs2 Ht2 Hh2) as [Hb2 Hn2].
  pose proof (so_decoded _ _ _ _ _ Hs1) as (j1&Hr1&_). pose proof (so_decoded _ _ _ _ _ Hs2) as (j2&Hr2&_).
  fold d1 in Hr1. fold d2 in Hr2.
  assert (expected d1 = expected d2) as He.
  { destruct (Z.lt_trichotomy (expected d1) (expected d2)) as [Hlt|[E|Hlt]]; [|done|].
    - destruct Hn1. apply Hsame, Hb2. lia.
    - destruct Hn2. apply Hsame, Hb1. lia. }
  split; [done|]. rewrite (healthy_applied stream init p0 ps1 d1 Hs1 (or_introl Ht1)).
  rewrite (healthy_applied stream init p0 ps2 d2 Hs2 (or_introl Ht2)). by rewrite He.
Qed.

(** C31. A terminal status is final: no later packet changes the decoder
    or is answered with anything else.  And end of stream is only accepted when
    the parser reached end of messages, nothing is stored, no gap is known and
    everything up to the expected sequence was delivered. *)
Theorem decoder_end_of_stream (stream : Z → list Z) (init id : Z) (p0 : P) ps :
  0 <= init <= max_u64 → agree stream ps →
  let d := run (B := B) elapsed (make p0 id init) ps in
  (terminal_status d ≠ Ok → ∀ qs packet ticks,
     run elapsed d qs = d ∧ processPacket elapsed d packet ticks = (only (terminal_status d), d)) ∧
  (endOfStreamAccepted d = true →
     phase (channel d) = EndOfMessages ∧ buffer_empty d = true ∧
     heartbeat_next_seq_high_watermark (channel d) = 0 ∧ health (channel d) = Good ∧
     parser d = upto stream init p0 (expected d)).
Proof.
  intros Hi Ha d. pose proof (session_all elapsed stream init p0 Hi id ps Ha) as Hs. split.
  - intros Ht qs packet ticks. split; [by apply run_final|by apply processPacket_final].
  - unfold endOfStreamAccepted. intros Ht%bool_decide_eq_true.
    destruct (so_end _ _ _ _ _ Hs Ht) as (?&?&?&?). do 4 (split; [done|]).
    eapply healthy_applied; [done|by right].
Qed.

(** C37. The unbounded drain loop terminates from every decoder whose
    gap buffer is consistent: one turn more than the number of stored packets is
    enough, and more turns change nothing. *)
Theorem decoder_drain_terminates (d : MoldUdpDecoder.t B P) M agg fuel :
  rb_holds (gap_buffer (channel d)) M → (base.size M < fuel)%nat →
  is_Some (drainLoop elapsed fuel d agg) ∧
  drainLoop elapsed fuel d agg = drainLoop elapsed (S (base.size M)) d agg.
Proof. apply drain_total. Qed.

(** C38. The drain looks for stored packets only 144 sequences behind the expected one,
    nearest start first, so a redundant packet can block the end of the session for good.
    Let a packet be stored at [k], and let a packet arrive that offers every message from
    the expected sequence up to some [x], while from [x] on up to 144 after [k] every
    message is in a stored packet that starts after [k].  If the channel neither fails nor
    goes stale on it, then whatever packets of the stream follow: the packet at [k] is never
    removed although all its messages were delivered, the channel never becomes Good again,
    the end of the stream is never accepted, and an end-of-session packet at the expected
    sequence is refused as a sequence error. *)
Theorem decoder_orphan_blocks_end (stream : Z → list Z) (init id : Z) (p0 : P) ps packet k pk x qs :
  0 <= init <= max_u64 → agree stream (ps ++ packet :: qs) →
  let d := run (B := B) elapsed (make p0 id init) ps in
  let d1 := run (B := B) elapsed (make p0 id init) (ps ++ [packet]) in
  let d2 := run (B := B) elapsed d1 qs in
  rb_find (gap_buffer (channel d)) k = Some pk →
  expected d <= x → (∀ s, expected d <= s < x → offers packet.1 s) →
  (∀ s, x <= s <= k + kMaxMessagesPerStoredPacket →
     ∃ q p, rb_find (gap_buffer (channel d)) q = Some p ∧ k < q <= s ∧ s < q + msg_count p) →
  terminal_status d1 = Ok → health (channel d1) ≠ Stale →
  rb_find (gap_buffer (channel d2)) k = Some pk ∧ k + msg_count pk <= expected d2 ∧
  health (channel d2) ≠ Good ∧ endOfStreamAccepted d2 = false ∧
  (terminal_status d2 = Ok → ∀ finish ticks, length finish = 20%nat →
     readU16BE finish 18 = kEndOfSessionMessageCount → readU64BE finish 10 = expected d2 →
     sessionMatches (channel d2) finish = true →
     status (fst (processPacket elapsed d2 (Some finish) ticks)) = InvalidSequence).
Proof.
  intros Hi [Ha [Hc Hq]%Forall_cons]%Forall_app d d1 d2 Hk Hx Hoff Hbr Ht1 Hh1.
  pose proof (session_all elapsed stream init p0 Hi id ps Ha) as Hs. fold d in Hs.
  destruct (session_step elapsed stream init p0 Hi ps d packet Hs Hc) as [_ Hs1].
  assert (d1 = snd (processPacket elapsed d packet.1 packet.2)) as E1 by (unfold d1; by rewrite run_app).
  rewrite <- E1 in Hs1. rewrite E1 in Ht1, Hh1.
  destruct (orphan_left elapsed stream init p0 Hi ps d packet k pk x Hs Hc Hk Hx Hoff Hbr Ht1 Hh1) as [Ho Hm].
  rewrite <- E1 in Ho. pose proof (orphaned_run elapsed stream init p0 Hi _ qs d1 k pk Hs1 Hq Ho) as [Hf He].
  destruct (session_run elapsed stream init p0 Hi _ qs d1 Hs1 Hq) as [_ Hs2]. fold d2 in Hf, He, Hs2.
  assert (buffer_empty d2 = false) as Hne.
  { destruct (so_origin _ _ _ _ _ Hs2) as (M&HM&_). unfold buffer_empty. rewrite (rb_size_spec _ M HM).
    rewrite (rb_find_spec _ M k HM) in Hf. apply Z.eqb_neq. intros E%(Nat2Z.inj _ 0)%map_size_empty_inv.
    subst M. by rewrite lookup_empty in Hf. }
  assert (health (channel d2) ≠ Good) as Hh2.
  { intros Hg. assert (good_empty d2) as Hge by (apply run_good, run_good, make_good).
    specialize (Hge Hg). congruence. }
  split; [done|]. split; [lia|]. split; [done|]. split.
  - apply bool_decide_eq_false. intros E. destruct (so_end _ _ _ _ _ Hs2 E) as (_&E2&_). congruence.
  - intros Ht2 finish ticks H1 H2 H3 H4. by rewrite (end_refused elapsed d2 finish ticks Ht2 Hh2 H1 H2 H3 H4).
Qed.

End properties.

(** ** Books behind the decoder *)

Section books.
Context {B : Type} `{RecoveryBuffer B}.
Context (elapsed : Z → Z) (stream : Z → list Z) (init : Z).
Context (Hstream : ∀ s, init <= s → ParserInv.well_formed (stream s)).

(** The live orders after the messages from [init] up to [j], read off the stream. *)
Definition orders_upto (j : Z) : gmap Z BookOps.Order :=
  fold_left (λ A s, ParserInv.message_effect (stream s) A) (range (Z.to_nat (j - init)) init) ∅.

Lemma upto_par (p0 : ItchParser.t) n :
  ParserInv.par_ok p0 ∅ →
  (∀ j, init < j <= init + Z.of_nat n → ms_error (upto stream init p0 j) = ""%string) →
  ∃ M, ParserInv.par_ok (upto stream init p0 (init + Z.of_nat n)) M ∧
       BookOps.abs <$> M = orders_upto (init + Z.of_nat n).
Proof.
  intros Hp. induction n as [|n IH]; intros Hclean.
  { exists ∅. rewrite Z.add_0_r. unfold upto, orders_upto. rewrite Z.sub_diag. by rewrite fmap_empty. }
  destruct IH as (M&HM&HA); [intros j Hj; apply Hclean; lia|].
  set (p := upto stream init p0 (init + Z.of_nat n)) in *. set (msg := stream (init + Z.of_nat n)).
  assert (upto stream init p0 (init + Z.of_nat (S n)) = snd (ItchParser.handleMessage p msg)) as Eup.
  { rewrite <- (upto_extend stream init p0 (init + Z.of_nat n)) by lia.
    replace (Z.to_nat (init + Z.of_nat (S n) - (init + Z.of_nat n))) with 1%nat by lia.
    cbn. by rewrite ParserInv.prevalidated_same by (apply Hstream; lia). }
  destruct (ParserInv.handle_parsed p M msg HM) as (_&M'&HM'&Heff&_); [apply Hstream; lia|].
  exists M'. rewrite Eup. split; [done|]. rewrite Heff, HA.
  - unfold orders_upto. replace (Z.to_nat (init + Z.of_nat (S n) - init))
      with (Z.to_nat (init + Z.of_nat n - init) + 1)%nat by lia.
    rewrite range_app, fold_left_app. cbn. do 2 f_equal. lia.
  - rewrite <- Eup. apply (Hclean (init + Z.of_nat (S n))). lia.
Qed.

(** The books of a channel that has not failed, for a parser that starts consistent
    and empty. *)
Lemma books_follow (p0 : ItchParser.t) id ps :
  ParserInv.par_ok p0 ∅ → 0 <= init <= max_u64 → Forall (λ pk : option (list Z) * Z, consistent stream pk.1) ps →
  let d := run (B := B) elapsed (make p0 id init) ps in
  healthy d →
  ∃ M, ParserInv.par_ok (parser d) M ∧ BookOps.abs <$> M = orders_upto (next_expected_seq (channel d)) ∧
       (init < next_expected_seq (channel d) → phase (channel d) = ItchParser.channel_phase (parser d)).
Proof.
  intros Hok Hi Ha d Hh.
  pose proof (session_all elapsed stream init p0 Hi id ps Ha) as Hs.
  destruct (so_decoded _ _ _ _ _ Hs) as (j0&Hr&_&Hlive). destruct (Hlive Hh) as (L&Hl&_). fold d in Hr, Hl.
  set (e := next_expected_seq (channel d)) in *.
  destruct (upto_par p0 (Z.to_nat (e - init)) Hok) as (M&HM&HA).
  { intros j Hj. apply (lv_clean _ _ _ d L Hl). fold e. lia. }
  replace (init + Z.of_nat (Z.to_nat (e - init))) with e in HM, HA by lia.
  exists M. rewrite (lv_applied _ _ _ d L Hl). split; [done|]. split; [done|].
  intros Hlt. rewrite (lv_phase _ _ _ d L Hl Hlt). by rewrite (lv_applied _ _ _ d L Hl).
Qed.

(** C1. End to end: from construction, whatever packets of the
    session arrive and in whatever order, a channel that has not failed holds exactly
    the live orders that the numbered messages up to the expected sequence
    determine, its directory, books and phase are consistent, and the phase it
    reports is the parser's. *)
Theorem channel_books_follow_stream direct buckets pages m id ps :
  fits 64 direct → fits 32 buckets → fits 32 pages → BookManager.make direct buckets pages = Some m →
  0 <= init <= max_u64 → Forall (λ pk : option (list Z) * Z, consistent stream pk.1) ps →
  let d := run (B := B) elapsed (make (ItchParser.make StockDirectory.empty m id) id init) ps in
  healthy d →
  ∃ M, ParserInv.par_ok (parser d) M ∧ BookOps.abs <$> M = orders_upto (next_expected_seq (channel d)) ∧
       (init < next_expected_seq (channel d) → phase (channel d) = ItchParser.channel_phase (parser d)).
Proof.
  intros Hd Hb Hp Hm Hi Ha. apply books_follow; [|done..]. by apply (ParserInv.make_par_ok direct buckets pages).
Qed.

End books.

(** ** A session with a gap, an overlap and a duplicate *)

Definition frame (m : list Z) : list Z := putBE 2 (Z.of_nat (length m)) ++ m.
Definition packetOf (stream : Z → list Z) (first : Z) (n : nat) : option (list Z) * Z :=
  (Some (replicate 10 65 ++ putBE 8 first ++ putBE 2 (Z.of_nat n) ++
         mjoin ((λ s, frame (stream s)) <$> range n first)), 0).
Definition endBytes (next : Z) : list Z := replicate 10 65 ++ putBE 8 next ++ [255; 255].
Definition endOf (next : Z) : option (list Z) * Z := (Some (endBytes next), 0).

(** The short day of [ParserProps], then market-open events. *)
Definition day (s : Z) : list Z :=
  if s =? 1 then ParserProps.systemEvent 1 "O" else if s =? 2 then ParserProps.directoryMessage else
  if s =? 3 then ParserProps.systemEvent 3 "S" else
  if s =? 4 then ParserProps.encode ParserProps.sampleAdd 0 0 ParserProps.sampleStock else
  ParserProps.systemEvent 5 "Q".

Lemma day_well_formed s : 1 <= s → ParserInv.well_formed (day s).
Proof.
  intros _. unfold day. repeat case_if.
  all: split; [unfold bytes; apply (bool_decide_eq_true_1 _); vm_compute; reflexivity|done].
Qed.

Definition smallBuffer : RecoveryBuffer GapBuffer.t := GapBuffer.recoveryBuffer 4 ltac:(lia).
#[local] Existing Instance smallBuffer.

Definition lineA : list (option (list Z) * Z) :=
  [packetOf day 3 2; packetOf day 1 1; packetOf day 3 2; packetOf day 2 2].
Definition lineB : list (option (list Z) * Z) := [packetOf day 1 3; packetOf day 2 3].
Definition p1 : ItchParser.t := ItchParser.make StockDirectory.empty ManagerProps.fresh 0.
Abbreviation decoderAt ps := (run (B := GapBuffer.t) (λ _, 0) (make p1 0 1) ps).

(** Executable version of [consistent] on a packet. *)
Lemma consistent_by_computation (stream : Z → list Z) (data : list Z) :
  bool_decide (bytes data) = true →
  bool_decide (unframe (Z.to_nat (readU16BE data 18)) (drop (Z.to_nat kHeaderSize) data) =
    Some (stream <$> range (Z.to_nat (readU16BE data 18)) (readU64BE data 10))) = true →
  consistent stream (Some data).
Proof.
  intros Hb%bool_decide_eq_true Hc%bool_decide_eq_true d [= <-]. split; [exact Hb|]. intros _ _ _. exact Hc.
Qed.

Lemma lines_agree : Forall (λ pk : option (list Z) * Z, consistent day pk.1) (lineA ++ lineB).
Proof.
  unfold lineA, lineB. cbn [app].
  repeat (apply Forall_cons; split; [apply consistent_by_computation; vm_compute; reflexivity|]).
  by apply Forall_nil.
Qed.

Lemma first_fits : 0 <= 1 <= max_u64.
Proof. done. Qed.

Lemma lineA_after :
  terminal_status (decoderAt lineA) = Ok ∧ health (channel (decoderAt lineA)) = Good ∧
  next_expected_seq (channel (decoderAt lineA)) = 5.
Proof. vm_compute. done. Qed.

Lemma lineB_after :
  terminal_status (decoderAt lineB) = Ok ∧ health (channel (decoderAt lineB)) = Good.
Proof. vm_compute. done. Qed.

Lemma decoder_exactly_once_witness : parser (decoderAt lineA) = upto day 1 p1 5.
Proof.
  pose proof lines_agree as [Ha _]%Forall_app. rewrite <- (app_nil_r lineA) in Ha.
  pose proof (decoder_exactly_once (λ _, 0) day 1 0 p1 lineA [] first_fits Ha) as (_&H&_).
  rewrite (app_nil_r lineA) in H. destruct lineA_after as (Ht&_&He).
  rewrite He in H. apply H. left. exact Ht.
Defined.

Lemma decoder_frontier_witness : received lineA 4 ∧ ¬ received lineA 5.
Proof.
  pose proof lines_agree as [Ha _]%Forall_app.
  destruct lineA_after as (Ht&Hh&He).
  assert (health (channel (decoderAt lineA)) ≠ Stale) as Hs by (rewrite Hh; discriminate).
  pose proof (decoder_frontier (λ _, 0) day 1 0 p1 lineA first_fits Ha) as H.
  destruct (H Ht Hs) as (Hb&Hn&_).
  rewrite He in Hb, Hn. split; [apply Hb; lia|exact Hn].
Defined.

(** The two lines carry the same messages, in packets cut differently. *)
Lemma lines_received s : received lineA s ↔ received lineB s.
Proof.
  assert (∀ a n, (n = 1 ∨ n = 2 ∨ n = 3)%nat → (a = 1 ∨ a = 2 ∨ a = 3) →
    offers (packetOf day a n).1 s ↔ a <= s < a + Z.of_nat n) as Ho.
  { intros a n Hn Ha. unfold offers. split.
    - intros (data&[= <-]&_&_&Hs). destruct Hn as [->|[->| ->]], Ha as [->|[->| ->]]; vm_compute in Hs; vm_compute; exact Hs.
    - intros Hs. eexists. split; [reflexivity|].
      destruct Hn as [->|[->| ->]], Ha as [->|[->| ->]]; (split; [vm_compute; discriminate|]);
        (split; [vm_compute; discriminate|]); vm_compute; vm_compute in Hs; exact Hs. }
  unfold received, lineA, lineB. rewrite !Exists_cons, !Exists_nil. rewrite !Ho by lia. lia.
Qed.

Lemma decoder_order_independent_witness : parser (decoderAt lineA) = parser (decoderAt lineB).
Proof.
  pose proof lines_agree as [Ha Hb]%Forall_app.
  destruct lineA_after as (Ht&Hh&_), lineB_after as [Ht' Hh'].
  pose proof (decoder_order_independent (λ _, 0) day 1 0 0 p1 lineA lineB first_fits Ha Hb lines_received) as H.
  apply H; [exact Ht|rewrite Hh; discriminate|exact Ht'|rewrite Hh'; discriminate].
Defined.

Lemma ended_after : terminal_status (decoderAt (lineA ++ [endOf 5])) = IncompleteSession.
Proof. vm_compute. reflexivity. Qed.

(** Ending the session at the right sequence before end of messages is refused for good. *)
Lemma decoder_end_of_stream_witness :
  run (λ _, 0) (decoderAt (lineA ++ [endOf 5])) lineB = decoderAt (lineA ++ [endOf 5]).
Proof.
  assert (Forall (λ pk : option (list Z) * Z, consistent day pk.1) (lineA ++ [endOf 5])) as Ha.
  { pose proof lines_agree as [Ha _]%Forall_app. apply Forall_app. split; [exact Ha|].
    apply Forall_cons. split; [|by apply Forall_nil]. intros data [= <-].
    split; [apply (bool_decide_eq_true_1 _); vm_compute; reflexivity|]. intros _ _ Hne. by destruct Hne. }
  pose proof (decoder_end_of_stream (λ _, 0) day 1 0 p1 (lineA ++ [endOf 5]) first_fits Ha) as [H _].
  refine (proj1 (H _ lineB None 0)). rewrite ended_after. discriminate.
Defined.

Lemma decoder_drain_terminates_witness :
  is_Some (drainLoop (λ _, 0) 2 (decoderAt [packetOf day 3 2]) (only Ok)).
Proof.
  set (pk := mkPacket 3 0 2 (u16 (Z.of_nat (length (default [] (packetOf day 3 2).1)))) (default [] (packetOf day 3 2).1)).
  refine (proj1 (decoder_drain_terminates (λ _, 0) (decoderAt [packetOf day 3 2]) {[3 := pk]} (only Ok) 2 _ _)).
  - pose proof (rb_insert_spec rb_empty ∅ pk rb_holds_empty ltac:(vm_compute; discriminate)) as H.
    cbn zeta in H. rewrite lookup_empty in H. apply H.
  - rewrite map_size_singleton. lia.
Defined.

Lemma channel_books_follow_stream_witness :
  ∃ M, ParserInv.par_ok (parser (decoderAt lineA)) M ∧
       BookOps.abs <$> M = {[100 := BookOps.mkO 7 Buy 1000 5]}.
Proof.
  pose proof lines_agree as [Ha _]%Forall_app.
  pose proof (channel_books_follow_stream (λ _, 0) day 1 day_well_formed 16 4 4 ManagerProps.fresh 0 lineA
    ltac:(done) ltac:(done) ltac:(done) eq_refl first_fits Ha) as H. fold p1 in H.
  destruct (H (or_introl (proj1 lineA_after))) as (M&HM&HA&_).
  exists M. split; [exact HM|].
  rewrite (proj2 (proj2 lineA_after)) in HA. rewrite HA. vm_compute. reflexivity.
Defined.

(** ** A stored packet that is never drained *)

(** A whole day of 153 messages: opening, market hours with circuit-breaker
    status messages, and the closing events. *)
Definition wholeDay (s : Z) : list Z :=
  if s <=? 3 then day s else
  if s =? 4 then ParserProps.systemEvent 5 "Q" else
  if s =? 151 then ParserProps.systemEvent 7 "M" else
  if s =? 152 then ParserProps.systemEvent 8 "E" else
  if s =? 153 then ParserProps.systemEvent 9 "C" else ParserProps.header "W" 0 0 6 ++ [49].

(** Message 5 is missing; 6 is stored alone, then 7 to 50 and 51 to 153. *)
Definition beforeBridge : list (option (list Z) * Z) :=
  [packetOf wholeDay 1 4; packetOf wholeDay 6 1; packetOf wholeDay 7 44; packetOf wholeDay 51 103].
Definition bridge : option (list Z) * Z := packetOf wholeDay 5 3.

Lemma bridge_agrees : Forall (λ pk : option (list Z) * Z, consistent wholeDay pk.1) (beforeBridge ++ [bridge]).
Proof.
  unfold beforeBridge, bridge. cbn [app].
  repeat (apply Forall_cons; split; [apply consistent_by_computation; vm_compute; reflexivity|]).
  by apply Forall_nil.
Qed.

Lemma bridge_offers s : 5 <= s < 8 → offers bridge.1 s.
Proof.
  intros Hs. eexists. split; [reflexivity|]. split; [vm_compute; discriminate|]. split; [vm_compute; discriminate|].
  vm_compute. vm_compute in Hs. exact Hs.
Qed.

Lemma beforeBridge_stores (k n : Z) :
  (k, n) ∈ [(6, 1); (7, 44); (51, 103)] →
  ∃ pk, rb_find (gap_buffer (channel (decoderAt beforeBridge))) k = Some pk ∧ msg_count pk = n.
Proof.
  intros Hk. assert (msg_count <$> rb_find (gap_buffer (channel (decoderAt beforeBridge))) k = Some n) as E.
  { set_unfold in Hk. destruct Hk as [[= -> ->]|[[= -> ->]|[[= -> ->]|[]]]]; vm_compute; reflexivity. }
  apply fmap_Some in E as (pk&Hpk&Hn). exists pk. split; [exact Hpk|symmetry; exact Hn].
Qed.

Lemma bridge_covered s : 8 <= s <= 6 + kMaxMessagesPerStoredPacket →
  ∃ q p, rb_find (gap_buffer (channel (decoderAt beforeBridge))) q = Some p ∧ 6 < q <= s ∧ s < q + msg_count p.
Proof.
  intros Hs. change (6 + kMaxMessagesPerStoredPacket) with 150 in Hs. destruct (Z.lt_ge_cases s 51).
  - destruct (beforeBridge_stores 7 44 (list_elem_of_further _ _ _ (list_elem_of_here _ _))) as (q&Hq&Hn).
    exists 7, q. split; [exact Hq|lia].
  - destruct (beforeBridge_stores 51 103 (list_elem_of_further _ _ _ (list_elem_of_further _ _ _ (list_elem_of_here _ _))))
      as (q&Hq&Hn). exists 51, q. split; [exact Hq|lia].
Qed.

Lemma bridge_after :
  let d := decoderAt (beforeBridge ++ [bridge]) in
  next_expected_seq (channel (decoderAt beforeBridge)) = 5 ∧
  terminal_status d = Ok ∧ health (channel d) = Recovering ∧ next_expected_seq (channel d) = 154 ∧
  phase (channel d) = EndOfMessages ∧ sessionMatches (channel d) (endBytes 154) = true.
Proof. vm_compute. split_and!; reflexivity. Qed.

(** The day was delivered to its last message, and its end is refused; without the
    redundant packet it is accepted. *)
Lemma decoder_orphan_blocks_end_witness :
  let finish d := status (fst (processPacket (λ _, 0) d (Some (endBytes 154)) 0)) in
  finish (decoderAt (beforeBridge ++ [bridge])) = InvalidSequence ∧
  finish (decoderAt [packetOf wholeDay 1 4; packetOf wholeDay 7 44; packetOf wholeDay 51 103; bridge]) = EndOfStream.
Proof.
  cbn zeta. split; [|vm_compute; reflexivity]. destruct bridge_after as (E0&Et&Eh&Ee&_&Em).
  destruct (beforeBridge_stores 6 1 (list_elem_of_here _ _)) as (pk&Hk&_).
  pose proof (decoder_orphan_blocks_end (λ _, 0) wholeDay 1 0 p1 beforeBridge bridge 6 pk 8 []
    first_fits bridge_agrees Hk) as H. cbn zeta in H. rewrite E0 in H.
  specialize (H ltac:(lia) bridge_offers bridge_covered). revert H Et Eh Ee Em.
  generalize (decoderAt (beforeBridge ++ [bridge])). intros d1 H Et Eh Ee Em. cbn [run fold_left] in H.
  destruct H as (_&_&_&_&H); [exact Et|rewrite Eh; discriminate|].
  refine (H Et (endBytes 154) 0 eq_refl _ _ Em); [vm_compute; reflexivity|]. rewrite Ee. vm_compute. reflexivity.
Defined.

End DecoderProps.
