(* ===== verification/Replay.v ===== *)
(** The replay source of [ItchMoldUdpSource.hpp]/[ItchMoldUdpSource.cpp]: it cuts a
    Nasdaq BinaryFILE into MoldUDP64 packets.

    The open file is the list of the bytes that are still to be read ([seekg(-2)]
    gives two bytes back); [PacketView] is the list of the bytes of the packet
    buffer that it spans.  [readRecord] is the body of the packing loop for one
    record, [recordLoop] the loop, whose fuel [ReplayInv] shows to suffice. *)
From stdpp Require Import base list strings.
From Stdlib Require Import ZArith Lia Ascii.
From S2P Require Import Prelude Gap Protocol.
#[local] Open Scope Z_scope.
#[local] Open Scope astra_scope.

Inductive CompletionPolicy := RequireTerminator | AllowEofAfterEndOfMessages.
#[global] Instance CompletionPolicy_eq_dec : EqDecision CompletionPolicy.
Proof. solve_decision. Defined.

Inductive CompletionKind := NotCompleted | Terminator | LegacyEndOfMessagesEof.

Module ItchMoldUdpSource.
Import Protocol.

Definition kDefaultMsgsPerPacket : Z := 20.
Definition kMoldHeaderSize : Z := 20.
Definition kStandardIpv4UdpPayloadBytes : Z := 1472.
Definition kMaxPacketBytes : Z :=
  if kStandardIpv4UdpPayloadBytes <? kMaxPacketSize then kStandardIpv4UdpPayloadBytes else kMaxPacketSize.

Definition writeU16BE (v : Z) : list Z := [(v ≫ 8) .& 255; v .& 255].
Definition writeU64BE (v : Z) : list Z := putBE 8 v.

Record t := mk {
  input_open : bool;
  input : list Z;
  session : list Z;
  msgs_per_packet : Z;
  completion_policy : CompletionPolicy;
  next_seq : Z;
  last_error : string;
  eof : bool;
  completed : bool;
  saw_message : bool;
  last_message_was_end_of_messages : bool;
  completion_kind : CompletionKind }.

(** [session_.resize(10, ' ')]. *)
Definition padSession (session : list Z) : list Z := take 10 (session ++ replicate 10 (ch " ")).

(** The constructor; [file] is [None] when the file cannot be opened. *)
Definition make (file : option (list Z)) (path : string) (session : list Z) (msgs_per_packet : Z)
    (policy : CompletionPolicy) : t :=
  let error :=
    match file with
    | None => ("failed to open ITCH file: " +:+ path)%string
    | Some _ =>
      if Nat.ltb 10 (length session) then "MoldUDP64 session must not exceed 10 bytes"%string else
      if msgs_per_packet =? 0 then "msgs_per_packet must be greater than zero"%string else ""%string
    end in
  mk (bool_decide (is_Some file)) (default [] file) (padSession session) msgs_per_packet policy 1 error
     (negb (bool_decide (error = ""%string))) false false false NotCompleted.

(** Assignments to members. *)
Definition with_input (s : t) (rest : list Z) : t :=
  mk (input_open s) rest (session s) (msgs_per_packet s) (completion_policy s) (next_seq s) (last_error s)
     (eof s) (completed s) (saw_message s) (last_message_was_end_of_messages s) (completion_kind s).
(** [eof_ = true; last_error_ = error]. *)
Definition stop (s : t) (error : string) : t :=
  mk (input_open s) (input s) (session s) (msgs_per_packet s) (completion_policy s) (next_seq s) error
     true (completed s) (saw_message s) (last_message_was_end_of_messages s) (completion_kind s).
(** [eof_ = true; completed_ = true; completion_kind_ = kind]. *)
Definition complete (s : t) (kind : CompletionKind) : t :=
  mk (input_open s) (input s) (session s) (msgs_per_packet s) (completion_policy s) (next_seq s)
     (last_error s) true true (saw_message s) (last_message_was_end_of_messages s) kind.
(** The bookkeeping of an accepted record. *)
Definition accepted (s : t) (is_end_of_messages : bool) : t :=
  mk (input_open s) (input s) (session s) (msgs_per_packet s) (completion_policy s) (u64 (next_seq s + 1))
     (last_error s) (eof s) (completed s) true is_end_of_messages (completion_kind s).

Inductive Outcome :=
  | Stopped (s : t)
  | Flush
  | Accepted (msg : list Z) (boundary : bool) (s : t).

Definition isSystemEvent (msg : list Z) : bool := byteAt msg 0 =? ch "S".
Definition hasEventCode (msg : list Z) (code : ascii) : bool := isSystemEvent msg && (byteAt msg 11 =? ch code).

(** The checks on a record whose payload was read. *)
Definition checkRecord (s : t) (msg : list Z) : Outcome :=
  let expected_length := expectedItchMessageLength (byteAt msg 0) in
  if expected_length =? 0 then Stopped (stop s "unsupported ITCH message type") else
  if negb (Z.of_nat (length msg) =? expected_length) then Stopped (stop s "invalid ITCH message length") else
  if isSystemEvent msg && (negb (byteAt msg 1 =? 0) || negb (byteAt msg 2 =? 0))
  then Stopped (stop s "System Event stock locate is not zero") else
  if negb (saw_message s) && negb (hasEventCode msg "O")
  then Stopped (stop s "first ITCH record is not System Event O") else
  Accepted msg (hasEventCode msg "S" || hasEventCode msg "Q") (accepted s (hasEventCode msg "C")).

(** One turn of the packing loop, with [count] records of [offset] bytes packed. *)
Definition readRecord (s : t) (count offset : Z) : Outcome :=
  match input s with
  | [] =>
    Stopped (if bool_decide (completion_policy s = AllowEofAfterEndOfMessages) &&
                last_message_was_end_of_messages s
             then complete s LegacyEndOfMessagesEof
             else stop s "physical EOF before zero-length BinaryFILE terminator")
  | [_] => Stopped (stop (with_input s []) "truncated ITCH message-length prefix")
  | b0 :: b1 :: rest =>
    let msg_len := u16 (b0 ≪ 8) .| b1 in
    let s1 := with_input s rest in
    if msg_len =? 0 then
      Stopped (match rest with
               | _ :: _ => stop s1 "data follows zero-length BinaryFILE terminator"
               | [] => if negb (last_message_was_end_of_messages s)
                       then stop s1 "BinaryFILE terminator before ITCH System Event C"
                       else complete s1 Terminator
               end)
    else
    if last_message_was_end_of_messages s then Stopped (stop s1 "ITCH record follows System Event C") else
    if kMaxPacketBytes <? offset + 2 + msg_len then
      if count =? 0 then Stopped (stop s1 "ITCH message is too large for a MoldUDP packet") else Flush
    else
    if Z.of_nat (length rest) <? msg_len then Stopped (stop (with_input s []) "truncated ITCH message payload")
    else checkRecord (with_input s (drop (Z.to_nat msg_len) rest)) (take (Z.to_nat msg_len) rest)
  end.

(** The packing loop: the source after it and the records packed, as they lie in
    the buffer after the header.  [None] when the fuel runs out. *)
Fixpoint recordLoop (fuel : nat) (s : t) (count : Z) (body : list Z) : option (t * Z * list Z) :=
  match fuel with
  | O => None
  | S fuel =>
    if negb ((count <? msgs_per_packet s) || last_message_was_end_of_messages s) then Some (s, count, body) else
    match readRecord s count (kMoldHeaderSize + Z.of_nat (length body)) with
    | Stopped s => Some (s, count, body)
    | Flush => Some (s, count, body)
    | Accepted msg boundary s =>
      let count := u16 (count + 1) in
      let body := body ++ writeU16BE (Z.of_nat (length msg)) ++ msg in
      if boundary then Some (s, count, body) else recordLoop fuel s count body
    end
  end.

(** [next]: the packet, or [None] for [false]. *)
Definition next (s : t) : option (list Z) * t :=
  if eof s then (None, s) else
  let first_seq := next_seq s in
  let '(s, count, body) :=
    default (s, 0, []) (recordLoop (S (S (Z.to_nat (msgs_per_packet s)))) s 0 []) in
  if count =? 0 then (None, s) else
  (Some (session s ++ writeU64BE first_seq ++ writeU16BE count ++ body), s).

Definition isOpen (s : t) : bool := input_open s && bool_decide (last_error s = ""%string).

Definition setMessagesPerPacket (s : t) (n : Z) : bool * t :=
  if n =? 0 then (false, s) else
  (true, mk (input_open s) (input s) (session s) n (completion_policy s) (next_seq s) (last_error s) (eof s)
            (completed s) (saw_message s) (last_message_was_end_of_messages s) (completion_kind s)).

End ItchMoldUdpSource.
