(* ===== verification/ReplayInv.v ===== *)
(** What the replay source emits: a relation between the messages of an archive and
    the packets that carry them ([packed]), and that [next] stays in it. *)
From stdpp Require Import base list strings.
From Stdlib Require Import ZArith Lia Ascii.
From S2P Require Import Prelude Gap Protocol Parser ParserInv Decoder DecoderInv Replay.
#[local] Open Scope Z_scope.
#[local] Open Scope astra_scope.

Module ReplayInv.
Import Protocol DecoderInv ItchMoldUdpSource.

(** ** Archives *)

Definition frame (m : list Z) : list Z := writeU16BE (Z.of_nat (length m)) ++ m.
Definition frames (ms : list (list Z)) : list Z := mjoin (frame <$> ms).

(** A record the source accepts. *)
Definition record_ok (m : list Z) : Prop :=
  ParserInv.well_formed m ∧ (isSystemEvent m = true → byteAt m 1 = 0 ∧ byteAt m 2 = 0).

(** End of messages is the last record and no other. *)
Fixpoint ends_once (ms : list (list Z)) : Prop :=
  match ms with
  | [] => False
  | [m] => hasEventCode m "C" = true
  | m :: ms => hasEventCode m "C" = false ∧ ends_once ms
  end.

Definition starts (ms : list (list Z)) : Prop :=
  match ms with [] => False | m :: _ => hasEventCode m "O" = true end.

(** How a complete file ends. *)
Definition tail_ok (policy : CompletionPolicy) (tail : list Z) : Prop :=
  tail = [0; 0] ∨ (policy = AllowEofAfterEndOfMessages ∧ tail = []).

Definition archive (policy : CompletionPolicy) (ms : list (list Z)) (file : list Z) : Prop :=
  Forall record_ok ms ∧ starts ms ∧ ends_once ms ∧ ∃ tail, tail_ok policy tail ∧ file = frames ms ++ tail.

(** The packet that carries [cur] from sequence [first] on. *)
Definition packet (session : list Z) (first : Z) (cur : list (list Z)) : list Z :=
  session ++ writeU64BE first ++ writeU16BE (Z.of_nat (length cur)) ++ frames cur.

(** The packets [ps] carry the messages [ms] from sequence [first] on, in order. *)
Inductive packed (session : list Z) : Z → list (list Z) → list (list Z) → Prop :=
  | packed_nil first : packed session first [] []
  | packed_cons first cur ps ms :
    cur ≠ [] → kMoldHeaderSize + Z.of_nat (length (frames cur)) <= kMaxPacketBytes →
    packed session (first + Z.of_nat (length cur)) ps ms →
    packed session first (packet session first cur :: ps) (cur ++ ms).

(** ** Records *)

Lemma frames_app ms ms' : frames (ms ++ ms') = frames ms ++ frames ms'.
Proof. unfold frames. by rewrite fmap_app, join_app. Qed.
Lemma frames_cons m ms : frames (m :: ms) = frame m ++ frames ms.
Proof. done. Qed.
Lemma frames_one m : frames [m] = frame m.
Proof. unfold frames. cbn. by rewrite (right_id [] (++)). Qed.

Lemma length_frame m : length (frame m) = (2 + length m)%nat.
Proof. done. Qed.

Lemma record_sized m : record_ok m → sized m.
Proof. intros [(_&Hne&Hl) _]. by split. Qed.

Lemma record_length m : record_ok m → (12 <= length m <= 50)%nat.
Proof.
  intros Hm. apply record_sized in Hm. split; [by apply sized_length|]. destruct Hm as [_ Hl].
  assert (∀ ty, expectedItchMessageLength ty <= 50) as H.
  { intros ty. unfold expectedItchMessageLength. destruct (filter _ itchLengths) as [|e l] eqn:E; [done|].
    assert (e ∈ filter (λ e, e.1 = ty) itchLengths) as He by (rewrite E; left).
    apply list_elem_of_filter in He as [_ He]. cbn.
    assert (Forall (λ e : Z * Z, e.2 <= 50) itchLengths) as Hall by (apply (bool_decide_eq_true_1 _); reflexivity).
    by eapply Forall_forall in Hall. }
  specialize (H (byteAt m 0)). lia.
Qed.

(** The length prefix reads back. *)
Lemma prefix_value n :
  0 <= n < 65536 → u16 (((n ≫ 8) .& 255) ≪ 8) .| (n .& 255) = n.
Proof.
  intros Hn. rewrite !land255, Z.shiftr_div_pow2 by lia. change (2 ^ 8) with 256.
  assert (0 <= n / 256 < 256) as Hd by (split; [apply Z.div_pos; lia|apply Z.div_lt_upper_bound; lia]).
  rewrite (Z.mod_small (n / 256)) by lia. rewrite u16_id.
  - rewrite shift8 by (apply Z.mod_pos_bound; lia). rewrite (Z.div_mod n 256) at 3 by lia. lia.
  - unfold fits. rewrite Z.shiftl_mul_pow2 by lia. lia.
Qed.

(** Reading the frame of an acceptable record. *)
Lemma read_frame s count offset m rest :
  input s = frame m ++ rest → record_ok m → last_message_was_end_of_messages s = false →
  (saw_message s = false → hasEventCode m "O" = true) →
  (count = 0 → offset = kMoldHeaderSize) →
  readRecord s count offset =
  if kMaxPacketBytes <? offset + Z.of_nat (length (frame m)) then Flush
  else Accepted m (hasEventCode m "S" || hasEventCode m "Q")
         (accepted (with_input s rest) (hasEventCode m "C")).
Proof.
  intros Hin Hm Hend Hsaw H0. pose proof (record_length m Hm) as Hlen. unfold readRecord. rewrite Hin.
  unfold frame, writeU16BE. cbn [app]. rewrite prefix_value by lia.
  rewrite (proj2 (Z.eqb_neq _ 0)), Hend by lia. cbn [length].
  replace (offset + 2 + Z.of_nat (length m)) with (offset + Z.of_nat (S (S (length m)))) by lia.
  destruct (Z.ltb_spec kMaxPacketBytes (offset + Z.of_nat (S (S (length m))))) as [Hbig|_].
  { destruct (Z.eqb_spec count 0) as [E|]; [|done]. rewrite (H0 E) in Hbig.
    change kMaxPacketBytes with 1472 in Hbig. unfold kMoldHeaderSize in Hbig. lia. }
  rewrite (proj2 (Z.ltb_ge _ _)) by (rewrite length_app; lia).
  rewrite Nat2Z.id, take_app_length, drop_app_length. unfold checkRecord.
  destruct Hm as [(_&Hne&Hl) Hsys]. rewrite <- Hl.
  rewrite (proj2 (Z.eqb_neq _ 0)), Z.eqb_refl by lia. cbn [negb].
  assert (isSystemEvent m && (negb (byteAt m 1 =? 0) || negb (byteAt m 2 =? 0)) = false) as ->.
  { destruct (isSystemEvent m); [|done]. destruct (Hsys eq_refl) as [-> ->]. done. }
  assert (negb (saw_message s) && negb (hasEventCode m "O") = false) as Hs.
  { destruct (saw_message s); [done|]. by rewrite Hsaw. }
  cbn [saw_message with_input]. by rewrite Hs.
Qed.

(** ** The packing loop *)

(** The source is about to read the records [ms]; none remain after end of messages. *)
Record pending (s : t) (ms : list (list Z)) : Prop := {
  pn_running : eof s = false ∧ last_error s = ""%string ∧ completed s = false;
  pn_records : Forall record_ok ms;
  pn_end : if last_message_was_end_of_messages s then ms = [] else ends_once ms;
  pn_start : saw_message s = false → starts ms;
  pn_tail : ∃ tail, tail_ok (completion_policy s) tail ∧ input s = frames ms ++ tail;
  pn_seq : 0 <= next_seq s ∧ next_seq s + Z.of_nat (length ms) <= max_u64 }.

Definition finished (s : t) : Prop := eof s = true ∧ last_error s = ""%string ∧ completed s = true.

Definition same_config (s s' : t) : Prop :=
  session s' = session s ∧ completion_policy s' = completion_policy s.

(** After end of messages the loop reads the end of the file. *)
Lemma read_tail s count offset tail :
  input s = tail → tail_ok (completion_policy s) tail → last_message_was_end_of_messages s = true →
  eof s = false ∧ last_error s = ""%string ∧ completed s = false →
  ∃ s', readRecord s count offset = Stopped s' ∧ finished s' ∧ same_config s s' ∧ next_seq s' = next_seq s.
Proof.
  intros Hin [->|[Hp ->]] Hend (He&Hl&Hc); unfold readRecord; rewrite Hin, Hend.
  - by eexists.
  - rewrite (bool_decide_eq_true_2 _ Hp). by eexists.
Qed.

(** Accepting the next record. *)
Lemma pending_accepted s m ms tail :
  pending s (m :: ms) → input s = frames (m :: ms) ++ tail → tail_ok (completion_policy s) tail →
  last_message_was_end_of_messages s = false →
  let s' := accepted (with_input s (frames ms ++ tail)) (hasEventCode m "C") in
  pending s' ms ∧ next_seq s' = next_seq s + 1.
Proof.
  intros [Hrun Hrec Hend Hst _ Hseq] Hin Htail Hl. rewrite Hl in Hend. cbn [length] in Hseq.
  apply Forall_cons in Hrec as [_ Hrec]. cbn.
  assert (u64 (next_seq s + 1) = next_seq s + 1) as Eseq by (apply u64_id; unfold fits, max_u64 in *; lia).
  split; [|done]. split; cbn; try done.
  - cbn in Hend. destruct ms as [|m' ms]; [by rewrite Hend|]. by destruct Hend as [-> ?].
  - by exists tail.
  - rewrite Eseq. lia.
Qed.

Lemma frames_snoc cur m : frames (cur ++ [m]) = frames cur ++ writeU16BE (Z.of_nat (length m)) ++ m.
Proof. by rewrite frames_app, frames_one. Qed.

(** [res] packs, after [cur], some of the records [ms]. *)
Definition packs (s : t) (cur ms : list (list Z)) (res : option (t * Z * list Z)) : Prop :=
  ∃ s' more rest,
    ms = more ++ rest ∧ cur ++ more ≠ [] ∧
    res = Some (s', Z.of_nat (length (cur ++ more)), frames (cur ++ more)) ∧
    kMoldHeaderSize + Z.of_nat (length (frames (cur ++ more))) <= kMaxPacketBytes ∧
    Z.of_nat (length (cur ++ more)) <= msgs_per_packet s ∧
    next_seq s' = next_seq s + Z.of_nat (length more) ∧ same_config s s' ∧
    ((pending s' rest ∧ last_message_was_end_of_messages s' = false) ∨ (finished s' ∧ rest = [])).

(** Leaving the loop without a further record. *)
Lemma packs_leave s s' cur ms :
  cur ≠ [] → kMoldHeaderSize + Z.of_nat (length (frames cur)) <= kMaxPacketBytes →
  Z.of_nat (length cur) <= msgs_per_packet s → next_seq s' = next_seq s → same_config s s' →
  ((pending s' ms ∧ last_message_was_end_of_messages s' = false) ∨ (finished s' ∧ ms = [])) →
  packs s cur ms (Some (s', Z.of_nat (length cur), frames cur)).
Proof.
  intros. exists s', [], ms. rewrite (right_id [] (++)). cbn. rewrite Z.add_0_r. done.
Qed.

(** Continuing after the record [m]. *)
Lemma packs_continue s s1 cur m ms res :
  msgs_per_packet s1 = msgs_per_packet s → same_config s s1 → next_seq s1 = next_seq s + 1 →
  packs s1 (cur ++ [m]) ms res → packs s cur (m :: ms) res.
Proof.
  intros Hm [Hc1 Hc2] Hs (s'&more&rest&->&Hne&Hres&Hsz&Hcnt&Hsq&[Hc3 Hc4]&Hout).
  exists s', (m :: more), rest. rewrite <- (assoc_L (++)) in *. cbn [app] in *.
  split; [done|]. split; [done|]. split; [done|]. split; [done|]. split; [lia|].
  split; [rewrite Hsq, Hs; cbn [length]; lia|]. split; [split; congruence|done].
Qed.

(** A boundary event is not the end of messages. *)
Lemma boundary_not_end m : hasEventCode m "S" || hasEventCode m "Q" = true → hasEventCode m "C" = false.
Proof.
  unfold hasEventCode. destruct (isSystemEvent m); [|done]. cbn [andb]. intros H%orb_true_iff.
  destruct H as [->%Z.eqb_eq| ->%Z.eqb_eq]; done.
Qed.

Lemma recordLoop_spec fuel s ms cur :
  pending s ms → 0 <= Z.of_nat (length cur) <= msgs_per_packet s → msgs_per_packet s < 65536 →
  kMoldHeaderSize + Z.of_nat (length (frames cur)) <= kMaxPacketBytes →
  (cur = [] → last_message_was_end_of_messages s = false ∧ 0 < msgs_per_packet s) →
  (Z.to_nat (msgs_per_packet s - Z.of_nat (length cur)) < fuel)%nat →
  packs s cur ms (recordLoop fuel s (Z.of_nat (length cur)) (frames cur)).
Proof.
  revert s ms cur. induction fuel as [|fuel IH]; intros s ms cur Hp Hcnt Hmsgs Hsize Hcur Hfuel; [lia|].
  cbn [recordLoop]. destruct (negb _) eqn:Ego.
  { apply negb_true_iff, orb_false_elim in Ego as [Hge%Z.ltb_ge Hl]. apply packs_leave; try done; [|lia|by left].
    intros ->. cbn in Hge. destruct (Hcur eq_refl). lia. }
  apply negb_false_iff in Ego. pose proof (pn_tail s ms Hp) as (tail&Htail&Hin).
  pose proof (pn_end s ms Hp) as Hends. destruct (last_message_was_end_of_messages s) eqn:Hl.
  { subst ms. destruct (read_tail s (Z.of_nat (length cur)) (kMoldHeaderSize + Z.of_nat (length (frames cur))) tail)
      as (s'&->&Hfin&Hcfg&Hseq); [done|done|done|apply (pn_running s _ Hp)|].
    apply packs_leave; try done; [intros E; by destruct (Hcur E)|lia|by right]. }
  rewrite orb_false_r in Ego. apply Z.ltb_lt in Ego. destruct ms as [|m ms]; [done|].
  pose proof (pn_records s _ Hp) as [Hm _]%Forall_cons.
  rewrite (read_frame s _ _ m (frames ms ++ tail)); [|by rewrite Hin, frames_cons, (assoc_L (++))|done|done| |].
  2: { intros Hs. exact (pn_start s _ Hp Hs). }
  2: { intros E. assert (cur = []) as -> by (destruct cur; [done|cbn in E; lia]). done. }
  destruct (Z.ltb_spec kMaxPacketBytes
    (kMoldHeaderSize + Z.of_nat (length (frames cur)) + Z.of_nat (length (frame m)))) as [Hbig|Hfit].
  { apply packs_leave; try done; [|lia|by left]. intros ->. pose proof (record_length m Hm).
    rewrite length_frame in Hbig. change kMaxPacketBytes with 1472 in Hbig. unfold kMoldHeaderSize in Hbig.
    cbn in Hbig. lia. }
  destruct (pending_accepted s m ms tail Hp Hin Htail Hl) as [Hp' Hseq']. cbn zeta in Hp', Hseq'.
  set (s1 := accepted (with_input s (frames ms ++ tail)) (hasEventCode m "C")) in *.
  rewrite u16_id by (unfold fits; lia). rewrite <- frames_snoc.
  assert (Z.of_nat (length (cur ++ [m])) = Z.of_nat (length cur) + 1) as Elen by (rewrite length_app; cbn; lia).
  rewrite <- Elen. apply (packs_continue s s1); [done|done|done|].
  assert (kMoldHeaderSize + Z.of_nat (length (frames (cur ++ [m]))) <= kMaxPacketBytes) as Hsize'
    by (rewrite frames_app, frames_one, length_app; lia).
  assert (cur ++ [m] ≠ []) as Hne by (by destruct cur). cbn zeta. case_if.
  - apply packs_leave; try done; [cbn; lia|left]. split; [done|]. by apply boundary_not_end.
  - apply IH; try done; cbn [msgs_per_packet s1 accepted with_input]; lia.
Qed.

(** ** Packets *)

Lemma next_spec s ms :
  pending s ms → last_message_was_end_of_messages s = false → 0 < msgs_per_packet s < 65536 →
  ∃ cur rest s',
    next s = (Some (packet (session s) (next_seq s) cur), s') ∧ ms = cur ++ rest ∧ cur ≠ [] ∧
    Z.of_nat (length cur) <= msgs_per_packet s ∧
    kMoldHeaderSize + Z.of_nat (length (frames cur)) <= kMaxPacketBytes ∧
    next_seq s' = next_seq s + Z.of_nat (length cur) ∧ same_config s s' ∧
    ((pending s' rest ∧ last_message_was_end_of_messages s' = false) ∨ (finished s' ∧ rest = [])).
Proof.
  intros Hp Hl Hm. unfold next. destruct (pn_running s ms Hp) as (-> &_&_).
  destruct (recordLoop_spec (S (S (Z.to_nat (msgs_per_packet s)))) s ms []) as
    (s'&cur&rest&->&Hne&Hloop&Hsz&Hcnt&Hsq&Hcfg&Hout); [done|cbn; lia|lia|done|by split; [|lia]|cbn; lia|].
  cbn [app] in *. change (Z.of_nat (length [])) with 0 in Hloop. change (frames []) with (@nil Z) in Hloop.
  rewrite Hloop. cbn [from_option id].
  rewrite (proj2 (Z.eqb_neq _ _)) by (destruct cur; [done|cbn; lia]).
  exists cur, rest, s'. split; [|done]. unfold packet. by rewrite (proj1 Hcfg).
Qed.

(** The sender sets the packet size before each packet. *)
Fixpoint drive (sizes : list Z) (s : t) : list (list Z) * t :=
  match sizes with
  | [] => ([], s)
  | n :: sizes =>
    match next (snd (setMessagesPerPacket s n)) with
    | (None, s') => ([], s')
    | (Some p, s') => let '(ps, s'') := drive sizes s' in (p :: ps, s'')
    end
  end.

(** The file stays open. *)
Lemma recordLoop_open fuel s count body s' count' body' :
  recordLoop fuel s count body = Some (s', count', body') → input_open s' = input_open s.
Proof.
  revert s count body. induction fuel as [|fuel IH]; intros s count body; cbn [recordLoop]; [done|].
  case_if; [by intros [= <- _ _]|].
  assert (match readRecord s count (kMoldHeaderSize + Z.of_nat (length body)) with
          | Stopped r | Accepted _ _ r => input_open r = input_open s | Flush => True end) as Ho.
  { unfold readRecord, checkRecord. destruct (input s) as [|b0 [|b1 [|b2 rest]]]; try done.
    all: repeat (match goal with |- context [if ?b then _ else _] => destruct b end; try done). }
  destruct (readRecord _ _ _) as [r| |m b r]; [by intros [= <- _ _]|by intros [= <- _ _]|].
  cbn zeta. destruct b; [by intros [= <- _ _]|]. intros Hl. rewrite <- Ho. by eapply IH.
Qed.

Lemma drive_open sizes s : input_open (snd (drive sizes s)) = input_open s.
Proof.
  revert s. induction sizes as [|n sizes IH]; intros s; [done|]. cbn [drive].
  set (sn := snd (setMessagesPerPacket s n)).
  assert (input_open sn = input_open s) as Esn by (unfold sn, setMessagesPerPacket; by case_if).
  assert (input_open (snd (next sn)) = input_open s) as En.
  { unfold next. destruct (eof sn); [done|]. destruct (recordLoop _ _ _ _) as [[[r c] b]|] eqn:E; cbn [from_option id].
    - apply recordLoop_open in E. rewrite <- Esn, <- E. by case_if.
    - done. }
  destruct (next sn) as [[p|] r]; cbn [snd] in *; [|done]. specialize (IH r).
  destruct (drive sizes r). cbn [snd] in *. congruence.
Qed.

Lemma resized_pending s ms n : pending s ms → pending (snd (setMessagesPerPacket s n)) ms.
Proof. intros []. unfold setMessagesPerPacket. case_if; by split. Qed.

(** A finished source emits nothing more. *)
Lemma drive_finished sizes s :
  finished s → let '(ps, s') := drive sizes s in ps = [] ∧ finished s' ∧ next_seq s' = next_seq s.
Proof.
  intros (He&Hl&Hc). destruct sizes as [|n sizes]; [done|]. cbn [drive].
  assert (finished (snd (setMessagesPerPacket s n)) ∧
    next_seq (snd (setMessagesPerPacket s n)) = next_seq s) as [Hf Hs]
    by (unfold setMessagesPerPacket; by case_if).
  unfold next. by rewrite (proj1 Hf).
Qed.

Lemma drive_spec sizes s ms :
  pending s ms → last_message_was_end_of_messages s = false → Forall (λ n, 0 < n < 65536) sizes →
  (length ms <= length sizes)%nat →
  let '(ps, s') := drive sizes s in
  packed (session s) (next_seq s) ps ms ∧ finished s' ∧ next_seq s' = next_seq s + Z.of_nat (length ms).
Proof.
  revert s ms. induction sizes as [|n sizes IH]; intros s ms Hp Hl Hsz Hlen; cbn [drive].
  { pose proof (pn_end s ms Hp) as He. rewrite Hl in He. destruct ms; [done|cbn in Hlen; lia]. }
  apply Forall_cons in Hsz as [Hn Hsz].
  assert (setMessagesPerPacket s n = (true, snd (setMessagesPerPacket s n))) as Eset.
  { unfold setMessagesPerPacket. by rewrite (proj2 (Z.eqb_neq _ _)) by lia. }
  assert (msgs_per_packet (snd (setMessagesPerPacket s n)) = n ∧ session (snd (setMessagesPerPacket s n)) = session s
    ∧ next_seq (snd (setMessagesPerPacket s n)) = next_seq s ∧
    last_message_was_end_of_messages (snd (setMessagesPerPacket s n)) = false) as (E1&E2&E3&E4).
  { unfold setMessagesPerPacket. by rewrite (proj2 (Z.eqb_neq _ _)) by lia. }
  destruct (next_spec _ ms (resized_pending s ms n Hp) E4) as (cur&rest&s'&->&->&Hne&_&Hsize&Hsq&Hcfg&Hout);
    [by rewrite E1|].
  destruct Hcfg as [Hcs _]. rewrite E2, E3 in *. destruct Hout as [[Hp' Hl']|[Hfin ->]].
  - specialize (IH s' rest Hp' Hl' Hsz). rewrite length_app in Hlen. cbn [length] in Hlen.
    destruct (drive sizes s') as [ps s'']. destruct IH as (Hpk&Hfin&Hsq'); [destruct cur; [done|]; cbn in Hlen; lia|].
    rewrite Hcs, Hsq in Hpk. split; [by apply packed_cons|]. split; [done|]. rewrite length_app. lia.
  - pose proof (drive_finished sizes s' Hfin) as Hd. destruct (drive sizes s') as [ps s''].
    destruct Hd as (->&Hfin'&Hsq'). split; [apply packed_cons; [done|done|constructor]|]. split; [done|].
    rewrite length_app. cbn. lia.
Qed.

(** ** Soundness: what a file must have been *)

Lemma prefix_split b0 b1 :
  0 <= b0 < 256 → 0 <= b1 < 256 →
  writeU16BE (u16 (b0 ≪ 8) .| b1) = [b0; b1] ∧ 0 <= u16 (b0 ≪ 8) .| b1 < 65536.
Proof.
  intros H0 H1. rewrite u16_id by (unfold fits; rewrite Z.shiftl_mul_pow2 by lia; lia).
  rewrite shift8 by lia. split; [|lia]. unfold writeU16BE.
  rewrite !land255, Z.shiftr_div_pow2 by lia. change (2 ^ 8) with 256.
  rewrite Z.div_add_l, (Z.div_small b1), Z.add_0_r, (Z.mod_small b0) by lia.
  by rewrite Z.add_comm, Z.mod_add, Z.mod_small by lia.
Qed.

(** A stop either completes at an acceptable end of the file or reports an error. *)
Definition stopped (s s' : t) : Prop :=
  eof s' = true ∧ next_seq s' = next_seq s ∧ same_config s s' ∧
  ((completed s' = true ∧ last_error s' = last_error s ∧ last_message_was_end_of_messages s = true ∧
    tail_ok (completion_policy s) (input s)) ∨
   (completed s' = completed s ∧ last_error s' ≠ ""%string)).

Lemma stopped_error s s1 e :
  next_seq s1 = next_seq s → same_config s s1 → completed s1 = completed s → e ≠ ""%string →
  stopped s (stop s1 e).
Proof. intros. split; [done|]. split; [done|]. split; [done|]. by right. Qed.

Lemma checkRecord_sound s s1 msg :
  next_seq s1 = next_seq s → same_config s s1 → completed s1 = completed s →
  saw_message s1 = saw_message s → bytes msg → msg ≠ [] →
  match checkRecord s1 msg with
  | Stopped s' => stopped s s'
  | Flush => False
  | Accepted m b s' => m = msg ∧ record_ok msg ∧ (saw_message s = false → hasEventCode msg "O" = true) ∧
                       s' = accepted s1 (hasEventCode msg "C") ∧
                       (b = true → hasEventCode msg "C" = false)
  end.
Proof.
  intros Hn Hc Hd Hw Hb Hne. unfold checkRecord.
  destruct (Z.eqb_spec (expectedItchMessageLength (byteAt msg 0)) 0); [by apply stopped_error|].
  destruct (Z.eqb_spec (Z.of_nat (length msg)) (expectedItchMessageLength (byteAt msg 0))) as [Hl|];
    cbn [negb]; [|by apply stopped_error].
  destruct (isSystemEvent msg && _) eqn:Esys; [by apply stopped_error|].
  destruct (negb (saw_message s1) && _) eqn:Esaw; [by apply stopped_error|].
  split; [done|]. split; [|split; [|split; [done|apply boundary_not_end]]].
  - split; [done|]. intros E. rewrite E in Esys. cbn [andb] in Esys. apply orb_false_elim in Esys as [E1 E2].
    apply negb_false_iff, Z.eqb_eq in E1, E2. done.
  - rewrite <- Hw. intros E. rewrite E in Esaw. cbn [negb andb] in Esaw. by apply negb_false_iff in Esaw.
Qed.

Lemma readRecord_sound s count offset :
  bytes (input s) →
  match readRecord s count offset with
  | Stopped s' => stopped s s'
  | Flush => count ≠ 0 ∧ last_message_was_end_of_messages s = false
  | Accepted msg b s' =>
    ∃ rest, (b = true → hasEventCode msg "C" = false) ∧ input s = frame msg ++ rest ∧ record_ok msg ∧ last_message_was_end_of_messages s = false ∧
      (saw_message s = false → hasEventCode msg "O" = true) ∧
      offset + Z.of_nat (length (frame msg)) <= kMaxPacketBytes ∧
      s' = accepted (with_input s rest) (hasEventCode msg "C")
  end.
Proof.
  intros Hb. unfold readRecord. destruct (input s) as [|b0 [|b1 rest]] eqn:Ein.
  - destruct (bool_decide _ && _) eqn:E; [|by apply stopped_error].
    apply andb_true_iff in E as [Hp%bool_decide_eq_true Hl]. split; [done|]. split; [done|]. split; [done|].
    left. split; [done|]. split; [done|]. split; [done|]. right. by rewrite Ein.
  - by apply stopped_error.
  - apply Forall_cons in Hb as [H0 Hb]. apply Forall_cons in Hb as [H1 Hb].
    destruct (prefix_split b0 b1 H0 H1) as [Hw Hr]. set (n := u16 (b0 ≪ 8) .| b1) in *.
    destruct (Z.eqb_spec n 0) as [En|En].
    { destruct rest as [|c rest]; [|by apply stopped_error].
      destruct (last_message_was_end_of_messages s) eqn:El; cbn [negb]; [|by apply stopped_error].
      split; [done|]. split; [done|]. split; [done|]. left. split; [done|]. split; [done|]. split; [done|].
      left. rewrite Ein, <- Hw, En. done. }
    destruct (last_message_was_end_of_messages s) eqn:El; [by apply stopped_error|].
    destruct (Z.ltb_spec kMaxPacketBytes (offset + 2 + n)) as [|Hfit].
    { destruct (Z.eqb_spec count 0); [by apply stopped_error|done]. }
    destruct (Z.ltb_spec (Z.of_nat (length rest)) n) as [|Hlen]; [by apply stopped_error|].
    set (msg := take (Z.to_nat n) rest). set (rest' := drop (Z.to_nat n) rest).
    assert (length msg = Z.to_nat n) as Hml by (unfold msg; rewrite length_take; lia).
    assert (bytes msg ∧ msg ≠ []) as [Hmb Hmne].
    { split; [by apply Forall_take|]. intros E. rewrite E in Hml. cbn in Hml. lia. }
    pose proof (checkRecord_sound s (with_input s rest') msg eq_refl (conj eq_refl eq_refl) eq_refl eq_refl
      Hmb Hmne) as Hc.
    destruct (checkRecord _ _) as [s'| |m bd s']; [exact Hc|done|].
    destruct Hc as (->&Hok&Hst&->&Hbd). exists rest'. split; [exact Hbd|].
    assert (frame msg = b0 :: b1 :: msg) as Hfr.
    { unfold frame. rewrite Hml, Z2Nat.id, Hw by lia. done. }
    rewrite Hfr. split; [cbn [app]; do 2 f_equal; unfold msg, rest'; by rewrite take_drop|]. split; [done|]. split; [done|].
    split; [done|]. split; [cbn [length]; rewrite Hml; lia|done].
Qed.

(** The source has read the records [ms] of [file]. *)
Record consumed (file : list Z) (ms : list (list Z)) (s : t) : Prop := {
  cs_file : file = frames ms ++ input s;
  cs_bytes : bytes (input s);
  cs_ok : Forall record_ok ms;
  cs_saw : saw_message s = false ↔ ms = [];
  cs_start : ms ≠ [] → starts ms;
  cs_end : if last_message_was_end_of_messages s then ends_once ms
           else Forall (λ m, hasEventCode m "C" = false) ms;
  cs_seq : next_seq s = 1 + Z.of_nat (length ms);
  cs_fresh : eof s = false ∧ completed s = false ∧ last_error s = ""%string }.

Lemma ends_once_snoc ms m :
  Forall (λ m, hasEventCode m "C" = false) ms → hasEventCode m "C" = true → ends_once (ms ++ [m]).
Proof.
  intros Hms Hm. induction Hms as [|m' ms Hm' _ IH]; [done|]. cbn [app ends_once].
  destruct (ms ++ [m]) eqn:E; [by destruct ms|]. done.
Qed.

Lemma frames_length ms : Forall record_ok ms → (14 * length ms <= length (frames ms))%nat.
Proof.
  induction 1 as [|m ms Hm _ IH]; [done|]. rewrite frames_cons, length_app, length_frame.
  pose proof (record_length m Hm). cbn [length]. lia.
Qed.

Lemma consumed_record file ms s m rest :
  consumed file ms s → Z.of_nat (length file) < 2 ^ 63 →
  input s = frame m ++ rest → record_ok m → last_message_was_end_of_messages s = false →
  (saw_message s = false → hasEventCode m "O" = true) →
  consumed file (ms ++ [m]) (accepted (with_input s rest) (hasEventCode m "C")).
Proof.
  intros [Hf Hb Hok Hsaw Hst Hend Hseq Hfr] Hlen Hin Hm Hl Ho. rewrite Hl in Hend. rewrite Hin in Hf, Hb.
  pose proof (frames_length ms Hok) as Hfl. rewrite Hf, !length_app in Hlen. split; cbn; try done.
  - rewrite frames_app, frames_one. by rewrite <- (assoc_L (++)).
  - by apply Forall_app in Hb as [_ ?].
  - apply Forall_app. by split; [|constructor].
  - split; [done|]. by destruct ms.
  - intros _. destruct ms as [|m' ms]; [|by apply Hst]. cbn. by apply Ho, Hsaw.
  - destruct (hasEventCode m "C") eqn:E; [by apply ends_once_snoc|]. apply Forall_app. by split; [|constructor].
  - rewrite Hseq, length_app. cbn. rewrite u64_id by (unfold fits; lia). lia.
Qed.

(** The records [ms] are valid and stand at the front of [file]. *)
Definition front (file : list Z) (ms : list (list Z)) : Prop :=
  Forall record_ok ms ∧ ∃ rest, file = frames ms ++ rest.

Lemma consumed_front file ms s : consumed file ms s → front file ms.
Proof. intros Hc. split; [apply (cs_ok _ _ _ Hc)|]. exists (input s). apply (cs_file _ _ _ Hc). Qed.

(** How the source stands after reading the records [ms] of [file]. *)
Definition outcome (file : list Z) (policy : CompletionPolicy) (ms : list (list Z)) (s : t) : Prop :=
  next_seq s = 1 + Z.of_nat (length ms) ∧ front file ms ∧
  ((consumed file ms s ∧ last_message_was_end_of_messages s = false) ∨
   (eof s = true ∧ completed s = true ∧ last_error s = ""%string ∧ archive policy ms file) ∨
   (eof s = true ∧ completed s = false ∧ last_error s ≠ ""%string)).

Lemma stopped_outcome file ms s s' :
  consumed file ms s → stopped s s' → outcome file (completion_policy s) ms s'.
Proof.
  intros Hcs. pose proof (consumed_front _ _ _ Hcs) as Hfr. destruct Hcs as [Hf Hb Hok Hsaw Hst Hend Hseq (He&Hc&Hl)].
  intros (He'&Hn&_&Hout). split; [congruence|]. split; [done|]. right.
  destruct Hout as [(Hc'&Hl'&Hlast&Ht)|[Hc' Hl']]; [left|right; split; [done|split; [congruence|done]]].
  rewrite Hlast in Hend. split; [done|]. split; [done|]. split; [congruence|].
  assert (ms ≠ []) as Hne by (by intros ->). split; [done|]. split; [by apply Hst|]. split; [done|]. by exists (input s).
Qed.

Lemma recordLoop_sound fuel file s ms cur :
  consumed file ms s → Z.of_nat (length file) < 2 ^ 63 →
  Z.of_nat (length cur) <= msgs_per_packet s → msgs_per_packet s < 65536 →
  kMoldHeaderSize + Z.of_nat (length (frames cur)) <= kMaxPacketBytes → 0 < msgs_per_packet s →
  (Z.to_nat (msgs_per_packet s - Z.of_nat (length cur)) < fuel)%nat →
  ∃ s' more,
    recordLoop fuel s (Z.of_nat (length cur)) (frames cur) =
      Some (s', Z.of_nat (length (cur ++ more)), frames (cur ++ more)) ∧
    kMoldHeaderSize + Z.of_nat (length (frames (cur ++ more))) <= kMaxPacketBytes ∧
    (cur ++ more = [] → eof s' = true) ∧
    same_config s s' ∧ outcome file (completion_policy s) (ms ++ more) s'.
Proof.
  revert s ms cur. induction fuel as [|fuel IH]; intros s ms cur Hc Hlen Hcnt Hmsgs Hsize Hpos Hfuel; [lia|].
  cbn [recordLoop].
  assert (last_message_was_end_of_messages s = false → Z.of_nat (length cur) ≠ 0 →
    ∃ s' more, Some (s, Z.of_nat (length cur), frames cur) =
      Some (s', Z.of_nat (length (cur ++ more)), frames (cur ++ more)) ∧
    kMoldHeaderSize + Z.of_nat (length (frames (cur ++ more))) <= kMaxPacketBytes ∧
    (cur ++ more = [] → eof s' = true) ∧
    same_config s s' ∧ outcome file (completion_policy s) (ms ++ more) s') as Hleave.
  { intros Hl Hne. exists s, []. rewrite !(right_id [] (++)). split; [done|]. split; [done|].
    split; [by intros ->|]. split; [done|].
    split; [apply (cs_seq _ _ _ Hc)|]. split; [by eapply consumed_front|by left]. }
  destruct (negb _) eqn:Ego.
  { apply negb_true_iff, orb_false_elim in Ego as [Hge%Z.ltb_ge ?]. apply Hleave; [done|lia]. }
  pose proof (readRecord_sound s (Z.of_nat (length cur)) (kMoldHeaderSize + Z.of_nat (length (frames cur)))
    (cs_bytes _ _ _ Hc)) as Hr.
  destruct (readRecord _ _ _) as [s'| |msg boundary s'].
  - exists s', []. rewrite !(right_id [] (++)). split; [done|]. split; [done|]. split; [intros _; apply Hr|].
    split; [apply Hr|].
    by apply stopped_outcome with (s := s).
  - apply Hleave; apply Hr.
  - destruct Hr as (rest&Hbd&Hin&Hm&Hl&Ho&Hfit&->). rewrite Hl, orb_false_r in Ego.
    apply negb_false_iff, Z.ltb_lt in Ego.
    pose proof (consumed_record file ms s msg rest Hc Hlen Hin Hm Hl Ho) as Hc'.
    set (s1 := accepted (with_input s rest) (hasEventCode msg "C")) in *.
    rewrite u16_id by (unfold fits; lia). rewrite <- frames_snoc.
    assert (Z.of_nat (length (cur ++ [msg])) = Z.of_nat (length cur) + 1) as Elen by (rewrite length_app; cbn; lia).
    rewrite <- Elen.
    assert (kMoldHeaderSize + Z.of_nat (length (frames (cur ++ [msg]))) <= kMaxPacketBytes) as Hsize'
      by (rewrite frames_app, frames_one, length_app; lia).
    cbn zeta. destruct boundary.
    + exists s1, [msg]. split; [done|]. split; [done|]. split; [by destruct cur|]. split; [done|].
      split; [apply (cs_seq _ _ _ Hc')|]. split; [by eapply consumed_front|left]. split; [done|]. by apply Hbd.
    + destruct (IH s1 (ms ++ [msg]) (cur ++ [msg]) Hc' Hlen) as (s'&more&Hloop&Hsz&Hemp&Hcfg&Hout);
        [cbn; lia|done|done|done|cbn; lia|].
      exists s', (msg :: more). rewrite <- !(assoc_L (++)) in *. cbn [app] in *. done.
Qed.

Lemma next_sound file s ms :
  consumed file ms s → last_message_was_end_of_messages s = false → Z.of_nat (length file) < 2 ^ 63 →
  0 < msgs_per_packet s < 65536 →
  let '(p, s') := next s in
  ∃ cur, p = (if decide (cur = []) then None else Some (packet (session s) (next_seq s) cur)) ∧
    kMoldHeaderSize + Z.of_nat (length (frames cur)) <= kMaxPacketBytes ∧
    (cur = [] → eof s' = true) ∧
    same_config s s' ∧ outcome file (completion_policy s) (ms ++ cur) s'.
Proof.
  intros Hc Hl Hlen Hm. unfold next. rewrite (proj1 (cs_fresh _ _ _ Hc)).
  destruct (recordLoop_sound (S (S (Z.to_nat (msgs_per_packet s)))) file s ms [] Hc Hlen)
    as (s'&cur&Hloop&Hsz&Hemp&Hcfg&Hout); [cbn; lia|lia|done|lia|cbn; lia|].
  cbn [app] in *. change (Z.of_nat (length [])) with 0 in Hloop. change (frames []) with (@nil Z) in Hloop.
  rewrite Hloop. cbn [from_option id]. destruct cur as [|m cur].
  - by exists [].
  - rewrite (proj2 (Z.eqb_neq _ _)) by (cbn; lia). exists (m :: cur). split; [|done]. rewrite decide_False by done.
    unfold packet. by rewrite (proj1 Hcfg).
Qed.

Lemma drive_eof sizes s : eof s = true → let '(ps, s') := drive sizes s in ps = [] ∧ eof s' = true ∧
  completed s' = completed s ∧ last_error s' = last_error s ∧ next_seq s' = next_seq s.
Proof.
  intros He. destruct sizes as [|n sizes]; [done|]. cbn [drive].
  unfold setMessagesPerPacket, next. destruct (n =? 0); cbn [fst snd eof]; rewrite He; done.
Qed.

(** Whatever the file holds, the packets carry the records the source read from its
    front, and the source ends as [outcome] says; after as many packets as the file
    has bytes it has come to an end. *)
Lemma drive_sound file sizes s ms :
  consumed file ms s → last_message_was_end_of_messages s = false → Z.of_nat (length file) < 2 ^ 63 →
  Forall (λ n, 0 < n < 65536) sizes →
  let '(ps, s') := drive sizes s in
  ∃ more, packed (session s) (next_seq s) ps more ∧ outcome file (completion_policy s) (ms ++ more) s' ∧
    ((length file < length ms + length sizes)%nat → eof s' = true).
Proof.
  revert s ms. induction sizes as [|n sizes IH]; intros s ms Hc Hl Hlen Hsz; cbn [drive].
  { exists []. rewrite (right_id [] (++)). split; [constructor|]. split; [split; [apply (cs_seq _ _ _ Hc)|split; [by eapply consumed_front|by left]]|].
    pose proof (cs_file _ _ _ Hc) as Ef. pose proof (frames_length ms (cs_ok _ _ _ Hc)) as Hfl.
    rewrite Ef, length_app. cbn. lia. }
  apply Forall_cons in Hsz as [Hn Hsz]. unfold setMessagesPerPacket at 1.
  rewrite (proj2 (Z.eqb_neq _ _)) by lia. cbn [snd].
  set (sn := mk _ _ _ _ _ _ _ _ _ _ _ _).
  assert (consumed file ms sn) as Hcn by (destruct Hc; by split).
  pose proof (next_sound file sn ms Hcn Hl Hlen Hn) as Hnext. destruct (next sn) as [p s'].
  destruct Hnext as (cur&->&Hsize&Hemp&[Hcs Hcp]&Hseq&Hfront&Hout).
  change (session sn) with (session s) in *. change (completion_policy sn) with (completion_policy s) in *.
  change (next_seq sn) with (next_seq s). pose proof (cs_seq _ _ _ Hc) as Hs0.
  case_decide as Hcur.
  { subst cur. exists []. split; [constructor|]. split; [done|]. intros _. by apply Hemp. }
  assert (eof s' = true → let '(ps, s'') := drive sizes s' in
    ps = [] ∧ eof s'' = true ∧ outcome file (completion_policy s) (ms ++ cur) s'') as Hdone.
  { intros He. pose proof (drive_eof sizes s' He) as Hd. destruct (drive sizes s') as [ps s''].
    destruct Hd as (->&He''&Hc''&Hl''&Hn''). split; [done|]. split; [done|]. split; [congruence|]. split; [done|].
    destruct Hout as [[Hc' _]|Hout]; [by rewrite (proj1 (cs_fresh _ _ _ Hc')) in He|]. right.
    rewrite Hc'', Hl''. destruct Hout as [[_ ?]|[_ ?]]; [left|right]; done. }
  destruct Hout as [[Hc' Hl']|Hout].
  - specialize (IH s' _ Hc' Hl' Hlen Hsz). destruct (drive sizes s') as [ps s''].
    destruct IH as (more&Hpk&Hout'&Heof). exists (cur ++ more).
    rewrite Hcs, Hseq, length_app in Hpk. rewrite (assoc_L (++)), Hcp in *.
    split; [apply packed_cons; [done|done|]|split; [done|]].
    + by replace (next_seq s + Z.of_nat (length cur)) with (1 + Z.of_nat (length ms + length cur)) by lia.
    + intros Hlt. apply Heof. rewrite length_app. destruct cur; [done|]. cbn in *. lia.
  - assert (eof s' = true) as He by (by destruct Hout as [[? _]|[? _]]). specialize (Hdone He). destruct (drive sizes s') as [ps s''].
    destruct Hdone as (->&He''&Ho). exists cur. split; [|done].
    rewrite <- (right_id [] (++) cur) at 2. apply packed_cons; [done|done|constructor].
Qed.

End ReplayInv.
