(* ===== verification/ReplayProps.v ===== *)
(** The properties of the replay source: which files it accepts, and that what it
    sends is what the decoder delivers. *)
From stdpp Require Import base list gmap strings.
From Stdlib Require Import ZArith Lia Ascii.
From S2P Require Import Prelude Bits BookTypes Orders BookOps Directory Manager ManagerInv Probe.
From S2P Require Import Gap Protocol Parser ParserInv ManagerProps ParserProps Decoder DecoderInv DecoderProps.
From S2P Require Import Replay ReplayInv.
#[local] Open Scope Z_scope.
#[local] Open Scope astra_scope.

Module ReplayProps.
Import Protocol DecoderInv DecoderProps ItchMoldUdpSource ReplayInv.

(** ** Packets read back *)

Lemma writeU16BE_put v : writeU16BE v = putBE 2 v.
Proof. done. Qed.

Lemma record_bytes m : record_ok m → bytes m.
Proof. by intros [(?&_) _]. Qed.

Lemma frame_bytes m : bytes m → bytes (frame m).
Proof. intros Hm. unfold frame. rewrite writeU16BE_put. apply Forall_app. split; [apply bytes_putBE|done]. Qed.

Lemma frames_bytes ms : Forall record_ok ms → bytes (frames ms).
Proof.
  induction 1 as [|m ms Hm _ IH]; [constructor|]. rewrite frames_cons. apply Forall_app.
  split; [by apply frame_bytes, record_bytes|done].
Qed.

Lemma unframe_frames ms : Forall record_ok ms → unframe (length ms) (frames ms) = Some ms.
Proof.
  induction 1 as [|m ms Hm _ IH]; [done|]. pose proof (record_length m Hm) as Hl. rewrite frames_cons.
  cbn [length unframe]. rewrite length_app, length_frame. rewrite (proj2 (Nat.ltb_ge _ _)) by lia.
  assert (readU16BE (frame m ++ frames ms) 0 = Z.of_nat (length m)) as ->.
  { apply read16_putBE; [|unfold fits; lia]. done. }
  rewrite Nat2Z.id. change (drop 2 (frame m ++ frames ms)) with (m ++ frames ms).
  rewrite (proj2 (Nat.eqb_neq _ _)) by lia. cbn [orb].
  rewrite (proj2 (Nat.ltb_ge _ _)) by (rewrite length_app; lia).
  by rewrite take_app_length, drop_app_length, IH.
Qed.

(** The messages, numbered from one. *)
Definition numbered (ms : list (list Z)) (s : Z) : list Z := nth (Z.to_nat (s - 1)) ms [].

Lemma numbered_range (before cur after : list (list Z)) :
  numbered (before ++ cur ++ after) <$> range (length cur) (1 + Z.of_nat (length before)) = cur.
Proof.
  revert before. induction cur as [|m cur IH]; intros before; [done|]. cbn [length range fmap list_fmap]. f_equal.
  - unfold numbered. replace (Z.to_nat (1 + Z.of_nat (length before) - 1)) with (length before + 0)%nat by lia.
    by rewrite app_nth2_plus.
  - specialize (IH (before ++ [m])). rewrite <- (assoc_L (++)) in IH. cbn [app] in IH.
    rewrite length_app in IH. cbn [length] in IH.
    by replace (1 + Z.of_nat (length before) + 1) with (1 + Z.of_nat (length before + 1)) by lia.
Qed.

(** A packet has fewer messages than the end-of-session marker. *)
Lemma packet_count cur :
  Forall record_ok cur → kMoldHeaderSize + Z.of_nat (length (frames cur)) <= kMaxPacketBytes →
  Z.of_nat (length cur) < 104.
Proof.
  intros Hc Hsz. pose proof (frames_length cur Hc). change kMaxPacketBytes with 1472 in Hsz.
  unfold kMoldHeaderSize in Hsz. lia.
Qed.

Section packets.
Context (session : list Z) (Hs : length session = 10%nat) (Hb : bytes session).

Lemma packet_bytes first cur : Forall record_ok cur → bytes (packet session first cur).
Proof.
  intros Hc. unfold packet, writeU64BE. rewrite writeU16BE_put.
  apply Forall_app; split; [done|]. apply Forall_app; split; [apply bytes_putBE|].
  apply Forall_app; split; [apply bytes_putBE|by apply frames_bytes].
Qed.

Lemma packet_fields first cur :
  fits 64 first → Z.of_nat (length cur) < 2 ^ 16 →
  readU64BE (packet session first cur) 10 = first ∧ readU16BE (packet session first cur) 18 = Z.of_nat (length cur) ∧
  drop 20 (packet session first cur) = frames cur ∧
  length (packet session first cur) = (20 + length (frames cur))%nat.
Proof.
  intros Hf Hc. unfold packet, writeU64BE. rewrite writeU16BE_put.
  set (n := Z.of_nat (length cur)) in *. set (p := session ++ _).
  assert (drop 10 p = putBE 8 first ++ putBE 2 n ++ frames cur) as H10
    by (unfold p; by rewrite drop_app_length' by done).
  assert (drop 18 p = putBE 2 n ++ frames cur) as H18.
  { replace (drop 18 p) with (drop 8 (drop 10 p)) by (by rewrite drop_drop).
    rewrite H10. by rewrite drop_app_length' by (by rewrite length_putBE). }
  split; [|split; [|split]].
  - apply read_putBE; [lia| |done]. rewrite H10. by rewrite take_app_length' by (by rewrite length_putBE).
  - apply read16_putBE; [|unfold fits; lia]. by rewrite H18.
  - replace (drop 20 p) with (drop 2 (drop 18 p)) by (by rewrite drop_drop). by rewrite H18.
  - unfold p. rewrite !length_app, Hs, !length_putBE. lia.
Qed.

Lemma packet_consistent before cur after :
  Forall record_ok cur → kMoldHeaderSize + Z.of_nat (length (frames cur)) <= kMaxPacketBytes →
  Z.of_nat (length before) < 2 ^ 63 →
  consistent (numbered (before ++ cur ++ after)) (Some (packet session (1 + Z.of_nat (length before)) cur)).
Proof.
  intros Hc Hsz Hlen data [= <-]. pose proof (packet_count cur Hc Hsz) as Hn.
  destruct (packet_fields (1 + Z.of_nat (length before)) cur) as (Hq&Hm&Hd&_); [unfold fits; lia|lia|].
  split; [by apply packet_bytes|]. intros _ _ _. unfold carries. rewrite Hq, Hm.
  change (Z.to_nat kHeaderSize) with 20%nat. rewrite Hd, Nat2Z.id, numbered_range. by apply unframe_frames.
Qed.

Lemma packet_offers before cur s :
  Forall record_ok cur → kMoldHeaderSize + Z.of_nat (length (frames cur)) <= kMaxPacketBytes →
  Z.of_nat (length before) < 2 ^ 63 →
  offers (Some (packet session (1 + Z.of_nat (length before)) cur)) s ↔
  1 + Z.of_nat (length before) <= s < 1 + Z.of_nat (length (before ++ cur)).
Proof.
  intros Hc Hsz Hlen. pose proof (packet_count cur Hc Hsz) as Hn.
  destruct (packet_fields (1 + Z.of_nat (length before)) cur) as (Hq&Hm&_&Hl); [unfold fits; lia|lia|].
  unfold offers. split.
  - intros (data&[= <-]&_&_&Hr). rewrite Hq, Hm in Hr. rewrite length_app. lia.
  - intros Hr. eexists. split; [done|]. rewrite Hl, Hq, Hm. rewrite length_app in Hr.
    split; [unfold kHeaderSize; lia|]. split; [unfold kEndOfSessionMessageCount; lia|lia].
Qed.

(** All packets of a replay agree with the messages and together offer them all. *)
Lemma packed_agrees ps before ms :
  Forall record_ok ms → Z.of_nat (length (before ++ ms)) < 2 ^ 63 →
  packed session (1 + Z.of_nat (length before)) ps ms →
  Forall (λ p, consistent (numbered (before ++ ms)) (Some p)) ps ∧
  ∀ s, Exists (λ p, offers (Some p) s) ps ↔
       1 + Z.of_nat (length before) <= s < 1 + Z.of_nat (length (before ++ ms)).
Proof.
  intros Hms Hlen Hp. remember (1 + Z.of_nat (length before)) as first eqn:Ef.
  revert before Ef Hms Hlen. induction Hp as [first|first cur ps ms Hne Hsz Hp IH]; intros before Ef Hms Hlen.
  { split; [constructor|]. intros s. rewrite Exists_nil, length_app. cbn [length]. lia. }
  apply Forall_app in Hms as [Hc Hms]. subst first.
  assert (Z.of_nat (length before) < 2 ^ 63) as Hlb by (rewrite length_app in Hlen; lia).
  destruct (IH (before ++ cur)) as [IH1 IH2];
    [rewrite length_app; lia|done|by rewrite <- (assoc_L (++))|].
  rewrite <- (assoc_L (++)) in IH1. split.
  - constructor; [by apply packet_consistent|done].
  - intros s. rewrite Exists_cons, IH2, packet_offers by done. rewrite !length_app.
    destruct cur; [done|]. cbn [length]. lia.
Qed.

End packets.

(** ** A fresh source *)

Lemma padSession_length session : length (padSession session) = 10%nat.
Proof. unfold padSession. rewrite length_take, length_app, length_replicate. lia. Qed.

Lemma padSession_bytes session : bytes session → bytes (padSession session).
Proof. intros Hb. apply Forall_take, Forall_app. split; [done|]. by apply Forall_replicate. Qed.

Section fresh.
Context (file : list Z) (path : string) (session : list Z) (n : Z) (policy : CompletionPolicy).
Hypothesis Hsession : (length session <= 10)%nat.
Hypothesis Hn : 0 < n.
Abbreviation source := (make (Some file) path session n policy).

Lemma make_open : last_error source = ""%string ∧ eof source = false.
Proof.
  unfold make. cbn [last_error eof]. rewrite (proj2 (Nat.ltb_ge _ _)) by done.
  by rewrite (proj2 (Z.eqb_neq _ _)) by lia.
Qed.

Lemma make_pending ms :
  archive policy ms file → Z.of_nat (length ms) < 2 ^ 63 → pending source ms.
Proof.
  intros (Hok&Hst&Hend&tail&Htail&Hf) Hlen. destruct make_open as [Hl He]. split; try done.
  - by exists tail.
  - cbn [next_seq make]. unfold max_u64. lia.
Qed.

Lemma make_consumed : bytes file → consumed file [] source.
Proof. intros Hb. destruct make_open as [Hl He]. split; try done. constructor. Qed.

End fresh.

(** ** Properties *)

(** The packets [ps] arrive in some order, any of them more than once. *)
Definition arrival (ps : list (list Z)) (arrivals : list (option (list Z) * Z)) : Prop :=
  (∀ p, p ∈ ps → Some p ∈ arrivals.*1) ∧ (∀ p, p ∈ arrivals.*1 → ∃ q, p = Some q ∧ q ∈ ps).

Lemma arrival_received ps arrivals s :
  arrival ps arrivals → received arrivals s ↔ Exists (λ p, offers (Some p) s) ps.
Proof.
  intros [Hin Hout]. unfold received. rewrite !Exists_exists. split.
  - intros (pk&Hpk&Ho). destruct (Hout pk.1) as (q&Eq&Hq); [by apply list_elem_of_fmap_2|].
    exists q. rewrite <- Eq. done.
  - intros (q&Hq&Ho). apply Hin in Hq. apply list_elem_of_fmap_1 in Hq as (pk&Eq&Hpk). exists pk.
    rewrite <- Eq. done.
Qed.

Lemma arrival_agrees stream ps arrivals :
  arrival ps arrivals → Forall (λ p, consistent stream (Some p)) ps →
  Forall (λ pk : option (list Z) * Z, consistent stream pk.1) arrivals.
Proof.
  intros [_ Hout] Hps. apply Forall_forall. intros pk Hpk.
  destruct (Hout pk.1) as (q&->&Hq); [by apply list_elem_of_fmap_2|]. by eapply Forall_forall in Hps.
Qed.

Lemma numbered_all ms (n : nat) :
  n = length ms → numbered ms <$> range n 1 = ms.
Proof. intros ->. pose proof (numbered_range [] ms []) as H. cbn in H. by rewrite app_nil_r in H. Qed.

Section properties.
Context {B : Type} `{RecoveryBuffer B} {P : Type} `{MessageSink P}.
Context (elapsed : Z → Z).

(** C15. A complete archive is replayed in full: whatever packet sizes the
    sender chooses, the source completes without an error after all records, and a
    decoder that receives the packets it made, in any order and with any repetitions,
    ends, unless it fails or goes stale, expecting the sequence after the last record,
    its parser having been given exactly the records of the archive, in order. *)
Theorem replay_round_trip policy ms file path session n sizes :
  archive policy ms file → Z.of_nat (length ms) < 2 ^ 63 →
  (length session <= 10)%nat → bytes session → 0 < n →
  Forall (λ n, 0 < n < 65536) sizes → (length ms <= length sizes)%nat →
  let '(ps, s) := drive sizes (make (Some file) path session n policy) in
  completed s = true ∧ isOpen s = true ∧ next_seq s = 1 + Z.of_nat (length ms) ∧
  ∀ (p0 : P) id arrivals, arrival ps arrivals →
    let d := run (B := B) elapsed (MoldUdpDecoder.make p0 id 1) arrivals in
    MoldUdpDecoder.terminal_status d = Ok → MoldUdpDecoder.health (MoldUdpDecoder.channel d) ≠ Stale →
    MoldUdpDecoder.next_expected_seq (MoldUdpDecoder.channel d) = next_seq s ∧
    MoldUdpDecoder.parser d = handle_all ms p0.
Proof.
  intros Harc Hlen Hsess Hb Hn Hsizes Hmany.
  pose proof (make_pending file path session n policy Hsess Hn ms Harc Hlen) as Hp.
  pose proof (drive_spec sizes _ ms Hp eq_refl Hsizes Hmany) as Hd. cbn [next_seq make] in Hd.
  assert (input_open (snd (drive sizes (make (Some file) path session n policy))) = true) as Hopen
    by (rewrite drive_open; done).
  destruct (drive sizes _) as [ps s]. destruct Hd as (Hpk&(_&Hl&Hc)&Hseq).
  split; [done|]. split; [unfold isOpen; cbn [snd] in Hopen; by rewrite Hl, Hopen|]. split; [done|].
  intros p0 id arrivals Harr d Ht Hh. destruct Harc as (Hok&_).
  destruct (packed_agrees (padSession session) (padSession_length session) (padSession_bytes session Hb)
    ps [] ms Hok Hlen Hpk) as [Hag Hof].
  pose proof (session_all elapsed (numbered ms) 1 p0 first_fits id arrivals (arrival_agrees _ _ _ Harr Hag)) as Hs.
  destruct (session_frontier (numbered ms) 1 p0 arrivals d Hs Ht Hh) as [Hbelow Hnext].
  pose proof (so_decoded _ _ _ _ _ Hs) as (j&Hr&_). fold d in Hr.
  rewrite (healthy_applied (numbered ms) 1 p0 arrivals d Hs (or_introl Ht)).
  assert (MoldUdpDecoder.next_expected_seq (MoldUdpDecoder.channel d) = 1 + Z.of_nat (length ms)) as ->.
  { set (e := MoldUdpDecoder.next_expected_seq _) in *.
    rewrite (arrival_received ps arrivals e Harr), Hof in Hnext. cbn [app length] in Hnext.
    destruct (decide (1 + Z.of_nat (length ms) < e)) as [Hlt|]; [|lia].
    specialize (Hbelow (1 + Z.of_nat (length ms))). rewrite (arrival_received ps arrivals _ Harr), Hof in Hbelow.
    cbn [app length] in Hbelow. lia. }
  split; [done|]. unfold upto. by rewrite numbered_all by lia.
Qed.

(** C16. For every file whatsoever, complete or not, the packets carry valid records that
    stand at the front of the file, each once, in order and numbered from one; and once the
    source has come to its end, which takes at most one packet more than the file has
    bytes, it reports completion exactly when the file is a complete archive, which is then
    an archive of the records it sent, and an error otherwise. *)
Theorem replay_accepts_archives policy file path session n sizes :
  bytes file → Z.of_nat (length file) < 2 ^ 63 →
  (length session <= 10)%nat → 0 < n →
  Forall (λ n, 0 < n < 65536) sizes → (length file < length sizes)%nat →
  let '(ps, s) := drive sizes (make (Some file) path session n policy) in
  eof s = true ∧
  ∃ ms, packed (padSession session) 1 ps ms ∧ Forall record_ok ms ∧ (∃ rest, file = frames ms ++ rest) ∧
    next_seq s = 1 + Z.of_nat (length ms) ∧
    (completed s = true → archive policy ms file) ∧
    ((∃ ms', archive policy ms' file) → completed s = true) ∧
    (completed s = true ↔ last_error s = ""%string).
Proof.
  intros Hb Hlen Hsess Hn Hsizes Hmany.
  pose proof (make_consumed file path session n policy Hsess Hn Hb) as Hc.
  pose proof (drive_sound file sizes _ [] Hc eq_refl Hlen Hsizes) as Hd.
  assert ((∃ ms', archive policy ms' file) →
    completed (snd (drive sizes (make (Some file) path session n policy))) = true) as Hcomplete.
  { intros (ms'&Harc). pose proof Harc as (Hok&_&_&tail&_&Ef). pose proof (frames_length ms' Hok) as Hfl.
    rewrite Ef, length_app in Hmany, Hlen.
    pose proof (make_pending file path session n policy Hsess Hn ms' Harc ltac:(lia)) as Hp.
    pose proof (drive_spec sizes _ ms' Hp eq_refl Hsizes ltac:(lia)) as Hd'.
    destruct (drive sizes _) as [ps s]. by destruct Hd' as (_&(_&_&?)&_). }
  destruct (drive sizes _) as [ps s]. destruct Hd as (ms&Hpk&(Hseq&[Hok Hfront]&Hout)&Heof).
  assert (eof s = true) as He by (apply Heof; cbn; lia). split; [done|].
  exists ms. do 4 (split; [done|]).
  destruct Hout as [[Hcs _]|[(_&Hco&Hle&Harc)|(_&Hco&Hle)]].
  - by rewrite (proj1 (cs_fresh _ _ _ Hcs)) in He.
  - split; [done|]. split; [done|]. by rewrite Hle.
  - split; [by rewrite Hco|]. split; [exact Hcomplete|]. rewrite Hco. done.
Qed.

End properties.

(** ** A short archive *)

Definition shortDay : list (list Z) :=
  [day 1; day 2; day 3; day 4; day 5;
   ParserProps.encode (ManagerInv.DeleteOrder 7 100 6) 0 0 ParserProps.sampleStock; ParserProps.systemEvent 7 "M"; ParserProps.systemEvent 8 "E";
   ParserProps.systemEvent 9 "C"].
Definition shortFile : list Z := frames shortDay ++ [0; 0].
Definition sessionA : list Z := [65; 66].
Definition sizesOf (n : nat) : list Z := replicate n 2.

Lemma record_ok_by_computation m :
  bool_decide (bytes m ∧ m ≠ [] ∧ Z.of_nat (length m) = expectedItchMessageLength (byteAt m 0)) = true →
  (if isSystemEvent m then (byteAt m 1 =? 0) && (byteAt m 2 =? 0) else true) = true → record_ok m.
Proof.
  intros H%bool_decide_eq_true Hs. split; [exact H|]. intros E. rewrite E in Hs.
  apply andb_true_iff in Hs as [?%Z.eqb_eq ?%Z.eqb_eq]. done.
Qed.

Lemma shortDay_archive : archive RequireTerminator shortDay shortFile.
Proof.
  split; [|split; [|split]].
  - unfold shortDay.
    repeat (apply Forall_cons; split; [apply record_ok_by_computation; vm_compute; reflexivity|]). constructor.
  - vm_compute. reflexivity.
  - vm_compute. split_and!; reflexivity.
  - exists [0; 0]. split; [by left|done].
Qed.

Abbreviation shortReplay n := (drive (sizesOf n) (make (Some shortFile) "" sessionA 20 RequireTerminator)).

Lemma sizes_ok n : Forall (λ n, 0 < n < 65536) (sizesOf n).
Proof. apply Forall_replicate. lia. Qed.

Lemma sessionA_bytes : bytes sessionA.
Proof. apply (bool_decide_eq_true_1 _). vm_compute. reflexivity. Qed.

Lemma last_elem (ps : list (list Z)) : Nat.eqb (length ps) 0 = false → default [] (last ps) ∈ ps.
Proof.
  intros Hne. destruct (last ps) as [p|] eqn:E; [by apply last_Some_elem_of|].
  apply last_None in E. by subst ps.
Qed.

Lemma shortReplay_some : Nat.eqb (length (fst (shortReplay 9))) 0 = false.
Proof. vm_compute. reflexivity. Qed.

(** The packets backwards, the last one twice. *)
Definition backwards (ps : list (list Z)) : list (option (list Z) * Z) :=
  (λ p, (Some p, 0)) <$> (reverse ps ++ [default [] (last ps)]).

Lemma backwards_arrival ps : Nat.eqb (length ps) 0 = false → arrival ps (backwards ps).
Proof.
  intros Hne. unfold arrival, backwards. rewrite <- list_fmap_compose. split.
  - intros p Hp. apply (list_elem_of_fmap_2 _ _ p). apply elem_of_app. left. by apply elem_of_reverse.
  - intros p (q&->&Hq)%list_elem_of_fmap_1. exists q. split; [done|]. apply elem_of_app in Hq as [Hq|Hq].
    + by apply elem_of_reverse.
    + apply list_elem_of_singleton in Hq as ->. by apply last_elem.
Qed.

Abbreviation shuffled := (backwards (fst (shortReplay 9))).

#[local] Existing Instance smallBuffer.
Abbreviation shuffledDecoder := (run (B := GapBuffer.t) (λ _, 0) (MoldUdpDecoder.make p1 0 1) shuffled).

Lemma shuffled_after :
  MoldUdpDecoder.terminal_status shuffledDecoder = Ok ∧
  MoldUdpDecoder.health (MoldUdpDecoder.channel shuffledDecoder) = Good.
Proof. vm_compute. split; reflexivity. Qed.

Lemma replay_round_trip_witness :
  completed (snd (shortReplay 9)) = true ∧
  MoldUdpDecoder.parser shuffledDecoder = handle_all shortDay p1.
Proof.
  pose proof (replay_round_trip (B := GapBuffer.t) (λ _, 0) RequireTerminator shortDay shortFile "" sessionA 20
    (sizesOf 9) shortDay_archive eq_refl ltac:(cbn; lia) sessionA_bytes ltac:(lia) (sizes_ok 9) ltac:(cbn; lia)) as H.
  pose proof (backwards_arrival _ shortReplay_some) as Ha. pose proof shuffled_after as [Ht Hh].
  rewrite (surjective_pairing (shortReplay 9)) in H. destruct H as (Hc&_&_&Hd).
  split; [exact Hc|]. refine (proj2 (Hd p1 0 shuffled Ha Ht _)). rewrite Hh. discriminate.
Defined.

(** The same archive without its terminator. *)
Abbreviation unterminated := (drive (sizesOf 300) (make (Some (frames shortDay)) "" sessionA 20 RequireTerminator)).

Lemma replay_accepts_archives_witness :
  (∃ ms, packed (padSession sessionA) 1 (fst unterminated) ms ∧ ∃ rest, frames shortDay = frames ms ++ rest) ∧
  (completed (snd unterminated) = true ↔ last_error (snd unterminated) = ""%string).
Proof.
  pose proof (replay_accepts_archives RequireTerminator (frames shortDay) "" sessionA 20 (sizesOf 300)
    (frames_bytes shortDay (proj1 shortDay_archive)) eq_refl ltac:(cbn; lia) ltac:(lia) (sizes_ok 300)
    ltac:(apply Nat.ltb_lt; vm_compute; reflexivity)) as H.
  rewrite (surjective_pairing (drive _ _)) in H. destruct H as (_&ms&Hp&_&Hf&_&_&_&H).
  exact (conj (ex_intro _ ms (conj Hp Hf)) H).
Defined.

(** A truncated archive is refused, but what it holds was sent. *)
Lemma truncated_archive :
  let '(ps, s) := drive (sizesOf 300) (make (Some (frames (take 5 shortDay))) "" sessionA 20 RequireTerminator) in
  length ps = 3%nat ∧ completed s = false ∧
  last_error s = "physical EOF before zero-length BinaryFILE terminator"%string.
Proof. vm_compute. split_and!; reflexivity. Qed.

End ReplayProps.
