(* ===== verification/SessionProps.v ===== *)
(** A loss-free session: the packets of a replay arrive in order on one line, then
    the end-of-session marker.  The decoder must finish, not merely not go wrong. *)
From stdpp Require Import base list gmap strings.
From Stdlib Require Import ZArith Lia Ascii.
From S2P Require Import Prelude Bits BookTypes Orders BookOps Directory Manager ManagerInv Probe.
From S2P Require Import Gap Protocol Parser ParserInv ManagerProps ParserProps Decoder DecoderInv DecoderProps.
From S2P Require Import Replay ReplayInv ReplayProps.
#[local] Open Scope Z_scope.
#[local] Open Scope astra_scope.

Module SessionProps.
Import Protocol MoldUdpDecoder DecoderInv DecoderProps.

(** Frames of the prescribed lengths pass the framing check. *)
Lemma unframe_validate data n offset ms :
  (offset <= length data)%nat → unframe n (drop offset data) = Some ms → Forall sized ms →
  validateLoop data (length data) n offset = Ok.
Proof.
  revert offset ms. induction n as [|n IH]; intros offset ms Hoff; cbn [validateLoop unframe].
  { destruct (drop offset data) eqn:E; [|done]. intros _ _. apply (f_equal length) in E.
    rewrite length_drop in E. cbn in E. by rewrite (proj2 (Nat.eqb_eq _ _)) by lia. }
  rewrite length_drop, drop_drop, length_drop, (readU16BE_drop data offset).
  set (k := Z.to_nat (readU16BE (drop offset data) 0)).
  destruct (Nat.ltb_spec (length data - offset) 2) as [|H2]; [done|].
  rewrite (proj2 (Nat.ltb_ge (length data) (offset + 2))) by lia. destruct (Nat.eqb_spec k 0) as [|Hk0]; [done|]. cbn [orb].
  destruct (Nat.ltb_spec (length data - (offset + 2)) k) as [|Hk]; [done|].
  intros (ms'&Hms&->)%fmap_Some [[Hne Hlen] Hall]%Forall_cons. rewrite drop_drop in Hms.
  assert (length (take k (drop (offset + 2) data)) = k) as Hlk by (rewrite length_take, length_drop; lia).
  assert (byteAt (take k (drop (offset + 2) data)) 0 = byteAt data (offset + 2)) as Hb.
  { unfold byteAt. rewrite lookup_take_lt by lia. rewrite lookup_drop. do 2 f_equal. lia. }
  rewrite Hlk, Hb in Hlen. rewrite <- Hlen, Z.eqb_refl, (proj2 (Z.eqb_neq _ _)) by lia. cbn [orb negb].
  apply (IH _ ms'); [lia|done|done].
Qed.

Section in_order.
Context {B : Type} `{RecoveryBuffer B} {P : Type} `{MessageSink P}.
Context (elapsed : Z → Z) (stream : Z → list Z) (init : Z) (p0 : P) (Hinit : 0 <= init).
Context (sess : list Z).
Implicit Types d : MoldUdpDecoder.t B P.
Abbreviation expected d := (next_expected_seq (channel d)).

(** Everything received was applied and nothing is known to be missing. *)
Record in_line d : Prop := {
  il_live : live stream init p0 d ∅;
  il_status : terminal_status d = Ok;
  il_session : first_packet_seen d = true → take 10 (session (channel d)) = sess;
  il_health : health (channel d) = Good;
  il_watermark : heartbeat_next_seq_high_watermark (channel d) = 0;
  il_pending : pending_end_sequence d = 0 }.

Lemma make_in_line id : init <= max_u64 → in_line (make p0 id init).
Proof. intros Hi. split; try done. by apply make_live. Qed.

Lemma in_line_empty d : in_line d → buffer_empty d = true.
Proof. intros [Hl]. unfold buffer_empty. by rewrite (rb_size_spec _ ∅ (lv_holds _ _ _ _ _ Hl)). Qed.

Lemma in_line_open d data :
  in_line d → take 10 data = sess → (10 <= length data)%nat →
  in_line (if first_packet_seen d then d else set_session (set_first_seen d) data) ∧
  expected (if first_packet_seen d then d else set_session (set_first_seen d) data) = expected d ∧
  first_packet_seen d && negb (sessionMatches (channel d) data) = false.
Proof.
  intros [Hl Ht Hs Hh Hw Hp] Hsess Hlen. destruct (first_packet_seen d) eqn:E.
  - split; [split; try done; intros _; by apply Hs|]. split; [done|]. cbn [andb]. apply negb_false_iff, bool_decide_eq_true.
    by rewrite Hs, Hsess by done.
  - split; [|done]. split; try done.
    + by apply (live_congr stream init p0 d).
    + intros _. cbn. rewrite take_app_le by (rewrite length_take; lia). by rewrite take_take, Nat.min_id.
Qed.

(** The next packet of a loss-free line. *)
Lemma in_line_packet d data ticks :
  let n := readU16BE data 18 in let first := readU64BE data 10 in
  in_line d → take 10 data = sess → (20 <= length data)%nat →
  0 < n < kEndOfSessionMessageCount → first = expected d → first + n <= max_u64 →
  carries stream data first n → Forall sized (stream <$> range (Z.to_nat n) first) →
  (∀ j, init < j <= first + n → ms_error (upto stream init p0 j) = ""%string) →
  let res := processPacket elapsed d (Some data) ticks in
  (status (fst res) = Ok ∧ had_gap (fst res) = false) ∧ in_line (snd res) ∧ expected (snd res) = first + n.
Proof.
  intros n first Hd Hsess Hlen Hn Hfirst Hend Hc Hsized Hclean res. unfold res, processPacket.
  rewrite (bool_decide_eq_true_2 _ (il_status d Hd)). cbn [negb].
  destruct (in_line_open d data Hd Hsess ltac:(lia)) as (Hd0&He0&Hm0). rewrite Hm0. clear Hm0.
  set (d0 := if first_packet_seen d then d else _) in *. fold n first.
  rewrite (proj2 (Z.ltb_ge _ _)) by (unfold kHeaderSize; lia).
  rewrite (proj2 (Z.eqb_neq n 0)), (proj2 (Z.eqb_neq n kEndOfSessionMessageCount)) by lia. cbn [orb andb].
  assert (validateSequencedPacket data (length data) n = Ok) as Hv.
  { unfold validateSequencedPacket. eapply unframe_validate; [unfold kHeaderSize; lia|exact Hc|done]. }
  pose proof (lv_range _ _ _ _ _ (il_live d0 Hd0)) as Hr. rewrite He0, <- Hfirst in Hr.
  unfold processSequenced. rewrite Hv. enum. rewrite (proj2 (Z.ltb_ge _ _)) by lia.
  rewrite (il_pending d0 Hd0), He0, u64_id by (unfold fits, max_u64 in *; lia). change (0 =? 0) with true. cbn [negb andb].
  rewrite (proj2 (Z.leb_gt _ _)), (proj2 (Z.ltb_ge (expected d) first)) by lia.
  unfold applyPacket. rewrite He0, <- Hfirst, Z.ltb_irrefl, u64_id by (unfold fits, max_u64 in *; lia).
  pose proof (processSequencedPacket_spec elapsed stream init p0 d0 ∅ data first n ticks
    (il_live d0 Hd0) Hc) as Hp. rewrite He0, <- Hfirst in Hp.
  specialize (Hp ltac:(lia) ltac:(lia) Hend ltac:(lia)). cbn zeta in Hp.
  destruct (processSequencedPacket _ _ _ _ _ _ _ _) as [r1 d1]. cbn [fst snd] in Hp.
  destruct Hp as (Hfr&j&Hj&Hpar&[(Hok&->&Hh&Hcl&Hph)|(_&Hj'&Hbad&_)]); [|destruct Hbad; apply Hclean; lia].
  rewrite Hok. enum. destruct Hfr as [F1 F2 F3 F4 F5 F6 F7].
  rewrite Hh, (il_health d0 Hd0). enum. set (d2 := set_expected d1 (first + n)).
  assert (live stream init p0 d2 ∅) as Hl2.
  { destruct (il_live d0 Hd0) as [L1 L2 L3 L4 L5 L6]. split; try done.
    - change (gap_buffer (channel d2)) with (gap_buffer (channel d1)). by rewrite F7.
    - change (expected d2) with (first + n). lia. }
  assert (drainGapBuffer elapsed d2 = (only Ok, d2)) as Edrain.
  { unfold drainGapBuffer. cbn [drainLoop]. pose proof (candidate_spec stream init p0 Hinit d2 ∅ Hl2) as Hcand.
    destruct (candidate d2) as [pk|]; [by destruct Hcand as [? _]|done]. }
  change (health (channel d2)) with (health (channel d1)). rewrite Edrain, Hh, (il_health d0 Hd0). enum.
  assert (in_line d2) as Hd2.
  { destruct Hd0. split; try done; cbn; try congruence. rewrite F1, F4. done. }
  assert (set_health d2 Good = d2) as Eh.
  { unfold set_health, with_channel. rewrite <- (il_health d2 Hd2). by destruct d2 as [? ? ? [] ?]. }
  unfold settle. rewrite (il_health d2 Hd2), (il_watermark d2 Hd2). enum.
  change (0 =? 0) with true. cbn [andb negb]. rewrite (in_line_empty d2 Hd2), (il_watermark d2 Hd2).
  cbn [andb]. change (0 =? 0) with true. cbn [andb]. rewrite Eh.
  unfold resolvePendingEndOfStream. rewrite (il_pending d2 Hd2). change (0 =? 0) with true. cbn [orb]. enum. done.
Qed.

(** The end marker of a session whose messages have all been applied. *)
Lemma in_line_end d data ticks :
  in_line d → take 10 data = sess → length data = 20%nat →
  readU16BE data 18 = kEndOfSessionMessageCount → readU64BE data 10 = expected d → 0 < expected d →
  phase (channel d) = EndOfMessages →
  let res := processPacket elapsed d (Some data) ticks in
  status (fst res) = EndOfStream ∧ endOfStreamAccepted (snd res) = true ∧ parser (snd res) = parser d.
Proof.
  intros Hd Hsess Hlen Hn Hfirst Hpos Hph res. unfold res, processPacket.
  rewrite (bool_decide_eq_true_2 _ (il_status d Hd)), Hlen, Hn, Hfirst. enum. cbn [orb andb].
  destruct (in_line_open d data Hd Hsess ltac:(lia)) as (Hd0&He0&Hm0). rewrite Hm0. clear Hm0.
  assert (phase (channel (if first_packet_seen d then d else set_session (set_first_seen d) data)) = EndOfMessages ∧
    parser (if first_packet_seen d then d else set_session (set_first_seen d) data) = parser d) as [Hp0 Hpar]
    by (by destruct (first_packet_seen d)).
  set (d0 := if first_packet_seen d then d else _) in *.
  unfold processEndOfSession. rewrite He0, (il_pending d0 Hd0), (il_watermark d0 Hd0), (il_health d0 Hd0).
  rewrite (in_line_empty d0 Hd0), Hp0, Z.ltb_irrefl. rewrite (proj2 (Z.ltb_ge _ 0)) by lia. enum.
  change (0 =? 0) with true. cbn [orb andb negb]. rewrite ?(Z.ltb_irrefl (expected d)). done.
Qed.

End in_order.

Lemma sessionField_pad session : (length session <= 10)%nat → sessionField session = ItchMoldUdpSource.padSession session.
Proof.
  intros Hl. apply list_eq. intros i. unfold sessionField, ItchMoldUdpSource.padSession.
  destruct (decide (i < 10)%nat) as [Hi|Hi].
  - rewrite lookup_take_lt by done. 
    match goal with |- context [map ?f ?l] => change (map f l) with (f <$> l) end. rewrite list_lookup_fmap.
    rewrite lookup_seq_lt by (unfold kSessionSize; lia). cbn [fmap option_fmap option_map].
    destruct (Nat.ltb_spec (0 + i) (length session)) as [Hin|Hout]; cbn [Nat.add] in *.
    + rewrite lookup_app_l by lia. unfold byteAt. by destruct (lookup_lt_is_Some_2 session i Hin) as [x ->].
    + rewrite lookup_app_r by lia. by rewrite lookup_replicate_2 by lia.
  - rewrite !lookup_ge_None_2; [done| |].
    + rewrite length_take. lia.
    + rewrite length_map, length_seq. unfold kSessionSize. lia.
Qed.

Section replayed.
Context {B : Type} `{RecoveryBuffer B} {P : Type} `{MessageSink P}.
Context (elapsed : Z → Z) (sess : list Z) (Hsess : length sess = 10%nat).
Implicit Types d : MoldUdpDecoder.t B P.
Import ReplayInv ReplayProps.

(** Every packet is decoded without an error and without a gap. *)
Fixpoint quiet d (arrivals : list (option (list Z) * Z)) : Prop :=
  match arrivals with
  | [] => True
  | pk :: arrivals =>
    let res := processPacket elapsed d pk.1 pk.2 in
    (status (fst res) = Ok ∧ had_gap (fst res) = false) ∧ quiet (snd res) arrivals
  end.

(** One data packet of a session: the messages [cur] between [before] and [after]. *)
Lemma in_line_data (p0 : P) ms before cur after d ticks :
  Forall record_ok ms → Z.of_nat (length ms) < 2 ^ 63 → ms = before ++ cur ++ after → cur ≠ [] →
  ItchMoldUdpSource.kMoldHeaderSize + Z.of_nat (length (frames cur)) <= ItchMoldUdpSource.kMaxPacketBytes →
  (∀ i, (0 < i <= length ms)%nat → ms_error (handle_all (take i ms) p0) = ""%string) →
  in_line (numbered ms) 1 p0 sess d → next_expected_seq (channel d) = 1 + Z.of_nat (length before) →
  let res := processPacket elapsed d (Some (packet sess (1 + Z.of_nat (length before)) cur)) ticks in
  (status (fst res) = Ok ∧ had_gap (fst res) = false) ∧ in_line (numbered ms) 1 p0 sess (snd res) ∧
  next_expected_seq (channel (snd res)) = 1 + Z.of_nat (length before) + Z.of_nat (length cur).
Proof.
  intros Hok Hlen Ems Hne Hsz Hclean Hd He.
  assert (Forall record_ok cur) as Hcur.
  { rewrite Ems in Hok. by apply Forall_app in Hok as [_ [? _]%Forall_app]. }
  rewrite Ems, !length_app in Hlen. pose proof (packet_count cur Hcur Hsz) as Hcnt.
  destruct (packet_fields sess Hsess (1 + Z.of_nat (length before)) cur) as (Hq&Hm&Hdrop&Hpl);
    [unfold fits; lia|lia|].
  assert (0 < Z.of_nat (length cur)) as Hpos by (destruct cur; [done|cbn; lia]).
  assert (numbered ms <$> range (length cur) (1 + Z.of_nat (length before)) = cur) as Hnum
    by (rewrite Ems; apply numbered_range).
  pose proof (in_line_packet elapsed (numbered ms) 1 p0 ltac:(lia) sess d
    (packet sess (1 + Z.of_nat (length before)) cur) ticks) as Hstep.
  rewrite Hq, Hm in Hstep. cbn zeta in Hstep. apply Hstep.
  - done.
  - unfold packet. by rewrite take_app_length'.
  - lia.
  - unfold kEndOfSessionMessageCount. lia.
  - done.
  - unfold max_u64. lia.
  - unfold carries. change (Z.to_nat kHeaderSize) with 20%nat. rewrite Hdrop, Nat2Z.id, Hnum.
    by apply unframe_frames.
  - rewrite Nat2Z.id, Hnum. eapply Forall_impl; [exact Hcur|]. apply record_sized.
  - intros j Hj. unfold upto.
    replace (numbered ms <$> range (Z.to_nat (j - 1)) 1) with (take (Z.to_nat (j - 1)) ms).
    { apply Hclean. rewrite Ems, !length_app. lia. }
    rewrite <- (numbered_all ms (length ms) eq_refl) at 1. rewrite <- fmap_take, take_range; [done|].
    rewrite Ems, !length_app. lia.
Qed.

(** A heartbeat for the sequence that is expected changes nothing. *)
Lemma in_line_heartbeat (stream : Z → list Z) (p0 : P) session seq d ticks :
  sess = ItchMoldUdpSource.padSession session → (length session <= 10)%nat → fits 64 seq →
  in_line stream 1 p0 sess d → next_expected_seq (channel d) = seq →
  let res := processPacket elapsed d (Some (makeMoldHeartbeatPacket session seq)) ticks in
  (status (fst res) = Ok ∧ had_gap (fst res) = false) ∧ in_line stream 1 p0 sess (snd res) ∧
  next_expected_seq (channel (snd res)) = seq.
Proof.
  intros Es Hl Hf Hd He res.
  destruct (control_fields session seq 0 Hf ltac:(unfold fits; lia)) as (Hs1&Hs2&Hs3&Hs4).
  rewrite sessionField_pad, <- Es in Hs2 by done. unfold res, makeMoldHeartbeatPacket, processPacket, kSessionSize in *.
  set (pk := makeMoldControlPacket _ _ _) in *.
  assert (10 <= length pk)%nat as Hlen by (unfold kHeaderSize in Hs1; lia).
  rewrite (bool_decide_eq_true_2 _ (il_status _ _ _ _ d Hd)), Hs1, Hs3, Hs4. enum. cbn [orb andb].
  destruct (in_line_open stream 1 p0 sess d pk Hd Hs2 Hlen) as (Hd0&He0&Hm0). rewrite Hm0.
  set (d0 := if first_packet_seen d then d else _) in *.
  unfold processHeartbeat. rewrite (il_pending _ _ _ _ d0 Hd0), (il_watermark _ _ _ _ d0 Hd0), He0, He.
  change (0 =? kEndOfSessionMessageCount) with false. change (0 =? 0) with true.
  rewrite (Z.ltb_irrefl seq), Z.eqb_refl. cbn [negb andb orb fst snd]. split; [done|]. split; [exact Hd0|]. exact (eq_trans He0 He).
Qed.

(** The packets of a replay, in order. *)
Lemma in_line_replay (p0 : P) ms ps arrivals before after d :
  Forall record_ok ms → Z.of_nat (length ms) < 2 ^ 63 → ms = before ++ after →
  (∀ i, (0 < i <= length ms)%nat → ms_error (handle_all (take i ms) p0) = ""%string) →
  packed sess (1 + Z.of_nat (length before)) ps after → arrivals.*1 = Some <$> ps →
  in_line (numbered ms) 1 p0 sess d → next_expected_seq (channel d) = 1 + Z.of_nat (length before) →
  quiet d arrivals ∧ in_line (numbered ms) 1 p0 sess (run elapsed d arrivals) ∧
  next_expected_seq (channel (run elapsed d arrivals)) = 1 + Z.of_nat (length ms).
Proof.
  intros Hok Hlen Ems Hclean Hp. remember (1 + Z.of_nat (length before)) as first eqn:Ef.
  revert before arrivals d Ef Ems.
  induction Hp as [first|first cur ps after Hne Hsz Hp IH]; intros before arrivals d Ef Ems Ha Hd He.
  { rewrite (right_id [] (++)) in Ems. subst before. destruct arrivals; [|done]. split; [done|]. split; [done|]. by rewrite <- Ef. }
  destruct arrivals as [|[pk ticks] arrivals]; [done|]. injection Ha as -> Ha. subst first.
  change (run elapsed d ((Some (packet sess (1 + Z.of_nat (length before)) cur), ticks) :: arrivals)) with
    (run elapsed (snd (processPacket elapsed d (Some (packet sess (1 + Z.of_nat (length before)) cur)) ticks)) arrivals).
  pose proof (in_line_data p0 ms before cur after d ticks Hok Hlen Ems Hne Hsz Hclean Hd He) as (Hquiet&Hd'&He').
  edestruct (IH (before ++ cur) arrivals) as [Hq' ?]; [rewrite length_app; lia|by rewrite <- (assoc_L (++))|done|exact Hd'|exact He'|].
  done.
Qed.

End replayed.

Section properties.
Context {B : Type} `{RecoveryBuffer B} {P : Type} `{MessageSink P}.
Context (elapsed : Z → Z).
Import ReplayInv ReplayProps.

(** A loss-free session ends: when the parser accepts every record of a complete
    archive and is at end of messages after the last, then the replay's packets, in
    order, are all decoded without an error or a gap, and the end-of-session marker for
    the source's next sequence is accepted. *)
Lemma replay_in_order policy ms file path session n sizes (p0 : P) id :
  archive policy ms file → Z.of_nat (length ms) < 2 ^ 63 →
  (length session <= 10)%nat → 0 < n →
  Forall (λ n, 0 < n < 65536) sizes → (length ms <= length sizes)%nat →
  (∀ i, (0 < i <= length ms)%nat → ms_error (handle_all (take i ms) p0) = ""%string) →
  ms_phase (handle_all ms p0) = EndOfMessages →
  let '(ps, s) := drive sizes (ItchMoldUdpSource.make (Some file) path session n policy) in
  ∀ arrivals ticks, arrivals.*1 = Some <$> ps →
    let res := processPacket elapsed (run (B := B) elapsed (make p0 id 1) arrivals)
      (Some (makeMoldEndOfSessionPacket session (ItchMoldUdpSource.next_seq s))) ticks in
    quiet elapsed (make (B := B) p0 id 1) arrivals ∧
    status (fst res) = EndOfStream ∧ endOfStreamAccepted (snd res) = true ∧ parser (snd res) = handle_all ms p0.
Proof.
  intros Harc Hlen Hse Hn Hsizes Hmany Hclean Hphase.
  pose proof (make_pending file path session n policy Hse Hn ms Harc Hlen) as Hp.
  pose proof (drive_spec sizes _ ms Hp eq_refl Hsizes Hmany) as Hd. cbn [ItchMoldUdpSource.next_seq ItchMoldUdpSource.make] in Hd.
  destruct (drive sizes _) as [ps s]. destruct Hd as (Hpk&_&Hseq). intros arrivals ticks Ha res.
  assert (ms ≠ []) as Hne by (by destruct Harc as (_&Hst&_); intros ->).
  assert (0 < length ms)%nat as Hpos by (destruct ms; [done|cbn; lia]).
  pose proof (in_line_replay elapsed (ItchMoldUdpSource.padSession session) (padSession_length session) p0 ms ps
    arrivals [] ms (make (B := B) p0 id 1) (proj1 Harc) Hlen eq_refl Hclean Hpk Ha
    (make_in_line (numbered ms) 1 p0 ltac:(lia) _ id ltac:(done)) eq_refl) as (Hq&Hl&He).
  unfold res. set (d1 := run elapsed _ arrivals) in *.
  assert (parser d1 = handle_all ms p0) as Hpar.
  { rewrite (lv_applied _ _ _ _ _ (il_live _ _ _ _ _ Hl)), He. unfold upto. by rewrite numbered_all by lia. }
  destruct (control_fields session (ItchMoldUdpSource.next_seq s) kEndOfSessionMessageCount) as (Hs1&Hs2&Hs3&Hs4);
    [rewrite Hseq; unfold fits; lia|done|].
  rewrite sessionField_pad in Hs2 by done. unfold makeMoldEndOfSessionPacket.
  set (pk := makeMoldControlPacket _ _ _) in *.
  destruct (in_line_end elapsed (numbered ms) 1 p0 _ d1 pk ticks Hl Hs2) as (Hst&Hend&Hsame).
  - unfold kHeaderSize in Hs1. lia.
  - done.
  - congruence.
  - rewrite He. lia.
  - rewrite (lv_phase _ _ _ _ _ (il_live _ _ _ _ _ Hl)) by (rewrite He; lia). by rewrite Hpar.
  - split; [exact Hq|]. split; [exact Hst|]. split; [exact Hend|]. rewrite <- Hpar. exact Hsame.
Qed.

End properties.

(** ** The short archive, in order *)

Import ReplayInv ReplayProps.
#[local] Existing Instance smallBuffer.

Lemma shortDay_accepted i :
  (0 < i <= length shortDay)%nat → ms_error (handle_all (take i shortDay) p1) = ""%string.
Proof.
  intros Hi. change (length shortDay) with 9%nat in Hi.
  assert (Forall (λ i, ms_error (handle_all (take i shortDay) p1) = ""%string) (List.seq 1 9)) as Hall
    by (apply (bool_decide_eq_true_1 _); vm_compute; reflexivity).
  eapply Forall_forall in Hall; [exact Hall|]. apply elem_of_seq. lia.
Qed.

Lemma shortDay_ends : ms_phase (handle_all shortDay p1) = EndOfMessages.
Proof. vm_compute. reflexivity. Qed.

End SessionProps.
