(* ===== verification/Latency.v ===== *)
(** The latency histograms of [metrics/LatencyRecorder.{hpp,cpp}] and
    [metrics/StageLatencyRecorder.{hpp,cpp}].

    The bucket array is an arena of counters.  Percentiles are ranks computed in
    [long double], in [Percentile]; this file starts at the rank ([valueAtRank]). *)
From stdpp Require Import base list gmap.
From Stdlib Require Import ZArith Lia.
From S2P Require Import Prelude.
#[local] Open Scope Z_scope.
#[local] Open Scope astra_scope.

Module LatencyRecorder.

Definition kExactBucketCount : Z := 1024.
Definition kFineBucketCount : Z := 4096.
Definition kCoarseBucketCount : Z := 4096.
Definition kFineBucketWidthNs : Z := 16.
Definition kCoarseBucketWidthNs : Z := 1024.
Definition kFineRangeNs : Z := kFineBucketCount * kFineBucketWidthNs.
Definition kCoarseRangeNs : Z := kCoarseBucketCount * kCoarseBucketWidthNs.
Definition kOverflowBucket : Z := kExactBucketCount + kFineBucketCount + kCoarseBucketCount.
Definition kBucketCount : Z := kOverflowBucket + 1.
Definition kNoMin : Z := max_u64.

Record t := mk {
  buckets : arr Z;
  count : Z;
  invalid_samples : Z;
  min_ns : Z;
  max_ns : Z;
  total_ns : Z }.

Definition make : t := mk ∅ 0 0 kNoMin 0 0.

Definition bucketIndex (latency_ns : Z) : Z :=
  if latency_ns <? kExactBucketCount then latency_ns else
  let latency_ns := latency_ns - kExactBucketCount in
  if latency_ns <? kFineRangeNs then kExactBucketCount + latency_ns / kFineBucketWidthNs else
  let latency_ns := latency_ns - kFineRangeNs in
  if latency_ns <? kCoarseRangeNs
  then kExactBucketCount + kFineBucketCount + latency_ns / kCoarseBucketWidthNs
  else kOverflowBucket.

Definition bucketUpperBoundNs (bucket_index : Z) : Z :=
  if bucket_index <? kExactBucketCount then bucket_index else
  let bucket_index := bucket_index - kExactBucketCount in
  if bucket_index <? kFineBucketCount
  then kExactBucketCount + (bucket_index + 1) * kFineBucketWidthNs - 1 else
  let bucket_index := bucket_index - kFineBucketCount in
  if bucket_index <? kCoarseBucketCount
  then kExactBucketCount + kFineRangeNs + (bucket_index + 1) * kCoarseBucketWidthNs - 1
  else max_u64.

(** [recordDuration(duration_ns, sample_count)]; the one-argument overload passes one. *)
Definition recordDuration (s : t) (duration_ns sample_count : Z) : t :=
  if sample_count =? 0 then s else
  let i := bucketIndex duration_ns in
  mk (<[i := u64 (aget (buckets s) i + sample_count)]> (buckets s))
     (u64 (count s + sample_count)) (invalid_samples s)
     (Z.min (min_ns s) duration_ns) (Z.max (max_ns s) duration_ns)
     (u64 (total_ns s + u64 (duration_ns * sample_count))).

Definition record (s : t) (start_ns end_ns : Z) : t :=
  if end_ns <? start_ns
  then mk (buckets s) (count s) (u64 (invalid_samples s + 1)) (min_ns s) (max_ns s) (total_ns s)
  else recordDuration s (end_ns - start_ns) 1.

Definition reset (s : t) : t := mk ∅ 0 0 kNoMin 0 0.

(** The loop over the buckets, from bucket [i] on. *)
Fixpoint rankLoop (s : t) (n : nat) (i cumulative rank : Z) : Z :=
  match n with
  | O => max_ns s
  | S n =>
    let cumulative := u64 (cumulative + aget (buckets s) i) in
    if rank <=? cumulative
    then (if i =? kOverflowBucket then max_ns s else bucketUpperBoundNs i)
    else rankLoop s n (i + 1) cumulative rank
  end.

Definition valueAtRank (s : t) (rank : Z) : Z := rankLoop s (Z.to_nat kBucketCount) 0 0 rank.

(** ** Buckets *)

Ltac bucket_consts :=
  unfold kOverflowBucket, kCoarseRangeNs, kFineRangeNs, kCoarseBucketWidthNs, kFineBucketWidthNs,
    kCoarseBucketCount, kFineBucketCount, kExactBucketCount in *.

Lemma bucketIndex_range d : 0 <= d → 0 <= bucketIndex d < kBucketCount.
Proof.
  intros Hd. unfold bucketIndex, kBucketCount. bucket_consts. cbn zeta.
  repeat case_if; Z.div_mod_to_equations; lia.
Qed.

Lemma bucketIndex_mono d d' : d <= d' → 0 <= d → bucketIndex d <= bucketIndex d'.
Proof.
  intros Hle Hd. unfold bucketIndex. bucket_consts. cbn zeta.
  repeat case_if; Z.div_mod_to_equations; lia.
Qed.

(** Below the overflow bucket the bounds are exact. *)
Lemma bucket_bound d :
  0 <= d → bucketIndex d ≠ kOverflowBucket →
  d <= bucketUpperBoundNs (bucketIndex d) ∧
  bucketUpperBoundNs (bucketIndex d) - d <
    (if d <? kExactBucketCount then 1 else
     if d <? kExactBucketCount + kFineRangeNs then kFineBucketWidthNs else kCoarseBucketWidthNs).
Proof.
  intros Hd. unfold bucketIndex, bucketUpperBoundNs. bucket_consts. cbn zeta.
  repeat case_if; Z.div_mod_to_equations; lia.
Qed.

Lemma bucket_overflow d : 0 <= d →
  bucketIndex d = kOverflowBucket ↔ kExactBucketCount + kFineRangeNs + kCoarseRangeNs <= d.
Proof.
  intros Hd. unfold bucketIndex. bucket_consts. cbn zeta.
  repeat case_if; Z.div_mod_to_equations; lia.
Qed.

(** ** Counting *)

(** The samples recorded so far as (duration, multiplicity). *)
Fixpoint weight (P : Z → bool) (samples : list (Z * Z)) : Z :=
  match samples with
  | [] => 0
  | (d, c) :: samples => (if P d then c else 0) + weight P samples
  end.

Definition sample_ok (e : Z * Z) : Prop := 0 <= e.1 <= max_u64 ∧ 0 <= e.2.
Definition total (samples : list (Z * Z)) : Z := weight (λ _, true) samples.

Lemma weight_nonneg P samples : Forall sample_ok samples → 0 <= weight P samples.
Proof. induction 1 as [|[d c] l [_ Hc] _ IH]; cbn in *; [lia|]. destruct (P d); lia. Qed.

Lemma weight_mono P Q samples :
  Forall sample_ok samples → (∀ d, 0 <= d → P d = true → Q d = true) → weight P samples <= weight Q samples.
Proof.
  intros Hs HPQ. induction Hs as [|[d c] l [Hd Hc] _ IH]; cbn in *; [lia|].
  specialize (HPQ d (proj1 Hd)). destruct (P d); [rewrite HPQ by done; lia|]. destruct (Q d); lia.
Qed.

Lemma weight_le_total P samples : Forall sample_ok samples → weight P samples <= total samples.
Proof. intros Hs. by apply weight_mono. Qed.

Lemma weight_split (f : Z → Z) i samples :
  Forall sample_ok samples →
  weight (λ d, f d <=? i) samples = weight (λ d, f d <=? i - 1) samples + weight (λ d, f d =? i) samples.
Proof.
  induction 1 as [|[d c] l _ _ IH]; cbn [weight]; [done|]. rewrite IH.
  destruct (Z.leb_spec (f d) i), (Z.leb_spec (f d) (i - 1)), (Z.eqb_spec (f d) i); lia.
Qed.

(** The recorder after [samples], the most recent first. *)
Definition recordAll (samples : list (Z * Z)) : t :=
  foldr (λ e s, recordDuration s e.1 e.2) make samples.

Record recorded (samples : list (Z * Z)) (s : t) : Prop := {
  rc_buckets : ∀ i, aget (buckets s) i = weight (λ d, bucketIndex d =? i) samples;
  rc_count : count s = total samples;
  rc_range : ∀ e, e ∈ samples → 0 < e.2 → min_ns s <= e.1 <= max_ns s;
  rc_tight : 0 < total samples →
    Exists (λ e, e.1 = max_ns s ∧ 0 < e.2) samples ∧ Exists (λ e, e.1 = min_ns s ∧ 0 < e.2) samples;
  rc_fresh : total samples = 0 → min_ns s = kNoMin ∧ max_ns s = 0 }.

Lemma total_cons d c samples : total ((d, c) :: samples) = c + total samples.
Proof. done. Qed.

Lemma recorded_step d c samples s :
  sample_ok (d, c) → Forall sample_ok samples → c + total samples <= max_u64 →
  recorded samples s → recorded ((d, c) :: samples) (recordDuration s d c).
Proof.
  intros [[Hd0 Hd] Hc] Hok Htot [Hb Hn Hr Ht Hf]. cbn [fst snd] in *.
  pose proof (weight_nonneg (λ _, true) samples Hok) as Hnn. fold (total samples) in Hnn.
  unfold recordDuration. destruct (Z.eqb_spec c 0) as [->|Hc0].
  { split; try done.
    - intros i. cbn. rewrite Hb. by destruct (_ =? i).
    - intros e [->|He]%elem_of_cons; [cbn; lia|by apply Hr].
    - intros H. destruct (Ht H). split; by right. }
  split; cbn [buckets count min_ns max_ns].
  - intros i. cbn [weight]. arena. destruct (Z.eqb_spec (bucketIndex d) i) as [->|Hne].
    + arena. rewrite Hb. pose proof (weight_le_total (λ d, bucketIndex d =? i) samples Hok).
      pose proof (weight_nonneg (λ d, bucketIndex d =? i) samples Hok).
      rewrite u64_id by (unfold fits, max_u64 in *; lia). lia.
    + arena. by rewrite Hb.
  - rewrite Hn, total_cons, u64_id by (unfold fits, max_u64 in *; lia). lia.
  - intros e [->|He]%elem_of_cons Hp; [cbn; lia|]. specialize (Hr e He Hp). lia.
  - intros _. destruct (Z.eq_dec (total samples) 0) as [E|E].
    + destruct (Hf E) as [-> ->]. unfold kNoMin. rewrite Z.min_r, Z.max_r by lia. split; left; cbn; lia.
    + destruct (Ht ltac:(lia)) as [Hmax Hmin]. split.
      * destruct (Z.max_spec (max_ns s) d) as [[_ ->]|[_ ->]]; [left; cbn; lia|by right].
      * destruct (Z.min_spec (min_ns s) d) as [[_ ->]|[_ ->]]; [by right|left; cbn; lia].
  - rewrite total_cons. lia.
Qed.

Lemma recorded_all samples :
  Forall sample_ok samples → total samples <= max_u64 → recorded samples (recordAll samples).
Proof.
  induction 1 as [|[d c] l He Hl IH]; intros Htot.
  { split; try done. intros e He. by apply not_elem_of_nil in He. }
  rewrite total_cons in Htot. cbn [recordAll foldr].
  apply recorded_step; [done|done|done|]. apply IH. destruct He as [_ Hc]. cbn in Hc. lia.
Qed.

(** ** Ranks *)

(** The duration of rank [r]: fewer than [r] samples are below it, at least [r] not above. *)
Definition ranked (samples : list (Z * Z)) (r v : Z) : Prop :=
  weight (λ d, d <? v) samples < r <= weight (λ d, d <=? v) samples.

Lemma ranked_exists samples r :
  Forall sample_ok samples → 1 <= r <= total samples → ∃ v, 0 <= v ∧ ranked samples r v.
Proof.
  intros Hok Hr.
  assert (∀ n : nat, r <= weight (λ d, d <=? Z.of_nat n) samples → ∃ v, 0 <= v ∧ ranked samples r v) as Hmin.
  { assert (∀ v, weight (λ d, d <? v) samples <= weight (λ d, d <=? v - 1) samples) as Hlt.
    { intros v. apply weight_mono; [done|]. intros d _ H%Z.ltb_lt. apply Z.leb_le. lia. }
    induction n as [|n IH]; intros Hn.
    - exists 0. split; [lia|]. split; [|done]. specialize (Hlt 0).
      assert (weight (λ d, d <=? 0 - 1) samples = 0) as E; [|lia]. clear -Hok.
      induction Hok as [|[d c] l [[Hd _] _] _ IH]; [done|]. cbn in *. rewrite IH.
      destruct (Z.leb_spec d (0 - 1)); lia.
    - destruct (Z.le_gt_cases r (weight (λ d, d <=? Z.of_nat n) samples)) as [Hle|Hgt]; [by apply IH|].
      exists (Z.of_nat (S n)). split; [lia|]. split; [|done]. specialize (Hlt (Z.of_nat (S n))).
      replace (Z.of_nat (S n) - 1) with (Z.of_nat n) in Hlt by lia. lia. }
  apply (Hmin (Z.to_nat max_u64)). rewrite Z2Nat.id by done. etrans; [apply Hr|].
  unfold total. clear -Hok. induction Hok as [|[d c] l [[_ Hd] Hc] _ IH]; [done|]. cbn in *.
  rewrite (proj2 (Z.leb_le d max_u64) Hd). lia.
Qed.

(** The loop stops in the first bucket at which the cumulative count reaches the rank. *)
Lemma rankLoop_spec samples s n i r :
  Forall sample_ok samples → total samples <= max_u64 → recorded samples s →
  weight (λ d, bucketIndex d <=? i - 1) samples < r →
  r <= weight (λ d, bucketIndex d <=? i + Z.of_nat n - 1) samples →
  ∃ j, weight (λ d, bucketIndex d <=? j - 1) samples < r <= weight (λ d, bucketIndex d <=? j) samples ∧
    rankLoop s n i (weight (λ d, bucketIndex d <=? i - 1) samples) r =
    (if j =? kOverflowBucket then max_ns s else bucketUpperBoundNs j).
Proof.
  intros Hok Htot Hrec. revert i. induction n as [|n IH]; intros i Hlo Hhi.
  { replace (i + Z.of_nat 0 - 1) with (i - 1) in Hhi by lia. lia. }
  cbn [rankLoop]. rewrite (rc_buckets _ _ Hrec), <- weight_split by done.
  pose proof (weight_nonneg (λ d, bucketIndex d <=? i) samples Hok).
  pose proof (weight_le_total (λ d, bucketIndex d <=? i) samples Hok).
  rewrite u64_id by (unfold fits, max_u64 in *; lia).
  destruct (Z.leb_spec r (weight (λ d, bucketIndex d <=? i) samples)) as [Hle|Hgt]; [by exists i|].
  specialize (IH (i + 1)). replace (i + 1 - 1) with i in IH by lia. apply IH; [done|].
  by replace (i + 1 + Z.of_nat n - 1) with (i + Z.of_nat (S n) - 1) by lia.
Qed.

Lemma valueAtRank_bucket samples s r v :
  Forall sample_ok samples → total samples <= max_u64 → recorded samples s →
  1 <= r → 0 <= v → ranked samples r v →
  valueAtRank s r = (if bucketIndex v =? kOverflowBucket then max_ns s else bucketUpperBoundNs (bucketIndex v)).
Proof.
  intros Hok Htot Hrec Hr Hv [Hlo Hhi].
  assert (weight (λ d, bucketIndex d <=? 0 - 1) samples = 0) as E0.
  { clear -Hok. induction Hok as [|[d c] l [[Hd _] _] _ IH]; [done|]. cbn [weight fst] in *. rewrite IH.
    pose proof (bucketIndex_range d Hd). destruct (Z.leb_spec (bucketIndex d) (0 - 1)); lia. }
  destruct (rankLoop_spec samples s (Z.to_nat kBucketCount) 0 r Hok Htot Hrec) as (j&[Hj1 Hj2]&Hloop).
  - rewrite E0. lia.
  - etrans; [exact Hhi|]. apply weight_mono; [done|]. intros d Hd _. apply Z.leb_le.
    pose proof (bucketIndex_range d Hd). change (Z.of_nat (Z.to_nat kBucketCount)) with kBucketCount. lia.
  - rewrite E0 in Hloop. unfold valueAtRank. rewrite Hloop.
    assert (bucketIndex v = j) as ->; [|done].
    destruct (Z.lt_trichotomy (bucketIndex v) j) as [Hlt|[E|Hgt]]; [|done|].
    + assert (weight (λ d, d <=? v) samples <= weight (λ d, bucketIndex d <=? j - 1) samples); [|lia].
      apply weight_mono; [done|]. intros d Hd H%Z.leb_le. apply Z.leb_le.
      pose proof (bucketIndex_mono d v H Hd). lia.
    + assert (weight (λ d, bucketIndex d <=? j) samples <= weight (λ d, d <? v) samples); [|lia].
      apply weight_mono; [done|]. intros d Hd H%Z.leb_le. apply Z.ltb_lt.
      destruct (Z.le_gt_cases v d) as [Hle|]; [|done]. pose proof (bucketIndex_mono v d Hle Hv). lia.
Qed.

Lemma ranked_recorded samples r v :
  Forall sample_ok samples → ranked samples r v → ∃ e, e ∈ samples ∧ e.1 = v ∧ 0 < e.2.
Proof.
  intros Hok [Hlo Hhi]. assert (weight (λ d, d <? v) samples < weight (λ d, d <=? v) samples) as Hlt by lia.
  clear Hlo Hhi. induction Hok as [|[d c] l [_ Hc] _ IH]; cbn in *; [lia|].
  destruct (decide (d = v ∧ 0 < c)) as [[-> Hp]|Hne].
  { exists (v, c). split; [left|done]. }
  destruct IH as (e&He&Hev); [|exists e; split; [by right|done]].
  destruct (Z.ltb_spec d v), (Z.leb_spec d v); lia.
Qed.

(** The recorder's figures are those of the samples it was given, multiplicities
    included: the count is exact, the minimum and the maximum are recorded durations
    that bound all others, and the value it reports for a rank is, for the duration
    that has this rank among the samples, never below it and less than one bucket
    width above it: exact under 1024 ns, within 16 ns under about 67 us, within
    1024 ns under about 4.3 ms, and the maximum beyond. *)
Theorem latency_rank samples r :
  Forall sample_ok samples → total samples <= max_u64 → 1 <= r <= total samples →
  let s := recordAll samples in
  count s = total samples ∧
  (∀ e, e ∈ samples → 0 < e.2 → min_ns s <= e.1 <= max_ns s) ∧
  Exists (λ e, e.1 = max_ns s ∧ 0 < e.2) samples ∧ Exists (λ e, e.1 = min_ns s ∧ 0 < e.2) samples ∧
  ∃ v, ranked samples r v ∧ v <= valueAtRank s r ∧
    if v <? kExactBucketCount + kFineRangeNs + kCoarseRangeNs
    then valueAtRank s r - v < (if v <? kExactBucketCount then 1 else
                                if v <? kExactBucketCount + kFineRangeNs then kFineBucketWidthNs
                                else kCoarseBucketWidthNs)
    else valueAtRank s r = max_ns s.
Proof.
  intros Hok Htot Hr s. pose proof (recorded_all samples Hok Htot) as Hrec. fold s in Hrec.
  split; [apply (rc_count _ _ Hrec)|]. split; [apply (rc_range _ _ Hrec)|].
  destruct (rc_tight _ _ Hrec ltac:(lia)) as [Hmax Hmin]. split; [done|]. split; [done|].
  destruct (ranked_exists samples r Hok Hr) as (v&Hv&Hrank). exists v. split; [done|].
  rewrite (valueAtRank_bucket samples s r v) by (done || lia).
  destruct (ranked_recorded samples r v Hok Hrank) as (e&He&<-&Hc).
  pose proof (rc_range _ _ Hrec e He Hc) as Hre. pose proof (bucket_overflow e.1 Hv) as Hof.
  destruct (Z.eqb_spec (bucketIndex e.1) kOverflowBucket) as [E|E].
  - apply Hof in E. rewrite (proj2 (Z.ltb_ge _ _)) by lia. split; [lia|done].
  - rewrite (proj2 (Z.ltb_lt _ _)) by lia. by apply bucket_bound.
Qed.

Definition sampleLatencies : list (Z * Z) := [(900, 3); (70000, 2); (5000000, 1)].

Lemma latency_rank_witness :
  count (recordAll sampleLatencies) = 6 ∧
  valueAtRank (recordAll sampleLatencies) 3 = 900 ∧ valueAtRank (recordAll sampleLatencies) 5 = 70655 ∧
  valueAtRank (recordAll sampleLatencies) 6 = 5000000.
Proof.
  assert (Forall sample_ok sampleLatencies) as Hok.
  { unfold sampleLatencies. repeat (apply Forall_cons; split; [unfold sample_ok, max_u64; cbn; lia|]). constructor. }
  destruct (latency_rank sampleLatencies 3 Hok ltac:(done) ltac:(done)) as (Hc&_).
  split; [exact Hc|]. vm_compute. split_and!; reflexivity.
Defined.

End LatencyRecorder.

(** ** Stages *)

Module StageLatencyRecorder.
Import LatencyRecorder.

Record DecodeStageTiming := mkTiming {
  mold_parse_ns : Z;
  itch_total_ns : Z;
  book_ns : Z;
  t_messages : Z;
  t_book_messages : Z;
  t_skipped_messages : Z;
  t_sequenced_packets : Z;
  t_gap_packets : Z;
  t_gap_buffered_packets : Z;
  t_gap_buffer_insert_failed_packets : Z;
  t_stale_gap_dropped_packets : Z;
  t_old_packets : Z }.

Definition clear : DecodeStageTiming := mkTiming 0 0 0 0 0 0 0 0 0 0 0 0.

Record t := mkStages {
  total_stage : LatencyRecorder.t;
  recv_to_decode_start : LatencyRecorder.t;
  mold_parse : LatencyRecorder.t;
  itch_parse_state : LatencyRecorder.t;
  book : LatencyRecorder.t;
  engine_other : LatencyRecorder.t;
  packets : Z;
  messages : Z;
  book_messages : Z;
  skipped_messages : Z;
  sequenced_packets : Z;
  gap_packets : Z;
  gap_buffered_packets : Z;
  gap_buffer_insert_failed_packets : Z;
  stale_gap_dropped_packets : Z;
  old_packets : Z;
  itch_parse_state_total_ns : Z;
  book_total_ns : Z }.

(** [elapsedNs], with the calibrated cost of reading the clock. *)
Definition elapsedNs (now_ns_overhead_ns start_ns end_ns : Z) : Z :=
  if end_ns <? start_ns then 0 else
  let elapsed := end_ns - start_ns in
  if now_ns_overhead_ns <? elapsed then elapsed - now_ns_overhead_ns else 0.

(** The durations one call records, in the order of the recorders. *)
Definition durations (overhead recv_done_ns decode_start_ns done_ns : Z) (timing : DecodeStageTiming)
  : Z * Z * Z * Z * Z * Z :=
  let total_ns := if recv_done_ns <=? done_ns then elapsedNs overhead recv_done_ns done_ns else 0 in
  let recv_to_decode_ns :=
    if recv_done_ns <=? decode_start_ns then elapsedNs overhead recv_done_ns decode_start_ns else 0 in
  let itch_parse_state_ns :=
    if book_ns timing <=? itch_total_ns timing then itch_total_ns timing - book_ns timing else 0 in
  let accounted_ns :=
    u64 (recv_to_decode_ns + mold_parse_ns timing + itch_parse_state_ns + book_ns timing) in
  (total_ns, recv_to_decode_ns, mold_parse_ns timing, itch_parse_state_ns, book_ns timing,
   if accounted_ns <? total_ns then total_ns - accounted_ns else 0).

Definition record (overhead : Z) (s : t) (recv_done_ns decode_start_ns done_ns : Z) (timing : DecodeStageTiming) : t :=
  let '(total_ns, recv_to_decode_ns, mold_ns, itch_parse_state_ns, bk_ns, other_ns) :=
    durations overhead recv_done_ns decode_start_ns done_ns timing in
  mkStages
    (recordDuration (total_stage s) total_ns 1)
    (recordDuration (recv_to_decode_start s) recv_to_decode_ns 1)
    (recordDuration (mold_parse s) mold_ns 1)
    (recordDuration (itch_parse_state s) itch_parse_state_ns 1)
    (recordDuration (book s) bk_ns 1)
    (recordDuration (engine_other s) other_ns 1)
    (u64 (packets s + 1))
    (u64 (messages s + t_messages timing))
    (u64 (book_messages s + t_book_messages timing))
    (u64 (skipped_messages s + t_skipped_messages timing))
    (u64 (sequenced_packets s + t_sequenced_packets timing))
    (u64 (gap_packets s + t_gap_packets timing))
    (u64 (gap_buffered_packets s + t_gap_buffered_packets timing))
    (u64 (gap_buffer_insert_failed_packets s + t_gap_buffer_insert_failed_packets timing))
    (u64 (stale_gap_dropped_packets s + t_stale_gap_dropped_packets timing))
    (u64 (old_packets s + t_old_packets timing))
    (u64 (itch_parse_state_total_ns s + itch_parse_state_ns))
    (u64 (book_total_ns s + book_ns timing)).

Definition reset (s : t) : t :=
  mkStages (LatencyRecorder.reset (total_stage s)) (LatencyRecorder.reset (recv_to_decode_start s))
    (LatencyRecorder.reset (mold_parse s)) (LatencyRecorder.reset (itch_parse_state s))
    (LatencyRecorder.reset (book s)) (LatencyRecorder.reset (engine_other s)) 0 0 0 0 0 0 0 0 0 0 0 0.

(** The stages and the remainder add up to the packet's time whenever they fit in it. *)
Lemma stage_durations_add_up overhead recv start done_ns timing :
  fits 64 recv → fits 64 start → fits 64 done_ns → recv <= start → recv <= done_ns → 0 <= overhead →
  0 <= mold_parse_ns timing → 0 <= book_ns timing <= itch_total_ns timing →
  let total_ns := elapsedNs overhead recv done_ns in
  let recv_ns := elapsedNs overhead recv start in
  recv_ns + mold_parse_ns timing + itch_total_ns timing <= total_ns →
  let '(t, r, m, i, b, other) := durations overhead recv start done_ns timing in
  t = total_ns ∧ r = recv_ns ∧ i + b = itch_total_ns timing ∧ t = r + m + i + b + other ∧ 0 <= other.
Proof.
  intros Hr Hst Hd Hs Hrd Ho Hm Hb total_ns recv_ns Hle. unfold durations, fits in *. fold total_ns recv_ns.
  assert (0 <= total_ns < 2 ^ 64 ∧ 0 <= recv_ns) as [Ht Hrn]
    by (unfold total_ns, recv_ns, elapsedNs; cbn zeta; repeat case_if; lia).
  rewrite (proj2 (Z.leb_le recv done_ns)), (proj2 (Z.leb_le recv start)) by lia.
  rewrite (proj2 (Z.leb_le (book_ns timing) _)) by lia.
  rewrite !u64_id by (unfold fits; lia). case_if; lia.
Qed.

End StageLatencyRecorder.
