(* ===== verification/Schedule.v ===== *)
(** The send schedules of [protocol/MoldUdpControlSchedule.hpp].

    A steady-clock duration and time point are 64-bit signed counts of nanoseconds
    (libstdc++'s [steady_clock]); [i64] is the wrap-around of that type, and the
    theorems show that it never happens. *)
From stdpp Require Import base list.
From Stdlib Require Import ZArith Lia.
From S2P Require Import Prelude.
#[local] Open Scope Z_scope.
#[local] Open Scope astra_scope.

Definition min_i64 : Z := - 2 ^ 63.
Definition i64 (v : Z) : Z := (v + 2 ^ 63) mod 2 ^ 64 - 2 ^ 63.
Definition time_ok (v : Z) : Prop := min_i64 <= v <= max_i64.

Lemma i64_id v : time_ok v → i64 v = v.
Proof. unfold time_ok, min_i64, max_i64, i64. intros Hv. rewrite Z.mod_small by lia. lia. Qed.

Module MoldUdpPacketRateSchedule.

Definition kNanosecondsPerSecond : Z := 1000000000.
Definition kMaximumPacketsPerSecond : Z := kNanosecondsPerSecond.

Record t := mk { interval : Z; scheduled_deadline : option Z }.

Definition intervalFor (packets_per_second : Z) : Z :=
  if packets_per_second =? 0 then 0 else
  let whole_nanoseconds := kNanosecondsPerSecond / packets_per_second in
  let remainder := kNanosecondsPerSecond mod packets_per_second in
  u64 (whole_nanoseconds + (if remainder =? 0 then 0 else 1)).

Definition make (packets_per_second : Z) : t := mk (intervalFor packets_per_second) None.

Definition enabled (s : t) : bool := 0 <? interval s.

Definition reset (s : t) (base : Z) : t := mk (interval s) (Some base).

Definition checkedAdd (s : t) (base : Z) : option Z :=
  if i64 (max_i64 - interval s) <? base then None else Some (i64 (base + interval s)).

Definition checkedDeadlineAfterPacket (s : t) (sent_at : Z) : option Z * t :=
  if negb (enabled s) then (None, s) else
  let base := match scheduled_deadline s with
              | Some d => if sent_at <? d then d else sent_at
              | None => sent_at
              end in
  match checkedAdd s base with
  | None => (None, s)
  | Some candidate => (Some candidate, mk (interval s) (Some candidate))
  end.

(** The interval is the exact ceiling. *)
Lemma intervalFor_bound pps :
  0 < pps <= max_u64 → kNanosecondsPerSecond <= pps * intervalFor pps < kNanosecondsPerSecond + pps ∧
  0 < intervalFor pps <= kNanosecondsPerSecond.
Proof.
  intros Hp. unfold intervalFor, max_u64 in *. rewrite (proj2 (Z.eqb_neq _ _)) by lia. cbn zeta.
  pose proof (Z.div_mod kNanosecondsPerSecond pps ltac:(lia)) as Hd.
  pose proof (Z.mod_pos_bound kNanosecondsPerSecond pps ltac:(lia)) as Hm.
  set (q := kNanosecondsPerSecond / pps) in *. set (r := kNanosecondsPerSecond mod pps) in *.
  unfold kNanosecondsPerSecond in *. assert (0 <= q <= 1000000000) by nia.
  destruct (Z.eqb_spec r 0) as [E|E]; rewrite u64_id by (unfold fits; lia); nia.
Qed.

(** A deadline is at least one interval after the send, one interval after the
    previous deadline when the send was early, and otherwise rebased on the send. *)
Lemma deadline_spec s sent d s' :
  0 <= interval s <= max_i64 → time_ok sent → (∀ p, scheduled_deadline s = Some p → time_ok p) →
  checkedDeadlineAfterPacket s sent = (Some d, s') →
  d = Z.max sent (default sent (scheduled_deadline s)) + interval s ∧ time_ok d ∧
  0 < interval s ∧ s' = mk (interval s) (Some d).
Proof.
  intros Hi Hs Hp. unfold checkedDeadlineAfterPacket, enabled.
  destruct (Z.ltb_spec 0 (interval s)) as [Hpos|]; cbn [negb]; [|done].
  set (base := match scheduled_deadline s with Some _ => _ | None => _ end).
  assert (time_ok base ∧ base = Z.max sent (default sent (scheduled_deadline s))) as [Hb Eb].
  { unfold base. destruct (scheduled_deadline s) as [p|]; cbn [default from_option id]; [|split; [done|lia]].
    specialize (Hp p eq_refl). destruct (Z.ltb_spec sent p); split; done || lia. }
  unfold checkedAdd. unfold time_ok, min_i64, max_i64 in *.
  rewrite i64_id by (unfold time_ok, min_i64, max_i64; lia).
  destruct (Z.ltb_spec (9223372036854775807 - interval s) base); [done|].
  rewrite i64_id by (unfold time_ok, min_i64, max_i64; lia). cbn zeta. intros [= <- <-]. split; [lia|]. split; [lia|]. done.
Qed.

(** Packets sent at the times [ts], none before the deadline the schedule gave when
    the one before it was sent. *)
Inductive paced : t → list Z → Prop :=
  | paced_nil s : paced s []
  | paced_one s t0 : time_ok t0 → paced s [t0]
  | paced_cons s t0 t1 ts d s' :
    time_ok t0 → checkedDeadlineAfterPacket s t0 = (Some d, s') → d <= t1 → paced s' (t1 :: ts) →
    paced s (t0 :: t1 :: ts).

Lemma paced_apart s ts i j a b :
  0 <= interval s <= max_i64 → (∀ p, scheduled_deadline s = Some p → time_ok p) → paced s ts →
  (i <= j)%nat → ts !! i = Some a → ts !! j = Some b → Z.of_nat (j - i) * interval s <= b - a.
Proof.
  intros Hi Hp H. revert i j a b Hi Hp.
  induction H as [s|s t0 Ht|s t0 t1 ts d s' Ht Hd Hle H IH]; intros i j a b Hi Hp Hij Ha Hb.
  - done.
  - destruct i, j; try done. cbn in Ha, Hb. simplify_eq. cbn. lia.
  - destruct (deadline_spec s t0 d s' Hi Ht Hp Hd) as (Ed&Hdok&Hpos&->). cbn [interval scheduled_deadline] in IH.
    assert (∀ p, Some d = Some p → time_ok p) as Hp' by (by intros p [= <-]).
    destruct i as [|i].
    + cbn in Ha. injection Ha as <-. destruct j as [|j]; [cbn in Hb; simplify_eq; cbn; lia|].
      specialize (IH 0%nat j t1 b Hi Hp' ltac:(lia) eq_refl Hb). replace (S j - 0)%nat with (S (j - 0)) by lia.
      lia.
    + destruct j as [|j]; [lia|]. apply (IH i j a b); try done. lia.
Qed.

(** A sender that waits for the deadlines of the rate schedule never
    exceeds the configured rate, however late some packets were: between the i-th and
    the j-th packet at least (j - i) / rate seconds pass, and no deadline overflows the
    clock. *)
Theorem rate_schedule_bound pps ts i j a b :
  0 < pps <= max_u64 → paced (make pps) ts → (i <= j)%nat → ts !! i = Some a → ts !! j = Some b →
  Z.of_nat (j - i) * kNanosecondsPerSecond <= pps * (b - a).
Proof.
  intros Hpps Hts Hij Ha Hb. destruct (intervalFor_bound pps Hpps) as [Hlo Hi].
  assert (0 <= interval (make pps) <= max_i64) as Hint
    by (cbn; unfold max_i64, kNanosecondsPerSecond in *; lia).
  pose proof (paced_apart (make pps) ts i j a b Hint ltac:(done) Hts Hij Ha Hb) as Hap. cbn [interval make] in Hap.
  nia.
Qed.

(** Three packets at 3 per second; the second was early, the third late. *)
Lemma rate_schedule_bound_witness : Z.of_nat (2 - 0) * kNanosecondsPerSecond <= 3 * (900000000 - 100).
Proof.
  assert (paced (make 3) [100; 333333434; 900000000]) as Hp.
  { eapply paced_cons; [done|vm_compute; reflexivity|done|].
    eapply paced_cons; [done|vm_compute; reflexivity|done|]. by apply paced_one. }
  exact (rate_schedule_bound 3 _ 0 2 100 900000000 ltac:(done) Hp ltac:(lia) eq_refl eq_refl).
Defined.

End MoldUdpPacketRateSchedule.

Module MoldUdpHeartbeatSchedule.

Record t := mk { interval : Z; next_heartbeat : option Z }.

Definition make (interval : Z) : t := mk interval None.
Definition enabled (s : t) : bool := 0 <? interval s.

Definition observeTraffic (s : t) (sent_at : Z) : t :=
  if negb (enabled s) then mk (interval s) None else
  mk (interval s)
     (Some (if i64 (max_i64 - interval s) <? sent_at then max_i64 else i64 (sent_at + interval s))).

Definition nextHeartbeatBefore (s : t) (data_deadline : Z) : option Z :=
  match next_heartbeat s with
  | None => None
  | Some h => if data_deadline <=? h then None else Some h
  end.

Definition nextHeartbeat (s : t) : option Z := next_heartbeat s.

(** The schedule after the sends [sent], the most recent first. *)
Definition observed (interval : Z) (sent : list Z) : t :=
  foldr (λ t0 s, observeTraffic s t0) (make interval) sent.

Lemma observed_interval n sent : interval (observed n sent) = n.
Proof.
  induction sent as [|t0 sent IH]; [done|]. unfold observed in *. cbn [foldr].
  unfold observeTraffic at 1. by case_if.
Qed.

(** The heartbeat deadline depends on the last transmission only: a
    disabled schedule has none, an enabled one has none before the first transmission
    and afterwards exactly one interval later, held at the end of the clock; and a
    heartbeat is due before a data packet exactly when that is strictly earlier. *)
Theorem heartbeat_after_silence n sent deadline :
  n <= max_i64 → Forall time_ok sent →
  nextHeartbeat (observed n sent) =
    (if n <=? 0 then None else (λ t0, Z.min max_i64 (t0 + n)) <$> head sent) ∧
  nextHeartbeatBefore (observed n sent) deadline =
    (h ← nextHeartbeat (observed n sent); if h <? deadline then Some h else None).
Proof.
  intros Hn Hs. split.
  - destruct Hs as [|t0 sent Ht Hs]; [by destruct (n <=? 0)|].
    unfold observed. cbn [foldr]. fold (observed n sent). unfold observeTraffic, enabled, nextHeartbeat.
    rewrite observed_interval. destruct (Z.leb_spec n 0).
    { by rewrite (proj2 (Z.ltb_ge _ _)) by lia. }
    rewrite (proj2 (Z.ltb_lt _ _)) by lia. cbn [negb next_heartbeat head fmap option_fmap option_map]. f_equal.
    unfold time_ok, min_i64, max_i64 in *. rewrite i64_id by (unfold time_ok, min_i64, max_i64; lia).
    destruct (Z.ltb_spec (9223372036854775807 - n) t0); [lia|].
    rewrite i64_id by (unfold time_ok, min_i64, max_i64; lia). lia.
  - unfold nextHeartbeatBefore, nextHeartbeat. destruct (next_heartbeat _) as [h|]; cbn; [|done].
    destruct (Z.leb_spec deadline h), (Z.ltb_spec h deadline); done || lia.
Qed.

Lemma heartbeat_after_silence_witness :
  nextHeartbeatBefore (observed 1000 [5000; 10]) 7000 = Some 6000 ∧
  nextHeartbeatBefore (observed 1000 [5000; 10]) 6000 = None.
Proof.
  assert (Forall time_ok [5000; 10]) as Ht by (repeat constructor; done).
  destruct (heartbeat_after_silence 1000 [5000; 10] 7000 ltac:(done) Ht) as [Hh Hb].
  destruct (heartbeat_after_silence 1000 [5000; 10] 6000 ltac:(done) Ht) as [_ Hb'].
  rewrite Hb, Hb', Hh. vm_compute. split; reflexivity.
Defined.

End MoldUdpHeartbeatSchedule.

Module MoldUdpEndOfSessionSchedule.

Record t := mk { packet_count : Z; interval : Z }.

Definition checkedDeadline (s : t) (first_send packet_index : Z) : option Z :=
  if (packet_index =? 0) || (interval s <=? 0) then Some first_send else
  let interval_count := interval s in
  if interval_count <=? 0 then None else
  let maximum_index := u64 (Z.quot max_i64 interval_count) in
  if maximum_index <? packet_index then None else
  let delay := i64 (interval s * i64 packet_index) in
  if i64 (max_i64 - delay) <? first_send then None else Some (i64 (first_send + delay)).

Definition checkedDeadlineAfterSend (s : t) (successful_send : Z) : option Z :=
  checkedDeadline s successful_send 1.

Definition deadline (s : t) (first_send packet_index : Z) : Z :=
  default max_i64 (checkedDeadline s first_send packet_index).

(** The deadline of the i-th end-of-session copy is exactly i intervals
    after the first send (the first send itself for a schedule without an interval), or
    absent exactly when the delay or the deadline would leave the range of the clock:
    no intermediate product or sum overflows, for every index and interval. *)
Theorem eos_deadline_exact s first_send packet_index :
  interval s <= max_i64 → time_ok first_send → 0 <= packet_index <= max_u64 →
  let delay := Z.max 0 (interval s) * packet_index in
  checkedDeadline s first_send packet_index =
    (if decide (delay <= max_i64 ∧ first_send + delay <= max_i64) then Some (first_send + delay) else None) ∧
  deadline s first_send packet_index =
    (if decide (delay <= max_i64 ∧ first_send + delay <= max_i64) then first_send + delay else max_i64).
Proof.
  intros Hi Hf Hx delay.
  assert (checkedDeadline s first_send packet_index =
    (if decide (delay <= max_i64 ∧ first_send + delay <= max_i64) then Some (first_send + delay) else None)) as E.
  2: { split; [exact E|]. unfold deadline. rewrite E. by case_decide. }
  unfold checkedDeadline, time_ok, min_i64, max_i64 in *.
  destruct (Z.eqb_spec packet_index 0) as [->|Hx0]; cbn [orb].
  { unfold delay. rewrite Z.mul_0_r, Z.add_0_r. rewrite decide_True by lia. done. }
  destruct (Z.leb_spec (interval s) 0) as [Hn|Hp].
  { unfold delay. rewrite Z.max_l, Z.mul_0_l, Z.add_0_r by lia. rewrite decide_True by lia. done. }
  unfold delay. rewrite Z.max_r by lia. cbn zeta.
  rewrite Z.quot_div_nonneg by lia.
  pose proof (Z.div_mod (9223372036854775807) (interval s) ltac:(lia)) as Hd.
  pose proof (Z.mod_pos_bound (9223372036854775807) (interval s) ltac:(lia)) as Hm.
  set (q := (9223372036854775807) / interval s) in *. assert (0 <= q < 2 ^ 63) as Hq by nia.
  rewrite u64_id by (unfold fits; lia).
  destruct (Z.ltb_spec q packet_index) as [Hbig|Hfit].
  { rewrite decide_False; [done|]. nia. }
  assert (0 <= interval s * packet_index <= 9223372036854775807) as Hprod by nia.
  rewrite (i64_id packet_index) by (unfold time_ok, min_i64, max_i64; lia).
  rewrite (i64_id (interval s * packet_index)) by (unfold time_ok, min_i64, max_i64; lia).
  rewrite (i64_id (9223372036854775807 - _)) by (unfold time_ok, min_i64, max_i64; lia).
  destruct (Z.ltb_spec (9223372036854775807 - interval s * packet_index) first_send).
  { rewrite decide_False by lia. done. }
  rewrite i64_id by (unfold time_ok, min_i64, max_i64; lia). rewrite decide_True by lia. done.
Qed.

Lemma eos_deadline_exact_witness :
  deadline (mk 3 1000) 5000 2 = 7000 ∧ checkedDeadline (mk 3 (2 ^ 62)) 0 2 = None.
Proof.
  destruct (eos_deadline_exact (mk 3 1000) 5000 2 ltac:(done) ltac:(done) ltac:(done)) as [_ H1].
  destruct (eos_deadline_exact (mk 3 (2 ^ 62)) 0 2 ltac:(done) ltac:(done) ltac:(done)) as [H2 _].
  rewrite H1, H2. vm_compute. split; reflexivity.
Defined.

End MoldUdpEndOfSessionSchedule.
