(* ===== verification/Engine.v ===== *)
(** The receive loop of [engine/MarketDataEngine.{hpp,cpp}].

    A packet view is the bytes of a datagram ([None] for a null pointer) and the ticks
    at which it was received.  [turn] is one iteration of the loop of [run]; another
    thread may call [stop] between any two iterations, so an execution is a sequence
    of both ([steps]).  The diagnostic on the error stream is left out. *)
From stdpp Require Import base list gmap strings.
From Stdlib Require Import ZArith Lia Ascii.
From S2P Require Import Prelude Gap Protocol Parser Decoder DecoderInv DecoderProps Latency.
#[local] Open Scope Z_scope.
#[local] Open Scope astra_scope.

Definition PacketView : Type := option (list Z) * Z.

(** [IMarketDataSource::next]; [None] for [false]. *)
Class IMarketDataSource (S : Type) := src_next : S → option PacketView * S.
#[global] Hint Mode IMarketDataSource ! : typeclass_instances.
(** [IPacketProcessor::processPacket]. *)
Class IPacketProcessor (D : Type) := pp_process : D → PacketView → DecodeResult * D.
#[global] Hint Mode IPacketProcessor ! : typeclass_instances.

(** The decoder as a packet processor. *)
Definition decoder_processor {B P} `{RecoveryBuffer B, MessageSink P} (elapsed : Z → Z) :
  IPacketProcessor (MoldUdpDecoder.t B P) :=
  λ d packet, MoldUdpDecoder.processPacket elapsed d packet.1 packet.2.

Record EngineConfig := mkConfig {
  enable_latency_metrics : bool;
  enable_stage_latency_metrics : bool;
  stop_on_decode_error : bool;
  stop_on_sequence_gap : bool }.

Module MarketDataEngine.

Section engine.
Context {S D : Type} `{IMarketDataSource S, IPacketProcessor D}.

Record t := mk {
  source : S;
  processor : D;
  latency_recorder : LatencyRecorder.t;
  config : EngineConfig;
  running : bool }.

Definition make (s : S) (d : D) (r : LatencyRecorder.t) (c : EngineConfig) : t := mk s d r c true.

(** [running_.exchange(false)]. *)
Definition stop (e : t) : bool * t :=
  (running e, mk (source e) (processor e) (latency_recorder e) (config e) false).

Definition isRunning (e : t) : bool := running e.

Definition with_source (e : t) (s : S) : t := mk s (processor e) (latency_recorder e) (config e) (running e).
Definition with_processor (e : t) (d : D) : t := mk (source e) d (latency_recorder e) (config e) (running e).
Definition with_latency (e : t) (r : LatencyRecorder.t) : t := mk (source e) (processor e) r (config e) (running e).

(** What the loop does with a decode result. *)
Definition handleResult (e : t) (result : DecodeResult) : t :=
  let latency_enabled := enable_latency_metrics (config e) in
  if bool_decide (status result = EndOfStream) then snd (stop e) else
  if negb (bool_decide (status result = Ok)) then
    if isTerminalDecodeFailure (status result) || stop_on_decode_error (config e) then snd (stop e) else e
  else
  if had_gap result && stop_on_sequence_gap (config e) then snd (stop e) else
  if latency_enabled && negb (latency_sample_count result =? 0)
  then with_latency e (LatencyRecorder.recordDuration (latency_recorder e)
         (latency_total_ns result / latency_sample_count result) (latency_sample_count result))
  else e.

(** One iteration of the loop. *)
Definition turn (e : t) : t :=
  let '(packet, s) := src_next (source e) in
  let e := with_source e s in
  match packet with
  | None => e
  | Some packet =>
    let '(result, d) := pp_process (processor e) packet in
    handleResult (with_processor e d) result
  end.

(** [while (running_)], at most [n] iterations. *)
Fixpoint run (n : nat) (e : t) : t :=
  match n with
  | O => e
  | Datatypes.S n => if running e then run n (turn e) else e
  end.

(** One step of an execution, with the packet it processed. *)
Inductive step : t → list PacketView → t → Prop :=
  | step_idle e s :
    running e = true → src_next (source e) = (None, s) → step e [] (turn e)
  | step_packet e packet s :
    running e = true → src_next (source e) = (Some packet, s) → step e [packet] (turn e)
  | step_stop e : step e [] (snd (stop e)).

Inductive steps : t → list PacketView → t → Prop :=
  | steps_refl e : steps e [] e
  | steps_step e1 ps e2 qs e3 : steps e1 ps e2 → step e2 qs e3 → steps e1 (ps ++ qs) e3.

(** [run] is an execution without a foreign stop. *)
Lemma steps_left e ps e' qs e'' : step e ps e' → steps e' qs e'' → steps e (ps ++ qs) e''.
Proof.
  intros Hs Hss. revert Hs. induction Hss as [e'|e1 qs1 e2 qs2 e3 _ IH Hst]; intros Hs.
  - rewrite (right_id [] (++)), <- (left_id [] (++) ps). eapply steps_step; [constructor|done].
  - rewrite (assoc (++)). eapply steps_step; [by apply IH|done].
Qed.

Lemma engine_run_steps n e : ∃ ps, steps e ps (run n e).
Proof.
  revert e. induction n as [|n IH]; intros e; cbn [run]; [exists []; constructor|].
  destruct (running e) eqn:Er; [|exists []; constructor].
  destruct (IH (turn e)) as [qs Hq]. destruct (src_next (source e)) as [[packet|] s] eqn:En.
  - exists ([packet] ++ qs). eapply steps_left; [by eapply step_packet|done].
  - exists ([] ++ qs). eapply steps_left; [by eapply step_idle|done].
Qed.

Lemma handleResult_processor e result : processor (handleResult e result) = processor e.
Proof. unfold handleResult. by repeat case_if. Qed.

End engine.
#[global] Arguments t S D : clear implicits.

End MarketDataEngine.
