(* ===== verification/EngineProps.v ===== *)
(** The properties of the receive loop: it is a driver of the decoder that stops
    with it, and it completes a loss-free session. *)
From stdpp Require Import base list gmap strings.
From Stdlib Require Import ZArith Lia Ascii.
From S2P Require Import Prelude Bits BookTypes Orders BookOps Directory Manager ManagerInv Probe.
From S2P Require Import Gap Protocol Parser ParserInv ManagerProps ParserProps Decoder DecoderInv DecoderProps.
From S2P Require Import Replay ReplayInv ReplayProps SessionProps Latency Engine.
#[local] Open Scope Z_scope.
#[local] Open Scope astra_scope.

Module EngineProps.
Import Protocol MoldUdpDecoder.

(** ** The status of a call and the status of the decoder *)

Section terminal.
Context {B : Type} `{RecoveryBuffer B} {P : Type} `{MessageSink P}.
Context (elapsed : Z → Z).
Implicit Types d : MoldUdpDecoder.t B P.

(** The channel of a stream that has ended. *)
Definition closed d : Prop :=
  phase (channel d) = EndOfMessages ∧ health (channel d) = Good ∧ buffer_empty d = true.

Lemma closed_guard d b :
  negb (bool_decide (health (channel d) = Good)) || negb (buffer_empty d) || b = false →
  negb (bool_decide (phase (channel d) = EndOfMessages)) = false → closed d.
Proof.
  intros [[H1%negb_false_iff%bool_decide_eq_true H2%negb_false_iff]%orb_false_iff _]%orb_false_iff
    H3%negb_false_iff%bool_decide_eq_true. done.
Qed.

(** The call leaves the decoder running, or reports the terminal status it leaves; a
    stream only ends with its channel closed. *)
Definition reports (res : DecodeResult * MoldUdpDecoder.t B P) : Prop :=
  terminal_status (snd res) = Ok ∨
  (status (fst res) = terminal_status (snd res) ∧
   ((status (fst res) = EndOfStream ∧ closed (snd res)) ∨ isTerminalDecodeFailure (status (fst res)) = true)).

Lemma failure_reports d s : isTerminalDecodeFailure s = true → reports (terminalFailure d s).
Proof. intros Hs. right. by split; [|right]. Qed.

Lemma messageLoop_status d data size start n offset sq processed :
  let '(s, _, d') := messageLoop d data size start n offset sq processed in
  terminal_status d' = terminal_status d ∧ (s = Ok ∨ isTerminalDecodeFailure s = true).
Proof.
  revert d offset sq processed. induction n as [|n IH]; intros d offset sq processed; cbn [messageLoop].
  { split; [done|by left]. }
  destruct (Nat.ltb _ _); [split; [done|by right]|]. destruct (_ || _); [split; [done|by right]|].
  destruct (_ <=? _); [|apply IH]. destruct (negb _); [split; [done|by right]|].
  match goal with |- context [messageLoop ?d0 _ _ _ _ ?o ?q ?k] => specialize (IH d0 o q k) end.
  by destruct (messageLoop _ _ _ _ _ _ _ _) as [[s k] d'].
Qed.

Lemma processSequencedPacket_status d data size first n start ticks :
  let res := processSequencedPacket elapsed d data size first n start ticks in
  terminal_status (snd res) = terminal_status d ∧
  (status (fst res) = Ok ∨ isTerminalDecodeFailure (status (fst res)) = true).
Proof.
  unfold processSequencedPacket. destruct (_ || _); [split; [done|by right]|].
  pose proof (messageLoop_status d data size start (Z.to_nat n) (Z.to_nat kHeaderSize) first 0) as Hm.
  destruct (messageLoop _ _ _ _ _ _ _ _) as [[s k] d']. destruct Hm as [Ht Hs].
  destruct (negb (bool_decide (s = Ok))); [by split|]. destruct (_ && _); (split; [done|by left]).
Qed.

Lemma drainLoop_status fuel d agg r d' :
  status agg = Ok → drainLoop elapsed fuel d agg = Some (r, d') →
  terminal_status d' = terminal_status d ∧ (status r = Ok ∨ isTerminalDecodeFailure (status r) = true).
Proof.
  revert d agg. induction fuel as [|fuel IH]; intros d agg Ha; cbn [drainLoop]; [done|].
  destruct (candidate d) as [pk|]; [|intros [= <- <-]; split; [done|by left]].
  destruct (_ <=? _); [apply (IH (erase d (seq pk))); done|].
  pose proof (processSequencedPacket_status d (data pk) (Z.to_nat (len pk)) (seq pk) (msg_count pk)
    (next_expected_seq (channel d)) (receive_start_ticks pk)) as Hp.
  destruct (processSequencedPacket _ _ _ _ _ _ _ _) as [res d1]. cbn [fst snd] in Hp. destruct Hp as [Ht Hs].
  case_bool_decide as Eok; cbn [negb].
  - intros Hd. destruct (IH _ (mergeLatency agg res) Ha Hd) as [Ht' Hs']. by rewrite <- Ht.
  - intros [= <- <-]. split; [done|]. cbn. by destruct Hs as [?|?]; [done|right].
Qed.

Lemma settle_reports d r g : terminal_status d = Ok → status r = Ok → reports (settle d r g).
Proof.
  intros Ht Hr. unfold settle. set (d1 := if _ && _ then _ else d).
  assert (terminal_status d1 = Ok) as Ht1.
  { unfold d1. destruct (negb _ && _); [|done]. by destruct (negb _ && _). }
  clearbody d1. cbn zeta. unfold resolvePendingEndOfStream.
  destruct (_ || _); [by left|]. destruct (_ <? _); [by apply failure_reports|].
  destruct (_ || _) eqn:E1; [by left|]. destruct (negb (bool_decide (phase _ = _))) eqn:E2; [by apply failure_reports|].
  enum. right. split; [done|]. left. split; [done|]. exact (closed_guard d1 _ E1 E2).
Qed.

Lemma processPacket_reports d packet ticks :
  terminal_status d = Ok → reports (processPacket elapsed d packet ticks).
Proof.
  intros Ht. unfold processPacket. rewrite (bool_decide_eq_true_2 _ Ht). cbn [negb].
  destruct packet as [data|]; [|by left]. destruct (_ <? _); [by left|].
  destruct (_ && negb _); [by apply failure_reports|]. destruct (_ && negb _); [by apply failure_reports|].
  set (d1 := if first_packet_seen d then d else _).
  assert (terminal_status d1 = Ok) as Ht1 by (unfold d1; by destruct (first_packet_seen d)). clearbody d1.
  cbn zeta. destruct (_ =? kEndOfSessionMessageCount).
  { unfold processEndOfSession. destruct (_ || _); [by apply failure_reports|].
    destruct (_ <? _); [destruct (_ || _); [by apply failure_reports|by left]|].
    destruct (_ || _) eqn:E1; [by apply failure_reports|]. destruct (negb (bool_decide (phase _ = _))) eqn:E2; [by apply failure_reports|].
    right. split; [done|]. left. split; [done|]. exact (closed_guard d1 _ E1 E2). }
  destruct (_ =? 0).
  { unfold processHeartbeat. destruct (_ && _); [by apply failure_reports|].
    destruct (_ <? _); [left; cbn [snd]; by destruct (_ && _)|].
    destruct (_ && _); left; cbn [snd]; [by destruct (_ && _)|done]. }
  unfold processSequenced. destruct (_ <? _); [by apply failure_reports|].
  destruct (decide (validateSequencedPacket data (length data) (readU16BE data 18) = Ok)) as [Ev|Ev].
  2: { rewrite (bool_decide_eq_false_2 _ Ev). apply failure_reports, DecoderInv.validate_failure, Ev. }
  rewrite (bool_decide_eq_true_2 _ Ev). cbn [negb].
  destruct (_ && _); [by apply failure_reports|]. destruct (_ <=? _); [by left|].
  destruct (_ <? _).
  { unfold bufferAhead. destruct (bool_decide _); [by left|]. destruct (_ <? _); [by apply failure_reports|].
    destruct (rb_insert _ _) as [[] b]; try by left. by apply failure_reports. }
  unfold applyPacket. cbn zeta. set (start := if _ <? _ then _ else _).
  pose proof (processSequencedPacket_status d1 data (length data) (readU64BE data 10) (readU16BE data 18) start ticks) as Hp.
  destruct (processSequencedPacket _ _ _ _ _ _ _ _) as [res d2]. cbn [fst snd] in Hp. destruct Hp as [Ht2 Hs].
  case_bool_decide as Eok; cbn [negb]; [|apply failure_reports; by destruct Hs].
  set (d3 := set_expected _ _). assert (terminal_status d3 = Ok) as Ht3.
  { unfold d3. cbn. destruct (bool_decide _); cbn; congruence. } clearbody d3.
  unfold drainGapBuffer. destruct (drainLoop _ _ _ _) as [[r d4]|] eqn:Ed; cbn [default from_option id].
  - destruct (drainLoop_status _ _ (only Ok) _ _ eq_refl Ed) as [Ht4 Hr].
    case_bool_decide as Er; cbn [negb]; [|apply failure_reports; by destruct Hr].
    apply settle_reports; [congruence|done].
  - enum. by apply settle_reports.
Qed.

(** A decoder that has seen the end of its stream is closed. *)
Lemma run_closed ps d : (terminal_status d = EndOfStream → closed d) →
  terminal_status (DecoderProps.run elapsed d ps) = EndOfStream → closed (DecoderProps.run elapsed d ps).
Proof.
  revert d. induction ps as [|pk ps IH]; intros d Hd; [exact Hd|].
  change (DecoderProps.run elapsed d (pk :: ps)) with (DecoderProps.run elapsed (snd (processPacket elapsed d pk.1 pk.2)) ps).
  apply IH. destruct (decide (terminal_status d = Ok)) as [Hok|Hne].
  - intros He. destruct (processPacket_reports d pk.1 pk.2 Hok) as [Ho|[Hs [[_ Hc]|Hf]]]; [congruence|exact Hc|].
    rewrite Hs, He in Hf. discriminate Hf.
  - assert (snd (processPacket elapsed d pk.1 pk.2) = d) as E by (unfold processPacket; by rewrite (bool_decide_eq_false_2 _ Hne)).
    rewrite E. exact Hd.
Qed.

End terminal.

(** ** Executions *)

Section engine.
Context {S : Type} `{IMarketDataSource S} {B : Type} `{RecoveryBuffer B} {P : Type} `{MessageSink P}.
Context (elapsed : Z → Z).
#[local] Hint Extern 0 (IPacketProcessor _) => exact (decoder_processor elapsed) : typeclass_instances.
Import MarketDataEngine.
Implicit Types e : MarketDataEngine.t S (MoldUdpDecoder.t B P).

Lemma turn_packet e packet s :
  src_next (source e) = (Some packet, s) →
  turn e = handleResult (with_processor (with_source e s)
    (snd (processPacket elapsed (processor e) packet.1 packet.2)))
    (fst (processPacket elapsed (processor e) packet.1 packet.2)).
Proof.
  intros Hn. unfold turn. rewrite Hn. cbn [processor with_source].
  unfold pp_process, decoder_processor. by destruct (processPacket _ _ _ _).
Qed.

(** The loop goes on only if the result was not terminal and not one it was
    configured to stop at. *)
Lemma handleResult_running e r :
  running (handleResult e r) = true →
  status r ≠ EndOfStream ∧ isTerminalDecodeFailure (status r) = false ∧
  (stop_on_decode_error (config e) = true → status r = Ok) ∧
  (stop_on_sequence_gap (config e) = true → status r = Ok → had_gap r = false).
Proof.
  unfold handleResult. case_bool_decide as E1; [done|]. case_bool_decide as E2; cbn [negb].
  - destruct (had_gap r && stop_on_sequence_gap (config e)) eqn:Eg; [done|]. intros _. split; [done|].
    split; [by rewrite E2|]. split; [done|]. intros Hc _. rewrite Hc, andb_true_r in Eg. done.
  - destruct (isTerminalDecodeFailure (status r)) eqn:Ef; cbn [orb]; [done|].
    destruct (stop_on_decode_error (config e)) eqn:Ec; [done|]. done.
Qed.

(** The result of every processed packet. *)
Fixpoint results (d : MoldUdpDecoder.t B P) (ps : list PacketView) : list DecodeResult :=
  match ps with
  | [] => []
  | p :: ps => let res := processPacket elapsed d p.1 p.2 in fst res :: results (snd res) ps
  end.

Lemma results_snoc d ps p :
  results d (ps ++ [p]) =
  results d ps ++ [fst (processPacket elapsed (DecoderProps.run elapsed d ps) p.1 p.2)].
Proof.
  revert d. induction ps as [|q ps IH]; intros d; [done|]. cbn [app results]. by rewrite IH.
Qed.

(** What an execution keeps. *)
Record driven (d0 : MoldUdpDecoder.t B P) (c : EngineConfig) (ps : list PacketView) e : Prop := {
  dr_processor : processor e = DecoderProps.run elapsed d0 ps;
  dr_config : config e = c;
  dr_running : running e = true →
    terminal_status (processor e) = Ok ∧
    Forall (λ res, status res ≠ EndOfStream ∧ isTerminalDecodeFailure (status res) = false ∧
                   (stop_on_decode_error c = true → status res = Ok) ∧
                   (stop_on_sequence_gap c = true → status res = Ok → had_gap res = false))
           (results d0 ps) }.

Lemma handleResult_config e r : config (handleResult e r) = config e.
Proof. unfold handleResult. by repeat case_if. Qed.

Lemma driven_step d0 c ps e qs e' : driven d0 c ps e → step e qs e' → driven d0 c (ps ++ qs) e'.
Proof.
  intros [Hp Hc Hr] Hst. destruct Hst as [e s Hrun Hn|e packet s Hrun Hn|e].
  - rewrite (right_id [] (++)). unfold turn. rewrite Hn. by split.
  - rewrite (turn_packet e packet s Hn). set (res := processPacket elapsed (processor e) packet.1 packet.2).
    destruct (Hr Hrun) as [Hok Hall]. split.
    + rewrite handleResult_processor, DecoderProps.run_app. cbn. by rewrite <- Hp.
    + by rewrite handleResult_config.
    + rewrite handleResult_processor. intros Hgo. apply handleResult_running in Hgo. cbn [config with_processor with_source] in Hgo.
      rewrite Hc in Hgo. split.
      * destruct (processPacket_reports elapsed (processor e) packet.1 packet.2 Hok) as [Ho|[_ Hend]]; [exact Ho|].
        fold res in Hend. destruct Hgo as (Hne&Hnf&_). destruct Hend as [[? _]|Hf]; [done|]. by rewrite Hf in Hnf.
      * rewrite results_snoc. apply Forall_app. split; [done|]. rewrite <- Hp. by constructor.
  - rewrite (right_id [] (++)). by split.
Qed.

Lemma driven_steps d0 c s r ps e :
  terminal_status d0 = Ok → steps (make s d0 r c) ps e → driven d0 c ps e.
Proof.
  intros Ht Hs. remember (make s d0 r c) as e0 eqn:E0. revert E0.
  induction Hs as [e|e1 ps e2 qs e3 _ IH Hst]; intros ->.
  - split; [done|done|]. by split; [|constructor].
  - by eapply driven_step; [apply IH|].
Qed.

Lemma stopped_steps e ps e' : steps e ps e' → running e = false →
  ps = [] ∧ running e' = false ∧ processor e' = processor e.
Proof.
  induction 1 as [e|e1 ps e2 qs e3 _ IH Hst]; intros Hr; [done|].
  destruct (IH Hr) as (->&Hr2&Hp). destruct Hst; [congruence|congruence|done].
Qed.

(** In every interleaving of the receive loop with calls of stop from other
    threads: the decoder is in the state the packets polled so far, in that order, lead
    to, none skipped and none after the stop; and while the engine is still running the
    decoder has no terminal status, no result was one the configuration stops at, and
    no result ended the stream.  Once stopped it never runs again. *)
Theorem engine_drives_decoder s d0 r c ps e :
  terminal_status d0 = Ok → steps (make s d0 r c) ps e →
  processor e = DecoderProps.run elapsed d0 ps ∧ config e = c ∧
  (running e = true →
     terminal_status (processor e) = Ok ∧
     Forall (λ res, status res ≠ EndOfStream ∧ isTerminalDecodeFailure (status res) = false ∧
                    (stop_on_decode_error c = true → status res = Ok) ∧
                    (stop_on_sequence_gap c = true → status res = Ok → had_gap res = false))
            (results d0 ps)) ∧
  (running e = false → ∀ qs e', steps e qs e' → qs = [] ∧ running e' = false ∧ processor e' = processor e).
Proof.
  intros Ht Hs. destruct (driven_steps d0 c s r ps e Ht Hs) as [Hp Hc Hr]. split_and!; [done|done|done|].
  intros Hstop qs e' Hs'. by apply stopped_steps.
Qed.

(** ** A whole session *)

(** A packet that is decoded without an error or a gap keeps the loop going. *)
Lemma turn_quiet e packet s :
  src_next (source e) = (Some packet, s) →
  let res := processPacket elapsed (processor e) packet.1 packet.2 in
  status (fst res) = Ok → had_gap (fst res) = false →
  source (turn e) = s ∧ processor (turn e) = snd res ∧ running (turn e) = running e.
Proof.
  intros Hn res Hok Hgap. rewrite (turn_packet e packet s Hn). unfold handleResult. fold res.
  rewrite Hok, Hgap. enum. by case_if.
Qed.

Lemma turn_idle e s :
  src_next (source e) = (None, s) →
  source (turn e) = s ∧ processor (turn e) = processor e ∧ running (turn e) = running e.
Proof. intros Hn. unfold turn. by rewrite Hn. Qed.

Lemma turn_end e packet s :
  src_next (source e) = (Some packet, s) →
  let res := processPacket elapsed (processor e) packet.1 packet.2 in
  status (fst res) = EndOfStream → processor (turn e) = snd res ∧ running (turn e) = false.
Proof. intros Hn res Hend. rewrite (turn_packet e packet s Hn). unfold handleResult. fold res. by rewrite Hend. Qed.

Lemma run_stopped n e : running e = false → run n e = e.
Proof. intros Hr. destruct n; [done|]. cbn. by rewrite Hr. Qed.

End engine.

(** A source that answers each poll with the next entry of a list, and with nothing
    when the list is used up. *)
#[global] Instance polls_source : IMarketDataSource (list (option PacketView)) :=
  λ polls, match polls with [] => (None, []) | p :: polls => (p, polls) end.

Section session.
Context {B : Type} `{RecoveryBuffer B} {P : Type} `{MessageSink P}.
Context (elapsed : Z → Z).
#[local] Hint Extern 0 (IPacketProcessor _) => exact (decoder_processor elapsed) : typeclass_instances.
Import MarketDataEngine ReplayInv ReplayProps SessionProps.
Implicit Types e : MarketDataEngine.t (list (option PacketView)) (MoldUdpDecoder.t B P).

(** The loop over polls that bring the packets [arrivals] and then [last], which ends
    the stream. *)
Lemma run_polls polls e arrivals last n :
  running e = true → source e = polls → omap (λ p, p) polls = arrivals ++ [last] → (length polls <= n)%nat →
  quiet elapsed (processor e) arrivals →
  let res := processPacket elapsed (DecoderProps.run elapsed (processor e) arrivals) last.1 last.2 in
  status (fst res) = EndOfStream →
  running (run n e) = false ∧ processor (run n e) = snd res.
Proof.
  revert e arrivals n. induction polls as [|p polls IH]; intros e arrivals n Hr Hsrc Hps Hn Hq res Hend.
  { by destruct arrivals. }
  destruct n as [|n]; [cbn in Hn; lia|]. cbn [run length] in *. rewrite Hr.
  assert (src_next (source e) = (p, polls)) as Hnext by (by rewrite Hsrc).
  destruct p as [packet|].
  - cbn in Hps. destruct arrivals as [|a arrivals]; injection Hps as -> Hps.
    + destruct (turn_end elapsed e last polls Hnext Hend) as [Hp Hs]. by rewrite run_stopped.
    + destruct Hq as [[Hok Hgap] Hq].
      destruct (turn_quiet elapsed e a polls Hnext Hok Hgap) as (Hs1&Hp1&Hr1).
      destruct (IH (turn e) arrivals n) as [Hd1 Hd2]; rewrite ?Hp1; try done; [congruence|lia|].
      split; [exact Hd1|]. rewrite Hd2, Hp1. done.
  - cbn in Hps. destruct (turn_idle elapsed e polls Hnext) as (Hs1&Hp1&Hr1).
    destruct (IH (turn e) arrivals n) as [Hd1 Hd2]; rewrite ?Hp1; try done; [congruence|lia|].
    split; [exact Hd1|]. rewrite Hd2, Hp1. done.
Qed.

(** C5. Liveness of the whole receiver on a loss-free line: for every complete
    archive whose records the parser accepts and which leaves it at end of messages,
    every choice of packet sizes and every configuration, an engine whose polls bring
    the replay's packets in order, with any number of empty polls between them, and then
    the end-of-session marker, stops by itself within as many iterations as there are
    polls; the decoder has accepted the end of the stream and the parser has been given
    every record. *)
Theorem engine_completes_session policy ms file path session n sizes (p0 : P) id r c fuel :
  archive policy ms file → Z.of_nat (length ms) < 2 ^ 63 →
  (length session <= 10)%nat → 0 < n →
  Forall (λ n, 0 < n < 65536) sizes → (length ms <= length sizes)%nat →
  (∀ i, (0 < i <= length ms)%nat → ms_error (DecoderInv.handle_all (take i ms) p0) = ""%string) →
  ms_phase (DecoderInv.handle_all ms p0) = EndOfMessages →
  let '(ps, s) := drive sizes (ItchMoldUdpSource.make (Some file) path session n policy) in
  ∀ polls arrivals ticks,
    arrivals.*1 = Some <$> ps → (length polls <= fuel)%nat →
    omap (λ p, p) polls = arrivals ++ [(Some (makeMoldEndOfSessionPacket session (ItchMoldUdpSource.next_seq s)), ticks)] →
    let e := run fuel (make polls (MoldUdpDecoder.make (B := B) p0 id 1) r c) in
    running e = false ∧ endOfStreamAccepted (processor e) = true ∧
    parser (processor e) = DecoderInv.handle_all ms p0.
Proof.
  intros Harc Hlen Hse Hn Hsizes Hmany Hclean Hphase.
  pose proof (replay_in_order (B := B) elapsed policy ms file path session n sizes p0 id Harc Hlen Hse Hn Hsizes Hmany
    Hclean Hphase) as Hio.
  destruct (drive sizes _) as [ps s]. intros polls arrivals ticks Ha Hf Hp e.
  destruct (Hio arrivals ticks Ha) as (Hq&Hend&Hacc&Hpar).
  destruct (run_polls polls (make polls (MoldUdpDecoder.make p0 id 1) r c) arrivals _ fuel eq_refl eq_refl Hp Hf Hq Hend)
    as [H1 H2]. split; [exact H1|].
  split; [etrans; [exact (f_equal endOfStreamAccepted H2)|exact Hacc]|etrans; [exact (f_equal parser H2)|exact Hpar]].
Qed.

End session.

(** ** The short archive, with idle polls *)

Import MarketDataEngine ReplayInv ReplayProps SessionProps.
#[local] Existing Instance DecoderProps.smallBuffer.
#[local] Hint Extern 0 (IPacketProcessor _) => exact (decoder_processor (λ _, 0)) : typeclass_instances.

Definition strict : EngineConfig := mkConfig true false true true.

Definition eosOf (s : ItchMoldUdpSource.t) : option (list Z) * Z :=
  (Some (makeMoldEndOfSessionPacket sessionA (ItchMoldUdpSource.next_seq s)), 0).
Definition inOrder (ps : list (list Z)) : list (option (list Z) * Z) := (λ p, (Some p, 0)) <$> ps.

Lemma inOrder_packets ps : (inOrder ps).*1 = Some <$> ps.
Proof. unfold inOrder. by rewrite <- list_fmap_compose. Qed.

(** An empty poll before every packet. *)
Definition withIdle (ps : list PacketView) : list (option PacketView) := ps ≫= λ p, [None; Some p].

Lemma withIdle_packets ps : omap (λ p, p) (withIdle ps) = ps.
Proof. induction ps as [|p ps IH]; [done|]. cbn. f_equal. exact IH. Qed.

Abbreviation sessionPolls :=
  (withIdle (inOrder (fst (shortReplay 9)) ++ [eosOf (snd (shortReplay 9))])).
Abbreviation finalEngine :=
  (run (D := MoldUdpDecoder.t GapBuffer.t ItchParser.t) 20
     (make sessionPolls (MoldUdpDecoder.make DecoderProps.p1 0 1) LatencyRecorder.make strict)).

Lemma sessionPolls_length : Nat.leb (length sessionPolls) 20 = true.
Proof. vm_compute. reflexivity. Qed.

Lemma engine_completes_session_witness :
  running finalEngine = false ∧ endOfStreamAccepted (processor finalEngine) = true.
Proof.
  pose proof (engine_completes_session (B := GapBuffer.t) (λ _, 0) RequireTerminator shortDay shortFile "" sessionA 20
    (sizesOf 9) DecoderProps.p1 0 LatencyRecorder.make strict 20 shortDay_archive eq_refl ltac:(cbn; lia) ltac:(lia)
    (sizes_ok 9) ltac:(cbn; lia) shortDay_accepted shortDay_ends) as H.
  rewrite (surjective_pairing (drive _ _)) in H.
  pose proof (H sessionPolls (inOrder (fst (shortReplay 9))) 0 (inOrder_packets _)
    (proj1 (Nat.leb_le _ _) sessionPolls_length) (withIdle_packets _)) as (H1&H2&_).
  split; [exact H1|exact H2].
Defined.

(** A foreign stop after the first packet. *)
Abbreviation firstPacket := (DecoderProps.packetOf DecoderProps.day 1 1).
Abbreviation freshEngine :=
  (make (D := MoldUdpDecoder.t GapBuffer.t ItchParser.t) [Some firstPacket; None]
     (MoldUdpDecoder.make DecoderProps.p1 0 1) LatencyRecorder.make strict).

Lemma stopped_execution : steps freshEngine [firstPacket] (snd (stop (turn freshEngine))).
Proof.
  rewrite <- (app_nil_r [firstPacket]). eapply steps_step; [|apply step_stop].
  rewrite <- (app_nil_l [firstPacket]). eapply steps_step; [apply steps_refl|]. by eapply step_packet.
Qed.

Lemma engine_drives_decoder_witness :
  processor (snd (stop (turn freshEngine))) =
  DecoderProps.run (λ _, 0) (MoldUdpDecoder.make DecoderProps.p1 0 1) [firstPacket].
Proof.
  exact (proj1 (engine_drives_decoder (λ _, 0) [Some firstPacket; None] (MoldUdpDecoder.make DecoderProps.p1 0 1)
    LatencyRecorder.make strict [firstPacket] _ eq_refl stopped_execution)).
Defined.

End EngineProps.
