(* ===== verification/Sha.v ===== *)
(** SHA-256 as [utils/Sha256.{hpp,cpp}] computes it incrementally, and that it is the
    one-shot hash of the concatenated input.

    A message is the list of its bytes, a C++ exception an [inl] with its text.  The
    64-byte buffer keeps the stale bytes behind the buffered ones. *)
From stdpp Require Import base list strings.
From Stdlib Require Import ZArith Lia Ascii.
From S2P Require Import Prelude Protocol.
#[local] Open Scope Z_scope.
#[local] Open Scope astra_scope.

Module Sha256.
Import Protocol.

Definition rotateRight (value bits : Z) : Z := (value ≫ bits) .| u32 (value ≪ (32 - bits)).

(** The table has four constants to a line, as the source writes it. *)
Definition row (a b c d : Z) : list Z := [a; b; c; d].

Definition kRoundConstants : list Z :=
  row 0x428a2f98 0x71374491 0xb5c0fbcf 0xe9b5dba5 ++
  row 0x3956c25b 0x59f111f1 0x923f82a4 0xab1c5ed5 ++
  row 0xd807aa98 0x12835b01 0x243185be 0x550c7dc3 ++
  row 0x72be5d74 0x80deb1fe 0x9bdc06a7 0xc19bf174 ++
  row 0xe49b69c1 0xefbe4786 0x0fc19dc6 0x240ca1cc ++
  row 0x2de92c6f 0x4a7484aa 0x5cb0a9dc 0x76f988da ++
  row 0x983e5152 0xa831c66d 0xb00327c8 0xbf597fc7 ++
  row 0xc6e00bf3 0xd5a79147 0x06ca6351 0x14292967 ++
  row 0x27b70a85 0x2e1b2138 0x4d2c6dfc 0x53380d13 ++
  row 0x650a7354 0x766a0abb 0x81c2c92e 0x92722c85 ++
  row 0xa2bfe8a1 0xa81a664b 0xc24b8b70 0xc76c51a3 ++
  row 0xd192e819 0xd6990624 0xf40e3585 0x106aa070 ++
  row 0x19a4c116 0x1e376c08 0x2748774c 0x34b0bcb5 ++
  row 0x391c0cb3 0x4ed8aa4a 0x5b9cca4f 0x682e6ff3 ++
  row 0x748f82ee 0x78a5636f 0x84c87814 0x8cc70208 ++
  row 0x90befffa 0xa4506ceb 0xbef9a3f7 0xc67178f2.

Definition initialState : list Z :=
  [0x6a09e667; 0xbb67ae85; 0x3c6ef372; 0xa54ff53a; 0x510e527f; 0x9b05688c; 0x1f83d9ab; 0x5be0cd19].

(** The element of an array, which is in range in every use. *)
Definition at_ (l : list Z) (i : nat) : Z := nth i l 0.

(** [words[0..15]]: the block as big-endian words. *)
Definition blockWords (block : list Z) : list Z :=
  (λ index, let offset := (index * 4)%nat in
     u32 (at_ block offset ≪ 24) .| u32 (at_ block (offset + 1) ≪ 16) .|
     u32 (at_ block (offset + 2) ≪ 8) .| at_ block (offset + 3)) <$> seq 0 16.

(** [words[index]] for an index from 16 on. *)
Definition nextWord (words : list Z) (index : nat) : Z :=
  let w15 := at_ words (index - 15) in
  let w2 := at_ words (index - 2) in
  let s0 := rotateRight w15 7 .^ rotateRight w15 18 .^ (w15 ≫ 3) in
  let s1 := rotateRight w2 17 .^ rotateRight w2 19 .^ (w2 ≫ 10) in
  u32 (at_ words (index - 16) + s0 + at_ words (index - 7) + s1).

Definition schedule (block : list Z) : list Z :=
  fold_left (λ words index, words ++ [nextWord words index]) (seq 16 48) (blockWords block).

(** One round on [a .. h]. *)
Definition round (regs : list Z) (constant word : Z) : list Z :=
  match regs with
  | [a; b; c; d; e; f; g; h] =>
    let sum1 := rotateRight e 6 .^ rotateRight e 11 .^ rotateRight e 25 in
    let choose := (e .& f) .^ (not32 e .& g) in
    let temporary1 := u32 (h + sum1 + choose + constant + word) in
    let sum0 := rotateRight a 2 .^ rotateRight a 13 .^ rotateRight a 22 in
    let majority := (a .& b) .^ (a .& c) .^ (b .& c) in
    let temporary2 := u32 (sum0 + majority) in
    [u32 (temporary1 + temporary2); a; b; c; u32 (d + temporary1); e; f; g]
  | _ => regs
  end.

Definition transform (state block : list Z) : list Z :=
  let words := schedule block in
  let regs := fold_left (λ regs index, round regs (at_ kRoundConstants index) (at_ words index)) (seq 0 64) state in
  zip_with (λ s r, u32 (s + r)) state regs.

Record t := mk {
  state : list Z;
  buffer : list Z;
  digest : list Z;
  total_bytes : Z;
  buffered_bytes : nat;
  finalized : bool }.

Definition make : t := mk initialState (replicate 64 0) (replicate 32 0) 0 0 false.

Definition kMaximumBytes : Z := max_u64 / 8.

(** [std::copy_n] into an array at an offset. *)
Definition overwrite (dst : list Z) (offset : nat) (bs : list Z) : list Z :=
  take offset dst ++ bs ++ drop (offset + length bs) dst.

(** The loop over whole blocks; the fuel is the number of bytes. *)
Fixpoint blockLoop (fuel : nat) (state input : list Z) : list Z * list Z :=
  match fuel with
  | O => (state, input)
  | S fuel =>
    if Nat.leb 64 (length input)
    then blockLoop fuel (transform state (take 64 input)) (drop 64 input)
    else (state, input)
  end.

(** The tail of [update]: whole blocks, then the rest into the buffer. *)
Definition absorb (s : t) (state : list Z) (input : list Z) (buf : list Z) (total : Z) : t :=
  let '(state, rest) := blockLoop (length input) state input in
  mk state (overwrite buf 0 rest) (digest s) total (length rest) (finalized s).

Definition update (s : t) (input : list Z) : string + t :=
  if finalized s then inl "cannot update a finalized SHA-256"%string else
  if kMaximumBytes - total_bytes s <? Z.of_nat (length input)
  then inl "SHA-256 input exceeds 64-bit bit length"%string else
  let total := u64 (total_bytes s + Z.of_nat (length input)) in
  inr (
    if Nat.eqb (buffered_bytes s) 0 then absorb s (state s) input (buffer s) total else
    let copied := Nat.min (length input) (64 - buffered_bytes s) in
    let buf := overwrite (buffer s) (buffered_bytes s) (take copied input) in
    let buffered := (buffered_bytes s + copied)%nat in
    if negb (Nat.eqb buffered 64) then mk (state s) buf (digest s) total buffered (finalized s) else
    absorb s (transform (state s) buf) (drop copied input) buf total).

(** The padded last block or two. *)
Definition finalBlocks (s : t) : nat * list Z :=
  let blocks := overwrite (replicate 128 0) 0 (take (buffered_bytes s) (buffer s)) in
  let blocks := overwrite blocks (buffered_bytes s) [128] in
  let final_bytes := if Nat.ltb (buffered_bytes s) 56 then 64%nat else 128%nat in
  let bit_length := u64 (total_bytes s * 8) in
  (final_bytes, overwrite blocks (final_bytes - 8) (putBE 8 bit_length)).

Definition finalize (s : t) : list Z * t :=
  if finalized s then (digest s, s) else
  let '(final_bytes, blocks) := finalBlocks s in
  let st := transform (state s) (take 64 blocks) in
  let st := if Nat.eqb final_bytes 128 then transform st (take 64 (drop 64 blocks)) else st in
  let d := st ≫= putBE 4 in
  (d, mk st (buffer s) d (total_bytes s) (buffered_bytes s) true).

Definition kHex : list Z := ch <$> String.list_ascii_of_string "0123456789abcdef".

Definition hexDigits (bs : list Z) : list Z := bs ≫= λ b, [at_ kHex (Z.to_nat (b ≫ 4)); at_ kHex (Z.to_nat (b .& 15))].

Definition finalizeHex (s : t) : list Z * t :=
  let '(d, s) := finalize s in (hexDigits d, s).

(** [sha256Hex]: a fresh digest, one update, the digits. *)
Definition sha256Hex (input : list Z) : string + list Z :=
  match update make input with
  | inl e => inl e
  | inr s => inr (fst (finalizeHex s))
  end.

(** ** The hash of a whole message *)

(** The state after the first [n] blocks of [bs]. *)
Fixpoint compress (n : nat) (st bs : list Z) : list Z :=
  match n with
  | O => st
  | S n => compress n (transform st (take 64 bs)) (drop 64 bs)
  end.

(** The message, a one bit, zeros up to eight bytes before a block boundary, and the
    length in bits. *)
Definition pad (msg : list Z) : list Z :=
  msg ++ [128] ++ replicate (Z.to_nat ((55 - Z.of_nat (length msg)) mod 64)) 0 ++
  putBE 8 (8 * Z.of_nat (length msg)).

Definition sha256 (msg : list Z) : list Z :=
  compress (length (pad msg) / 64) initialState (pad msg) ≫= putBE 4.

Lemma compress_add n m st bs : compress (n + m) st bs = compress m (compress n st bs) (drop (64 * n) bs).
Proof.
  revert st bs. induction n as [|n IH]; intros st bs; [done|]. cbn [Nat.add compress].
  rewrite IH, drop_drop. do 2 f_equal. lia.
Qed.

Lemma compress_prefix n st a b : (64 * n <= length a)%nat → compress n st (a ++ b) = compress n st a.
Proof.
  revert st a. induction n as [|n IH]; intros st a Hn; [done|]. cbn [compress].
  rewrite take_app_le, drop_app_le by lia. apply IH. rewrite length_drop. lia.
Qed.

Lemma blockLoop_spec fuel st input :
  (length input <= fuel)%nat →
  blockLoop fuel st input =
  (compress (length input / 64) st input, drop (64 * (length input / 64)) input).
Proof.
  revert st input. induction fuel as [|fuel IH]; intros st input Hf.
  { destruct input; [done|cbn in Hf; lia]. }
  cbn [blockLoop]. destruct (Nat.leb_spec 64 (length input)) as [Hle|Hlt].
  - rewrite IH by (rewrite length_drop; lia). rewrite length_drop, drop_drop.
    replace (length input / 64)%nat with (S ((length input - 64) / 64)).
    { cbn [compress]. do 2 f_equal. lia. }
    replace (length input) with (length input - 64 + 1 * 64)%nat at 2 by lia.
    rewrite Nat.div_add by lia. lia.
  - by rewrite Nat.div_small by lia.
Qed.

(** ** The incremental state *)

Record absorbed (msg : list Z) (s : t) : Prop := {
  ab_state : state s = compress (length msg / 64) initialState msg;
  ab_buffer : take (buffered_bytes s) (buffer s) = drop (64 * (length msg / 64)) msg;
  ab_buffered : buffered_bytes s = (length msg mod 64)%nat;
  ab_length : length (buffer s) = 64%nat;
  ab_total : total_bytes s = Z.of_nat (length msg);
  ab_bound : Z.of_nat (length msg) <= kMaximumBytes;
  ab_open : finalized s = false }.

Lemma make_absorbed : absorbed [] make.
Proof. split; try done. Qed.

Lemma length_overwrite dst offset bs :
  (offset + length bs <= length dst)%nat → length (overwrite dst offset bs) = length dst.
Proof. intros Hl. unfold overwrite. rewrite !length_app, length_take, length_drop. lia. Qed.

Lemma take_overwrite dst offset bs :
  (offset <= length dst)%nat → take (offset + length bs) (overwrite dst offset bs) = take offset dst ++ bs.
Proof.
  intros Hl. unfold overwrite. rewrite (assoc_L (++)). apply take_app_length'.
  rewrite length_app, length_take. lia.
Qed.

(** Whole blocks from a block boundary on. *)
Lemma absorb_spec s st a b buf :
  (64 * (length a / 64) = length a)%nat → st = compress (length a / 64) initialState a →
  length buf = 64%nat → Z.of_nat (length (a ++ b)) <= kMaximumBytes → finalized s = false →
  absorbed (a ++ b) (absorb s st b buf (Z.of_nat (length (a ++ b)))).
Proof.
  intros Ha -> Hbuf Hmax Hfin. unfold absorb. rewrite blockLoop_spec by done.
  set (q := (length a / 64)%nat) in *. set (r := (length b / 64)%nat).
  assert (length (a ++ b) / 64 = q + r)%nat as Eq.
  { rewrite length_app, <- Ha, Nat.mul_comm, Nat.add_comm, Nat.div_add by lia. lia. }
  pose proof (Nat.div_mod (length b) 64 ltac:(lia)) as Hdm. fold r in Hdm.
  pose proof (Nat.mod_upper_bound (length b) 64 ltac:(lia)) as Hmod.
  assert (length (drop (64 * r) b) = length b mod 64)%nat as Hrest by (rewrite length_drop; lia).
  assert (drop (64 * (q + r)) (a ++ b) = drop (64 * r) b) as Hd.
  { rewrite drop_app_ge by lia. f_equal. lia. }
  split; cbn [state buffer buffered_bytes total_bytes finalized]; try done.
  - rewrite Eq, compress_add, compress_prefix by lia. f_equal. rewrite drop_app_ge by lia.
    by replace (64 * q - length a)%nat with 0%nat by lia.
  - rewrite Eq, Hd, Hrest. rewrite <- Hrest. exact (take_overwrite buf 0 (drop (64 * r) b) ltac:(lia)).
  - rewrite Hrest, length_app, <- Ha, (Nat.mul_comm 64), Nat.add_comm, Nat.Div0.mod_add. done.
  - rewrite length_overwrite; [done|]. lia.
Qed.

Lemma update_absorbed msg s input :
  absorbed msg s → Z.of_nat (length (msg ++ input)) <= kMaximumBytes →
  ∃ s', update s input = inr s' ∧ absorbed (msg ++ input) s'.
Proof.
  intros [Hst Hbuf Hbd Hlen Htot Hmax Hfin] Hle. unfold update. rewrite Hfin, Htot.
  rewrite length_app in Hle.
  rewrite (proj2 (Z.ltb_ge _ _)) by lia.
  assert (kMaximumBytes < 2 ^ 61) as Hk by done.
  rewrite u64_id by (unfold fits; lia).
  replace (Z.of_nat (length msg) + Z.of_nat (length input)) with (Z.of_nat (length (msg ++ input)))
    by (rewrite length_app; lia).
  eexists. split; [done|]. set (q := (length msg / 64)%nat) in *.
  pose proof (Nat.div_mod (length msg) 64 ltac:(lia)) as Hdm. fold q in Hdm. rewrite <- Hbd in Hdm.
  pose proof (Nat.mod_upper_bound (length msg) 64 ltac:(lia)) as Hmod. rewrite <- Hbd in Hmod.
  destruct (Nat.eqb_spec (buffered_bytes s) 0) as [E0|Hne].
  { apply absorb_spec; try done; [fold q; lia|]. rewrite length_app. lia. }
  set (copied := Nat.min (length input) (64 - buffered_bytes s)).
  assert (length (take copied input) = copied) as Hct by (rewrite length_take; lia).
  set (buf := overwrite (buffer s) (buffered_bytes s) (take copied input)).
  assert (length buf = 64%nat) as Hbl by (unfold buf; rewrite length_overwrite; lia).
  assert (take (buffered_bytes s + copied) buf = drop (64 * q) msg ++ take copied input) as Htb.
  { unfold buf. rewrite <- Hct at 1. rewrite take_overwrite by lia. by rewrite Hbuf. }
  destruct (Nat.eqb_spec (buffered_bytes s + copied) 64) as [E64|Hpart]; cbn [negb].
  - rewrite E64, take_ge in Htb by lia.
    assert (msg ++ input = (msg ++ take copied input) ++ drop copied input) as Esplit
      by (by rewrite <- (assoc_L (++)), take_drop).
    assert (length (msg ++ take copied input) / 64 = q + 1)%nat as Eq.
    { rewrite length_app, Hct. replace (length msg + copied)%nat with ((q + 1) * 64)%nat by lia. by rewrite Nat.div_mul. }
    rewrite Esplit. apply absorb_spec; try done.
    + rewrite Eq, length_app, Hct. lia.
    + rewrite Eq, compress_add, compress_prefix by lia. rewrite <- Hst. cbn [compress]. f_equal.
      rewrite (drop_app_le msg) by lia. rewrite Htb, (take_ge (drop _ msg ++ _)); [done|]. rewrite length_app, length_drop, Hct. lia.
    + rewrite <- Esplit, length_app. lia.
  - assert (copied = length input) as Ec by lia. rewrite Ec, (take_ge input) in Htb by lia.
    assert (length (msg ++ input) / 64 = q ∧ length (msg ++ input) mod 64 = buffered_bytes s + length input)%nat as [Eq Em].
    { rewrite length_app. replace (length msg + length input)%nat with (buffered_bytes s + length input + q * 64)%nat by lia.
      rewrite Nat.div_add, Nat.Div0.mod_add, Nat.div_small, Nat.mod_small by lia. done. }
    split; cbn [state buffer buffered_bytes total_bytes finalized]; try done.
    + rewrite Eq, compress_prefix by lia. done.
    + rewrite Eq, Ec, Htb. by rewrite drop_app_le by lia.
    + rewrite Em. lia.
    + rewrite length_app. lia.
Qed.

(** ** The last blocks *)

Lemma overwrite_app a b c d n :
  length a = n → length b = length c → overwrite (a ++ c ++ d) n b = a ++ b ++ d.
Proof.
  intros <- Hbc. unfold overwrite. rewrite take_app_length, Hbc, (assoc_L (++) a c d).
  by rewrite <- length_app, drop_app_length.
Qed.

Lemma overwrite_zeros a n k b :
  length a = n → (length b <= k)%nat →
  overwrite (a ++ replicate k 0) n b = a ++ b ++ replicate (k - length b) 0.
Proof.
  intros Ha Hb. replace k with (length b + (k - length b))%nat at 1 by lia. rewrite replicate_add.
  apply overwrite_app; [done|by rewrite length_replicate].
Qed.

(** The number of blocks the padding ends in, and its zeros. *)
Lemma pad_zeros len :
  let n := (len mod 64)%nat in
  let fb := if Nat.ltb n 56 then 64%nat else 128%nat in
  Z.to_nat ((55 - Z.of_nat len) mod 64) = (fb - 9 - n)%nat.
Proof.
  intros n fb. pose proof (Nat.div_mod len 64 ltac:(lia)) as Hdm. fold n in Hdm.
  pose proof (Nat.mod_upper_bound len 64 ltac:(lia)) as Hmod. fold n in Hmod.
  set (q := (len / 64)%nat) in *. clearbody n q. unfold fb. destruct (Nat.ltb_spec n 56) as [Hlt|Hge].
  - replace (55 - Z.of_nat len) with (Z.of_nat (55 - n) + (- Z.of_nat q) * 64) by lia.
    rewrite Z.mod_add, Z.mod_small by lia. lia.
  - replace (55 - Z.of_nat len) with (Z.of_nat (119 - n) + (- Z.of_nat q - 1) * 64) by lia.
    rewrite Z.mod_add, Z.mod_small by lia. lia.
Qed.

Lemma finalBlocks_spec msg s :
  absorbed msg s →
  let '(fb, blocks) := finalBlocks s in
  (fb = 64 ∨ fb = 128)%nat ∧ length (pad msg) = (64 * (length msg / 64) + fb)%nat ∧
  ∃ rest, blocks = drop (64 * (length msg / 64)) (pad msg) ++ rest.
Proof.
  intros [_ Hbuf Hbd Hlen Htot Hmax _]. unfold finalBlocks. rewrite Hbuf, Htot, Hbd.
  assert (kMaximumBytes * 8 < 2 ^ 64) as Hk by done.
  rewrite u64_id by (unfold fits; lia). rewrite (Z.mul_comm (Z.of_nat (length msg))).
  pose proof (pad_zeros (length msg)) as Hz. cbn zeta in Hz.
  pose proof (Nat.div_mod (length msg) 64 ltac:(lia)) as Hdm.
  pose proof (Nat.mod_upper_bound (length msg) 64 ltac:(lia)) as Hmod.
  set (n := (length msg mod 64)%nat) in *. set (q := (length msg / 64)%nat) in *.
  set (fb := if Nat.ltb n 56 then 64%nat else 128%nat) in *.
  assert ((fb = 64 ∨ fb = 128) ∧ n + 9 <= fb)%nat as [Hfb Hroom]
    by (unfold fb; destruct (Nat.ltb_spec n 56); lia).
  set (rem := drop (64 * q) msg). assert (length rem = n) as Hrem by (unfold rem; rewrite length_drop; lia).
  set (len8 := putBE 8 (8 * Z.of_nat (length msg))). assert (length len8 = 8%nat) as Hl8 by apply length_putBE.
  split; [done|]. split.
  { unfold pad. fold len8. rewrite !length_app, length_replicate, Hz, Hl8. cbn [length]. lia. }
  exists (replicate (128 - fb) 0). unfold pad. fold len8. rewrite Hz.
  rewrite drop_app_le by lia. fold rem.
  rewrite <- (app_nil_l (replicate 128 0)), overwrite_zeros by (done || lia). cbn [app].
  rewrite Hrem, overwrite_zeros by (done || (cbn; lia)). cbn [length].
  replace (128 - n - 1)%nat with ((fb - 9 - n) + (136 - fb))%nat by lia.
  rewrite replicate_add, !(assoc_L (++)).
  rewrite overwrite_zeros; [|rewrite !length_app, length_replicate, Hrem; cbn [length]; lia|lia].
  rewrite Hl8. replace (136 - fb - 8)%nat with (128 - fb)%nat by lia. cbn [app]. rewrite <- !(assoc_L (++)). cbn [app]. by rewrite <- ?(assoc_L (++)).
Qed.

Lemma finalize_absorbed msg s :
  absorbed msg s → fst (finalize s) = sha256 msg ∧ finalized (snd (finalize s)) = true ∧
  digest (snd (finalize s)) = sha256 msg.
Proof.
  intros Ha. pose proof (finalBlocks_spec msg s Ha) as Hf. unfold finalize. rewrite (ab_open _ _ Ha).
  destruct (finalBlocks s) as [fb blocks]. destruct Hf as (Hfb&Hlen&rest&->).
  pose proof (Nat.div_mod (length msg) 64 ltac:(lia)) as Hdm. set (q := (length msg / 64)%nat) in *.
  set (d := drop (64 * q) (pad msg)).
  assert (length d = fb) as Hd by (unfold d; rewrite length_drop; lia).
  assert (compress (length (pad msg) / 64) initialState (pad msg) = compress (fb / 64) (state s) d) as E.
  { rewrite Hlen, (Nat.mul_comm 64), Nat.add_comm, Nat.div_add, Nat.add_comm, compress_add by lia. f_equal.
    unfold pad. rewrite compress_prefix by lia. symmetry. apply (ab_state _ _ Ha). }
  set (st := if Nat.eqb fb 128 then _ else _).
  assert (st = compress (length (pad msg) / 64) initialState (pad msg)) as Est.
  { rewrite E. unfold st. destruct Hfb as [-> | ->]; cbn [Nat.eqb compress].
    - rewrite take_app_le by lia. done.
    - rewrite !take_app_le, drop_app_le, take_app_le by (rewrite ?length_drop; lia). done. }
  unfold sha256. rewrite <- Est. done.
Qed.

(** ** Properties *)

Fixpoint updates (s : t) (chunks : list (list Z)) : string + t :=
  match chunks with
  | [] => inr s
  | c :: chunks => match update s c with inl e => inl e | inr s => updates s chunks end
  end.

Lemma updates_absorbed chunks msg s :
  absorbed msg s → Z.of_nat (length (msg ++ mjoin chunks)) <= kMaximumBytes →
  ∃ s', updates s chunks = inr s' ∧ absorbed (msg ++ mjoin chunks) s'.
Proof.
  revert msg s. induction chunks as [|c chunks IH]; intros msg s Ha Hle; cbn [updates].
  { exists s. by rewrite (right_id [] (++)). }
  change (mjoin (c :: chunks)) with (c ++ mjoin chunks) in *. rewrite (assoc_L (++)) in *.
  destruct (update_absorbed msg s c Ha) as (s1&->&Ha1); [rewrite length_app in Hle; lia|]. by apply IH.
Qed.

(** Hashing is independent of how the input is cut: for any sequence of
    updates whose total length has a 64-bit bit count, none fails, the digest is the
    SHA-256 of the concatenation, computed from the padded message block by block, a
    second finalize returns the same digest and a later update is refused. *)
Theorem sha_incremental chunks :
  Z.of_nat (length (mjoin chunks)) <= kMaximumBytes →
  ∃ s, updates make chunks = inr s ∧
    let '(d, s') := finalize s in
    d = sha256 (mjoin chunks) ∧ fst (finalize s') = d ∧
    ∀ more, update s' more = inl "cannot update a finalized SHA-256"%string.
Proof.
  intros Hle. destruct (updates_absorbed chunks [] make make_absorbed Hle) as (s&Hs&Ha). exists s. split; [done|].
  cbn [app] in Ha. destruct (finalize_absorbed _ s Ha) as (Hd&Hf&Hg). destruct (finalize s) as [d s'].
  cbn [fst snd] in *. split; [done|]. split.
  - unfold finalize. rewrite Hf. cbn. congruence.
  - intros more. unfold update. by rewrite Hf.
Qed.

(** Two updates that straddle a block boundary. *)
Lemma sha_incremental_witness :
  ∃ s, updates make [replicate 60 97; replicate 70 98] = inr s ∧
       fst (finalize s) = sha256 (replicate 60 97 ++ replicate 70 98).
Proof.
  destruct (sha_incremental [replicate 60 97; replicate 70 98] ltac:(done)) as (s&Hs&Hd). exists s.
  split; [exact Hs|]. destruct (finalize s) as [d s']. exact (proj1 Hd).
Defined.

(** The digest of [abc] from the standard. *)
Example sha_abc :
  sha256Hex [97; 98; 99] =
  inr (ch <$> String.list_ascii_of_string "ba7816bf8f01cfea414140de5dae2223b00361a396177a9cb410ff61f20015ad").
Proof. vm_compute. reflexivity. Qed.

(** The two-block message of the standard. *)
Example sha_two_blocks :
  sha256Hex (ch <$> String.list_ascii_of_string "abcdbcdecdefdefgefghfghighijhijkijkljklmklmnlmnomnopnopq") =
  inr (ch <$> String.list_ascii_of_string "248d6a61d20638b8e5c026930c3e6039a33ce45964ff2167f6ecedd419db06c1").
Proof. vm_compute. reflexivity. Qed.

End Sha256.
