(* ===== verification/Capacity.v ===== *)
(** Startup planning of the book storage: the footprint arithmetic and the capacity
    profile checks of [book/BookManager.cpp].

    [size_t] is 64 bits wide.  A C++ exception is an [inl] with its text; [x ← m; k]
    goes on only when [m] returned.  The sizes of the private records are those the
    source asserts; that of a descriptor slot is the LP64 layout of
    [std::optional<OrderBook>] (eight words and the engaged flag). *)
From stdpp Require Import base list gmap strings.
From Stdlib Require Import ZArith Lia Ascii.
From S2P Require Import Prelude Bits BookTypes Orders Prices Manager Protocol.
#[local] Open Scope Z_scope.
#[local] Open Scope astra_scope.

#[global] Instance throw_bind : MBind (sum string) :=
  λ A B f m, match m with inl e => inl e | inr x => f x end.
#[global] Instance throw_ret : MRet (sum string) := λ A x, inr x.

Module BookCapacity.

Record OrderTableConfig := mkOrders { direct_slots : Z; fallback_bucket_count : Z; orders_prefault : bool }.
Record PriceLevelStoreConfig := mkPrices { page_capacity : Z; prices_prefault : bool }.
Record BookManagerConfig := mkConfig { orders : OrderTableConfig; prices : PriceLevelStoreConfig }.

Definition compact : BookManagerConfig :=
  mkConfig (mkOrders (1 ≪ 20) (1 ≪ 12) false) (mkPrices 512 false).

Definition isPowerOfTwo (value : Z) : bool := negb (value =? 0) && (value .& (value - 1) =? 0).

Definition checkedAdd (lhs rhs : Z) : string + Z :=
  if max_u64 - rhs <? lhs then inl "book storage size addition overflows size_t"%string else inr (u64 (lhs + rhs)).

Definition checkedMultiply (lhs rhs : Z) : string + Z :=
  if negb (lhs =? 0) && (max_u64 / lhs <? rhs)
  then inl "book storage size multiplication overflows size_t"%string else inr (u64 (lhs * rhs)).

Definition checkedCount (count : Z) : string + Z :=
  if max_u64 <? count then inl "book storage element count overflows size_t"%string else inr count.

Definition mappedBytes (count element_bytes element_alignment requested_alignment system_page_bytes : Z)
  : string + Z :=
  logical_bytes ← checkedMultiply count element_bytes;
  let alignment := if requested_alignment =? 0 then system_page_bytes else requested_alignment in
  let alignment := if alignment <? system_page_bytes then system_page_bytes else alignment in
  let alignment := if alignment <? element_alignment then element_alignment else alignment in
  if negb (isPowerOfTwo alignment) || negb (alignment mod system_page_bytes =? 0)
  then inl "book storage alignment must be a page-multiple power of two"%string else
  if logical_bytes =? 0 then inr 0 else
  if max_u64 - (alignment - 1) <? logical_bytes
  then inl "book storage rounded size overflows size_t"%string else
  let rounded_bytes := u64 (logical_bytes + alignment - 1) .& not64 (alignment - 1) in
  if max_u64 - alignment <? rounded_bytes
  then inl "book aligned mapping size overflows size_t"%string else
  inr rounded_bytes.

Definition validateConfig (config : BookManagerConfig) : string + unit :=
  if (direct_slots (orders config) =? 0) || (max_u64 <? direct_slots (orders config))
  then inl "OrderTable direct_slots must fit nonzero size_t"%string else
  if (fallback_bucket_count (orders config) =? 0) ||
     negb (fallback_bucket_count (orders config) .& (fallback_bucket_count (orders config) - 1) =? 0)
  then inl "OrderTable fallback_bucket_count must be a power of two"%string else
  if (page_capacity (prices config) =? 0) || (page_capacity (prices config) =? max_u32)
  then inl "PriceLevelStore page capacity must be in [1, UINT32_MAX-1]"%string else
  inr ().

(** Record sizes and alignments. *)
Definition kHotArenaAlignment : Z := 2 * 1024 * 1024.
Definition kPricePageBytes : Z := 2 * 1024 * 1024.
Definition sizeofOrderState : Z := 16.
Definition kFallbackBucketStorageBytes : Z := 64.
Definition kPriceRootSlotCount : Z := 1 ≪ 32.
Definition sizeofPricePageHandle : Z := 4.
Definition kPageOwnerStorageBytes : Z := 8.
Definition kPageSummaryStorageBytes : Z := 16.
Definition kBookSummaryStorageBytes : Z := 32.
(** [(1024 + 16 + 1)] words, rounded up to the alignment of 64. *)
Definition kBitmapStorageBytes : Z := 8384.
Definition kSideCount : Z := 2.
Definition sizeofDescriptorSlot : Z := 72.

Record BookStorageFootprint := mkFootprint {
  system_page_bytes : Z;
  order_direct_mapped_bytes : Z;
  order_fallback_mapped_bytes : Z;
  price_roots_mapped_bytes : Z;
  price_prepared_books_mapped_bytes : Z;
  price_pages_mapped_bytes : Z;
  price_page_owners_mapped_bytes : Z;
  price_page_summaries_mapped_bytes : Z;
  price_page_occupancy_mapped_bytes : Z;
  price_book_summaries_mapped_bytes : Z;
  price_book_occupancy_mapped_bytes : Z;
  mapped_array_bytes : Z;
  descriptor_slot_bytes : Z;
  descriptor_mapped_bytes : Z;
  planned_storage_bytes : Z }.

Definition estimateBookStorageFootprint (config : BookManagerConfig) (page : Z) : string + BookStorageFootprint :=
  _ ← validateConfig config;
  if negb (isPowerOfTwo page) then inl "system page size must be a nonzero power of two"%string else
  direct_count ← checkedCount (direct_slots (orders config));
  order_direct ← mappedBytes direct_count sizeofOrderState 16 kHotArenaAlignment page;
  order_fallback ← mappedBytes (fallback_bucket_count (orders config)) kFallbackBucketStorageBytes 64
                     kHotArenaAlignment page;
  root_count ← checkedCount kPriceRootSlotCount;
  price_roots ← mappedBytes root_count sizeofPricePageHandle 4 kHotArenaAlignment page;
  price_prepared ← mappedBytes kStockLocateSlots 1 1 kHotArenaAlignment page;
  price_pages ← mappedBytes (page_capacity (prices config)) kPricePageBytes 64 kPricePageBytes page;
  page_metadata_slots ← checkedAdd (page_capacity (prices config)) 1;
  price_page_owners ← mappedBytes page_metadata_slots kPageOwnerStorageBytes 4 kHotArenaAlignment page;
  price_page_summaries ← mappedBytes page_metadata_slots kPageSummaryStorageBytes 16 kHotArenaAlignment page;
  page_sides ← checkedMultiply page_metadata_slots kSideCount;
  price_page_occupancy ← mappedBytes page_sides kBitmapStorageBytes 64 kHotArenaAlignment page;
  price_book_summaries ← mappedBytes kStockLocateSlots kBookSummaryStorageBytes 32 kHotArenaAlignment page;
  book_sides ← checkedMultiply kStockLocateSlots kSideCount;
  price_book_occupancy ← mappedBytes book_sides kBitmapStorageBytes 64 kHotArenaAlignment page;
  mapped1 ← checkedAdd order_direct order_fallback;
  mapped2 ← checkedAdd mapped1 price_roots;
  mapped3 ← checkedAdd mapped2 price_prepared;
  mapped4 ← checkedAdd mapped3 price_pages;
  mapped5 ← checkedAdd mapped4 price_page_owners;
  mapped6 ← checkedAdd mapped5 price_page_summaries;
  mapped7 ← checkedAdd mapped6 price_page_occupancy;
  mapped8 ← checkedAdd mapped7 price_book_summaries;
  mapped9 ← checkedAdd mapped8 price_book_occupancy;
  slot_bytes ← checkedMultiply kStockLocateSlots sizeofDescriptorSlot;
  descriptors ← mappedBytes kStockLocateSlots sizeofDescriptorSlot 8 kHotArenaAlignment page;
  planned ← checkedAdd mapped9 descriptors;
  inr (mkFootprint page order_direct order_fallback price_roots price_prepared price_pages price_page_owners
         price_page_summaries price_page_occupancy price_book_summaries price_book_occupancy mapped9 slot_bytes
         descriptors planned).

(** The constructor of [BookManager], on a host with the given page size. *)
Definition newBookManager (config : BookManagerConfig) (page : Z) : string + (BookStorageFootprint * BookManager.t) :=
  footprint ← estimateBookStorageFootprint config page;
  match BookManager.make (direct_slots (orders config)) (fallback_bucket_count (orders config))
          (page_capacity (prices config)) with
  | Some m => inr (footprint, m)
  | None => inl "invalid book storage configuration"%string
  end.

(** ** Capacity profiles *)

Record BookCapacityEvidence := mkEvidence {
  profiled_max_order_reference : Z;
  profiled_unique_price_pages : Z }.
Record BookCapacityHeadroom := mkHeadroom {
  direct_order_reference_slots : Z;
  price_pages : Z }.
Record BookCapacityProfile := mkProfile {
  name : list Z;
  evidence_sha256 : list Z;
  config : BookManagerConfig;
  evidence : BookCapacityEvidence;
  minimum_headroom : BookCapacityHeadroom }.

Definition isLowerHexSha256 (value : list Z) : bool :=
  Nat.eqb (length value) 64 &&
  forallb (λ c, ((48 <=? c) && (c <=? 57)) || ((97 <=? c) && (c <=? 102))) value.

Definition validateBookCapacityProfile (profile : BookCapacityProfile) : string + BookCapacityHeadroom :=
  let ev := evidence profile in
  let need := minimum_headroom profile in
  let slots := direct_slots (orders (config profile)) in
  let pages := page_capacity (prices (config profile)) in
  _ ← validateConfig (config profile);
  if bool_decide (name profile = []) then inl "book capacity profile name must be nonempty"%string else
  if negb (isLowerHexSha256 (evidence_sha256 profile))
  then inl "book capacity profile evidence SHA-256 must be 64 lowercase hex digits"%string else
  if profiled_max_order_reference ev =? 0
  then inl "profiled maximum order reference must be nonzero"%string else
  if profiled_unique_price_pages ev =? 0 then inl "profiled unique price pages must be nonzero"%string else
  if direct_order_reference_slots need =? 0
  then inl "minimum direct-order-reference headroom must be nonzero"%string else
  if price_pages need =? 0 then inl "minimum price-page headroom must be nonzero"%string else
  if slots <=? profiled_max_order_reference ev
  then inl "profiled maximum order reference is outside the direct table"%string else
  let effective_direct_headroom := u64 (slots - u64 (profiled_max_order_reference ev + 1)) in
  if effective_direct_headroom <? direct_order_reference_slots need
  then inl "direct order table does not provide the required profile headroom"%string else
  if pages <=? profiled_unique_price_pages ev
  then inl "profiled unique price pages leave no page-arena headroom"%string else
  let effective_price_headroom := u32 (pages - profiled_unique_price_pages ev) in
  if effective_price_headroom <? price_pages need
  then inl "price page arena does not provide the required profile headroom"%string else
  inr (mkHeadroom effective_direct_headroom effective_price_headroom).

(** ** Size arithmetic *)

Lemma land_pred_pow2 k : 0 <= k → 2 ^ k .& (2 ^ k - 1) = 0.
Proof.
  intros Hk. replace (2 ^ k - 1) with (Z.ones k) by (rewrite Z.ones_equiv; lia).
  rewrite Z.land_ones by done. apply Z.mod_same. lia.
Qed.

Lemma isPowerOfTwo_spec v : 0 <= v → isPowerOfTwo v = true ↔ ∃ k, 0 <= k ∧ v = 2 ^ k.
Proof.
  intros Hv. unfold isPowerOfTwo. split.
  - intros H. zbool. apply power_of_two; [lia|done].
  - intros (k&Hk&->). rewrite land_pred_pow2 by done.
    rewrite (proj2 (Z.eqb_neq _ _)); [done|]. pose proof (Z.pow_pos_nonneg 2 k). lia.
Qed.

Lemma land_not_mask x k : fits 64 x → 0 <= k <= 64 → x .& not64 (2 ^ k - 1) = 2 ^ k * (x / 2 ^ k).
Proof.
  intros Hx Hk. assert (x .& not64 (2 ^ k - 1) = Z.ldiff x (Z.ones k)) as ->.
  { apply Z.bits_inj'. intros i Hi. rewrite Z.land_spec, Z.ldiff_spec. unfold not64.
    rewrite Z.lxor_spec. replace (2 ^ k - 1) with (Z.ones k) by (rewrite Z.ones_equiv; lia).
    destruct (Z.lt_ge_cases i 64) as [Hlt|Hge].
    - change max_u64 with (Z.ones 64). rewrite (Z.ones_spec_low 64) by lia. by rewrite xorb_true_r.
    - rewrite (Z.bits_above_log2 x i); [done|apply Hx|].
      destruct (Z.eq_dec x 0) as [->|]; [cbn; lia|]. apply Z.log2_lt_pow2; [destruct Hx; lia|].
      destruct Hx as [_ Hx]. apply (Z.lt_le_trans _ _ _ Hx). apply Z.pow_le_mono_r; lia. }
  rewrite Z.ldiff_ones_r by lia. rewrite Z.shiftl_mul_pow2, Z.shiftr_div_pow2 by lia. lia.
Qed.

Lemma checkedAdd_spec a b :
  0 <= a → 0 <= b → checkedAdd a b = if a + b <=? max_u64 then inr (a + b)
                                     else inl "book storage size addition overflows size_t"%string.
Proof.
  intros Ha Hb. unfold checkedAdd. destruct (Z.leb_spec (a + b) max_u64).
  - rewrite (proj2 (Z.ltb_ge _ _)) by lia. rewrite u64_id by (unfold fits, max_u64 in *; lia). done.
  - by rewrite (proj2 (Z.ltb_lt _ _)) by lia.
Qed.

Lemma checkedMultiply_spec a b :
  0 <= a → 0 <= b → checkedMultiply a b = if a * b <=? max_u64 then inr (a * b)
                                          else inl "book storage size multiplication overflows size_t"%string.
Proof.
  intros Ha Hb. unfold checkedMultiply. destruct (Z.eqb_spec a 0) as [->|Hne]; cbn [negb andb].
  { by rewrite Z.mul_0_l. }
  assert (max_u64 / a < b ↔ max_u64 < a * b) as Hiff.
  { pose proof (Z.div_mod max_u64 a ltac:(lia)). pose proof (Z.mod_pos_bound max_u64 a ltac:(lia)).
    unfold max_u64 in *. split; nia. }
  destruct (Z.leb_spec (a * b) max_u64).
  - rewrite (proj2 (Z.ltb_ge _ _)) by lia. rewrite u64_id by (unfold fits, max_u64 in *; lia). done.
  - by rewrite (proj2 (Z.ltb_lt _ _)) by lia.
Qed.

(** The least multiple of [a] that is at least [n]. *)
Definition roundUp (a n : Z) : Z := a * ((n + a - 1) / a).

Lemma roundUp_spec a n : 0 < a → n <= roundUp a n < n + a ∧ roundUp a n mod a = 0.
Proof.
  intros Ha. unfold roundUp. pose proof (Z.div_mod (n + a - 1) a ltac:(lia)).
  pose proof (Z.mod_pos_bound (n + a - 1) a ltac:(lia)). split; [lia|]. rewrite Z.mul_comm. apply Z.mod_mul. lia.
Qed.

(** The mapping of one arena: exact, or refused because it does not fit. *)
Lemma mappedBytes_spec count eb ea page k :
  0 <= count → 0 < eb → ea <= kHotArenaAlignment → page = 2 ^ k → 0 <= k → page <= max_u64 →
  let a := Z.max kHotArenaAlignment page in
  let n := roundUp a (count * eb) in
  match mappedBytes count eb ea kHotArenaAlignment page with
  | inr r => r = n ∧ n + a <= max_u64
  | inl _ => max_u64 < n + a
  end.
Proof.
  intros Hc Heb Hea -> Hk Hp a n. unfold mappedBytes. rewrite checkedMultiply_spec by lia.
  assert (∃ j, 0 <= j <= 64 ∧ a = 2 ^ j ∧ a mod 2 ^ k = 0) as (j&Hj&Ea&Hmod).
  { assert (k < 64) as Hk64 by (apply (Z.pow_lt_mono_r_iff 2); unfold max_u64 in *; lia).
    unfold a, kHotArenaAlignment. destruct (Z.le_gt_cases k 21) as [Hle|Hgt].
    - exists 21. rewrite Z.max_l by (change (2 * 1024 * 1024) with (2 ^ 21); apply Z.pow_le_mono_r; lia).
      split; [lia|]. split; [done|]. change (2 * 1024 * 1024) with (2 ^ 21).
      replace 21 with ((21 - k) + k) by lia. rewrite Z.pow_add_r by lia. apply Z.mod_mul. lia.
    - exists k. rewrite Z.max_r by (change (2 * 1024 * 1024) with (2 ^ 21); apply Z.pow_le_mono_r; lia).
      split; [lia|]. split; [done|]. apply Z.mod_same. lia. }
  assert (0 < a) as Ha by (unfold a, kHotArenaAlignment; lia).
  pose proof (roundUp_spec a (count * eb) Ha) as [Hr _]. fold n in Hr.
  destruct (Z.leb_spec (count * eb) max_u64) as [Hfit|Hbig]; cbn [mbind throw_bind]; [|lia].
  change (kHotArenaAlignment =? 0) with false. cbn iota zeta.
  assert ((if kHotArenaAlignment <? 2 ^ k then 2 ^ k else kHotArenaAlignment) = a) as -> by
    (unfold a; destruct (Z.ltb_spec kHotArenaAlignment (2 ^ k)); lia).
  rewrite (proj2 (Z.ltb_ge a ea)) by (unfold a; lia).
  assert (isPowerOfTwo a = true) as -> by (apply isPowerOfTwo_spec; [lia|]; exists j; lia).
  rewrite Hmod. cbn [negb orb Z.eqb]. change (0 =? 0) with true. cbn [negb].
  assert (a <= 2 ^ 63) as Ha63.
  { unfold a, kHotArenaAlignment. apply Z.max_lub; [done|].
    apply Z.pow_le_mono_r; [lia|]. assert (k < 64); [|lia]. apply (Z.pow_lt_mono_r_iff 2); unfold max_u64 in *; lia. }
  destruct (Z.eqb_spec (count * eb) 0) as [E0|E0].
  { assert (n = 0) as En by (unfold n, roundUp; rewrite E0, Z.div_small; lia). rewrite En. unfold max_u64. lia. }
  destruct (Z.ltb_spec (max_u64 - (a - 1)) (count * eb)); [lia|].
  assert (u64 (count * eb + a - 1) .& not64 (a - 1) = n) as ->.
  { rewrite u64_id by (unfold fits, max_u64 in *; nia). rewrite Ea. rewrite land_not_mask; [|unfold fits, max_u64 in *; nia|lia].
    unfold n, roundUp. by rewrite <- Ea. }
  destruct (Z.ltb_spec (max_u64 - a) n); [lia|]. split; [done|lia].
Qed.

(** ** The footprint *)

(** The members have their C++ widths. *)
Definition config_fits (c : BookManagerConfig) : Prop :=
  fits 64 (direct_slots (orders c)) ∧ fits 32 (fallback_bucket_count (orders c)) ∧ fits 32 (page_capacity (prices c)).

(** Every arena as (elements, bytes per element). *)
Definition demand (c : BookManagerConfig) : list (Z * Z) :=
  let pages := page_capacity (prices c) in
  [(direct_slots (orders c), sizeofOrderState); (fallback_bucket_count (orders c), kFallbackBucketStorageBytes);
   (kPriceRootSlotCount, sizeofPricePageHandle); (kStockLocateSlots, 1); (pages, kPricePageBytes);
   (pages + 1, kPageOwnerStorageBytes); (pages + 1, kPageSummaryStorageBytes);
   ((pages + 1) * kSideCount, kBitmapStorageBytes); (kStockLocateSlots, kBookSummaryStorageBytes);
   (kStockLocateSlots * kSideCount, kBitmapStorageBytes); (kStockLocateSlots, sizeofDescriptorSlot)].

Definition sizes (c : BookManagerConfig) (page : Z) : list Z :=
  (λ e, roundUp (Z.max kHotArenaAlignment page) (e.1 * e.2)) <$> demand c.

Definition regions (f : BookStorageFootprint) : list Z :=
  [order_direct_mapped_bytes f; order_fallback_mapped_bytes f; price_roots_mapped_bytes f;
   price_prepared_books_mapped_bytes f; price_pages_mapped_bytes f; price_page_owners_mapped_bytes f;
   price_page_summaries_mapped_bytes f; price_page_occupancy_mapped_bytes f;
   price_book_summaries_mapped_bytes f; price_book_occupancy_mapped_bytes f; descriptor_mapped_bytes f].

Definition sumZ (l : list Z) : Z := foldr Z.add 0 l.

(** An estimate, or a reason against the configuration. *)
Definition estimated (c : BookManagerConfig) (page : Z) (res : string + BookStorageFootprint) : Prop :=
  match res with
  | inr f =>
    system_page_bytes f = page ∧ regions f = sizes c page ∧
    planned_storage_bytes f = sumZ (sizes c page) ∧ planned_storage_bytes f <= max_u64 ∧
    mapped_array_bytes f + descriptor_mapped_bytes f = planned_storage_bytes f
  | inl _ =>
    Exists (λ n, max_u64 < n + Z.max kHotArenaAlignment page) (sizes c page) ∨ max_u64 < sumZ (sizes c page)
  end.

(** The next arena: either it is the reason for the failure, or its size is known. *)
Ltac next_arena Hk Hkn Hp :=
  match goal with |- context [mappedBytes ?c ?eb ?ea ?al ?pg] =>
    let H := fresh "Hsize" in
    pose proof (mappedBytes_spec c eb ea pg _ ltac:(first [lia|done]) ltac:(done) ltac:(done) Hk Hkn Hp) as H;
    cbn zeta in H; change (mappedBytes c eb ea al pg) with (mappedBytes c eb ea kHotArenaAlignment pg);
    destruct (mappedBytes c eb ea kHotArenaAlignment pg);
    [left; unfold sizes, demand; cbn [fmap list_fmap fst snd];
     repeat first [apply Exists_cons_hd; exact H | apply Exists_cons_tl]
    |let E := fresh "Esize" in destruct H as [E H]; cbn [mbind throw_bind]]
  end.

(** The next sum: it fits, or it is the reason for the failure. *)
Ltac next_sum Hall :=
  match goal with |- context [checkedAdd ?a ?b] =>
    rewrite (checkedAdd_spec a b) by lia;
    let H := fresh "Hsum" in
    destruct (Z.leb_spec (a + b) max_u64) as [H|H]; cbn [mbind throw_bind]; [|right; rewrite Hall; lia]
  end.

Lemma estimate_spec c page :
  config_fits c → validateConfig c = inr () → isPowerOfTwo page = true → 0 <= page <= max_u64 →
  estimated c page (estimateBookStorageFootprint c page).
Proof.
  intros (Hd&Hf&Hp) Hv Hpow Hpage. unfold estimateBookStorageFootprint. rewrite Hv, Hpow. cbn [mbind throw_bind negb].
  apply isPowerOfTwo_spec in Hpow as (k&Hkn&Hk); [|lia]. destruct Hpage as [_ Hpm].
  unfold fits in Hd, Hf, Hp. set (a := Z.max kHotArenaAlignment page).
  assert (0 < a) as Ha by (unfold a, kHotArenaAlignment; lia).
  unfold checkedCount. rewrite (proj2 (Z.ltb_ge max_u64 (direct_slots (orders c)))) by (unfold max_u64; lia).
  change (max_u64 <? kPriceRootSlotCount) with false. cbn [mbind throw_bind].
  unfold estimated at 1. do 5 next_arena Hk Hkn Hpm.
  rewrite (checkedAdd_spec (page_capacity (prices c)) 1), (proj2 (Z.leb_le (page_capacity (prices c) + 1) max_u64)) by (unfold max_u64; lia).
  cbn [mbind throw_bind]. do 2 next_arena Hk Hkn Hpm.
  rewrite (checkedMultiply_spec (page_capacity (prices c) + 1) kSideCount), (proj2 (Z.leb_le ((page_capacity (prices c) + 1) * kSideCount) max_u64))
    by (unfold max_u64, kSideCount; lia).
  cbn [mbind throw_bind]. assert (0 <= (page_capacity (prices c) + 1) * kSideCount) by (unfold kSideCount; lia).
  do 2 next_arena Hk Hkn Hpm.
  change (checkedMultiply kStockLocateSlots kSideCount) with (inr (A := string) (kStockLocateSlots * kSideCount)).
  change (checkedMultiply kStockLocateSlots sizeofDescriptorSlot) with
    (inr (A := string) (kStockLocateSlots * sizeofDescriptorSlot)).
  cbn [mbind throw_bind]. next_arena Hk Hkn Hpm.
  fold a in Esize, Esize0, Esize1, Esize2, Esize3, Esize4, Esize5, Esize6, Esize7, Esize8.
  set (n9 := roundUp a (kStockLocateSlots * sizeofDescriptorSlot)).
  assert (sizes c page = [z; z0; z1; z2; z3; z4; z5; z6; z7; z8; n9]) as Hsizes by (subst; done).
  assert (sumZ (sizes c page) = z + z0 + z1 + z2 + z3 + z4 + z5 + z6 + z7 + z8 + n9) as Hall
    by (rewrite Hsizes; cbn; lia).
  assert (∀ n, 0 <= n → 0 <= roundUp a n) as Hnn by (intros n Hn; pose proof (roundUp_spec a n Ha); lia).
  assert (0 <= z ∧ 0 <= z0 ∧ 0 <= z1 ∧ 0 <= z2 ∧ 0 <= z3 ∧ 0 <= z4 ∧ 0 <= z5 ∧ 0 <= z6 ∧ 0 <= z7 ∧ 0 <= z8 ∧ 0 <= n9)
    as (G&G0&G1&G2&G3&G4&G5&G6&G7&G8&G9).
  { subst. unfold sizeofOrderState, kFallbackBucketStorageBytes, kPricePageBytes, kPageOwnerStorageBytes,
      kPageSummaryStorageBytes, kBitmapStorageBytes in *. split_and!; apply Hnn; first [done|lia]. }
  clear Esize Esize0 Esize1 Esize2 Esize3 Esize4 Esize5 Esize6 Esize7 Esize8. do 9 next_sum Hall.
  next_arena Hk Hkn Hpm. fold a n9 in Esize. subst z9. next_sum Hall.
  cbn [system_page_bytes planned_storage_bytes mapped_array_bytes descriptor_mapped_bytes].
  split; [done|]. split; [by rewrite Hsizes|]. split; [lia|]. split; [lia|done].
Qed.

(** The planned storage is exact and no size computation overflows: for every
    configuration of the declared widths and every page size, the estimate is returned
    exactly when the configuration is valid, the page size is a power of two, and all
    arenas can be mapped in a 64-bit address space with their alignment slack; each
    mapped size is then the least multiple of the arena alignment that holds its
    elements, and the plan is their sum.  Where it is returned, the order table and the
    price store accept the configuration too. *)
Theorem footprint_exact c page :
  config_fits c → 0 <= page <= max_u64 →
  match newBookManager c page with
  | inr (f, m) =>
    validateConfig c = inr () ∧ isPowerOfTwo page = true ∧ regions f = sizes c page ∧
    planned_storage_bytes f = sumZ (sizes c page) ∧ planned_storage_bytes f <= max_u64 ∧
    BookManager.make (direct_slots (orders c)) (fallback_bucket_count (orders c)) (page_capacity (prices c)) = Some m
  | inl _ =>
    validateConfig c ≠ inr () ∨ isPowerOfTwo page = false ∨
    Exists (λ n, max_u64 < n + Z.max kHotArenaAlignment page) (sizes c page) ∨ max_u64 < sumZ (sizes c page)
  end.
Proof.
  intros Hc Hpage. unfold newBookManager.
  destruct (validateConfig c) as [e|[]] eqn:Ev.
  { unfold estimateBookStorageFootprint. rewrite Ev. cbn. by left. }
  destruct (isPowerOfTwo page) eqn:Ep.
  2: { unfold estimateBookStorageFootprint. rewrite Ev, Ep. cbn. right. by left. }
  pose proof (estimate_spec c page Hc Ev Ep Hpage) as Hest.
  destruct (estimateBookStorageFootprint c page) as [e|f]; cbn [mbind throw_bind]; [by right; right|].
  destruct Hest as (_&Hreg&Hplan&Hmax&_).
  assert (∃ m, BookManager.make (direct_slots (orders c)) (fallback_bucket_count (orders c))
                 (page_capacity (prices c)) = Some m) as [m Hm].
  { unfold validateConfig in Ev.
    unfold BookManager.make, OrderTable.make, PriceLevelStore.make, OrderTable.validateConfig, PriceLevelStore.validatedConfig.
    destruct ((direct_slots _ =? 0) || _); [done|]. destruct ((fallback_bucket_count _ =? 0) || _); [done|].
    destruct ((page_capacity _ =? 0) || _); [done|]. by eexists. }
  rewrite Hm. done.
Qed.

Lemma footprint_exact_witness :
  newBookManager compact 4096 ≠ inl ""%string ∧
  match newBookManager compact 4096 with
  | inr (f, _) => planned_storage_bytes f = sumZ (sizes compact 4096)
  | inl _ => False
  end.
Proof.
  split; [vm_compute; discriminate|].
  pose proof (footprint_exact compact 4096 ltac:(done) ltac:(done)) as H.
  destruct (newBookManager compact 4096) as [e|[f m]] eqn:E; [vm_compute in E; discriminate|].
  exact (proj1 (proj2 (proj2 (proj2 H)))).
Defined.

(** ** Profiles *)

Definition profile_fits (p : BookCapacityProfile) : Prop :=
  config_fits (config p) ∧ fits 64 (profiled_max_order_reference (evidence p)) ∧
  fits 32 (profiled_unique_price_pages (evidence p)) ∧
  fits 64 (direct_order_reference_slots (minimum_headroom p)) ∧ fits 32 (price_pages (minimum_headroom p)).

(** What a deployment profile must satisfy. *)
Record admissible (p : BookCapacityProfile) : Prop := {
  ad_config : validateConfig (config p) = inr ();
  ad_name : name p ≠ [];
  ad_digest : isLowerHexSha256 (evidence_sha256 p) = true;
  ad_reference : 0 < profiled_max_order_reference (evidence p);
  ad_pages : 0 < profiled_unique_price_pages (evidence p);
  ad_direct_need : 0 < direct_order_reference_slots (minimum_headroom p);
  ad_page_need : 0 < price_pages (minimum_headroom p);
  ad_direct : profiled_max_order_reference (evidence p) + 1 + direct_order_reference_slots (minimum_headroom p)
              <= direct_slots (orders (config p));
  ad_price : profiled_unique_price_pages (evidence p) + price_pages (minimum_headroom p)
             <= page_capacity (prices (config p)) }.

(** A capacity profile is admitted exactly when its configuration is
    valid, its audit data is well formed, no figure is zero, and both the direct order
    table and the page arena hold the profiled demand plus the declared reserve; the
    headroom reported is exact and at least the reserve, with no wrap-around; and every
    order reference up to the profiled maximum plus the reserve is then directly
    indexed. *)
Theorem capacity_profile_admission p :
  profile_fits p →
  match validateBookCapacityProfile p with
  | inr h =>
    admissible p ∧
    direct_slots (orders (config p)) =
      profiled_max_order_reference (evidence p) + 1 + direct_order_reference_slots h ∧
    page_capacity (prices (config p)) = profiled_unique_price_pages (evidence p) + price_pages h ∧
    direct_order_reference_slots (minimum_headroom p) <= direct_order_reference_slots h ∧
    price_pages (minimum_headroom p) <= price_pages h ∧
    ∀ ref, 0 <= ref <= profiled_max_order_reference (evidence p) +
                       direct_order_reference_slots (minimum_headroom p) → ref < direct_slots (orders (config p))
  | inl _ => ¬ admissible p
  end.
Proof.
  intros ((Hd&Hb&Hp)&Hr&Hu&Hn1&Hn2). unfold fits in *. unfold validateBookCapacityProfile. cbn zeta.
  destruct (validateConfig (config p)) as [e|[]] eqn:Ev; cbn [mbind throw_bind].
  { intros [H]. congruence. }
  case_bool_decide as E1; [by intros []|]. destruct (isLowerHexSha256 _) eqn:E2; cbn [negb]; [|by intros []; congruence].
  destruct (Z.eqb_spec (profiled_max_order_reference (evidence p)) 0); [intros []; lia|].
  destruct (Z.eqb_spec (profiled_unique_price_pages (evidence p)) 0); [intros []; lia|].
  destruct (Z.eqb_spec (direct_order_reference_slots (minimum_headroom p)) 0); [intros []; lia|].
  destruct (Z.eqb_spec (price_pages (minimum_headroom p)) 0); [intros []; lia|].
  destruct (Z.leb_spec (direct_slots (orders (config p))) (profiled_max_order_reference (evidence p)));
    [intros []; lia|].
  rewrite (u64_id (profiled_max_order_reference (evidence p) + 1)) by (unfold fits; lia).
  rewrite u64_id by (unfold fits; lia).
  destruct (Z.ltb_spec (direct_slots (orders (config p)) - (profiled_max_order_reference (evidence p) + 1))
    (direct_order_reference_slots (minimum_headroom p))); [intros []; lia|].
  destruct (Z.leb_spec (page_capacity (prices (config p))) (profiled_unique_price_pages (evidence p)));
    [intros []; lia|].
  rewrite u32_id by (unfold fits; lia).
  destruct (Z.ltb_spec (page_capacity (prices (config p)) - profiled_unique_price_pages (evidence p))
    (price_pages (minimum_headroom p))); [intros []; lia|].
  cbn [direct_order_reference_slots price_pages]. split; [split; done || lia|]. split_and!; [lia..|]. intros ref Href. lia.
Qed.

Definition sampleProfile (need : Z) : BookCapacityProfile :=
  mkProfile [97] (replicate 64 48) compact (mkEvidence 1000000 300) (mkHeadroom need 100).

Lemma capacity_profile_admission_witness :
  admissible (sampleProfile 40000) ∧ ¬ admissible (sampleProfile 60000).
Proof.
  pose proof (capacity_profile_admission (sampleProfile 40000) ltac:(done)) as H1.
  pose proof (capacity_profile_admission (sampleProfile 60000) ltac:(done)) as H2.
  assert (∃ h, validateBookCapacityProfile (sampleProfile 40000) = inr h) as [h E1] by (eexists; vm_compute; reflexivity).
  assert (∃ e, validateBookCapacityProfile (sampleProfile 60000) = inl e) as [e E2] by (eexists; vm_compute; reflexivity).
  rewrite E1 in H1. rewrite E2 in H2. exact (conj (proj1 H1) H2).
Defined.

End BookCapacity.
