(* ===== verification/Manifest.v ===== *)
(** The capacity evidence manifest of [book/BookCapacityProfile.cpp]: a loader that
    accepts one canonical text per set of values.

    Strings and files are lists of bytes.  [file] is the content found at the path,
    [None] when it cannot be opened. *)
From stdpp Require Import base list strings.
From Stdlib Require Import ZArith Lia Ascii.
From S2P Require Import Prelude Bits BookTypes Orders Prices Manager Protocol Sha Capacity.
#[local] Open Scope Z_scope.
#[local] Open Scope astra_scope.

Module Manifest.
Import Protocol BookCapacity.

Definition str (s : string) : list Z := ch <$> String.list_ascii_of_string s.

Definition kMaximumManifestBytes : Z := 16 * 1024.
Definition kManifestV1LineCount : nat := 11.
Definition kManifestV2LineCount : nat := 12.
Definition kSchemaV1 : list Z := str "astra_book_capacity_evidence_v1".
Definition kSchemaV2 : list Z := str "astra_book_capacity_evidence_v2".

Record BookCapacityEvidenceManifest := mkManifest {
  profile : BookCapacityProfile;
  corpus_manifest_sha256 : list Z;
  profiler_sha256 : list Z;
  profile_output_sha256 : list Z;
  schema : list Z }.

Definition isProfileChar (c : Z) : bool :=
  ((48 <=? c) && (c <=? 57)) || ((65 <=? c) && (c <=? 90)) || ((97 <=? c) && (c <=? 122)) ||
  (c =? ch "-") || (c =? ch "_") || (c =? ch ".") || (c =? ch ":") || (c =? ch "/") || (c =? ch "+").

Definition isProfileToken (value : list Z) : bool :=
  negb (Nat.eqb (length value) 0) && Nat.leb (length value) 128 && forallb isProfileChar value.

Definition readManifest (path : list Z) (file : option (list Z)) : string + list Z :=
  if bool_decide (path = []) then inl "capacity evidence manifest path is empty"%string else
  match file with
  | None => inl "cannot open capacity evidence manifest"%string
  | Some contents =>
    if (Z.of_nat (length contents) <=? 0) || (kMaximumManifestBytes <? Z.of_nat (length contents))
    then inl "capacity evidence manifest size must be in [1, 16384] bytes"%string
    else inr contents
  end.

(** [contents.find('\n')]: the bytes before it and those after it. *)
Fixpoint cutLine (bs : list Z) : option (list Z * list Z) :=
  match bs with
  | [] => None
  | b :: bs => if b =? 10 then Some ([], bs) else (λ p, (b :: p.1, p.2)) <$> cutLine bs
  end.

(** The loop over the lines, from the part of the contents that is left; every turn
    consumes a line feed. *)
Fixpoint lineLoop (fuel : nat) (rest : list Z) (lines : list (list Z)) : string + list (list Z) :=
  match fuel with
  | O => inr lines
  | S fuel =>
    match rest with
    | [] => inr lines
    | _ =>
      match cutLine rest with
      | None => inl "capacity evidence manifest has an unexpected line count"%string
      | Some (line, rest) =>
        if Nat.eqb (length lines) kManifestV2LineCount
        then inl "capacity evidence manifest has an unexpected line count"%string
        else lineLoop fuel rest (lines ++ [line])
      end
    end
  end.

Definition canonicalLines (contents : list Z) : string + list (list Z) :=
  if negb (bool_decide (last contents = Some 10))
  then inl "capacity evidence manifest must end with one LF"%string else
  if existsb (λ c, (c =? 13) || (c =? 0) || (127 <? c)) contents
  then inl "capacity evidence manifest must be canonical ASCII with LF endings"%string else
  lines ← lineLoop (length contents) contents [];
  if negb (Nat.eqb (length lines) kManifestV1LineCount) && negb (Nat.eqb (length lines) kManifestV2LineCount)
  then inl "capacity evidence manifest has an unexpected line count"%string else inr lines.

Definition field (line key : list Z) : string + list Z :=
  if negb (bool_decide (take (length key) line = key)) || Nat.eqb (length line) (length key) ||
     negb (nth (length key) line 0 =? ch "=")
  then inl "capacity evidence manifest keys/order do not match schema"%string
  else inr (drop (S (length key)) line).

Definition isDigit (c : Z) : bool := (48 <=? c) && (c <=? 57).
Fixpoint digitPrefix (bs : list Z) : list Z :=
  match bs with
  | [] => []
  | b :: bs => if isDigit b then b :: digitPrefix bs else []
  end.
Definition decimalValue (ds : list Z) : Z := fold_left (λ v d, v * 10 + (d - 48)) ds 0.

(** [std::from_chars] on an unsigned 64-bit integer in base ten: the value and the
    number of characters read, [None] for either error code. *)
Definition fromChars (value : list Z) : option (Z * nat) :=
  let ds := digitPrefix value in
  if Nat.eqb (length ds) 0 || (max_u64 <? decimalValue ds) then None else Some (decimalValue ds, length ds).

Definition canonicalUnsigned (value key : list Z) (maximum : Z) : string + Z :=
  if Nat.eqb (length value) 0 || (Nat.ltb 1 (length value) && (nth 0 value 0 =? ch "0"))
  then inl "capacity evidence manifest value is not a canonical positive integer"%string else
  match fromChars value with
  | None => inl "capacity evidence manifest value is not an in-range positive integer"%string
  | Some (parsed, n) =>
    if negb (Nat.eqb n (length value)) || (parsed =? 0) || (maximum <? parsed)
    then inl "capacity evidence manifest value is not an in-range positive integer"%string else inr parsed
  end.

(** The field of a line as a number. *)
Definition numberField (lines : list (list Z)) (i : nat) (key : list Z) (maximum : Z) : string + Z :=
  v ← field (nth i lines []) key; canonicalUnsigned v key maximum.

Definition loadBookCapacityEvidenceManifest (path : list Z) (file : option (list Z))
    (expected_profile_name expected_sha256 : list Z) : string + BookCapacityEvidenceManifest :=
  if negb (isProfileToken expected_profile_name)
  then inl "expected capacity profile name is not an audit-safe token"%string else
  if negb (isLowerHexSha256 expected_sha256)
  then inl "expected capacity evidence SHA-256 must be 64 lowercase hex digits"%string else
  contents ← readManifest path file;
  computed_sha256 ← Sha256.sha256Hex contents;
  if negb (bool_decide (computed_sha256 = expected_sha256))
  then inl "capacity evidence manifest SHA-256 differs from configured digest"%string else
  lines ← canonicalLines contents;
  sch ← field (nth 0 lines []) (str "schema");
  let is_v1 := bool_decide (sch = kSchemaV1) in
  let is_v2 := bool_decide (sch = kSchemaV2) in
  if (negb is_v1 && negb is_v2) || (is_v1 && negb (Nat.eqb (length lines) kManifestV1LineCount)) ||
     (is_v2 && negb (Nat.eqb (length lines) kManifestV2LineCount))
  then inl "unsupported capacity evidence manifest schema"%string else
  profile_name ← field (nth 1 lines []) (str "profile_name");
  if negb (isProfileToken profile_name) || negb (bool_decide (profile_name = expected_profile_name))
  then inl "capacity evidence manifest profile_name differs from configured profile"%string else
  corpus_sha256 ← field (nth 2 lines []) (str "corpus_manifest_sha256");
  profiler ← field (nth 3 lines []) (str "profiler_sha256");
  output_sha256 ← (if is_v2 then field (nth 4 lines []) (str "profile_output_sha256") else inr []);
  if negb (isLowerHexSha256 corpus_sha256) || negb (isLowerHexSha256 profiler) ||
     (is_v2 && negb (isLowerHexSha256 output_sha256))
  then inl "capacity evidence manifest provenance hashes must be lowercase SHA-256"%string else
  let offset := if is_v2 then 1%nat else 0%nat in
  slots ← numberField lines (4 + offset) (str "order_direct_slots") max_u64;
  fallback_buckets ← numberField lines (5 + offset) (str "order_fallback_buckets") max_u32;
  pages ← numberField lines (6 + offset) (str "price_page_capacity") (max_u32 - 1);
  maximum_order_reference ← numberField lines (7 + offset) (str "profiled_max_order_ref") max_u64;
  unique_price_pages ← numberField lines (8 + offset) (str "profiled_unique_price_pages") (max_u32 - 1);
  minimum_direct_headroom ← numberField lines (9 + offset) (str "minimum_direct_order_headroom") max_u64;
  minimum_price_headroom ← numberField lines (10 + offset) (str "minimum_price_page_headroom") max_u32;
  let prof := mkProfile profile_name computed_sha256
    (mkConfig (mkOrders slots (u32 fallback_buckets) false) (mkPrices (u32 pages) false))
    (mkEvidence maximum_order_reference (u32 unique_price_pages))
    (mkHeadroom minimum_direct_headroom (u32 minimum_price_headroom)) in
  _ ← validateBookCapacityProfile prof;
  inr (mkManifest prof corpus_sha256 profiler output_sha256 sch).

End Manifest.
