(* ===== verification/ManifestProps.v ===== *)
(** The manifest loader accepts exactly the canonical rendering of what it returns. *)
From stdpp Require Import base list strings.
From Stdlib Require Import ZArith Lia Ascii.
From S2P Require Import Prelude Bits BookTypes Orders Prices Manager Protocol Sha Capacity Manifest.
#[local] Open Scope Z_scope.
#[local] Open Scope astra_scope.

Module ManifestProps.
Import Protocol BookCapacity Manifest.

(** ** Numbers *)

(** The decimal digits of a number below [10 ^ fuel]. *)
Fixpoint digits (fuel : nat) (n : Z) : list Z :=
  match fuel with
  | O => []
  | S fuel => if n <? 10 then [48 + n] else digits fuel (n / 10) ++ [48 + n mod 10]
  end.
Definition decimal (n : Z) : list Z := digits 20 n.

Lemma decimalValue_snoc ds d : decimalValue (ds ++ [d]) = decimalValue ds * 10 + (d - 48).
Proof. unfold decimalValue. by rewrite fold_left_app. Qed.

Lemma digitPrefix_all bs : forallb isDigit bs = true → digitPrefix bs = bs.
Proof.
  induction bs as [|b bs IH]; [done|]. cbn. intros [Hb Hbs]%andb_true_iff. rewrite Hb. by rewrite IH.
Qed.

Lemma digitPrefix_whole bs : length (digitPrefix bs) = length bs → forallb isDigit bs = true.
Proof.
  induction bs as [|b bs IH]; [done|]. cbn. destruct (isDigit b); [|done]. cbn. intros [= H]. by apply IH.
Qed.

Lemma forallb_snoc {A} (f : A → bool) l x : forallb f (l ++ [x]) = forallb f l && f x.
Proof. rewrite forallb_app. cbn. by rewrite andb_true_r. Qed.

Lemma isDigit_spec c : isDigit c = true ↔ 48 <= c <= 57.
Proof. unfold isDigit. rewrite andb_true_iff, !Z.leb_le. done. Qed.

Lemma digits_spec fuel n :
  0 <= n < 10 ^ Z.of_nat fuel → (0 < fuel)%nat →
  forallb isDigit (digits fuel n) = true ∧ decimalValue (digits fuel n) = n ∧ digits fuel n ≠ [] ∧
  (0 < n → nth 0 (digits fuel n) 0 ≠ 48) ∧ (length (digits fuel n) <= fuel)%nat ∧
  (n < 10 → length (digits fuel n) = 1%nat).
Proof.
  revert n. induction fuel as [|fuel IH]; intros n Hn Hf; [lia|]. cbn [digits].
  destruct (Z.ltb_spec n 10) as [Hlt|Hge].
  { cbn. split; [rewrite andb_true_r; apply isDigit_spec; lia|]. split; [unfold decimalValue; cbn; lia|].
    split; [done|]. split; [lia|]. split; [lia|done]. }
  pose proof (Z.div_mod n 10 ltac:(lia)) as Hdm. pose proof (Z.mod_pos_bound n 10 ltac:(lia)) as Hm.
  destruct fuel as [|fuel]; [cbn in Hn; lia|].
  assert (0 < n / 10 < 10 ^ Z.of_nat (S fuel)) as Hq.
  { replace (Z.of_nat (S (S fuel))) with (Z.of_nat (S fuel) + 1) in Hn by lia.
    rewrite Z.pow_add_r, Z.pow_1_r in Hn by lia. lia. }
  destruct (IH (n / 10) ltac:(lia) ltac:(lia)) as (H1&H2&H3&H4&H5&_).
  split; [rewrite forallb_snoc, H1; apply isDigit_spec; lia|].
  split; [rewrite decimalValue_snoc, H2; lia|]. split; [by destruct (digits (S fuel) (n / 10))|].
  split; [|split; [rewrite length_app; cbn [length]; lia|lia]].
  intros _. rewrite app_nth1; [apply H4; lia|]. destruct (digits (S fuel) (n / 10)); [done|cbn; lia].
Qed.

(** A digit string without a leading zero is the rendering of its value. *)
Lemma digits_unique v fuel :
  forallb isDigit v = true → v ≠ [] → (length v = 1%nat ∨ nth 0 v 0 ≠ 48) → (length v <= fuel)%nat →
  digits fuel (decimalValue v) = v ∧ 0 <= decimalValue v ∧
  (nth 0 v 0 ≠ 48 → 10 ^ (Z.of_nat (length v) - 1) <= decimalValue v).
Proof.
  revert fuel. induction v as [|c w IH] using rev_ind; intros fuel Hall Hne Hlead Hlen; [done|].
  rewrite forallb_snoc in Hall. apply andb_true_iff in Hall as [Hw Hc%isDigit_spec].
  rewrite decimalValue_snoc, length_app in *. cbn [length] in *.
  destruct fuel as [|fuel]; [lia|]. cbn [digits]. destruct w as [|b w'].
  { unfold decimalValue. cbn [fold_left app length]. rewrite (proj2 (Z.ltb_lt _ _)) by lia.
    split; [f_equal; lia|]. split; [lia|]. cbn. lia. }
  set (w := b :: w') in *.
  assert (nth 0 w 0 ≠ 48) as Hhead by (destruct Hlead as [Hl|Hh]; [cbn in Hl; lia|exact Hh]).
  destruct (IH fuel Hw ltac:(done) (or_intror Hhead) ltac:(lia)) as (Hdig&Hnn&Hbig). specialize (Hbig Hhead).
  assert (1 <= 10 ^ (Z.of_nat (length w) - 1)) as Hone.
  { change 1 with (10 ^ 0). apply Z.pow_le_mono_r; [lia|]. unfold w. cbn [length]. lia. }
  rewrite (proj2 (Z.ltb_ge _ _)) by lia.
  assert ((decimalValue w * 10 + (c - 48)) / 10 = decimalValue w) as ->
    by (rewrite Z.div_add_l, Z.div_small by lia; lia).
  assert ((decimalValue w * 10 + (c - 48)) mod 10 = c - 48) as ->
    by (rewrite Z.add_comm, Z.mod_add, Z.mod_small by lia; lia).
  rewrite Hdig. split; [do 2 f_equal; lia|]. split; [lia|]. intros _.
  replace (Z.of_nat (length w + 1) - 1) with ((Z.of_nat (length w) - 1) + 1) by lia.
  rewrite Z.pow_add_r, Z.pow_1_r by (unfold w; cbn [length]; lia). lia.
Qed.

(** A canonical number is the decimal rendering of an in-range value, and no other text. *)
Lemma canonicalUnsigned_spec v key maximum n :
  maximum <= max_u64 →
  canonicalUnsigned v key maximum = inr n ↔ v = decimal n ∧ 0 < n <= maximum.
Proof.
  intros Hmax. unfold canonicalUnsigned, fromChars. split.
  - destruct (Nat.eqb_spec (length v) 0) as [|Hne]; [done|]. cbn [orb].
    destruct (Nat.ltb 1 (length v) && _) eqn:El; [done|].
    destruct (Nat.eqb (length (digitPrefix v)) 0 || _) eqn:Eo; [done|].
    destruct (Nat.eqb_spec (length (digitPrefix v)) (length v)) as [Hw|]; cbn [negb orb]; [|done].
    apply digitPrefix_whole in Hw. rewrite (digitPrefix_all v Hw) in *.
    destruct (Z.eqb_spec (decimalValue v) 0) as [|Hn0]; cbn [orb]; [done|].
    destruct (Z.ltb_spec maximum (decimalValue v)); [done|]. intros [= <-].
    assert (v ≠ []) as Hnil by (by intros ->).
    assert (length v = 1%nat ∨ nth 0 v 0 ≠ 48) as Hlead.
    { destruct (Nat.ltb_spec 1 (length v)) as [Hgt|Hle]; [right|left; lia].
      cbn [andb] in El. apply Z.eqb_neq in El. exact El. }
    assert (length v <= 20)%nat as Hlen.
    { destruct Hlead as [->|Hh]; [lia|].
      destruct (digits_unique v (length v) Hw Hnil (or_intror Hh) ltac:(lia)) as (_&_&Hbig). specialize (Hbig Hh).
      destruct (Nat.le_gt_cases (length v) 20) as [|Hgt]; [done|].
      assert (10 ^ 20 <= 10 ^ (Z.of_nat (length v) - 1)) by (apply Z.pow_le_mono_r; lia).
      unfold max_u64 in *. lia. }
    destruct (digits_unique v 20 Hw Hnil Hlead Hlen) as (Hd&Hnn&_). unfold decimal. rewrite Hd. split; [done|lia].
  - intros [-> Hn]. unfold decimal.
    destruct (digits_spec 20 n ltac:(unfold max_u64 in *; lia) ltac:(lia)) as (H1&H2&H3&H4&H5&H6).
    set (ds := digits 20 n) in *. rewrite (digitPrefix_all ds H1), H2.
    rewrite (proj2 (Nat.eqb_neq (length ds) 0)) by (destruct ds; [done|cbn; lia]). cbn [orb].
    rewrite (proj2 (Z.ltb_ge max_u64 n)) by lia. rewrite Nat.eqb_refl, (proj2 (Z.eqb_neq n 0)) by lia.
    rewrite (proj2 (Z.ltb_ge maximum n)) by lia. cbn [negb orb].
    change (ch "0") with 48. rewrite (proj2 (Z.eqb_neq (nth 0 ds 0) 48)) by (apply H4; lia).
    by rewrite andb_false_r.
Qed.

(** ** Lines and fields *)

Lemma cutLine_some bs line rest : cutLine bs = Some (line, rest) ↔ bs = line ++ 10 :: rest ∧ 10 ∉ line.
Proof.
  revert line. induction bs as [|b bs IH]; intros line; cbn [cutLine].
  { split; [done|]. intros [H _]. by destruct line. }
  destruct (Z.eqb_spec b 10) as [->|Hb].
  - split.
    + intros [= <- <-]. split; [done|]. apply not_elem_of_nil.
    + intros [H Hn]. destruct line as [|x line]; [by injection H as <-|]. injection H as <- _.
      destruct Hn. left.
  - split.
    + intros ([l r]&Hl&Hp)%fmap_Some. cbn in Hp. injection Hp as -> ->. apply IH in Hl as [-> Hn].
      split; [done|]. intros [?|?]%elem_of_cons; [done|by apply Hn].
    + intros [H Hn]. destruct line as [|x line]; [by injection H as ? _|]. injection H as <- H.
      apply not_elem_of_cons in Hn as [_ Hn]. rewrite (proj2 (IH line) (conj H Hn)). done.
Qed.

Definition unlines (lines : list (list Z)) : list Z := mjoin ((λ l, l ++ [10]) <$> lines).

Lemma unlines_cons l ls : unlines (l :: ls) = l ++ 10 :: unlines ls.
Proof. unfold unlines. cbn. by rewrite <- (assoc_L (++)). Qed.

Lemma lineLoop_some fuel rest lines res :
  (length rest <= fuel)%nat → (length lines <= 12)%nat →
  lineLoop fuel rest lines = inr res ↔
  ∃ more, res = lines ++ more ∧ rest = unlines more ∧ Forall (λ l, 10 ∉ l) more ∧ (length res <= 12)%nat.
Proof.
  revert rest lines. induction fuel as [|fuel IH]; intros rest lines Hf Hl.
  { destruct rest; [|cbn in Hf; lia]. cbn [lineLoop]. split.
    - intros [= <-]. exists []. by rewrite (right_id [] (++)).
    - intros (more&->&H&_&_). destruct more as [|l more]; [by rewrite (right_id [] (++))|].
      rewrite unlines_cons in H. by destruct l. }
  cbn [lineLoop]. destruct rest as [|b rest'] eqn:Er.
  { split.
    - intros [= <-]. exists []. by rewrite (right_id [] (++)).
    - intros (more&->&H&_&_). destruct more as [|l more]; [by rewrite (right_id [] (++))|].
      rewrite unlines_cons in H. by destruct l. }
  rewrite <- Er in *. assert (rest ≠ []) as Hrn by (by rewrite Er). clear Er. destruct (cutLine rest) as [[line rest1]|] eqn:Ec.
  - apply cutLine_some in Ec as [Erest Hn]. unfold kManifestV2LineCount.
    destruct (Nat.eqb_spec (length lines) 12) as [E12|Hlt].
    + split; [done|]. intros (more&->&Hr&_&H12). rewrite length_app in H12.
      destruct more as [|l more]; [by rewrite Erest in Hr; destruct line|]. cbn in H12. lia.
    + rewrite IH; [|rewrite Erest, length_app in Hf; cbn in Hf; lia|rewrite length_app; cbn; lia]. split.
      * intros (more&->&->&Hall&H12). exists (line :: more). rewrite unlines_cons.
        split; [by rewrite <- (assoc_L (++))|]. split; [done|]. split; [by constructor|].
        done.
      * intros (more&->&Hr&Hall&H12). destruct more as [|l more]; [by rewrite Erest in Hr; destruct line|].
        apply Forall_cons in Hall as [Hl1 Hall]. rewrite unlines_cons in Hr.
        pose proof (proj2 (cutLine_some rest l (unlines more)) (conj Hr Hl1)) as H1.
        pose proof (proj2 (cutLine_some rest line rest1) (conj Erest Hn)) as H2.
        rewrite H1 in H2. injection H2 as <- <-. exists more.
        split; [by rewrite <- (assoc_L (++))|]. split; [done|]. split; [done|].
        done.
  - split; [done|]. intros (more&->&Hr&Hall&_). destruct more as [|l more].
    { cbn in Hr. subst rest. done. }
    apply Forall_cons in Hall as [Hl1 _]. rewrite unlines_cons in Hr.
    by rewrite (proj2 (cutLine_some rest l (unlines more)) (conj Hr Hl1)) in Ec.
Qed.

Lemma field_some line key v : field line key = inr v ↔ line = key ++ ch "=" :: v.
Proof.
  unfold field. split.
  - case_bool_decide as Ek; cbn [negb orb]; [|done]. destruct (Nat.eqb_spec (length line) (length key)); cbn [orb]; [done|].
    destruct (Z.eqb_spec (nth (length key) line 0) (ch "=")) as [E|]; cbn [negb]; [|done]. intros [= <-].
    rewrite <- (take_drop (length key) line) at 1. rewrite Ek. f_equal.
    assert (length key < length line)%nat as Hlt.
    { assert (length key = length (take (length key) line)) as H by (by rewrite Ek). rewrite length_take in H. lia. }
    destruct (drop (length key) line) as [|c rest] eqn:Ed.
    { apply (f_equal length) in Ed. rewrite length_drop in Ed. cbn in Ed. lia. }
    assert (nth (length key) line 0 = c) as Ec.
    { rewrite <- (take_drop (length key) line) at 1. rewrite Ek, Ed. by rewrite app_nth2, Nat.sub_diag by lia. }
    f_equal; [congruence|]. replace (S (length key)) with (length key + 1)%nat by lia.
    by rewrite <- drop_drop, Ed.
  - intros ->. rewrite take_app_length, bool_decide_eq_true_2 by done. cbn [negb orb].
    rewrite length_app. cbn [length]. rewrite (proj2 (Nat.eqb_neq _ _)) by lia. cbn [orb].
    rewrite app_nth2, Nat.sub_diag by lia. cbn [nth]. rewrite Z.eqb_refl. cbn [negb]. f_equal.
    replace (S (length key)) with (length key + 1)%nat by lia. by rewrite <- drop_drop, drop_app_length.
Qed.

Lemma numberField_some lines i key maximum n :
  maximum <= max_u64 →
  numberField lines i key maximum = inr n ↔ nth i lines [] = key ++ ch "=" :: decimal n ∧ 0 < n <= maximum.
Proof.
  intros Hm. unfold numberField. split.
  - destruct (field (nth i lines []) key) as [e|v] eqn:Ef; cbn [mbind throw_bind]; [done|].
    apply field_some in Ef as ->. intros [-> Hn]%canonicalUnsigned_spec; done.
  - intros [Hl Hn]. rewrite (proj2 (field_some _ _ _) Hl). cbn [mbind throw_bind].
    by apply canonicalUnsigned_spec.
Qed.

(** Characters a canonical line may have. *)
Definition plain (c : Z) : bool := negb ((c =? 13) || (c =? 0) || (127 <? c)) && negb (c =? 10).

Lemma plain_clean (l : list Z) :
  forallb plain l = true → (10 ∉ l) ∧ existsb (λ c, (c =? 13) || (c =? 0) || (127 <? c)) l = false.
Proof.
  induction l as [|c l IH]; cbn; [intros _; split; [apply not_elem_of_nil|done]|].
  intros [[Hc%negb_true_iff H10%negb_true_iff]%andb_true_iff Hl]%andb_true_iff. destruct (IH Hl) as [Hn He].
  apply Z.eqb_neq in H10. rewrite Hc, He. split; [|done]. by apply not_elem_of_cons.
Qed.

Lemma unlines_clean lines :
  Forall (λ l, forallb plain l = true) lines →
  Forall (λ l, 10 ∉ l) lines ∧
  existsb (λ c, (c =? 13) || (c =? 0) || (127 <? c)) (unlines lines) = false.
Proof.
  induction 1 as [|l ls Hl _ [IH1 IH2]]; [done|]. destruct (plain_clean l Hl) as [Hn He].
  split; [by constructor|]. rewrite unlines_cons, existsb_app, He. cbn [existsb]. by rewrite IH2.
Qed.

Lemma last_unlines lines : lines ≠ [] → last (unlines lines) = Some 10.
Proof.
  intros Hne. destruct (exists_last Hne) as (ls&l&->). unfold unlines.
  rewrite fmap_app, join_app. cbn. rewrite (right_id [] (++)). rewrite (assoc_L (++)). apply last_snoc.
Qed.

Lemma canonicalLines_sound contents lines :
  canonicalLines contents = inr lines →
  contents = unlines lines ∧ (length lines = 11 ∨ length lines = 12)%nat.
Proof.
  unfold canonicalLines. case_bool_decide; cbn [negb]; [|done]. destruct (existsb _ contents); [done|].
  destruct (lineLoop _ contents []) as [e|ls] eqn:El; cbn [mbind throw_bind]; [done|].
  apply lineLoop_some in El as (more&->&->&_&_); [|lia|cbn; lia]. cbn [app].
  unfold kManifestV1LineCount, kManifestV2LineCount.
  destruct (Nat.eqb_spec (length more) 11), (Nat.eqb_spec (length more) 12); cbn [negb andb]; intros [= <-]; auto.
Qed.

Lemma canonicalLines_complete lines :
  Forall (λ l, forallb plain l = true) lines → (length lines = 11 ∨ length lines = 12)%nat →
  canonicalLines (unlines lines) = inr lines.
Proof.
  intros Hp Hlen. destruct (unlines_clean lines Hp) as [Hn He]. unfold canonicalLines.
  rewrite last_unlines by (intros ->; cbn in Hlen; lia). rewrite bool_decide_eq_true_2 by done. cbn [negb].
  rewrite He. assert (lineLoop (length (unlines lines)) (unlines lines) [] = inr lines) as ->.
  { apply lineLoop_some; [lia|cbn; lia|]. exists lines. split; [done|]. split; [done|]. split; [done|lia]. }
  cbn [mbind throw_bind]. unfold kManifestV1LineCount, kManifestV2LineCount.
  destruct Hlen as [-> | ->]; done.
Qed.

(** ** The canonical text *)

Definition kv (key : string) (v : list Z) : list Z := str key ++ ch "=" :: v.

Definition linesOf (m : BookCapacityEvidenceManifest) : list (list Z) :=
  let p := profile m in
  [kv "schema" (schema m); kv "profile_name" (name p);
   kv "corpus_manifest_sha256" (corpus_manifest_sha256 m); kv "profiler_sha256" (profiler_sha256 m)] ++
  (if bool_decide (schema m = kSchemaV2) then [kv "profile_output_sha256" (profile_output_sha256 m)] else []) ++
  [kv "order_direct_slots" (decimal (direct_slots (orders (config p))));
   kv "order_fallback_buckets" (decimal (fallback_bucket_count (orders (config p))));
   kv "price_page_capacity" (decimal (page_capacity (prices (config p))));
   kv "profiled_max_order_ref" (decimal (profiled_max_order_reference (evidence p)));
   kv "profiled_unique_price_pages" (decimal (profiled_unique_price_pages (evidence p)));
   kv "minimum_direct_order_headroom" (decimal (direct_order_reference_slots (minimum_headroom p)));
   kv "minimum_price_page_headroom" (decimal (price_pages (minimum_headroom p)))].

Definition render (m : BookCapacityEvidenceManifest) : list Z := unlines (linesOf m).

(** What a manifest holds. *)
Record manifest_ok (m : BookCapacityEvidenceManifest) : Prop := {
  mo_schema : (schema m = kSchemaV1 ∧ profile_output_sha256 m = []) ∨
              (schema m = kSchemaV2 ∧ isLowerHexSha256 (profile_output_sha256 m) = true);
  mo_name : isProfileToken (name (profile m)) = true;
  mo_corpus : isLowerHexSha256 (corpus_manifest_sha256 m) = true;
  mo_profiler : isLowerHexSha256 (profiler_sha256 m) = true;
  mo_slots : 0 < direct_slots (orders (config (profile m))) <= max_u64;
  mo_buckets : 0 < fallback_bucket_count (orders (config (profile m))) <= max_u32;
  mo_pages : 0 < page_capacity (prices (config (profile m))) <= max_u32 - 1;
  mo_reference : 0 < profiled_max_order_reference (evidence (profile m)) <= max_u64;
  mo_unique : 0 < profiled_unique_price_pages (evidence (profile m)) <= max_u32 - 1;
  mo_direct : 0 < direct_order_reference_slots (minimum_headroom (profile m)) <= max_u64;
  mo_price : 0 < price_pages (minimum_headroom (profile m)) <= max_u32;
  mo_prefault : orders_prefault (orders (config (profile m))) = false ∧
                prices_prefault (prices (config (profile m))) = false;
  mo_valid : ∃ h, validateBookCapacityProfile (profile m) = inr h }.

(** ** Soundness *)

Ltac bind_inv H E :=
  match type of H with
  | mbind _ ?e = inr _ => destruct e as [?|?] eqn:E; cbn [mbind throw_bind] in H; [discriminate|]
  | (if ?b then inl _ else _) = inr _ => destruct b eqn:E; [discriminate|]
  end.

Lemma eleven_lines (l : list (list Z)) : length l = 11%nat →
  l = [nth 0 l []; nth 1 l []; nth 2 l []; nth 3 l []; nth 4 l []; nth 5 l []; nth 6 l []; nth 7 l [];
       nth 8 l []; nth 9 l []; nth 10 l []].
Proof. intros H. do 12 (destruct l as [|? l]; [try discriminate H; try reflexivity|]). discriminate H. Qed.

Lemma twelve_lines (l : list (list Z)) : length l = 12%nat →
  l = [nth 0 l []; nth 1 l []; nth 2 l []; nth 3 l []; nth 4 l []; nth 5 l []; nth 6 l []; nth 7 l [];
       nth 8 l []; nth 9 l []; nth 10 l []; nth 11 l []].
Proof. intros H. do 13 (destruct l as [|? l]; [try discriminate H; try reflexivity|]). discriminate H. Qed.

Lemma readManifest_some path file contents : readManifest path file = inr contents → file = Some contents.
Proof.
  unfold readManifest. case_bool_decide; [done|]. destruct file as [c|]; [|done].
  destruct (_ || _); [done|]. by intros [= <-].
Qed.

Lemma max_u32_small : max_u32 <= max_u64 ∧ max_u32 - 1 <= max_u64.
Proof. done. Qed.

Lemma load_sound path file nm sha m :
  loadBookCapacityEvidenceManifest path file nm sha = inr m →
  file = Some (render m) ∧ Sha256.sha256Hex (render m) = inr sha ∧
  evidence_sha256 (profile m) = sha ∧ name (profile m) = nm ∧ manifest_ok m.
Proof.
  intros H. unfold loadBookCapacityEvidenceManifest in H. bind_inv H E1. bind_inv H E2. bind_inv H E3.
  bind_inv H E4. bind_inv H E5. bind_inv H E6. bind_inv H E7. cbn zeta in H. bind_inv H E8.
  bind_inv H E9. bind_inv H E10. bind_inv H E11. bind_inv H E12. bind_inv H E13. bind_inv H E14.
  do 7 (let E := fresh "N" in bind_inv H E). cbn zeta in H. bind_inv H Ev. injection H as <-.
  apply readManifest_some in E3 as ->. apply negb_false_iff, bool_decide_eq_true in E5 as ->.
  apply canonicalLines_sound in E6 as [-> Hlen].
  apply field_some in E7. apply field_some in E9. apply field_some in E11. apply field_some in E12.
  apply orb_false_iff in E10 as [Htok%negb_false_iff ->%negb_false_iff%bool_decide_eq_true].
  apply orb_false_iff in E14 as [[Hx1%negb_false_iff Hx2%negb_false_iff]%orb_false_iff Hx3].
  destruct max_u32_small as [Hm1 Hm2].
  apply numberField_some in N as [N R]; [|done]. apply numberField_some in N0 as [N0 R0]; [|done].
  apply numberField_some in N1 as [N1 R1]; [|done]. apply numberField_some in N2 as [N2 R2]; [|done].
  apply numberField_some in N3 as [N3 R3]; [|done]. apply numberField_some in N4 as [N4 R4]; [|done].
  apply numberField_some in N5 as [N5 R5]; [|done].
  rewrite !u32_id in Ev |- * by (unfold fits, max_u32 in *; lia).
  set (m := mkManifest _ _ _ _ _).
  assert (l1 = linesOf m ∧
    ((l2 = kSchemaV1 ∧ l6 = []) ∨ (l2 = kSchemaV2 ∧ isLowerHexSha256 l6 = true))) as [Hlines Hschema].
  { unfold linesOf, kManifestV1LineCount, kManifestV2LineCount in *. cbn [schema m].
    destruct (decide (l2 = kSchemaV2)) as [->|Hne].
    - rewrite !(bool_decide_eq_true_2 (kSchemaV2 = kSchemaV2) eq_refl) in *. cbn [negb andb orb] in *.
      rewrite (bool_decide_eq_false_2 (kSchemaV2 = kSchemaV1)) in E8 by (vm_compute; discriminate). cbn [negb andb orb] in E8.
      apply field_some in E13. split; [|right; split; [done|by apply negb_false_iff]].
      rewrite (twelve_lines l1) by (by apply Nat.eqb_eq, negb_false_iff).
      cbn [Nat.add] in *. rewrite E7, E9, E11, E12, E13, N, N0, N1, N2, N3, N4, N5. reflexivity.
    - rewrite !(bool_decide_eq_false_2 (l2 = kSchemaV2) Hne) in *. cbn [negb andb orb] in *.
      destruct (bool_decide (l2 = kSchemaV1)) eqn:Ev1; cbn [negb andb orb] in E8; [|done].
      apply bool_decide_eq_true in Ev1. injection E13 as <-. split; [|by left].
      rewrite (eleven_lines l1) by (rewrite orb_false_r in E8; by apply Nat.eqb_eq, negb_false_iff).
      cbn [Nat.add] in *. rewrite E7, E9, E11, E12, N, N0, N1, N2, N3, N4, N5. reflexivity. }
  unfold render. rewrite <- Hlines. split; [done|]. split; [done|]. split; [done|]. split; [done|].
  split; try done. by exists b.
Qed.

(** ** Completeness *)

Lemma forallb_impl (f g : Z → bool) l : (∀ c, f c = true → g c = true) → forallb f l = true → forallb g l = true.
Proof.
  intros Hfg. induction l as [|c l IH]; [done|]. cbn. intros [Hc Hl]%andb_true_iff. by rewrite (Hfg c Hc), IH.
Qed.

Lemma plain_range c : 32 <= c <= 126 → plain c = true.
Proof.
  intros Hc. unfold plain. rewrite (proj2 (Z.eqb_neq c 13)), (proj2 (Z.eqb_neq c 0)), (proj2 (Z.eqb_neq c 10)) by lia.
  by rewrite (proj2 (Z.ltb_ge 127 c)) by lia.
Qed.

Lemma hex_plain v : isLowerHexSha256 v = true → forallb plain v = true ∧ length v = 64%nat.
Proof.
  unfold isLowerHexSha256. intros [Hl%Nat.eqb_eq Hc]%andb_true_iff. split; [|done].
  eapply forallb_impl; [|exact Hc]. intros c [H|H]%orb_true_iff; apply andb_true_iff in H as [H1%Z.leb_le H2%Z.leb_le];
    apply plain_range; lia.
Qed.

Lemma token_plain v : isProfileToken v = true → forallb plain v = true ∧ (length v <= 128)%nat.
Proof.
  unfold isProfileToken. intros [[_ Hl%Nat.leb_le]%andb_true_iff Hc]%andb_true_iff. split; [|done].
  eapply forallb_impl; [|exact Hc]. intros c Hcc. apply plain_range. unfold isProfileChar in Hcc.
  repeat (apply orb_true_iff in Hcc as [Hcc|Hcc];
    [|apply Z.eqb_eq in Hcc as ->; done]).
  apply orb_true_iff in Hcc as [[Hcc|Hcc]%orb_true_iff|Hcc]; apply andb_true_iff in Hcc as [H1%Z.leb_le H2%Z.leb_le]; lia.
Qed.

Lemma decimal_plain n : 0 <= n <= max_u64 → forallb plain (decimal n) = true ∧ (length (decimal n) <= 20)%nat.
Proof.
  intros Hn. destruct (digits_spec 20 n ltac:(unfold max_u64 in *; lia) ltac:(lia)) as (H1&_&_&_&H5&_).
  split; [|exact H5]. eapply forallb_impl; [|exact H1]. intros c Hc%isDigit_spec. apply plain_range. lia.
Qed.

Lemma kv_plain key v (k : nat) :
  forallb plain (str key) = true → forallb plain v = true ∧ (length v <= k)%nat →
  forallb plain (kv key v) = true ∧ (length (kv key v) <= length (str key) + 1 + k)%nat.
Proof.
  intros Hk [Hv Hl]. unfold kv. rewrite forallb_app. cbn [forallb]. rewrite Hk, Hv. split; [done|].
  rewrite length_app. cbn [length]. lia.
Qed.

(** Every line of a well-formed manifest is plain and short. *)
Lemma linesOf_plain m :
  manifest_ok m → Forall (λ l, forallb plain l = true ∧ (length l <= 200)%nat) (linesOf m).
Proof.
  intros [Hs Hn Hc Hp N1 N2 N3 N4 N5 N6 N7 _ _]. destruct max_u32_small as [Hm1 Hm2].
  assert (∀ key v k, forallb plain (str key) = true → (length (str key) + 1 + k <= 200)%nat →
    forallb plain v = true ∧ (length v <= k)%nat → forallb plain (kv key v) = true ∧ (length (kv key v) <= 200)%nat) as Hkv.
  { intros key v k H1 H2 H3. destruct (kv_plain key v k H1 H3). split; [done|lia]. }
  assert (∀ v, isLowerHexSha256 v = true → forallb plain v = true ∧ (length v <= 64)%nat) as Hhex
    by (intros v Hv; destruct (hex_plain v Hv); split; [done|lia]).
  assert (∀ n, 0 < n <= max_u64 → forallb plain (decimal n) = true ∧ (length (decimal n) <= 20)%nat) as Hdec
    by (intros n Hr; apply decimal_plain; lia).
  unfold linesOf. cbn [app]. repeat (apply Forall_cons; split).
  - apply (Hkv _ _ 40%nat); [done|cbn; lia|]. destruct Hs as [[-> _]|[-> _]]; (split; [done|cbn; lia]).
  - apply (Hkv _ _ 128%nat); [done|cbn; lia|]. by apply token_plain.
  - apply (Hkv _ _ 64%nat); [done|cbn; lia|]. by apply Hhex.
  - apply (Hkv _ _ 64%nat); [done|cbn; lia|]. by apply Hhex.
  - apply Forall_app. split.
    + case_bool_decide as E2; [|constructor]. apply Forall_singleton. apply (Hkv _ _ 64%nat); [done|cbn; lia|].
      apply Hhex. destruct Hs as [[Hs1 _]|[_ ?]]; [|done]. rewrite Hs1 in E2. by vm_compute in E2.
    + repeat (apply Forall_cons; split); try apply Forall_nil_2.
      all: apply (Hkv _ _ 20%nat); [done|cbn; lia|]; apply Hdec; lia.
Qed.

Lemma linesOf_length m : (length (linesOf m) = if bool_decide (schema m = kSchemaV2) then 12 else 11)%nat.
Proof. unfold linesOf. by case_bool_decide. Qed.

Lemma unlines_length lines k :
  Forall (λ l, (length l <= k)%nat) lines → (length (unlines lines) <= length lines * (k + 1))%nat.
Proof.
  induction 1 as [|l ls Hl _ IH]; [done|]. rewrite unlines_cons, length_app. cbn [length]. lia.
Qed.

Lemma field_kv key v : field (kv key v) (str key) = inr v.
Proof. by apply field_some. Qed.

Lemma number_kv lines i key n maximum :
  nth i lines [] = kv key (decimal n) → maximum <= max_u64 → 0 < n <= maximum →
  numberField lines i (str key) maximum = inr n.
Proof. intros Hl Hm Hn. by apply numberField_some. Qed.

Lemma u32_max n : 0 < n <= max_u32 → u32 n = n.
Proof. intros Hn. apply u32_id. unfold fits, max_u32 in *. lia. Qed.

Lemma profile_eta p :
  orders_prefault (orders (config p)) = false → prices_prefault (prices (config p)) = false →
  mkProfile (name p) (evidence_sha256 p)
    (mkConfig (mkOrders (direct_slots (orders (config p))) (fallback_bucket_count (orders (config p))) false)
       (mkPrices (page_capacity (prices (config p))) false))
    (mkEvidence (profiled_max_order_reference (evidence p)) (profiled_unique_price_pages (evidence p)))
    (mkHeadroom (direct_order_reference_slots (minimum_headroom p)) (price_pages (minimum_headroom p))) = p.
Proof. destruct p as [? ? [[] []] [] []]. cbn. by intros -> ->. Qed.

Lemma load_complete path nm sha m :
  path ≠ [] → Sha256.sha256Hex (render m) = inr sha → evidence_sha256 (profile m) = sha →
  name (profile m) = nm → manifest_ok m →
  loadBookCapacityEvidenceManifest path (Some (render m)) nm sha = inr m.
Proof.
  intros Hpath Hsha Hev Hname Hok. pose proof (linesOf_plain m Hok) as Hplain.
  pose proof (linesOf_length m) as Hlen.
  assert (Forall (λ l, forallb plain l = true) (linesOf m)) as Hpl by (eapply Forall_impl; [exact Hplain|]; by intros ? [? _]).
  assert (length (render m) <= 12 * 201)%nat as Hbytes.
  { etrans; [apply (unlines_length _ 200); eapply Forall_impl; [exact Hplain|]; by intros ? [_ ?]|].
    rewrite Hlen. case_bool_decide; lia. }
  assert (length (render m) ≠ 0)%nat as Hnonempty.
  { unfold render, linesOf. cbn [app]. rewrite unlines_cons, length_app. cbn [length]. lia. }
  destruct Hok as [Hs Htok Hx1 Hx2 R R0 R1 R2 R3 R4 R5 [Hpf1 Hpf2] [h Hvalid]].
  destruct max_u32_small as [Hm1 Hm2].
  assert (isLowerHexSha256 sha = true) as Hxsha.
  { unfold validateBookCapacityProfile in Hvalid. bind_inv Hvalid V1. bind_inv Hvalid V2. bind_inv Hvalid V3.
    rewrite Hev in V3. by apply negb_false_iff in V3. }
  unfold loadBookCapacityEvidenceManifest. rewrite <- Hname, Htok, Hxsha. cbn [negb].
  unfold readManifest. rewrite (bool_decide_eq_false_2 _ Hpath).
  rewrite (proj2 (Z.leb_gt (Z.of_nat (length (render m))) 0)) by lia.
  rewrite (proj2 (Z.ltb_ge kMaximumManifestBytes _)) by (unfold kMaximumManifestBytes; lia). cbn [orb mbind throw_bind].
  rewrite Hsha. cbn [mbind throw_bind]. rewrite (bool_decide_eq_true_2 (sha = sha)) by done. cbn [negb].
  unfold render at 1. rewrite canonicalLines_complete; [|done|rewrite Hlen; case_bool_decide; auto].
  cbn [mbind throw_bind]. set (L := linesOf m) in *.
  assert (nth 0 L [] = kv "schema" (schema m) ∧ nth 1 L [] = kv "profile_name" (name (profile m)) ∧
    nth 2 L [] = kv "corpus_manifest_sha256" (corpus_manifest_sha256 m) ∧
    nth 3 L [] = kv "profiler_sha256" (profiler_sha256 m)) as (-> & -> & -> & ->) by done.
  rewrite !field_kv. cbn [mbind throw_bind]. cbn zeta.
  match goal with |- (if ?b then _ else _) = _ => assert (b = false) as -> end.
  { rewrite Hlen. unfold kManifestV1LineCount, kManifestV2LineCount.
    destruct Hs as [[-> _]|[-> _]]; vm_compute; reflexivity. }
  rewrite Htok, (bool_decide_eq_true_2 (name (profile m) = _)) by done. cbn [negb orb].
  assert ((if bool_decide (schema m = kSchemaV2) then field (nth 4 L []) (str "profile_output_sha256") else inr []) =
    inr (profile_output_sha256 m) ∧
    bool_decide (schema m = kSchemaV2) && negb (isLowerHexSha256 (profile_output_sha256 m)) = false) as [-> Hx3].
  { unfold L, linesOf. destruct Hs as [[-> ->]|[-> ->]].
    - by rewrite bool_decide_eq_false_2 by (vm_compute; discriminate).
    - rewrite bool_decide_eq_true_2 by done. split; [apply field_kv|done]. }
  cbn [mbind throw_bind]. rewrite Hx1, Hx2, Hx3. cbn [negb orb].
  set (off := if bool_decide (schema m = kSchemaV2) then 1%nat else 0%nat).
  assert (∀ i, (i <= 6)%nat → nth (4 + i + off) L [] = nth i
    [kv "order_direct_slots" (decimal (direct_slots (orders (config (profile m)))));
     kv "order_fallback_buckets" (decimal (fallback_bucket_count (orders (config (profile m)))));
     kv "price_page_capacity" (decimal (page_capacity (prices (config (profile m)))));
     kv "profiled_max_order_ref" (decimal (profiled_max_order_reference (evidence (profile m))));
     kv "profiled_unique_price_pages" (decimal (profiled_unique_price_pages (evidence (profile m))));
     kv "minimum_direct_order_headroom" (decimal (direct_order_reference_slots (minimum_headroom (profile m))));
     kv "minimum_price_page_headroom" (decimal (price_pages (minimum_headroom (profile m))))] []) as Hnth.
  { intros i Hi. unfold L, linesOf, off. destruct (bool_decide (schema m = kSchemaV2)).
    all: do 7 (destruct i as [|i]; [done|]); lia. }
  rewrite (number_kv L (4 + off) "order_direct_slots" _ max_u64 (Hnth 0%nat ltac:(lia)) ltac:(done) R). cbn [mbind throw_bind].
  rewrite (number_kv L (5 + off) "order_fallback_buckets" _ max_u32 (Hnth 1%nat ltac:(lia)) ltac:(done) R0). cbn [mbind throw_bind].
  rewrite (number_kv L (6 + off) "price_page_capacity" _ (max_u32 - 1) (Hnth 2%nat ltac:(lia)) ltac:(done) R1). cbn [mbind throw_bind].
  rewrite (number_kv L (7 + off) "profiled_max_order_ref" _ max_u64 (Hnth 3%nat ltac:(lia)) ltac:(done) R2). cbn [mbind throw_bind].
  rewrite (number_kv L (8 + off) "profiled_unique_price_pages" _ (max_u32 - 1) (Hnth 4%nat ltac:(lia)) ltac:(done) R3). cbn [mbind throw_bind].
  rewrite (number_kv L (9 + off) "minimum_direct_order_headroom" _ max_u64 (Hnth 5%nat ltac:(lia)) ltac:(done) R4). cbn [mbind throw_bind].
  rewrite (number_kv L (10 + off) "minimum_price_page_headroom" _ max_u32 (Hnth 6%nat ltac:(lia)) ltac:(done) R5). cbn [mbind throw_bind].
  rewrite !u32_max by lia. rewrite <- Hev, (profile_eta (profile m)) by done. rewrite Hvalid. cbn [mbind throw_bind].
  f_equal. by destruct m.
Qed.

(** ** Properties *)

(** C34. The loader accepts exactly one text per manifest: it returns a manifest
    exactly when the file is the canonical rendering of that manifest, its SHA-256 is
    the configured digest (which becomes the profile's evidence hash), the profile has
    the configured name, all values are in range and the profile is admissible.  So
    loading is the inverse of rendering, and no other spelling, order of keys, line
    ending or leading zero is accepted. *)
Theorem manifest_canonical path file nm sha m :
  path ≠ [] →
  loadBookCapacityEvidenceManifest path file nm sha = inr m ↔
  file = Some (render m) ∧ Sha256.sha256Hex (render m) = inr sha ∧
  evidence_sha256 (profile m) = sha ∧ name (profile m) = nm ∧ manifest_ok m.
Proof.
  intros Hp. split; [apply load_sound|]. intros (->&H1&H2&H3&H4). by apply load_complete.
Qed.

Definition sampleManifest (digest : list Z) : BookCapacityEvidenceManifest :=
  mkManifest (mkProfile (str "lab-1") digest (mkConfig (mkOrders 1048576 4096 false) (mkPrices 512 false))
    (mkEvidence 1000000 300) (mkHeadroom 40000 100))
    (replicate 64 48) (replicate 64 97) (replicate 64 49) kSchemaV2.

Definition sampleDigest : list Z :=
  Eval vm_compute in match Sha256.sha256Hex (render (sampleManifest [])) with inr d => d | inl _ => [] end.

Lemma sample_digest : Sha256.sha256Hex (render (sampleManifest sampleDigest)) = inr sampleDigest.
Proof. vm_compute. reflexivity. Qed.

Lemma sampleManifest_ok : manifest_ok (sampleManifest sampleDigest).
Proof.
  split; try done; [right; done|]. eexists. vm_compute. reflexivity.
Qed.

Lemma manifest_canonical_witness :
  loadBookCapacityEvidenceManifest [47] (Some (render (sampleManifest sampleDigest))) (str "lab-1") sampleDigest =
  inr (sampleManifest sampleDigest).
Proof.
  apply manifest_canonical; [discriminate|]. split; [reflexivity|]. split; [exact sample_digest|].
  split; [reflexivity|]. split; [reflexivity|exact sampleManifest_ok].
Defined.

End ManifestProps.
