(* ===== verification/Dpdk.v ===== *)
(** The kernel-bypass packet source of [source/DpdkReceiver.cpp]: its environment
    settings, the frame parser and the receiver.

    DPDK is not part of the program.  A frame buffer ([rte_mbuf]) is its address, whether
    it is contiguous, and its bytes; what the coming calls of [rte_eth_rx_burst] return
    is the list [device], arbitrary in every theorem ([[]], or an exhausted list, for a
    poll that finds nothing); [freed] lists the addresses given to [rte_pktmbuf_free].
    [clock n] is the result of the [n]-th [rdtsc].  The header sizes and field offsets
    are those of the Ethernet, 802.1Q, IPv4 and UDP wire formats. *)
From stdpp Require Import base list strings.
From Stdlib Require Import ZArith Lia Ascii.
From S2P Require Import Prelude Bits BookTypes Protocol Gap Capacity Manifest Engine.
#[local] Open Scope Z_scope.
#[local] Open Scope astra_scope.

Module DpdkReceiver.
Import Protocol.

(** ** Settings *)

Definition kQinqEtherType : Z := 0x88A8.
Definition kIpv4FragmentOffsetMask : Z := 0x1FFF.
Definition kIpv4MoreFragmentsFlag : Z := 0x2000.
Definition kMaxBurstSize : Z := 256.
Definition kDefaultBurstSize : Z := 32.

Inductive LatencyMode := LatencyPacket | LatencyBurst.
#[global] Instance LatencyMode_eq_dec : EqDecision LatencyMode.
Proof. solve_decision. Defined.

Section settings.
(** [std::getenv]; a value has no zero byte. *)
Variable getenv : string → option (list Z).

Definition envFlag (name : string) (fallback : bool) : string + bool :=
  match getenv name with
  | None => inr fallback
  | Some value =>
    if bool_decide (value ∈ [Manifest.str "0"; Manifest.str "false"; Manifest.str "off"; Manifest.str "no"])
    then inr false else
    if bool_decide (value ∈ [Manifest.str "1"; Manifest.str "true"; Manifest.str "on"; Manifest.str "yes"])
    then inr true else
    inl (name +:+ " must be one of on/off, true/false, yes/no, 1/0")%string
  end.

Definition isSpace (c : Z) : bool := ((9 <=? c) && (c <=? 13)) || (c =? 32).

Fixpoint skipSpace (s : list Z) : list Z :=
  match s with
  | c :: rest => if isSpace c then skipSpace rest else s
  | [] => []
  end.

(** [std::strtoul] in base ten, on a 64-bit [unsigned long]: the value, the rest of
    the string from [end] on, and whether [errno] is set. *)
Definition strtoul (value : list Z) : Z * list Z * bool :=
  let s := skipSpace value in
  let '(negative, s) :=
    match s with
    | c :: rest => if c =? ch "-" then (true, rest) else if c =? ch "+" then (false, rest) else (false, s)
    | [] => (false, [])
    end in
  let digits := Manifest.digitPrefix s in
  let magnitude := Manifest.decimalValue digits in
  if Nat.eqb (length digits) 0 then (0, value, false) else
  if max_u64 <? magnitude then (max_u64, drop (length digits) s, true) else
  (if negative then u64 (- magnitude) else magnitude, drop (length digits) s, false).

Definition envUnsigned (name : string) (fallback minimum maximum : Z) : string + Z :=
  match getenv name with
  | None | Some [] => inr fallback
  | Some value =>
    let '(parsed, rest, error) := strtoul value in
    if error || bool_decide (rest = value) || negb (bool_decide (rest = []))
    then inl ("invalid unsigned integer in " +:+ name)%string else
    if (parsed <? minimum) || (maximum <? parsed)
    then inl ("out-of-range unsigned integer in " +:+ name)%string else inr parsed
  end.

Definition dpdkBurstSize : string + Z :=
  burst_size ← envUnsigned "ASTRA_DPDK_BURST_SIZE" kDefaultBurstSize 1 kMaxBurstSize;
  if negb (burst_size mod 8 =? 0) then inl "ASTRA_DPDK_BURST_SIZE must be divisible by 8"%string
  else inr burst_size.

Definition dpdkLatencyMode : string + LatencyMode :=
  match getenv "ASTRA_DPDK_LATENCY_MODE" with
  | None | Some [] => inr LatencyPacket
  | Some value =>
    if bool_decide (value = Manifest.str "packet") then inr LatencyPacket else
    if bool_decide (value = Manifest.str "burst") then inr LatencyBurst else
    inl "invalid ASTRA_DPDK_LATENCY_MODE (expected packet or burst)"%string
  end.

End settings.

(** The loop of [splitArgs] over the characters that are left. *)
Fixpoint splitLoop (args current : list Z) (result : list (list Z)) (in_single in_double : bool) :
  list Z * list (list Z) * bool * bool :=
  match args with
  | [] => (current, result, in_single, in_double)
  | c :: args =>
    if (c =? ch "'") && negb in_double then splitLoop args current result (negb in_single) in_double else
    if (c =? 34) && negb in_single then splitLoop args current result in_single (negb in_double) else
    if ((c =? 32) || (c =? 9) || (c =? 10)) && negb in_single && negb in_double then
      if bool_decide (current = []) then splitLoop args current result in_single in_double
      else splitLoop args [] (result ++ [current]) in_single in_double
    else splitLoop args (current ++ [c]) result in_single in_double
  end.

Definition splitArgs (args : list Z) : string + list (list Z) :=
  let '(current, result, in_single, in_double) := splitLoop args [] [] false false in
  if in_single || in_double then inl "unclosed quote in ASTRA_DPDK_EAL_ARGS"%string else
  inr (if bool_decide (current = []) then result else result ++ [current]).

(** ** Endpoints *)

Definition isVlanEtherType (ether_type : Z) : bool := (ether_type =? 0x8100) || (ether_type =? kQinqEtherType).

(** Addresses are compared as they are stored in the header. *)
Record EndpointFilter := mkEndpoint {
  ip : Z;
  port : Z;
  match_ip : bool;
  enabled : bool }.

Definition noEndpoint : EndpointFilter := mkEndpoint 0 0 false false.

Definition matches (e : EndpointFilter) (dst_ip dst_port : Z) : bool :=
  enabled e && (dst_port =? port e) && (negb (match_ip e) || (dst_ip =? ip e)).

(** [inet_pton] gives the address in a dotted string, if it is one. *)
Definition makeEndpoint (inet_pton : list Z → option Z) (ip : option (list Z)) (port : Z) : string + EndpointFilter :=
  match ip with
  | None => inr (mkEndpoint 0 port false true)
  | Some ip =>
    if bool_decide (ip ∈ [[]; Manifest.str "*"; Manifest.str "any"; Manifest.str "0.0.0.0"])
    then inr (mkEndpoint 0 port false true) else
    match inet_pton ip with
    | None => inl "inet_pton: bad address"%string
    | Some addr => inr (mkEndpoint addr port true true)
    end
  end.

(** ** The frame parser *)

Inductive ParseStatus := Accepted | Filtered | Malformed.
#[global] Instance ParseStatus_eq_dec : EqDecision ParseStatus.
Proof. solve_decision. Defined.

(** [payload] is the offset in the frame of what the pointer points to. *)
Record ParsedPacket := mkParsed {
  status : ParseStatus;
  payload : option nat;
  payload_size : nat;
  line_index : Z;
  fast_path : bool }.

Definition failed (s : ParseStatus) (fast : bool) : ParsedPacket := mkParsed s None 0 0 fast.

Definition etherSize : nat := 14.
Definition vlanSize : nat := 4.
Definition ipv4Size : nat := 20.
Definition udpSize : nat := 8.
Definition etherTypeIpv4 : Z := 0x0800.
Definition protocolUdp : Z := 17.

(** A 16-bit field in network order, as a size. *)
Definition size16 (frame : list Z) (off : nat) : nat := Z.to_nat (readU16BE frame off).

(** The VLAN tags: the offset behind them and the type found there, [None] when the
    frame ends in a tag. *)
Fixpoint vlanLoop (depth : nat) (frame : list Z) (offset : nat) (ether_type : Z) : option (nat * Z) :=
  match depth with
  | O => Some (offset, ether_type)
  | S depth =>
    if isVlanEtherType ether_type then
      if Nat.ltb (length frame) (offset + vlanSize) then None
      else vlanLoop depth frame (offset + vlanSize) (readU16BE frame (offset + 2))
    else Some (offset, ether_type)
  end.

Section lines.
Variables line_a line_b : EndpointFilter.

Definition parseGeneral (frame : list Z) : ParsedPacket :=
  let frame_len := length frame in
  if Nat.ltb frame_len etherSize then failed Malformed false else
  match vlanLoop 2 frame etherSize (readU16BE frame 12) with
  | None => failed Malformed false
  | Some (offset, ether_type) =>
    if negb (ether_type =? etherTypeIpv4) then failed Filtered false else
    if Nat.ltb frame_len (offset + ipv4Size) then failed Malformed false else
    let version_ihl := byteAt frame offset in
    let version := version_ihl ≫ 4 in
    let ipv4_header_len := (Z.to_nat (version_ihl .& 0x0F) * 4)%nat in
    if negb (version =? 4) || Nat.ltb ipv4_header_len ipv4Size then failed Malformed false else
    if Nat.ltb frame_len (offset + ipv4_header_len) then failed Malformed false else
    let total_len := size16 frame (offset + 2) in
    if Nat.ltb total_len ipv4_header_len || Nat.ltb frame_len (offset + total_len)
    then failed Malformed false else
    let fragment_offset := readU16BE frame (offset + 6) in
    if negb (fragment_offset .& (kIpv4FragmentOffsetMask .| kIpv4MoreFragmentsFlag) =? 0)
    then failed Malformed false else
    if negb (byteAt frame (offset + 9) =? protocolUdp) then failed Filtered false else
    let udp_offset := (offset + ipv4_header_len)%nat in
    if Nat.ltb frame_len (udp_offset + udpSize) then failed Malformed false else
    let dst_port := readU16BE frame (udp_offset + 2) in
    let udp_len := size16 frame (udp_offset + 4) in
    if Nat.ltb udp_len udpSize then failed Malformed false else
    if Nat.ltb (offset + total_len) (udp_offset + udp_len) then failed Malformed false else
    let payload_size := (udp_len - udpSize)%nat in
    if kMaxPacketSize <? Z.of_nat payload_size then failed Malformed false else
    let dst_addr := readU32BE frame (offset + 16) in
    if matches line_a dst_addr dst_port
    then mkParsed Accepted (Some (udp_offset + udpSize)%nat) payload_size 0 false else
    if matches line_b dst_addr dst_port
    then mkParsed Accepted (Some (udp_offset + udpSize)%nat) payload_size 1 false else
    failed Filtered false
  end.

Definition parseFast (frame : list Z) : ParsedPacket :=
  let frame_len := length frame in
  let udp_offset := (etherSize + ipv4Size)%nat in
  let payload_offset := (udp_offset + udpSize)%nat in
  if Nat.ltb frame_len etherSize then failed Malformed true else
  if negb (readU16BE frame 12 =? etherTypeIpv4) then parseGeneral frame else
  if Nat.ltb frame_len payload_offset then failed Malformed true else
  if negb (byteAt frame etherSize =? 0x45) then parseGeneral frame else
  let total_len := size16 frame (etherSize + 2) in
  if Nat.ltb total_len (ipv4Size + udpSize) || Nat.ltb frame_len (etherSize + total_len)
  then failed Malformed true else
  let fragment_offset := readU16BE frame (etherSize + 6) in
  if negb (fragment_offset .& (kIpv4FragmentOffsetMask .| kIpv4MoreFragmentsFlag) =? 0)
  then failed Malformed true else
  if negb (byteAt frame (etherSize + 9) =? protocolUdp) then failed Filtered true else
  let dst_port := readU16BE frame (udp_offset + 2) in
  let udp_len := size16 frame (udp_offset + 4) in
  if Nat.ltb udp_len udpSize || Nat.ltb (etherSize + total_len) (udp_offset + udp_len)
  then failed Malformed true else
  let payload_size := (udp_len - udpSize)%nat in
  if kMaxPacketSize <? Z.of_nat payload_size then failed Malformed true else
  let dst_addr := readU32BE frame (etherSize + 16) in
  if matches line_a dst_addr dst_port then mkParsed Accepted (Some payload_offset) payload_size 0 true else
  if matches line_b dst_addr dst_port then mkParsed Accepted (Some payload_offset) payload_size 1 true else
  failed Filtered true.

End lines.

(** [struct rte_mbuf]. *)
Record Mbuf := mkMbuf {
  address : nat;
  contiguous : bool;
  frame : list Z }.

Definition parse (line_a line_b : EndpointFilter) (m : Mbuf) : ParsedPacket :=
  if negb (contiguous m) then failed Malformed false else parseFast line_a line_b (frame m).

(** ** The receiver *)

Record Counters := mkCounters {
  packets_a : Z;
  packets_b : Z;
  filtered_count : Z;
  malformed_count : Z;
  fast_path_count : Z;
  fallback_path_count : Z;
  poll_count : Z;
  empty_poll_count : Z }.

(** The settings fixed by the constructor. *)
Record Settings := mkSettings {
  line_a : EndpointFilter;
  line_b : EndpointFilter;
  burst_size : nat;
  latency_mode : LatencyMode;
  timestamping_enabled : bool }.

Record t := mk {
  settings : Settings;
  burst : list Mbuf;
  burst_index : nat;
  burst_count : nat;
  burst_receive_start_ticks : Z;
  delivered_mbuf : option Mbuf;
  counters : Counters;
  device : list (list Mbuf);
  reads : nat;
  freed : list nat }.

Definition make (a b : EndpointFilter) (size : nat) (mode : LatencyMode) (device : list (list Mbuf)) : t :=
  mk (mkSettings a b size mode true) (replicate size (mkMbuf 0 false [])) 0 0 0 None
     (mkCounters 0 0 0 0 0 0 0 0) device 0 [].

Definition with_burst (r : t) (b : list Mbuf) (index count : nat) : t :=
  mk (settings r) b index count (burst_receive_start_ticks r) (delivered_mbuf r) (counters r) (device r) (reads r) (freed r).
Definition with_burst_ticks (r : t) (v : Z) : t :=
  mk (settings r) (burst r) (burst_index r) (burst_count r) v (delivered_mbuf r) (counters r) (device r) (reads r) (freed r).
Definition with_delivered (r : t) (m : option Mbuf) : t :=
  mk (settings r) (burst r) (burst_index r) (burst_count r) (burst_receive_start_ticks r) m (counters r) (device r) (reads r) (freed r).
Definition with_counters (r : t) (c : Counters) : t :=
  mk (settings r) (burst r) (burst_index r) (burst_count r) (burst_receive_start_ticks r) (delivered_mbuf r) c (device r) (reads r) (freed r).
Definition with_device (r : t) (d : list (list Mbuf)) : t :=
  mk (settings r) (burst r) (burst_index r) (burst_count r) (burst_receive_start_ticks r) (delivered_mbuf r) (counters r) d (reads r) (freed r).
Definition with_reads (r : t) (n : nat) : t :=
  mk (settings r) (burst r) (burst_index r) (burst_count r) (burst_receive_start_ticks r) (delivered_mbuf r) (counters r) (device r) n (freed r).
Definition with_freed (r : t) (l : list nat) : t :=
  mk (settings r) (burst r) (burst_index r) (burst_count r) (burst_receive_start_ticks r) (delivered_mbuf r) (counters r) (device r) (reads r) l.

(** *** The calls into DPDK and the clock *)

Definition rte_pktmbuf_free (r : t) (m : Mbuf) : t := with_freed r (freed r ++ [address m]).

(** The buffers land at the front of [burst_]. *)
Definition rte_eth_rx_burst (r : t) : nat * t :=
  match device r with
  | [] => (0%nat, r)
  | ms :: rest =>
    (length ms, with_burst (with_device r rest) (ms ++ drop (length ms) (burst r)) (burst_index r) (burst_count r))
  end.

Section receiver.
Variable clock : nat → Z.

Definition rdtsc (r : t) : Z * t := (clock (reads r), with_reads r (S (reads r))).

(** *** Operations *)

Definition releaseDelivered (r : t) : t :=
  match delivered_mbuf r with
  | Some m => with_delivered (rte_pktmbuf_free r m) None
  | None => r
  end.

(** The loop of [releaseCachedBurst], at most [n] turns. *)
Fixpoint releaseLoop (n : nat) (r : t) : t :=
  match n with
  | O => r
  | S n =>
    if Nat.ltb (burst_index r) (burst_count r) then
      releaseLoop n
        (with_burst (default r (rte_pktmbuf_free r <$> burst r !! burst_index r))
           (burst r) (S (burst_index r)) (burst_count r))
    else r
  end.

Definition releaseCachedBurst (r : t) : t :=
  let r := releaseLoop (burst_count r - burst_index r) r in with_burst r (burst r) 0 0.

(** The part of the destructor that gives the buffers back. *)
Definition destroy (r : t) : t := releaseCachedBurst (releaseDelivered r).

Definition countPoll (c : Counters) (empty : bool) : Counters :=
  mkCounters (packets_a c) (packets_b c) (filtered_count c) (malformed_count c) (fast_path_count c)
    (fallback_path_count c) (u64 (poll_count c + 1)) (if empty then u64 (empty_poll_count c + 1) else empty_poll_count c).

Definition receiveBurst (r : t) : bool * t :=
  let r := with_burst r (burst r) 0 0 in
  let '(start, r) :=
    if timestamping_enabled (settings r) && bool_decide (latency_mode (settings r) = LatencyBurst)
    then rdtsc r else (0, r) in
  let r := with_burst_ticks r start in
  let '(received, r) := rte_eth_rx_burst r in
  let r := with_counters r (countPoll (counters r) (Nat.eqb received 0)) in
  if Nat.eqb received 0 then (false, r) else (true, with_burst r (burst r) 0 received).

(** The path counter and the counter of the outcome. *)
Definition countParsed (c : Counters) (p : ParsedPacket) : Counters :=
  let accepted := bool_decide (status p = Accepted) in
  let bump (b : bool) (v : Z) := if b then u64 (v + 1) else v in
  mkCounters (bump (accepted && (line_index p =? 0)) (packets_a c))
    (bump (accepted && negb (line_index p =? 0)) (packets_b c))
    (bump (bool_decide (status p = Filtered)) (filtered_count c))
    (bump (bool_decide (status p = Malformed)) (malformed_count c))
    (bump (fast_path p) (fast_path_count c)) (bump (negb (fast_path p)) (fallback_path_count c))
    (poll_count c) (empty_poll_count c).

(** The bytes a parsed packet points to. *)
Definition packetData (m : Mbuf) (p : ParsedPacket) : option (list Z) :=
  (λ off, take (payload_size p) (drop off (frame m))) <$> payload p.

(** One turn of the loop of [next]: what it returns, [None] to go round again. *)
Definition attempt (r : t) : option (option PacketView) * t :=
  let '(ready, r) := if Nat.leb (burst_count r) (burst_index r) then receiveBurst r else (true, r) in
  if negb ready then (Some None, r) else
  match burst r !! burst_index r with
  | None => (Some None, r)
  | Some mbuf =>
    let r := with_burst r (burst r) (S (burst_index r)) (burst_count r) in
    let '(start, r) :=
      if timestamping_enabled (settings r)
      then if bool_decide (latency_mode (settings r) = LatencyBurst) then (burst_receive_start_ticks r, r) else rdtsc r
      else (0, r) in
    let parsed := parse (line_a (settings r)) (line_b (settings r)) mbuf in
    let r := with_counters r (countParsed (counters r) parsed) in
    match status parsed with
    | Filtered | Malformed => (None, rte_pktmbuf_free r mbuf)
    | Accepted => (Some (Some (packetData mbuf parsed, start)), with_delivered r (Some mbuf))
    end
  end.

(** The loop, [None] after [fuel] turns. *)
Fixpoint nextLoop (fuel : nat) (r : t) : option (option PacketView) * t :=
  match fuel with
  | O => (None, r)
  | S fuel =>
    let '(result, r) := attempt r in
    match result with
    | Some packet => (Some packet, r)
    | None => nextLoop fuel r
    end
  end.

(** The turns that suffice: one per buffer at hand or still to come, one per poll, and
    one for the poll that finds nothing. *)
Definition budget (r : t) : nat :=
  S (burst_count r - burst_index r + length (device r) + length (concat (device r))).

Definition next (r : t) : option PacketView * t :=
  let r := releaseDelivered r in
  let '(result, r) := nextLoop (budget r) r in (default None result, r).

(** The receiver as a packet source of the engine. *)
Definition dpdk_source : IMarketDataSource t := next.

End receiver.
End DpdkReceiver.
