(* ===== verification/DpdkProps.v ===== *)
(** What the DPDK receiver accepts and delivers: exactly the frames that carry an
    unfragmented UDP datagram for a configured endpoint, in order, each frame buffer
    given back once and never while the caller may still read it. *)
From stdpp Require Import base list strings.
From Stdlib Require Import ZArith Lia Ascii.
From S2P Require Import Prelude Bits BookTypes Protocol Gap Engine Dpdk.
#[local] Open Scope Z_scope.
#[local] Open Scope astra_scope.

Module DpdkProps.
Import Protocol DpdkReceiver.

(** ** The wire format *)

(** The fields of an Ethernet frame with an IPv4 packet that carries a UDP datagram,
    each as its bytes; [w_slack] is what the IPv4 packet holds behind the datagram and
    [w_padding] what the frame holds behind the packet. *)
Record Wire := mkWire {
  w_macs : list Z;
  w_tags : list (list Z * list Z);
  w_ihl : Z;
  w_tos : Z;
  w_total : list Z;
  w_ident : list Z;
  w_fragment : list Z;
  w_ttl : Z;
  w_checksum : list Z;
  w_source : list Z;
  w_destination : list Z;
  w_options : list Z;
  w_sport : list Z;
  w_port : list Z;
  w_length : list Z;
  w_udpsum : list Z;
  w_payload : list Z;
  w_slack : list Z;
  w_padding : list Z }.

(** The VLAN tags, each its type and its control field. *)
Definition tagBytes (tags : list (list Z * list Z)) : list Z := concat ((λ t, t.1 ++ t.2) <$> tags).
Definition tag_ok (t : list Z * list Z) : Prop :=
  length t.1 = 2%nat ∧ length t.2 = 2%nat ∧ isVlanEtherType (valueBE t.1) = true.

Definition link (w : Wire) : list Z :=
  w_macs w ++ tagBytes (w_tags w) ++ [8; 0].
Definition header (w : Wire) : list Z :=
  [64 + w_ihl w; w_tos w] ++ w_total w ++ w_ident w ++ w_fragment w ++ [w_ttl w; 17] ++
  w_checksum w ++ w_source w ++ w_destination w ++ w_options w.
Definition datagram (w : Wire) : list Z :=
  w_sport w ++ w_port w ++ w_length w ++ w_udpsum w ++ w_payload w.
Definition wireBytes (w : Wire) : list Z := link w ++ header w ++ datagram w ++ w_slack w ++ w_padding w.

Record wire_ok (w : Wire) : Prop := {
  wk_macs : length (w_macs w) = 12%nat;
  wk_depth : (length (w_tags w) <= 2)%nat;
  wk_tags : Forall tag_ok (w_tags w);
  wk_ihl : 5 <= w_ihl w <= 15;
  wk_options : Z.of_nat (length (w_options w)) = 4 * (w_ihl w - 5);
  wk_lengths : length (w_total w) = 2%nat ∧ length (w_ident w) = 2%nat ∧ length (w_fragment w) = 2%nat ∧
               length (w_checksum w) = 2%nat ∧ length (w_source w) = 4%nat ∧ length (w_destination w) = 4%nat ∧
               length (w_sport w) = 2%nat ∧ length (w_port w) = 2%nat ∧ length (w_length w) = 2%nat ∧
               length (w_udpsum w) = 2%nat;
  wk_whole : valueBE (w_fragment w) .& 0x3FFF = 0;
  wk_total : valueBE (w_total w) =
             Z.of_nat (length (header w) + length (datagram w) + length (w_slack w));
  wk_length : valueBE (w_length w) = Z.of_nat (length (datagram w));
  wk_payload : Z.of_nat (length (w_payload w)) <= kMaxPacketSize }.

(** The line a destination belongs to. *)
Definition route (a b : EndpointFilter) (dst port : Z) : option Z :=
  if matches a dst port then Some 0 else if matches b dst port then Some 1 else None.

(** What the parser accepts: offset, size and line. *)
Definition taken (p : ParsedPacket) : option (nat * nat * Z) :=
  match status p with
  | Accepted => (λ off, (off, payload_size p, line_index p)) <$> payload p
  | _ => None
  end.

(** The line and the bytes of an accepted buffer. *)
Definition accepted (a b : EndpointFilter) (m : Mbuf) : option (Z * list Z) :=
  (λ x, (x.2, take x.1.2 (drop x.1.1 (frame m)))) <$> taken (parse a b m).

(** ** The fast path agrees with the general parser *)

(** The checks on the packet at offset [o] whose header has [hl] bytes. *)
Definition packet_at (fr : list Z) (o hl : nat) : Prop :=
  (o + 20 <= length fr)%nat ∧ byteAt fr o ≫ 4 = 4 ∧ hl = (Z.to_nat (byteAt fr o .& 15) * 4)%nat ∧
  (20 <= hl <= size16 fr (o + 2))%nat ∧ (o + size16 fr (o + 2) <= length fr)%nat ∧
  readU16BE fr (o + 6) .& 0x3FFF = 0 ∧ byteAt fr (o + 9) = 17 ∧ (o + hl + 8 <= length fr)%nat ∧
  (8 <= size16 fr (o + hl + 4))%nat ∧ (hl + size16 fr (o + hl + 4) <= size16 fr (o + 2))%nat ∧
  Z.of_nat (size16 fr (o + hl + 4) - 8) <= kMaxPacketSize.

Definition found (a b : EndpointFilter) (fr : list Z) (x : nat * nat * Z) : Prop :=
  ∃ o hl, (14 <= length fr)%nat ∧ vlanLoop 2 fr 14 (readU16BE fr 12) = Some (o, 0x800) ∧ packet_at fr o hl ∧
    x.1 = (o + hl + 8, size16 fr (o + hl + 4) - 8)%nat ∧
    route a b (readU32BE fr (o + 16)) (readU16BE fr (o + hl + 2)) = Some x.2.

(** One test of the parser that the packet passes. *)
Ltac pass :=
  match goal with
  | |- taken (if ?c then failed _ _ else _) = _ → _ => destruct c eqn:?; [intros [=]|]
  end.

Ltac facts :=
  repeat match goal with
  | H : (_ || _)%bool = false |- _ => apply orb_false_iff in H as [? ?]
  | H : negb _ = false |- _ => apply negb_false_iff in H
  | H : Nat.ltb _ _ = false |- _ => apply Nat.ltb_ge in H
  | H : Nat.ltb _ _ = true |- _ => apply Nat.ltb_lt in H
  | H : Z.ltb _ _ = false |- _ => apply Z.ltb_ge in H
  | H : Z.eqb _ _ = true |- _ => apply Z.eqb_eq in H
  end.

Ltac sizes := unfold etherSize, ipv4Size, udpSize, vlanSize, protocolUdp, etherTypeIpv4 in *.

Lemma general_found a b fr x : taken (parseGeneral a b fr) = Some x → found a b fr x.
Proof.
  unfold parseGeneral. cbv zeta. pass. destruct (vlanLoop _ _ _ _) as [[o ty]|] eqn:Ev; [|intros [=]].
  repeat pass. facts. subst. intros Hx. exists o, (Z.to_nat (byteAt fr o .& 15) * 4)%nat.
  split; [done|]. split; [done|]. split.
  - split_and!; sizes; done || lia.
  - revert Hx. unfold route. clear. repeat case_match; by intros [= <-].
Qed.

Lemma found_general a b fr x : found a b fr x → taken (parseGeneral a b fr) = Some x.
Proof.
  intros (o&hl&Hl&Ev&(?&Hv&Eh&[? ?]&?&Hf&Hp&?&?&?&?)&Ex&Hr). destruct x as [x line]. cbn in Ex, Hr. subst x.
  unfold parseGeneral. cbv zeta.
  rewrite (proj2 (Nat.ltb_ge (length fr) etherSize)) by (by sizes). unfold etherSize. rewrite Ev, <- Eh, Hv. sizes.
  rewrite !Z.eqb_refl. cbn [negb orb].
  rewrite (proj2 (Nat.ltb_ge (length fr) (o + 20))), (proj2 (Nat.ltb_ge hl 20)),
    (proj2 (Nat.ltb_ge (length fr) (o + hl))), (proj2 (Nat.ltb_ge (size16 fr (o + 2)) hl)),
    (proj2 (Nat.ltb_ge (length fr) (o + size16 fr (o + 2)))) by lia.
  cbn [orb]. change (kIpv4FragmentOffsetMask .| kIpv4MoreFragmentsFlag) with 0x3FFF. rewrite Hf, Hp. cbn [Z.eqb negb].
  rewrite !Z.eqb_refl. cbn [negb].
  rewrite (proj2 (Nat.ltb_ge (length fr) (o + hl + 8))), (proj2 (Nat.ltb_ge (size16 fr (o + hl + 4)) 8)),
    (proj2 (Nat.ltb_ge (o + size16 fr (o + 2)) (o + hl + size16 fr (o + hl + 4)))) by lia.
  rewrite (proj2 (Z.ltb_ge _ _)) by done. revert Hr. unfold route. by repeat case_match; intros [= <-].
Qed.

(** In the shape of the fast path the packet starts behind the Ethernet header. *)
Lemma fast_found a b fr x : taken (parseFast a b fr) = Some x → found a b fr x.
Proof.
  unfold parseFast. cbv zeta. pass.
  destruct (readU16BE fr 12 =? etherTypeIpv4) eqn:E1; cbn [negb]; [|apply general_found]. pass.
  destruct (byteAt fr etherSize =? 0x45) eqn:E2; cbn [negb]; [|apply general_found].
  repeat pass. facts. intros Hx. exists 14%nat, 20%nat. unfold packet_at. sizes. rewrite E1, E2 in *.
  split; [done|]. split; [done|]. split.
  - split_and!; done || (cbn; lia) || lia.
  - revert Hx. unfold route. clear. repeat case_match; by intros [= <-].
Qed.

Lemma found_fast a b fr x : found a b fr x → taken (parseFast a b fr) = Some x.
Proof.
  intros Hfd. pose proof (found_general _ _ _ _ Hfd) as Hg. 
  destruct Hfd as (o&hl&Hl&Ev&(?&Hv&Eh&[? ?]&?&Hf&Hp&?&?&?&?)&Ex&Hr).
  unfold parseFast. cbv zeta. rewrite (proj2 (Nat.ltb_ge (length fr) etherSize)) by (by sizes).
  destruct (readU16BE fr 12 =? etherTypeIpv4) eqn:E1; cbn [negb]; [|done].
  apply Z.eqb_eq in E1. rewrite E1 in Ev. injection Ev as <-. sizes.
  rewrite (proj2 (Nat.ltb_ge (length fr) _)) by lia.
  destruct (byteAt fr 14 =? 0x45) eqn:E2; cbn [negb]; [|done].
  apply Z.eqb_eq in E2. rewrite E2 in Eh. change (Z.to_nat (69 .& 15) * 4)%nat with 20%nat in Eh. subst hl. destruct x as [x line]. cbn [fst snd] in Ex, Hr. subst x.
  change (14 + 20)%nat with 34%nat in *. change (14 + 16)%nat with 30%nat in *.
  rewrite (proj2 (Nat.ltb_ge (size16 fr (14 + 2)) _)), (proj2 (Nat.ltb_ge (length fr) _)) by lia. cbn [orb].
  change (kIpv4FragmentOffsetMask .| kIpv4MoreFragmentsFlag) with 0x3FFF. rewrite Hf, Hp. cbn [Z.eqb negb].
  rewrite !Z.eqb_refl. cbn [negb].
  rewrite (proj2 (Nat.ltb_ge (size16 fr (34 + 4)) 8)),
    (proj2 (Nat.ltb_ge (14 + size16 fr (14 + 2)) (34 + size16 fr (34 + 4)))) by lia. cbn [orb].
  rewrite (proj2 (Z.ltb_ge _ _)) by done. revert Hr. unfold route. by repeat case_match; intros [= <-].
Qed.

(** The fast path and the general parser accept the same frames with the same result. *)
Lemma fast_agrees a b fr : taken (parseFast a b fr) = taken (parseGeneral a b fr).
Proof. apply option_eq. intros x. split; intros H; [by apply found_general, fast_found|by apply found_fast, general_found]. Qed.

(** ** Fields of a byte string *)

Lemma byteAt_app l k n : byteAt (l ++ k) (length l + n) = byteAt k n.
Proof. unfold byteAt. by rewrite lookup_app_r, Nat.add_comm, Nat.add_sub by lia. Qed.

Lemma read16_app l k n : readU16BE (l ++ k) (length l + n) = readU16BE k n.
Proof. unfold readU16BE. by rewrite <- Nat.add_assoc, !byteAt_app. Qed.

Lemma read32_app l k n : readU32BE (l ++ k) (length l + n) = readU32BE k n.
Proof. unfold readU32BE. by rewrite <- !Nat.add_assoc, !byteAt_app. Qed.

Lemma read16_field pre part post :
  length part = 2%nat → bytes part → readU16BE (pre ++ part ++ post) (length pre) = valueBE part.
Proof.
  intros Hl Hb. apply (readU16BE_value _ _ part); [|done..]. by rewrite drop_app_length, <- Hl, take_app_length.
Qed.

Lemma read16_bytes fr o : bytes fr → (o + 2 <= length fr)%nat →
  take 2 (drop o fr) = putBE 2 (readU16BE fr o).
Proof.
  intros Hb Hl. assert (bytes (take 2 (drop o fr))) as Hb' by (by apply Forall_take, Forall_drop).
  assert (length (take 2 (drop o fr)) = 2%nat) as Hl' by (rewrite length_take, length_drop; lia).
  rewrite (readU16BE_value fr o _ eq_refl Hl' Hb'). destruct (take 2 (drop o fr)) as [|x [|y [|]]]; try done.
  apply Forall_cons in Hb' as [Hx Hb']. apply Forall_cons in Hb' as [Hy _].
  unfold valueBE. cbn [fold_left putBE app]. rewrite !land255, Z.shiftr_div_pow2 by lia. change (2 ^ 8) with 256.
  f_equal; [|f_equal]; [rewrite Z.div_add_l by lia|]; Z.div_mod_to_equations; lia.
Qed.

(** ** From the wire format to the parser *)

Section complete.
Context (w : Wire) (Hw : wire_ok w).

Lemma header_length : length (header w) = (20 + length (w_options w))%nat.
Proof. destruct (wk_lengths w Hw) as (?&?&?&?&?&?&_). unfold header. rewrite !length_app. cbn [length]. lia. Qed.

Lemma datagram_length : length (datagram w) = (8 + length (w_payload w))%nat.
Proof. destruct (wk_lengths w Hw) as (_&_&_&_&_&_&?&?&?&?). unfold datagram. rewrite !length_app. lia. Qed.

Lemma header_fields post : let pkt := header w ++ post in
  byteAt pkt 0 = 64 + w_ihl w ∧ take 2 (drop 2 pkt) = w_total w ∧ take 2 (drop 6 pkt) = w_fragment w ∧
  byteAt pkt 9 = 17 ∧ take 4 (drop 16 pkt) = w_destination w.
Proof.
  unfold header. destruct (wk_lengths w Hw) as (H1&H2&H3&H4&H5&H6&_).
  destruct (w_total w) as [|? [|? [|]]]; try discriminate H1. destruct (w_ident w) as [|? [|? [|]]]; try discriminate H2.
  destruct (w_fragment w) as [|? [|? [|]]]; try discriminate H3.
  destruct (w_checksum w) as [|? [|? [|]]]; try discriminate H4.
  destruct (w_source w) as [|? [|? [|? [|? [|]]]]]; try discriminate H5.
  by destruct (w_destination w) as [|? [|? [|? [|? [|]]]]]; try discriminate H6.
Qed.

Lemma datagram_fields post : let pkt := datagram w ++ post in
  take 2 (drop 2 pkt) = w_port w ∧ take 2 (drop 4 pkt) = w_length w ∧
  take (length (w_payload w)) (drop 8 pkt) = w_payload w.
Proof.
  unfold datagram. destruct (wk_lengths w Hw) as (_&_&_&_&_&_&H1&H2&H3&H4).
  destruct (w_sport w) as [|? [|? [|]]]; try discriminate H1. destruct (w_port w) as [|? [|? [|]]]; try discriminate H2.
  destruct (w_length w) as [|? [|? [|]]]; try discriminate H3. destruct (w_udpsum w) as [|? [|? [|]]]; try discriminate H4.
  split_and!; [done..|]. cbn. apply take_app_length.
Qed.

End complete.

Lemma tagBytes_length tags : Forall tag_ok tags → length (tagBytes tags) = (4 * length tags)%nat.
Proof.
  induction 1 as [|[t c] tags (Ht&Hc&_) _ IH]; [done|]. unfold tagBytes in *. cbn in *.
  rewrite !length_app, IH. lia.
Qed.

Lemma vlan_tags tags depth pre post fr :
  fr = pre ++ tagBytes tags ++ [8; 0] ++ post → bytes fr → Forall tag_ok tags → (length tags <= depth)%nat →
  vlanLoop depth fr (length pre + 2) (readU16BE fr (length pre)) =
  Some ((length pre + 4 * length tags + 2)%nat, 0x800).
Proof.
  intros Hfr Hb Ht. revert depth pre Hfr. induction Ht as [|[t c] tags (Hlt&Hlc&Hv) _ IH]; intros depth pre Hfr Hd.
  - assert (readU16BE fr (length pre) = 0x800) as ->.
    { rewrite Hfr. apply (read16_field pre [8; 0] post); [done|]. by repeat constructor. }
    cbn [length]. rewrite Nat.mul_0_r, Nat.add_0_r. by destruct depth.
  - destruct depth as [|depth]; [cbn in Hd; lia|]. unfold tagBytes in Hfr. cbn [fmap list_fmap concat fst snd] in *.
    assert (fr = pre ++ t ++ (c ++ tagBytes tags ++ [8; 0] ++ post)) as E.
    { rewrite Hfr. unfold tagBytes. by rewrite <- !app_assoc. }
    assert (readU16BE fr (length pre) = valueBE t) as ->.
    { rewrite E. apply read16_field; [done|]. rewrite E in Hb. by apply Forall_app in Hb as [_ [Hb _]%Forall_app]. }
    assert (length fr = length pre + (4 + (length (tagBytes tags) + (2 + length post))))%nat as Hlen.
    { rewrite E, !length_app. cbn [length]. lia. }
    cbn [vlanLoop]. rewrite Hv. rewrite (proj2 (Nat.ltb_ge (length fr) _)) by (unfold vlanSize; lia).
    specialize (IH depth (pre ++ t ++ c)). rewrite !length_app, Hlt, Hlc in IH.
    replace (length pre + 2 + vlanSize)%nat with (length pre + (2 + 2) + 2)%nat by (unfold vlanSize; lia).
    replace (length pre + 2 + 2)%nat with (length pre + (2 + 2))%nat by lia.
    rewrite IH; [f_equal; f_equal; cbn [length]; lia|by rewrite E, <- !app_assoc|cbn in Hd; lia].
Qed.

Lemma vlan_inv fr o : bytes fr → ∀ depth p, (p + 2 <= length fr)%nat →
  vlanLoop depth fr (p + 2) (readU16BE fr p) = Some (o, 0x800) →
  ∃ tags, (length tags <= depth)%nat ∧ Forall tag_ok tags ∧ drop p fr = tagBytes tags ++ [8; 0] ++ drop o fr ∧
    o = (p + 4 * length tags + 2)%nat ∧ (o <= length fr)%nat.
Proof.
  intros Hb. assert (∀ p, (p + 2 <= length fr)%nat → readU16BE fr p = 0x800 →
    drop p fr = [8; 0] ++ drop (p + 2) fr) as Hend.
  { intros p Hp E. pose proof (read16_bytes fr p Hb Hp) as Ht. rewrite E in Ht. change (putBE 2 2048) with [8; 0] in Ht.
    by rewrite <- Ht, <- drop_drop, take_drop. }
  induction depth as [|depth IH]; intros p Hp; cbn [vlanLoop].
  - intros [= <- E]. exists []. cbn. rewrite Nat.add_0_r. split_and!; [done|constructor|by apply Hend|done..].
  - destruct (isVlanEtherType _) eqn:Ev.
    2: { intros [= <- E]. exists []. cbn. rewrite Nat.add_0_r. split_and!; [lia|constructor|by apply Hend|done..]. }
    unfold vlanSize. destruct (Nat.ltb _ _) eqn:El; [done|]. apply Nat.ltb_ge in El. intros E.
    replace (p + 2 + 4)%nat with (p + 4 + 2)%nat in E by lia. replace (p + 2 + 2)%nat with (p + 4)%nat in E by lia.
    apply IH in E as (tags&Hd&Ht&Hdr&Ho&Hol); [|lia].
    assert (drop p fr = take 2 (drop p fr) ++ take 2 (drop (p + 2) fr) ++ drop (p + 4) fr) as Hsplit.
    { replace (p + 4)%nat with (p + 2 + 2)%nat by lia. rewrite <- (drop_drop fr 2 (p + 2)), take_drop, <- (drop_drop fr 2 p).
      by rewrite take_drop. }
    exists ((take 2 (drop p fr), take 2 (drop (p + 2) fr)) :: tags). split_and!.
    + cbn. lia.
    + constructor; [|done]. split_and!; cbn; [rewrite length_take, length_drop; lia..|].
      rewrite <- Ev. f_equal. symmetry. apply (readU16BE_value _ _ _ eq_refl);
        [rewrite length_take, length_drop; lia|by apply Forall_take, Forall_drop].
    + rewrite Hsplit at 1. unfold tagBytes. cbn [fmap list_fmap concat fst snd]. rewrite <- !app_assoc.
      do 2 f_equal. done.
    + cbn [length]. lia.
    + done.
Qed.

Lemma size16_value fr o part v :
  take 2 (drop o fr) = part → length part = 2%nat → bytes part → valueBE part = Z.of_nat v → size16 fr o = v.
Proof. intros Ht Hl Hb Hv. unfold size16. rewrite (readU16BE_value _ _ part Ht Hl Hb), Hv. lia. Qed.

Lemma drop_link (l k : list Z) n : drop (length l + n) (l ++ k) = drop n k.
Proof. by rewrite drop_app_ge, Nat.add_comm, Nat.add_sub by lia. Qed.

Lemma ihl_nibbles x : 5 <= x <= 15 → (64 + x) ≫ 4 = 4 ∧ (64 + x) .& 15 = x.
Proof.
  intros Hx. rewrite Z.shiftr_div_pow2 by lia. change ((64 + x) .& 15) with ((64 + x) .& Z.ones 4).
  rewrite Z.land_ones by lia. change (2 ^ 4) with 16. split; Z.div_mod_to_equations; lia.
Qed.

Lemma wire_found a b w line :
  wire_ok w → bytes (wireBytes w) → route a b (valueBE (w_destination w)) (valueBE (w_port w)) = Some line →
  found a b (wireBytes w) ((length (link w) + length (header w) + 8)%nat, length (w_payload w), line).
Proof.
  intros Hw Hb Hr. destruct (wk_lengths w Hw) as (L1&L2&L3&L4&L5&L6&L7&L8&L9&L10).
  pose proof (header_length w Hw) as Hhl. pose proof (datagram_length w Hw) as Hdl.
  set (post := datagram w ++ w_slack w ++ w_padding w).
  assert (wireBytes w = link w ++ header w ++ post) as E by done.
  destruct (header_fields w Hw post) as (F0&F1&F2&F3&F4).
  destruct (datagram_fields w Hw (w_slack w ++ w_padding w)) as (G1&G2&G3). fold post in G1, G2, G3.
  assert (bytes (header w) ∧ bytes (datagram w)) as [Hbh Hbd].
  { rewrite E in Hb. apply Forall_app in Hb as [_ Hb]. apply Forall_app in Hb as [Hb1 Hb].
    by apply Forall_app in Hb as [Hb2 _]. }
  assert (length (link w) = 12 + 4 * length (w_tags w) + 2)%nat as Hll.
  { unfold link. rewrite !length_app, (wk_macs w Hw), tagBytes_length by apply (wk_tags w Hw). cbn. lia. }
  assert (length (wireBytes w) = length (link w) + (length (header w) + (length (datagram w) +
    (length (w_slack w) + length (w_padding w)))))%nat as Hlen by (unfold wireBytes; by rewrite !length_app).
  destruct (ihl_nibbles _ (wk_ihl w Hw)) as [N1 N2]. pose proof (wk_options w Hw) as Ho.
  assert (bytes (w_total w) ∧ bytes (w_fragment w) ∧ bytes (w_destination w)) as (B1&B2&B3).
  { unfold header, bytes in *. rewrite !Forall_app in Hbh. by destruct_and! Hbh. }
  assert (bytes (w_port w) ∧ bytes (w_length w)) as (B4&B5).
  { unfold datagram, bytes in *. rewrite !Forall_app in Hbd. by destruct_and! Hbd. }
  assert (byteAt (wireBytes w) (length (link w)) = 64 + w_ihl w) as R0.
  { rewrite E, <- (Nat.add_0_r (length (link w))), byteAt_app. done. }
  assert (size16 (wireBytes w) (length (link w) + 2) =
    length (header w) + length (datagram w) + length (w_slack w))%nat as R1.
  { apply (size16_value _ _ (w_total w)); [by rewrite E, drop_link|done..|apply (wk_total w Hw)]. }
  assert (size16 (wireBytes w) (length (link w) + length (header w) + 4) = length (datagram w)) as R2.
  { apply (size16_value _ _ (w_length w)); [|done..|apply (wk_length w Hw)].
    by rewrite E, <- Nat.add_assoc, drop_link, drop_link. }
  exists (length (link w)), (length (header w)). unfold packet_at. rewrite R0, R1, R2, N1, N2.
  split; [lia|]. split.
  { rewrite E. unfold link. rewrite <- !app_assoc. rewrite <- (wk_macs w Hw) at 2.
    change 14%nat with (12 + 2)%nat. rewrite <- (wk_macs w Hw).
    erewrite (vlan_tags (w_tags w) 2 (w_macs w)); [|done|..|apply (wk_tags w Hw)|apply (wk_depth w Hw)].
    - f_equal. f_equal. rewrite !length_app, tagBytes_length by apply (wk_tags w Hw). cbn. lia.
    - rewrite E in Hb. unfold link in Hb. by rewrite <- !app_assoc in Hb. }
  split; [split_and!|split].
  - lia.
  - done.
  - rewrite Hhl. lia.
  - lia.
  - lia.
  - lia.
  - rewrite E, read16_app, (readU16BE_value _ _ _ F2) by done. apply (wk_whole w Hw).
  - by rewrite E, byteAt_app.
  - lia.
  - lia.
  - lia.
  - rewrite Hdl. replace (8 + length (w_payload w) - 8)%nat with (length (w_payload w)) by lia. apply (wk_payload w Hw).
  - cbn. rewrite Hdl. f_equal. lia.
  - cbn [snd]. rewrite E at 1. rewrite read32_app, (readU32BE_value _ _ _ F4) by done.
    rewrite E, <- Nat.add_assoc, read16_app, read16_app. by rewrite (readU16BE_value _ _ _ G1) by done.
Qed.

(** ** From the parser to the wire format *)

Lemma frame_byte_drop l n k : byteAt l (n + k) = byteAt (drop n l) k.
Proof. unfold byteAt. by rewrite lookup_drop. Qed.

Lemma read16_drop l n k : readU16BE l (n + k) = readU16BE (drop n l) k.
Proof. unfold readU16BE. by rewrite <- Nat.add_assoc, !frame_byte_drop. Qed.

Lemma read32_drop l n k : readU32BE l (n + k) = readU32BE (drop n l) k.
Proof. unfold readU32BE. by rewrite <- !Nat.add_assoc, !frame_byte_drop. Qed.

Lemma slice_bytes (l : list Z) o n : bytes l → bytes (take n (drop o l)).
Proof. intros. by apply Forall_take, Forall_drop. Qed.

Lemma slice_length (l : list Z) o n : (o + n <= length l)%nat → length (take n (drop o l)) = n.
Proof. intros. rewrite length_take, length_drop. lia. Qed.

Lemma read16_slice l o : bytes l → (o + 2 <= length l)%nat → readU16BE l o = valueBE (take 2 (drop o l)).
Proof. intros Hb Hl. by apply readU16BE_value; [|apply slice_length|apply slice_bytes]. Qed.

Lemma read32_slice l o : bytes l → (o + 4 <= length l)%nat → readU32BE l o = valueBE (take 4 (drop o l)).
Proof. intros Hb Hl. by apply readU32BE_value; [|apply slice_length|apply slice_bytes]. Qed.

Lemma nibbles_ihl x : 0 <= x < 256 → x ≫ 4 = 4 → x = 64 + (x .& 15) ∧ 0 <= x .& 15 <= 15.
Proof.
  intros Hx. rewrite Z.shiftr_div_pow2 by lia. change (x .& 15) with (x .& Z.ones 4).
  rewrite Z.land_ones by lia. change (2 ^ 4) with 16. split; Z.div_mod_to_equations; lia.
Qed.

(** The front of a packet, as the fields of its header. *)
Lemma header_split pkt hl : (20 <= hl <= length pkt)%nat → byteAt pkt 9 = 17 →
  take hl pkt = [byteAt pkt 0; byteAt pkt 1] ++ take 2 (drop 2 pkt) ++ take 2 (drop 4 pkt) ++
    take 2 (drop 6 pkt) ++ [byteAt pkt 8; 17] ++ take 2 (drop 10 pkt) ++ take 4 (drop 12 pkt) ++
    take 4 (drop 16 pkt) ++ take (hl - 20) (drop 20 pkt).
Proof.
  intros [Hh Hl] Hp. do 20 (destruct pkt as [|? pkt]; [cbn in Hl; lia|]). cbn in Hp. subst.
  do 20 (destruct hl as [|hl]; [lia|]). by rewrite !Nat.sub_succ, Nat.sub_0_r.
Qed.

Lemma datagram_split (d : list Z) n : (8 <= n <= length d)%nat →
  take n d = take 2 (drop 0 d) ++ take 2 (drop 2 d) ++ take 2 (drop 4 d) ++ take 2 (drop 6 d) ++ take (n - 8) (drop 8 d).
Proof.
  intros [Hn Hl]. do 8 (destruct d as [|? d]; [cbn in Hl; lia|]). do 8 (destruct n as [|n]; [lia|]).
  by rewrite !Nat.sub_succ, Nat.sub_0_r.
Qed.

(** The fields of the packet [pkt] with a header of [hl] bytes, behind a given link header. *)
Definition wireOf (macs : list Z) (tags : list (list Z * list Z)) (pkt : list Z) (hl : nat) : Wire :=
  let d := drop hl pkt in
  let total := size16 pkt 2 in
  let n := size16 d 4 in
  mkWire macs tags (byteAt pkt 0 .& 15) (byteAt pkt 1) (take 2 (drop 2 pkt)) (take 2 (drop 4 pkt))
    (take 2 (drop 6 pkt)) (byteAt pkt 8) (take 2 (drop 10 pkt)) (take 4 (drop 12 pkt)) (take 4 (drop 16 pkt))
    (take (hl - 20) (drop 20 pkt)) (take 2 (drop 0 d)) (take 2 (drop 2 d)) (take 2 (drop 4 d)) (take 2 (drop 6 d))
    (take (n - 8) (drop 8 d)) (take (total - hl - n) (drop n d)) (drop (total - hl) d).

Lemma packet_at_drop fr o hl : packet_at fr o hl → packet_at (drop o fr) 0 hl.
Proof.
  unfold packet_at, size16. intros (H1&Hv&Eh&[H2 H3]&H4&Hf&Hp&H5&H6&H7&H8). cbn [Nat.add].
  rewrite <- (Nat.add_0_r o), frame_byte_drop in Hv, Eh. rewrite frame_byte_drop in Hp.
  rewrite <- (Nat.add_assoc o hl 4) in H6, H7, H8. rewrite (read16_drop fr o) in H3, H4, Hf, H6, H7, H8.
  rewrite (read16_drop fr o 2) in H7. rewrite length_drop. split_and!; done || lia.
Qed.

Lemma size16_bytes l o : bytes l → (o + 2 <= length l)%nat → valueBE (take 2 (drop o l)) = Z.of_nat (size16 l o).
Proof.
  intros Hb Hl. rewrite <- read16_slice by done. unfold size16.
  pose proof (readU16BE_fits l o Hb Hl) as Hfit. unfold fits in Hfit. lia.
Qed.

Section sound.
Context (macs : list Z) (tags : list (list Z * list Z)) (pkt : list Z) (hl : nat).
Context (Hb : bytes pkt) (Hp : packet_at pkt 0 hl).
#[local] Abbreviation w := (wireOf macs tags pkt hl).

Lemma first_byte : byteAt pkt 0 = 64 + w_ihl w ∧ 5 <= w_ihl w <= 15 ∧ Z.of_nat hl = 4 * w_ihl w.
Proof.
  destruct Hp as (H1&Hv&Eh&[H2 H3]&_). cbn [wireOf w_ihl].
  assert (∃ b0, pkt !! 0%nat = Some b0) as [b0 Hb0] by (apply lookup_lt_is_Some; lia).
  assert (0 <= byteAt pkt 0 < 256) as Hr.
  { unfold byteAt. rewrite Hb0. by eapply Forall_lookup in Hb. }
  destruct (nibbles_ihl _ Hr Hv) as [E Hi]. lia.
Qed.

Lemma wireOf_header : header w = take hl pkt.
Proof.
  destruct Hp as (H1&Hv&Eh&[H2 H3]&H4&Hf&Hpr&H5&_). rewrite header_split by (done || cbn in *; lia).
  unfold header. by rewrite <- (proj1 first_byte).
Qed.

Lemma wireOf_datagram : datagram w = take (size16 (drop hl pkt) 4) (drop hl pkt).
Proof.
  destruct Hp as (H1&Hv&Eh&[H2 H3]&H4&Hf&Hpr&H5&H6&H7&H8). unfold size16 in *. cbn [Nat.add] in *.
  rewrite read16_drop in H6, H7. by rewrite datagram_split by (rewrite length_drop; lia).
Qed.

Lemma wireOf_packet : pkt = header w ++ datagram w ++ w_slack w ++ w_padding w.
Proof.
  rewrite wireOf_header, wireOf_datagram. cbn [wireOf w_slack w_padding].
  destruct Hp as (H1&Hv&Eh&[H2 H3]&H4&Hf&Hpr&H5&H6&H7&H8). cbn [Nat.add] in *.
  unfold size16 in *. rewrite read16_drop in H7. 
  set (d := drop hl pkt) in *. set (n := Z.to_nat (readU16BE d 4)) in *. set (total := Z.to_nat (readU16BE pkt 2)) in *.
  replace (total - hl)%nat with (n + (total - hl - n))%nat at 2 by lia.
  rewrite <- drop_drop, take_drop, take_drop. unfold d. by rewrite take_drop.
Qed.

Lemma wireOf_ok : length macs = 12%nat → (length tags <= 2)%nat → Forall tag_ok tags → wire_ok w.
Proof.
  intros Hm Hd Ht. pose proof wireOf_header as Eh. pose proof wireOf_datagram as Ed. pose proof first_byte as (F1&F2&F3).
  destruct Hp as (H1&_&_&[H2 H3]&H4&Hf&Hpr&H5&H6&H7&H8). cbn [Nat.add] in *. 
  assert (size16 pkt (hl + 4) = size16 (drop hl pkt) 4) as En by (unfold size16; by rewrite read16_drop).
  rewrite En in *. pose proof (length_drop pkt hl) as Hld.
  assert (length (header w) = hl) as Lh by (rewrite Eh, length_take; lia).
  assert (length (datagram w) = size16 (drop hl pkt) 4) as Ld by (rewrite Ed, length_take; lia).
  split; try done.
  - assert (length (w_options w) = hl - 20)%nat as -> by (apply slice_length; lia). lia.
  - cbn [wireOf w_total w_ident w_fragment w_checksum w_source w_destination w_sport w_port w_length w_udpsum].
    split_and!; apply slice_length; lia.
  - cbn [wireOf w_fragment]. by rewrite <- read16_slice by (done || lia).
  - rewrite Lh, Ld. cbn [wireOf w_total w_slack]. rewrite size16_bytes by (done || lia). 
    rewrite slice_length by lia. lia.
  - rewrite Ld. cbn [wireOf w_length]. apply size16_bytes; [by apply Forall_drop|lia].
  - cbn [wireOf w_payload]. rewrite slice_length by lia. done.
Qed.
End sound.

Lemma found_wire a b fr x : bytes fr → found a b fr x →
  ∃ w, fr = wireBytes w ∧ wire_ok w ∧ take x.1.2 (drop x.1.1 fr) = w_payload w ∧
    route a b (valueBE (w_destination w)) (valueBE (w_port w)) = Some x.2.
Proof.
  intros Hb (o&hl&Hl&Ev&Hp&Ex&Hr). destruct (vlan_inv fr o Hb 2 12 ltac:(lia) Ev) as (tags&Hd&Ht&Hdr&Ho&Hol).
  pose proof (packet_at_drop _ _ _ Hp) as Hp'. assert (bytes (drop o fr)) as Hb' by (by apply Forall_drop).
  exists (wireOf (take 12 fr) tags (drop o fr) hl). split_and!.
  - unfold wireBytes. rewrite <- wireOf_packet by done. unfold link. cbn [wireOf w_macs w_tags].
    rewrite <- !app_assoc, <- Hdr. by rewrite take_drop.
  - apply wireOf_ok; [done..|rewrite length_take; lia|done|done].
  - rewrite Ex. cbn [fst snd wireOf w_payload]. unfold size16. by rewrite !drop_drop, read16_drop.
  - destruct Hp as (H1&_&_&[H2 H3]&H4&_&_&H5&_). pose proof (length_drop fr o). pose proof (length_drop (drop o fr) hl).
    cbn [wireOf w_destination w_port]. rewrite <- read32_slice, <- read16_slice by (try apply Forall_drop; done || lia).
    by rewrite <- read16_drop, <- read16_drop, <- read32_drop, Nat.add_assoc.
Qed.

(** C23. A contiguous frame buffer is accepted with a line and a
    payload exactly when its bytes are an Ethernet frame, with up to two VLAN tags, of an
    unfragmented IPv4 packet (options allowed) that carries a UDP datagram of at most
    2048 payload bytes whose lengths are consistent and whose destination is the endpoint
    of that line; the payload is that of the datagram. *)
Theorem frame_accept_exact a b m line data :
  contiguous m = true → bytes (frame m) →
  accepted a b m = Some (line, data) ↔
  ∃ w, frame m = wireBytes w ∧ wire_ok w ∧ data = w_payload w ∧
    route a b (valueBE (w_destination w)) (valueBE (w_port w)) = Some line.
Proof.
  intros Hc Hb. unfold accepted, parse. rewrite Hc. cbn [negb]. split.
  - intros (x&Hx&[= -> ->])%fmap_Some. apply fast_found, found_wire in Hx as (w&?&?&?&?); [|done]. by exists w.
  - intros (w&E&Hw&->&Hr). rewrite E in *. rewrite (found_fast _ _ _ _ (wire_found a b w line Hw Hb Hr)).
    cbn [fmap option_fmap option_map fst snd]. do 2 f_equal.
    unfold wireBytes. rewrite <- Nat.add_assoc, drop_link, drop_link. by apply datagram_fields.
Qed.

(** A tagged frame: one 802.1Q tag, no options, three payload bytes, four bytes of padding. *)
Definition sampleWire : Wire :=
  mkWire (replicate 12 2) [([0x81; 0x00], [0; 7])] 5 0 [0; 31] [0; 1] [0x40; 0] 64 [0; 0] [10; 0; 0; 1] [239; 1; 1; 1] []
    [0x1F; 0x90] [0x75; 0x30] [0; 11] [0; 0] [65; 66; 67] [] [0; 0; 0; 0].
Definition sampleEndpoint : EndpointFilter := mkEndpoint 0xEF010101 30000 true true.
Definition sampleMbuf : Mbuf := mkMbuf 7 true (wireBytes sampleWire).

Lemma frame_accept_exact_witness :
  accepted noEndpoint sampleEndpoint sampleMbuf = Some (1, [65; 66; 67]).
Proof.
  apply (frame_accept_exact noEndpoint sampleEndpoint sampleMbuf 1 [65; 66; 67] eq_refl).
  - apply Forall_forall. intros x Hx. vm_compute in Hx. repeat (apply elem_of_cons in Hx as [->|Hx]; [done|]).
    by apply elem_of_nil in Hx.
  - exists sampleWire. split; [done|]. split; [|done]. split; try done; try (cbn; lia).
    repeat constructor.
Defined.

(** ** The receiver *)

(** An accepted parse points to its payload. *)
Lemma accepted_status a b m : status (parse a b m) = Accepted ↔ is_Some (accepted a b m).
Proof.
  unfold accepted, taken, parse. rewrite fmap_is_Some.
  assert (∀ p, (status p = Accepted → is_Some (payload p)) →
    status p = Accepted ↔ is_Some (match status p with Accepted => (λ off, (off, payload_size p, line_index p)) <$> payload p | _ => None end)) as H.
  { intros q Hq. destruct (status q) eqn:E; [|by rewrite is_Some_alt..]. by rewrite fmap_is_Some; naive_solver. }
  apply H. clear H. case_match; [done|]. unfold parseFast, parseGeneral. cbv zeta. by repeat case_match.
Qed.

(** The buffers received and not yet looked at. *)
Definition cached (r : t) : list Mbuf := drop (burst_index r) (take (burst_count r) (burst r)).
(** The buffers that are still to come. *)
Definition pool (r : t) : list Mbuf := cached r ++ concat (device r).
Definition in_range (r : t) : Prop := (burst_index r <= burst_count r <= length (burst r))%nat.

Definition payloadOf (r : t) (m : Mbuf) : option (list Z) :=
  snd <$> accepted (line_a (settings r)) (line_b (settings r)) m.

Section receiver.
Context (clock : nat → Z).

(** A turn that takes the buffer [m]: it keeps it for the caller when the frame is
    accepted and gives it back otherwise. *)
Definition took (r : t) (m : Mbuf) (res : option (option PacketView)) (r' : t) : Prop :=
  in_range r' ∧ settings r' = settings r ∧ pool r = m :: pool r' ∧ (length (device r') <= length (device r))%nat ∧
  match payloadOf r m with
  | None => res = None ∧ freed r' = freed r ++ [address m] ∧ delivered_mbuf r' = delivered_mbuf r
  | Some data => (∃ start, res = Some (Some (Some data, start))) ∧ freed r' = freed r ∧ delivered_mbuf r' = Some m
  end.

(** A turn that finds no buffer. *)
Definition idle (r : t) (res : option (option PacketView)) (r' : t) : Prop :=
  in_range r' ∧ settings r' = settings r ∧ res = Some None ∧ cached r = [] ∧ pool r' = pool r ∧ freed r' = freed r ∧
  delivered_mbuf r' = delivered_mbuf r ∧ length (device r') = (length (device r) - 1)%nat.

Lemma receiveBurst_spec r : let '(ready, r') := receiveBurst clock r in
  settings r' = settings r ∧ freed r' = freed r ∧ delivered_mbuf r' = delivered_mbuf r ∧ in_range r' ∧
  length (device r') = (length (device r) - 1)%nat ∧ cached r' ++ concat (device r') = concat (device r) ∧
  burst_index r' = 0%nat ∧ ready = negb (Nat.eqb (length (cached r')) 0).
Proof.
  unfold receiveBurst. cbv zeta.
  set (p := if _ && _ then _ else _). 
  assert (∃ v n, p = (v, with_reads (with_burst r (burst r) 0 0) n)) as (v&n&->).
  { unfold p. case_match; [by eexists _, _|]. exists 0, (reads r). by destruct r. }
  unfold rte_eth_rx_burst. cbn. destruct (device r) as [|[|m ms] rest] eqn:Ed; cbn.
  all: unfold in_range, cached; cbn; rewrite ?take_0, ?drop_0, ?length_app, ?take_app_length.
  all: rewrite ?Ed; split_and!; done || (cbn; lia).
Qed.

(** The turn that looks at the buffer [m]. *)
Lemma look_spec r m rest : in_range r → cached r = m :: rest →
  let '(res, r') := attempt clock r in took r m res r'.
Proof.
  intros [Hi Hc] Hm. unfold attempt.
  assert (burst_index r < burst_count r)%nat as Hlt.
  { destruct (decide (burst_index r < burst_count r)%nat) as [?|Hge]; [done|exfalso].
    unfold cached in Hm. rewrite drop_ge in Hm by (rewrite length_take; lia). done. }
  rewrite (proj2 (Nat.leb_gt (burst_count r) _) Hlt). cbn [negb].
  assert (burst r !! burst_index r = Some m) as Hl.
  { rewrite <- (lookup_take_lt (burst r) (burst_count r)) by done.
    rewrite <- (Nat.add_0_r (burst_index r)), <- lookup_drop. fold (cached r). by rewrite Hm. }
  rewrite Hl. cbv zeta.
  set (r1 := with_burst r _ _ _). set (p := if timestamping_enabled _ then _ else _).
  assert (∃ v n, p = (v, with_reads r1 n)) as (v&n&->).
  { unfold p. repeat case_match; [exists (burst_receive_start_ticks r1), (reads r); by destruct r|by eexists _, _|].
    exists 0, (reads r). by destruct r. }
  assert (in_range r1) as Hr1 by (unfold in_range; cbn; lia).
  assert (pool r = m :: pool r1) as Hp.
  { unfold pool. rewrite Hm. cbn. f_equal. f_equal. unfold cached. cbn. 
    rewrite <- (Nat.add_1_r (burst_index r)), <- drop_drop. fold (cached r). by rewrite Hm. }
  assert (status (parse (line_a (settings r)) (line_b (settings r)) m) = Accepted ↔ is_Some (payloadOf r m)) as Hs.
  { unfold payloadOf. rewrite fmap_is_Some. apply accepted_status. }
  cbn [with_reads with_counters settings]. destruct (status _) eqn:Es.
  - split_and!; try done. destruct (payloadOf r m) as [data|] eqn:Ep; [|by destruct (proj1 Hs eq_refl)].
    split_and!; [|done..].
    exists v. do 2 f_equal. f_equal. unfold payloadOf, accepted, taken in Ep. unfold packetData.
    cbn in Es |- *. rewrite Es in Ep. destruct (payload _); [|done]. by injection Ep as <-.
  - split_and!; try done. destruct (payloadOf r m) eqn:Ep; [|done]. by discriminate (proj2 Hs ltac:(done)).
  - split_and!; try done. destruct (payloadOf r m) eqn:Ep; [|done]. by discriminate (proj2 Hs ltac:(done)).
Qed.

Lemma cached_empty r : in_range r → cached r = [] → (burst_count r <= burst_index r)%nat.
Proof.
  intros [Hi Hc] Hm. apply (f_equal length) in Hm. unfold cached in Hm.
  rewrite length_drop, length_take in Hm. cbn in Hm. lia.
Qed.

Lemma attempt_spec r : in_range r →
  let '(res, r') := attempt clock r in idle r res r' ∨ ∃ m, took r m res r'.
Proof.
  intros Hr. destruct (cached r) as [|m rest] eqn:Hm.
  2: { pose proof (look_spec r m rest Hr Hm). destruct (attempt clock r). by right; exists m. }
  pose proof (cached_empty r Hr Hm) as Hge. pose proof (receiveBurst_spec r) as Hrb.
  destruct (receiveBurst clock r) as [ready r1] eqn:Eb. destruct Hrb as (Hs&Hf&Hd&Hr1&Hdev&Hp&Hi&Hready).
  destruct (cached r1) as [|m rest] eqn:Hm1; cbn in Hready; subst ready.
  - unfold attempt. rewrite (proj2 (Nat.leb_le _ _) Hge), Eb. cbn [negb]. left.
    split_and!; try done. unfold pool. by rewrite Hm, Hm1.
  - assert (attempt clock r = attempt clock r1) as ->.
    { unfold attempt at 1. rewrite (proj2 (Nat.leb_le _ _) Hge), Eb. unfold attempt. 
      rewrite (proj2 (Nat.leb_gt (burst_count r1) (burst_index r1))); [done|].
      destruct (decide (burst_count r1 <= burst_index r1)%nat); [|lia].
      unfold cached in Hm1. rewrite drop_ge in Hm1 by (rewrite length_take; lia). done. }
    pose proof (look_spec r1 m rest Hr1 Hm1) as Hl. destruct (attempt clock r1) as [res r2].
    destruct Hl as (H1&H2&Hpool&Hdl&Hmatch). right. exists m.
    unfold took, payloadOf in *. rewrite Hs, Hf, Hd in *. split_and!; [done|done| |lia|done].
    rewrite <- Hpool. unfold pool. by rewrite Hm, Hm1.
Qed.

(** ** A call of [next] *)

(** Turns that are still possible. *)
Definition left (r : t) : nat := (length (pool r) + length (device r))%nat.

Lemma budget_left r : in_range r → budget r = S (left r).
Proof.
  intros [Hi Hc]. unfold budget, left, pool, cached. rewrite length_app, length_drop, length_take. lia.
Qed.

(** What a call does: it takes the buffers [ms], keeps the last one if it is accepted,
    and none of the others is. *)
Definition called (r : t) (view : option PacketView) (r' : t) (ms : list Mbuf) : Prop :=
  in_range r' ∧ settings r' = settings r ∧ pool r = ms ++ pool r' ∧
  option_list (view ≫= fst) = omap (payloadOf r) ms ∧
  freed r' ++ option_list (address <$> delivered_mbuf r') = freed r ++ (address <$> ms) ∧
  (left r' <= left r - 1)%nat ∧ view ≫= fst = delivered_mbuf r' ≫= payloadOf r.

Lemma nextLoop_spec fuel r : in_range r → delivered_mbuf r = None → (left r < fuel)%nat →
  ∃ view r' ms, nextLoop clock fuel r = (Some view, r') ∧ called r view r' ms.
Proof.
  revert r. induction fuel as [|fuel IH]; intros r Hr Hd Hf; [lia|]. cbn [nextLoop].
  pose proof (attempt_spec r Hr) as Ha. destruct (attempt clock r) as [res r1].
  destruct Ha as [(H1&H2&->&Hc&Hp&Hfr&Hd1&Hdev)|(m&H1&H2&Hp&Hdev&Hm)].
  - exists None, r1, []. split; [done|]. rewrite Hd in Hd1. split_and!; try done.
    + by rewrite Hd1, Hfr.
    + unfold left. rewrite Hp, Hdev. unfold pool. rewrite Hc. destruct (device r); cbn; lia.
    + by rewrite Hd1.
  - assert (left r1 <= left r - 1)%nat as Hl by (unfold left; rewrite Hp; cbn; lia).
    destruct (payloadOf r m) as [data|] eqn:Epm.
    + destruct Hm as ([start ->]&Hfr&Hd1). exists (Some (Some data, start)), r1, [m]. split; [done|].
      split_and!; try done. 
      * cbn. by rewrite Epm.
      * by rewrite Hd1, Hfr.
      * by rewrite Hd1.
    + destruct Hm as (->&Hfr&Hd1). rewrite Hd in Hd1.
      destruct (IH r1 H1 Hd1) as (view&r'&ms&->&C1&C2&C3&C4&C5&C6&C7); [unfold left in *; rewrite Hp in *; cbn in *; lia|].
      exists view, r', (m :: ms). split; [done|]. unfold called. split_and!; try done.
      * congruence.
      * by rewrite Hp, C3.
      * cbn. rewrite Epm. unfold payloadOf in *. by rewrite H2 in C4.
      * by rewrite C5, Hfr, <- app_assoc.
      * lia.
      * unfold payloadOf in *. by rewrite H2 in C7.
Qed.

Lemma release_spec r : in_range r → let r1 := releaseDelivered r in
  in_range r1 ∧ settings r1 = settings r ∧ pool r1 = pool r ∧ device r1 = device r ∧ delivered_mbuf r1 = None ∧
  freed r1 = freed r ++ option_list (address <$> delivered_mbuf r) ∧ cached r1 = cached r.
Proof.
  intros Hr. unfold releaseDelivered. destruct (delivered_mbuf r) eqn:E; split_and!; try done.
  cbn. by rewrite app_nil_r.
Qed.

Lemma dpdk_next_spec r : in_range r → ∃ view r' ms, next clock r = (view, r') ∧ called (releaseDelivered r) view r' ms.
Proof.
  intros Hr. destruct (release_spec r Hr) as (H1&_&_&_&Hd&_). unfold next.
  destruct (nextLoop_spec (budget (releaseDelivered r)) _ H1 Hd) as (view&r'&ms&->&Hc); [rewrite budget_left by done; lia|].
  by exists view, r', ms.
Qed.

(** ** Sequences of calls *)

Fixpoint calls (n : nat) (r : t) : list (option PacketView) * t :=
  match n with
  | O => ([], r)
  | S n =>
    let '(view, r) := next clock r in
    let '(views, r) := calls n r in (view :: views, r)
  end.

Definition datas (views : list (option PacketView)) : list (list Z) := omap (λ v, v ≫= fst) views.

Lemma calls_length n r : length (calls n r).1 = n.
Proof.
  revert r. induction n as [|n IH]; intros r; [done|]. cbn. destruct (next clock r) as [v r1]. specialize (IH r1).
  destruct (calls n r1). cbn in *. lia.
Qed.

Lemma dpdk_calls_spec n r : in_range r → let '(views, r') := calls n r in
  ∃ ms, in_range r' ∧ settings r' = settings r ∧ pool r = ms ++ pool r' ∧ datas views = omap (payloadOf r) ms ∧
    freed r' ++ option_list (address <$> delivered_mbuf r') =
    freed r ++ option_list (address <$> delivered_mbuf r) ++ (address <$> ms) ∧
    (left r' <= left r - n)%nat ∧ (last views ≫= λ v, v ≫= fst) = (last views ≫= λ _, delivered_mbuf r' ≫= payloadOf r).
Proof.
  revert r. induction n as [|n IH]; intros r Hr; cbn [calls].
  { exists []. split_and!; try done; [by rewrite (right_id [] (++))|lia]. }
  destruct (dpdk_next_spec r Hr) as (view&r1&ms&->&C1&C2&C3&C4&C5&C6&C7).
  destruct (release_spec r Hr) as (_&R1&R2&R3&_&R4&_).
  assert (left (releaseDelivered r) = left r) as El by (unfold left; by rewrite R2, R3).
  specialize (IH r1 C1). pose proof (calls_length n r1) as Hn. destruct (calls n r1) as [views r2] eqn:Ec. destruct IH as (ms'&D1&D2&D3&D4&D5&D6&D7).
  assert (payloadOf r1 = payloadOf r) as Ep by (unfold payloadOf; by rewrite C2, R1).
  assert (payloadOf (releaseDelivered r) = payloadOf r) as Ep' by (unfold payloadOf; by rewrite R1).
  exists (ms ++ ms'). rewrite El, Ep, Ep' in *. split_and!.
  - done.
  - congruence.
  - by rewrite <- R2, C3, D3, app_assoc.
  - rewrite omap_app, <- C4, <- D4. unfold datas. cbn. by destruct (view ≫= fst).
  - rewrite D5, (assoc (++)), C5, R4, fmap_app. by rewrite <- !app_assoc.
  - lia.
  - destruct views as [|v views]; [|done]. cbn in Hn. subst n. injection Ec as <-. done.
Qed.

Lemma releaseLoop_spec n r : in_range r → n = (burst_count r - burst_index r)%nat →
  freed (releaseLoop n r) = freed r ++ (address <$> cached r).
Proof.
  revert r. induction n as [|n IH]; intros r [Hi Hc] Hn; cbn [releaseLoop].
  - unfold cached. rewrite drop_ge by (rewrite length_take; lia). by rewrite app_nil_r.
  - rewrite (proj2 (Nat.ltb_lt (burst_index r) _)) by lia.
    assert (is_Some (burst r !! burst_index r)) as [m Hm] by (apply lookup_lt_is_Some; lia).
    rewrite Hm. cbn. rewrite IH by (unfold in_range; cbn; lia). cbn. unfold cached. cbn.
    rewrite (drop_S (take (burst_count r) (burst r)) m (burst_index r)) by (by rewrite lookup_take_lt by lia).
    by rewrite <- app_assoc.
Qed.

Lemma destroy_spec r : in_range r →
  freed (destroy r) = freed r ++ option_list (address <$> delivered_mbuf r) ++ (address <$> cached r).
Proof.
  intros Hr. destruct (release_spec r Hr) as (H1&_&_&_&_&Hf&Hc). unfold destroy, releaseCachedBurst. cbn.
  by rewrite releaseLoop_spec, Hf, Hc, app_assoc.
Qed.
End receiver.

(** C24. However the device answers the polls, after any number of calls of
    [next] the packets delivered are the payloads of the accepted frames among the
    buffers taken so far, in order and without omission; every buffer taken but the one
    behind the last packet delivered has been freed exactly once, in the order they were
    taken, that last packet is the payload of the buffer still held, and the destructor
    frees it and the buffers not yet looked at.  Once there have been as many calls as
    polls and frames, every frame has been taken. *)
Theorem dpdk_delivers clock a b size mode dev n :
  let '(views, r) := calls clock n (make a b size mode dev) in
  ∃ used, concat dev = used ++ pool r ∧
    datas views = omap (λ m, snd <$> accepted a b m) used ∧
    freed r ++ option_list (address <$> delivered_mbuf r) = address <$> used ∧
    (last views ≫= λ v, v ≫= fst) = (last views ≫= λ _, delivered_mbuf r ≫= λ m, snd <$> accepted a b m) ∧
    freed (destroy r) = address <$> used ++ cached r ∧
    ((length (concat dev) + length dev <= n)%nat → pool r = []).
Proof.
  pose proof (dpdk_calls_spec clock n (make a b size mode dev) ltac:(unfold in_range; cbn; lia)) as H.
  destruct (calls _ _ _) as [views r]. destruct H as (ms&H1&H2&H3&H4&H5&H6&H7). exists ms.
  assert (pool (make a b size mode dev) = concat dev) as Hp by done. rewrite Hp in H3. split_and!; try done.
  - rewrite destroy_spec, fmap_app, app_assoc by done. by rewrite H5.
  - intros Hn. unfold left in H6. rewrite Hp in H6. cbn [make device] in H6. apply nil_length_inv. lia.
Qed.

(** ** Settings *)

(** A burst is eight to 256 frames, a multiple of eight. *)
Lemma burst_size_range getenv n : dpdkBurstSize getenv = inr n → 8 <= n <= 256 ∧ n mod 8 = 0.
Proof.
  unfold dpdkBurstSize, envUnsigned. intros H.
  assert (∃ k, 1 <= k <= 256 ∧ (if negb (k mod 8 =? 0) then inl "ASTRA_DPDK_BURST_SIZE must be divisible by 8"%string
    else inr k) = inr n) as (k&Hk&Hn).
  { revert H. destruct (getenv _) as [[|c v]|]; [by exists 32| |by exists 32].
    destruct (strtoul _) as [[parsed rest] error]. destruct (error || _ || _); [done|].
    destruct ((parsed <? 1) || _) eqn:E; [done|].
    apply orb_false_iff in E as [E1%Z.ltb_ge E2%Z.ltb_ge]. unfold kMaxBurstSize in E2. intros H3. exists parsed. by split; [lia|]. }
  destruct (k mod 8 =? 0) eqn:E; [|done]. apply Z.eqb_eq in E. injection Hn as <-.
  split; [|done]. Z.div_mod_to_equations. lia.
Qed.

Definition plain (c : Z) : Prop := c ≠ ch "'" ∧ c ≠ 34 ∧ c ≠ 32 ∧ c ≠ 9 ∧ c ≠ 10.

Lemma splitLoop_word w rest current result : Forall plain w →
  splitLoop (w ++ rest) current result false false = splitLoop rest (current ++ w) result false false.
Proof.
  intros Hw. revert current. induction Hw as [|c w (H1&H2&H3&H4&H5) _ IH]; intros current; cbn [splitLoop app].
  - by rewrite app_nil_r.
  - rewrite (proj2 (Z.eqb_neq c (ch "'"))), (proj2 (Z.eqb_neq c 34)), (proj2 (Z.eqb_neq c 32)),
      (proj2 (Z.eqb_neq c 9)), (proj2 (Z.eqb_neq c 10)) by done. cbn. rewrite IH. by rewrite <- app_assoc.
Qed.

(** Words separated by single blanks are split into those words. *)
Lemma splitArgs_words ws : Forall (λ w, w ≠ [] ∧ Forall plain w) ws → splitArgs (concat ((λ w, w ++ [32]) <$> ws)) = inr ws.
Proof.
  intros Hws. unfold splitArgs.
  assert (∀ result, splitLoop (concat ((λ w, w ++ [32]) <$> ws)) [] result false false = ([], result ++ ws, false, false)) as ->.
  { induction Hws as [|w ws [Hne Hw] _ IH]; intros result; cbn; [by rewrite app_nil_r|].
    rewrite <- app_assoc, splitLoop_word by done. cbn. rewrite bool_decide_eq_false_2 by done.
    rewrite IH. by rewrite <- app_assoc. }
  done.
Qed.

End DpdkProps.
