(* ===== verification/Udp.v ===== *)
(** The socket sources: [source/UdpReceiver.cpp], [source/UdpBatchReceiver.cpp], and the
    two-line arbiters [source/DualUdpReceiver.cpp] and [source/DualUdpBatchReceiver.cpp],
    as they are built on Linux.

    The kernel is not part of the program.  What the coming calls of [recv], [recvmsg] or
    [recvmmsg] on a socket return is a list, arbitrary in every theorem; an exhausted
    list answers [EAGAIN].  The same holds for [poll].  [clock n] is the [n]-th result of
    [rdtsc].  Opening and configuring the sockets is in [Sockets]. *)
From stdpp Require Import base list.
From Stdlib Require Import ZArith Lia.
From S2P Require Import Prelude Protocol Gap Parser Decoder Engine.
#[local] Open Scope Z_scope.
#[local] Open Scope astra_scope.

Inductive Errno := EAGAIN | EWOULDBLOCK | EINTR | OtherErrno.
#[global] Instance Errno_eq_dec : EqDecision Errno.
Proof. solve_decision. Defined.

(** [struct cmsghdr] with its data as a 32-bit integer. *)
Record Cmsg := mkCmsg {
  cmsg_level : Z;
  cmsg_type : Z;
  cmsg_data : Z }.

(** A datagram as it was sent, and the control messages that come with it. *)
Record Datagram := mkDatagram {
  content : list Z;
  control : list Cmsg }.

Inductive RecvOutcome := RecvError (e : Errno) | RecvDatagram (d : Datagram).

Definition SOL_SOCKET : Z := 1.
Definition SO_RXQ_OVFL : Z := 40.

(** The bytes a receive call leaves in a buffer. *)
Definition fill (buf bs : list Z) : list Z :=
  let written := take (length buf) bs in written ++ drop (length written) buf.

(** ** The kernel's drop counter *)
Module KernelDrops.

Record t := mk {
  kernel_drop_count : Z;
  last_kernel_drop_count : Z }.

Definition make : t := mk 0 0.

Definition observe (k : t) (reported : Z) : t :=
  let added :=
    if last_kernel_drop_count k <=? reported
    then u32 (reported - last_kernel_drop_count k)
    else u64 (u32 (max_u32 - last_kernel_drop_count k) + reported + 1) in
  mk (u64 (kernel_drop_count k + added)) reported.

Fixpoint recordKernelDrops (k : t) (control : list Cmsg) : t :=
  match control with
  | [] => k
  | c :: control =>
    if negb (cmsg_level c =? SOL_SOCKET) || negb (cmsg_type c =? SO_RXQ_OVFL)
    then recordKernelDrops k control
    else observe k (cmsg_data c)
  end.

End KernelDrops.

(** ** One datagram per call *)
Module UdpReceiver.

Definition kMaxPacketSize : nat := 2048.

Record t := mk {
  buf : list Z;
  error_count : Z;
  truncated_count : Z;
  drops : KernelDrops.t;
  drop_metrics_enabled : bool;
  socket : list RecvOutcome;
  reads : nat }.

Definition make (drop_metrics : bool) (socket : list RecvOutcome) : t :=
  mk (replicate kMaxPacketSize 0) 0 0 KernelDrops.make drop_metrics socket 0.

(** The next answer of the socket. *)
Definition receive (r : t) : RecvOutcome * t :=
  match socket r with
  | [] => (RecvError EAGAIN, r)
  | o :: rest =>
    (o, mk (match o with RecvDatagram d => fill (buf r) (content d) | RecvError _ => buf r end)
           (error_count r) (truncated_count r) (drops r) (drop_metrics_enabled r) rest (reads r))
  end.

Definition countError (r : t) (e : Errno) : t :=
  if negb (bool_decide (e = EAGAIN)) && negb (bool_decide (e = EWOULDBLOCK)) && negb (bool_decide (e = EINTR))
  then mk (buf r) (u64 (error_count r + 1)) (truncated_count r) (drops r) (drop_metrics_enabled r) (socket r) (reads r)
  else r.

(** The datagram in the buffer, unless it did not fit. *)
Definition accept (r : t) (size : nat) (receive_start_ticks : Z) : option PacketView * t :=
  if Nat.ltb kMaxPacketSize size
  then (None, mk (buf r) (error_count r) (u64 (truncated_count r + 1)) (drops r) (drop_metrics_enabled r) (socket r) (reads r))
  else (Some (Some (take size (buf r)), receive_start_ticks), r).

Definition nextWithDropMetrics (r : t) (receive_start_ticks : Z) : option PacketView * t :=
  match receive r with
  | (RecvError e, r) => (None, countError r e)
  | (RecvDatagram d, r) =>
    let r := mk (buf r) (error_count r) (truncated_count r) (KernelDrops.recordKernelDrops (drops r) (control d))
                (drop_metrics_enabled r) (socket r) (reads r) in
    accept r (length (content d)) receive_start_ticks
  end.

Definition next (clock : nat → Z) (r : t) : option PacketView * t :=
  let receive_start_ticks := clock (reads r) in
  let r := mk (buf r) (error_count r) (truncated_count r) (drops r) (drop_metrics_enabled r) (socket r) (S (reads r)) in
  if drop_metrics_enabled r then nextWithDropMetrics r receive_start_ticks else
  match receive r with
  | (RecvError e, r) => (None, countError r e)
  | (RecvDatagram d, r) => accept r (length (content d)) receive_start_ticks
  end.

(** The receiver as the source of a line. *)
Definition udp_source (clock : nat → Z) : IMarketDataSource t := next clock.

End UdpReceiver.

(** ** Batches *)
Module UdpBatchReceiver.

Definition kMaxPacketSize : nat := 2048.
Definition kMaxBatchSize : nat := 64.

(** An element of [msgs_] after [recvmmsg]: [truncated] is [MSG_TRUNC] in its flags. *)
Record Message := mkMessage {
  datagram : Datagram;
  truncated : bool }.

Inductive BatchOutcome := BatchError (e : Errno) | Batch (ms : list Message).

(** A [PacketView] into [buffers_[index]]. *)
Record View := mkView {
  index : nat;
  size : nat;
  start_ticks : Z }.

Record t := mk {
  batch_size : nat;
  pending : list View;
  pending_index : nat;
  pending_count : nat;
  buffers : list (list Z);
  error_count : Z;
  truncated_count : Z;
  syscall_count : Z;
  drops : KernelDrops.t;
  socket : list BatchOutcome;
  reads : nat }.

(** The batch size is clamped to [1, kMaxBatchSize]. *)
Definition make (batch : nat) (socket : list BatchOutcome) : t :=
  mk (Nat.min (Nat.max batch 1) kMaxBatchSize) (replicate kMaxBatchSize (mkView 0 0 0)) 0 0
     (replicate kMaxBatchSize (replicate kMaxPacketSize 0)) 0 0 0 KernelDrops.make socket 0.

Definition shouldDropDatagram (reported_size : nat) (kernel_reported_truncation : bool) : bool :=
  kernel_reported_truncation || Nat.ltb kMaxPacketSize reported_size.

(** The buffers after [recvmmsg] has stored the messages [ms] from index [i] on. *)
Fixpoint store (i : nat) (ms : list Message) (bufs : list (list Z)) : list (list Z) :=
  match ms with
  | [] => bufs
  | m :: ms => store (S i) ms (alter (λ b, fill b (content (datagram m))) i bufs)
  end.

(** The loop over the messages received, from index [i] on. *)
Fixpoint acceptLoop (i : nat) (ms : list Message) (ticks : Z) (accepted : nat)
    (pending : list View) (k : KernelDrops.t) (truncated_count : Z) : nat * list View * KernelDrops.t * Z :=
  match ms with
  | [] => (accepted, pending, k, truncated_count)
  | m :: ms =>
    let k := KernelDrops.recordKernelDrops k (control (datagram m)) in
    let size := length (content (datagram m)) in
    if shouldDropDatagram size (truncated m)
    then acceptLoop (S i) ms ticks accepted pending k (u64 (truncated_count + 1))
    else acceptLoop (S i) ms ticks (S accepted) (<[accepted := mkView i size ticks]> pending) k truncated_count
  end.

Definition receiveBatch (clock : nat → Z) (r : t) : nat * t :=
  let receive_start_ticks := clock (reads r) in
  match socket r with
  | [] =>
    (0%nat, mk (batch_size r) (pending r) 0 0 (buffers r) (error_count r) (truncated_count r) (syscall_count r)
               (drops r) [] (S (reads r)))
  | BatchError e :: rest =>
    let errors := if negb (bool_decide (e = EAGAIN)) && negb (bool_decide (e = EWOULDBLOCK)) &&
                     negb (bool_decide (e = EINTR))
                  then u64 (error_count r + 1) else error_count r in
    (0%nat, mk (batch_size r) (pending r) 0 0 (buffers r) errors (truncated_count r) (syscall_count r)
               (drops r) rest (S (reads r)))
  | Batch ms :: rest =>
    let '(accepted, pending, k, truncated_count) :=
      acceptLoop 0 ms receive_start_ticks 0 (pending r) (drops r) (truncated_count r) in
    (accepted, mk (batch_size r) pending 0 accepted (store 0 ms (buffers r)) (error_count r) truncated_count
                  (u64 (syscall_count r + 1)) k rest (S (reads r)))
  end.

(** What a view shows. *)
Definition shown (bufs : list (list Z)) (v : View) : PacketView :=
  ((λ b, take (size v) b) <$> bufs !! index v, start_ticks v).

Definition with_index (r : t) (i : nat) : t :=
  mk (batch_size r) (pending r) i (pending_count r) (buffers r) (error_count r) (truncated_count r)
     (syscall_count r) (drops r) (socket r) (reads r).

Definition next (clock : nat → Z) (r : t) : option PacketView * t :=
  let '(n, r) := if Nat.leb (pending_count r) (pending_index r) then receiveBatch clock r else (1%nat, r) in
  if Nat.eqb n 0 then (None, r) else
  (shown (buffers r) <$> pending r !! pending_index r, with_index r (S (pending_index r))).

(** The inner loop of [nextBatch], at most [n] turns. *)
Fixpoint copyLoop (n : nat) (r : t) (copied : list View) (max_packets : nat) : list View * t :=
  match n with
  | O => (copied, r)
  | S n =>
    if Nat.ltb (length copied) max_packets && Nat.ltb (pending_index r) (pending_count r)
    then copyLoop n (with_index r (S (pending_index r)))
           (copied ++ option_list (pending r !! pending_index r)) max_packets
    else (copied, r)
  end.

(** The outer loop: it goes round a second time only to leave. *)
Fixpoint batchLoop (n : nat) (clock : nat → Z) (r : t) (copied : list View) (max_packets : nat) : list View * t :=
  match n with
  | O => (copied, r)
  | S n =>
    if Nat.ltb (length copied) max_packets then
      let '(stop, r) :=
        if Nat.leb (pending_count r) (pending_index r)
        then if Nat.ltb 0 (length copied) then (true, r)
             else let '(received, r) := receiveBatch clock r in (Nat.eqb received 0, r)
        else (false, r) in
      if stop then (copied, r) else
      let '(copied, r) := copyLoop (pending_count r) r copied max_packets in
      batchLoop n clock r copied max_packets
    else (copied, r)
  end.

(** [packets] is not null. *)
Definition nextBatch (clock : nat → Z) (r : t) (max_packets : nat) : list PacketView * t :=
  if Nat.eqb max_packets 0 then ([], r) else
  let '(copied, r) := batchLoop 2 clock r [] max_packets in (shown (buffers r) <$> copied, r).

Definition udp_batch_source (clock : nat → Z) : IMarketDataSource t := next clock.

End UdpBatchReceiver.

(** ** Two redundant lines *)

(** The state the two arbiters share; [S] is the source of one line. *)
Record Lines (S : Type) := mkLines {
  receiver_a : S;
  receiver_b : S;
  next_a_first : bool;
  packets_a : Z;
  packets_b : Z }.
#[global] Arguments mkLines {S} _ _ _ _ _.
#[global] Arguments receiver_a {S} _.
#[global] Arguments receiver_b {S} _.
#[global] Arguments next_a_first {S} _.
#[global] Arguments packets_a {S} _.
#[global] Arguments packets_b {S} _.

Section lines.
Context {S : Type} `{IMarketDataSource S}.

Definition makeLines (a b : S) : Lines S := mkLines a b true 0 0.

(** [receiver.next(packet)] on a line ([true] for line A), its packet counted. *)
Definition poll_line (a : bool) (r : Lines S) : option PacketView * Lines S :=
  if a then
    let '(packet, s) := src_next (receiver_a r) in
    (packet, mkLines s (receiver_b r) (next_a_first r)
               (if packet is Some _ then u64 (packets_a r + 1) else packets_a r) (packets_b r))
  else
    let '(packet, s) := src_next (receiver_b r) in
    (packet, mkLines (receiver_a r) s (next_a_first r) (packets_a r)
               (if packet is Some _ then u64 (packets_b r + 1) else packets_b r)).

Definition set_first (a : bool) (r : Lines S) : Lines S :=
  mkLines (receiver_a r) (receiver_b r) a (packets_a r) (packets_b r).

(** The preferred line, which loses its turn when it has a packet, then the other. *)
Definition tryBoth (r : Lines S) : option PacketView * Lines S :=
  let first := next_a_first r in
  match poll_line first r with
  | (Some packet, r) => (Some packet, set_first (negb first) r)
  | (None, r) => poll_line (negb first) r
  end.

End lines.

Module DualUdpBatchReceiver.
Section dual.
Context {S : Type} `{IMarketDataSource S}.
Definition next (r : Lines S) : option PacketView * Lines S := tryBoth r.
End dual.
End DualUdpBatchReceiver.

Module DualUdpReceiver.
Section dual.
Context {S : Type} `{IMarketDataSource S}.

(** [polls] are the coming answers of [poll]: [None] for a result that is not positive,
    otherwise whether [POLLIN] is set for either line. *)
Record t := mk {
  lines : Lines S;
  polls : list (option (bool * bool)) }.

Definition next (r : t) : option PacketView * t :=
  match tryBoth (lines r) with
  | (Some packet, l) => (Some packet, mk l (polls r))
  | (None, l) =>
    let answer := default None (head (polls r)) in
    let r := mk l (tail (polls r)) in
    match answer with
    | None => (None, r)
    | Some (in_a, in_b) =>
      let first := next_a_first l in
      let '(packet, l) := if (if first then in_a else in_b) then poll_line first l else (None, l) in
      match packet with
      | Some packet => (Some packet, mk (set_first (negb first) l) (polls r))
      | None =>
        let '(packet, l) := if (if first then in_b else in_a) then poll_line (negb first) l else (None, l) in
        (packet, mk l (polls r))
      end
    end
  end.

End dual.
#[global] Arguments t S : clear implicits.
End DualUdpReceiver.
