(* ===== verification/UdpProps.v ===== *)
(** What the socket sources deliver: every datagram that fits, in order and unchanged
    while it is read; an exact total of the kernel's drops across counter wrap-around;
    and, on two lines, an interleaving of both that starves neither. *)
From stdpp Require Import base list.
From Stdlib Require Import ZArith Lia.
From S2P Require Import Prelude Protocol Gap Parser Decoder Engine Udp.
#[local] Open Scope Z_scope.
#[local] Open Scope astra_scope.

Module UdpProps.

(** ** The kernel's drop counter *)

(** The value of the first drop report among the control messages. *)
Definition report (control : list Cmsg) : option Z :=
  cmsg_data <$> head (filter (λ c, cmsg_level c = SOL_SOCKET ∧ cmsg_type c = SO_RXQ_OVFL) control).

(** Totals that never fall, nor rise by [2 ^ 32] or more from one to the next. *)
Fixpoint climbs (d : Z) (ds : list Z) : Prop :=
  match ds with
  | [] => True
  | d' :: ds => d <= d' < d + 2 ^ 32 ∧ climbs d' ds
  end.

Lemma record_report k control :
  KernelDrops.recordKernelDrops k control = default k (KernelDrops.observe k <$> report control).
Proof.
  induction control as [|c control IH]; [done|]. cbn [KernelDrops.recordKernelDrops]. unfold report in *.
  rewrite filter_cons. destruct (cmsg_level c =? SOL_SOCKET) eqn:E1; destruct (cmsg_type c =? SO_RXQ_OVFL) eqn:E2; cbn.
  all: rewrite ?Z.eqb_eq, ?Z.eqb_neq in *; case_decide; naive_solver.
Qed.

Lemma observe_total d d' : 0 <= d → d <= d' < d + 2 ^ 32 → d' <= max_u64 →
  KernelDrops.observe (KernelDrops.mk d (u32 d)) (u32 d') = KernelDrops.mk d' (u32 d').
Proof.
  intros H0 Hd Hmax. unfold KernelDrops.observe. cbn [KernelDrops.last_kernel_drop_count KernelDrops.kernel_drop_count].
  f_equal. unfold u64, u32, max_u32, max_u64 in *. change (2 ^ 32) with 4294967296 in *. change (2 ^ 64) with 18446744073709551616.
  set (a := d mod 4294967296). set (b := d' mod 4294967296).
  assert (0 <= a < 4294967296 ∧ 0 <= b < 4294967296) as [Ha Hb] by (split; apply Z.mod_pos_bound; lia).
  assert (d' - d = if a <=? b then b - a else 4294967296 - a + b) as E.
  { unfold a, b in *. destruct (_ <=? _) eqn:El; [apply Z.leb_le in El|apply Z.leb_gt in El];
    Z.div_mod_to_equations; lia. }
  destruct (a <=? b) eqn:El; [apply Z.leb_le in El|apply Z.leb_gt in El].
  - rewrite (Z.mod_small (b - a)) by lia. rewrite Z.mod_small by lia. lia.
  - rewrite (Z.mod_small (4294967295 - a)) by lia. rewrite (Z.mod_small (4294967295 - a + b + 1)) by lia.
    rewrite Z.mod_small by lia. lia.
Qed.

Lemma climbs_last d ds : climbs d ds → d <= default d (last ds).
Proof.
  revert d. induction ds as [|d' ds IH]; intros d; cbn [climbs]; [done|]. intros [Hd Hc]. apply IH in Hc.
  destruct ds; [cbn; lia|]. rewrite last_cons_cons. rewrite last_cons in *. destruct (last ds); cbn in *; lia.
Qed.

Lemma observe_all d ds : 0 <= d → climbs d ds → default d (last ds) <= max_u64 →
  fold_left KernelDrops.observe (u32 <$> ds) (KernelDrops.mk d (u32 d)) =
  let total := default d (last ds) in KernelDrops.mk total (u32 total).
Proof.
  revert d. induction ds as [|d' ds IH]; intros d H0; cbn [climbs]; [done|]. intros [Hd Hc] Hm.
  pose proof (climbs_last _ _ Hc) as Hl. rewrite last_cons in *.
  assert (default d (match last ds with Some y => Some y | None => Some d' end) = default d' (last ds)) as E.
  { by destruct (last ds). }
  rewrite E in *. cbn [fmap list_fmap fold_left]. rewrite observe_total by lia. by apply IH; [lia|..].
Qed.

(** The kernel reports its running total of dropped datagrams
    modulo [2 ^ 32].  Whatever other control messages surround the reports, as long as
    fewer than [2 ^ 32] datagrams are dropped between two of them the receiver's counter
    is the true total. *)
Theorem kernel_drops_exact controls totals :
  omap report controls = u32 <$> totals → climbs 0 totals → default 0 (last totals) <= max_u64 →
  KernelDrops.kernel_drop_count (fold_left KernelDrops.recordKernelDrops controls KernelDrops.make) =
  default 0 (last totals).
Proof.
  intros Hr Hc Hm.
  assert (∀ k, fold_left KernelDrops.recordKernelDrops controls k =
    fold_left KernelDrops.observe (omap report controls) k) as ->.
  { clear. induction controls as [|c controls IH]; intros k; [done|]. cbn. rewrite record_report, IH.
    by destruct (report c). }
  rewrite Hr. change KernelDrops.make with (KernelDrops.mk 0 (u32 0)). by rewrite (observe_all 0 totals).
Qed.

Lemma kernel_drops_exact_witness :
  KernelDrops.kernel_drop_count
    (fold_left KernelDrops.recordKernelDrops
      [[mkCmsg 1 40 7]; [mkCmsg 0 8 1; mkCmsg 1 40 4294967290]; []; [mkCmsg 1 40 9; mkCmsg 1 40 3]] KernelDrops.make) = 4294967305.
Proof.
  apply (kernel_drops_exact _ [7; 4294967290; 4294967305]); [done| |done].
  cbn. lia.
Defined.

(** ** One datagram per call *)

Lemma fill_length buf bs : length (fill buf bs) = length buf.
Proof. unfold fill. rewrite length_app, length_drop, length_take. lia. Qed.

Lemma fill_front buf bs : (length bs <= length buf)%nat → take (length bs) (fill buf bs) = bs.
Proof. intros Hl. unfold fill. rewrite (take_ge bs) by lia. apply take_app_length. Qed.

Section single.
Import UdpReceiver.
Context (clock : nat → Z).

Fixpoint calls (n : nat) (r : t) : list (option PacketView) * t :=
  match n with
  | O => ([], r)
  | S n =>
    let '(view, r) := next clock r in
    let '(views, r) := calls n r in (view :: views, r)
  end.

(** What a call returns for an answer of the socket. *)
Definition fitting (o : RecvOutcome) : option (list Z) :=
  match o with
  | RecvDatagram d => if Nat.ltb kMaxPacketSize (length (content d)) then None else Some (content d)
  | RecvError _ => None
  end.
Definition too_long (o : RecvOutcome) : bool :=
  match o with RecvDatagram d => Nat.ltb kMaxPacketSize (length (content d)) | RecvError _ => false end.
Definition real_error (o : RecvOutcome) : bool :=
  match o with RecvError e => bool_decide (e = OtherErrno) | RecvDatagram _ => false end.
Definition controls (os : list RecvOutcome) : list (list Cmsg) :=
  omap (λ o, match o with RecvDatagram d => Some (control d) | RecvError _ => None end) os.
Definition tally (f : RecvOutcome → bool) (os : list RecvOutcome) : Z := Z.of_nat (length (List.filter f os)).

(** The outcome of the next call. *)
Definition answer (r : t) : RecvOutcome := default (RecvError EAGAIN) (head (socket r)).

Lemma udp_next_spec r : length (buf r) = kMaxPacketSize →
  let '(view, r') := next clock r in
  view = (λ bs, (Some bs, clock (reads r))) <$> fitting (answer r) ∧ length (buf r') = kMaxPacketSize ∧
  error_count r' = (if real_error (answer r) then u64 (error_count r + 1) else error_count r) ∧
  truncated_count r' = (if too_long (answer r) then u64 (truncated_count r + 1) else truncated_count r) ∧
  drops r' = (if drop_metrics_enabled r then fold_left KernelDrops.recordKernelDrops (controls [answer r]) (drops r) else drops r) ∧
  drop_metrics_enabled r' = drop_metrics_enabled r ∧ socket r' = tail (socket r) ∧ reads r' = S (reads r).
Proof.
  intros Hb. unfold next, nextWithDropMetrics, receive, answer. cbn -[Nat.ltb kMaxPacketSize fill].
  destruct (socket r) as [|[e|d] rest]; cbn -[Nat.ltb kMaxPacketSize fill].
  - destruct (drop_metrics_enabled r); by split_and!.
  - destruct (drop_metrics_enabled r), e; by split_and!.
  - unfold accept. cbn -[Nat.ltb kMaxPacketSize fill].
    destruct (drop_metrics_enabled r), (Nat.ltb kMaxPacketSize (length (content d))) eqn:El.
    all: cbn -[Nat.ltb kMaxPacketSize fill]; split_and!; try done; rewrite ?fill_length; try done.
    all: apply Nat.ltb_ge in El; by rewrite fill_front by lia.
Qed.

Lemma tally_cons (f : RecvOutcome → bool) (o : RecvOutcome) os x :
  u64 ((if f o then u64 (x + 1) else x) + tally f os) = u64 (x + tally f (o :: os)).
Proof.
  unfold tally, u64. cbn. destruct (f o); [|done]. rewrite Z.add_mod_idemp_l by done. f_equal. cbn [length]. lia.
Qed.

(** A call sequence, answer by answer. *)
Lemma udp_calls_spec n r : length (buf r) = kMaxPacketSize → (n <= length (socket r))%nat →
  let '(views, r') := calls n r in
  let used := take n (socket r) in
  ((λ v, v ≫= fst) <$> views) = fitting <$> used ∧ socket r' = drop n (socket r) ∧
  u64 (error_count r') = u64 (error_count r + tally real_error used) ∧
  u64 (truncated_count r') = u64 (truncated_count r + tally too_long used) ∧
  drops r' = (if drop_metrics_enabled r then fold_left KernelDrops.recordKernelDrops (controls used) (drops r) else drops r).
Proof.
  revert r. induction n as [|n IH]; intros r Hb Hn; cbn [calls].
  { rewrite take_0. cbn. rewrite !Z.add_0_r. split_and!; try done. by destruct (drop_metrics_enabled r). }
  pose proof (udp_next_spec r Hb) as H. destruct (next clock r) as [view r1]. destruct H as (->&H1&H2&H3&H4&H5&H6&_).
  unfold answer in *. destruct (socket r) as [|o rest] eqn:Es; [cbn in Hn; lia|]. cbn in H2, H3, H6.
  specialize (IH r1 H1). rewrite H6 in IH. specialize (IH ltac:(cbn in Hn; lia)).
  destruct (calls n r1) as [views r2]. destruct IH as (I1&I2&I3&I4&I5). cbn. split_and!.
  - rewrite I1. by destruct (fitting o).
  - done.
  - rewrite I3, H2. by apply tally_cons.
  - rewrite I4, H3. by apply tally_cons.
  - rewrite I5, H5, H4. destruct (drop_metrics_enabled r); [|done]. by destruct o.
Qed.

End single.

(** ** Batches *)

Section batch.
Import UdpBatchReceiver.
Context (clock : nat → Z).

(** What a message of a batch is worth to the caller. *)
Definition kept (m : Message) : option (list Z) :=
  if shouldDropDatagram (length (content (datagram m))) (truncated m) then None else Some (content (datagram m)).
Definition arriving (o : BatchOutcome) : list (list Z) :=
  match o with Batch ms => omap kept ms | BatchError _ => [] end.

(** The views of the messages kept, the first message being in buffer [i]. *)
Fixpoint viewsFrom (i : nat) (ms : list Message) (ticks : Z) : list View :=
  match ms with
  | [] => []
  | m :: ms =>
    let size := length (content (datagram m)) in
    (if shouldDropDatagram size (truncated m) then [] else [mkView i size ticks]) ++ viewsFrom (S i) ms ticks
  end.

Lemma acceptLoop_spec i ms ticks accepted pend k tc :
  (accepted + length ms <= length pend)%nat →
  let '(accepted', pend', _, _) := acceptLoop i ms ticks accepted pend k tc in
  take accepted' pend' = take accepted pend ++ viewsFrom i ms ticks ∧ length pend' = length pend ∧
  accepted' = (accepted + length (viewsFrom i ms ticks))%nat ∧ (accepted' <= length pend)%nat.
Proof.
  revert i accepted pend k tc. induction ms as [|m ms IH]; intros i accepted pend k tc Hl; cbn [acceptLoop viewsFrom length] in *.
  - rewrite app_nil_r, Nat.add_0_r. split_and!; try done. lia.
  - destruct (shouldDropDatagram _ _).
    + apply IH. lia.
    + specialize (IH (S i) (S accepted) (<[accepted:=mkView i (length (content (datagram m))) ticks]> pend)
        (KernelDrops.recordKernelDrops k (control (datagram m))) tc).
      rewrite length_insert in IH. specialize (IH ltac:(lia)).
      destruct (acceptLoop _ _ _ _ _ _ _) as [[[a p] ?] ?]. destruct IH as (H1&H2&H3&H4). split_and!; [|done| |done].
      * rewrite H1. rewrite (take_S_r _ accepted (mkView i (length (content (datagram m))) ticks)) by (by rewrite list_lookup_insert_eq by lia).
        rewrite take_insert_ge by lia. by rewrite <- app_assoc.
      * rewrite H3, length_app. cbn. lia.
Qed.

Lemma store_below i ms bufs j : (j < i)%nat → store i ms bufs !! j = bufs !! j.
Proof.
  revert i bufs. induction ms as [|m ms IH]; intros i bufs Hj; cbn [store]; [done|].
  rewrite IH by lia. apply list_lookup_alter_ne. lia.
Qed.

Lemma store_length i ms bufs : length (store i ms bufs) = length bufs.
Proof. revert i bufs. induction ms as [|m ms IH]; intros i bufs; cbn [store]; [done|]. by rewrite IH, length_alter. Qed.

Definition sized (bufs : list (list Z)) : Prop := length bufs = kMaxBatchSize ∧ Forall (λ b, length b = kMaxPacketSize) bufs.

Lemma store_sized i ms bufs : sized bufs → sized (store i ms bufs).
Proof.
  revert i bufs. induction ms as [|m ms IH]; intros i bufs [Hl Hs]; cbn [store]; [done|]. apply IH.
  split; [by rewrite length_alter|]. apply Forall_lookup. intros j b Hb.
  destruct (decide (j = i)) as [->|Hj].
  - rewrite list_lookup_alter_eq in Hb. destruct (bufs !! i) eqn:Eb; [|done]. injection Hb as <-.
    rewrite fill_length. by eapply Forall_lookup in Hs.
  - rewrite list_lookup_alter_ne in Hb by done. by eapply Forall_lookup in Hs.
Qed.

(** Every view shows the datagram it was made for. *)
Lemma views_shown i ms ticks bufs : sized bufs → (i + length ms <= kMaxBatchSize)%nat →
  shown (store i ms bufs) <$> viewsFrom i ms ticks = (λ bs, (Some bs, ticks)) <$> omap kept ms.
Proof.
  revert i bufs. induction ms as [|m ms IH]; intros i bufs Hs Hi; [done|]. cbn [viewsFrom store omap list_omap].
  assert (sized (alter (λ b, fill b (content (datagram m))) i bufs)) as Hs' by exact (store_sized i [m] bufs Hs).
  cbn [length] in Hi. rewrite fmap_app, IH by (done || lia).
  unfold kept at 2. destruct (shouldDropDatagram _ _) eqn:Ed; [done|]. cbn. f_equal. unfold shown. cbn.
  rewrite store_below, list_lookup_alter_eq by lia.
  destruct Hs as [Hl Hf]. assert (is_Some (bufs !! i)) as [b Hb] by (apply lookup_lt_is_Some; lia).
  rewrite Hb. cbn. rewrite fill_front; [done|].
  apply orb_false_iff in Ed as [_ Ed%Nat.ltb_ge]. by rewrite (Forall_lookup_1 _ _ _ _ Hf Hb).
Qed.

(** The views not yet handed out. *)
Definition waiting (r : t) : list View := drop (pending_index r) (take (pending_count r) (pending r)).
(** The datagrams still to come. *)
Definition queue (r : t) : list (list Z) :=
  omap (λ v, (shown (buffers r) v).1) (waiting r) ++ concat (arriving <$> socket r).
Definition todo (r : t) : nat := (length (waiting r) + length (concat (arriving <$> socket r)) + length (socket r))%nat.

(** [recvmmsg] returns at most as many messages as it was given room for. *)
Definition answers_fit (size : nat) (os : list BatchOutcome) : Prop :=
  Forall (λ o, match o with Batch ms => (length ms <= size)%nat | BatchError _ => True end) os.

Record batch_ok (r : t) : Prop := {
  bo_size : (batch_size r <= kMaxBatchSize)%nat;
  bo_pending : length (pending r) = kMaxBatchSize;
  bo_buffers : sized (buffers r);
  bo_range : (pending_index r <= pending_count r <= kMaxBatchSize)%nat;
  bo_waiting : Forall (λ v, (index v < kMaxBatchSize)%nat) (waiting r);
  bo_socket : answers_fit (batch_size r) (socket r) }.

Lemma viewsFrom_index i ms ticks n : (i + length ms <= n)%nat → Forall (λ v, (index v < n)%nat) (viewsFrom i ms ticks).
Proof.
  revert i. induction ms as [|m ms IH]; intros i Hi; cbn [viewsFrom length] in *; [constructor|].
  apply Forall_app. split; [|apply IH; lia]. case_match; constructor; [cbn; lia|constructor].
Qed.

Lemma shown_datas (g : View → PacketView) vs ticks (xs : list (list Z)) :
  g <$> vs = (λ bs, (Some bs, ticks)) <$> xs → omap (λ v, (g v).1) vs = xs.
Proof.
  revert xs. induction vs as [|v vs IH]; intros [|x xs] H; try done. injection H as Hg H. cbn. rewrite Hg. cbn.
  f_equal. by apply IH.
Qed.

(** Refilling an empty receiver. *)
Lemma receiveBatch_spec r : batch_ok r → waiting r = [] →
  let '(n, r') := receiveBatch clock r in
  batch_ok r' ∧ queue r' = queue r ∧ n = length (waiting r') ∧ n = pending_count r' ∧
  pending_index r' = 0%nat ∧ (todo r' <= todo r - 1)%nat.
Proof.
  intros [H1 H2 H3 H4 H5 H6] Hw. unfold receiveBatch, queue, todo. rewrite Hw.
  destruct (socket r) as [|[e|ms] rest] eqn:Es.
  - split; [by split; cbn; try done; lia|]. split_and!; done || (cbn; lia).
  - apply Forall_cons in H6 as [_ H6]. split; [by split; cbn; try done; lia|]. split_and!; try done.
    change (waiting _) with (@nil View). cbn [fmap list_fmap concat arriving app length socket]. lia.
  - apply Forall_cons in H6 as [Hms H6].
    pose proof (acceptLoop_spec 0 ms (clock (reads r)) 0 (pending r) (drops r) (truncated_count r) ltac:(lia)) as Ha.
    destruct (acceptLoop _ _ _ _ _ _ _) as [[[a p] k] tc]. destruct Ha as (Ht&Hl&Ha&Hal). rewrite take_0 in Ht. cbn [app] in Ht.
    pose proof (views_shown 0 ms (clock (reads r)) (buffers r) H3 ltac:(lia)) as Hv. apply shown_datas in Hv as Hd.
    apply (f_equal length) in Hv. rewrite !length_fmap in Hv.
    assert (∀ k tc n s rd, waiting (mk (batch_size r) p 0 a (store 0 ms (buffers r)) k tc n s rest rd) =
      viewsFrom 0 ms (clock (reads r))) as Hwait by (intros; unfold waiting; cbn [pending_index pending_count pending]; by rewrite drop_0).
    split; [split; rewrite ?Hwait; cbn [batch_size pending buffers pending_index pending_count socket]|].
    + done.
    + by rewrite Hl.
    + by apply store_sized.
    + lia.
    + apply viewsFrom_index. lia.
    + done.
    + rewrite Hwait. cbn [buffers socket pending_count pending_index fmap list_fmap concat arriving]. rewrite Hd.
      cbn [length]. rewrite length_app, Hv. split_and!; [done|lia|done|done|lia].
Qed.

(** Handing out the first view that is waiting. *)
Lemma hand_out r v rest : batch_ok r → waiting r = v :: rest →
  pending r !! pending_index r = Some v ∧ let r' := with_index r (S (pending_index r)) in
  batch_ok r' ∧ waiting r' = rest ∧ (∃ bs, (shown (buffers r) v).1 = Some bs ∧ queue r = bs :: queue r') ∧
  todo r = S (todo r').
Proof.
  intros [H1 H2 H3 H4 H5 H6] Hw.
  assert (pending_index r < pending_count r)%nat as Hlt.
  { destruct (decide (pending_index r < pending_count r)%nat) as [|Hge]; [done|]. unfold waiting in Hw.
    by rewrite drop_ge in Hw by (rewrite length_take; lia). }
  assert (pending r !! pending_index r = Some v) as Hl.
  { rewrite <- (lookup_take_lt (pending r) (pending_count r)) by done.
    rewrite <- (Nat.add_0_r (pending_index r)), <- lookup_drop. fold (waiting r). by rewrite Hw. }
  assert (waiting (with_index r (S (pending_index r))) = rest) as Hr.
  { unfold waiting. cbn. rewrite <- (Nat.add_1_r (pending_index r)), <- drop_drop. fold (waiting r). by rewrite Hw. }
  rewrite Hw in H5. apply Forall_cons in H5 as [Hv H5].
  split; [done|]. split_and!.
  - split; cbn [with_index batch_size pending buffers pending_index pending_count socket]; try done; [lia|by rewrite Hr].
  - done.
  - destruct H3 as [Hbl _]. assert (is_Some (buffers r !! index v)) as [b Hb] by (apply lookup_lt_is_Some; lia).
    exists (take (size v) b). unfold shown, queue. rewrite Hr, Hw. cbn. rewrite Hb. done.
  - unfold todo. rewrite Hr, Hw. cbn. lia.
Qed.

Lemma next_batch_spec r : batch_ok r →
  let '(view, r') := next clock r in
  batch_ok r' ∧ queue r = option_list (view ≫= fst) ++ queue r' ∧ (todo r' <= todo r - 1)%nat.
Proof.
  intros Hr. unfold next.
  destruct (waiting r) as [|v rest] eqn:Hw.
  - assert (pending_count r <= pending_index r)%nat as Hge.
    { destruct (bo_range r Hr). apply (f_equal length) in Hw. unfold waiting in Hw.
      rewrite length_drop, length_take, (bo_pending r Hr) in Hw. cbn in Hw. lia. }
    rewrite (proj2 (Nat.leb_le _ _) Hge). pose proof (receiveBatch_spec r Hr Hw) as Hb.
    destruct (receiveBatch clock r) as [n r1]. destruct Hb as (Hr1&Hq&Hn&_&_&Ht).
    destruct (waiting r1) as [|v rest] eqn:Hw1; rewrite Hn; cbn [length Nat.eqb]; [by rewrite Hq|].
    destruct (hand_out r1 v rest Hr1 Hw1) as (Hl&Hr2&_&(bs&Hs&Hq2)&Ht2). rewrite Hl.
    cbn [fmap option_fmap option_map mbind option_bind]. rewrite Hs.
    split; [done|]. split; [by rewrite <- Hq, Hq2|lia].
  - assert (pending_index r < pending_count r)%nat as Hlt.
    { destruct (decide (pending_index r < pending_count r)%nat) as [|Hge]; [done|]. unfold waiting in Hw.
      by rewrite drop_ge in Hw by (rewrite length_take; lia). }
    rewrite (proj2 (Nat.leb_gt (pending_count r) _) Hlt). cbn [Nat.eqb].
    destruct (hand_out r v rest Hr Hw) as (Hl&Hr2&_&(bs&Hs&Hq2)&Ht2). rewrite Hl.
    cbn [fmap option_fmap option_map mbind option_bind]. rewrite Hs.
    split; [done|]. split; [done|lia].
Qed.

Definition datasOf (bufs : list (list Z)) (vs : list View) : list (list Z) := omap (λ v, (shown bufs v).1) vs.

Lemma waiting_range r : batch_ok r → length (waiting r) = (pending_count r - pending_index r)%nat.
Proof.
  intros Hr. pose proof (bo_range r Hr). unfold waiting. rewrite length_drop, length_take, (bo_pending r Hr). lia.
Qed.

Lemma copyLoop_spec n r copied max : batch_ok r → (length (waiting r) <= n)%nat →
  let '(copied', r') := copyLoop n r copied max in
  ∃ vs, copied' = copied ++ vs ∧ vs = take (max - length copied) (waiting r) ∧ waiting r = vs ++ waiting r' ∧
    batch_ok r' ∧ buffers r' = buffers r ∧ queue r = datasOf (buffers r) vs ++ queue r' ∧
    todo r = (length vs + todo r')%nat.
Proof.
  revert r copied. induction n as [|n IH]; intros r copied Hr Hn; cbn [copyLoop].
  { exists []. rewrite app_nil_r. destruct (waiting r) eqn:Hw; [|cbn in Hn; lia]. rewrite take_nil. by split_and!. }
  pose proof (waiting_range r Hr) as Hlen.
  destruct (Nat.ltb (length copied) max) eqn:E1; cbn [andb].
  2: { apply Nat.ltb_ge in E1. exists []. rewrite app_nil_r. replace (max - length copied)%nat with 0%nat by lia. by split_and!. }
  apply Nat.ltb_lt in E1. destruct (waiting r) as [|v rest] eqn:Hw.
  { rewrite (proj2 (Nat.ltb_ge (pending_index r) _)) by (cbn in Hlen; lia). exists []. rewrite app_nil_r, take_nil. by split_and!. }
  rewrite (proj2 (Nat.ltb_lt (pending_index r) _)) by (cbn in Hlen; lia).
  destruct (hand_out r v rest Hr Hw) as (Hl&Hr2&Hw2&(bs&Hs&Hq)&Ht). rewrite Hl. cbn [option_list].
  specialize (IH (with_index r (S (pending_index r))) (copied ++ [v]) Hr2). rewrite Hw2 in IH.
  specialize (IH ltac:(cbn in Hn; lia)). destruct (copyLoop _ _ _ _) as [copied' r'].
  destruct IH as (vs&->&Hvs&Hwr&Hr'&Hb'&Hq'&Ht'). exists (v :: vs). rewrite length_app in Hvs. cbn [length] in Hvs.
  split_and!; try done.
  - by rewrite <- app_assoc.
  - replace (max - length copied)%nat with (S (max - (length copied + 1))) by lia. cbn. by rewrite Hvs.
  - by rewrite Hwr.
  - rewrite Hq, Hq'. unfold datasOf. cbn [omap list_omap]. by rewrite Hs.
  - rewrite Ht, Ht'. done.
Qed.

(** Once something has been copied the outer loop only leaves. *)
Lemma batchLoop_leaves clk r copied max : (0 < length copied)%nat →
  (length copied = max ∨ pending_count r <= pending_index r)%nat → batchLoop 1 clk r copied max = (copied, r).
Proof.
  intros Hc H. cbn [batchLoop]. destruct (Nat.ltb _ _) eqn:E1; [|done]. apply Nat.ltb_lt in E1.
  rewrite (proj2 (Nat.leb_le (pending_count r) _)) by lia. by rewrite (proj2 (Nat.ltb_lt 0 _) Hc).
Qed.

(** A copy from a receiver that has something to hand out. *)
Lemma copy_spec r max : batch_ok r → (0 < max)%nat → waiting r ≠ [] →
  let '(copied, r') := copyLoop (pending_count r) r [] max in
  let '(vs, r2) := batchLoop 1 clock r' copied max in
  vs = copied ∧ r2 = r' ∧ batch_ok r' ∧ queue r = datasOf (buffers r') vs ++ queue r' ∧ (0 < length vs <= max)%nat ∧
  todo r = (length vs + todo r')%nat.
Proof.
  intros Hr Hm Hw. pose proof (waiting_range r Hr) as Hlen. pose proof (copyLoop_spec (pending_count r) r [] max Hr ltac:(lia)) as Hc.
  destruct (copyLoop _ _ _ _) as [copied r']. destruct Hc as (vs&->&Hvs&Hwr&Hr'&Hb&Hq&Ht). cbn [app length] in *.
  rewrite Nat.sub_0_r in Hvs.
  assert (0 < length vs <= max)%nat as Hlv.
  { rewrite Hvs, length_take. destruct (waiting r); [done|]. cbn [length]. lia. }
  assert (length vs = max ∨ pending_count r' <= pending_index r')%nat as Hdone.
  { pose proof (waiting_range r' Hr') as Hlen'. apply (f_equal length) in Hwr. rewrite length_app in Hwr.
    apply (f_equal length) in Hvs. rewrite length_take in Hvs. lia. }
  rewrite batchLoop_leaves by (done || lia). rewrite Hb. split_and!; done || lia.
Qed.

Lemma nextBatch_spec r max : batch_ok r →
  let '(views, r') := nextBatch clock r max in
  batch_ok r' ∧ queue r = omap fst views ++ queue r' ∧ (length views <= max)%nat ∧
  ((0 < max)%nat → (todo r' <= todo r - 1)%nat).
Proof.
  intros Hr. unfold nextBatch. destruct (Nat.eqb max 0) eqn:Em; [apply Nat.eqb_eq in Em; split_and!; cbn; done || lia|].
  apply Nat.eqb_neq in Em.
  assert (∀ bufs vs, omap fst (shown bufs <$> vs) = datasOf bufs vs) as Hfst.
  { intros bufs vs. unfold datasOf. induction vs as [|v vs IH]; [done|]. cbn. by rewrite IH. }
  assert (∀ r0, batch_ok r0 → waiting r0 ≠ [] → queue r0 = queue r → (todo r0 <= todo r)%nat →
    let '(views, r') := (let '(copied, r) := (let '(copied, r') := copyLoop (pending_count r0) r0 [] max in
      batchLoop 1 clock r' copied max) in (shown (buffers r) <$> copied, r)) in
    batch_ok r' ∧ queue r = omap fst views ++ queue r' ∧ (length views <= max)%nat ∧
    ((0 < max)%nat → (todo r' <= todo r - 1)%nat)) as Hcopy.
  { intros r0 Hr0 Hw0 Hq0 Ht0. pose proof (copy_spec r0 max Hr0 ltac:(lia) Hw0) as Hc.
    destruct (copyLoop _ _ _ _) as [copied r']. destruct (batchLoop _ _ _ _ _) as [vs r2].
    destruct Hc as (->&->&Hr'&Hq&Hl&Ht). rewrite Hfst, length_fmap, <- Hq0. split_and!; try done; lia. }
  unfold batchLoop. cbn [length]. rewrite (proj2 (Nat.ltb_lt 0 max)) by lia. pose proof (waiting_range r Hr) as Hlen.
  destruct (waiting r) as [|v rest] eqn:Hw.
  - rewrite (proj2 (Nat.leb_le (pending_count r) _)) by (cbn in Hlen; lia). cbn [Nat.ltb Nat.leb].
    pose proof (receiveBatch_spec r Hr Hw) as Hb. destruct (receiveBatch clock r) as [n r1].
    destruct Hb as (Hr1&Hq&Hn&_&_&Ht). destruct (waiting r1) as [|v rest] eqn:Hw1; rewrite Hn; cbn [length Nat.eqb].
    + split_and!; [done|by rewrite Hq|cbn; lia|lia].
    + apply Hcopy; [done|congruence|done|lia].
  - rewrite (proj2 (Nat.leb_gt (pending_count r) _)) by (cbn in Hlen; lia). apply Hcopy; [done|congruence|done|lia].
Qed.

(** A call of the receiver. *)
Inductive Call := Next | NextBatch (max_packets : nat).

Definition call (c : Call) (r : t) : list PacketView * t :=
  match c with
  | Next => let '(view, r) := next clock r in (option_list view, r)
  | NextBatch max_packets => nextBatch clock r max_packets
  end.

Fixpoint session (cs : list Call) (r : t) : list PacketView * t :=
  match cs with
  | [] => ([], r)
  | c :: cs =>
    let '(views, r) := call c r in
    let '(views', r) := session cs r in (views ++ views', r)
  end.

Definition asks (c : Call) : Prop := match c with Next => True | NextBatch max_packets => (0 < max_packets)%nat end.

Lemma call_spec c r : batch_ok r → let '(views, r') := call c r in
  batch_ok r' ∧ queue r = omap fst views ++ queue r' ∧ (asks c → (todo r' <= todo r - 1)%nat).
Proof.
  intros Hr. destruct c as [|max]; cbn [call asks].
  - pose proof (next_batch_spec r Hr) as H. destruct (next clock r) as [[view|] r']; cbn in H |- *;
      destruct H as (H1&H2&H3); by split_and!.
  - pose proof (nextBatch_spec r max Hr) as H. destruct (nextBatch clock r max) as [views r'].
    destruct H as (H1&H2&_&H3). by split_and!.
Qed.

Lemma session_spec cs r : batch_ok r → let '(views, r') := session cs r in
  batch_ok r' ∧ queue r = omap fst views ++ queue r' ∧ (Forall asks cs → (todo r' <= todo r - length cs)%nat).
Proof.
  revert r. induction cs as [|c cs IH]; intros r Hr; cbn [session].
  { split_and!; [done..|]. intros _. cbn. lia. }
  pose proof (call_spec c r Hr) as H. destruct (call c r) as [views r1]. destruct H as (H1&H2&H3).
  specialize (IH r1 H1). destruct (session cs r1) as [views' r2]. destruct IH as (I1&I2&I3). split_and!; [done| |].
  - by rewrite omap_app, <- app_assoc, <- I2.
  - intros [Ha Hs]%Forall_cons. specialize (H3 Ha). specialize (I3 Hs). cbn [length]. lia.
Qed.

(** C27. Whatever the kernel answers, and however single and batched
    reads are mixed, the packets a batch receiver hands out are the datagrams that fit and
    are not reported as truncated, in the order of arrival, and each shows its own bytes
    although the buffers are reused from one system call to the next.  No datagram is
    lost: once there have been as many reads as batches and datagrams, all were handed out. *)
Theorem udp_batch_delivers batch os cs :
  answers_fit (batch_size (make batch os)) os →
  let '(views, r) := session cs (make batch os) in
  concat (arriving <$> os) = omap fst views ++ queue r ∧
  (Forall asks cs → (length (concat (arriving <$> os)) + length os <= length cs)%nat → queue r = []).
Proof.
  intros Hf. assert (batch_ok (make batch os)) as Hok.
  { split; [apply Nat.le_min_r|apply length_replicate| |split; apply Nat.le_0_l|constructor|done].
    split; [apply length_replicate|]. apply Forall_replicate, length_replicate. }
  pose proof (session_spec cs _ Hok) as H. destruct (session _ _) as [views r]. destruct H as (H1&H2&H3).
  split; [exact H2|]. intros Ha Hl. specialize (H3 Ha). apply nil_length_inv.
  assert (todo (make batch os) = length (concat (arriving <$> os)) + length os)%nat as Ht by done. rewrite Ht in H3.
  assert (length (queue r) <= todo r)%nat; [|lia]. unfold queue, todo. rewrite length_app.
  assert (∀ vs, length (omap (λ v, (shown (buffers r) v).1) vs) <= length vs)%nat as Ho.
  { intros vs. induction vs as [|v vs IH]; [done|]. cbn [omap list_omap]. destruct ((shown (buffers r) v).1); cbn [length].
    - by apply le_n_S.
    - by apply le_S. }
  specialize (Ho (waiting r)). lia.
Qed.

End batch.

(** Two messages and one truncated one, an error, then one more; read in different ways. *)
Definition sampleAnswers : list UdpBatchReceiver.BatchOutcome :=
  let msg bs truncated := UdpBatchReceiver.mkMessage (mkDatagram bs []) truncated in
  [UdpBatchReceiver.Batch [msg [1; 2] false; msg [3] true; msg [4] false]; UdpBatchReceiver.BatchError OtherErrno;
   UdpBatchReceiver.Batch [msg [5; 6; 7] false]].

Lemma udp_batch_delivers_witness :
  omap fst (session (λ _, 0) [Next; NextBatch 8; Next; NextBatch 1; Next; Next] (UdpBatchReceiver.make 4 sampleAnswers)).1 =
  [[1; 2]; [4]; [5; 6; 7]].
Proof.
  pose proof (udp_batch_delivers (λ _, 0) 4 sampleAnswers [Next; NextBatch 8; Next; NextBatch 1; Next; Next]) as H.
  destruct (session _ _ _) as [views r]. destruct H as [H1 H2].
  - repeat constructor; vm_compute; lia.
  - rewrite (H2 ltac:(repeat constructor) ltac:(vm_compute; lia)), app_nil_r in H1. symmetry. exact H1.
Defined.

(** ** Two lines *)

Section dual.
Context {S : Type} `{IMarketDataSource S}.

(** The packets of [k] reads of a source. *)
Fixpoint drain (k : nat) (s : S) : list PacketView * S :=
  match k with
  | O => ([], s)
  | Datatypes.S k =>
    let '(packet, s) := src_next s in
    let '(packets, s) := drain k s in (option_list packet ++ packets, s)
  end.

Lemma drain_snoc k s : drain (Datatypes.S k) s =
  let '(packets, s) := drain k s in let '(packet, s) := src_next s in (packets ++ option_list packet, s).
Proof.
  revert s. induction k as [|k IH]; intros s.
  - cbn. destruct (src_next s) as [packet s']. by rewrite app_nil_r.
  - assert (∀ k s, drain (Datatypes.S k) s =
      let '(packet, s) := src_next s in let '(packets, s) := drain k s in (option_list packet ++ packets, s)) as Hs by done.
    rewrite (Hs (Datatypes.S k)), (Hs k s). destruct (src_next s) as [p1 s1]. rewrite IH. destruct (drain k s1) as [ps s2].
    destruct (src_next s2) as [p2 s3]. by rewrite app_assoc.
Qed.

(** What line [a] contributed to a tagged sequence of packets. *)
Definition ofLine (a : bool) (ps : list (bool * PacketView)) : list PacketView := snd <$> filter (λ p, p.1 = a) ps.

(** [r'] is reached from [r] by reads of the two lines that returned [ps]. *)
Definition reads_to (r : Lines S) (ps : list (bool * PacketView)) (r' : Lines S) : Prop :=
  ∃ ka kb, drain ka (receiver_a r) = (ofLine true ps, receiver_a r') ∧
    drain kb (receiver_b r) = (ofLine false ps, receiver_b r') ∧
    u64 (packets_a r') = u64 (packets_a r + Z.of_nat (length (ofLine true ps))) ∧
    u64 (packets_b r') = u64 (packets_b r + Z.of_nat (length (ofLine false ps))).

Lemma reads_refl r : reads_to r [] r.
Proof. exists 0%nat, 0%nat. cbn. by rewrite !Z.add_0_r. Qed.

Lemma reads_set r ps r' a : reads_to r ps r' → reads_to r ps (set_first a r').
Proof. done. Qed.

Lemma reads_poll r ps r1 a : reads_to r ps r1 →
  let '(packet, r2) := poll_line a r1 in reads_to r (ps ++ option_list (pair a <$> packet)) r2.
Proof.
  intros (ka&kb&Ha&Hb&Ca&Cb). unfold poll_line. destruct a.
  - destruct (src_next (receiver_a r1)) as [packet s] eqn:E. exists (Datatypes.S ka), kb.
    rewrite drain_snoc, Ha, E. unfold ofLine in *. rewrite !filter_app, !fmap_app, !length_app.
    destruct packet; cbn; rewrite ?app_nil_r, ?Nat.add_0_r; split_and!; try done.
    rewrite Nat2Z.inj_add, Z.add_assoc. unfold u64 in *. cbn. rewrite Z.mod_mod by done.
    rewrite <- Z.add_mod_idemp_l, Ca, Z.add_mod_idemp_l by done. done.
  - destruct (src_next (receiver_b r1)) as [packet s] eqn:E. exists ka, (Datatypes.S kb).
    rewrite drain_snoc, Hb, E. unfold ofLine in *. rewrite !filter_app, !fmap_app, !length_app.
    destruct packet; cbn; rewrite ?app_nil_r, ?Nat.add_0_r; split_and!; try done.
    rewrite Nat2Z.inj_add, Z.add_assoc. unfold u64 in *. cbn. rewrite Z.mod_mod by done.
    rewrite <- Z.add_mod_idemp_l, Cb, Z.add_mod_idemp_l by done. done.
Qed.

(** The packet of a call, with the line it came from. *)
Definition tagged (r : Lines S) (view : option PacketView) (r' : Lines S) : Prop :=
  ∀ r0 ps, reads_to r0 ps r → ∃ qs, snd <$> qs = option_list view ∧ reads_to r0 (ps ++ qs) r'.

Lemma poll_tagged a r : let '(view, r') := poll_line a r in tagged r view r'.
Proof.
  destruct (poll_line a r) as [view r'] eqn:E. intros r0 ps H0. pose proof (reads_poll r0 ps r a H0) as Hp. rewrite E in Hp.
  eexists. split; [|exact Hp]. by destruct view.
Qed.

Lemma tagged_none r r1 view r' : tagged r None r1 → tagged r1 view r' → tagged r view r'.
Proof.
  intros H1 H2 r0 ps H0. destruct (H1 r0 ps H0) as (qs&Hq&Hr). apply fmap_nil_inv in Hq as ->. rewrite app_nil_r in Hr. eauto.
Qed.

Lemma tryBoth_tagged r : let '(view, r') := tryBoth r in tagged r view r'.
Proof.
  unfold tryBoth. pose proof (poll_tagged (next_a_first r) r) as H1. destruct (poll_line _ r) as [[view|] r1]; [done|].
  pose proof (poll_tagged (negb (next_a_first r)) r1) as H2. destruct (poll_line _ r1) as [view r2]. by eapply tagged_none.
Qed.

Lemma dual_tagged r : let '(view, r') := DualUdpReceiver.next r in
  tagged (DualUdpReceiver.lines r) view (DualUdpReceiver.lines r').
Proof.
  unfold DualUdpReceiver.next. pose proof (tryBoth_tagged (DualUdpReceiver.lines r)) as H1.
  destruct (tryBoth _) as [[view|] l]; [done|]. destruct (default None _) as [[ia ib]|]; [|done].
  set (go1 := if next_a_first l then ia else ib). set (go2 := if next_a_first l then ib else ia).
  assert (∀ (go a : bool) l, let '(view, l') := if go then poll_line a l else (None, l) in tagged l view l') as Hgo.
  { intros [] a l0; [apply poll_tagged|]. intros r0 ps H0. exists []. by rewrite app_nil_r. }
  pose proof (Hgo go1 (next_a_first l) l) as H2. destruct (if go1 then _ else _) as [[view|] l1].
  { by eapply tagged_none. }
  pose proof (Hgo go2 (negb (next_a_first l)) l1) as H3. destruct (if go2 then _ else _) as [view l2].
  eapply tagged_none; [done|]. by eapply tagged_none.
Qed.

Fixpoint dualCalls (n : nat) (r : DualUdpReceiver.t S) : list (option PacketView) * DualUdpReceiver.t S :=
  match n with
  | O => ([], r)
  | Datatypes.S n =>
    let '(view, r) := DualUdpReceiver.next r in
    let '(views, r) := dualCalls n r in (view :: views, r)
  end.

(** Whatever the two lines and [poll] answer, the packets that
    [DualUdpReceiver::next] hands out are an interleaving of what reading line A and
    reading line B returned: no packet of either line is dropped, duplicated or taken out
    of its order, and the two counters count the packets of their line. *)
Theorem dual_interleaves n (r : DualUdpReceiver.t S) :
  let '(views, r') := dualCalls n r in
  ∃ ps, snd <$> ps = omap id views ∧ reads_to (DualUdpReceiver.lines r) ps (DualUdpReceiver.lines r').
Proof.
  assert (∀ r0 ps, reads_to r0 ps (DualUdpReceiver.lines r) → let '(views, r') := dualCalls n r in
    ∃ qs, snd <$> qs = omap id views ∧ reads_to r0 (ps ++ qs) (DualUdpReceiver.lines r')) as Hgen.
  2: { apply (Hgen _ []), reads_refl. }
  revert r. induction n as [|n IH]; intros r r0 ps H0; cbn [dualCalls].
  { exists []. by rewrite app_nil_r. }
  pose proof (dual_tagged r) as H1. destruct (DualUdpReceiver.next r) as [view r1].
  destruct (H1 r0 ps H0) as (qs&Hq&Hr1). specialize (IH r1 r0 (ps ++ qs) Hr1). destruct (dualCalls n r1) as [views r2].
  destruct IH as (qs'&Hq'&Hr2). exists (qs ++ qs'). rewrite fmap_app, Hq, Hq', (assoc (++)). split; [|done].
  by destruct view.
Qed.

(** A line that has a packet ready is served by one of the next two calls,
    whatever the other line does: neither line can starve the other. *)
Theorem dual_fair (r : DualUdpReceiver.t S) (a : bool) packet s :
  src_next (if a then receiver_a (DualUdpReceiver.lines r) else receiver_b (DualUdpReceiver.lines r)) = (Some packet, s) →
  let '(view1, r1) := DualUdpReceiver.next r in
  let '(view2, _) := DualUdpReceiver.next r1 in
  view1 = Some packet ∨ view2 = Some packet.
Proof.
  intros Hs. unfold DualUdpReceiver.next at 1, tryBoth.
  destruct (decide (next_a_first (DualUdpReceiver.lines r) = a)) as [E|E].
  - rewrite E. unfold poll_line at 1. destruct a; rewrite Hs; cbn; destruct (DualUdpReceiver.next _); by left.
  - assert (next_a_first (DualUdpReceiver.lines r) = negb a) as -> by (by destruct (next_a_first _), a).
    rewrite negb_involutive. destruct (poll_line (negb a) (DualUdpReceiver.lines r)) as [[other|] l] eqn:Ep.
    + unfold DualUdpReceiver.next, tryBoth. cbn [DualUdpReceiver.lines set_first next_a_first]. unfold poll_line in *.
      destruct a; cbn [negb] in *; destruct (src_next _) as [o s'] eqn:Eo in Ep; injection Ep as -> <-; cbn; rewrite Hs; cbn; by right.
    + unfold poll_line in *.
      destruct a; cbn [negb] in *; destruct (src_next _) as [o s'] eqn:Eo in Ep; injection Ep as -> <-; cbn; rewrite Hs; cbn;
      destruct (DualUdpReceiver.next _); by left.
Qed.

End dual.

(** Line A busy, line B with one datagram. *)
Definition sampleDual : DualUdpReceiver.t UdpReceiver.t :=
  let line os := UdpReceiver.make false ((λ bs, RecvDatagram (mkDatagram bs [])) <$> os) in
  DualUdpReceiver.mk (makeLines (line [[1]; [2]; [3]]) (line [[9]])) [].

Lemma dual_fair_witness :
  let next := @DualUdpReceiver.next _ (UdpReceiver.udp_source (λ _, 0)) in
  let '(view1, r1) := next sampleDual in
  let '(view2, _) := next r1 in
  view1 = Some (Some [9], 0) ∨ view2 = Some (Some [9], 0).
Proof.
  apply (@dual_fair _ (UdpReceiver.udp_source (λ _, 0)) sampleDual false (Some [9], 0)
    (snd (UdpReceiver.next (λ _, 0) (receiver_b (DualUdpReceiver.lines sampleDual))))). vm_compute. reflexivity.
Defined.

End UdpProps.
