(* ===== verification/Handoff.v ===== *)
(** The redundant sender of [apps/itch_moldudp_sender_main.cpp] ([RedundantUdpSender]):
    the main thread sends a packet on line A and hands it to a worker thread that sends
    the same bytes on line B.

    The two threads are interleaved at the grain of the shared accesses: a schedule is a
    list of events, [step] performs one event and is [None] where the event is not
    possible.  Atomic accesses are sequentially consistent, the publication that the
    acquire and release orders of the source provide.  Whether [sendto] accepts a packet
    and how time passes is up to the schedule; a time point is an unbounded number of
    nanoseconds.  After start-up nothing in the worker's
    loop throws, so [worker_failed_] stays false and is left out, as is CPU affinity. *)
From stdpp Require Import base list gmap.
From Stdlib Require Import ZArith Lia.
From S2P Require Import Prelude.
#[local] Open Scope Z_scope.
#[local] Open Scope astra_scope.

Module RedundantUdpSender.

(** [RedundantLineState] without the start-up fields. *)
Record LineState := mkLine {
  packets_sent : Z;
  messages_sent : Z;
  send_failures : Z;
  delay_overruns : Z }.

(** [RedundantPacketHandoff]; [data] is an address in [heap]. *)
Record Handoff := mkHandoff {
  data : nat;
  size : nat;
  msg_count : Z;
  line_b_not_before : Z;
  line_b_send_succeeded : bool;
  generation : Z;
  line_b_completed_generation : Z;
  stop : bool }.

(** Where the main thread is: in the constructor; between calls; in [send], after line A
    was sent, after the fields were written, and waiting for the worker; in
    [stopAndJoin]. *)
Inductive Producer :=
  | Constructing
  | Ready
  | Filling (line_a_sent : bool) (address : nat) (n : Z)
  | Publishing (line_a_sent : bool)
  | Waiting (line_a_sent : bool) (g : Z)
  | Stopping
  | Joining
  | Joined.

(** Where the worker is in [lineBWorkerLoop]. *)
Inductive Worker := Starting | Polling | Checking | Delaying | Spinning | Sending | Completing | Exited.
#[global] Instance Worker_eq_dec : EqDecision Worker.
Proof. solve_decision. Defined.

(** A packet given to [sendto]: its bytes, its message count, whether it was accepted, and when. *)
Record Sent := mkSent {
  packet : list Z;
  messages : Z;
  accepted : bool;
  at_time : Z }.

Record t := mk {
  delay : Z;
  heap : gmap nat (list Z);
  handoff : Handoff;
  line_a : LineState;
  line_b : LineState;
  startup_status : Z;
  producer : Producer;
  worker : Worker;
  observed_generation : Z;
  running : bool;
  time : Z;
  sent_a : list Sent;
  sent_b : list Sent;
  results : list bool }.

Definition make (line_b_delay_ns : Z) : t :=
  mk line_b_delay_ns ∅ (mkHandoff 0 0 0 0 false 0 0 false) (mkLine 0 0 0 0) (mkLine 0 0 0 0) 0
     Constructing Starting 0 true 0 [] [] [].

Definition content (s : t) (address size : nat) : list Z := take size (default [] (heap s !! address)).

Definition with_producer (s : t) (p : Producer) : t :=
  mk (delay s) (heap s) (handoff s) (line_a s) (line_b s) (startup_status s) p (worker s) (observed_generation s)
     (running s) (time s) (sent_a s) (sent_b s) (results s).
Definition with_worker (s : t) (w : Worker) : t :=
  mk (delay s) (heap s) (handoff s) (line_a s) (line_b s) (startup_status s) (producer s) w (observed_generation s)
     (running s) (time s) (sent_a s) (sent_b s) (results s).
Definition with_handoff (s : t) (h : Handoff) : t :=
  mk (delay s) (heap s) h (line_a s) (line_b s) (startup_status s) (producer s) (worker s) (observed_generation s)
     (running s) (time s) (sent_a s) (sent_b s) (results s).
Definition with_observed (s : t) (g : Z) : t :=
  mk (delay s) (heap s) (handoff s) (line_a s) (line_b s) (startup_status s) (producer s) (worker s) g
     (running s) (time s) (sent_a s) (sent_b s) (results s).
Definition with_status (s : t) (v : Z) : t :=
  mk (delay s) (heap s) (handoff s) (line_a s) (line_b s) v (producer s) (worker s) (observed_generation s)
     (running s) (time s) (sent_a s) (sent_b s) (results s).
Definition with_env (s : t) (r : bool) (now : Z) : t :=
  mk (delay s) (heap s) (handoff s) (line_a s) (line_b s) (startup_status s) (producer s) (worker s)
     (observed_generation s) r now (sent_a s) (sent_b s) (results s).
Definition with_heap (s : t) (h : gmap nat (list Z)) : t :=
  mk (delay s) h (handoff s) (line_a s) (line_b s) (startup_status s) (producer s) (worker s)
     (observed_generation s) (running s) (time s) (sent_a s) (sent_b s) (results s).
Definition with_line_a (s : t) (l : LineState) (log : list Sent) : t :=
  mk (delay s) (heap s) (handoff s) l (line_b s) (startup_status s) (producer s) (worker s)
     (observed_generation s) (running s) (time s) log (sent_b s) (results s).
Definition with_line_b (s : t) (l : LineState) (log : list Sent) : t :=
  mk (delay s) (heap s) (handoff s) (line_a s) l (startup_status s) (producer s) (worker s)
     (observed_generation s) (running s) (time s) (sent_a s) log (results s).
Definition with_results (s : t) (l : list bool) : t :=
  mk (delay s) (heap s) (handoff s) (line_a s) (line_b s) (startup_status s) (producer s) (worker s)
     (observed_generation s) (running s) (time s) (sent_a s) (sent_b s) l.

(** The counters of a line after an attempt to send. *)
Definition count (l : LineState) (ok : bool) (messages : Z) : LineState :=
  if ok then mkLine (u64 (packets_sent l + 1)) (u64 (messages_sent l + messages)) (send_failures l) (delay_overruns l)
  else mkLine (packets_sent l) (messages_sent l) (u64 (send_failures l + 1)) (delay_overruns l).

Definition overrun (l : LineState) : LineState :=
  mkLine (packets_sent l) (messages_sent l) (send_failures l) (u64 (delay_overruns l + 1)).

Inductive Event :=
  (* the main thread *)
  | Started                                          (* waitForStartup returns *)
  | Write (address : nat) (bytes : list Z)           (* between calls: fill a packet buffer *)
  | SendA (address : nat) (n : Z) (ok : bool)        (* enter send, line A *)
  | Fill                                             (* write the handoff *)
  | Publish                                          (* generation.fetch_add *)
  | Return                                           (* the worker has completed it *)
  | Stop                                             (* stop.exchange(true) *)
  | PublishStop                                      (* generation.fetch_add *)
  | Join
  (* the worker *)
  | Start (ok : bool)
  | Observe                                          (* generation differs from the one observed *)
  | Check                                            (* stop.load *)
  | Delay                                            (* count an overrun *)
  | Spun                                             (* the busy wait ends *)
  | SendB (ok : bool)
  | Complete
  (* the environment *)
  | Tick (n : Z)
  | Signal.

Definition startWorker (s : t) (ok : bool) : t :=
  if ok then with_worker (with_status s 1) Polling else with_worker (with_status s 2) Exited.

Definition sendA (s : t) (address : nat) (n : Z) (ok : bool) : t :=
  let bytes := default [] (heap s !! address) in
  with_producer
    (with_line_a s (count (line_a s) ok n) (sent_a s ++ [mkSent bytes n ok (time s)])) (Filling ok address n).

Definition fillHandoff (s : t) (address : nat) (n : Z) : t :=
  let h := handoff s in
  with_handoff s (mkHandoff address (length (default [] (heap s !! address))) n (time s + delay s) false
                    (generation h) (line_b_completed_generation h) (stop h)).

Definition publish (s : t) : t :=
  let h := handoff s in
  with_handoff s (mkHandoff (data h) (size h) (msg_count h) (line_b_not_before h) (line_b_send_succeeded h)
                    (u64 (generation h + 1)) (line_b_completed_generation h) (stop h)).

Definition setStop (s : t) : t :=
  let h := handoff s in
  with_handoff s (mkHandoff (data h) (size h) (msg_count h) (line_b_not_before h) (line_b_send_succeeded h)
                    (generation h) (line_b_completed_generation h) true).

Definition sendB (s : t) (ok : bool) : t :=
  let h := handoff s in
  let bytes := content s (data h) (size h) in
  with_worker
    (with_line_b
      (with_handoff s (mkHandoff (data h) (size h) (msg_count h) (line_b_not_before h) ok
                         (generation h) (line_b_completed_generation h) (stop h)))
      (count (line_b s) ok (msg_count h)) (sent_b s ++ [mkSent bytes (msg_count h) ok (time s)])) Completing.

Definition complete (s : t) : t :=
  let h := handoff s in
  with_worker
    (with_handoff s (mkHandoff (data h) (size h) (msg_count h) (line_b_not_before h) (line_b_send_succeeded h)
                       (generation h) (observed_generation s) (stop h))) Polling.

Definition step (e : Event) (s : t) : option t :=
  let h := handoff s in
  match e, producer s with
  | Started, Constructing =>
    if startup_status s =? 0 then None else
    if startup_status s =? 1 then Some (with_producer s Ready) else Some (with_producer (setStop s) Stopping)
  | Write address bytes, Ready => Some (with_heap s (<[address := bytes]> (heap s)))
  | SendA address n ok, Ready => Some (sendA s address n ok)
  | Fill, Filling ok address n => Some (with_producer (fillHandoff s address n) (Publishing ok))
  | Publish, Publishing ok => Some (with_producer (publish s) (Waiting ok (u64 (generation h + 1))))
  | Return, Waiting ok g =>
    if line_b_completed_generation h =? g
    then Some (with_producer (with_results s (results s ++ [ok && line_b_send_succeeded h])) Ready) else None
  | Stop, Ready => Some (with_producer (setStop s) Stopping)
  | PublishStop, Stopping => Some (with_producer (publish s) Joining)
  | Join, Joining => if bool_decide (worker s = Exited) then Some (with_producer s Joined) else None
  | Tick n, _ => if 0 <=? n then Some (with_env s (running s) (time s + n)) else None
  | Signal, _ => Some (with_env s false (time s))
  | Start ok, _ => if bool_decide (worker s = Starting) then Some (startWorker s ok) else None
  | Observe, _ =>
    if bool_decide (worker s = Polling) && negb (generation h =? observed_generation s)
    then Some (with_worker (with_observed s (generation h)) Checking) else None
  | Check, _ =>
    if bool_decide (worker s = Checking)
    then Some (with_worker s (if stop h then Exited else if 0 <? delay s then Delaying else Sending)) else None
  | Delay, _ =>
    if bool_decide (worker s = Delaying)
    then Some (with_worker (if line_b_not_before h <? time s then with_line_b s (overrun (line_b s)) (sent_b s) else s) Spinning)
    else None
  | Spun, _ =>
    if bool_decide (worker s = Spinning) && negb (running s && (time s <? line_b_not_before h))
    then Some (with_worker s Sending) else None
  | SendB ok, _ => if bool_decide (worker s = Sending) then Some (sendB s ok) else None
  | Complete, _ => if bool_decide (worker s = Completing) then Some (complete s) else None
  | _, _ => None
  end.

Fixpoint exec (es : list Event) (s : t) : option t :=
  match es with
  | [] => Some s
  | e :: es => s' ← step e s; exec es s'
  end.

End RedundantUdpSender.
