(* ===== verification/HandoffProps.v ===== *)
(** The redundant sender under every interleaving of its two threads: both lines carry
    the same packets in the same order, the worker never reads what the main thread
    writes, line B keeps its distance, and no call of [send] waits for ever. *)
From stdpp Require Import base list gmap.
From Stdlib Require Import ZArith Lia.
From S2P Require Import Prelude Handoff.
#[local] Open Scope Z_scope.
#[local] Open Scope astra_scope.

Module HandoffProps.
Import RedundantUdpSender.

(** ** The invariant *)

(** The traffic of a line, whether or not the system accepted it. *)
Definition traffic (l : list Sent) : list (list Z * Z) := (λ e, (packet e, messages e)) <$> l.
Definition outcomes (l : list Sent) : list bool := accepted <$> l.

(** The counters of a line, from what was sent on it. *)
Fixpoint tally (l : list Sent) : Z * Z * Z :=
  match l with
  | [] => (0, 0, 0)
  | e :: l =>
    let '(packets, msgs, failures) := tally l in
    if accepted e then (packets + 1, msgs + messages e, failures) else (packets, msgs, failures + 1)
  end.
Definition counted (s : LineState) (l : list Sent) : Prop :=
  packets_sent s = u64 (tally l).1.1 ∧ messages_sent s = u64 (tally l).1.2 ∧ send_failures s = u64 (tally l).2.

(** Line B follows line A at the configured distance while the sender runs. *)
Definition skewed (s : t) : Prop :=
  running s = true → ∀ i a b, sent_a s !! i = Some a → sent_b s !! i = Some b → at_time a + delay s <= at_time b.

(** Every packet went to both lines. *)
Definition settled (s : t) : Prop :=
  traffic (sent_a s) = traffic (sent_b s) ∧
  results s = zip_with andb (outcomes (sent_a s)) (outcomes (sent_b s)).

(** Line B still has to send the bytes [bs] with [n] messages, not before [due]. *)
Definition owing (s : t) (bs : list Z) (n : Z) (ok : bool) (due : Z) : Prop :=
  ∃ pre e, sent_a s = pre ++ [e] ∧ traffic pre = traffic (sent_b s) ∧
    results s = zip_with andb (outcomes pre) (outcomes (sent_b s)) ∧
    packet e = bs ∧ messages e = n ∧ accepted e = ok ∧ at_time e + delay s <= due.

(** Line B has sent the packet and the outcome is in the handoff. *)
Definition answered (s : t) (ok : bool) : Prop :=
  traffic (sent_a s) = traffic (sent_b s) ∧
  results s ++ [ok && line_b_send_succeeded (handoff s)] =
  zip_with andb (outcomes (sent_a s)) (outcomes (sent_b s)).

Definition owes (s : t) (ok : bool) : Prop :=
  let h := handoff s in owing s (content s (data h) (size h)) (msg_count h) ok (line_b_not_before h).

Definition at_rest (s : t) : Prop :=
  worker s = Polling ∧ observed_generation s = generation (handoff s) ∧
  line_b_completed_generation (handoff s) = generation (handoff s).

(** The worker has not sent the published packet yet. *)
Definition before_send (s : t) : Prop :=
  (worker s = Polling ∧ u64 (observed_generation s + 1) = generation (handoff s) ∧
   line_b_completed_generation (handoff s) = observed_generation s) ∨
  ((worker s = Checking ∨ worker s = Delaying ∨ worker s = Spinning ∨
    worker s = Sending ∧ (running s = true → line_b_not_before (handoff s) <= time s)) ∧
   observed_generation s = generation (handoff s) ∧
   u64 (line_b_completed_generation (handoff s) + 1) = generation (handoff s)).

Definition after_send (s : t) : Prop :=
  observed_generation s = generation (handoff s) ∧
  (worker s = Completing ∧ u64 (line_b_completed_generation (handoff s) + 1) = generation (handoff s) ∨
   worker s = Polling ∧ line_b_completed_generation (handoff s) = generation (handoff s)).

Definition phase (s : t) : Prop :=
  let h := handoff s in
  match producer s with
  | Constructing =>
    settled s ∧ sent_a s = [] ∧ observed_generation s = generation h ∧ line_b_completed_generation h = generation h ∧ stop h = false ∧
    (worker s = Starting ∧ startup_status s = 0 ∨ worker s = Polling ∧ startup_status s = 1 ∨
     worker s = Exited ∧ startup_status s = 2)
  | Ready => at_rest s ∧ settled s ∧ stop h = false
  | Filling ok address n =>
    at_rest s ∧ stop h = false ∧ owing s (default [] (heap s !! address)) n ok (time s + delay s)
  | Publishing ok => at_rest s ∧ stop h = false ∧ owes s ok ∧ (delay s = 0 → line_b_not_before h <= time s)
  | Waiting ok g =>
    g = generation h ∧ stop h = false ∧
    (before_send s ∧ owes s ok ∧ (delay s = 0 → line_b_not_before h <= time s) ∨ after_send s ∧ answered s ok)
  | Stopping => settled s ∧ stop h = true ∧ (worker s = Polling ∧ observed_generation s = generation h ∨ worker s = Exited)
  | Joining =>
    settled s ∧ stop h = true ∧
    (worker s = Polling ∧ u64 (observed_generation s + 1) = generation h ∨ worker s = Checking ∨ worker s = Exited)
  | Joined => settled s ∧ stop h = true ∧ worker s = Exited
  end.

Record inv (s : t) : Prop := {
  iv_delay : 0 <= delay s;
  iv_generation : fits 64 (generation (handoff s));
  iv_a : counted (line_a s) (sent_a s);
  iv_b : counted (line_b s) (sent_b s);
  iv_skew : skewed s;
  iv_phase : phase s }.

Lemma make_inv d : 0 <= d → inv (make d).
Proof.
  intros Hd. split; cbn; try done. split_and!; try done. by left.
Qed.

Lemma u64_next g : u64 (g + 1) ≠ g.
Proof. unfold u64. change (2 ^ 64) with 18446744073709551616. intros E. Z.div_mod_to_equations. lia. Qed.

Lemma tally_snoc l e : tally (l ++ [e]) =
  let '(packets, msgs, failures) := tally l in
  if accepted e then (packets + 1, msgs + messages e, failures) else (packets, msgs, failures + 1).
Proof.
  induction l as [|e' l IH]; [done|]. cbn. rewrite IH. destruct (tally l) as [[p m] f].
  destruct (accepted e), (accepted e'); rewrite !pair_equal_spec; lia.
Qed.

Lemma count_counted s l e : counted s l → counted (count s (accepted e) (messages e)) (l ++ [e]).
Proof.
  intros (H1&H2&H3). unfold counted. rewrite tally_snoc. destruct (tally l) as [[p m] f]. cbn in *. unfold count.
  destruct (accepted e); cbn; rewrite ?H1, ?H2, ?H3; unfold u64; by rewrite ?Z.add_mod_idemp_l.
Qed.

Lemma overrun_counted s l : counted s l → counted (overrun s) l.
Proof. done. Qed.

(** ** Preservation *)

(** The parts of the invariant that depend neither on the producer nor on the worker. *)
Lemma tick_inv n s : 0 <= n → inv s → inv (with_env s (running s) (time s + n)).
Proof.
  intros Hn [H1 H2 H3 H4 H5 H6]. split; try done. unfold phase in *. cbn. destruct (producer s); try done.
  - destruct H6 as (R&S&(pre&e&?&?&?&?&?&?&Hd)). split_and!; try done. exists pre, e. split_and!; try done. cbn. lia.
  - destruct H6 as (R&S&O&D). split_and!; try done. intros E. specialize (D E). cbn. lia.
  - destruct H6 as (E&S&[(B&O&D)|A]); split_and!; try done; [left|by right]. split_and!; [|done|intros E'; specialize (D E'); cbn; lia].
    destruct B as [B|([?|[?|[?|[? B]]]]&?&?)]; [by left|right..]; split_and!; try done; cbn; [by left|right; by left|right; right; by left|].
    right; right; right. split; [done|]. intros Hr. specialize (B Hr). lia.
Qed.

Lemma signal_inv s : inv s → inv (with_env s false (time s)).
Proof.
  intros [H1 H2 H3 H4 H5 H6]. split; try done. unfold phase in *. cbn. destruct (producer s); try done.
  destruct H6 as (E&S&[(B&O&D)|A]); split_and!; try done; [left|by right]. split_and!; try done.
  destruct B as [B|([?|[?|[?|[? B]]]]&?&?)]; [by left|right..]; split_and!; try done; cbn; [by left|right; by left|right; right; by left|].
  by right; right; right.
Qed.

Lemma generation_fits g : fits 64 (u64 g).
Proof. apply u64_fits. Qed.

(** The events of the main thread. *)
Lemma producer_inv e s s' : inv s → step e s = Some s' →
  match e with Started | Write _ _ | SendA _ _ _ | Fill | Publish | Return | Stop | PublishStop | Join => True | _ => False end →
  inv s'.
Proof.
  intros [H1 H2 H3 H4 H5 H6] Hs He. unfold phase in H6. destruct e; try done; cbn in Hs; destruct (producer s) eqn:Ep; try done.
  - (* Started *) destruct H6 as (S&A&G&C&St&W). destruct (startup_status s =? 0) eqn:E0; [done|]. apply Z.eqb_neq in E0.
    destruct (startup_status s =? 1) eqn:E1; injection Hs as <-; split; try done; cbn.
    + apply Z.eqb_eq in E1. destruct W as [[? ?]|[[? ?]|[? ?]]]; [congruence| |lia]. by split_and!.
    + apply Z.eqb_neq in E1. destruct W as [[? ?]|[[? ?]|[? ?]]]; [congruence..|]. split_and!; try done. by right.
  - (* Write *) injection Hs as <-. split; try done. unfold phase. cbn. by rewrite Ep.
  - (* SendA *) injection Hs as <-. destruct H6 as (R&[S1 S2]&St). split; try done.
    + cbn. apply (count_counted _ _ (mkSent _ n ok (time s)) H3).
    + intros Hr i a b Ha Hb. cbn in Ha, Hb |- *. apply (H5 Hr i a b); [|done].
      apply lookup_lt_Some in Hb as Hi. apply (f_equal length) in S1. unfold traffic in S1. rewrite !length_fmap in S1.
      by rewrite lookup_app_l in Ha by lia.
    + cbn. split_and!; try done. exists (sent_a s), (mkSent (default [] (heap s !! address)) n ok (time s)).
      by split_and!.
  - (* Fill *) injection Hs as <-. destruct H6 as (R&St&(pre&e&?&?&?&?&?&?&Hd)). split; try done. cbn. split_and!; try done.
    + exists pre, e. cbn. split_and!; try done. unfold content. cbn. by rewrite take_ge.
    + intros E. lia.
  - (* Publish *) injection Hs as <-. destruct H6 as ((R1&R2&R3)&St&O&D). split; try done; [apply u64_fits|]. cbn.
    split_and!; try done. left. split_and!; try done. left. cbn. by rewrite R2, R3.
  - (* Return *) destruct (_ =? g) eqn:Eg; [|done]. apply Z.eqb_eq in Eg. injection Hs as <-.
    destruct H6 as (G&St&[(B&O&D)|((A1&A2)&N1&N2)]); subst.
    + exfalso. destruct B as [(_&B1&B2)|(_&B1&B2)].
      * rewrite <- B2, Eg in B1. by apply u64_next in B1.
      * rewrite Eg in B2. by apply u64_next in B2.
    + split; try done. cbn. destruct A2 as [[A2 A3]|[A2 A3]]; [rewrite Eg in A3; by apply u64_next in A3|].
      split_and!; try done.
  - (* Stop *) injection Hs as <-. destruct H6 as ((R1&R2&R3)&S&St). split; try done. cbn. split_and!; try done. by left.
  - (* PublishStop *) injection Hs as <-. destruct H6 as (S&St&W). split; try done; [apply u64_fits|]. cbn. split_and!; try done.
    destruct W as [[W1 W2]|W]; [left; by rewrite W2|by right; right].
  - (* Join *) case_bool_decide; [|done]. injection Hs as <-. destruct H6 as (S&St&W). by split.
Qed.

(** The phases in which the worker is at a given point of its loop. *)
Lemma worker_phase s : phase s →
  match worker s with
  | Starting => producer s = Constructing
  | Checking => (∃ ok g, producer s = Waiting ok g) ∨ producer s = Joining
  | Delaying | Spinning | Sending | Completing => ∃ ok g, producer s = Waiting ok g
  | _ => True
  end.
Proof.
  unfold phase, at_rest, before_send, after_send. destruct (worker s), (producer s); intros H; try done; eauto; try naive_solver.
Qed.

Definition busy (w : Worker) : Prop := w = Checking ∨ w = Delaying ∨ w = Spinning ∨ w = Sending ∨ w = Completing.

(** What the invariant says of a call in progress. *)
Lemma waiting_phase s ok g : phase s → producer s = Waiting ok g →
  g = generation (handoff s) ∧ stop (handoff s) = false ∧
  (before_send s ∧ owes s ok ∧ (delay s = 0 → line_b_not_before (handoff s) <= time s) ∨ after_send s ∧ answered s ok).
Proof. unfold phase. intros H E. by rewrite E in H. Qed.

Lemma start_inv ok s s' : inv s → step (Start ok) s = Some s' → inv s'.
Proof.
  intros [H1 H2 H3 H4 H5 H6] Hs. cbn in Hs. case_bool_decide as Ew; [|done]. injection Hs as <-.
  pose proof (worker_phase s H6) as Hp. rewrite Ew in Hp. unfold phase in H6. rewrite Hp in H6.
  destruct H6 as (S&A&G&C&St&W). unfold startWorker. destruct ok; split; try done; unfold phase; cbn; rewrite Hp; split_and!; try done; right; [by left|by right].
Qed.

Lemma observe_inv s s' : inv s → step Observe s = Some s' → inv s'.
Proof.
  intros [H1 H2 H3 H4 H5 H6] Hs. cbn in Hs. case_bool_decide as Ew; [|done]. cbn in Hs.
  destruct (_ =? observed_generation s) eqn:Eg; [done|]. apply Z.eqb_neq in Eg. injection Hs as <-.
  split; try done. unfold phase, at_rest in *. cbn. destruct (producer s); try naive_solver congruence.
  destruct H6 as (G&St&[([B|([?|[?|[?|[? _]]]]&_)]&O&D)|((A&_)&_)]); try congruence. destruct B as (_&B1&B2).
  split_and!; try done. left. split_and!; try done. right. split_and!; [by left|done|]. cbn. by rewrite B2.
Qed.

Lemma check_inv s s' : inv s → step Check s = Some s' → inv s'.
Proof.
  intros [H1 H2 H3 H4 H5 H6] Hs. cbn in Hs. case_bool_decide as Ew; [|done]. injection Hs as <-.
  pose proof (worker_phase s H6) as Hp. rewrite Ew in Hp. split; try done. destruct Hp as [(ok&g&Hp)|Hp].
  - destruct (waiting_phase s ok g H6 Hp) as (G&St&[(B&O&D)|((_&[[A _]|[A _]])&_)]); [|congruence..].
    unfold phase. cbn. rewrite Hp, St. split_and!; try done. left. split_and!; try done.
    destruct B as [(B&_)|(_&B1&B2)]; [congruence|]. right. split_and!; try done. cbn.
    destruct (0 <? delay s) eqn:Ed; [right; by left|]. apply Z.ltb_ge in Ed. right; right; right. split; [done|].
    intros _. apply D. lia.
  - unfold phase in *. rewrite Hp in H6. destruct H6 as (S&St&W). cbn. rewrite Hp, St. split_and!; try done. by right; right.
Qed.

(** The worker moves on before it sends. *)
Lemma before_inv s w line :
  inv s → worker s = Delaying ∨ worker s = Spinning → w = Spinning ∨ w = Sending ∧ (running s = true → line_b_not_before (handoff s) <= time s) →
  counted line (sent_b s) → inv (with_worker (with_line_b s line (sent_b s)) w).
Proof.
  intros [H1 H2 H3 H4 H5 H6] Ew Hw Hl. assert (∃ ok g, producer s = Waiting ok g) as (ok&g&Hp).
  { pose proof (worker_phase s H6) as Hp. by destruct Ew as [Ew|Ew]; rewrite Ew in Hp. }
  destruct (waiting_phase s ok g H6 Hp) as (G&St&[(B&O&D)|((_&A)&_)]); [|destruct Ew as [Ew|Ew], A as [[A _]|[A _]]; congruence].
  split; try done. unfold phase. cbn. rewrite Hp. split_and!; try done. left. split_and!; try done.
  destruct B as [(B&_)|(_&B1&B2)]; [destruct Ew; congruence|]. right. split_and!; try done. cbn.
  right; right. destruct Hw as [->|Hw]; [by left|by right].
Qed.

Lemma delay_inv s s' : inv s → step Delay s = Some s' → inv s'.
Proof.
  intros Hi Hs. cbn in Hs. case_bool_decide as Ew; [|done]. injection Hs as <-. destruct (_ <? time s).
  - apply before_inv; [done|by left|by left|apply overrun_counted, Hi].
  - replace s with (with_line_b s (line_b s) (sent_b s)) at 1 by (by destruct s).
    apply before_inv; [done|by left|by left|apply Hi].
Qed.

Lemma spun_inv s s' : inv s → step Spun s = Some s' → inv s'.
Proof.
  intros Hi Hs. cbn in Hs. case_bool_decide as Ew; [|done]. cbn in Hs.
  destruct (running s && _) eqn:Er; [done|]. injection Hs as <-.
  replace s with (with_line_b s (line_b s) (sent_b s)) at 1 by (by destruct s).
  apply before_inv; [done|by right|right; split; [done|]|apply Hi]. intros E. rewrite E in Er. cbn in Er.
  by apply Z.ltb_ge in Er.
Qed.

Lemma sendB_inv ok s s' : inv s → step (SendB ok) s = Some s' → inv s'.
Proof.
  intros [H1 H2 H3 H4 H5 H6] Hs. cbn in Hs. case_bool_decide as Ew; [|done]. injection Hs as <-.
  pose proof (worker_phase s H6) as Hp. rewrite Ew in Hp. destruct Hp as (oka&g&Hp).
  destruct (waiting_phase s oka g H6 Hp) as (G&St&[(B&(pre&e&E&T&R&Pe&Me&Ae&De)&D)|((_&[[A _]|[A _]])&_)]); [|congruence..].
  destruct B as [(B&_)|([B|[B|[B|[_ B]]]]&B1&B2)]; [congruence..|].
  assert (length pre = length (sent_b s)) as Hlen.
  { apply (f_equal length) in T. unfold traffic in T. by rewrite !length_fmap in T. }
  split; try done.
  - cbn. apply (count_counted _ _ (mkSent _ (msg_count (handoff s)) ok (time s)) H4).
  - intros Hr i a b Ha Hb. cbn in *. destruct (decide (i < length (sent_b s))%nat) as [Hi|Hi].
    + rewrite lookup_app_l in Hb by done. by apply (H5 Hr i a b).
    + apply lookup_lt_Some in Ha as Hla. rewrite E, length_app in Hla. cbn in Hla.
      assert (i = length (sent_b s)) as -> by lia. rewrite lookup_app_r, Nat.sub_diag in Hb by lia. injection Hb as <-.
      rewrite E, <- Hlen, lookup_app_r, Nat.sub_diag in Ha by lia. injection Ha as <-. cbn. specialize (B Hr). lia.
  - unfold phase. cbn. rewrite Hp. split_and!; try done. right. split; [split; [done|by left]|].
    unfold answered, traffic, outcomes in *. cbn. rewrite E, !fmap_app, T, R, zip_with_app by (by rewrite !length_fmap).
    cbn. by rewrite Pe, Me, Ae.
Qed.

Lemma complete_inv s s' : inv s → step Complete s = Some s' → inv s'.
Proof.
  intros [H1 H2 H3 H4 H5 H6] Hs. cbn in Hs. case_bool_decide as Ew; [|done]. injection Hs as <-.
  pose proof (worker_phase s H6) as Hp. rewrite Ew in Hp. destruct Hp as (ok&g&Hp).
  destruct (waiting_phase s ok g H6 Hp) as (G&St&[(B&_)|((A1&A2)&N)]).
  { destruct B as [(B&_)|([B|[B|[B|[B _]]]]&_)]; congruence. }
  split; try done. unfold phase. cbn. rewrite Hp. split_and!; try done. right. split; [|done].
  split; [done|]. by right.
Qed.

(** Every event preserves the invariant. *)
Lemma step_inv e s s' : inv s → step e s = Some s' → inv s'.
Proof.
  intros Hi Hs. destruct e; try (by eapply producer_inv).
  - by eapply start_inv.
  - by eapply observe_inv.
  - by eapply check_inv.
  - by eapply delay_inv.
  - by eapply spun_inv.
  - by eapply sendB_inv.
  - by eapply complete_inv.
  - cbn in Hs. assert (0 <= n ∧ s' = with_env s (running s) (time s + n)) as [Hn ->].
    { destruct (0 <=? n) eqn:E; [apply Z.leb_le in E|]; destruct (producer s); by simplify_eq. }
    by apply tick_inv.
  - cbn in Hs. assert (s' = with_env s false (time s)) as -> by (by destruct (producer s); simplify_eq). by apply signal_inv.
Qed.

Lemma exec_inv es s s' : inv s → exec es s = Some s' → inv s'.
Proof.
  revert s. induction es as [|e es IH]; intros s Hi; cbn [exec]; [by intros [= <-]|].
  intros (s1&Hs&He)%bind_Some. eapply IH; [|done]. by eapply step_inv.
Qed.

(** ** The theorems *)

Lemma traffic_length l l' : traffic l = traffic l' → length l = length l'.
Proof. intros H. apply (f_equal length) in H. unfold traffic in H. by rewrite !length_fmap in H. Qed.

(** C21. Under every interleaving of the main thread and the worker,
    line B has been given a prefix of the packets given to line A, with the same bytes and
    message counts in the same order, and lacks at most the last one; between two calls it
    lacks none, and each call has returned whether both lines accepted the packet.  The
    counters of each line count what it was given, and until the sender is interrupted
    each packet leaves on line B no earlier than the configured delay after line A. *)
Theorem handoff_lines_agree d es s :
  0 <= d → exec es (make d) = Some s →
  (∃ late, traffic (sent_a s) = traffic (sent_b s) ++ late ∧ (length late <= 1)%nat) ∧
  (producer s = Ready → traffic (sent_a s) = traffic (sent_b s) ∧
    results s = zip_with andb (outcomes (sent_a s)) (outcomes (sent_b s))) ∧
  counted (line_a s) (sent_a s) ∧ counted (line_b s) (sent_b s) ∧ skewed s.
Proof.
  intros Hd He. destruct (exec_inv es _ s (make_inv d Hd) He) as [H1 H2 H3 H4 H5 H6]. split_and!; try done.
  - assert (traffic (sent_a s) = traffic (sent_b s) ∨
      ∃ pre e, sent_a s = pre ++ [e] ∧ traffic pre = traffic (sent_b s)) as [E|(pre&e&E&T)].
    { unfold phase, settled, owes, owing, answered in H6. destruct (producer s); naive_solver. }
    + exists []. rewrite app_nil_r. split; [done|cbn; lia].
    + exists (traffic [e]). rewrite E. unfold traffic in *. rewrite fmap_app, T. split; [done|cbn; lia].
  - intros Ep. unfold phase in H6. rewrite Ep in H6. by destruct H6 as (_&H&_).
Qed.

Definition by_main (e : Event) : Prop :=
  match e with Started | Write _ _ | SendA _ _ _ | Fill | Publish | Return | Stop | PublishStop | Join => True | _ => False end.

(** C22. While the worker is between observing a generation and
    completing it, that is, whenever it may read the packet buffer or the handoff fields
    or write the send outcome, no step of the main thread is possible: it neither
    overwrites a buffer or a field nor reads the outcome before the worker is done. *)
Theorem handoff_race_free d es s e :
  0 <= d → exec es (make d) = Some s → busy (worker s) → by_main e → step e s = None.
Proof.
  intros Hd He Hb Hm. destruct (exec_inv es _ s (make_inv d Hd) He) as [_ _ _ _ _ H6].
  assert ((∃ ok g, producer s = Waiting ok g) ∨ producer s = Joining ∧ worker s ≠ Exited) as [(ok&g&Hp)|[Hp Hx]].
  { pose proof (worker_phase s H6) as Hp. destruct Hb as [E|[E|[E|[E|E]]]]; rewrite E in *; naive_solver. }
  - assert (line_b_completed_generation (handoff s) ≠ g) as Hg.
    { intros Eg. destruct (waiting_phase s ok g H6 Hp) as (->&_&[(B&_)|(A&_)]).
      - destruct B as [(B&_)|(_&_&B)]; [unfold busy in Hb; naive_solver congruence|]. rewrite Eg in B. by apply u64_next in B.
      - destruct A as (_&[[_ A]|[A _]]); [rewrite Eg in A; by apply u64_next in A|unfold busy in Hb; naive_solver congruence]. }
    destruct e; try done; cbn; rewrite Hp; try done. by rewrite (proj2 (Z.eqb_neq _ _) Hg).
  - destruct e; try done; cbn; rewrite Hp; try done. by rewrite bool_decide_eq_false_2.
Qed.

(** The main thread gets back to the caller, or out of the destructor, within [n] events
    of the worker and the clock and one of its own. *)
Definition returns (n : nat) (last : Event) (goal : Producer) (s : t) : Prop :=
  ∃ es s', (length es <= n)%nat ∧ Forall (λ e, ¬ by_main e) es ∧ exec (es ++ [last]) s = Some s' ∧ producer s' = goal.

Lemma returns_step n e last goal s s1 :
  step e s = Some s1 → ¬ by_main e → returns n last goal s1 → returns (S n) last goal s.
Proof.
  intros Hs He (es&s'&Hl&Hf&Hx&Hp). exists (e :: es), s'. cbn. rewrite Hs. split_and!; try done; [lia|by constructor].
Qed.

Lemma returns_weaken n m last goal s : returns n last goal s → (n <= m)%nat → returns m last goal s.
Proof. intros (es&s'&?&?&?&?) Hm. exists es, s'. split_and!; try done. lia. Qed.

Lemma exec_snoc es e s s1 s2 : exec es s = Some s1 → step e s1 = Some s2 → exec (es ++ [e]) s = Some s2.
Proof.
  revert s. induction es as [|e' es IH]; intros s; cbn; [intros [= ->] ->; done|].
  intros (s0&->&H)%bind_Some He. cbn. by apply IH.
Qed.

Lemma return_ready s ok g : inv s → producer s = Waiting ok g → worker s = Polling →
  observed_generation s = generation (handoff s) → returns 0 Return Ready s.
Proof.
  intros [_ _ _ _ _ H6] Hp Hw Ho. destruct (waiting_phase s ok g H6 Hp) as (->&_&[(B&_)|((_&A)&_)]).
  - destruct B as [(_&B&_)|([B|[B|[B|[B _]]]]&_)]; [rewrite Ho in B; by apply u64_next in B|congruence..].
  - destruct A as [[A _]|[_ A]]; [congruence|]. eexists [], _. split_and!; [done|done|..].
    + cbn. by rewrite Hp, A, Z.eqb_refl.
    + done.
Qed.

Lemma completing_returns s ok g : inv s → producer s = Waiting ok g → worker s = Completing → returns 1 Return Ready s.
Proof.
  intros Hi Hp Hw. assert (step Complete s = Some (complete s)) as Hs by (cbn; by rewrite Hw).
  eapply returns_step; [done|by intros []|]. apply (return_ready _ ok g); [by eapply step_inv|done|done|].
  destruct Hi as [_ _ _ _ _ H6]. destruct (waiting_phase s ok g H6 Hp) as (_&_&[(B&_)|((A&_)&_)]); [|done].
  destruct B as [(B&_)|([B|[B|[B|[B _]]]]&_)]; congruence.
Qed.

Lemma sending_returns s ok g : inv s → producer s = Waiting ok g → worker s = Sending → returns 2 Return Ready s.
Proof.
  intros Hi Hp Hw. assert (step (SendB true) s = Some (sendB s true)) as Hs by (cbn; by rewrite Hw).
  eapply returns_step; [done|by intros []|]. apply (completing_returns _ ok g); [by eapply step_inv|done|done].
Qed.

Lemma spinning_returns s ok g : inv s → producer s = Waiting ok g → worker s = Spinning → returns 4 Return Ready s.
Proof.
  intros Hi Hp Hw. set (n := Z.max 0 (line_b_not_before (handoff s) - time s)).
  set (s1 := with_env s (running s) (time s + n)).
  assert (step (Tick n) s = Some s1) as Hs1 by (cbn; by rewrite (proj2 (Z.leb_le 0 n)) by lia).
  assert (step Spun s1 = Some (with_worker s1 Sending)) as Hs2.
  { cbn. rewrite Hw. cbn. rewrite (proj2 (Z.ltb_ge (time s + n) _)) by lia. by rewrite andb_false_r. }
  eapply returns_step; [done|by intros []|]. eapply returns_step; [done|by intros []|].
  apply (sending_returns _ ok g); [|done|done]. eapply step_inv; [|done]. by eapply step_inv.
Qed.

Lemma checking_returns s ok g : inv s → producer s = Waiting ok g → worker s = Checking → returns 6 Return Ready s.
Proof.
  intros Hi Hp Hw. assert (stop (handoff s) = false) as St.
  { destruct Hi as [_ _ _ _ _ H6]. by destruct (waiting_phase s ok g H6 Hp) as (_&?&_). }
  assert (step Check s = Some (with_worker s (if 0 <? delay s then Delaying else Sending))) as Hs by (cbn; by rewrite Hw, St).
  pose proof (step_inv _ _ _ Hi Hs) as Hi1. eapply returns_step; [done|by intros []|].
  destruct (0 <? delay s); [|by eapply returns_weaken; [apply (sending_returns _ ok g)|lia]].
  assert (∃ s2, step Delay (with_worker s Delaying) = Some s2 ∧ worker s2 = Spinning ∧ producer s2 = Waiting ok g) as (s2&Hs2&Hw2&Hp2).
  { cbn. eexists. split; [done|]. split; [done|]. by case_match. }
  eapply returns_step; [done|by intros []|]. apply (spinning_returns _ ok g); [by eapply step_inv|done|done].
Qed.

(** Whatever has happened so far, a call of [send] that waits for
    the worker can always be completed by at most seven events of the worker and the
    clock, and the destructor by at most two; neither can deadlock. *)
Theorem handoff_returns d es s :
  0 <= d → exec es (make d) = Some s →
  match producer s with
  | Waiting _ _ => returns 7 Return Ready s
  | Joining => returns 2 Join Joined s
  | _ => True
  end.
Proof.
  intros Hd He. pose proof (exec_inv es _ s (make_inv d Hd) He) as Hi. clear He. destruct (producer s) as [| | | |ok g| | |] eqn:Hp; try done.
  - destruct (waiting_phase s ok g (iv_phase s Hi) Hp) as (G&_&[(B&_)|((A1&A2)&_)]).
    + destruct B as [(Bw&Bo&_)|(Bw&_)].
      * assert (step Observe s = Some (with_worker (with_observed s (generation (handoff s))) Checking)) as Hs.
        { cbn. rewrite Bw. cbn. rewrite (proj2 (Z.eqb_neq _ _)); [done|]. rewrite <- Bo. apply u64_next. }
        eapply returns_step; [done|by intros []|]. apply (checking_returns _ ok g); [by eapply step_inv|done|done].
      * destruct Bw as [Bw|[Bw|[Bw|[Bw _]]]].
        -- eapply returns_weaken; [by apply (checking_returns s ok g)|lia].
        -- assert (∃ s2, step Delay s = Some s2 ∧ worker s2 = Spinning ∧ producer s2 = Waiting ok g) as (s2&Hs2&Hw2&Hp2).
           { cbn. rewrite Bw. eexists. split; [done|]. split; [done|]. by case_match. }
           apply (returns_weaken 5); [|lia]. eapply returns_step; [done|by intros []|].
           apply (spinning_returns _ ok g); [by eapply step_inv|done|done].
        -- eapply returns_weaken; [by apply (spinning_returns s ok g)|lia].
        -- eapply returns_weaken; [by apply (sending_returns s ok g)|lia].
    + destruct A2 as [[Aw _]|[Aw _]].
      * eapply returns_weaken; [by apply (completing_returns s ok g)|lia].
      * eapply returns_weaken; [by apply (return_ready s ok g)|lia].
  - pose proof (iv_phase s Hi) as H6. unfold phase in H6. rewrite Hp in H6. destruct H6 as (_&St&W).
    assert (∀ s, producer s = Joining → worker s = Exited → returns 0 Join Joined s) as Hexit.
    { intros s0 Hp0 Hw0. eexists [], _. split_and!; [done|done|cbn; by rewrite Hp0, Hw0|done]. }
    assert (∀ s, producer s = Joining → stop (handoff s) = true → worker s = Checking → returns 1 Join Joined s) as Hcheck.
    { intros s0 Hp0 St0 Hw0. eapply (returns_step _ Check); [cbn; rewrite Hw0, St0; done|by intros []|]. by apply Hexit. }
    destruct W as [[Ww Wo]|[Ww|Ww]].
    + assert (step Observe s = Some (with_worker (with_observed s (generation (handoff s))) Checking)) as Hs.
      { cbn. rewrite Ww. cbn. rewrite (proj2 (Z.eqb_neq _ _)); [done|]. rewrite <- Wo. apply u64_next. }
      eapply returns_step; [done|by intros []|]. by apply Hcheck.
    + eapply returns_weaken; [by apply Hcheck|lia].
    + eapply returns_weaken; [by apply Hexit|lia].
Qed.

(** A packet on both lines, and a second one that the worker has just observed. *)
Definition sampleSchedule : list Event :=
  [Start true; Started; Write 0 [1; 2]; SendA 0 1 true; Fill; Publish; Observe; Check; Delay; Tick 1000; Spun;
   SendB true; Complete; Return; Write 0 [7]; SendA 0 3 false; Fill; Publish; Observe; Check].
Definition sampleState : t := default (make 0) (exec sampleSchedule (make 1000)).

Lemma sample_reached : exec sampleSchedule (make 1000) = Some sampleState.
Proof. vm_compute. reflexivity. Qed.

Lemma handoff_lines_agree_witness :
  traffic (sent_a sampleState) = [([1; 2], 1); ([7], 3)] ∧ traffic (sent_b sampleState) = [([1; 2], 1)] ∧
  (∃ late, traffic (sent_a sampleState) = traffic (sent_b sampleState) ++ late ∧ (length late <= 1)%nat).
Proof.
  split; [vm_compute; reflexivity|]. split; [vm_compute; reflexivity|].
  apply (handoff_lines_agree 1000 sampleSchedule sampleState); [lia|exact sample_reached].
Defined.

Lemma handoff_race_free_witness : step (Write 0 [9]) sampleState = None.
Proof.
  apply (handoff_race_free 1000 sampleSchedule sampleState); [lia|exact sample_reached|right; left; reflexivity|exact I].
Defined.

Lemma handoff_returns_witness : returns 7 Return Ready sampleState.
Proof. exact (handoff_returns 1000 sampleSchedule sampleState ltac:(lia) sample_reached). Defined.

End HandoffProps.
