(* ===== verification/SenderConfig.v ===== *)
(** The command line of [apps/itch_moldudp_sender_main.cpp] and the helpers it shares
    with the transmission: number parsers, packet inspection, the pre-market window.

    A C string is the list of its characters (none is zero), a null pointer is [None].
    Floating point is a parameter: [Double] with [parseDouble], the strict parser of a
    positive finite number. *)
From stdpp Require Import base list strings.
From Stdlib Require Import ZArith Lia Ascii.
From S2P Require Import Prelude Bits BookTypes Protocol Gap Capacity Manifest Replay Schedule.
#[local] Open Scope Z_scope.
#[local] Open Scope astra_scope.

Module SenderConfig.
Import Protocol.

Definition kDefaultLineBDelayNs : Z := 1000.
Definition kMaxLineBDelayNs : Z := 1000000000.
Definition kDefaultStartupHeartbeatCount : Z := 0.
Definition kDefaultStartupHeartbeatIntervalMs : Z := 1000.
Definition kMaxStartupHeartbeatCount : Z := 1000000.
Definition kMaxStartupHeartbeatIntervalMs : Z := 60000.
Definition kDefaultIdleHeartbeatIntervalMs : Z := 1000.
Definition kMaxIdleHeartbeatIntervalMs : Z := 60000.
Definition kDefaultEndOfSessionPacketCount : Z := 10.
Definition kDefaultEndOfSessionIntervalMs : Z := 100.
Definition kMaxEndOfSessionPacketCount : Z := 1000000.
Definition kMaxEndOfSessionIntervalMs : Z := 60000.
Definition kMaxPacketsPerSecond : Z := MoldUdpPacketRateSchedule.kMaximumPacketsPerSecond.
(** The steady clock counts nanoseconds in 64 signed bits. *)
Definition kMaxSchedulingSeconds : Z := max_i64 / 1000000000.

(** ** Numbers *)

(** The loop of [parseU64Strict]. *)
Fixpoint parseLoop (value : list Z) (parsed : Z) : option Z :=
  match value with
  | [] => Some parsed
  | p :: value =>
    if (p <? ch "0") || (ch "9" <? p) then None else
    let digit := p - ch "0" in
    if (max_u64 - digit) / 10 <? parsed then None else parseLoop value (u64 (u64 (parsed * 10) + digit))
  end.

Definition parseU64Strict (value : option (list Z)) : option Z :=
  match value with
  | None | Some [] => None
  | Some value => parseLoop value 0
  end.

Definition parseCpuId (value : option (list Z)) : option Z :=
  parsed ← parseU64Strict value; if 2147483647 <? parsed then None else Some parsed.

Definition parseU64InRange (value : option (list Z)) (minimum maximum : Z) : option Z :=
  parsed ← parseU64Strict value; if (parsed <? minimum) || (maximum <? parsed) then None else Some parsed.

Definition parsePort (value : option (list Z)) : option Z :=
  u16 <$> parseU64InRange value 1 max_u16.

Definition parseMsgsPerPacket (value : option (list Z)) : option Z :=
  u16 <$> parseU64InRange value 1 max_u16.

(** ** Replay mode *)

Inductive PremarketReplayMode := ReplayOff | ReplayFlat | ReplayTimestamp.
#[global] Instance PremarketReplayMode_eq_dec : EqDecision PremarketReplayMode.
Proof. solve_decision. Defined.

Definition parseReplayMode (value : option (list Z)) (premarket_seconds : Z) : option PremarketReplayMode :=
  match value with
  | None | Some [] => Some (if 0 <? premarket_seconds then ReplayFlat else ReplayOff)
  | Some value =>
    if bool_decide (value = Manifest.str "flat") then Some ReplayFlat else
    if bool_decide (value = Manifest.str "timestamp") then Some ReplayTimestamp else
    if bool_decide (value ∈ [Manifest.str "off"; Manifest.str "none"; Manifest.str "disabled"]) then Some ReplayOff
    else None
  end.

Definition replayModeName (mode : PremarketReplayMode) : string :=
  match mode with ReplayFlat => "flat" | ReplayTimestamp => "timestamp" | ReplayOff => "off" end.

Definition completionKindName (kind : CompletionKind) : string :=
  match kind with
  | NotCompleted => "none"
  | Terminator => "terminator"
  | LegacyEndOfMessagesEof => "legacy_sc_eof"
  end.

(** ** Packet inspection *)

Record PacketTiming := mkTiming {
  has_timestamp : bool;
  first_timestamp_ns : Z;
  contains_ss : bool;
  contains_sq : bool;
  ss_timestamp_ns : Z;
  sq_timestamp_ns : Z }.

Definition noTiming : PacketTiming := mkTiming false 0 false false 0 0.

(** One message of the packet. *)
Definition inspectMessage (timing : PacketTiming) (msg : list Z) : PacketTiming :=
  let msg_len := length msg in
  let timing :=
    if Nat.leb 11 msg_len && negb (has_timestamp timing)
    then mkTiming true (readU48BE msg 5) (contains_ss timing) (contains_sq timing) (ss_timestamp_ns timing) (sq_timestamp_ns timing)
    else timing in
  if Nat.leb 12 msg_len && (byteAt msg 0 =? ch "S") then
    if byteAt msg 11 =? ch "S"
    then mkTiming (has_timestamp timing) (first_timestamp_ns timing) true (contains_sq timing) (readU48BE msg 5) (sq_timestamp_ns timing)
    else if byteAt msg 11 =? ch "Q"
    then mkTiming (has_timestamp timing) (first_timestamp_ns timing) (contains_ss timing) true (ss_timestamp_ns timing) (readU48BE msg 5)
    else timing
  else timing.

(** The loop over [n] messages from [offset] on. *)
Fixpoint inspectLoop (n : nat) (packet : list Z) (offset : nat) (timing : PacketTiming) : PacketTiming :=
  match n with
  | O => timing
  | S n =>
    if Nat.ltb (length packet) (offset + 2) then timing else
    let msg_len := Z.to_nat (readU16BE packet offset) in
    let offset := (offset + 2)%nat in
    if Nat.eqb msg_len 0 || Nat.ltb (length packet) (offset + msg_len) then timing else
    inspectLoop n packet (offset + msg_len) (inspectMessage timing (take msg_len (drop offset packet)))
  end.

Definition inspectPacket (packet : list Z) : PacketTiming :=
  if Z.of_nat (length packet) <? ItchMoldUdpSource.kMoldHeaderSize then noTiming else
  inspectLoop (Z.to_nat (readU16BE packet 18)) packet (Z.to_nat ItchMoldUdpSource.kMoldHeaderSize) noTiming.

(** ** The pre-market window *)

Record PremarketWindow := mkWindow {
  found : bool;
  ss_packet : Z;
  sq_packet : Z;
  window_ss_timestamp_ns : Z;
  window_sq_timestamp_ns : Z }.

Definition noWindow : PremarketWindow := mkWindow false 0 0 0 0.

Definition packetsToPace (w : PremarketWindow) : Z :=
  if negb (found w) || (sq_packet w <=? ss_packet w) then 0 else u64 (sq_packet w - ss_packet w).

Definition durationNs (w : PremarketWindow) : Z :=
  if negb (found w) || (window_sq_timestamp_ns w <=? window_ss_timestamp_ns w) then 0
  else u64 (window_sq_timestamp_ns w - window_ss_timestamp_ns w).

(** The variables of the scan. *)
Record Scan := mkScan {
  window : PremarketWindow;
  packet_index : Z;
  packet_count : Z;
  packet_offset : Z;
  force_next_packet : bool }.

(** Whether the record opens a new packet, and the counters before it is added. *)
Definition openPacket (s : Scan) (msgs_per_packet msg_len : Z) : Scan :=
  if force_next_packet s || (packet_count s =? msgs_per_packet) ||
     (ItchMoldUdpSource.kMaxPacketBytes <? packet_offset s + 2 + msg_len)
  then mkScan (window s) (u64 (packet_index s + 1)) 0 ItchMoldUdpSource.kMoldHeaderSize false
  else s.

(** The scan over the bytes that are left; every turn consumes a record. *)
Fixpoint scanLoop (fuel : nat) (input : list Z) (msgs_per_packet : Z) (s : Scan) : PremarketWindow :=
  match fuel with
  | O => window s
  | S fuel =>
    match input with
    | [] | [_] => window s
    | b0 :: b1 :: rest =>
      let msg_len := u16 (b0 ≪ 8) .| b1 in
      if msg_len =? 0 then window s else
      let s := openPacket s msgs_per_packet msg_len in
      if Z.of_nat (length rest) <? msg_len then window s else
      let msg := take (Z.to_nat msg_len) rest in
      let type := byteAt msg 0 in
      let event_code := if Nat.ltb 11 (length msg) then byteAt msg 11 else 0 in
      let timestamp_ns := if Nat.leb 11 (length msg) then readU48BE msg 5 else 0 in
      let w := window s in
      let count := u16 (packet_count s + 1) in
      let offset := packet_offset s + 2 + msg_len in
      if (type =? ch "S") && (event_code =? ch "S") then
        scanLoop fuel (drop (Z.to_nat msg_len) rest) msgs_per_packet
          (mkScan (mkWindow (found w) (packet_index s) (sq_packet w) timestamp_ns (window_sq_timestamp_ns w))
             (packet_index s) count offset true)
      else if (type =? ch "S") && (event_code =? ch "Q") && negb (ss_packet w =? 0) then
        mkWindow true (ss_packet w) (packet_index s) (window_ss_timestamp_ns w) timestamp_ns
      else
        scanLoop fuel (drop (Z.to_nat msg_len) rest) msgs_per_packet
          (mkScan w (packet_index s) count offset (force_next_packet s))
    end
  end.

(** [file] is [None] when it cannot be opened. *)
Definition scanPremarketWindow (file : option (list Z)) (msgs_per_packet : Z) : PremarketWindow :=
  match file with
  | None => noWindow
  | Some input => scanLoop (length input) input msgs_per_packet (mkScan noWindow 1 0 ItchMoldUdpSource.kMoldHeaderSize false)
  end.

(** The interval in nanoseconds. *)
Definition intervalFor (seconds packets : Z) : Z :=
  if (seconds =? 0) || (packets =? 0) then 0 else
  if max_u64 / 1000000000 <? seconds then max_i64 else
  let total_ns := u64 (seconds * 1000000000) in
  let whole_ns := total_ns / packets in
  let remainder := total_ns mod packets in
  let ceiling_ns := u64 (whole_ns + (if remainder =? 0 then 0 else 1)) in
  if max_i64 <? ceiling_ns then max_i64 else ceiling_ns.

(** ** The command line *)

Section options.
Context {Double : Type}.
(** [parsePositiveDoubleStrict] and the literal [1.0]. *)
Variable parseDouble : option (list Z) → option Double.
Variable one : Double.
Variable getenv : string → option (list Z).

Record Options := mkOptions {
  redundant : bool;
  path : list Z;
  ip : list Z;
  port_a : Z;
  port_b : Z;
  msgs_per_packet : Z;
  session : list Z;
  pkts_per_second : Z;
  premarket_seconds : Z;
  ss_pause_seconds : Z;
  replay_mode : PremarketReplayMode;
  premarket_speedup : Double;
  cpus : option (Z * Z);
  line_b_delay_ns : Z;
  startup_heartbeat_count : Z;
  startup_heartbeat_interval_ms : Z;
  idle_heartbeat_interval_ms : Z;
  end_of_session_packet_count : Z;
  end_of_session_interval_ms : Z;
  binary_file_completion_policy : CompletionPolicy }.

(** A value that fails the test ends the program with a diagnostic. *)
Definition require {A} (error : string) (value : option A) : string + A :=
  match value with Some v => inr v | None => inl error end.

(** An environment variable that, when it is set, must parse and lie in a range. *)
Definition envU64 (name : string) (fallback minimum maximum : Z) : string + Z :=
  match getenv name with
  | None => inr fallback
  | Some value => require (name +:+ " is out of range") (parseU64InRange (Some value) minimum maximum)
  end.

(** An optional positional argument with an environment variable as its default. *)
Definition argumentOr (argv : list (list Z)) (index : nat) (name : string) : option (list Z) :=
  if Nat.ltb index (length argv) then argv !! index else getenv name.

Definition optional {A} (error : string) (fallback : A) (parse : option (list Z) → option A)
    (value : option (list Z)) : string + A :=
  match value with None => inr fallback | Some _ => require error (parse value) end.

Definition configured (value : option (list Z)) : bool :=
  match value with Some (_ :: _) => true | _ => false end.

(** The CPUs of redundant mode: both or neither, and distinct. *)
Definition redundantCpus : string + option (Z * Z) :=
  let cpu_a_env := getenv "ASTRA_CPU_A" in
  let cpu_b_env := getenv "ASTRA_CPU_B" in
  if negb (Bool.eqb (configured cpu_a_env) (configured cpu_b_env))
  then inl "ASTRA_CPU_A and ASTRA_CPU_B must be configured together for redundant mode"%string else
  if configured cpu_a_env then
    match parseCpuId cpu_a_env, parseCpuId cpu_b_env with
    | Some a, Some b =>
      if a =? b then inl "ASTRA_CPU_A and ASTRA_CPU_B must identify distinct CPUs"%string else inr (Some (a, b))
    | _, _ => inl "ASTRA_CPU_A and ASTRA_CPU_B must be non-negative integer CPU IDs"%string
    end
  else inr None.

Definition completionPolicy : string + CompletionPolicy :=
  match getenv "ASTRA_BINARYFILE_COMPLETION" with
  | None => inr RequireTerminator
  | Some value =>
    if bool_decide (value = Manifest.str "strict") then inr RequireTerminator else
    if bool_decide (value = Manifest.str "legacy-sc-eof") then inr AllowEofAfterEndOfMessages else
    inl "ASTRA_BINARYFILE_COMPLETION must be strict or legacy-sc-eof"%string
  end.

(** [main] up to the first [try]; [argv] includes the program's name. *)
Definition parseOptions (argv : list (list Z)) : string + Options :=
  let argc := length argv in
  let red := bool_decide (argv !! 1%nat = Some (Manifest.str "--redundant")) in
  let valid_single_args := negb red && Nat.leb 4 argc && Nat.leb argc 11 in
  let valid_redundant_args := red && Nat.leb 9 argc && Nat.leb argc 13 in
  if negb valid_single_args && negb valid_redundant_args then inl "Usage"%string else
  let shift := if red then 1%nat else 0%nat in
  let arg i := default [] (argv !! i) in
  let port_a_arg := if red then 4%nat else 3%nat in
  let msgs_per_packet_arg := if red then 6%nat else 4%nat in
  let session_arg := if red then 7%nat else 5%nat in
  let rate_arg := if red then 8%nat else 6%nat in
  let premarket_seconds_arg := if red then 9%nat else 7%nat in
  let ss_pause_seconds_arg := if red then 10%nat else 8%nat in
  let replay_mode_arg := if red then 11%nat else 9%nat in
  let speedup_arg := if red then 12%nat else 10%nat in
  port_a ← require "port must be an integer from 1 through 65535" (parsePort (argv !! port_a_arg));
  port_b ← (if red then require "port_b must be an integer from 1 through 65535" (parsePort (argv !! 5%nat)) else inr 0);
  if red && (port_a =? port_b) then inl "port_a and port_b must be distinct"%string else
  msgs_per_packet ← optional "msgs_per_packet must be an integer from 1 through 65535"
    ItchMoldUdpSource.kDefaultMsgsPerPacket parseMsgsPerPacket (argv !! msgs_per_packet_arg);
  let session := default (Manifest.str "ASTRA     ") (argv !! session_arg) in
  if Nat.ltb kSessionSize (length session) then inl "session must not exceed 10 bytes"%string else
  pkts_per_second ← optional "pkt/s out of range" 0 (λ v, parseU64InRange v 0 kMaxPacketsPerSecond) (argv !! rate_arg);
  premarket_seconds ← optional "premarket_seconds out of range" 0
    (λ v, parseU64InRange v 0 kMaxSchedulingSeconds) (argumentOr argv premarket_seconds_arg "ASTRA_PREMARKET_SECONDS");
  ss_pause_seconds ← optional "ss_pause_seconds out of range" 0
    (λ v, parseU64InRange v 0 kMaxSchedulingSeconds) (argumentOr argv ss_pause_seconds_arg "ASTRA_SS_PAUSE_SECONDS");
  replay_mode ← require "premarket_replay_mode must be flat, timestamp, off, none, or disabled"
    (parseReplayMode (argumentOr argv replay_mode_arg "ASTRA_PREMARKET_REPLAY_MODE") premarket_seconds);
  speedup ← optional "premarket_speedup must be a finite number greater than zero" one parseDouble
    (argumentOr argv speedup_arg "ASTRA_PREMARKET_SPEEDUP");
  cpus ← (if red then redundantCpus else inr None);
  line_b_delay ← (if red then envU64 "ASTRA_LINE_B_DELAY_NS" kDefaultLineBDelayNs 0 kMaxLineBDelayNs
                  else inr kDefaultLineBDelayNs);
  startup_count ← envU64 "ASTRA_STARTUP_HEARTBEAT_COUNT" kDefaultStartupHeartbeatCount 0 kMaxStartupHeartbeatCount;
  startup_interval ← envU64 "ASTRA_STARTUP_HEARTBEAT_INTERVAL_MS" kDefaultStartupHeartbeatIntervalMs 0
    kMaxStartupHeartbeatIntervalMs;
  idle_interval ← envU64 "ASTRA_HEARTBEAT_INTERVAL_MS" kDefaultIdleHeartbeatIntervalMs 0 kMaxIdleHeartbeatIntervalMs;
  eos_count ← envU64 "ASTRA_EOS_PACKET_COUNT" kDefaultEndOfSessionPacketCount 1 kMaxEndOfSessionPacketCount;
  eos_interval ← envU64 "ASTRA_EOS_INTERVAL_MS" kDefaultEndOfSessionIntervalMs 0 kMaxEndOfSessionIntervalMs;
  policy ← completionPolicy;
  inr (mkOptions red (arg (1 + shift)%nat) (arg (2 + shift)%nat) port_a port_b msgs_per_packet session pkts_per_second
         premarket_seconds ss_pause_seconds replay_mode speedup cpus line_b_delay startup_count startup_interval
         idle_interval eos_count eos_interval policy).

End options.
End SenderConfig.
