(* ===== verification/SenderConfigProps.v ===== *)
(** The sender's command line: its numbers are read exactly, and the options it accepts
    satisfy what the transmission relies on. *)
From stdpp Require Import base list strings.
From Stdlib Require Import ZArith Lia Ascii.
From S2P Require Import Prelude Bits BookTypes Protocol Gap Capacity Manifest Replay Schedule SenderConfig.
#[local] Open Scope Z_scope.
#[local] Open Scope astra_scope.

Module SenderConfigProps.
Import Protocol SenderConfig.

(** ** Numbers *)

(** The value of a digit string, without a bound. *)
Definition decimal (ds : list Z) (acc : Z) : Z := fold_left (λ v d, v * 10 + (d - ch "0")) ds acc.
Definition digit (d : Z) : Prop := ch "0" <= d <= ch "9".

Lemma decimal_grows ds acc : Forall digit ds → 0 <= acc → acc <= decimal ds acc.
Proof.
  intros H. revert acc. induction H as [|d ds Hd _ IH]; intros acc Ha; [done|]. unfold decimal in *. cbn [fold_left].
  unfold digit in Hd. change (ch "0") with 48 in *. etrans; [|apply IH]; lia.
Qed.

Lemma parseLoop_exact ds acc v : 0 <= acc <= max_u64 →
  parseLoop ds acc = Some v ↔ Forall digit ds ∧ decimal ds acc = v ∧ v <= max_u64.
Proof.
  revert acc. induction ds as [|d ds IH]; intros acc Ha; cbn [parseLoop].
  { unfold decimal. cbn. split; [intros [= <-]; split_and!; [done|done|lia]|by intros (_&->&_)]. }
  rewrite Forall_cons. unfold digit at 1. change (ch "0") with 48. change (ch "9") with 57.
  destruct ((d <? 48) || (57 <? d)) eqn:Ed.
  { split; [done|]. intros ([[? ?] _]&_). apply orb_true_iff in Ed as [?%Z.ltb_lt|?%Z.ltb_lt]; lia. }
  apply orb_false_iff in Ed as [H1%Z.ltb_ge H2%Z.ltb_ge].
  pose proof (Z.div_mod (max_u64 - (d - 48)) 10 ltac:(lia)) as Hq. pose proof (Z.mod_pos_bound (max_u64 - (d - 48)) 10 ltac:(lia)) as Hr.
  change (decimal (d :: ds) acc) with (decimal ds (acc * 10 + (d - 48))).
  destruct (Z.ltb_spec ((max_u64 - (d - 48)) / 10) acc) as [Hbig|Hfit].
  - split; [done|]. intros ([_ Hds]&<-&Hv). pose proof (decimal_grows ds (acc * 10 + (d - 48)) Hds). lia.
  - rewrite (u64_id (acc * 10)) by (unfold fits, max_u64 in *; lia). rewrite u64_id by (unfold fits, max_u64 in *; lia).
    rewrite IH by lia. naive_solver lia.
Qed.

(** A number is accepted exactly when it is a string of digits, one at least, whose value
    fits 64 bits; the result is that value. *)
Lemma parseU64Strict_exact ds v :
  parseU64Strict (Some ds) = Some v ↔ ds ≠ [] ∧ Forall digit ds ∧ decimal ds 0 = v ∧ v <= max_u64.
Proof.
  unfold parseU64Strict. destruct ds as [|d ds]; [naive_solver|]. rewrite parseLoop_exact by (unfold max_u64; lia). naive_solver.
Qed.

Lemma parseRange_bounds value lo hi v : parseU64InRange value lo hi = Some v → lo <= v <= hi.
Proof.
  unfold parseU64InRange. destruct (parseU64Strict value) as [p|]; [|done]. cbn.
  destruct (_ || _) eqn:E; [done|]. apply orb_false_iff in E as [?%Z.ltb_ge ?%Z.ltb_ge]. by intros [= <-].
Qed.

Lemma parse16_bounds value v : u16 <$> parseU64InRange value 1 max_u16 = Some v → 0 < v < 65536.
Proof.
  intros (p&Hp&->)%fmap_Some. apply parseRange_bounds in Hp. unfold max_u16 in Hp. rewrite u16_id by (unfold fits; lia). lia.
Qed.

(** ** The pacing interval *)

(** The interval is the least that stretches [packets] over the duration. *)
Lemma intervalFor_ceiling seconds packets : 0 < seconds <= kMaxSchedulingSeconds → 0 < packets <= max_u64 →
  let i := intervalFor seconds packets in
  seconds * 1000000000 <= i * packets ∧ (i - 1) * packets < seconds * 1000000000 ∧ 0 < i <= max_i64.
Proof.
  intros Hs Hp i. unfold i, intervalFor. rewrite (proj2 (Z.eqb_neq seconds 0)), (proj2 (Z.eqb_neq packets 0)) by lia. cbn [orb].
  assert (seconds * 1000000000 <= max_i64) as Ht.
  { unfold kMaxSchedulingSeconds in Hs. pose proof (Z.div_mod max_i64 1000000000 ltac:(lia)).
    pose proof (Z.mod_pos_bound max_i64 1000000000 ltac:(lia)). lia. }
  rewrite (proj2 (Z.ltb_ge _ _)) by (change (max_u64 / 1000000000) with 18446744073; unfold max_i64 in Ht; lia).
  rewrite (u64_id (seconds * 1000000000)) by (unfold fits, max_i64 in *; lia). set (total := seconds * 1000000000) in *.
  pose proof (Z.div_mod total packets ltac:(lia)) as Hq. pose proof (Z.mod_pos_bound total packets ltac:(lia)) as Hr.
  assert (0 <= total / packets <= total) as Hb by (split; [apply Z.div_pos; lia|apply Z.div_le_upper_bound; nia]).
  destruct (Z.eqb_spec (total mod packets) 0) as [E|E].
  - rewrite u64_id by (unfold fits, max_i64 in *; lia). rewrite (proj2 (Z.ltb_ge _ _)) by lia. nia.
  - assert (packets ≠ 1) as Hne by (intros ->; rewrite Z.mod_1_r in E; done).
    assert (total / packets < total) as Hlt by (apply Z.div_lt; lia).
    rewrite u64_id by (unfold fits, max_i64 in *; lia). rewrite (proj2 (Z.ltb_ge _ _)) by lia. nia.
Qed.

(** ** The options *)

Section options.
Context {Double : Type} (parseDouble : option (list Z) → option Double) (one : Double) (getenv : string → option (list Z)).

Lemma envU64_bounds name fallback lo hi v :
  envU64 getenv name fallback lo hi = inr v → lo <= fallback <= hi → lo <= v <= hi.
Proof.
  unfold envU64. destruct (getenv name) as [s|]; [|by intros [= <-]].
  destruct (parseU64InRange (Some s) lo hi) eqn:E; [|done]. intros [= <-] _. by eapply parseRange_bounds.
Qed.

Lemma bind_inr {A C} (m : string + A) (k : A → string + C) v :
  m ≫= k = inr v → ∃ a, m = inr a ∧ k a = inr v.
Proof. destruct m as [|a]; [done|]. intros H. by exists a. Qed.

Lemma guard_inr {C} (b : bool) error (k : string + C) v : (if b then inl error else k) = inr v → b = false ∧ k = inr v.
Proof. by destruct b. Qed.

Lemma require_inr {A} error (value : option A) v : require error value = inr v → value = Some v.
Proof. destruct value; [|done]. by intros [= <-]. Qed.

Lemma optional_spec {A} (Q : A → Prop) error fallback parse value v :
  @optional A error fallback parse value = inr v → Q fallback → (∀ r, parse value = Some r → Q r) → Q v.
Proof.
  unfold optional. destruct value as [s|]; [|by intros [= <-]].
  destruct (parse (Some s)); [|done]. intros [= <-] _ Hp. by apply Hp.
Qed.

(** What the transmission needs of the options. *)
Record accepted (o : @Options Double) : Prop := {
  ac_ports : 0 < port_a o < 65536 ∧ if redundant o then 0 < port_b o < 65536 ∧ port_a o ≠ port_b o else port_b o = 0;
  ac_messages : 0 < msgs_per_packet o < 65536;
  ac_session : (length (session o) <= 10)%nat;
  ac_rate : 0 <= pkts_per_second o <= 1000000000;
  ac_seconds : 0 <= premarket_seconds o <= kMaxSchedulingSeconds ∧ 0 <= ss_pause_seconds o <= kMaxSchedulingSeconds;
  ac_cpus : ∀ a b, cpus o = Some (a, b) → redundant o = true ∧ a ≠ b;
  ac_delay : 0 <= line_b_delay_ns o <= 1000000000;
  ac_startup : 0 <= startup_heartbeat_count o <= 1000000 ∧ 0 <= startup_heartbeat_interval_ms o <= 60000;
  ac_idle : 0 <= idle_heartbeat_interval_ms o <= 60000;
  ac_end : 1 <= end_of_session_packet_count o <= 1000000 ∧ 0 <= end_of_session_interval_ms o <= 60000 }.

Lemma redundantCpus_distinct a b : redundantCpus getenv = inr (Some (a, b)) → a ≠ b.
Proof.
  unfold redundantCpus. destruct (negb _); [done|]. destruct (configured _); [|done].
  destruct (parseCpuId _) as [x|]; [|done]. destruct (parseCpuId _) as [y|]; [|done].
  destruct (Z.eqb_spec x y); [done|]. by intros [= <- <-].
Qed.

(** C29. Every option the sender accepts is in the range the transmission
    relies on: ports from 1 through 65535, distinct in redundant mode; at least one message
    per packet; a session of at most ten bytes; durations that the steady clock can hold in
    nanoseconds; distinct CPUs, in redundant mode only; at least one end-of-session packet.
    It holds for the arguments, the environment variables and the defaults alike. *)
Theorem sender_options_valid argv o : parseOptions parseDouble one getenv argv = inr o → accepted o.
Proof.
  unfold parseOptions. set (red := bool_decide _). intros [_ H]%guard_inr. cbn zeta in H.
  apply bind_inr in H as (pa&Hpa&H). apply bind_inr in H as (pb&Hpb&H). apply guard_inr in H as [Hd H].
  apply bind_inr in H as (mp&Hmp&H). apply guard_inr in H as [Hs%Nat.ltb_ge H].
  apply bind_inr in H as (rate&Hrate&H). apply bind_inr in H as (pre&Hpre&H). apply bind_inr in H as (pause&Hpause&H).
  do 2 apply bind_inr in H as (?&_&H). apply bind_inr in H as (cp&Hcp&H). apply bind_inr in H as (dl&Hdl&H).
  apply bind_inr in H as (sc&Hsc&H). apply bind_inr in H as (si&Hsi&H). apply bind_inr in H as (ii&Hii&H).
  apply bind_inr in H as (ec&Hec&H). apply bind_inr in H as (ei&Hei&H). apply bind_inr in H as (?&_&H). injection H as <-.
  apply require_inr in Hpa. apply parse16_bounds in Hpa.
  apply (optional_spec (λ v, 0 < v < 65536)) in Hmp; [|done|apply parse16_bounds].
  apply (optional_spec (λ v, 0 <= v <= kMaxPacketsPerSecond)) in Hrate; [|done|apply parseRange_bounds].
  apply (optional_spec (λ v, 0 <= v <= kMaxSchedulingSeconds)) in Hpre; [|done|apply parseRange_bounds].
  apply (optional_spec (λ v, 0 <= v <= kMaxSchedulingSeconds)) in Hpause; [|done|apply parseRange_bounds].
  apply envU64_bounds in Hsc, Hsi, Hii, Hec, Hei; [|done..].
  split; cbn; try done.
  - split; [done|]. destruct red; [|congruence]. apply require_inr, parse16_bounds in Hpb. split; [done|]. by apply Z.eqb_neq in Hd.
  - intros a b ->. destruct red; [|done]. split; [done|]. by apply redundantCpus_distinct.
  - destruct red; [by apply envU64_bounds in Hdl|]. by injection Hdl as <-.
Qed.

End options.

Definition sampleArgs : list (list Z) :=
  Manifest.str <$> ["sender"; "--redundant"; "day.itch"; "239.1.1.1"; "26400"; "26401"; "20"; "ASTRA"; "0"]%string.
Definition sampleEnv (name : string) : option (list Z) :=
  if bool_decide (name = "ASTRA_EOS_PACKET_COUNT"%string) then Some (Manifest.str "3") else None.

Lemma sender_options_valid_witness : ∃ o : @Options Z,
  parseOptions (λ _, None) 1 sampleEnv sampleArgs = inr o ∧ end_of_session_packet_count o = 3 ∧ accepted o.
Proof.
  eexists. split; [vm_compute; reflexivity|]. split; [reflexivity|].
  apply (sender_options_valid (λ _, None) 1 sampleEnv sampleArgs). vm_compute. reflexivity.
Defined.

(** Equal ports are refused in redundant mode, and so is a session of eleven bytes. *)
Lemma options_refused :
  parseOptions (λ _, None) 1 (λ _, None)
    (Manifest.str <$> ["sender"; "--redundant"; "f"; "ip"; "26400"; "26400"; "20"; "ASTRA"; "0"]%string) =
    inl "port_a and port_b must be distinct"%string ∧
  parseOptions (λ _, None) 1 (λ _, None)
    (Manifest.str <$> ["sender"; "f"; "ip"; "26400"; "20"; "ELEVENBYTES"]%string) =
    inl "session must not exceed 10 bytes"%string.
Proof. split; vm_compute; reflexivity. Qed.

End SenderConfigProps.
