(* ===== verification/Sender.v ===== *)
(** The transmission of [apps/itch_moldudp_sender_main.cpp]: what [main] does with valid
    options, from opening the archive to the exit code.

    The world, arbitrary in every theorem, answers the program's questions: how many more
    loads of [g_running] find it set (the signal handler clears it for good), the readings
    of the steady clock in nanoseconds, and whether the lines accept the packets.  A call of [RedundantUdpSender::send] is one
    attempt on each line, which is what [HandoffProps] shows of it.  An exception is an
    [inl] with its text.  The diagnostics printed on the way are left out. *)
From stdpp Require Import base list strings.
From Stdlib Require Import ZArith Lia Ascii.
From S2P Require Import Prelude Protocol Gap Capacity Replay Schedule Handoff SenderConfig.
#[local] Open Scope Z_scope.
#[local] Open Scope astra_scope.

Module Sender.
Import Protocol SenderConfig.

Record World := mkWorld {
  runs : nat;
  clocks : list Z;
  outs : list (bool * bool) }.

(** The counters of the report. *)
Record Stats := mkStats {
  logical_packets : Z;
  logical_messages : Z;
  logical_first_seq : Z;
  logical_next_seq : Z;
  startup_heartbeats_sent : Z;
  periodic_heartbeats_sent : Z;
  end_of_session_packets_sent : Z }.

Record Pacing := mkPacing {
  packet_rate_schedule : MoldUdpPacketRateSchedule.t;
  heartbeat_schedule : MoldUdpHeartbeatSchedule.t;
  next_premarket_send : Z;
  premarket_start : Z;
  premarket_active : bool;
  ss_pause_pending : bool }.

(** The two lines: their counters and the packets they accepted. *)
Record Link := mkLink {
  line_a : RedundantUdpSender.LineState;
  line_b : RedundantUdpSender.LineState;
  wire_a : list (list Z);
  wire_b : list (list Z) }.

Record t := mk {
  source : ItchMoldUdpSource.t;
  pacing : Pacing;
  link : Link;
  stats : Stats;
  transmission_failed : bool;
  world : World }.

Definition with_source (x : t) (s : ItchMoldUdpSource.t) : t :=
  mk s (pacing x) (link x) (stats x) (transmission_failed x) (world x).
Definition with_pacing (x : t) (p : Pacing) : t :=
  mk (source x) p (link x) (stats x) (transmission_failed x) (world x).
Definition with_link (x : t) (l : Link) : t :=
  mk (source x) (pacing x) l (stats x) (transmission_failed x) (world x).
Definition with_stats (x : t) (s : Stats) : t :=
  mk (source x) (pacing x) (link x) s (transmission_failed x) (world x).
Definition fail (x : t) : t := mk (source x) (pacing x) (link x) (stats x) true (world x).
Definition with_world (x : t) (w : World) : t :=
  mk (source x) (pacing x) (link x) (stats x) (transmission_failed x) w.

Definition with_heartbeat (p : Pacing) (h : MoldUdpHeartbeatSchedule.t) : Pacing :=
  mkPacing (packet_rate_schedule p) h (next_premarket_send p) (premarket_start p) (premarket_active p) (ss_pause_pending p).
Definition with_rate (p : Pacing) (r : MoldUdpPacketRateSchedule.t) : Pacing :=
  mkPacing r (heartbeat_schedule p) (next_premarket_send p) (premarket_start p) (premarket_active p) (ss_pause_pending p).
Definition with_next_send (p : Pacing) (v : Z) : Pacing :=
  mkPacing (packet_rate_schedule p) (heartbeat_schedule p) v (premarket_start p) (premarket_active p) (ss_pause_pending p).
Definition with_premarket (p : Pacing) (start : Z) (active : bool) : Pacing :=
  mkPacing (packet_rate_schedule p) (heartbeat_schedule p) (next_premarket_send p) start active (ss_pause_pending p).
Definition with_pause (p : Pacing) (pending : bool) : Pacing :=
  mkPacing (packet_rate_schedule p) (heartbeat_schedule p) (next_premarket_send p) (premarket_start p) (premarket_active p) pending.

(** ** The world *)

(** [g_running.load()]. *)
Definition load (x : t) : bool * t :=
  (negb (Nat.eqb (runs (world x)) 0),
   with_world x (mkWorld (Nat.pred (runs (world x))) (clocks (world x)) (outs (world x)))).

(** [steady_clock::now()]. *)
Definition now (x : t) : Z * t :=
  (default 0 (head (clocks (world x))),
   with_world x (mkWorld (runs (world x)) (tail (clocks (world x))) (outs (world x)))).

Definition checkedDeadlineAfter (base delay : Z) (label : string) : string + Z :=
  if (delay <? 0) || (max_i64 - delay <? base) then inl (label +:+ " exceeds steady-clock range")%string
  else inr (base + delay).

(** [while (g_running)] with at most [n] turns left; every turn loads the flag. *)
Fixpoint sleepLoop (n : nat) (x : t) (deadline : Z) : bool * t :=
  match n with
  | O => (false, x)
  | S n =>
    let '(running, x) := load x in
    if negb running then (false, x) else
    let '(time, x) := now x in
    if deadline <=? time then (true, x) else sleepLoop n x deadline
  end.

Definition sleepUntilOrStopped (x : t) (deadline : Z) : bool * t :=
  sleepLoop (S (runs (world x))) x deadline.

Section transmission.
Context {Double : Type}.
(** [scaledDelay], which divides by the speed-up in floating point: see [SenderMain]. *)
Variable scaledDelay : Z → Double → Z.
Variable o : @Options Double.

(** ** Sending *)

(** A packet on line A and, in redundant mode, on line B. *)
Definition transmit (x : t) (packet : list Z) (msg_count : Z) : bool * t :=
  let w := world x in
  let '(ok_a, ok_b) := default (false, false) (head (outs w)) in
  let x := with_world x (mkWorld (runs w) (clocks w) (tail (outs w))) in
  let l := link x in
  let a := RedundantUdpSender.count (line_a l) ok_a msg_count in
  let sent_a := if ok_a then wire_a l ++ [packet] else wire_a l in
  if redundant o then
    (ok_a && ok_b,
     with_link x (mkLink a (RedundantUdpSender.count (line_b l) ok_b msg_count) sent_a
                    (if ok_b then wire_b l ++ [packet] else wire_b l)))
  else (ok_a, with_link x (mkLink a (line_b l) sent_a (wire_b l))).

Definition send_control_packet (x : t) (packet : list Z) (next_sequence : Z) : bool * t :=
  let '(sent, x) := transmit x packet 0 in
  if negb sent then (false, fail x) else
  let s := stats x in
  (true, with_stats x (mkStats (u64 (logical_packets s + 1)) (logical_messages s) (logical_first_seq s) next_sequence
                         (startup_heartbeats_sent s) (periodic_heartbeats_sent s) (end_of_session_packets_sent s))).

Definition observeTraffic (x : t) (at_ : Z) : t :=
  with_pacing x (with_heartbeat (pacing x) (MoldUdpHeartbeatSchedule.observeTraffic (heartbeat_schedule (pacing x)) at_)).

Definition countPeriodic (x : t) : t :=
  let s := stats x in
  with_stats x (mkStats (logical_packets s) (logical_messages s) (logical_first_seq s) (logical_next_seq s)
                  (startup_heartbeats_sent s) (u64 (periodic_heartbeats_sent s + 1)) (end_of_session_packets_sent s)).

Fixpoint waitLoop (n : nat) (x : t) (deadline next_sequence : Z) : bool * t :=
  match n with
  | O => (false, x)
  | S n =>
    let '(running, x) := load x in
    if negb running then (false, x) else
    let '(time, x) := now x in
    if deadline <=? time then (true, x) else
    match MoldUdpHeartbeatSchedule.nextHeartbeatBefore (heartbeat_schedule (pacing x)) deadline with
    | None => sleepUntilOrStopped x deadline
    | Some heartbeat_deadline =>
      let '(slept, x) := sleepUntilOrStopped x heartbeat_deadline in
      if negb slept then (false, x) else
      let heartbeat := makeMoldHeartbeatPacket (session o) next_sequence in
      let '(sent, x) := send_control_packet x heartbeat next_sequence in
      if negb sent then (false, x) else
      let x := countPeriodic x in
      let '(time, x) := now x in
      waitLoop n (observeTraffic x time) deadline next_sequence
    end
  end.

Definition wait_until_with_heartbeats (x : t) (deadline next_sequence : Z) : bool * t :=
  waitLoop (S (runs (world x))) x deadline next_sequence.

(** ** The start-up heartbeats *)

Definition countStartup (x : t) : t :=
  let s := stats x in
  with_stats x (mkStats (logical_packets s) (logical_messages s) (logical_first_seq s) (logical_next_seq s)
                  (u64 (startup_heartbeats_sent s + 1)) (periodic_heartbeats_sent s) (end_of_session_packets_sent s)).

Fixpoint startupLoop (n : nat) (index : Z) (x : t) (packet : list Z) (heartbeat_deadline : Z) : string + t :=
  match n with
  | O => inr x
  | S n =>
    if negb (index <? startup_heartbeat_count o) then inr x else
    let '(running, x) := load x in
    if negb running then inr x else
    let '(sent, x) := send_control_packet x packet (ItchMoldUdpSource.next_seq (source x)) in
    if negb sent then inr x else
    let x := countStartup x in
    let heartbeat_interval := startup_heartbeat_interval_ms o * 1000000 in
    if 0 <? heartbeat_interval then
      heartbeat_deadline ← checkedDeadlineAfter heartbeat_deadline heartbeat_interval "startup heartbeat deadline";
      let '(slept, x) := sleepUntilOrStopped x heartbeat_deadline in
      if negb slept then inr x else startupLoop n (index + 1) x packet heartbeat_deadline
    else startupLoop n (index + 1) x packet heartbeat_deadline
  end.

Definition startup (x : t) : string + t :=
  x ← (if negb (startup_heartbeat_count o =? 0) then
         let packet := makeMoldHeartbeatPacket (session o) (ItchMoldUdpSource.next_seq (source x)) in
         let '(time, x) := now x in
         startupLoop (S (runs (world x))) 0 x packet time
       else inr x);
  let x := if MoldUdpHeartbeatSchedule.enabled (heartbeat_schedule (pacing x)) && negb (transmission_failed x)
           then let '(time, x) := now x in observeTraffic x time else x in
  let '(time, x) := now x in
  inr (with_pacing x (with_rate (pacing x) (MoldUdpPacketRateSchedule.reset (packet_rate_schedule (pacing x)) time))).

(** ** The data packets *)

Variable premarket : PremarketWindow.

Definition premarket_interval : Z :=
  if bool_decide (replay_mode o = ReplayFlat) then intervalFor (premarket_seconds o) (packetsToPace premarket) else 0.

(** The speed-up is positive. *)
Definition premarket_enabled : bool :=
  (bool_decide (replay_mode o = ReplayFlat) && (0 <? premarket_interval)) ||
  (bool_decide (replay_mode o = ReplayTimestamp) && found premarket && (0 <? durationNs premarket)).

(** The wait before a packet of the pre-market; [false] to leave the loop. *)
Definition premarketWait (x : t) (timing : PacketTiming) (first_seq : Z) : string + (bool * t) :=
  if negb (premarket_active (pacing x)) then inr (true, x) else
  match replay_mode o with
  | ReplayFlat =>
    let '(waited, x) := wait_until_with_heartbeats x (next_premarket_send (pacing x)) first_seq in
    if negb waited then inr (false, x) else
    next ← checkedDeadlineAfter (next_premarket_send (pacing x)) premarket_interval "flat premarket deadline";
    inr (true, with_pacing x (with_next_send (pacing x) next))
  | ReplayTimestamp =>
    let packet_timestamp := if contains_sq timing then sq_timestamp_ns timing else first_timestamp_ns timing in
    if has_timestamp timing && (window_ss_timestamp_ns premarket <? packet_timestamp) then
      deadline ← checkedDeadlineAfter (premarket_start (pacing x))
        (scaledDelay (packet_timestamp - window_ss_timestamp_ns premarket) (premarket_speedup o))
        "timestamp premarket deadline";
      inr (wait_until_with_heartbeats x deadline first_seq)
    else inr (true, x)
  | ReplayOff => inr (true, x)
  end.

Definition countData (x : t) (first_seq msg_count : Z) : t :=
  let s := stats x in
  with_stats x (mkStats (u64 (logical_packets s + 1)) (u64 (logical_messages s + msg_count))
                  (if logical_first_seq s =? 0 then first_seq else logical_first_seq s) (u64 (first_seq + msg_count))
                  (startup_heartbeats_sent s) (periodic_heartbeats_sent s) (end_of_session_packets_sent s)).

(** The rate limit after a packet sent at [data_sent_at]: the next ordinary send. *)
Definition ordinarySend (x : t) (contains_sq : bool) (data_sent_at : Z) : string + (option Z * t) :=
  let p := pacing x in
  if MoldUdpPacketRateSchedule.enabled (packet_rate_schedule p) && (negb (premarket_active p) || contains_sq) then
    let rate := if contains_sq then MoldUdpPacketRateSchedule.reset (packet_rate_schedule p) data_sent_at
                else packet_rate_schedule p in
    let '(deadline, rate) := MoldUdpPacketRateSchedule.checkedDeadlineAfterPacket rate data_sent_at in
    match deadline with
    | None => inl "packet-rate deadline exceeds steady-clock range"%string
    | Some deadline => inr (Some deadline, with_pacing x (with_rate p rate))
    end
  else inr (None, x).

(** After System Event S: the pause and the start of the pre-market pacing. *)
Definition afterStartOfSystemHours (x : t) : string + (bool * t) :=
  '(paused, x) ←
    (if ss_pause_pending (pacing x) then
       let '(time, x) := now x in
       deadline ← checkedDeadlineAfter time (ss_pause_seconds o * 1000000000) "System Event S pause deadline";
       let '(completed, x) := wait_until_with_heartbeats x deadline (ItchMoldUdpSource.next_seq (source x)) in
       inr (completed, with_pacing x (with_pause (pacing x) false))
     else inr (true, x));
  if negb paused then inr (false, x) else
  if premarket_enabled && negb (premarket_active (pacing x)) then
    let '(time, x) := now x in
    let x := with_pacing x (with_premarket (pacing x) time true) in
    next ← checkedDeadlineAfter time premarket_interval "initial premarket deadline";
    let x := with_pacing x (with_next_send (pacing x) next) in
    if bool_decide (replay_mode o = ReplayTimestamp) then
      let '(ok, s) := ItchMoldUdpSource.setMessagesPerPacket (source x) 1 in
      if negb ok then inl "failed to enable timestamp packetization"%string else inr (true, with_source x s)
    else inr (true, x)
  else inr (true, x).

(** After System Event Q: the end of the pre-market pacing. *)
Definition afterStartOfMarketHours (x : t) : string + t :=
  let x := with_pacing x (with_premarket (pacing x) (premarket_start (pacing x)) false) in
  if bool_decide (replay_mode o = ReplayTimestamp) then
    let '(ok, s) := ItchMoldUdpSource.setMessagesPerPacket (source x) (msgs_per_packet o) in
    if negb ok then inl "failed to restore configured packetization"%string else inr (with_source x s)
  else inr x.

(** What follows a packet that was sent; [false] to leave the loop. *)
Definition afterPacket (x : t) (timing : PacketTiming) : string + (bool * t) :=
  let '(data_sent_at, x) := now x in
  let x := if MoldUdpHeartbeatSchedule.enabled (heartbeat_schedule (pacing x)) then observeTraffic x data_sent_at else x in
  '(next_ordinary_send, x) ← ordinarySend x (contains_sq timing) data_sent_at;
  '(paused, x) ← (if contains_ss timing then afterStartOfSystemHours x else inr (true, x));
  if negb paused then inr (false, x) else
  x ← (if contains_sq timing then afterStartOfMarketHours x else inr x);
  match next_ordinary_send with
  | Some deadline =>
    if negb (premarket_active (pacing x)) && negb (ItchMoldUdpSource.completed (source x)) &&
       bool_decide (ItchMoldUdpSource.last_error (source x) = ""%string) && negb (transmission_failed x)
    then inr (wait_until_with_heartbeats x deadline (ItchMoldUdpSource.next_seq (source x)))
    else inr (true, x)
  | None => inr (true, x)
  end.

(** The body of the loop; [false] to leave it. *)
Definition sendNext (x : t) : string + (bool * t) :=
  match ItchMoldUdpSource.next (source x) with
  | (None, s) => inr (false, with_source x s)
  | (Some packet, s) =>
    let x := with_source x s in
    let first_seq := readU64BE packet 10 in
    let msg_count := readU16BE packet 18 in
    let inspect_timing := premarket_enabled || ss_pause_pending (pacing x) in
    let timing := if inspect_timing then inspectPacket packet else noTiming in
    '(waited, x) ← premarketWait x timing first_seq;
    if negb waited then inr (false, x) else
    let '(sent, x) := transmit x packet msg_count in
    if negb sent then inr (false, fail x) else
    afterPacket (countData x first_seq msg_count) timing
  end.

Fixpoint dataLoop (n : nat) (x : t) : string + t :=
  match n with
  | O => inr x
  | S n =>
    let '(running, x) := load x in
    if negb (running && negb (transmission_failed x)) then inr x else
    '(continue, x) ← sendNext x;
    if negb continue then inr x else dataLoop n x
  end.

(** ** The end of the session *)

Definition countEnd (x : t) (index end_sequence : Z) : t :=
  let s := stats x in
  with_stats x (mkStats (logical_packets s) (logical_messages s)
                  (if (index =? 0) && (logical_first_seq s =? 0) then end_sequence else logical_first_seq s)
                  (logical_next_seq s) (startup_heartbeats_sent s) (periodic_heartbeats_sent s)
                  (u64 (end_of_session_packets_sent s + 1))).

Definition end_of_session_schedule : MoldUdpEndOfSessionSchedule.t :=
  MoldUdpEndOfSessionSchedule.mk (end_of_session_packet_count o) (end_of_session_interval_ms o * 1000000).

Fixpoint endLoop (n : nat) (index : Z) (x : t) (packet : list Z) (end_sequence : Z) (previous : option Z) : string + t :=
  match n with
  | O => inr x
  | S n =>
    if negb (index <? MoldUdpEndOfSessionSchedule.packet_count end_of_session_schedule) then inr x else
    let '(running, x) := load x in
    if negb running then inr x else
    '(due, x) ←
      (match previous with
       | None => inr (true, x)
       | Some sent_at =>
         match MoldUdpEndOfSessionSchedule.checkedDeadlineAfterSend end_of_session_schedule sent_at with
         | None => inl "end-of-session deadline exceeds steady-clock range"%string
         | Some deadline => inr (sleepUntilOrStopped x deadline)
         end
       end);
    if negb due then inr x else
    let '(sent, x) := send_control_packet x packet end_sequence in
    if negb sent then inr x else
    let '(time, x) := now x in
    endLoop n (index + 1) (countEnd x index end_sequence) packet end_sequence (Some time)
  end.

(** The announcement of the end, and whether all its copies were sent. *)
Definition endSession (x : t) : string + (bool * t) :=
  if ItchMoldUdpSource.completed (source x) && negb (transmission_failed x) then
    let end_sequence := ItchMoldUdpSource.next_seq (source x) in
    let packet := makeMoldEndOfSessionPacket (session o) end_sequence in
    x ← endLoop (S (runs (world x))) 0 x packet end_sequence None;
    inr (end_of_session_packets_sent (stats x) =? MoldUdpEndOfSessionSchedule.packet_count end_of_session_schedule, x)
  else inr (false, x).

(** The exit code, [true] for [EXIT_SUCCESS]. *)
Definition exitSuccess (x : t) (end_of_session_sent : bool) : bool :=
  let a := line_a (link x) in
  let b := line_b (link x) in
  let redundant_counts_clean :=
    negb (redundant o) ||
    ((RedundantUdpSender.packets_sent a =? logical_packets (stats x)) &&
     (RedundantUdpSender.packets_sent b =? logical_packets (stats x)) &&
     (RedundantUdpSender.messages_sent a =? logical_messages (stats x)) &&
     (RedundantUdpSender.messages_sent b =? logical_messages (stats x))) in
  ItchMoldUdpSource.completed (source x) && negb (transmission_failed x) && end_of_session_sent &&
  (RedundantUdpSender.send_failures a =? 0) && (RedundantUdpSender.send_failures b =? 0) && redundant_counts_clean.

End transmission.

(** The variables at the start of the transmission. *)
Definition make {Double} (o : @Options Double) (s : ItchMoldUdpSource.t) (w : World) : t :=
  let line := RedundantUdpSender.mkLine 0 0 0 0 in
  let pacing :=
    mkPacing (MoldUdpPacketRateSchedule.make (pkts_per_second o))
      (MoldUdpHeartbeatSchedule.make (idle_heartbeat_interval_ms o * 1000000)) 0 0 false (0 <? ss_pause_seconds o) in
  let x := mk s pacing (mkLink line line [] []) (mkStats 0 0 0 0 0 0 0) false w in
  let '(next_send, x) := now x in
  let '(start, x) := now x in
  with_pacing x (with_premarket (with_next_send (Sender.pacing x) next_send) start false).

(** The [try] block of [main]: the exit code and the final variables. *)
Definition run {Double} (scaledDelay : Z → Double → Z) (o : @Options Double) (file : option (list Z)) (path : string)
    (w : World) : string + (bool * t) :=
  let needs_premarket_window := negb (bool_decide (replay_mode o = ReplayOff)) in
  let premarket := if needs_premarket_window then scanPremarketWindow file (msgs_per_packet o) else noWindow in
  let s := ItchMoldUdpSource.make file path (session o) (msgs_per_packet o) (binary_file_completion_policy o) in
  if negb (ItchMoldUdpSource.isOpen s) then inl (ItchMoldUdpSource.last_error s) else
  x ← startup o (make o s w);
  x ← dataLoop scaledDelay o premarket (S (runs (world x))) x;
  '(end_of_session_sent, x) ← endSession o x;
  inr (exitSuccess o x end_of_session_sent, x).

End Sender.
