(* ===== verification/SenderProps.v ===== *)
(** What the sender puts on the wire: when it exits with success, the lines carried the
    whole archive in order, with heartbeats for the right sequence between the packets,
    and then every copy of the end-of-session marker; and a receiver of that traffic
    finishes the session. *)
From stdpp Require Import base list strings.
From Stdlib Require Import ZArith Lia Ascii.
From S2P Require Import Prelude Gap Protocol Capacity Replay ReplayInv ReplayProps Schedule Handoff SenderConfig Sender.
#[local] Open Scope Z_scope.
#[local] Open Scope astra_scope.

Module SenderProps.
Import Protocol ReplayInv SenderConfig Sender.

(** ** The traffic of a session *)

(** The packets of a line from sequence [first] on: data packets that carry the messages
    in order, and heartbeats that announce the sequence of the next message. *)
Inductive flow (session : list Z) : Z → list (list Z) → list (list Z) → Prop :=
  | flow_nil first : flow session first [] []
  | flow_heartbeat first wire ms :
    flow session first wire ms → flow session first (makeMoldHeartbeatPacket session first :: wire) ms
  | flow_data first cur wire ms :
    cur ≠ [] → ItchMoldUdpSource.kMoldHeaderSize + Z.of_nat (length (frames cur)) <= ItchMoldUdpSource.kMaxPacketBytes →
    flow session (first + Z.of_nat (length cur)) wire ms →
    flow session first (packet (ItchMoldUdpSource.padSession session) first cur :: wire) (cur ++ ms).

Lemma flow_app session first wire ms wire' ms' :
  flow session first wire ms → flow session (first + Z.of_nat (length ms)) wire' ms' →
  flow session first (wire ++ wire') (ms ++ ms').
Proof.
  induction 1 as [first|first wire ms _ IH|first cur wire ms Hne Hsz _ IH]; intros H'; cbn [app].
  - cbn in H'. by rewrite Z.add_0_r in H'.
  - apply flow_heartbeat. by apply IH.
  - rewrite <- app_assoc. apply flow_data; [done|done|]. apply IH. rewrite length_app in H'.
    by replace (first + Z.of_nat (length cur) + Z.of_nat (length ms))
      with (first + Z.of_nat (length cur + length ms)) by lia.
Qed.

Lemma flow_beat session wire ms seq :
  flow session 1 wire ms → seq = 1 + Z.of_nat (length ms) →
  flow session 1 (wire ++ [makeMoldHeartbeatPacket session seq]) ms.
Proof.
  intros Hf ->. rewrite <- (app_nil_r ms) at 2. eapply flow_app; [done|]. apply flow_heartbeat, flow_nil.
Qed.

Lemma frames_lower ms : (2 * length ms <= length (frames ms))%nat.
Proof.
  induction ms as [|m ms IH]; [done|]. rewrite frames_cons, length_app, length_frame. cbn [length]. lia.
Qed.

Section sender.
Context {Double : Type} (scaledDelay : Z → Double → Z) (o : @Options Double).
Abbreviation sess := (session o).

(** Both lines carry the packets of the messages [ms]. *)
Definition wires (ms : list (list Z)) (x : t) : Prop :=
  flow sess 1 (wire_a (link x)) ms ∧ wire_b (link x) = if redundant o then wire_a (link x) else [].

Definition wired (ms : list (list Z)) (x : t) : Prop := transmission_failed x = false → wires ms x.

(** The program has been told to stop, or a line has refused a packet. *)
Definition halted (x : t) : Prop := transmission_failed x = true ∨ runs (world x) = 0%nat.

(** What no wait and no heartbeat changes. *)
Definition keeps (x x' : t) : Prop :=
  source x' = source x ∧ end_of_session_packets_sent (stats x') = end_of_session_packets_sent (stats x) ∧
  (runs (world x') <= runs (world x))%nat ∧ (transmission_failed x' = false → transmission_failed x = false).

(** A part of the program that sends nothing but heartbeats for [seq]. *)
Definition waits (seq : Z) (x x' : t) : Prop :=
  keeps x x' ∧ ∀ ms, seq = 1 + Z.of_nat (length ms) → wired ms x → wired ms x'.

Lemma kept_refl x : keeps x x.
Proof. by split_and!. Qed.
Lemma kept_trans x y z : keeps x y → keeps y z → keeps x z.
Proof. intros (?&?&?&?) (?&?&?&?). split_and!; [congruence|congruence|lia|auto]. Qed.
Lemma waits_refl seq x : waits seq x x.
Proof. split; [apply kept_refl|done]. Qed.
Lemma waits_trans seq x y z : waits seq x y → waits seq y z → waits seq x z.
Proof. intros [K1 H1] [K2 H2]. split; [by eapply kept_trans|]. intros ms E Hw. apply H2, H1; done. Qed.

(** Steps that do not touch the lines. *)
Lemma waits_quiet seq x x' : keeps x x' → link x' = link x → waits seq x x'.
Proof.
  intros Hk Hl. split; [done|]. intros ms _ Hw Hf. destruct Hk as (_&_&_&Hf'). destruct (Hw (Hf' Hf)) as [H1 H2].
  split; by rewrite Hl.
Qed.

Lemma load_waits seq x : waits seq x (load x).2.
Proof. apply waits_quiet; [|done]. split_and!; try done. cbn. lia. Qed.
Lemma now_waits seq x : waits seq x (now x).2.
Proof. apply waits_quiet; [by split_and!|done]. Qed.

Lemma load_false x : (load x).1 = false → halted (load x).2.
Proof. unfold load. cbn. intros H. right. apply negb_false_iff, Nat.eqb_eq in H. cbn. lia. Qed.

Lemma sleep_spec seq n x deadline : (runs (world x) < n)%nat →
  let '(slept, x') := sleepLoop n x deadline in waits seq x x' ∧ (slept = false → halted x').
Proof.
  revert x. induction n as [|n IH]; intros x Hn; [lia|]. cbn [sleepLoop].
  pose proof (load_waits seq x) as Hw. pose proof (load_false x) as Hf.
  assert (runs (world (load x).2) = Nat.pred (runs (world x))) as Hr by done.
  destruct (load x) as [running x1] eqn:El. cbn [fst snd] in *. destruct running; cbn [negb]; [|by split; [|auto]].
  pose proof (now_waits seq x1) as Hw2. assert (runs (world (now x1).2) = runs (world x1)) as Hr2 by done.
  destruct (now x1) as [time x2]. cbn [snd] in *.
  destruct (_ <=? _); [split; [by eapply waits_trans|done]|].
  assert (0 < runs (world x))%nat as Hpos.
  { injection El as E _. apply negb_true_iff, Nat.eqb_neq in E. lia. }
  specialize (IH x2 ltac:(lia)). destruct (sleepLoop n x2 deadline) as [slept x3]. destruct IH as [H1 H2].
  split; [|done]. eapply waits_trans; [done|]. by eapply waits_trans.
Qed.

Lemma sleepUntil_spec seq x deadline :
  let '(slept, x') := sleepUntilOrStopped x deadline in waits seq x x' ∧ (slept = false → halted x').
Proof. apply sleep_spec. lia. Qed.

(** ** Sending *)

Lemma transmit_spec x p n : let '(sent, x') := transmit o x p n in
  source x' = source x ∧ stats x' = stats x ∧ transmission_failed x' = transmission_failed x ∧
  runs (world x') = runs (world x) ∧ pacing x' = pacing x ∧
  (sent = true → wire_a (link x') = wire_a (link x) ++ [p] ∧
     wire_b (link x') = if redundant o then wire_b (link x) ++ [p] else wire_b (link x)).
Proof.
  unfold transmit. destruct (default _ _) as [a b]. destruct (redundant o); cbn; split_and!; try done.
  - by intros [-> ->]%andb_true_iff.
  - by intros ->.
Qed.

(** A control packet that both lines accepted. *)
Definition appended (p : list Z) (x x' : t) : Prop :=
  wire_a (link x') = wire_a (link x) ++ [p] ∧
  wire_b (link x') = if redundant o then wire_b (link x) ++ [p] else wire_b (link x).

Lemma control_spec x p seq : let '(sent, x') := send_control_packet o x p seq in
  keeps x x' ∧ runs (world x') = runs (world x) ∧
  (if sent then transmission_failed x' = transmission_failed x ∧ appended p x x' else transmission_failed x' = true).
Proof.
  unfold send_control_packet. pose proof (transmit_spec x p 0) as H. destruct (transmit o x p 0) as [sent x1].
  destruct H as (H1&H2&H3&H4&_&H5). destruct sent; cbn [negb].
  - destruct (H5 eq_refl) as [Ha Hb]. unfold keeps, appended. cbn. rewrite H1, H2, H3, H4. by split_and!.
  - unfold keeps. cbn. rewrite H1, H2, H4. by split_and!.
Qed.

Lemma wires_append ms ms' p x x' : wires ms x → appended p x x' →
  (flow sess 1 (wire_a (link x)) ms → flow sess 1 (wire_a (link x) ++ [p]) ms') → wires ms' x'.
Proof. intros [H1 H2] [E1 E2] H. split; rewrite E1; [by apply H|]. rewrite E2, H2. by destruct (redundant o). Qed.

Lemma heartbeat_spec x seq : let '(sent, x') := send_control_packet o x (makeMoldHeartbeatPacket sess seq) seq in
  waits seq x x' ∧ runs (world x') = runs (world x) ∧ (sent = false → halted x').
Proof.
  pose proof (control_spec x (makeMoldHeartbeatPacket sess seq) seq) as H.
  destruct (send_control_packet _ _ _ _) as [sent x']. destruct H as (Hk&Hr&H). split_and!; [split; [done|]|done|].
  - intros ms Hs Hw Hf. destruct sent; [|congruence]. destruct H as [Hf' Ha]. rewrite Hf' in Hf.
    eapply (wires_append ms ms); [by apply Hw|done|]. intros Hfl. by apply flow_beat.
  - intros ->. by left.
Qed.

Lemma observe_waits seq x v : waits seq x (observeTraffic x v).
Proof. apply waits_quiet; [by split_and!|done]. Qed.
Lemma periodic_waits seq x : waits seq x (countPeriodic x).
Proof. apply waits_quiet; [by split_and!|done]. Qed.
Lemma startup_waits seq x : waits seq x (countStartup x).
Proof. apply waits_quiet; [by split_and!|done]. Qed.

Lemma waitLoop_spec n x deadline seq : (runs (world x) < n)%nat →
  let '(waited, x') := waitLoop o n x deadline seq in waits seq x x' ∧ (waited = false → halted x').
Proof.
  revert x. induction n as [|n IH]; intros x Hn; [lia|]. cbn [waitLoop].
  pose proof (load_waits seq x) as Hw. pose proof (load_false x) as Hf.
  assert (runs (world (load x).2) = Nat.pred (runs (world x))) as Hr by done.
  destruct (load x) as [running x1] eqn:El. cbn [fst snd] in *. destruct running; cbn [negb]; [|by split; [|auto]].
  assert (0 < runs (world x))%nat as Hpos.
  { injection El as E _. apply negb_true_iff, Nat.eqb_neq in E. lia. }
  pose proof (now_waits seq x1) as Hw2. assert (runs (world (now x1).2) = runs (world x1)) as Hr2 by done.
  destruct (now x1) as [time x2]. cbn [snd] in *. assert (waits seq x x2) as Hw12 by (by eapply waits_trans).
  destruct (_ <=? _); [by split|].
  destruct (MoldUdpHeartbeatSchedule.nextHeartbeatBefore _ _) as [h|].
  2: { pose proof (sleepUntil_spec seq x2 deadline) as Hs. destruct (sleepUntilOrStopped x2 deadline) as [b x3].
       destruct Hs as [H1 H2]. split; [by eapply waits_trans|done]. }
  pose proof (sleepUntil_spec seq x2 h) as Hs. destruct (sleepUntilOrStopped x2 h) as [slept x3].
  destruct Hs as [H1 H2]. assert (waits seq x x3) as Hw3 by (by eapply waits_trans).
  destruct slept; cbn [negb]; [|by split; [|auto]].
  pose proof (heartbeat_spec x3 seq) as Hb. destruct (send_control_packet _ _ _ _) as [sent x4]. destruct Hb as (H3&H4&H5).
  assert (waits seq x x4) as Hw4 by (by eapply waits_trans).
  destruct sent; cbn [negb]; [|by split; [|auto]].
  pose proof (periodic_waits seq x4) as Hp. pose proof (now_waits seq (countPeriodic x4)) as Hn5.
  assert (runs (world (now (countPeriodic x4)).2) = runs (world x4)) as Hr5 by done.
  destruct (now (countPeriodic x4)) as [time5 x5]. cbn [snd] in *. pose proof (observe_waits seq x5 time5) as Ho.
  assert (runs (world x3) <= runs (world x2))%nat as Hr3 by apply H1.
  specialize (IH (observeTraffic x5 time5) ltac:(change (runs (world (observeTraffic x5 time5))) with (runs (world x5)); lia)).
  destruct (waitLoop o n _ _ _) as [b x6]. destruct IH as [H6 H7]. split; [|done].
  eapply waits_trans; [done|]. eapply waits_trans; [done|]. eapply waits_trans; [done|]. by eapply waits_trans.
Qed.

Lemma wait_spec x deadline seq :
  let '(waited, x') := wait_until_with_heartbeats o x deadline seq in waits seq x x' ∧ (waited = false → halted x').
Proof. apply waitLoop_spec. lia. Qed.

(** ** Start-up *)

Lemma startupLoop_spec n index x deadline : (runs (world x) < n)%nat → ItchMoldUdpSource.next_seq (source x) = 1 →
  match startupLoop o n index x (makeMoldHeartbeatPacket sess 1) deadline with
  | inl _ => True
  | inr x' => waits 1 x x'
  end.
Proof.
  revert index x deadline. induction n as [|n IH]; intros index x deadline Hn Hs; [lia|]. cbn [startupLoop].
  destruct (index <? _); cbn [negb]; [|apply waits_refl].
  pose proof (load_waits 1 x) as Hw. assert (runs (world (load x).2) = Nat.pred (runs (world x))) as Hr by done.
  destruct (load x) as [running x1] eqn:El. cbn [snd] in *. destruct running; cbn [negb]; [|done].
  assert (0 < runs (world x))%nat as Hpos.
  { injection El as E _. apply negb_true_iff, Nat.eqb_neq in E. lia. }
  assert (source x1 = source x) as Es by apply Hw. rewrite Es, Hs.
  pose proof (heartbeat_spec x1 1) as Hb. destruct (send_control_packet _ _ _ _) as [sent x2]. destruct Hb as (H3&H4&_).
  assert (waits 1 x x2) as Hw2 by (by eapply waits_trans). destruct sent; cbn [negb]; [|done].
  assert (waits 1 x (countStartup x2)) as Hw3 by (eapply waits_trans; [done|apply startup_waits]).
  assert (ItchMoldUdpSource.next_seq (source (countStartup x2)) = 1) as Hs3 by (rewrite <- Hs; f_equal; apply Hw3).
  destruct (0 <? _).
  - unfold checkedDeadlineAfter. destruct (_ || _); [exact I|]. cbn [mbind throw_bind].
    pose proof (sleepUntil_spec 1 (countStartup x2) (deadline + startup_heartbeat_interval_ms o * 1000000)) as Hsl.
    destruct (sleepUntilOrStopped _ _) as [slept x4]. destruct Hsl as [H5 _].
    assert (waits 1 x x4) as Hw4 by (by eapply waits_trans). destruct slept; cbn [negb]; [|done].
    assert (runs (world x4) <= runs (world x2))%nat as Hr4 by apply H5.
    specialize (IH (index + 1) x4 (deadline + startup_heartbeat_interval_ms o * 1000000) ltac:(lia)).
    rewrite (proj1 (proj1 H5)) in IH. specialize (IH Hs3).
    destruct (startupLoop _ _ _ _ _ _); [done|]. by eapply waits_trans.
  - specialize (IH (index + 1) (countStartup x2) deadline ltac:(cbn; lia) Hs3).
    destruct (startupLoop _ _ _ _ _ _); [done|]. by eapply waits_trans.
Qed.

Lemma startup_spec x : ItchMoldUdpSource.next_seq (source x) = 1 →
  match startup o x with inl _ => True | inr x' => waits 1 x x' end.
Proof.
  intros Hs. unfold startup. set (first := if negb _ then _ else _).
  assert (match first with inl _ => True | inr x' => waits 1 x x' end) as Hfirst.
  { unfold first. destruct (negb _); [|apply waits_refl]. rewrite Hs. pose proof (now_waits 1 x) as Hn.
    assert (source (now x).2 = source x) as Es by done. destruct (now x) as [time x1]. cbn [snd] in *.
    pose proof (startupLoop_spec (S (runs (world x1))) 0 x1 time ltac:(lia) ltac:(congruence)) as Hl.
    clear first. destruct (startupLoop _ _ _ _ _ _); [done|]. by eapply waits_trans. }
  destruct first as [|x1]; [done|]. cbn [mbind throw_bind].
  set (x2 := if _ && _ then _ else _).
  assert (waits 1 x x2) as H2.
  { unfold x2. destruct (_ && _); [|done]. pose proof (now_waits 1 x1) as Hn. destruct (now x1) as [time x']. cbn [snd] in *.
    eapply waits_trans; [done|]. eapply waits_trans; [done|]. apply observe_waits. }
  pose proof (now_waits 1 x2) as Hn. destruct (now x2) as [time x3]. cbn [snd] in *.
  eapply waits_trans; [done|]. eapply waits_trans; [done|]. apply waits_quiet; [by split_and!|done].
Qed.

(** ** The source *)

Context (file : list Z) (Hb : bytes file) (Hlen : Z.of_nat (length file) < 2 ^ 63).
Context (Hn : 0 < msgs_per_packet o < 65536) (Hsess : (length sess <= 10)%nat).

(** The source has read the messages [ms] off the file. *)
Definition sourced (ms : list (list Z)) (s : ItchMoldUdpSource.t) : Prop :=
  outcome file (binary_file_completion_policy o) ms s ∧
  ItchMoldUdpSource.session s = ItchMoldUdpSource.padSession sess ∧
  ItchMoldUdpSource.completion_policy s = binary_file_completion_policy o ∧
  0 < ItchMoldUdpSource.msgs_per_packet s < 65536.

Lemma resize_sourced ms s n : 0 < n < 65536 → sourced ms s →
  let '(ok, s') := ItchMoldUdpSource.setMessagesPerPacket s n in ok = true ∧ sourced ms s'.
Proof.
  intros Hn' ((H1&Hfr&H2)&H3&H4&H5). unfold ItchMoldUdpSource.setMessagesPerPacket.
  rewrite (proj2 (Z.eqb_neq n 0)) by lia. split; [done|]. split_and!; try done; cbn; try lia. split; [done|]. split; [done|].
  destruct H2 as [[[] ?]|[H2|H2]]; [left|right; by left|right; by right]. by split.
Qed.

Lemma recordLoop_size fuel s count body s' count' body' :
  ItchMoldUdpSource.recordLoop fuel s count body = Some (s', count', body') →
  ItchMoldUdpSource.msgs_per_packet s' = ItchMoldUdpSource.msgs_per_packet s.
Proof.
  revert s count body. induction fuel as [|fuel IH]; intros s count body; cbn [ItchMoldUdpSource.recordLoop]; [done|].
  case_if; [by intros [= <- _ _]|].
  assert (match ItchMoldUdpSource.readRecord s count (ItchMoldUdpSource.kMoldHeaderSize + Z.of_nat (length body)) with
          | ItchMoldUdpSource.Stopped r | ItchMoldUdpSource.Accepted _ _ r =>
            ItchMoldUdpSource.msgs_per_packet r = ItchMoldUdpSource.msgs_per_packet s
          | ItchMoldUdpSource.Flush => True end) as Ho.
  { unfold ItchMoldUdpSource.readRecord, ItchMoldUdpSource.checkRecord.
    destruct (ItchMoldUdpSource.input s) as [|b0 [|b1 [|b2 rest]]]; try done.
    all: repeat (match goal with |- context [if ?b then _ else _] => destruct b end; try done). }
  destruct (ItchMoldUdpSource.readRecord _ _ _) as [r| |m b r]; [by intros [= <- _ _]|by intros [= <- _ _]|].
  cbn zeta. destruct b; [by intros [= <- _ _]|]. intros Hl. rewrite <- Ho. by eapply IH.
Qed.

Lemma next_size s : ItchMoldUdpSource.msgs_per_packet (snd (ItchMoldUdpSource.next s)) = ItchMoldUdpSource.msgs_per_packet s.
Proof.
  unfold ItchMoldUdpSource.next. destruct (ItchMoldUdpSource.eof s); [done|].
  destruct (ItchMoldUdpSource.recordLoop _ _ _ _) as [[[r c] b]|] eqn:E; cbn [from_option id].
  - apply recordLoop_size in E. rewrite <- E. by case_if.
  - done.
Qed.

(** The next packet of the source carries the messages that follow. *)
Lemma next_sourced ms s : sourced ms s →
  match ItchMoldUdpSource.next s with
  | (None, s') => sourced ms s'
  | (Some p, s') => ∃ cur, cur ≠ [] ∧ sourced (ms ++ cur) s' ∧
      p = packet (ItchMoldUdpSource.padSession sess) (1 + Z.of_nat (length ms)) cur ∧
      ItchMoldUdpSource.kMoldHeaderSize + Z.of_nat (length (frames cur)) <= ItchMoldUdpSource.kMaxPacketBytes ∧
      readU64BE p 10 = 1 + Z.of_nat (length ms)
  end.
Proof.
  intros ((H1&Hfr&H2)&H3&H4&H5). pose proof (next_size s) as Hsz.
  assert (ItchMoldUdpSource.eof s = true → ItchMoldUdpSource.next s = (None, s)) as Heof
    by (intros E; unfold ItchMoldUdpSource.next; by rewrite E).
  destruct H2 as [[Hc Hl]|H2].
  2: { rewrite Heof by (by destruct H2 as [[? _]|[? _]]). split; [split; [done|split; [done|by right]]|done]. }
  pose proof (next_sound file s ms Hc Hl Hlen H5) as Hnx. destruct (ItchMoldUdpSource.next s) as [p s'] eqn:En.
  destruct Hnx as (cur&->&Hsize&Hemp&[Hcs Hcp]&Hout). cbn [snd] in Hsz. rewrite H4 in Hout.
  assert (sourced (ms ++ cur) s') as Hsr by (split; [done|split_and!; congruence || lia]).
  case_decide as Hcur; [by rewrite Hcur, app_nil_r in Hsr|]. exists cur. rewrite H1, H3.
  split; [done|]. split; [done|]. split; [done|]. split; [done|].
  pose proof (frames_lower cur) as Hfl. change ItchMoldUdpSource.kMoldHeaderSize with 20 in Hsize.
  change ItchMoldUdpSource.kMaxPacketBytes with 1472 in Hsize.
  pose proof (cs_file _ _ _ Hc) as Ef. pose proof (frames_lower ms) as Hfm. rewrite Ef, length_app in Hlen.
  by destruct (ReplayProps.packet_fields (ItchMoldUdpSource.padSession sess) (ReplayProps.padSession_length sess)
    (1 + Z.of_nat (length ms)) cur) as (?&_); [unfold fits; lia|lia|].
Qed.

(** ** The data packets *)

Variable premarket : PremarketWindow.

(** Source and lines agree on the messages [ms]. *)
Definition aligned (ms : list (list Z)) (x : t) : Prop :=
  sourced ms (source x) ∧ wired ms x ∧ end_of_session_packets_sent (stats x) = 0.

Lemma sourced_seq ms s : sourced ms s → ItchMoldUdpSource.next_seq s = 1 + Z.of_nat (length ms).
Proof. by intros ((?&_)&_). Qed.

Lemma waits_aligned ms seq x x' : seq = 1 + Z.of_nat (length ms) → waits seq x x' → aligned ms x → aligned ms x'.
Proof.
  intros Hs [(H1&H2&_&_) Hw] (A1&A2&A3). split_and!; [by rewrite H1|by apply Hw|congruence].
Qed.

(** The end of a loop body: the loop goes on or is left. *)
Definition continues (ms : list (list Z)) (r : string + (bool * t)) : Prop :=
  match r with inl _ => True | inr (b, x) => aligned ms x ∧ (b = false → halted x) end.

Lemma wait_aligned ms x deadline : aligned ms x →
  continues ms (inr (wait_until_with_heartbeats o x deadline (ItchMoldUdpSource.next_seq (source x)))).
Proof.
  intros Ha. pose proof (sourced_seq ms _ (proj1 Ha)) as Es. rewrite Es.
  pose proof (wait_spec x deadline (1 + Z.of_nat (length ms))) as H.
  destruct (wait_until_with_heartbeats _ _ _ _) as [b x']. destruct H as [H1 H2]. split; [|done]. exact (waits_aligned ms _ x x' eq_refl H1 Ha).
Qed.

(** A change of the pacing alone. *)
Lemma pacing_aligned ms x p : aligned ms x → aligned ms (with_pacing x p).
Proof. done. Qed.
Lemma now_aligned ms x : aligned ms x → aligned ms (now x).2.
Proof. done. Qed.

Lemma resize_aligned ms x n : 0 < n < 65536 → aligned ms x →
  let '(ok, s) := ItchMoldUdpSource.setMessagesPerPacket (source x) n in ok = true ∧ aligned ms (with_source x s).
Proof.
  intros Hn' (A1&A2&A3). pose proof (resize_sourced ms (source x) n Hn' A1) as H.
  destruct (ItchMoldUdpSource.setMessagesPerPacket _ _) as [ok s]. destruct H as [-> H]. split; [done|]. split; [exact H|]. split; [exact A2|exact A3].
Qed.

Lemma afterS_spec ms x : aligned ms x → continues ms (afterStartOfSystemHours o premarket x).
Proof.
  intros Ha. unfold afterStartOfSystemHours. set (first := if ss_pause_pending _ then _ else _).
  assert (continues ms first) as Hf.
  { unfold first. destruct (ss_pause_pending _); [|by split]. pose proof (now_aligned ms x Ha) as Hn1.
    destruct (now x) as [time x1]. cbn [snd] in *. unfold checkedDeadlineAfter. destruct (_ || _); [exact I|].
    cbn [mbind throw_bind]. pose proof (wait_aligned ms x1 (time + ss_pause_seconds o * 1000000000) Hn1) as H.
    destruct (wait_until_with_heartbeats _ _ _ _) as [b x2]. exact H. }
  destruct first as [|[paused x1]]; [exact I|]. cbn [mbind throw_bind]. destruct Hf as [H1 H2].
  destruct paused; cbn [negb]; [|by split].
  destruct (_ && _); [|by split]. pose proof (now_aligned ms x1 H1) as Hn1. destruct (now x1) as [time x2]. cbn [snd] in *.
  unfold checkedDeadlineAfter. destruct (_ || _); [exact I|]. cbn [mbind throw_bind].
  case_bool_decide; [|by split]. set (x3 := with_pacing _ _).
  pose proof (resize_aligned ms x3 1 ltac:(lia) Hn1) as Hr. destruct (ItchMoldUdpSource.setMessagesPerPacket _ _) as [ok s].
  destruct Hr as [-> Hr]. by split.
Qed.

Lemma afterQ_spec ms x : aligned ms x → match afterStartOfMarketHours o x with inl _ => True | inr x' => aligned ms x' end.
Proof.
  intros Ha. unfold afterStartOfMarketHours. case_bool_decide; [|done]. set (x1 := with_pacing _ _).
  pose proof (resize_aligned ms x1 (msgs_per_packet o) Hn Ha) as Hr. destruct (ItchMoldUdpSource.setMessagesPerPacket _ _) as [ok s].
  by destruct Hr as [-> Hr].
Qed.

Lemma afterPacket_spec ms x timing : aligned ms x → continues ms (afterPacket o premarket x timing).
Proof.
  intros Ha. unfold afterPacket. pose proof (now_aligned ms x Ha) as Hn1. destruct (now x) as [at_ x1]. cbn [snd] in *.
  set (x2 := if MoldUdpHeartbeatSchedule.enabled _ then _ else _).
  assert (aligned ms x2) as H2 by (unfold x2; by destruct (MoldUdpHeartbeatSchedule.enabled _)).
  assert (match ordinarySend x2 (contains_sq timing) at_ with inl _ => True | inr (_, x3) => aligned ms x3 end) as H3.
  { unfold ordinarySend. destruct (_ && _); [|done]. destruct (MoldUdpPacketRateSchedule.checkedDeadlineAfterPacket _ _) as [[d|] rate]; done. }
  destruct (ordinarySend _ _ _) as [|[next x3]]; [exact I|]. cbn [mbind throw_bind].
  assert (continues ms (if contains_ss timing then afterStartOfSystemHours o premarket x3 else inr (true, x3))) as H4
    by (destruct (contains_ss timing); [by apply afterS_spec|by split]).
  destruct (if contains_ss timing then _ else _) as [|[paused x4]]; [exact I|]. destruct H4 as [H4 H5]. cbn [mbind throw_bind].
  destruct paused; cbn [negb]; [|by split].
  assert (match (if contains_sq timing then afterStartOfMarketHours o x4 else inr x4) with inl _ => True | inr x' => aligned ms x' end) as H6
    by (destruct (contains_sq timing); [by apply afterQ_spec|done]).
  destruct (if contains_sq timing then _ else _) as [|x5]; [exact I|]. cbn [mbind throw_bind].
  destruct next as [deadline|]; [|by split]. destruct (_ && _); [|by split]. by apply wait_aligned.
Qed.

Lemma premarketWait_spec (ms : list (list Z)) x timing seq : seq = 1 + Z.of_nat (length ms) →
  match premarketWait scaledDelay o premarket x timing seq with
  | inl _ => True
  | inr (b, x') => waits seq x x' ∧ (b = false → halted x')
  end.
Proof.
  intros Hs. unfold premarketWait. destruct (negb _); [split; [apply waits_refl|done]|].
  destruct (replay_mode o); [split; [apply waits_refl|done]|..].
  - pose proof (wait_spec x (next_premarket_send (pacing x)) seq) as H.
    destruct (wait_until_with_heartbeats _ _ _ _) as [b x1]. destruct H as [H1 H2]. destruct b; cbn [negb]; [|by split].
    unfold checkedDeadlineAfter. destruct (_ || _); [exact I|]. cbn [mbind throw_bind]. split; [|done].
    eapply waits_trans; [done|]. apply waits_quiet; [by split_and!|done].
  - destruct (_ && _); [|split; [apply waits_refl|done]]. unfold checkedDeadlineAfter. destruct (_ || _); [exact I|].
    cbn [mbind throw_bind]. apply wait_spec.
Qed.

(** One turn: the lines still agree with the source, or the program stops with the
    packet it could not send. *)
Lemma sendNext_spec ms x : aligned ms x → transmission_failed x = false →
  match sendNext scaledDelay o premarket x with
  | inl _ => True
  | inr (b, x') => end_of_session_packets_sent (stats x') = 0 ∧ (b = false ∧ halted x' ∨ ∃ ms', aligned ms' x')
  end.
Proof.
  intros (A1&A2&A3) Hf. unfold sendNext. pose proof (next_sourced ms (source x) A1) as Hnx.
  destruct (ItchMoldUdpSource.next (source x)) as [[p|] s]; [|split; [done|right; exists ms; by split_and!]].
  destruct Hnx as (cur&Hne&Hs&Hp&Hsz&Hseq). rewrite Hseq. set (seq := 1 + Z.of_nat (length ms)).
  set (timing := if _ || _ then _ else _).
  pose proof (premarketWait_spec ms (with_source x s) timing seq eq_refl) as Hw.
  destruct (premarketWait _ _ _ _ _ _) as [|[waited x1]]; [exact I|]. destruct Hw as [[(K1&K2&K3&K4) Hw] Hh]. cbn [mbind throw_bind].
  destruct waited; cbn [negb]; [|split; [by rewrite K2|left; auto]].
  pose proof (transmit_spec x1 p (readU16BE p 18)) as Ht. destruct (transmit o x1 p _) as [sent x2].
  destruct Ht as (T1&T2&T3&T4&_&T5). destruct sent; cbn [negb]; [|split; [cbn; by rewrite T2, K2|by left; split; [|left]]].
  set (x3 := countData x2 seq (readU16BE p 18)).
  assert (aligned (ms ++ cur) x3) as Ha.
  { split_and!; [cbn; by rewrite T1, K1| |cbn; by rewrite T2, K2]. intros Hf3. change (transmission_failed x3) with (transmission_failed x2) in Hf3.
    rewrite T3 in Hf3. assert (wires ms x1) as Hw1 by (by apply Hw).
    change (link x3) with (link x2). destruct (T5 eq_refl) as [E1 E2].
    eapply (wires_append ms (ms ++ cur) p x1); [done|by split|]. intros Hfl. eapply flow_app; [done|].
    rewrite <- (app_nil_r cur), Hp. apply flow_data; [done|done|]. apply flow_nil. }
  pose proof (afterPacket_spec (ms ++ cur) x3 timing Ha) as Hc. destruct (afterPacket _ _ _ _) as [|[b x4]]; [exact I|].
  destruct Hc as [Hc _]. split; [apply Hc|]. right. by exists (ms ++ cur).
Qed.

Lemma dataLoop_spec n x : (∃ ms, aligned ms x) →
  match dataLoop scaledDelay o premarket n x with
  | inl _ => True
  | inr x' => end_of_session_packets_sent (stats x') = 0 ∧ (halted x' ∨ ∃ ms', aligned ms' x')
  end.
Proof.
  revert x. induction n as [|n IH]; intros x (ms&Ha); cbn [dataLoop]; [split; [apply Ha|right; by exists ms]|].
  assert (aligned ms (load x).2) as Ha1 by done. destruct (load x) as [running x1]. cbn [snd] in *.
  destruct (running && _) eqn:E; cbn [negb]; [|split; [apply Ha1|right; by exists ms]].
  apply andb_true_iff in E as [_ E]. apply negb_true_iff in E.
  pose proof (sendNext_spec ms x1 Ha1 E) as H. destruct (sendNext _ _ _ _) as [|[b x2]]; [exact I|]. cbn [mbind throw_bind].
  destruct H as [H1 H2]. destruct b; cbn [negb].
  - destruct H2 as [[? _]|He]; [done|]. by apply IH.
  - split; [done|]. destruct H2 as [[_ Hh]|He]; [by left|by right].
Qed.

(** ** The end of the session *)

Lemma sleep_still n x deadline : ∃ w, (sleepLoop n x deadline).2 = with_world x w.
Proof.
  revert x. induction n as [|n IH]; intros x; cbn [sleepLoop]; [exists (world x); by destruct x|].
  unfold load, now. destruct (negb (negb _)); [by eexists|]. cbn [world with_world clocks runs outs].
  destruct (_ <=? _); [by eexists|].
  match goal with |- context [sleepLoop n ?y deadline] => destruct (IH y) as [w Hw] end. exists w. exact Hw.
Qed.

(** [x'] has [k] more copies of the packet [p] on its lines than [x]. *)
Definition copies (k : nat) (p : list Z) (x x' : t) : Prop :=
  source x' = source x ∧
  (transmission_failed x' = false → transmission_failed x = false ∧
     wire_a (link x') = wire_a (link x) ++ replicate k p ∧
     wire_b (link x') = if redundant o then wire_b (link x) ++ replicate k p else wire_b (link x)).

Lemma copies_refl p x : copies 0 p x x.
Proof. split; [done|]. intros Hf. cbn. rewrite !app_nil_r. by destruct (redundant o). Qed.

Lemma copies_more k p x y z : copies 1 p x y → copies k p y z → copies (S k) p x z.
Proof.
  intros [S1 H1] [S2 H2]. split; [congruence|]. intros Hf. destruct (H2 Hf) as (Hf'&A2&B2). destruct (H1 Hf') as (Hf''&A1&B1).
  split; [done|]. rewrite A2, B2, A1, B1. destruct (redundant o); by rewrite <- !app_assoc.
Qed.

Lemma endLoop_spec n index x p seq previous :
  0 <= index <= end_of_session_packet_count o → end_of_session_packet_count o <= 1000000 →
  end_of_session_packets_sent (stats x) = index →
  match endLoop o n index x p seq previous with
  | inl _ => True
  | inr x' => ∃ k, end_of_session_packets_sent (stats x') = index + Z.of_nat k ∧
      (runs (world x) = 0%nat → k = 0%nat) ∧ copies k p x x'
  end.
Proof.
  revert index x previous. induction n as [|n IH]; intros index x previous Hi Hc He; cbn [endLoop].
  { exists 0%nat. rewrite Z.add_0_r. split_and!; try done. apply copies_refl. }
  change (MoldUdpEndOfSessionSchedule.packet_count _) with (end_of_session_packet_count o).
  destruct (index <? _) eqn:Ei; cbn [negb]; [|exists 0%nat; rewrite Z.add_0_r; split_and!; try done; apply copies_refl].
  apply Z.ltb_lt in Ei.
  assert ((load x).1 = negb (Nat.eqb (runs (world x)) 0)) as Hrun by done.
  assert (copies 0 p x (load x).2 ∧ end_of_session_packets_sent (stats (load x).2) = index) as [C1 E1] by (split; [exact (copies_refl p x)|exact He]).
  destruct (load x) as [running x1]. cbn [fst snd] in *. destruct running; cbn [negb].
  2: { exists 0%nat. rewrite Z.add_0_r. by split_and!. }
  assert (runs (world x) ≠ 0%nat) as Hpos by (intros E; by rewrite E in Hrun). clear Hrun.
  set (due := match previous with None => _ | Some _ => _ end).
  assert (match due with inl _ => True | inr (_, x2) => ∃ w, x2 = with_world x1 w end) as Hdue.
  { unfold due. destruct previous as [at_|]; [|exists (world x1); by destruct x1].
    destruct (MoldUdpEndOfSessionSchedule.checkedDeadlineAfterSend _ _) as [d|]; [|done].
    pose proof (sleep_still (S (runs (world x1))) x1 d) as Hs. unfold sleepUntilOrStopped. by destruct (sleepLoop _ _ _). }
  destruct due as [|[waited x2]]; [exact I|]. destruct Hdue as [w ->]. cbn [mbind throw_bind].
  assert (copies 0 p x (with_world x1 w)) as C2 by exact C1.
  destruct waited; cbn [negb]; [|exists 0%nat; rewrite Z.add_0_r; by split_and!].
  pose proof (control_spec (with_world x1 w) p seq) as Hs. destruct (send_control_packet _ _ _ _) as [sent x3].
  destruct Hs as ((K1&K2&_&_)&_&Hs). destruct sent; cbn [negb].
  2: { exists 0%nat. rewrite Z.add_0_r. split_and!; [by rewrite K2|done|]. split; [rewrite K1; apply C1|]. congruence. }
  destruct Hs as [Hf3 [A3 B3]]. pose proof (IH (index + 1)) as IH'.
  unfold now. cbn [fst snd]. set (x4 := countEnd _ _ _). specialize (IH' x4 (Some (default 0 (head (clocks (world x3)))))).
  destruct (endLoop _ _ _ _ _ _ _) as [|x5]; [exact I|]. destruct IH' as (k&E5&_&C5); [lia|done|..].
  { cbn. rewrite K2. cbn. rewrite E1. apply u64_id. unfold fits. lia. }
  exists (S k). split_and!; [lia|done|]. apply (copies_more k p x x4); [|done]. destruct C2 as [S2 C2].
  split; [cbn; by rewrite K1, <- S2|]. cbn. intros Hf4. rewrite Hf3 in Hf4. destruct (C2 Hf4) as (Hf&A2&B2).
  split; [done|]. rewrite A3, B3, A2, B2. destruct (redundant o); by rewrite ?app_nil_r.
Qed.

(** ** The session *)

Lemma make_sourced path : sourced [] (ItchMoldUdpSource.make (Some file) path sess (msgs_per_packet o) (binary_file_completion_policy o)).
Proof.
  pose proof (ReplayProps.make_consumed file path sess (msgs_per_packet o) (binary_file_completion_policy o) Hsess (proj1 Hn) Hb) as Hc.
  split; [split; [done|split; [by eapply consumed_front|left; by split]]|]. by split_and!; try apply Hn.
Qed.

(** The end of a session that was read completely. *)
Lemma endSession_spec x : end_of_session_packets_sent (stats x) = 0 → 1 <= end_of_session_packet_count o <= 1000000 →
  match endSession o x with
  | inl _ => True
  | inr (sent, x') => sent = true → transmission_failed x' = false →
      transmission_failed x = false ∧ runs (world x) ≠ 0%nat ∧ ItchMoldUdpSource.completed (source x) = true ∧
      copies (Z.to_nat (end_of_session_packet_count o))
        (makeMoldEndOfSessionPacket sess (ItchMoldUdpSource.next_seq (source x))) x x'
  end.
Proof.
  intros A3 Hc. unfold endSession. destruct (_ && _) eqn:E; [|done]. apply andb_true_iff in E as [E1 E2%negb_true_iff].
  set (seq := ItchMoldUdpSource.next_seq _). set (p := makeMoldEndOfSessionPacket _ _).
  pose proof (endLoop_spec (S (runs (world x))) 0 x p seq None ltac:(lia) (proj2 Hc) A3) as Hl.
  destruct (endLoop _ _ _ _ _ _ _) as [|x1]; [exact I|]. cbn [mbind throw_bind].
  destruct Hl as (k&Hk&H0&Hcp). rewrite Hk. intros Ek%Z.eqb_eq Hf.
  change (MoldUdpEndOfSessionSchedule.packet_count _) with (end_of_session_packet_count o) in Ek.
  split; [done|]. split; [intros Hr; specialize (H0 Hr); lia|]. split; [done|].
  by replace (Z.to_nat (end_of_session_packet_count o)) with k by lia.
Qed.

Lemma sourced_archive ms s : sourced ms s → ItchMoldUdpSource.completed s = true →
  archive (binary_file_completion_policy o) ms file.
Proof.
  intros ((_&_&[[Hc _]|[(_&_&_&Ha)|(_&Hf&_)]])&_) E; [|done|congruence].
  destruct (cs_fresh _ _ _ Hc) as (_&Hf&_). congruence.
Qed.

End sender.

Section session.
Context {Double : Type} (scaledDelay : Z → Double → Z) (o : @Options Double) (file : list Z).

(** What [parseOptions] and the file system guarantee. *)
Record valid_session : Prop := {
  vs_bytes : bytes file;
  vs_length : Z.of_nat (length file) < 2 ^ 63;
  vs_messages : 0 < msgs_per_packet o < 65536;
  vs_session : (length (session o) <= 10)%nat;
  vs_end : 1 <= end_of_session_packet_count o <= 1000000 }.

Lemma run_complete path w : valid_session →
  match run scaledDelay o (Some file) path w with
  | inr (true, x) => ∃ ms body,
      archive (binary_file_completion_policy o) ms file ∧ flow (session o) 1 body ms ∧
      wire_a (link x) = body ++ replicate (Z.to_nat (end_of_session_packet_count o))
        (makeMoldEndOfSessionPacket (session o) (1 + Z.of_nat (length ms))) ∧
      wire_b (link x) = if redundant o then wire_a (link x) else []
  | _ => True
  end.
Proof.
  intros [Hb Hlen Hn Hs He]. unfold run. set (premarket := if negb (bool_decide _) then _ else _).
  set (s := ItchMoldUdpSource.make (Some file) path (session o) (msgs_per_packet o) _).
  destruct (negb (ItchMoldUdpSource.isOpen s)); [exact I|].
  pose proof (make_sourced o file Hb Hn Hs path) as Hso. fold s in Hso.
  set (x0 := make o s w). assert (aligned o file [] x0) as H0.
  { split; [exact Hso|]. split; [|done]. intros _. split; [constructor|]. cbn. by destruct (redundant o). }
  pose proof (startup_spec o x0 (sourced_seq o file [] s Hso)) as Hst.
  destruct (startup o x0) as [|x1]; [exact I|]. cbn [mbind throw_bind].
  pose proof (waits_aligned o file [] 1 x0 x1 eq_refl Hst H0) as H1.
  pose proof (dataLoop_spec scaledDelay o file Hlen Hn Hs premarket (S (runs (world x1))) x1 (ex_intro _ [] H1)) as Hd.
  destruct (dataLoop _ _ _ _ _) as [|x2]; [exact I|]. cbn [mbind throw_bind]. destruct Hd as [E2 Hd].
  pose proof (endSession_spec o file Hs x2 E2 He) as Hend.
  destruct (endSession o x2) as [|[sent x3]]; [exact I|]. cbn [mbind throw_bind].
  destruct (exitSuccess o x3 sent) eqn:Ex; [|exact I]. unfold exitSuccess in Ex.
  repeat (apply andb_true_iff in Ex as [Ex ?]). subst sent.
  assert (transmission_failed x3 = false) as Hf3 by (by apply negb_true_iff).
  destruct (Hend eq_refl Hf3) as (Hf2&Hr2&Hc2&_&Hcp). destruct (Hcp Hf3) as (_&Ea&Eb).
  destruct Hd as [[Hh|Hh]|(ms&A1&A2&_)]; [congruence|done|]. destruct (A2 Hf2) as [Hfl Ew].
  rewrite (sourced_seq o file ms _ A1) in Ea, Eb.
  exists ms, (wire_a (link x2)). split; [by apply (sourced_archive o file ms (source x2))|]. split; [done|]. split; [done|].
  rewrite Eb, Ea, Ew. by destruct (redundant o).
Qed.
End session.
End SenderProps.
