(* ===== verification/SenderSession.v ===== *)
(** The sender and its receiver: what an exit code of success promises about the lines,
    what a decoder makes of that traffic, and that an unpaced sender gets there. *)
From stdpp Require Import base list strings.
From Stdlib Require Import ZArith Lia Ascii Sorted.
From S2P Require Import Prelude Gap Protocol Capacity Parser Decoder DecoderInv DecoderProps Replay ReplayInv ReplayProps.
From S2P Require Import SessionProps Schedule Handoff SenderConfig SenderConfigProps Sender SenderProps.
#[local] Open Scope Z_scope.
#[local] Open Scope astra_scope.

Module SenderSession.
Import Protocol ReplayInv ReplayProps SenderConfig SenderProps.

(** ** A decoder on one of the lines *)

Section decoded.
Context {B : Type} `{RecoveryBuffer B} {P : Type} `{MessageSink P}.
Context (elapsed : Z → Z) (name : list Z) (Hse : (length name <= 10)%nat) (p0 : P).
Import MoldUdpDecoder DecoderInv DecoderProps SessionProps.
Abbreviation sess := (ItchMoldUdpSource.padSession name).

(** The traffic of a session, heartbeats included, is decoded without an error or a gap. *)
Lemma in_line_flow ms wire before after arrivals (d : MoldUdpDecoder.t B P) :
  Forall record_ok ms → Z.of_nat (length ms) < 2 ^ 63 → ms = before ++ after →
  (∀ i, (0 < i <= length ms)%nat → ms_error (handle_all (take i ms) p0) = ""%string) →
  flow name (1 + Z.of_nat (length before)) wire after → arrivals.*1 = Some <$> wire →
  in_line (numbered ms) 1 p0 sess d → next_expected_seq (channel d) = 1 + Z.of_nat (length before) →
  quiet elapsed d arrivals ∧ in_line (numbered ms) 1 p0 sess (run elapsed d arrivals) ∧
  next_expected_seq (channel (run elapsed d arrivals)) = 1 + Z.of_nat (length ms).
Proof.
  intros Hok Hlen Ems Hclean Hp. remember (1 + Z.of_nat (length before)) as first eqn:Ef.
  revert before arrivals d Ef Ems.
  induction Hp as [first|first wire after Hp IH|first cur wire after Hne Hsz Hp IH]; intros before arrivals d Ef Ems Ha Hd He.
  { rewrite (right_id [] (++)) in Ems. subst before. destruct arrivals; [|done]. split; [done|]. split; [done|]. by rewrite <- Ef. }
  all: destruct arrivals as [|[pk ticks] arrivals]; [done|]; injection Ha as -> Ha; subst first.
  all: match goal with |- quiet _ _ ((?p, ?t) :: _) ∧ _ =>
    change (run elapsed d ((p, t) :: arrivals)) with (run elapsed (snd (processPacket elapsed d p t)) arrivals) end.
  - assert (fits 64 (1 + Z.of_nat (length before))) as Hfit by (rewrite Ems, length_app in Hlen; unfold fits; lia).
    pose proof (in_line_heartbeat elapsed sess (ReplayProps.padSession_length name) (numbered ms) p0 name _ d ticks eq_refl Hse Hfit Hd He) as (Hq&Hd'&He').
    destruct (IH before arrivals _ eq_refl Ems Ha Hd' He') as [Hq' ?]. done.
  - pose proof (in_line_data elapsed sess (ReplayProps.padSession_length name) p0 ms before cur after d ticks Hok Hlen Ems Hne
      Hsz Hclean Hd He) as (Hq&Hd'&He').
    edestruct (IH (before ++ cur) arrivals) as [Hq' ?]; [rewrite length_app; lia|by rewrite <- (assoc_L (++))|done|exact Hd'|exact He'|].
    done.
Qed.

(** After the end of the stream nothing changes. *)
Lemma ended_run arrivals (d : MoldUdpDecoder.t B P) :
  endOfStreamAccepted d = true → run elapsed d arrivals = d.
Proof.
  intros Hd. induction arrivals as [|pk arrivals IH]; [done|]. apply bool_decide_eq_true in Hd.
  change (run elapsed (snd (processPacket elapsed d pk.1 pk.2)) arrivals = d).
  assert (snd (processPacket elapsed d pk.1 pk.2) = d) as E.
  { unfold processPacket. by rewrite Hd. }
  by rewrite E.
Qed.

(** A whole session: the traffic, then copies of the end marker. *)
Lemma session_decoded ms wire k arrivals id :
  Forall record_ok ms → Z.of_nat (length ms) < 2 ^ 63 → ms ≠ [] → (0 < k)%nat →
  (∀ i, (0 < i <= length ms)%nat → ms_error (handle_all (take i ms) p0) = ""%string) →
  ms_phase (handle_all ms p0) = EndOfMessages → flow name 1 wire ms →
  arrivals.*1 = Some <$> (wire ++ replicate k (makeMoldEndOfSessionPacket name (1 + Z.of_nat (length ms)))) →
  let d := run (B := B) elapsed (make p0 id 1) arrivals in
  endOfStreamAccepted d = true ∧ parser d = handle_all ms p0.
Proof.
  intros Hok Hlen Hne Hk Hclean Hphase Hf Ha. rewrite fmap_app in Ha.
  apply fmap_app_inv in Ha as (as1&as2&Ha1&Ha2&->). destruct k as [|k]; [lia|].
  destruct as2 as [|[pk ticks] as2]; [done|]. cbn [replicate fmap list_fmap fst] in Ha2. injection Ha2 as Epk Ha2. subst pk.
  pose proof (in_line_flow ms wire [] ms as1 (make (B := B) p0 id 1) Hok Hlen eq_refl Hclean Hf (eq_sym Ha1)
    (make_in_line (numbered ms) 1 p0 ltac:(lia) _ id ltac:(done)) eq_refl) as (_&Hl&He).
  set (d1 := run elapsed _ as1) in *. set (end_ := 1 + _) in *.
  assert (parser d1 = handle_all ms p0) as Hpar.
  { rewrite (lv_applied _ _ _ _ _ (il_live _ _ _ _ _ Hl)), He. unfold upto, end_. by rewrite numbered_all by lia. }
  assert (0 < length ms)%nat as Hpos by (destruct ms; [done|cbn; lia]).
  destruct (control_fields name end_ kEndOfSessionMessageCount) as (Hs1&Hs2&Hs3&Hs4); [unfold end_, fits; lia|done|].
  rewrite sessionField_pad in Hs2 by done.
  destruct (in_line_end elapsed (numbered ms) 1 p0 _ d1 (makeMoldEndOfSessionPacket name end_) ticks Hl Hs2) as (_&Hend&Hsame).
  - unfold kHeaderSize in Hs1. unfold makeMoldEndOfSessionPacket. lia.
  - done.
  - unfold makeMoldEndOfSessionPacket. congruence.
  - rewrite He. unfold end_. lia.
  - rewrite (lv_phase _ _ _ _ _ (il_live _ _ _ _ _ Hl)) by (rewrite He; unfold end_; lia). by rewrite Hpar.
  - cbn zeta. rewrite run_app. fold d1. set (res := processPacket _ _ _ _) in *.
    change (run elapsed d1 (_ :: as2)) with (run elapsed (snd res) as2). rewrite ended_run by exact Hend. split; [exact Hend|]. rewrite Hsame. exact Hpar.
Qed.

End decoded.

(** ** The unpaced sender finishes *)

Section unpaced.
Import Sender.
Context {Double : Type} (scaledDelay : Z → Double → Z) (o : @Options Double).

(** No pacing option is in effect. *)
Record unpaced : Prop := {
  up_rate : pkts_per_second o = 0;
  up_idle : idle_heartbeat_interval_ms o = 0;
  up_startup : startup_heartbeat_interval_ms o = 0;
  up_end : end_of_session_interval_ms o = 0;
  up_pause : ss_pause_seconds o = 0;
  up_mode : replay_mode o = ReplayOff }.
Hypothesis Hup : unpaced.

(** A world in which the next [n] actions of each kind go well: nobody stops the program,
    the lines accept, and the clock does not run backwards. *)
Record cooperative (n : nat) (w : World) : Prop := {
  rd_runs : (n <= runs w)%nat;
  rd_outs : (n <= length (outs w))%nat;
  rd_clocks : (n <= length (clocks w))%nat;
  rd_sent : Forall (λ out, out = (true, true)) (outs w);
  rd_sorted : StronglySorted Z.le (clocks w) }.
Definition ready (n : nat) (x : t) : Prop := cooperative n (world x).

(** The counters of the lines and of the report agree. *)
Record tallied (x : t) : Prop := {
  ta_ok : transmission_failed x = false;
  ta_a : RedundantUdpSender.packets_sent (line_a (link x)) = logical_packets (stats x) ∧
         RedundantUdpSender.messages_sent (line_a (link x)) = logical_messages (stats x) ∧
         RedundantUdpSender.send_failures (line_a (link x)) = 0;
  ta_b : RedundantUdpSender.send_failures (line_b (link x)) = 0 ∧
         if redundant o then RedundantUdpSender.packets_sent (line_b (link x)) = logical_packets (stats x) ∧
                             RedundantUdpSender.messages_sent (line_b (link x)) = logical_messages (stats x) else True;
  ta_fits : u64 (logical_messages (stats x)) = logical_messages (stats x);
  ta_pacing : MoldUdpPacketRateSchedule.interval (packet_rate_schedule (pacing x)) = 0 ∧
              MoldUdpHeartbeatSchedule.interval (heartbeat_schedule (pacing x)) = 0 ∧
              premarket_active (pacing x) = false ∧ ss_pause_pending (pacing x) = false }.

Lemma ready_le n m x : (n <= m)%nat → ready m x → ready n x.
Proof. intros Hle []. split; try done; lia. Qed.

Lemma load_ready n x : ready (S n) x → load x = (true, (load x).2) ∧ ready n (load x).2.
Proof.
  intros [H1 H2 H3 H4 H5]. split; [unfold load; cbn; by rewrite (proj2 (Nat.eqb_neq _ _)) by lia|].
  split; cbn; try done; lia.
Qed.

(** The readings that follow are not earlier. *)
Lemma now_ready n x : ready (S n) x → ready n (now x).2 ∧ Forall (Z.le (now x).1) (clocks (world (now x).2)).
Proof.
  intros [H1 H2 H3 H4 H5]. destruct x as [s p l st f [r c ot]]. cbn [world runs outs clocks] in *.
  destruct c as [|c0 c]; [cbn in H3; lia|]. apply StronglySorted_inv in H5 as [H5 H6].
  cbn [length] in H3. split; [|exact H6]. split; cbn; try done; lia.
Qed.

(** A packet that is sent and counted. *)
Lemma transmit_ready n x p k : ready (S n) x → tallied x →
  let '(sent, x') := transmit o x p k in sent = true ∧ ready n x' ∧ source x' = source x ∧
    clocks (world x') = clocks (world x) ∧ pacing x' = pacing x ∧
    ∀ s, logical_packets s = u64 (logical_packets (stats x) + 1) → logical_messages s = u64 (logical_messages (stats x) + k) →
      tallied (with_stats x' s).
Proof.
  intros [H1 H2 H3 H4 H5] [T1 (T2&T3&T4) (T5&T6) T7 T8]. unfold transmit.
  destruct x as [s pc [a b wa wb] st f [r c ot]]. cbn [world runs outs clocks link line_a line_b wire_a wire_b stats pacing
    transmission_failed source head] in *.
  destruct ot as [|out ot]; [cbn in H2; lia|]. apply Forall_cons in H4 as [-> H4]. cbn [length] in H2. cbn [head default].
  assert (∀ l, ready n (mk s pc l st f (mkWorld r c (tail ((true, true) :: ot))))) as Hr by (intros l; split; cbn; try done; lia).
  destruct (redundant o) eqn:Er; cbn [with_world with_link andb].
  all: split; [done|]; split; [apply Hr|]; split; [done|]; split; [done|]; split; [done|]; intros s' E1 E2; split; cbn; try done.
  all: rewrite ?E1, ?E2, ?Er; try (exact (u64_id _ (u64_fits _))).
  all: split_and!; try done; congruence || destruct T6; congruence.
Qed.

Lemma control_ready n x p seq : ready (S n) x → tallied x →
  let '(sent, x') := send_control_packet o x p seq in sent = true ∧ ready n x' ∧ tallied x' ∧ source x' = source x ∧
    clocks (world x') = clocks (world x) ∧ end_of_session_packets_sent (stats x') = end_of_session_packets_sent (stats x).
Proof.
  intros Hr Ht. pose proof (transmit_spec o x p 0) as Hs. pose proof (transmit_ready n x p 0 Hr Ht) as H.
  unfold send_control_packet.
  destruct (transmit o x p 0) as [sent x']. destruct H as (->&Hr'&Es&Ec&Ep&Hst). cbn [negb]. destruct Hs as (_&E2&_).
  split; [done|]. split; [destruct Hr'; by split|]. split; [|split; [done|split; [done|cbn; by rewrite E2]]].
  apply Hst; cbn; rewrite E2; [done|]. rewrite Z.add_0_r. symmetry. apply Ht.
Qed.

Lemma pacing_tallied x s p : tallied x → MoldUdpPacketRateSchedule.interval (packet_rate_schedule p) = 0 →
  MoldUdpHeartbeatSchedule.interval (heartbeat_schedule p) = 0 →
  premarket_active p = false → ss_pause_pending p = false → tallied (with_source (with_pacing x p) s).
Proof. intros [] ? ? ? ?. by split. Qed.

Lemma startupLoop_ready fuel index n x p deadline : 0 <= index → tallied x →
  ready (2 * Z.to_nat (startup_heartbeat_count o - index) + n) x → (runs (world x) < fuel)%nat →
  ∃ x', startupLoop o fuel index x p deadline = inr x' ∧ ready n x' ∧ tallied x' ∧ source x' = source x ∧
    end_of_session_packets_sent (stats x') = end_of_session_packets_sent (stats x).
Proof.
  revert index x deadline. induction fuel as [|fuel IH]; intros index x deadline Hi Ht Hr Hf; [lia|]. cbn [startupLoop].
  destruct (Z.ltb_spec index (startup_heartbeat_count o)) as [Hlt|]; cbn [negb].
  2: { exists x. split_and!; try done. by eapply ready_le; [|done]; lia. }
  set (k := Z.to_nat (startup_heartbeat_count o - (index + 1))).
  replace (2 * Z.to_nat _ + n)%nat with (S (S (2 * k + n))) in Hr by lia.
  destruct (load_ready _ x Hr) as [El Hr1]. assert (tallied (load x).2) as Ht1 by (by destruct Ht).
  assert (runs (world (load x).2) = Nat.pred (runs (world x))) as Er by done.
  pose proof (rd_runs _ _ Hr) as Hrun. rewrite El. set (x1 := (load x).2) in *. cbn [negb].
  pose proof (control_ready _ x1 p (ItchMoldUdpSource.next_seq (source x1)) Hr1 Ht1) as Hs.
  pose proof (control_spec o x1 p (ItchMoldUdpSource.next_seq (source x1))) as Hk.
  destruct (send_control_packet _ _ _ _) as [sent x2]. destruct Hs as (->&Hr2&Ht2&Es&_&Ee). destruct Hk as ((_&_&Hle&_)&_).
  cbn [negb]. rewrite (up_startup Hup). change (0 <? 0 * 1000000) with false. cbn iota.
  destruct (IH (index + 1) (countStartup x2) deadline) as (x'&E&Hr'&Ht'&Es'&Ee'); [lia|by destruct Ht2|by destruct Hr2|cbn; lia|].
  exists x'. split_and!; try done; [by rewrite Es'; cbn; rewrite Es|by rewrite Ee'; cbn; rewrite Ee].
Qed.

Lemma now_tallied x : tallied x → tallied (now x).2.
Proof. by intros []. Qed.

Lemma startup_ready n x : tallied x → ready (S (2 * Z.to_nat (startup_heartbeat_count o) + S n)) x →
  ∃ x', startup o x = inr x' ∧ ready n x' ∧ tallied x' ∧ source x' = source x ∧
    end_of_session_packets_sent (stats x') = end_of_session_packets_sent (stats x).
Proof.
  intros Ht Hr. unfold startup. set (first := if negb _ then _ else _).
  assert (∃ x', first = inr x' ∧ ready (S n) x' ∧ tallied x' ∧ source x' = source x ∧
    end_of_session_packets_sent (stats x') = end_of_session_packets_sent (stats x)) as (x1&->&Hr1&Ht1&Es&Ee).
  { unfold first. destruct (negb _); [|exists x; split_and!; try done; by eapply ready_le; [|done]; lia].
    destruct (now_ready _ x Hr) as [Hr1 _]. pose proof (now_tallied x Ht) as Ht1.
    destruct (now x) as [time x1] eqn:En. cbn [fst snd] in *.
    destruct (startupLoop_ready (S (runs (world x1))) 0 (S n) x1
      (makeMoldHeartbeatPacket (session o) (ItchMoldUdpSource.next_seq (source x))) time) as (x2&E&H2);
      [done|done|by rewrite Z.sub_0_r|lia|].
    exists x2. injection En as _ <-. exact (conj E H2). }
  cbn [mbind throw_bind]. destruct (ta_pacing _ Ht1) as (P1&P2&P3&P4).
  replace (MoldUdpHeartbeatSchedule.enabled _) with false by (unfold MoldUdpHeartbeatSchedule.enabled; by rewrite P2).
  cbn [andb]. destruct (now_ready _ x1 Hr1) as [Hr2 _]. pose proof (now_tallied x1 Ht1) as Ht2.
  assert (source (now x1).2 = source x1 ∧ stats (now x1).2 = stats x1) as [E1 E2] by done.
  destruct (now x1) as [time x2]. cbn [fst snd] in *. eexists. split; [done|].
  split; [by destruct Hr2|]. split; [|split; cbn; congruence].
  destruct Ht2 as [? ? ? ? (?&?&?&?)]. by split.
Qed.

(** ** The data packets *)

Variable premarket : PremarketWindow.

Lemma unpaced_window : premarket_enabled o premarket = false.
Proof. unfold premarket_enabled, premarket_interval. by rewrite (up_mode Hup). Qed.

Lemma sendNext_ready n x p s' : tallied x → ready (S (S n)) x → ItchMoldUdpSource.next (source x) = (Some p, s') →
  ∃ x', sendNext scaledDelay o premarket x = inr (true, x') ∧ ready n x' ∧ tallied x' ∧ source x' = s' ∧
    runs (world x') = runs (world x) ∧ end_of_session_packets_sent (stats x') = end_of_session_packets_sent (stats x).
Proof.
  intros Ht Hr En. unfold sendNext. rewrite En. set (x0 := with_source x s').
  assert (tallied x0 ∧ ready (S (S n)) x0) as [Ht0 Hr0] by (destruct Ht, Hr; by split).
  destruct (ta_pacing _ Ht0) as (P1&P2&P3&P4). rewrite unpaced_window, P4. cbn [orb].
  unfold premarketWait. rewrite P3. cbn [negb mbind throw_bind].
  pose proof (transmit_ready _ x0 p (readU16BE p 18) Hr0 Ht0) as Hs. pose proof (transmit_spec o x0 p (readU16BE p 18)) as Hk.
  destruct (transmit _ _ _ _) as [sent x1]. destruct Hs as (->&Hr1&Es&_&Ep&Hst). destruct Hk as (_&E2&_&E5&_). cbn [negb].
  set (x2 := countData x1 _ _). assert (tallied x2) as Ht2 by (apply Hst; cbn; by rewrite E2).
  assert (ready (S n) x2) as Hr2 by (by destruct Hr1). unfold afterPacket.
  destruct (now_ready _ x2 Hr2) as [Hr3 _]. pose proof (now_tallied x2 Ht2) as Ht3.
  assert (source (now x2).2 = s' ∧ runs (world (now x2).2) = runs (world x) ∧
    end_of_session_packets_sent (stats (now x2).2) = end_of_session_packets_sent (stats x)) as (E3&E4&E6)
    by (split; [exact Es|split; [exact E5|cbn; by rewrite E2]]).
  destruct (now x2) as [time x3]. cbn [fst snd] in *. destruct (ta_pacing _ Ht3) as (Q1&Q2&_&_).
  replace (MoldUdpHeartbeatSchedule.enabled _) with false by (unfold MoldUdpHeartbeatSchedule.enabled; by rewrite Q2).
  unfold ordinarySend. replace (MoldUdpPacketRateSchedule.enabled _) with false
    by (unfold MoldUdpPacketRateSchedule.enabled; by rewrite Q1).
  cbn [andb mbind throw_bind contains_ss contains_sq noTiming negb]. exists x3. split; [done|]. by split_and!.
Qed.

Lemma dataLoop_ready ms fuel n x : tallied x → ready (S (3 * length ms) + n) x → (runs (world x) < fuel)%nat →
  0 < ItchMoldUdpSource.msgs_per_packet (source x) < 65536 →
  (pending (source x) ms ∧ ItchMoldUdpSource.last_message_was_end_of_messages (source x) = false) ∨
    (finished (source x) ∧ ms = []) →
  ∃ x', dataLoop scaledDelay o premarket fuel x = inr x' ∧ ready n x' ∧ tallied x' ∧
    ItchMoldUdpSource.completed (source x') = true ∧
    end_of_session_packets_sent (stats x') = end_of_session_packets_sent (stats x).
Proof.
  remember (length ms) as k eqn:Ek. revert ms fuel x Ek.
  induction k as [k IH] using (well_founded_induction lt_wf). intros ms fuel x -> Ht Hr Hf Hm Hs.
  destruct fuel as [|fuel]; [lia|]. cbn [dataLoop]. destruct (load_ready _ x Hr) as [El Hr1].
  assert (tallied (load x).2) as Ht1 by (by destruct Ht). assert (source (load x).2 = source x) as Es1 by done.
  assert (stats (load x).2 = stats x) as Et1 by done.
  assert (runs (world (load x).2) = Nat.pred (runs (world x))) as Er by done. pose proof (rd_runs _ _ Hr) as Hrun.
  rewrite El. set (x1 := (load x).2) in *. rewrite (ta_ok _ Ht1). cbn [negb andb].
  destruct Hs as [[Hp Hl]|[(He&_&Hc) ->]].
  - rewrite <- Es1 in Hp, Hl, Hm. destruct (next_spec _ ms Hp Hl Hm) as (cur&rest&s'&En&->&Hne&_&_&_&_&Hout).
    assert (0 < length cur)%nat as Hpos by (destruct cur; [done|cbn; lia]). rewrite length_app in *.
    assert (ready (S (S (S (3 * length rest) + n))) x1) as Hr1' by 
      (apply (ready_le _ (3 * (length cur + length rest) + n)); [lia|exact Hr1]).
    destruct (sendNext_ready _ x1 _ s' Ht1 Hr1' En) as (x2&E&Hr2&Ht2&Es2&Er2&Ee2).
    rewrite E. cbn [mbind throw_bind negb]. pose proof (next_size (source x1)) as Hsz. rewrite En in Hsz. cbn [snd] in Hsz.
    destruct (IH (length rest) ltac:(lia) rest fuel x2 eq_refl Ht2 Hr2) as (x'&E'&Hr'&Ht'&Hc'&Ee').
    + rewrite Er2. lia.
    + by rewrite Es2, Hsz.
    + by rewrite Es2.
    + exists x'. rewrite Ee', Ee2, Et1. by split_and!.
  - unfold sendNext. rewrite Es1. assert (ItchMoldUdpSource.next (source x) = (None, source x)) as En
      by (unfold ItchMoldUdpSource.next; by rewrite He).
    rewrite En. cbn [mbind throw_bind negb]. eexists. split; [done|]. split; [destruct Hr1; by split|].
    split; [destruct Ht1; by split|]. done.
Qed.

(** ** The end of the session *)

Lemma endLoop_ready n fuel index x p seq previous : 0 <= index → tallied x →
  end_of_session_packet_count o <= 1000000 → end_of_session_packets_sent (stats x) = index →
  ready (5 * Z.to_nat (end_of_session_packet_count o - index) + n) x → (runs (world x) < fuel)%nat →
  match previous with None => True | Some at_ => Forall (Z.le at_) (clocks (world x)) end →
  index <= end_of_session_packet_count o →
  ∃ x', endLoop o fuel index x p seq previous = inr x' ∧ ready n x' ∧ tallied x' ∧ source x' = source x ∧
    end_of_session_packets_sent (stats x') = end_of_session_packet_count o.
Proof.
  revert index x previous. induction fuel as [|fuel IH]; intros index x previous Hi Ht Hc He Hr Hf Hpr Hic; [lia|].
  cbn [endLoop]. change (MoldUdpEndOfSessionSchedule.packet_count _) with (end_of_session_packet_count o).
  destruct (Z.ltb_spec index (end_of_session_packet_count o)) as [Hlt|]; cbn [negb].
  2: { exists x. split_and!; try done; [|lia]. by eapply ready_le; [|done]; lia. }
  set (k := Z.to_nat (end_of_session_packet_count o - (index + 1))).
  replace (5 * Z.to_nat _ + n)%nat with (S (S (S (S (S (5 * k + n)))))) in Hr by lia.
  destruct (load_ready _ x Hr) as [El Hr1]. assert (tallied (load x).2) as Ht1 by (by destruct Ht).
  assert (runs (world (load x).2) = Nat.pred (runs (world x))) as Er by done. pose proof (rd_runs _ _ Hr) as Hrun.
  rewrite El. set (x1 := (load x).2) in *. cbn [negb].
  set (due := match previous with None => _ | Some _ => _ end).
  assert (∃ w, due = inr (true, with_world x1 w) ∧ ready (S (S (5 * k + n))) (with_world x1 w) ∧ (runs w <= runs (world x1))%nat)
    as (w&->&Hr2&Hw).
  { unfold due. clear due. destruct previous as [at_|].
    2: { exists (world x1). split; [by destruct x1|]. split; [|done]. destruct x1. by eapply ready_le; [|exact Hr1]; lia. }
    unfold MoldUdpEndOfSessionSchedule.checkedDeadlineAfterSend, MoldUdpEndOfSessionSchedule.checkedDeadline, end_of_session_schedule.
    cbn [MoldUdpEndOfSessionSchedule.interval]. rewrite (up_end Hup). change ((1 =? 0) || (0 * 1000000 <=? 0)) with true. cbn iota.
    unfold sleepUntilOrStopped. cbn [sleepLoop]. destruct (load_ready _ x1 Hr1) as [El2 Hr2]. rewrite El2. cbn [negb].
    destruct (now_ready _ _ Hr2) as [Hr3 _]. assert (at_ <= (now (load x1).2).1) as Hle.
    { pose proof (rd_clocks _ _ Hr) as Hcl. unfold now. cbn. destruct (clocks (world x)) as [|c0 cs]; [cbn in Hcl; lia|].
      by apply Forall_cons in Hpr as [? _]. }
    destruct (now (load x1).2) as [time x2] eqn:En. cbn [fst snd] in *. rewrite (proj2 (Z.leb_le _ _) Hle).
    exists (world x2). injection En as _ <-. split; [done|]. split; [exact Hr3|cbn; lia]. }
  cbn [mbind throw_bind negb]. set (x2 := with_world x1 w) in *. assert (tallied x2) as Ht2 by (by destruct Ht1).
  pose proof (control_ready _ x2 p seq Hr2 Ht2) as Hs. pose proof (control_spec o x2 p seq) as Hk.
  destruct (send_control_packet _ _ _ _) as [sent x3]. destruct Hs as (->&Hr3&Ht3&Es&_&Ee). destruct Hk as ((_&_&Hle&_)&_).
  cbn [negb]. destruct (now_ready _ x3 Hr3) as [Hr4 Hcl]. pose proof (now_tallied x3 Ht3) as Ht4.
  assert (source (now x3).2 = source x3 ∧ stats (now x3).2 = stats x3 ∧ runs (world (now x3).2) = runs (world x3)) as (E1&E2&E3) by done.
  destruct (now x3) as [time x4]. cbn [fst snd] in *.
  assert (end_of_session_packets_sent (stats x3) = index) as Ei by (rewrite Ee; exact He).
  destruct (IH (index + 1) (countEnd x4 index seq) (Some time)) as (x'&E&Hr'&Ht'&Es'&Ee').
  all: try lia.
  - destruct Ht4; by split.
  - cbn. rewrite E2, Ei. apply u64_id. unfold fits. lia.
  - destruct Hr4; by split.
  - cbn. rewrite E3. cbn in Hle. lia.
  - exact Hcl.
  - exists x'. split_and!; try done. rewrite Es'. cbn. by rewrite E1, Es.
Qed.


End unpaced.

Section properties.
Import Sender.
Context {Double : Type} (scaledDelay : Z → Double → Z) (o : @Options Double) (file : list Z) (path : string).

(** Options from the command line are valid. *)
Lemma accepted_valid : SenderConfigProps.accepted o → bytes file → Z.of_nat (length file) < 2 ^ 63 → valid_session o file.
Proof. intros [] Hb Hl. split; try done. naive_solver. Qed.

(** C18. When the sender exits with success, the file was a complete
    archive of some messages and line A carried, from sequence 1 on, data packets with all
    of them in order, with heartbeats for the next sequence between them, and then exactly
    the configured number of end-of-session packets for the sequence after the last
    message; in redundant mode line B carried the same packets, otherwise nothing.  This
    holds for all pacing options, all clock readings and all moments of interruption. *)
Theorem sender_complete w x : valid_session o file →
  run scaledDelay o (Some file) path w = inr (true, x) →
  ∃ ms body, archive (binary_file_completion_policy o) ms file ∧ flow (session o) 1 body ms ∧
    wire_a (link x) = body ++ replicate (Z.to_nat (end_of_session_packet_count o))
      (makeMoldEndOfSessionPacket (session o) (1 + Z.of_nat (length ms))) ∧
    wire_b (link x) = if redundant o then wire_a (link x) else [].
Proof. intros Hv E. pose proof (run_complete scaledDelay o file path w Hv) as H. by rewrite E in H. Qed.

(** C19. A sender without pre-market replay whose rate, pause and control intervals are all
    zero succeeds on every complete archive: if nobody stops it, the lines accept its
    packets and the clock does not run backwards, it announces the session, sends the
    archive and the end of the session, and exits with success after a number of steps linear in the messages and the control packets. *)
Theorem sender_finishes ms w : valid_session o file → unpaced o → 0 <= startup_heartbeat_count o →
  archive (binary_file_completion_policy o) ms file →
  cooperative (5 + 2 * Z.to_nat (startup_heartbeat_count o) + 3 * length ms +
               5 * Z.to_nat (end_of_session_packet_count o)) w →
  ∃ x, run scaledDelay o (Some file) path w = inr (true, x).
Proof.
  intros Hv Hup Hst Harc Hw. destruct Hv as [Hb Hlen Hn Hs He].
  assert (Z.of_nat (length ms) < 2 ^ 63) as Hlm.
  { destruct Harc as (_&_&_&tail&_&E). pose proof (frames_lower ms). rewrite E, length_app in Hlen. lia. }
  unfold run. set (premarket := if negb (bool_decide _) then _ else _).
  set (s := ItchMoldUdpSource.make (Some file) path (session o) (msgs_per_packet o) _).
  pose proof (make_pending file path (session o) (msgs_per_packet o) _ Hs (proj1 Hn) ms Harc Hlm) as Hp. fold s in Hp.
  assert (ItchMoldUdpSource.isOpen s = true) as ->.
  { unfold ItchMoldUdpSource.isOpen. destruct (pn_running s ms Hp) as (_&El&_). rewrite El. done. }
  cbn [negb]. set (x0 := make o s w).
  assert (tallied o x0) as Ht0.
  { split; [done|done|cbn; by destruct (redundant o)|done|]. cbn. destruct Hup as [-> -> _ _ -> _]. done. }
  assert (ready (S (2 * Z.to_nat (startup_heartbeat_count o) +
    S (S (3 * length ms) + (5 * Z.to_nat (end_of_session_packet_count o))))) x0) as Hr0.
  { unfold x0, make. set (x := mk _ _ _ _ _ _).
    assert (ready (5 + 2 * Z.to_nat (startup_heartbeat_count o) + 3 * length ms +
               5 * Z.to_nat (end_of_session_packet_count o)) x) as Hr by exact Hw.
    destruct (now_ready _ x Hr) as [Hr1 _]. destruct (now x) as [next_send x1]. cbn [snd] in Hr1.
    destruct (now_ready _ x1 Hr1) as [Hr2 _]. destruct (now x1) as [start x2]. cbn [snd] in Hr2.
    apply (ready_le _ (3 + 2 * Z.to_nat (startup_heartbeat_count o) + 3 * length ms +
               5 * Z.to_nat (end_of_session_packet_count o))); [lia|exact Hr2]. }
  destruct (startup_ready o Hup _ x0 Ht0 Hr0) as (x1&E1&Hr1&Ht1&Es1&Ee1). rewrite E1. cbn [mbind throw_bind].
  destruct (dataLoop_ready scaledDelay o Hup premarket ms (S (runs (world x1))) _ x1 Ht1 Hr1) as (x2&E2&Hr2&Ht2&Ec2&Ee2);
    [lia|rewrite Es1; exact Hn|left; rewrite Es1; exact (conj Hp eq_refl)|].
  rewrite E2. cbn [mbind throw_bind]. unfold endSession. rewrite Ec2, (ta_ok _ _ Ht2). cbn [andb negb].
  set (seq := ItchMoldUdpSource.next_seq _). set (p := makeMoldEndOfSessionPacket _ _).
  destruct (endLoop_ready o Hup 0 (S (runs (world x2))) 0 x2 p seq None) as (x3&E3&_&Ht3&Es3&Ee3);
    [done|done|lia|by rewrite Ee2, Ee1|by rewrite Z.sub_0_r, Nat.add_0_r|lia|done|lia|].
  rewrite E3. cbn [mbind throw_bind]. exists x3. do 2 f_equal.
  change (MoldUdpEndOfSessionSchedule.packet_count _) with (end_of_session_packet_count o).
  rewrite Ee3, Z.eqb_refl. unfold exitSuccess. rewrite Es3, Ec2, (ta_ok _ _ Ht3). destruct (ta_a _ _ Ht3) as (->&->& ->).
  destruct (ta_b _ _ Ht3) as (->&Hrb). cbn [negb andb]. destruct (redundant o); [|done].
  destruct Hrb as [-> ->]. by rewrite !Z.eqb_refl.
Qed.

(** A file is the archive of one list of messages. *)
Lemma record_frame m rest : record_ok m → frame m ++ rest = 0 :: Z.of_nat (length m) :: m ++ rest.
Proof.
  intros Hm%record_length. unfold frame, ItchMoldUdpSource.writeU16BE. rewrite !land255, Z.shiftr_div_pow2 by lia.
  rewrite Z.div_small, !Z.mod_small by lia. done.
Qed.

Lemma frames_unique ms ms' tail tail' policy : Forall record_ok ms → Forall record_ok ms' →
  tail_ok policy tail → tail_ok policy tail' → frames ms ++ tail = frames ms' ++ tail' → ms = ms'.
Proof.
  intros H1. revert ms'. induction H1 as [|m ms Hm _ IH]; intros ms' H2 Ht Ht' E; destruct H2 as [|m' ms' Hm' H2].
  - done.
  - rewrite frames_cons, <- app_assoc, record_frame in E by done. pose proof (record_length m' Hm').
    destruct Ht as [->|[_ ->]]; [|done]. injection E as E _. lia.
  - rewrite frames_cons, <- app_assoc, record_frame in E by done. pose proof (record_length m Hm).
    destruct Ht' as [->|[_ ->]]; [|done]. injection E as E _. lia.
  - rewrite !frames_cons, <- !app_assoc, !record_frame in E by done. injection E as El E.
    apply app_inj_1 in E as [-> E]; [|lia]. f_equal. by apply IH.
Qed.

Lemma archive_unique policy ms ms' : archive policy ms file → archive policy ms' file → ms = ms'.
Proof.
  intros (H1&_&_&tail&Ht&E) (H1'&_&_&tail'&Ht'&E'). by apply (frames_unique ms ms' tail tail' policy); [..|rewrite <- E, <- E'].
Qed.

(** The messages of the archive fit the numbers of the protocol. *)
Lemma archive_length policy ms : Z.of_nat (length file) < 2 ^ 63 → archive policy ms file →
  Z.of_nat (length ms) < 2 ^ 63 ∧ ms ≠ [].
Proof.
  intros Hlen (_&Hst&_&tail&_&E). split; [|by intros ->]. pose proof (frames_lower ms). rewrite E, length_app in Hlen. lia.
Qed.

Context {B : Type} `{RecoveryBuffer B} {P : Type} `{MessageSink P} (elapsed : Z → Z).

(** C17. The sender and the decoder agree end to end: when the sender exits
    with success on an archive of [ms], a decoder that receives what a line carried,
    heartbeats and repeated end markers included, accepts the end of the stream and has
    given its parser exactly the messages [ms], each once and in order, provided that the
    parser accepts them and is at end of messages after the last. *)
Theorem sender_to_decoder ms w x (p0 : P) id arrivals : valid_session o file →
  archive (binary_file_completion_policy o) ms file →
  run scaledDelay o (Some file) path w = inr (true, x) →
  (∀ i, (0 < i <= length ms)%nat → ms_error (DecoderInv.handle_all (take i ms) p0) = ""%string) →
  ms_phase (DecoderInv.handle_all ms p0) = EndOfMessages →
  arrivals.*1 = Some <$> wire_a (link x) ∨ redundant o = true ∧ arrivals.*1 = Some <$> wire_b (link x) →
  let d := DecoderProps.run (B := B) elapsed (MoldUdpDecoder.make p0 id 1) arrivals in
  MoldUdpDecoder.endOfStreamAccepted d = true ∧ MoldUdpDecoder.parser d = DecoderInv.handle_all ms p0.
Proof.
  intros Hv Harc E Hclean Hphase Ha. pose proof (run_complete scaledDelay o file path w Hv) as Hr. rewrite E in Hr.
  destruct Hr as (ms'&body&Harc'&Hfl&Ea&Eb), Hv as [_ Hlen _ Hs He].
  rewrite <- (archive_unique _ ms ms' Harc Harc') in Hfl, Ea. destruct (archive_length _ ms Hlen Harc) as [Hlm Hne].
  apply (session_decoded elapsed (session o) Hs p0 ms body (Z.to_nat (end_of_session_packet_count o)));
    [apply Harc|done|done|lia|done|done|done|].
  rewrite <- Ea. destruct Ha as [->|[Er ->]]; [done|]. by rewrite Eb, Er.
Qed.

End properties.

(** ** A short session *)

Section example.
Import Sender.

(** Two start-up heartbeats, two copies of the end marker, both lines. *)
Definition sampleOptions : @Options Z :=
  mkOptions true [] [] 26400 26401 2 sessionA 0 0 0 ReplayOff 1 None 0 2 0 0 2 0 RequireTerminator.
Definition calm : World := mkWorld 60 (replicate 60 7) (replicate 60 (true, true)).
Definition paced (_ : Z) (_ : Z) : Z := 0.

Lemma sample_valid : valid_session sampleOptions shortFile.
Proof.
  split.
  - apply (bool_decide_eq_true_1 _). vm_compute. reflexivity.
  - vm_compute. reflexivity.
  - cbn. lia.
  - cbn. lia.
  - cbn. lia.
Qed.

Lemma sample_run : ∃ x, run paced sampleOptions (Some shortFile) "" calm = inr (true, x).
Proof. eexists. vm_compute. reflexivity. Qed.

Lemma sender_complete_witness :
  ∃ x ms body, archive RequireTerminator ms shortFile ∧ flow sessionA 1 body ms ∧
    wire_b (link x) = wire_a (link x) ∧
    wire_a (link x) = body ++ replicate 2 (makeMoldEndOfSessionPacket sessionA (1 + Z.of_nat (length ms))).
Proof.
  destruct sample_run as [x E]. exists x.
  destruct (sender_complete paced sampleOptions shortFile "" calm x sample_valid E) as (ms&body&Ha&Hf&Ea&Eb).
  exists ms, body. split; [exact Ha|]. split; [exact Hf|]. split; [exact Eb|exact Ea].
Defined.

Lemma sender_finishes_witness : ∃ x, run paced sampleOptions (Some shortFile) "" calm = inr (true, x).
Proof.
  apply (sender_finishes paced sampleOptions shortFile "" shortDay calm sample_valid).
  - split; reflexivity.
  - cbn. lia.
  - exact shortDay_archive.
  - split; [vm_compute; lia|vm_compute; lia|vm_compute; lia| |].
    + by apply (Forall_replicate (λ out, out = (true, true))).
    + cbn. repeat constructor; lia.
Defined.

#[local] Existing Instance DecoderProps.smallBuffer.

Lemma sender_to_decoder_witness : ∃ x,
  let d := DecoderProps.run (B := GapBuffer.t) (λ t, t) (MoldUdpDecoder.make DecoderProps.p1 0 1)
    ((λ p, (Some p, 0)) <$> wire_b (link x)) in
  MoldUdpDecoder.endOfStreamAccepted d = true ∧ MoldUdpDecoder.parser d = DecoderInv.handle_all shortDay DecoderProps.p1.
Proof.
  destruct sample_run as [x E]. exists x.
  apply (sender_to_decoder paced sampleOptions shortFile "" (λ t, t) shortDay calm x DecoderProps.p1 0 _ sample_valid
    shortDay_archive E SessionProps.shortDay_accepted SessionProps.shortDay_ends).
  right. split; [reflexivity|]. rewrite <- list_fmap_compose. reflexivity.
Defined.

End example.
End SenderSession.
