(* ===== verification/Arena.v ===== *)
(** The mapped arenas: [utils/MappedArray.hpp], [utils/MappedObjectArray.hpp] and
    [utils/FixedMmapArray.hpp], for Linux with [MADV_HUGEPAGE] and anonymous-VMA names.

    The address space of the process is a list of mapped regions.  What the kernel decides
    is in the state: how [mmap] will choose addresses, the outcomes of [munmap], [madvise]
    and [prctl], and the page size.  An exception is an [inl] with its text; the state
    survives it, as mappings do. *)
From stdpp Require Import base list strings.
From Stdlib Require Import ZArith Lia.
From S2P Require Import Prelude Bits Capacity.
#[local] Open Scope Z_scope.
#[local] Open Scope astra_scope.

(** ** The address space *)

Definition region : Type := Z * Z.
Definition inRegion (base bytes a : Z) : bool := (base <=? a) && (a <? base + bytes).
Definition mapped (vm : list region) (a : Z) : bool := existsb (λ r, inRegion r.1 r.2 a) vm.

(** What is left of a region without [base, base + bytes). *)
Definition cut (base bytes : Z) (r : region) : list region :=
  filter (λ r : region, 0 < r.2)
    [(r.1, Z.min (r.1 + r.2) base - r.1);
     (Z.max r.1 (base + bytes), r.1 + r.2 - Z.max r.1 (base + bytes))].

Record OS := mkOS {
  regions : list region;
  page_size : Z;
  mmap_results : list (Z → option Z);
  munmap_results : list bool;
  advice_results : list bool;
  munmap_log : list bool }.

(** A call that may throw. *)
Definition M (A : Type) : Type := OS → (string + A) * OS.
#[global] Instance M_ret : MRet M := λ A a os, (inr a, os).
#[global] Instance M_bind : MBind M := λ A B k m os,
  match m os with (inl e, os) => (inl e, os) | (inr a, os) => k a os end.
Definition throw {A} (e : string) : M A := λ os, (inl e, os).

(** [None] is [MAP_FAILED]. *)
Definition mmap (bytes : Z) : M (option Z) := λ os,
  let result := match mmap_results os with [] => None | choose :: _ => choose bytes end in
  (inr result,
   mkOS (match result with Some base => (base, bytes) :: regions os | None => regions os end) (page_size os)
     (tail (mmap_results os)) (munmap_results os) (advice_results os) (munmap_log os)).

(** Whether the call succeeds. *)
Definition munmap (base bytes : Z) : M bool := λ os,
  let ok := default true (head (munmap_results os)) in
  (inr ok,
   mkOS (if ok then mjoin (cut base bytes <$> regions os) else regions os) (page_size os)
     (mmap_results os) (tail (munmap_results os)) (advice_results os) (munmap_log os ++ [ok])).

(** [madvise] and [prctl]. *)
Definition advise : M bool := λ os,
  (inr (default true (head (advice_results os))),
   mkOS (regions os) (page_size os) (mmap_results os) (munmap_results os) (tail (advice_results os)) (munmap_log os)).

Module MappedArray.

Record t := mk {
  count : Z;
  logical_bytes : Z;
  mapped_bytes : Z;
  alignment : Z;
  mapping_name : option string;
  mapping_base : Z;
  data : Z }.

Section elements.
(** [sizeof(T)] and [alignof(T)]. *)
Variables element_bytes element_alignment : Z.

Definition systemPageSize : M Z := λ os,
  if page_size os <=? 0 then (inl "unable to determine the system page size"%string, os) else (inr (page_size os), os).

Definition isPowerOfTwo (value : Z) : bool := negb (value =? 0) && (value .& (value - 1) =? 0).

Definition checkedBytes (count : Z) : M Z :=
  if max_u64 / element_bytes <? count then throw "MappedArray byte size overflows size_t"
  else mret (u64 (count * element_bytes)).

Definition roundUp (value alignment : Z) : M Z :=
  if max_u64 - (alignment - 1) <? value then throw "MappedArray rounded size overflows size_t"
  else mret (u64 (value + alignment - 1) .& not64 (alignment - 1)).

Definition roundUpAddress (value alignment : Z) : Z := u64 (value + alignment - 1) .& not64 (alignment - 1).

Definition normalizeAlignment (requested : Z) : M Z :=
  page_size ← systemPageSize;
  let alignment := if requested =? 0 then page_size else requested in
  let alignment := if alignment <? page_size then page_size else alignment in
  let alignment := if alignment <? element_alignment then element_alignment else alignment in
  if negb (isPowerOfTwo alignment) || negb (alignment mod page_size =? 0)
  then throw "MappedArray alignment must be a page-multiple power of two"
  else mret alignment.

(** The result of [munmap] is ignored. *)
Definition unmap (a : t) : M t :=
  if mapping_base a =? 0
  then mret (mk (count a) (logical_bytes a) (mapped_bytes a) (alignment a) (mapping_name a) 0 0)
  else
    _ ← munmap (mapping_base a) (mapped_bytes a);
    mret (mk (count a) (logical_bytes a) (mapped_bytes a) (alignment a) (mapping_name a) 0 0).

(** The fresh mapping [raw] without what precedes and follows the aligned part. *)
Definition trim (raw aligned mapped_bytes requested_bytes : Z) : M () :=
  let prefix := u64 (aligned - raw) in
  let suffix := u64 (u64 (requested_bytes - prefix) - mapped_bytes) in
  ok ← (if prefix =? 0 then mret true else munmap raw prefix);
  if negb ok then
    _ ← munmap raw requested_bytes;
    throw "MappedArray prefix munmap failed"
  else
  ok ← (if suffix =? 0 then mret true else munmap (aligned + mapped_bytes) suffix);
  if negb ok then
    _ ← munmap aligned (mapped_bytes + suffix);
    throw "MappedArray suffix munmap failed"
  else mret tt.

(** Huge pages, and the name of a named arena. *)
Definition configure (a : t) : M () :=
  ok ← advise;
  if negb ok then _ ← unmap a; throw "MappedArray MADV_HUGEPAGE failed" else
  match mapping_name a with
  | None => mret tt
  | Some _ =>
    ok ← advise;
    if negb ok then _ ← unmap a; throw "MappedArray VMA naming failed" else mret tt
  end.

Definition map (a : t) : M t :=
  if logical_bytes a =? 0 then mret a else
  mapped_bytes ← roundUp (logical_bytes a) (alignment a);
  if max_u64 - alignment a <? mapped_bytes then throw "MappedArray aligned mapping size overflows" else
  let requested_bytes := u64 (mapped_bytes + alignment a) in
  mapping ← mmap requested_bytes;
  match mapping with
  | None => throw "std::bad_alloc"
  | Some raw =>
    let aligned := roundUpAddress raw (alignment a) in
    _ ← trim raw aligned mapped_bytes requested_bytes;
    let a := mk (count a) (logical_bytes a) mapped_bytes (alignment a) (mapping_name a) aligned 0 in
    _ ← configure a;
    mret (mk (count a) (logical_bytes a) mapped_bytes (alignment a) (mapping_name a) aligned aligned)
  end.

(** The constructor. *)
Definition make (count requested_alignment : Z) (name : option string) : M t :=
  logical_bytes ← checkedBytes count;
  alignment ← normalizeAlignment requested_alignment;
  map (mk count logical_bytes 0 alignment name 0 0).

(** *** Moves *)

Definition empty : t := mk 0 0 0 0 None 0 0.

(** The object moved to and the object moved from. *)
Definition moveFrom (other : t) : t * t := (other, empty).

(** Assignment between different objects. *)
Definition moveAssign (this other : t) : M (t * t) :=
  _ ← unmap this; mret (moveFrom other).

(** *** Prefaulting *)

(** The offsets that are read and written back, at most [n] pages. *)
Fixpoint touchLoop (n : nat) (offset end_ page : Z) : list Z :=
  match n with
  | O => []
  | S n => if offset <? end_ then offset :: touchLoop n (u64 (offset + page)) end_ page else []
  end.

Definition prefaultBytes (os : OS) (a : t) (first_byte byte_count : Z) : list Z :=
  if (mapping_base a =? 0) || (byte_count =? 0) then [] else
  let page := page_size os in
  let end_ := u64 (first_byte + byte_count) in
  let offset := first_byte - first_byte mod page in
  touchLoop (S (Z.to_nat ((end_ - offset) / page))) offset end_ page ++ [end_ - 1].

Definition prefault (os : OS) (a : t) : list Z := prefaultBytes os a 0 (mapped_bytes a).

Definition prefaultRange (os : OS) (a : t) (first_element element_count : Z) : list Z :=
  if (count a <=? first_element) || (element_count =? 0) then [] else
  let available := count a - first_element in
  let element_count := if available <? element_count then available else element_count in
  prefaultBytes os a (u64 (first_element * element_bytes)) (u64 (element_count * element_bytes)).

End elements.
End MappedArray.

Module MappedObjectArray.

Record t := mk {
  storage : MappedArray.t;
  count : Z;
  data : Z;
  constructed : Z }.

Section elements.
Variables element_bytes element_alignment : Z.

Definition checkedBytes (count : Z) : M Z :=
  if max_u64 / element_bytes <? count then throw "MappedObjectArray byte size overflows size_t"
  else mret (u64 (count * element_bytes)).

(** The elements are constructed in place; an exception destroys the storage. *)
Definition make (count requested_alignment : Z) (name : option string) : M t :=
  bytes ← checkedBytes count;
  storage ← MappedArray.make 1 1 bytes requested_alignment name;
  if negb (MappedArray.alignment storage mod element_alignment =? 0) then
    _ ← MappedArray.unmap storage;
    throw "MappedObjectArray mapping does not satisfy element alignment"
  else if negb (count =? 0) then mret (mk storage count (MappedArray.data storage) count)
  else mret (mk storage count 0 0).

(** The indices in the order in which they are destroyed. *)
Fixpoint destroyLoop (n : nat) : list Z :=
  match n with O => [] | S n => Z.of_nat n :: destroyLoop n end.
Definition destroyConstructed (a : t) : list Z * t :=
  (destroyLoop (Z.to_nat (constructed a)), mk (storage a) (count a) (data a) 0).

(** The destructor: the elements, then the storage. *)
Definition destroy (a : t) : M (list Z) :=
  let '(order, a) := destroyConstructed a in
  _ ← MappedArray.unmap (storage a); mret order.

End elements.
End MappedObjectArray.

(** Failures abort the process: an [inl] after which nothing runs. *)
Module FixedMmapArray.

Record t := mk { count : Z; bytes : Z; data : Z }.

Section elements.
Variables element_bytes element_alignment : Z.

Definition checkedBytes (count : Z) : M Z :=
  if max_u64 / element_bytes <? count then throw "abort" else mret (u64 (count * element_bytes)).

Definition map (bytes : Z) : M Z :=
  if bytes =? 0 then mret 0 else
  mapping ← mmap bytes;
  match mapping with
  | None => throw "abort"
  | Some base =>
    if negb (base mod element_alignment =? 0) then _ ← munmap base bytes; throw "abort" else mret base
  end.

Definition make (count : Z) : M t :=
  bytes ← checkedBytes count; data ← map bytes; mret (mk count bytes data).

Definition unmap (a : t) : M t :=
  if data a =? 0 then mret a else _ ← munmap (data a) (bytes a); mret (mk (count a) (bytes a) 0).

Definition moveFrom (other : t) : t * t := (other, mk 0 0 0).

Definition moveAssign (this other : t) : M (t * t) := _ ← unmap this; mret (moveFrom other).

End elements.
End FixedMmapArray.
