(* ===== verification/ArenaProps.v ===== *)
(** The mapped arenas own exactly their mapping: its bounds and alignment, no leak when the
    set-up fails, agreement with the storage plan, prefaulting of every page, moves. *)
From stdpp Require Import base list strings.
From Stdlib Require Import ZArith Lia.
From S2P Require Import Prelude Bits Capacity Arena.
#[local] Open Scope Z_scope.
#[local] Open Scope astra_scope.

Module ArenaProps.

(** ** The address space *)

Definition same (os os' : OS) : Prop := ∀ a, mapped (regions os') a = mapped (regions os) a.
Definition plus (os : OS) (base bytes : Z) (os' : OS) : Prop :=
  ∀ a, mapped (regions os') a = mapped (regions os) a || inRegion base bytes a.
Definition fresh (os : OS) (base bytes : Z) : Prop :=
  ∀ a, inRegion base bytes a = true → mapped (regions os) a = false.

(** Everything was given back, unless the call that was to do it failed. *)
Definition restored (os os' : OS) : Prop := same os os' ∨ last (munmap_log os') = Some false.

Lemma mapped_app vm vm' a : mapped (vm ++ vm') a = mapped vm a || mapped vm' a.
Proof. apply existsb_app. Qed.

(** Decide the comparisons and close by arithmetic. *)
Ltac spaces :=
  unfold inRegion in *;
  repeat match goal with
  | |- context [?x <=? ?y] => destruct (Z.leb_spec x y)
  | |- context [?x <? ?y] => destruct (Z.ltb_spec x y)
  | H : context [?x <=? ?y] |- _ => destruct (Z.leb_spec x y)
  | H : context [?x <? ?y] |- _ => destruct (Z.ltb_spec x y)
  end; cbn [andb orb negb] in *; first [done|lia].

Lemma mapped_cut base bytes r a : 0 <= bytes →
  mapped (cut base bytes r) a = inRegion r.1 r.2 a && negb (inRegion base bytes a).
Proof.
  intros Hb. destruct r as [s l]. unfold cut. rewrite !filter_cons, filter_nil. cbn [fst snd].
  repeat case_decide; cbn [mapped existsb fst snd]; rewrite ?orb_false_r; spaces.
Qed.

Lemma mapped_munmap base bytes vm a : 0 <= bytes →
  mapped (mjoin (cut base bytes <$> vm)) a = mapped vm a && negb (inRegion base bytes a).
Proof.
  intros Hb. induction vm as [|r vm IH]; [done|]. cbn [fmap list_fmap mjoin list_join].
  change (mapped (cut base bytes r ++ mjoin (cut base bytes <$> vm)) a =
    (inRegion r.1 r.2 a || mapped vm a) && negb (inRegion base bytes a)).
  rewrite mapped_app, mapped_cut, IH by done. by destruct (inRegion r.1 r.2 a), (mapped vm a), (inRegion base bytes a).
Qed.

Lemma munmap_spec base bytes os : 0 <= bytes → ∃ ok os',
  munmap base bytes os = (inr ok, os') ∧ page_size os' = page_size os ∧ last (munmap_log os') = Some ok ∧
  ∀ a, mapped (regions os') a = if ok then mapped (regions os) a && negb (inRegion base bytes a) else mapped (regions os) a.
Proof.
  intros Hb. unfold munmap. eexists _, _. split; [done|]. split; [done|]. split; [apply last_snoc|]. intros a.
  cbn [regions]. destruct (default true _); [by apply mapped_munmap|done].
Qed.

(** ** Alignment *)

Lemma roundUp_mask n k : 0 <= k < 64 → 0 <= n → n + 2 ^ k <= 2 ^ 64 →
  u64 (n + 2 ^ k - 1) .& not64 (2 ^ k - 1) = BookCapacity.roundUp (2 ^ k) n.
Proof.
  intros Hk Hn Hle. assert (0 < 2 ^ k) by (apply Z.pow_pos_nonneg; lia). rewrite u64_id by (unfold fits; lia).
  by rewrite BookCapacity.land_not_mask by (unfold fits; lia).
Qed.

Lemma roundUp_zero a : 0 < a → BookCapacity.roundUp a 0 = 0.
Proof. intros Ha. unfold BookCapacity.roundUp. by rewrite Z.div_small, Z.mul_0_r by lia. Qed.

(** Giving back what precedes and follows the aligned part of a fresh mapping. *)
Lemma trim_spec os0 os raw k bytes :
  0 <= k < 64 → 0 < raw → 0 <= bytes → raw + (bytes + 2 ^ k) <= 2 ^ 64 →
  fresh os0 raw (bytes + 2 ^ k) → plus os0 raw (bytes + 2 ^ k) os →
  let aligned := BookCapacity.roundUp (2 ^ k) raw in
  match MappedArray.trim raw aligned bytes (bytes + 2 ^ k) os with
  | (inr _, os') => plus os0 aligned bytes os' ∧ page_size os' = page_size os
  | (inl _, os') => restored os0 os'
  end.
Proof.
  intros Hk Hraw Hbytes Hle Hfresh Hplus aligned. assert (0 < 2 ^ k) as Hpos by (apply Z.pow_pos_nonneg; lia).
  pose proof (BookCapacity.roundUp_spec (2 ^ k) raw Hpos) as [Hal _]. fold aligned in Hal.
  unfold MappedArray.trim. rewrite (u64_id (aligned - raw)) by (unfold fits; lia).
  rewrite (u64_id (bytes + 2 ^ k - (aligned - raw))) by (unfold fits; lia).
  replace (bytes + 2 ^ k - (aligned - raw) - bytes) with (2 ^ k - (aligned - raw)) by lia. rewrite u64_id by (unfold fits; lia).
  set (first := if aligned - raw =? 0 then _ else _).
  assert (∃ ok os1, first os = (inr ok, os1) ∧ page_size os1 = page_size os ∧
    ∀ a, mapped (regions os1) a = if ok then mapped (regions os) a && negb (inRegion raw (aligned - raw) a) else mapped (regions os) a)
    as (ok&os1&E1&P1&M1).
  { unfold first. destruct (Z.eqb_spec (aligned - raw) 0) as [E|E].
    - exists true, os. split_and!; [done..|]. intros a. rewrite E.
      replace (inRegion raw 0 a) with false by (symmetry; spaces). by rewrite andb_true_r.
    - destruct (munmap_spec raw (aligned - raw) os ltac:(lia)) as (ok&os1&?&?&_&?). by exists ok, os1. }
  unfold mbind, M_bind. rewrite E1. destruct ok; cbn [negb].
  2: { destruct (munmap_spec raw (bytes + 2 ^ k) os1 ltac:(lia)) as (ok&os2&->&_&L2&M2).
       destruct ok; [left|by right]. intros a. rewrite M2, M1, Hplus. specialize (Hfresh a).
       by destruct (inRegion raw (bytes + 2 ^ k) a), (mapped (regions os0) a); try (by specialize (Hfresh eq_refl)). }
  rewrite (proj2 (Z.eqb_neq (2 ^ k - (aligned - raw)) 0)) by lia.
  destruct (munmap_spec (aligned + bytes) (2 ^ k - (aligned - raw)) os1 ltac:(lia)) as (ok&os2&->&P2&L2&M2).
  destruct ok; cbn [negb].
  - split; [|congruence]. intros a. rewrite M2, M1, Hplus. specialize (Hfresh a).
    destruct (mapped (regions os0) a); cbn [orb].
    + destruct (inRegion raw (bytes + 2 ^ k) a) eqn:E; [by specialize (Hfresh eq_refl)|]. clear Hfresh. spaces.
    + clear Hfresh. spaces.
  - destruct (munmap_spec aligned (bytes + (2 ^ k - (aligned - raw))) os2 ltac:(lia)) as (ok&os3&->&_&L3&M3).
    destruct ok; [left|by right]. intros a. rewrite M3, M2, M1, Hplus. specialize (Hfresh a).
    destruct (mapped (regions os0) a); cbn [orb].
    + destruct (inRegion raw (bytes + 2 ^ k) a) eqn:E; [by specialize (Hfresh eq_refl)|]. clear Hfresh. spaces.
    + clear Hfresh. spaces.
Qed.

(** Destruction gives exactly the mapping back. *)
Lemma unmap_spec os0 os a : 0 <= MappedArray.mapped_bytes a →
  (if MappedArray.mapping_base a =? 0 then same os0 os
   else fresh os0 (MappedArray.mapping_base a) (MappedArray.mapped_bytes a) ∧
        plus os0 (MappedArray.mapping_base a) (MappedArray.mapped_bytes a) os) →
  ∃ a' os', MappedArray.unmap a os = (inr a', os') ∧ MappedArray.mapping_base a' = 0 ∧ restored os0 os'.
Proof.
  intros Hb Ho. unfold MappedArray.unmap. destruct (_ =? 0).
  - eexists _, _. split; [done|]. split; [done|]. by left.
  - destruct Ho as [Hf Hp]. destruct (munmap_spec (MappedArray.mapping_base a) _ os Hb) as (ok&os'&E&_&L&Hm).
    unfold mbind, M_bind. rewrite E. eexists _, _. split; [done|]. split; [done|].
    destruct ok; [left|by right]. intros x. rewrite Hm, Hp. specialize (Hf x).
    by destruct (mapped (regions os0) x), (inRegion _ _ x); try (by specialize (Hf eq_refl)).
Qed.

Lemma advise_spec os : ∃ ok os', advise os = (inr ok, os') ∧ regions os' = regions os ∧ page_size os' = page_size os.
Proof. by eexists _, _. Qed.

Lemma configure_spec os0 os a : 0 <= MappedArray.mapped_bytes a → MappedArray.mapping_base a ≠ 0 →
  fresh os0 (MappedArray.mapping_base a) (MappedArray.mapped_bytes a) →
  plus os0 (MappedArray.mapping_base a) (MappedArray.mapped_bytes a) os →
  match MappedArray.configure a os with
  | (inr _, os') => plus os0 (MappedArray.mapping_base a) (MappedArray.mapped_bytes a) os'
  | (inl _, os') => restored os0 os'
  end.
Proof.
  intros Hb Hne Hf Hp. unfold MappedArray.configure, mbind, M_bind.
  assert (∀ os1, regions os1 = regions os → match (let '(r, o) := MappedArray.unmap a os1 in (r, o)) with
    (_, os') => restored os0 os' end) as Hun.
  { intros os1 E. destruct (unmap_spec os0 os1 a Hb) as (a'&os'&->&_&Hr); [|done].
    rewrite (proj2 (Z.eqb_neq _ _) Hne). split; [done|]. intros x. by rewrite E, Hp. }
  destruct (advise_spec os) as (ok&os1&->&R1&_). destruct ok; cbn [negb].
  2: { specialize (Hun os1 R1). destruct (MappedArray.unmap a os1) as [[e|a'] os']; exact Hun. }
  destruct (MappedArray.mapping_name a); [|intros x; by rewrite R1, Hp].
  destruct (advise_spec os1) as (ok&os2&->&R2&_). destruct ok; cbn [negb]; [intros x; by rewrite R2, R1, Hp|].
  specialize (Hun os2 ltac:(congruence)). destruct (MappedArray.unmap a os2) as [[e|a'] os']; exact Hun.
Qed.

(** ** Construction *)

(** What [mmap] and [sysconf] are documented to do. *)
Record kernel_ok (os : OS) : Prop := {
  ko_page : 0 < page_size os <= max_u64;
  ko_mmap : ∀ choose rest bytes base, mmap_results os = choose :: rest → choose bytes = Some base →
    0 < base ∧ base + bytes <= 2 ^ 64 ∧ fresh os base bytes }.

Section construction.
Context (eb ea : Z) (Heb : 0 < eb <= max_u64) (Hea : 0 <= ea <= max_u64).
Context (count requested : Z) (Hcount : 0 <= count <= max_u64) (Hreq : 0 <= requested <= max_u64).

Lemma checkedBytes_spec os : MappedArray.checkedBytes eb count os =
  if count * eb <=? max_u64 then (inr (count * eb), os) else (inl "MappedArray byte size overflows size_t"%string, os).
Proof.
  unfold MappedArray.checkedBytes. pose proof (Z.div_mod max_u64 eb ltac:(lia)). pose proof (Z.mod_pos_bound max_u64 eb ltac:(lia)).
  destruct (Z.leb_spec (count * eb) max_u64) as [Hfit|Hbig].
  - rewrite (proj2 (Z.ltb_ge _ _)) by nia. cbn. by rewrite u64_id by (unfold fits, max_u64 in *; nia).
  - by rewrite (proj2 (Z.ltb_lt _ _)) by nia.
Qed.

(** The alignment that will be used, before it is checked. *)
Definition chosen (page : Z) : Z :=
  let a := if requested =? 0 then page else requested in
  let a := if a <? page then page else a in if a <? ea then ea else a.

Definition aligns (page : Z) : bool := MappedArray.isPowerOfTwo (chosen page) && (chosen page mod page =? 0).

Lemma normalize_spec os : 0 < page_size os →
  MappedArray.normalizeAlignment ea requested os =
  if aligns (page_size os) then (inr (chosen (page_size os)), os)
  else (inl "MappedArray alignment must be a page-multiple power of two"%string, os).
Proof.
  intros Hp. unfold MappedArray.normalizeAlignment, MappedArray.systemPageSize, mbind, M_bind.
  rewrite (proj2 (Z.leb_gt _ _)) by lia. fold (chosen (page_size os)). unfold aligns.
  destruct (MappedArray.isPowerOfTwo _), (_ =? 0); done.
Qed.

Lemma aligns_power page : 0 < page <= max_u64 → aligns page = true → ∃ k, 0 <= k < 64 ∧ chosen page = 2 ^ k.
Proof.
  intros Hp H. apply andb_true_iff in H as [H _]. assert (0 <= chosen page <= max_u64) as Hr.
  { unfold chosen. repeat case_match; lia. }
  apply (BookCapacity.isPowerOfTwo_spec (chosen page) ltac:(lia)) in H as (k&Hk&E). exists k. split; [|done].
  split; [done|]. apply (Z.pow_lt_mono_r_iff 2); [lia|lia|]. unfold max_u64 in *. lia.
Qed.

(** How many bytes are mapped. *)
Lemma map_planned a os : let al := MappedArray.alignment a in let n := MappedArray.logical_bytes a in
  let rounded := u64 (n + al - 1) .& not64 (al - 1) in
  if n =? 0 then MappedArray.mapped_bytes a = 0 → ∀ a' os', MappedArray.map a os = (inr a', os') → MappedArray.mapped_bytes a' = 0
  else if max_u64 - (al - 1) <? n then MappedArray.map a os = (inl "MappedArray rounded size overflows size_t"%string, os)
  else if max_u64 - al <? rounded then MappedArray.map a os = (inl "MappedArray aligned mapping size overflows"%string, os)
  else ∀ a' os', MappedArray.map a os = (inr a', os') → MappedArray.mapped_bytes a' = rounded.
Proof.
  cbn zeta. unfold MappedArray.map. destruct (MappedArray.logical_bytes a =? 0).
  { unfold mret, M_ret. intros H0 a' os' E. by simplify_eq. }
  unfold mbind, M_bind, MappedArray.roundUp. destruct (_ <? _); [done|]. unfold mret at 1 2 3 4, M_ret at 1 2 3 4.
  destruct (_ <? _); [done|]. intros a' os'. destruct (mmap _ os) as [[e|[raw|]] os1]; [done| |done].
  destruct (MappedArray.trim _ _ _ _ os1) as [[e|[]] os2]; [done|].
  destruct (MappedArray.configure _ os2) as [[e|[]] os3]; [done|]. intros E. unfold mret, M_ret in E. by simplify_eq.
Qed.

(** The constructor up to the mapping. *)
Lemma make_start os name : 0 < page_size os → MappedArray.make eb ea count requested name os =
  if count * eb <=? max_u64 then
    if aligns (page_size os) then MappedArray.map (MappedArray.mk count (count * eb) 0 (chosen (page_size os)) name 0 0) os
    else (inl "MappedArray alignment must be a page-multiple power of two"%string, os)
  else (inl "MappedArray byte size overflows size_t"%string, os).
Proof.
  intros Hp. unfold MappedArray.make, mbind, M_bind at 1. rewrite checkedBytes_spec. destruct (_ <=? _); [|done].
  unfold M_bind. rewrite normalize_spec by done. by destruct (aligns _).
Qed.

(** The arena owns [a]'s mapping and nothing else has changed. *)
Definition owned (os os' : OS) (a : MappedArray.t) : Prop :=
  MappedArray.count a = count ∧ MappedArray.logical_bytes a = count * eb ∧
  MappedArray.mapped_bytes a = BookCapacity.roundUp (MappedArray.alignment a) (count * eb) ∧
  MappedArray.data a = MappedArray.mapping_base a ∧
  MappedArray.mapping_base a mod MappedArray.alignment a = 0 ∧
  MappedArray.mapping_base a + MappedArray.mapped_bytes a <= 2 ^ 64 ∧
  if count * eb =? 0 then MappedArray.mapping_base a = 0 ∧ same os os'
  else 0 < MappedArray.mapping_base a ∧ fresh os (MappedArray.mapping_base a) (MappedArray.mapped_bytes a) ∧
       plus os (MappedArray.mapping_base a) (MappedArray.mapped_bytes a) os'.

(** Every outcome of the constructor. *)
Lemma make_spec os name : kernel_ok os →
  match MappedArray.make eb ea count requested name os with
  | (inr a, os') => aligns (page_size os) = true ∧ MappedArray.alignment a = chosen (page_size os) ∧ owned os os' a
  | (inl _, os') => restored os os'
  end.
Proof.
  intros [Hpage Hmmap]. rewrite make_start by lia. destruct (Z.leb_spec (count * eb) max_u64) as [Hfit|]; [|by left].
  destruct (aligns (page_size os)) eqn:Hal; [|by left]. destruct (aligns_power _ Hpage Hal) as (k&Hk&Ek).
  assert (0 < 2 ^ k) as Hpos by (apply Z.pow_pos_nonneg; lia). unfold MappedArray.map. cbn [MappedArray.logical_bytes].
  destruct (Z.eqb_spec (count * eb) 0) as [E0|E0].
  { split; [done|]. split; [done|]. unfold owned.
    cbn [MappedArray.count MappedArray.logical_bytes MappedArray.mapped_bytes MappedArray.alignment MappedArray.data MappedArray.mapping_base].
    rewrite E0, Ek, roundUp_zero by done. by split_and!. }
  unfold mbind, M_bind at 1, MappedArray.roundUp. cbn [MappedArray.alignment MappedArray.logical_bytes]. rewrite Ek.
  destruct (Z.ltb_spec (max_u64 - (2 ^ k - 1)) (count * eb)); [by left|].
  assert (0 <= count * eb) as Hnn by nia. cbn [mret M_ret]. rewrite roundUp_mask by (unfold max_u64 in *; lia).
  set (bytes := BookCapacity.roundUp (2 ^ k) (count * eb)).
  pose proof (BookCapacity.roundUp_spec (2 ^ k) (count * eb) Hpos) as [Hb _]. fold bytes in Hb.
  destruct (Z.ltb_spec (max_u64 - 2 ^ k) bytes); [by left|]. rewrite (u64_id (bytes + 2 ^ k)) by (unfold fits, max_u64 in *; lia).
  unfold M_bind at 1, mmap. destruct (mmap_results os) as [|choose rest] eqn:Em; [by left|].
  destruct (choose (bytes + 2 ^ k)) as [raw|] eqn:Ec; [|by left].
  destruct (Hmmap choose rest _ raw eq_refl Ec) as (Hraw&Hend&Hfresh).
  unfold MappedArray.roundUpAddress. rewrite roundUp_mask by lia. set (aligned := BookCapacity.roundUp (2 ^ k) raw).
  pose proof (BookCapacity.roundUp_spec (2 ^ k) raw Hpos) as [Ha Hmod]. fold aligned in Ha, Hmod.
  set (os1 := mkOS _ _ _ _ _ _). assert (plus os raw (bytes + 2 ^ k) os1) as Hplus.
  { intros a. cbn. apply orb_comm. }
  pose proof (trim_spec os os1 raw k bytes Hk Hraw ltac:(lia) Hend Hfresh Hplus) as Ht. cbn zeta in Ht. fold aligned in Ht.
  unfold M_bind at 1. destruct (MappedArray.trim _ _ _ _ os1) as [[e|u] os2]; [done|]. destruct Ht as [Hp2 _].
  assert (fresh os aligned bytes) as Hf2.
  { intros a Hin. apply Hfresh. clear -Hin Ha Hpos. spaces. }
  set (am := MappedArray.mk count (count * eb) bytes (2 ^ k) name aligned 0).
  pose proof (configure_spec os os2 am ltac:(cbn; lia) ltac:(cbn; lia) Hf2 Hp2) as Hc.
  cbn [MappedArray.count MappedArray.logical_bytes MappedArray.alignment MappedArray.mapping_name]. fold am. unfold M_bind at 1.
  destruct (MappedArray.configure am os2) as [[e|u'] os3]; [exact Hc|]. split; [done|]. split; [done|].
  unfold owned. cbn. rewrite (proj2 (Z.eqb_neq _ _) E0). split_and!; try done; lia.
Qed.

(** C33. An arena owns exactly one mapping: when the constructor returns, the
    address space has gained precisely the range of the arena, which was free before,
    starts at a multiple of the alignment and is the least multiple of the alignment that
    holds the elements; the destructor gives precisely that range back.  When the
    constructor throws, whichever call failed, the address space is as before, unless the
    call that gives the mapping back is itself refused. *)
Theorem arena_lifecycle os name : kernel_ok os →
  match MappedArray.make eb ea count requested name os with
  | (inr a, os') => owned os os' a ∧ MappedArray.alignment a mod page_size os = 0 ∧
      ∃ a' os'', MappedArray.unmap a os' = (inr a', os'') ∧ MappedArray.mapping_base a' = 0 ∧ restored os os''
  | (inl _, os') => restored os os'
  end.
Proof.
  intros Hk. pose proof (make_spec os name Hk) as H. destruct (MappedArray.make _ _ _ _ _ os) as [[e|a] os']; [done|].
  destruct H as (Hal&Ea&Ho). split; [done|]. destruct (aligns_power _ (ko_page os Hk) Hal) as (k&Hkk&Ek).
  apply andb_true_iff in Hal as [_ Hmod%Z.eqb_eq]. rewrite Ea. split; [done|].
  assert (0 < 2 ^ k) as Hpos by (apply Z.pow_pos_nonneg; lia).
  destruct Ho as (_&_&Eb&_&_&_&Hown). pose proof (BookCapacity.roundUp_spec (2 ^ k) (count * eb) Hpos) as [Hb _].
  apply unmap_spec; [rewrite Eb, Ea, Ek; nia|]. destruct (count * eb =? 0).
  - by destruct Hown as [-> ?].
  - destruct Hown as (Hp&?&?). rewrite (proj2 (Z.eqb_neq _ _)) by lia. done.
Qed.

(** The storage plan and the arenas agree: when the plan refuses an
    arena, its constructor throws before it asks the kernel for memory, and when the plan
    has a size, an arena that is constructed has mapped exactly that many bytes. *)
Theorem arena_plan_agrees os name : kernel_ok os →
  match BookCapacity.mappedBytes count eb ea requested (page_size os) with
  | inl _ => ∃ error, MappedArray.make eb ea count requested name os = (inl error, os)
  | inr planned => ∀ a os', MappedArray.make eb ea count requested name os = (inr a, os') →
      MappedArray.mapped_bytes a = planned
  end.
Proof.
  intros [Hpage _]. rewrite make_start by lia. unfold BookCapacity.mappedBytes. rewrite BookCapacity.checkedMultiply_spec by lia.
  destruct (_ <=? _) eqn:Hfit; cbn [mbind throw_bind]; [|by eexists]. fold (chosen (page_size os)). unfold aligns.
  change (BookCapacity.isPowerOfTwo (chosen (page_size os))) with (MappedArray.isPowerOfTwo (chosen (page_size os))).
  destruct (MappedArray.isPowerOfTwo _), (_ mod _ =? 0); cbn [negb orb andb]; try by eexists.
  pose proof (map_planned (MappedArray.mk count (count * eb) 0 (chosen (page_size os)) name 0 0) os) as Hm.
  cbn [MappedArray.logical_bytes MappedArray.alignment] in Hm. destruct (count * eb =? 0); [exact (Hm eq_refl)|].
  destruct (_ <? _); [by eexists|]. by destruct (_ <? _); [eexists|].
Qed.

End construction.

(** ** Prefaulting *)

Lemma touchLoop_spec n offset end_ page o : 0 < page → 0 <= offset → end_ + page <= 2 ^ 64 →
  o ∈ MappedArray.touchLoop n offset end_ page ↔ ∃ i, 0 <= i < Z.of_nat n ∧ o = offset + i * page ∧ o < end_.
Proof.
  intros Hp. revert offset. induction n as [|n IH]; intros offset Ho He; cbn [MappedArray.touchLoop].
  { rewrite elem_of_nil. split; [done|]. intros (i&?&_). lia. }
  destruct (Z.ltb_spec offset end_) as [Hlt|Hge].
  2: { rewrite elem_of_nil. split; [done|]. intros (i&?&->&?). nia. }
  rewrite u64_id by (unfold fits; lia). rewrite elem_of_cons, IH by lia. split.
  - intros [->|(i&Hi&->&Hlt')]; [exists 0|exists (i + 1)]; (split; [lia|split; [lia|lia]]).
  - intros (i&Hi&->&Hlt'). destruct (decide (i = 0)) as [->|]; [left; lia|right]. exists (i - 1). split; [lia|]. split; lia.
Qed.

(** Prefaulting an arena touches every page of the mapping and nothing outside it. *)
Lemma prefault_covers os a : MappedArray.mapping_base a ≠ 0 → 0 < page_size os →
  0 < MappedArray.mapped_bytes a → MappedArray.mapped_bytes a + page_size os <= 2 ^ 64 →
  (∀ o, o ∈ MappedArray.prefault os a → 0 <= o < MappedArray.mapped_bytes a) ∧
  (∀ i, 0 <= i → i * page_size os < MappedArray.mapped_bytes a → i * page_size os ∈ MappedArray.prefault os a).
Proof.
  intros Hb Hp Hm Hle. unfold MappedArray.prefault, MappedArray.prefaultBytes.
  rewrite (proj2 (Z.eqb_neq (MappedArray.mapping_base a) 0) Hb), (proj2 (Z.eqb_neq (MappedArray.mapped_bytes a) 0)) by lia.
  cbn [orb]. rewrite Z.mod_0_l, Z.add_0_l, u64_id by (unfold fits; lia). rewrite !Z.sub_0_r.
  set (page := page_size os) in *. set (m := MappedArray.mapped_bytes a) in *.
  pose proof (Z.div_mod m page ltac:(lia)). pose proof (Z.mod_pos_bound m page Hp).
  split.
  - intros o. rewrite elem_of_app, touchLoop_spec, list_elem_of_singleton by lia. intros [(i&Hi&->&Hlt)| ->]; nia.
  - intros i Hi Hlt. apply elem_of_app. left. apply touchLoop_spec; [lia..|]. exists i. split; [|lia].
    assert (0 <= m / page) by (apply Z.div_pos; lia). split; [lia|]. rewrite Nat2Z.inj_succ, Z2Nat.id by lia. nia.
Qed.

(** ** Moves *)

(** A move hands the mapping over: the source owns nothing afterwards, so the two
    destructors give one mapping back once. *)
Lemma move_once os a : (MappedArray.moveFrom a).1 = a ∧
  MappedArray.unmap (MappedArray.moveFrom a).2 os = (inr MappedArray.empty, os).
Proof. done. Qed.

(** Assigning over an arena gives the old mapping back. *)
Lemma assign_releases os0 os this other : 0 <= MappedArray.mapped_bytes this → MappedArray.mapping_base this ≠ 0 →
  fresh os0 (MappedArray.mapping_base this) (MappedArray.mapped_bytes this) →
  plus os0 (MappedArray.mapping_base this) (MappedArray.mapped_bytes this) os →
  ∃ os', MappedArray.moveAssign this other os = (inr (other, MappedArray.empty), os') ∧ restored os0 os'.
Proof.
  intros Hb Hne Hf Hp. unfold MappedArray.moveAssign, mbind, M_bind.
  destruct (unmap_spec os0 os this Hb) as (a'&os'&->&_&Hr); [by rewrite (proj2 (Z.eqb_neq _ _) Hne)|]. by exists os'.
Qed.

(** ** Object arrays *)

(** Elements are destroyed in the reverse order of construction, each once. *)
Lemma destroy_order n : MappedObjectArray.destroyLoop n = reverse (Z.of_nat <$> List.seq 0 n).
Proof.
  induction n as [|n IH]; [done|]. cbn [MappedObjectArray.destroyLoop]. rewrite IH, seq_S, fmap_app, reverse_app. done.
Qed.

(** ** A small address space *)

Definition sampleOS (munmaps advice : list bool) : OS :=
  mkOS [(4096, 8192)] 4096 [λ bytes, if bytes <=? 2 ^ 40 then Some 20480 else None] munmaps advice [].

Lemma sample_kernel munmaps advice : kernel_ok (sampleOS munmaps advice).
Proof.
  split; [cbn; unfold max_u64; lia|]. intros choose rest bytes base [= <- <-].
  destruct (Z.leb_spec bytes (2 ^ 40)); [|done]. intros [= <-]. split; [lia|]. split; [lia|].
  intros a. cbn [regions sampleOS mapped existsb fst snd]. spaces.
Qed.

Lemma arena_lifecycle_witness :
  match MappedArray.make 16 8 1000 65536 (Some "orders"%string) (sampleOS [] []) with
  | (inr a, os') => MappedArray.mapping_base a = 65536 ∧ MappedArray.mapped_bytes a = 65536 ∧
      owned 16 1000 (sampleOS [] []) os' a
  | _ => False
  end.
Proof.
  pose proof (arena_lifecycle 16 8 ltac:(unfold max_u64; lia) ltac:(unfold max_u64; lia) 1000 65536
    ltac:(unfold max_u64; lia) ltac:(unfold max_u64; lia) (sampleOS [] []) (Some "orders"%string) (sample_kernel [] [])) as H.
  remember (MappedArray.make 16 8 1000 65536 (Some "orders"%string) (sampleOS [] [])) as r eqn:E.
  vm_compute in E. subst r. destruct H as [H _]. split; [reflexivity|]. split; [reflexivity|exact H].
Defined.

(** The advice is refused: the mapping is given back. *)
Lemma refused_advice :
  (MappedArray.make 16 8 1000 65536 None (sampleOS [] [false])).1 = inl "MappedArray MADV_HUGEPAGE failed"%string ∧
  regions (MappedArray.make 16 8 1000 65536 None (sampleOS [] [false])).2 = [(4096, 8192)].
Proof. split; vm_compute; reflexivity. Qed.

Lemma arena_plan_agrees_witness :
  ∃ a os', MappedArray.make 16 8 1000 65536 None (sampleOS [] []) = (inr a, os') ∧
    BookCapacity.mappedBytes 1000 16 8 65536 4096 = inr (MappedArray.mapped_bytes a).
Proof.
  pose proof (arena_plan_agrees 16 8 ltac:(unfold max_u64; lia) 1000 65536
    ltac:(unfold max_u64; lia) (sampleOS [] []) None (sample_kernel [] [])) as H.
  change (page_size (sampleOS [] [])) with 4096 in H.
  assert (BookCapacity.mappedBytes 1000 16 8 65536 4096 = inr 65536) as E by reflexivity. rewrite E in H |- *.
  destruct (MappedArray.make 16 8 1000 65536 None (sampleOS [] [])) as [[e|a] os'] eqn:Em; [vm_compute in Em; discriminate Em|].
  exists a, os'. split; [reflexivity|]. by rewrite (H a os' eq_refl).
Defined.

End ArenaProps.
