(* ===== verification/Footprint.v ===== *)
(** What an applied mutation may touch outside the live orders.

    A reservation that finds the page arena full is the only operation that moves the
    failure counter, and the message that caused it is refused; a price page appears
    only where the mutation places an order, and a slot of the order table is marked only
    for the reference it enters.  A day whose messages were all accepted therefore ends
    with the counter it started with. *)
From stdpp Require Import base list gmap strings.
From Stdlib Require Import ZArith Lia Ascii.
From S2P Require Import Prelude Bits Bitmap BookTypes Orders Prices Book Directory Manager ManagerInv Protocol Parser Gap Decoder DecoderInv.
#[local] Open Scope Z_scope.
#[local] Open Scope astra_scope.

Module Footprint.
Import PriceLevelStore OrderBook.

(** The failure counter, the size of the arena and the page roots. *)
Abbreviation layout s := (page_capacity_failures s, page_capacity s, roots s).

(** ** The store *)

Lemma activateLevel_kept s a side : layout (activateLevel s a side) = layout s.
Proof. unfold activateLevel. destruct (activatePage _ _ _ _). by destruct (activateBook _ _ _ _ _ _ _). Qed.

Lemma addValidated_layout s a side q : layout (addValidated s a side q) = layout s.
Proof. unfold addValidated. cbn. case_match; [apply activateLevel_kept|done]. Qed.

Lemma add_layout s a side q : layout (snd (add s a side q)) = layout s.
Proof. unfold add. case_match; [done|apply addValidated_layout]. Qed.

Lemma deactivateLevel_layout s a side plan : layout (deactivateLevel s a side plan) = layout s.
Proof. unfold deactivateLevel. destruct (page_becomes_empty plan); [|destruct (deactivatePage _ _ _ _)]; by case_match. Qed.

Lemma eraseValidated_layout s a side q plan : layout (eraseValidated s a side q plan) = layout s.
Proof. unfold eraseValidated. cbn zeta. case_match; [by rewrite deactivateLevel_layout|done]. Qed.

Lemma erase_layout s a side q : layout (snd (erase s a side q)) = layout s.
Proof. unfold erase. destruct (validateErase s a side q). case_match; [done|apply eraseValidated_layout]. Qed.

Lemma move_layout s a q a' q' side : layout (snd (move s a q a' q' side)) = layout s.
Proof.
  unfold move. destruct (_ =? 0); [done|]. destruct (owner _ _) as [o1|]; [|done]. destruct (owner _ _) as [o2|]; [|done].
  destruct (_ || _); [done|]. destruct (negb _); [done|]. destruct (validateErase _ _ _ _) as [v plan].
  destruct (negb _); [done|]. destruct (_ && _); [by destruct (_ <? _)|]. destruct (negb _); [done|]. cbn [snd].
  by rewrite addValidated_layout, eraseValidated_layout.
Qed.

Lemma reduceLevel_layout s a side c r : layout (snd (reduceLevel s a side c r)) = layout s.
Proof. unfold reduceLevel. by repeat case_match. Qed.

Lemma reduceChecked_layout s l i a side c r : layout (snd (reduceChecked s l i a side c r)) = layout s.
Proof. unfold reduceChecked. do 3 (case_match; [done|]). apply reduceLevel_layout. Qed.

Lemma prepareBook_layout s l : layout (snd (prepareBook s l)) = layout s.
Proof. unfold prepareBook. by repeat case_match. Qed.

(** From one store to the next: no failure, and a root only for [page]. *)
Record grown (page : option Z) (s s' : PriceLevelStore.t) : Prop := {
  gw_failures : page_capacity_failures s' = page_capacity_failures s;
  gw_capacity : page_capacity s' = page_capacity s;
  gw_roots : ∀ i, (roots s').[i] ≠ 0 → (roots s).[i] ≠ 0 ∨ page = Some i }.

Lemma grown_layout page s s' : layout s' = layout s → grown page s s'.
Proof. intros [= E1 E2 E3]. split; [done|done|]. intros i. rewrite E3. by left. Qed.

Lemma grown_then page s t u : grown page s t → layout u = layout t → grown page s u.
Proof. intros [] [= E1 E2 E3]. split; [congruence|congruence|]. by rewrite E3. Qed.

(** A reservation writes no root; it counts a failure exactly when the arena is full. *)
Lemma reservePrice_layout s l price :
  let '(r, s') := reservePrice s l price in
  page_capacity s' = page_capacity s ∧ roots s' = roots s ∧
  page_capacity_failures s' =
    (if decide (rv_result r = PricePageCapacityExceeded) then u64 (page_capacity_failures s + 1) else page_capacity_failures s) ∧
  (rv_result r = Applied → rv_stock_locate r = l ∧ rv_page_index r = page_index (splitPrice price)).
Proof.
  unfold reservePrice. destruct (negb _); [done|]. destruct (negb _); [done|]. destruct (negb _).
  - by destruct (negb _).
  - by destruct (_ <=? _).
Qed.

Lemma commitReservation_grown s r :
  grown (Some (priceRootIndex (rv_stock_locate r) (rv_page_index r))) s (snd (commitReservation s r)).
Proof.
  unfold commitReservation. do 4 (destruct (negb _); [by apply grown_layout|]). cbn zeta.
  destruct (negb _); [by apply grown_layout|]. destruct (_ || _ || _ || _); [by apply grown_layout|].
  destruct (negb _); [by apply grown_layout|]. split; [done|done|]. cbn. intros i. rewrite aget_insert. case_decide as E; [|by left].
  subst. by right.
Qed.

(** ** The order table *)

(** From one table to the next: only the slot of [ref] is marked anew. *)
Record marked (ref : option Z) (o o' : OrderTable.t) : Prop := {
  mk_direct : OrderTable.direct_slots o' = OrderTable.direct_slots o;
  mk_flags : ∀ x, flags (OrderTable.direct o').[x] ≠ 0 → flags (OrderTable.direct o).[x] ≠ 0 ∨ ref = Some x }.

Lemma marked_refl ref o : marked ref o o.
Proof. split; [done|]. by left. Qed.

Lemma marked_then ref o1 o2 o3 : marked ref o1 o2 → marked None o2 o3 → marked ref o1 o3.
Proof. intros [E1 H1] [E2 H2]. split; [congruence|]. intros x [Hx|?]%H2; [|done]. by apply H1. Qed.

Lemma store_marked o p st : (flags st ≠ 0 → flags (OrderTable.deref o p) ≠ 0) → marked None o (OrderTable.store o p st).
Proof.
  intros Hf. destruct p as [i|b w]; [|by split; [|left]]. split; [done|]. intros x. cbn. rewrite aget_insert.
  case_decide as E; [|by left]. subst. intros H. left. by apply Hf.
Qed.

Lemma active_flags st : isActive st = true → flags st ≠ 0.
Proof. intros H E. unfold isActive in H. by rewrite E in H. Qed.

Lemma erase_marked o p : marked None o (snd (OrderTable.erase o p)).
Proof.
  unfold OrderTable.erase. destruct p as [p|]; [|apply marked_refl]. destruct (isActive _) eqn:E; cbn [negb snd]; [|apply marked_refl].
  apply store_marked. intros _. by apply active_flags.
Qed.

Lemma scanReserve_ref o ref probes first : OrderTable.rs_order_ref first = ref →
  OrderTable.rs_order_ref (OrderTable.scanReserve o ref probes first) = ref.
Proof.
  revert first. induction probes as [|[[c b] w] probes IH]; intros first Hf; cbn [OrderTable.scanReserve]; [done|].
  destruct (wasSeen _); [destruct (_ =? ref); [done|by apply IH]|]. destruct (negb _); by apply IH.
Qed.

Lemma reserve_ref o ref : OrderTable.rs_order_ref (OrderTable.reserve o ref) = ref.
Proof. unfold OrderTable.reserve. destruct (_ <? _); [by destruct (wasSeen _)|]. by apply scanReserve_ref. Qed.

Lemma commit_marked o r st : marked (Some (OrderTable.rs_order_ref r)) o (snd (OrderTable.commit o r st)).
Proof.
  unfold OrderTable.commit. destruct (negb _); [apply marked_refl|]. cbn zeta. destruct (bool_decide _).
  - destruct (_ <=? _); [apply marked_refl|]. destruct (wasSeen _); [apply marked_refl|]. split; [done|]. intros x. cbn.
    rewrite aget_insert. case_decide as E; [|by left]. subst. by right.
  - destruct (_ || _ || _ || _); [apply marked_refl|]. destruct (OrderTable.fallbackCandidateBuckets _ _).
    destruct (_ || _); [apply marked_refl|]. destruct (wasSeen _); [apply marked_refl|]. by split; [|left].
Qed.

(** ** The book *)

Implicit Types e : env.

(** An applied operation has grown the store by [page] at most and marked [ref] at most. *)
Definition touches (ref page : option Z) e (res : MutationResult * env) : Prop :=
  fst res = Applied → grown page (prices e) (prices (snd res)) ∧ marked ref (orders e) (orders (snd res)).

Lemma refused ref page e e' r : r ≠ Applied → touches ref page e (OrderBook.reject e' r).
Proof. intros Hr E. by destruct Hr. Qed.

Definition page_at e (price : Z) : option Z :=
  Some (priceRootIndex (stock_locate (book e)) (page_index (splitPrice (u32 price)))).

Lemma rejected ref page e e' r :
  (r = Applied → grown page (prices e) (prices e') ∧ orders e' = orders e) → touches ref page e (OrderBook.reject e' r).
Proof. intros Hr E. destruct (Hr E) as [H1 H2]. split; [exact H1|]. cbn. rewrite H2. apply marked_refl. Qed.

Lemma acquirePage_grown e price ref :
  match OrderBook.acquirePage e price with
  | inl res => touches ref (page_at e price) e res
  | inr (_, e') => grown (page_at e price) (prices e) (prices e') ∧ orders e' = orders e ∧ book e' = book e
  end.
Proof.
  unfold OrderBook.acquirePage.
  pose proof (reservePrice_layout (prices e) (stock_locate (book e)) (u32 price)) as Hr.
  destruct (reservePrice _ _ _) as [r s1]. cbn [prices with_prices]. destruct Hr as (Hcap&Hroots&Hfail&Happ).
  assert (rv_result r = Applied → grown (page_at e price) (prices e) s1) as Hs1.
  { intros E. rewrite E in Hfail. split; [exact Hfail|done|]. intros i. rewrite Hroots. by left. }
  unfold reservation_ok. destruct (_ && _) eqn:Ea; cbn [negb]; [|apply rejected; intros E; split; [by apply Hs1|done]].
  apply andb_true_iff in Ea as [Ea%bool_decide_eq_true _]. specialize (Hs1 Ea). destruct (Happ Ea) as [El Ep].
  destruct (rv_requires_commit r); [|done].
  pose proof (commitReservation_grown s1 r) as Hc. rewrite El, Ep in Hc. destruct (commitReservation s1 r) as [c s2]. cbn [snd] in Hc.
  case_bool_decide; cbn [negb]; [|by apply refused]. split; [|done]. cbn [prices with_prices].
  destruct Hc as [C1 C2 C3]. split; [rewrite C1; apply Hs1|rewrite C2; apply Hs1|]. intros i [Hi|Hi]%C3; [|by right].
  left. by rewrite <- Hroots.
Qed.

Lemma addOrder_touches e id price q sd ts : touches (Some id) (page_at e price) e (OrderBook.addOrder e id price q sd ts).
Proof.
  unfold OrderBook.addOrder. destruct (local_invalid _); [done|]. destruct (negb _); [by apply refused|].
  case_bool_decide; [by apply refused|]. destruct (_ =? 0); [by apply refused|]. destruct (negb _); [by apply refused|].
  destruct (negb _) eqn:Ev.
  { apply refused. unfold OrderTable.reservation_valid in Ev. by apply negb_true_iff, bool_decide_eq_false in Ev. }
  pose proof (acquirePage_grown e price (Some id)) as Ha. destruct (acquirePage e price) as [res|[r e1]]; [done|].
  destruct Ha as (Hg&Ho&_). pose proof (add_layout (prices e1) (rv_address r) (decodeSideChar sd) q) as Hadd.
  destruct (add _ _ _ _) as [v s1]. cbn [snd] in Hadd. cbn [prices orders with_prices].
  case_bool_decide; cbn [negb]; [|by apply refused].
  pose proof (commit_marked (orders e1) (OrderTable.reserve (orders e) id) (newState (with_prices e1 s1) q r (decodeSideChar sd))) as Hm.
  rewrite reserve_ref, Ho in Hm. rewrite Ho. destruct (OrderTable.commit _ _ _) as [c o1]. cbn [snd] in Hm. case_bool_decide; cbn [negb].
  - intros _. split; [by eapply grown_then|exact Hm].
  - cbn [prices with_prices with_orders]. destruct (erase _ _ _ _) as [b s2]. apply refused. by case_bool_decide.
Qed.

Lemma reduceOrder_touches e p sd q ts page : touches None page e (reduceOrder e p (OrderTable.deref (orders e) p) sd q ts).
Proof.
  unfold reduceOrder. set (st := OrderTable.deref (orders e) p).
  pose proof (reduceChecked_layout (prices e) (stock_locate (book e)) (price_page_index st) (addressOf st) sd (qty st) q) as Hr.
  destruct (reduceChecked _ _ _ _ _ _ _) as [v s1]. case_bool_decide; cbn [negb]; [|by apply refused]. intros _.
  split; [by apply grown_layout|]. cbn [snd orders with_book with_orders with_prices]. by apply store_marked.
Qed.

Lemma removeOrder_touches e p st sd ts page : touches None page e (removeOrder e p st sd ts).
Proof.
  unfold removeOrder. pose proof (erase_layout (prices e) (addressOf st) sd (qty st)) as Hr.
  destruct (erase _ _ _ _) as [v s1]. case_bool_decide; cbn [negb]; [|by apply refused].
  pose proof (erase_marked (orders e) (Some p)) as Hm. cbn [orders with_prices].
  destruct (OrderTable.erase _ _) as [b o1]. case_bool_decide; cbn [negb]; [|by apply refused]. intros _.
  split; [by apply grown_layout|exact Hm].
Qed.

Lemma validateState_touches ref page e s : match OrderBook.validateState e s with inl res => touches ref page e res | inr _ => True end.
Proof.
  unfold validateState. destruct s as [p|]; [|by apply refused]. destruct (negb _); [by apply refused|].
  destruct (_ || _); [by apply refused|]. by destruct (negb _); [apply refused|].
Qed.

Lemma cancelShares_touches e id q ts page : touches None page e (OrderBook.cancelShares e id q ts).
Proof.
  unfold OrderBook.cancelShares. destruct (local_invalid _); [done|]. destruct (_ =? 0); [by apply refused|].
  destruct (OrderTable.findState _ _) as [p|]; [|by apply refused]. do 2 (case_match; [by apply refused|]).
  case_match; [by case_match; apply refused|]. apply reduceOrder_touches.
Qed.

Lemma deleteOrder_touches e id ts page : touches None page e (OrderBook.deleteOrder e id ts).
Proof.
  unfold OrderBook.deleteOrder. destruct (local_invalid _); [done|].
  pose proof (validateState_touches None page e (OrderTable.findState (orders e) id)) as Hv.
  destruct (validateState _ _); [done|]. apply removeOrder_touches.
Qed.

Lemma executeOrder_touches e id q ts page : touches None page e (OrderBook.executeOrder e id q ts).
Proof.
  unfold OrderBook.executeOrder. destruct (local_invalid _); [done|]. destruct (_ =? 0); [by apply refused|].
  destruct (OrderTable.findState _ _) as [p|]; [|by apply refused]. do 2 (case_match; [by apply refused|]).
  case_match; [by case_match; apply refused|]. case_match; [case_match; [by apply refused|apply removeOrder_touches]|].
  apply reduceOrder_touches.
Qed.

Lemma replaceMove_touches e p st id q r sd ts page : touches None page e (replaceMove e p st id q r sd ts).
Proof.
  unfold replaceMove. pose proof (move_layout (prices e) (addressOf st) (qty st) (rv_address r) q sd) as Hm.
  destruct (move _ _ _ _ _ _) as [v s1]. cbn [snd] in Hm. case_bool_decide; cbn [negb].
  - cbn [orders with_prices]. pose proof (erase_marked (orders e) (Some p)) as He.
    destruct (OrderTable.erase _ _) as [b o1]. case_bool_decide; cbn [negb].
    + intros _. split; [by apply grown_layout|exact He].
    + destruct (OrderTable.eraseRef _ _) as [c o2]. destruct (move _ _ _ _ _ _) as [w s2]. by apply refused.
  - destruct (OrderTable.eraseRef _ _) as [c o2]. apply refused. by case_bool_decide.
Qed.

Lemma replaceOrder_touches e old new price q ts : touches (Some new) (page_at e price) e (OrderBook.replaceOrder e old new price q ts).
Proof.
  unfold OrderBook.replaceOrder. destruct (local_invalid _); [done|]. do 2 (case_match; [by apply refused|]).
  pose proof (validateState_touches (Some new) (page_at e price) e (OrderTable.findState (orders e) old)) as Hv.
  destruct (validateState _ _) as [|p]; [done|]. destruct (negb (new =? old) && _) eqn:Ev.
  { apply refused. apply andb_true_iff in Ev as [_ Ev]. by apply negb_true_iff, bool_decide_eq_false in Ev. }
  pose proof (acquirePage_grown e price (Some new)) as Ha. destruct (acquirePage e price) as [res|[r e1]]; [done|].
  destruct Ha as (Hg&Ho&_). set (st := OrderTable.deref (orders e1) p). destruct (new =? old).
  - pose proof (move_layout (prices e1) (addressOf st) (qty st) (rv_address r) q (decodeSide (side st))) as Hm.
    destruct (move _ _ _ _ _ _) as [v s1]. cbn [snd] in Hm. case_bool_decide; cbn [negb]; [|by apply refused].
    intros _. split; [by eapply grown_then|]. cbn [snd orders with_book with_orders with_prices].
    eapply marked_then; [rewrite <- Ho; apply marked_refl|]. by apply store_marked.
  - pose proof (commit_marked (orders e1) (OrderTable.reserve (orders e) new) (newState e1 q r (decodeSide (side st)))) as Hm.
    rewrite reserve_ref in Hm. destruct (OrderTable.commit _ _ _) as [c o1]. cbn [snd] in Hm. case_bool_decide; cbn [negb]; [|by apply refused].
    intros E. destruct (replaceMove_touches (with_orders e1 o1) p st new q r (decodeSide (side st)) ts None E) as [Hr1 Hr2]. split.
    + destruct Hr1 as [F1 F2 F3], Hg as [G1 G2 G3]. split; [etrans; [exact F1|exact G1]|etrans; [exact F2|exact G2]|]. intros i [Hi|?]%F3; [|done]. by apply G3.
    + rewrite Ho in Hm. by eapply marked_then.
Qed.

(** ** The manager *)

Import ManagerInv.
Implicit Types m : BookManager.t.

Definition created (c : Command) : option Z :=
  match c with AddOrder _ id _ _ _ _ => Some id | ReplaceOrder _ _ new _ _ _ => Some new | _ => None end.

Definition placed (c : Command) : option Z :=
  match c with
  | AddOrder l _ price _ _ _ | ReplaceOrder l _ _ price _ _ => Some (priceRootIndex l (page_index (splitPrice (u32 price))))
  | _ => None
  end.

(** An applied command touches the page and the reference it names. *)
Lemma run_touches m M c : mgr_ok m M → fst (run m c) = Applied →
  grown (placed c) (BookManager.m_prices m) (BookManager.m_prices (snd (run m c))) ∧
  marked (created c) (BookManager.m_orders m) (BookManager.m_orders (snd (run m c))).
Proof.
  intros Hm. assert (∀ l f, (∀ b, stock_locate b = l → touches (created c) (placed c) (BookManager.view m b) (f (BookManager.view m b))) →
    fst (BookManager.mutate m l f) = Applied →
    grown (placed c) (BookManager.m_prices m) (BookManager.m_prices (snd (BookManager.mutate m l f))) ∧
    marked (created c) (BookManager.m_orders m) (BookManager.m_orders (snd (BookManager.mutate m l f)))) as Hmut.
  { intros l f Hf. unfold BookManager.mutate. destruct (BookManager.find m l) as [b|] eqn:Eb; [|done].
    rewrite (find_book m M l Hm) in Eb. specialize (Hf b (be_locate _ _ _ _ (mg_book m M Hm l b Eb))).
    destruct (f _) as [r e]. exact Hf. }
  destruct c; apply Hmut; intros b Hb.
  - rewrite <- Hb. apply (addOrder_touches (BookManager.view m b)).
  - apply cancelShares_touches.
  - apply deleteOrder_touches.
  - apply executeOrder_touches.
  - rewrite <- Hb. apply (replaceOrder_touches (BookManager.view m b)).
Qed.

Lemma mutate_failures m l f ref (page : env → option Z) : (∀ e, touches ref (page e) e (f e)) →
  let '(r, m') := BookManager.mutate m l f in
  r = Applied → page_capacity_failures (BookManager.m_prices m') = page_capacity_failures (BookManager.m_prices m).
Proof.
  intros Hf. unfold BookManager.mutate. destruct (BookManager.find m l) as [b|]; [|done].
  pose proof (Hf (BookManager.view m b)) as H. destruct (f _) as [r e]. intros E. apply (gw_failures _ _ _ (proj1 (H E))).
Qed.

Lemma getOrCreate_layout m l :
  layout (BookManager.m_prices (snd (BookManager.getOrCreate m l))) = layout (BookManager.m_prices m) ∧
  BookManager.m_orders (snd (BookManager.getOrCreate m l)) = BookManager.m_orders m.
Proof.
  unfold BookManager.getOrCreate. destruct (negb _); [done|]. destruct (BookManager.find m l); [done|].
  pose proof (prepareBook_layout (BookManager.m_prices m) l) as H. destruct (prepareBook _ _) as [r s1].
  by destruct (negb _).
Qed.

(** ** The parser *)

Import Protocol ItchParser DecoderInv.
Implicit Types p : ItchParser.t.
Abbreviation kept p := (page_capacity_failures (BookManager.m_prices (books p))).

(** A state without an error has the counter of the state before. *)
Definition silent p p' : Prop := last_error p' = ""%string → kept p' = kept p.

Lemma fail_silent p q err : err ≠ ""%string → silent p (fail q err).
Proof. intros He E. by destruct He. Qed.

Lemma mutateBooks_silent p l f op ref page : (∀ e, touches ref (page e) e (f e)) →
  silent p (mutateBooks p (BookManager.mutate (books p) l f) op).
Proof.
  intros Hf. pose proof (mutate_failures (books p) l f ref page Hf) as H. unfold mutateBooks.
  destruct (BookManager.mutate _ _ _) as [r m']. unfold applyBookResult. case_bool_decide as E; [intros _; by apply H|].
  intros Ee. cbn in Ee. by destruct op.
Qed.

(** Creating books leaves the stores of the orders alone. *)
Abbreviation stores p := (layout (BookManager.m_prices (books p)), BookManager.m_orders (books p)).

Lemma stores_kept p p' : stores p' = stores p → kept p' = kept p.
Proof. by intros [= ? _ _ _]. Qed.

Lemma createRegisteredBook_stores p l : stores (snd (createRegisteredBook p l)) = stores p.
Proof.
  unfold createRegisteredBook. destruct (_ || _); [done|]. destruct (getOrCreate_layout (books p) l) as [H1 H2].
  destruct (BookManager.getOrCreate _ _) as [b m']. cbn [snd books with_books] in *. by rewrite H1, H2.
Qed.

Lemma createRegisteredBooks_stores p : stores (snd (createRegisteredBooks p)) = stores p.
Proof.
  unfold createRegisteredBooks. generalize true. induction BookManager.locates as [|l ls IH] in p |- *; intros b; [done|].
  cbn [fold_left]. destruct (StockDirectory.isRegistered _ _); [|apply IH].
  pose proof (createRegisteredBook_stores p l) as H. destruct (createRegisteredBook p l) as [c p']. cbn [snd] in H.
  rewrite IH. exact H.
Qed.

Lemma createRegisteredBook_kept p l : kept (snd (createRegisteredBook p l)) = kept p.
Proof. apply stores_kept, createRegisteredBook_stores. Qed.

Lemma createRegisteredBooks_kept p : kept (snd (createRegisteredBooks p)) = kept p.
Proof. apply stores_kept, createRegisteredBooks_stores. Qed.

Lemma advancePhase_kept p ph : kept (snd (advancePhase p ph)) = kept p.
Proof. unfold advancePhase. by destruct (negb _). Qed.

Lemma handleAdd_silent p msg l : silent p (handleAdd p msg l).
Proof.
  unfold handleAdd. destruct (StockDirectory.get _ _) as [en|]; [|by apply fail_silent].
  destruct (negb _); [by apply fail_silent|]. eapply (mutateBooks_silent _ _ _ _ _ (λ e, page_at e _)). intros e. apply addOrder_touches.
Qed.

Lemma applyExecution_silent p msg l : silent p (applyExecution p msg l).
Proof. apply (mutateBooks_silent _ _ _ _ None (λ _, None)). intros e. apply executeOrder_touches. Qed.

Lemma handleReplace_silent p msg l : silent p (handleReplace p msg l).
Proof.
  unfold handleReplace. destruct (_ =? _); [by apply fail_silent|]. eapply (mutateBooks_silent _ _ _ _ _ (λ e, page_at e _)).
  intros e. apply replaceOrder_touches.
Qed.

Lemma handleStockDirectory_silent p msg : silent p (handleStockDirectory p msg).
Proof.
  unfold handleStockDirectory. destruct (_ || _); [by apply fail_silent|].
  destruct (match _ with Some _ => _ | None => _ end); [by apply fail_silent|]. destruct (_ && _); [by apply fail_silent|].
  set (q := if bool_decide _ then _ else p). assert (kept q = kept p) as Hq by (unfold q; by case_bool_decide). clearbody q.
  destruct (StockDirectory.set _ _ _) as [r d']. destruct (negb r); [by apply fail_silent|].
  destruct (books_prepared _); [|by intros _].
  pose proof (createRegisteredBook_kept (with_symbols q d') (readU16BE msg 1)) as H.
  destruct (createRegisteredBook _ _) as [c p']. destruct (negb c); [by apply fail_silent|]. intros _. exact (eq_trans H Hq).
Qed.

Lemma handleSystemHoursStart_silent p : silent p (handleSystemHoursStart p).
Proof.
  unfold handleSystemHoursStart. pose proof (advancePhase_kept p SystemHours) as Ha.
  destruct (advancePhase p SystemHours) as [a q]. cbn [snd] in Ha. destruct (negb a); [by intros _|].
  destruct (books_prepared q); [by intros _|]. pose proof (createRegisteredBooks_kept (with_prepared q true)) as H.
  destruct (createRegisteredBooks _) as [c p']. destruct (negb c); [by apply fail_silent|]. intros _. exact (eq_trans H Ha).
Qed.

Lemma handleSystemEvent_silent p msg : silent p (handleSystemEvent p msg).
Proof.
  unfold handleSystemEvent. destruct (_ =? ch "O"); [intros _; apply advancePhase_kept|].
  destruct (_ =? ch "S"); [apply handleSystemHoursStart_silent|]. do 3 (destruct (_ =? _); [intros _; apply advancePhase_kept|]).
  destruct (_ =? ch "C"); [destruct (negb _); [by apply fail_silent|intros _; apply advancePhase_kept]|].
  destruct (_ || _); [by intros _|]. by apply fail_silent.
Qed.

Lemma dispatchType_silent p msg : silent p (snd (dispatchType p msg)).
Proof.
  unfold dispatchType. do 2 (destruct (_ =? _); [apply handleAdd_silent|]). destruct (_ =? _); [apply applyExecution_silent|].
  destruct (_ =? _).
  { cbn [snd]. unfold handleOrderExecutedWithPrice. destruct (negb _); [by apply fail_silent|apply applyExecution_silent]. }
  destruct (_ =? _); [apply (mutateBooks_silent _ _ _ _ None (λ _, None)); intros e; apply cancelShares_touches|].
  destruct (_ =? _); [apply (mutateBooks_silent _ _ _ _ None (λ _, None)); intros e; apply deleteOrder_touches|].
  destruct (_ =? _); [apply handleReplace_silent|]. destruct (_ =? _); [by intros _|].
  destruct (_ =? _); [apply handleStockDirectory_silent|]. destruct (_ =? _); [apply handleSystemEvent_silent|].
  destruct (adminType _); [|by intros _]. cbn [snd]. intros _. unfold markStartupAdminMessage. by case_bool_decide.
Qed.

Lemma handlePrevalidatedMessage_silent p msg : silent p (snd (handlePrevalidatedMessage p msg)).
Proof.
  unfold handlePrevalidatedMessage. destruct msg as [|ty rest]; [by apply fail_silent|]. unfold dispatchMessage.
  destruct (dispatchGuard _ _) as [err|]; [by intros _|]. apply (dispatchType_silent (with_status p false "")).
Qed.

(** Over messages that were all accepted. *)
Lemma handle_all_kept ms p :
  (∀ i, (0 < i <= length ms)%nat → ms_error (handle_all (take i ms) p) = ""%string) → kept (handle_all ms p) = kept p.
Proof.
  induction ms as [|m ms IH] using rev_ind; intros Hc; [done|]. rewrite length_app in Hc. cbn [length] in Hc.
  assert (handle_all (ms ++ [m]) p = snd (handlePrevalidatedMessage (handle_all ms p) m)) as E.
  { unfold handle_all. by rewrite fold_left_app. }
  rewrite E, handlePrevalidatedMessage_silent.
  - apply IH. intros i Hi. rewrite <- (Hc i) by lia. by rewrite take_app_le by lia.
  - rewrite <- E, <- (Hc (length ms + 1)%nat) by lia. by rewrite take_ge by (rewrite length_app; cbn; lia).
Qed.

End Footprint.
