(* ===== verification/EngineMain.v ===== *)
(** The engine application, [apps/md_engine_main.cpp], and the CPU affinity of
    [utils/CpuAffinity.cpp] (its Linux branch).

    A run of the application is the list of the things it does ([Event]: a line on a
    stream, a thread pinned, a receiver opened, the arenas mapped, the engine loop left)
    and its exit code.  The host is a record of what the application asks of it: the
    environment, the files, the page size, the processors, the receiver behind an
    address.  A C string is the list of its bytes before the terminator.  The banner
    that says the engine has started and the counters the receivers print are left out. *)
From stdpp Require Import base list gmap strings.
From Stdlib Require Import ZArith Lia Ascii.
From S2P Require Import Prelude Bits BookTypes Orders Prices Directory Manager Gap Protocol Parser Decoder Latency Engine.
From S2P Require Import Sha Capacity Manifest Udp.
#[local] Open Scope string_scope.
#[local] Open Scope list_scope.
#[local] Open Scope Z_scope.
#[local] Open Scope astra_scope.

Module CpuAffinity.

Inductive CpuAffinityStatus := Applied | InvalidCpu | SystemError | Unsupported.
#[global] Instance CpuAffinityStatus_eq_dec : EqDecision CpuAffinityStatus.
Proof. solve_decision. Defined.

Record CpuAffinityResult := mkResult {
  status : CpuAffinityStatus;
  cpu_id : Z;
  error_code : Z;
  message : string }.

(** [explicit operator bool]. *)
Definition applied (r : CpuAffinityResult) : bool := bool_decide (status r = Applied).

Definition EINVAL : Z := 22.
Definition CPU_SETSIZE : Z := 1024.

(** [concurrency] is [std::thread::hardware_concurrency()]. *)
Definition availableCpuCount (concurrency : Z) : Z := if concurrency =? 0 then 1 else concurrency.

(** A [cpu_set_t] is its bit mask; [setaffinity] answers the code of
    [pthread_setaffinity_np] for a mask. *)
Definition CPU_SET (cpu cpuset : Z) : Z := cpuset .| (1 ≪ cpu).

Definition pinCurrentThreadToCpu (concurrency : Z) (setaffinity : Z → Z) (cpu : Z) : CpuAffinityResult :=
  if cpu <? 0 then mkResult InvalidCpu cpu EINVAL "cpu_id must be non-negative" else
  if availableCpuCount concurrency <=? cpu
  then mkResult InvalidCpu cpu EINVAL "cpu_id is outside the visible CPU range" else
  if CPU_SETSIZE <=? cpu then mkResult InvalidCpu cpu EINVAL "cpu_id exceeds CPU_SETSIZE" else
  let cpuset := CPU_SET cpu 0 in
  let rc := setaffinity cpuset in
  if negb (rc =? 0) then mkResult SystemError cpu rc "pthread_setaffinity_np failed"
  else mkResult Applied cpu 0 "current thread pinned to requested CPU".

(** The loop of [clearCurrentThreadAffinity]: [n] turns at most, from [cpu]. *)
Fixpoint cpuLoop (n : nat) (cpu cpu_count cpuset : Z) : Z :=
  match n with
  | O => cpuset
  | S n => if (cpu <? cpu_count) && (cpu <? CPU_SETSIZE)
           then cpuLoop n (cpu + 1) cpu_count (CPU_SET cpu cpuset) else cpuset
  end.

Definition clearCurrentThreadAffinity (concurrency : Z) (setaffinity : Z → Z) : CpuAffinityResult :=
  let cpu_count := availableCpuCount concurrency in
  let rc := setaffinity (cpuLoop (Z.to_nat CPU_SETSIZE) 0 cpu_count 0) in
  if negb (rc =? 0) then mkResult SystemError (-1) rc "pthread_setaffinity_np failed"
  else mkResult Applied (-1) 0 "current thread affinity reset to all known CPUs".

Definition cpuAffinityStatusName (s : CpuAffinityStatus) : string :=
  match s with
  | Applied => "applied"
  | InvalidCpu => "invalid_cpu"
  | SystemError => "system_error"
  | Unsupported => "unsupported"
  end.

End CpuAffinity.

Module EngineMain.
Import Protocol BookCapacity.

(** ** Settings *)

(** [std::string(value)], a C string in a message. *)
Definition text (value : list Z) : string :=
  String.string_of_list_ascii ((λ c, ascii_of_nat (Z.to_nat c)) <$> value).
(** [strcmp(value, s) == 0]. *)
Definition equals (value : list Z) (s : string) : bool := bool_decide (value = Manifest.str s).

(** [from_chars] over a whole string. *)
Definition wholeNumber (value : list Z) : option Z :=
  match Manifest.fromChars value with
  | Some (parsed, n) => if Nat.eqb n (length value) then Some parsed else None
  | None => None
  end.

Definition envBool (name : string) (value : option (list Z)) (fallback : bool) : string + bool :=
  match value with
  | None => inr fallback
  | Some value =>
    if equals value "0" || equals value "false" || equals value "off" || equals value "no" then inr false else
    if equals value "1" || equals value "true" || equals value "on" || equals value "yes" then inr true else
    inl (name +:+ " must be one of on/off, true/false, yes/no, 1/0")
  end.

Definition parseUnsignedArgument (value : option (list Z)) (minimum maximum : Z) : option Z :=
  match value with
  | None | Some [] => None
  | Some value =>
    match wholeNumber value with
    | Some parsed => if (minimum <=? parsed) && (parsed <=? maximum) then Some parsed else None
    | None => None
    end
  end.

Record BookDeploymentCapacity := mkDeployment {
  dep_name : list Z;
  evidence_schema : list Z;
  dep_evidence_sha256 : list Z;
  dep_corpus_manifest_sha256 : list Z;
  dep_profiler_sha256 : list Z;
  dep_profile_output_sha256 : list Z;
  dep_config : BookManagerConfig;
  dep_evidence : BookCapacityEvidence;
  dep_minimum_headroom : BookCapacityHeadroom;
  effective_headroom : BookCapacityHeadroom }.

Definition requireManifestValue (name : string) (configured manifested : Z) : string + unit :=
  if negb (configured =? manifested)
  then inl (name +:+ " differs from the capacity evidence manifest") else inr ().

(** [profile.config.orders.prefault = profile.config.prices.prefault = prefault]. *)
Definition withPrefault (p : BookCapacityProfile) (prefault : bool) : BookCapacityProfile :=
  mkProfile (name p) (evidence_sha256 p)
    (mkConfig (mkOrders (direct_slots (orders (config p))) (fallback_bucket_count (orders (config p))) prefault)
       (mkPrices (page_capacity (prices (config p))) prefault))
    (evidence p) (minimum_headroom p).

Section environment.
Context (getenv : string → option (list Z)).

(** A variable that is set and not empty. *)
Definition present (name : string) : option (list Z) :=
  match getenv name with
  | None | Some [] => None
  | Some value => Some value
  end.

Definition envU64 (name : string) (fallback minimum maximum : Z) : string + Z :=
  match present name with
  | None => inr fallback
  | Some value =>
    match wholeNumber value with
    | Some parsed =>
      if (parsed <? minimum) || (maximum <? parsed)
      then inl (name +:+ " is not a valid in-range integer") else inr parsed
    | None => inl (name +:+ " is not a valid in-range integer")
    end
  end.

Definition requiredEnvU64 (name : string) (minimum maximum : Z) : string + Z :=
  match present name with
  | None => inl (name +:+ " is required for a custom capacity profile")
  | Some _ => envU64 name 0 minimum maximum
  end.

Definition requiredMetadataToken (name : string) (maximum_length : nat) : string + list Z :=
  match present name with
  | None => inl (name +:+ " is required")
  | Some token =>
    if Nat.ltb maximum_length (length token) then inl (name +:+ " is too long") else
    if forallb Manifest.isProfileChar token then inr token
    else inl (name +:+ " must contain only alphanumerics or - _ . : / +")
  end.

Definition requiredSha256 (name : string) : string + list Z :=
  match present name with
  | None => inl (name +:+ " is required")
  | Some digest =>
    if negb (Nat.eqb (length digest) 64) then inl (name +:+ " must be exactly 64 lowercase hex digits") else
    if forallb (λ c, ((48 <=? c) && (c <=? 57)) || ((97 <=? c) && (c <=? 102))) digest then inr digest
    else inl (name +:+ " must be exactly 64 lowercase hex digits")
  end.

Definition requiredEnvironmentValue (name : string) : string + list Z :=
  match present name with
  | None => inl (name +:+ " is required")
  | Some value => inr value
  end.

Definition bookCapacityFromEnvironment (readFile : list Z → option (list Z)) : string + BookDeploymentCapacity :=
  profile_name ← requiredMetadataToken "ASTRA_BOOK_CAPACITY_PROFILE" 128;
  expected_evidence_sha256 ← requiredSha256 "ASTRA_BOOK_CAPACITY_EVIDENCE_SHA256";
  evidence_file ← requiredEnvironmentValue "ASTRA_BOOK_CAPACITY_EVIDENCE_FILE";
  configured_direct_slots ← requiredEnvU64 "ASTRA_ORDER_DIRECT_SLOTS" 1 max_u64;
  configured_fallback_buckets ← requiredEnvU64 "ASTRA_ORDER_FALLBACK_BUCKETS" 1 max_u32;
  configured_price_pages ← requiredEnvU64 "ASTRA_PRICE_PAGE_CAPACITY" 1 (max_u32 - 1);
  configured_maximum_order_reference ← requiredEnvU64 "ASTRA_PROFILED_MAX_ORDER_REF" 1 max_u64;
  configured_unique_price_pages ← requiredEnvU64 "ASTRA_PROFILED_UNIQUE_PRICE_PAGES" 1 (max_u32 - 1);
  configured_minimum_direct_headroom ← requiredEnvU64 "ASTRA_MIN_DIRECT_ORDER_HEADROOM" 1 max_u64;
  configured_minimum_price_headroom ← requiredEnvU64 "ASTRA_MIN_PRICE_PAGE_HEADROOM" 1 max_u32;
  manifest ← Manifest.loadBookCapacityEvidenceManifest evidence_file (readFile evidence_file) profile_name
               expected_evidence_sha256;
  if negb (bool_decide (Manifest.schema manifest = Manifest.kSchemaV2))
  then inl "md_engine startup requires astra_book_capacity_evidence_v2" else
  let profile := Manifest.profile manifest in
  _ ← requireManifestValue "ASTRA_ORDER_DIRECT_SLOTS" configured_direct_slots (direct_slots (orders (config profile)));
  _ ← requireManifestValue "ASTRA_ORDER_FALLBACK_BUCKETS" configured_fallback_buckets
        (fallback_bucket_count (orders (config profile)));
  _ ← requireManifestValue "ASTRA_PRICE_PAGE_CAPACITY" configured_price_pages (page_capacity (prices (config profile)));
  _ ← requireManifestValue "ASTRA_PROFILED_MAX_ORDER_REF" configured_maximum_order_reference
        (profiled_max_order_reference (evidence profile));
  _ ← requireManifestValue "ASTRA_PROFILED_UNIQUE_PRICE_PAGES" configured_unique_price_pages
        (profiled_unique_price_pages (evidence profile));
  _ ← requireManifestValue "ASTRA_MIN_DIRECT_ORDER_HEADROOM" configured_minimum_direct_headroom
        (direct_order_reference_slots (minimum_headroom profile));
  _ ← requireManifestValue "ASTRA_MIN_PRICE_PAGE_HEADROOM" configured_minimum_price_headroom
        (price_pages (minimum_headroom profile));
  prefault ← envBool "ASTRA_BOOK_PREFAULT" (getenv "ASTRA_BOOK_PREFAULT") true;
  let profile := withPrefault profile prefault in
  validation ← validateBookCapacityProfile profile;
  inr (mkDeployment (name profile) (Manifest.schema manifest) (evidence_sha256 profile)
         (Manifest.corpus_manifest_sha256 manifest) (Manifest.profiler_sha256 manifest)
         (Manifest.profile_output_sha256 manifest) (config profile) (evidence profile) (minimum_headroom profile)
         validation).

End environment.

(** ** Reports *)

Inductive Value := Num (n : Z) | Bytes (bs : list Z) | Word (w : string).
Definition Fields : Type := list (string * Value).
Definition flag (b : bool) (yes no : string) : Value := Word (if b then yes else no).

Definition printBookCapacityProfile (d : BookDeploymentCapacity) : Fields :=
  [("name", Bytes (dep_name d)); ("evidence_schema", Bytes (evidence_schema d));
   ("evidence_sha256", Bytes (dep_evidence_sha256 d));
   ("corpus_manifest_sha256", Bytes (dep_corpus_manifest_sha256 d));
   ("profiler_sha256", Bytes (dep_profiler_sha256 d));
   ("profile_output_sha256", if bool_decide (dep_profile_output_sha256 d = []) then Word "not-recorded-v1"
                             else Bytes (dep_profile_output_sha256 d));
   ("order_direct_slots", Num (direct_slots (orders (dep_config d))));
   ("order_fallback_buckets", Num (fallback_bucket_count (orders (dep_config d))));
   ("price_page_capacity", Num (page_capacity (prices (dep_config d))));
   ("profiled_max_order_ref", Num (profiled_max_order_reference (dep_evidence d)));
   ("profiled_unique_price_pages", Num (profiled_unique_price_pages (dep_evidence d)));
   ("minimum_direct_order_headroom", Num (direct_order_reference_slots (dep_minimum_headroom d)));
   ("effective_direct_order_headroom", Num (direct_order_reference_slots (effective_headroom d)));
   ("minimum_price_page_headroom", Num (price_pages (dep_minimum_headroom d)));
   ("effective_price_page_headroom", Num (price_pages (effective_headroom d)))].

Definition printBookStoragePlan (f : BookStorageFootprint) : Fields :=
  [("system_page_bytes", Num (system_page_bytes f)); ("planned_mapped_bytes", Num (mapped_array_bytes f));
   ("planned_descriptor_bytes", Num (descriptor_slot_bytes f));
   ("planned_descriptor_mapped_bytes", Num (descriptor_mapped_bytes f));
   ("planned_storage_bytes", Num (planned_storage_bytes f))].

(** The line on the storage that was mapped. *)
Definition storageReport (c : BookManagerConfig) (f : BookStorageFootprint) : Fields :=
  [("direct_order_slots", Num (direct_slots (orders c))); ("fallback_buckets", Num (fallback_bucket_count (orders c)));
   ("price_pages", Num (page_capacity (prices c))); ("prefault", flag (prices_prefault (prices c)) "on" "off");
   ("effective_mapped_bytes", Num (mapped_array_bytes f)); ("effective_descriptor_bytes", Num (descriptor_slot_bytes f));
   ("effective_descriptor_mapped_bytes", Num (descriptor_mapped_bytes f));
   ("effective_storage_bytes", Num (planned_storage_bytes f))].

Definition channelHealthName (status : ChannelHealth) : string :=
  match status with
  | Good => "Good"
  | GapDetected => "GapDetected"
  | Recovering => "Recovering"
  | Stale => "Stale"
  | Invalid => "Invalid"
  end.

Definition channelPhaseName (phase : ChannelPhase) : string :=
  match phase with
  | WaitingStartOfMessages => "WaitingStartOfMessages"
  | StartupDirectorySpin => "StartupDirectorySpin"
  | StartupAdminSpin => "StartupAdminSpin"
  | SystemHours => "SystemHours"
  | MarketHours => "MarketHours"
  | PostMarketHours => "PostMarketHours"
  | PostSystemHours => "PostSystemHours"
  | EndOfMessages => "EndOfMessages"
  end.

(** The gap buffer of a channel, [kCapacity] slots. *)
Definition channelBuffer : RecoveryBuffer GapBuffer.t := GapBuffer.recoveryBuffer 20 ltac:(lia).

(** The decoder with the books and the directory behind it. *)
Abbreviation Decoder := (MoldUdpDecoder.t GapBuffer.t ItchParser.t).

Definition auditFields (a : BookManager.Audit) : Fields :=
  [("registered_symbols", Num (BookManager.registered_symbols a));
   ("materialized_books", Num (BookManager.materialized_books a));
   ("prepared_books", Num (BookManager.prepared_books a));
   ("registered_books_missing", Num (BookManager.registered_books_missing a));
   ("unregistered_books_present", Num (BookManager.unregistered_books_present a));
   ("descriptor_price_state_mismatches", Num (BookManager.descriptor_price_state_mismatches a));
   ("descriptor_identity_mismatches", Num (BookManager.descriptor_identity_mismatches a))].

(** What the application reads of the channel and the books when the loop is left. *)
Record FinalState := mkFinal {
  channel : MoldUdpDecoder.ChannelState GapBuffer.t;
  final_live_orders : Z;
  end_of_stream_accepted : bool;
  book_directory_audit : BookManager.Audit;
  price_counters : PriceLevelStore.PriceLevelStoreCounters }.

Definition finalState (d : Decoder) : FinalState :=
  let p := MoldUdpDecoder.parser d in
  mkFinal (MoldUdpDecoder.channel d) (BookManager.totalLiveOrderCount (ItchParser.books p))
    (MoldUdpDecoder.endOfStreamAccepted d)
    (BookManager.auditDirectory (ItchParser.books p) (ItchParser.symbols p))
    (PriceLevelStore.counters (BookManager.m_prices (ItchParser.books p))).

(** The line [engine_stats]; a status prints as the number of its constructor. *)
Definition engineStats (s : FinalState) : Fields :=
  let c := channel s in
  let number := match MoldUdpDecoder.health c with
                | Good => 0 | GapDetected => 1 | Recovering => 2 | Stale => 3 | Invalid => 4 end in
  ([("channel_next_seq", Num (MoldUdpDecoder.next_expected_seq c)); ("channel_status", Num number);
    ("channel_status_name", Word (channelHealthName (MoldUdpDecoder.health c)));
    ("channel_phase_name", Word (channelPhaseName (MoldUdpDecoder.phase c)));
    ("identical_buffered_redundant_packets", Num (MoldUdpDecoder.identical_buffered_redundant_packets c));
    ("conflicting_buffered_redundant_packets", Num (MoldUdpDecoder.conflicting_buffered_redundant_packets c));
    ("final_live_orders", Num (final_live_orders s))] ++ auditFields (book_directory_audit s) ++
   [("committed_price_pages", Num (PriceLevelStore.ct_committed_pages (price_counters s)));
    ("price_page_capacity", Num (PriceLevelStore.ct_page_capacity (price_counters s)));
    ("price_page_capacity_failures", Num (PriceLevelStore.ct_page_capacity_failures (price_counters s)));
    ("end_of_stream_accepted", flag (end_of_stream_accepted s) "true" "false")]).

(** The line [gap_stats], when there is one. *)
Definition gapStats (s : FinalState) : option Fields :=
  let c := channel s in
  if negb (bool_decide (MoldUdpDecoder.health c = Good)) || negb (GapBuffer.empty (MoldUdpDecoder.gap_buffer c)) then
    let next := MoldUdpDecoder.next_expected_seq c in
    let g := GapBuffer.stats GapBuffer.kCapacity (MoldUdpDecoder.gap_buffer c) next in
    let at_or_after := GapBuffer.next_seq_at_or_after g in
    Some ([("missing_seq", Num next); ("buffered_packets", Num (GapBuffer.st_size g));
           ("min_buffered_seq", Num (GapBuffer.min_seq g)); ("max_buffered_seq", Num (GapBuffer.max_seq g));
           ("next_buffered_seq", Num at_or_after)] ++
          if (next <=? at_or_after) && negb (at_or_after =? 0)
          then [("gap_messages_to_next", Num (u64 (at_or_after - next)))] else [])
  else None.

(** The check that decides the exit code. *)
Definition unhealthy (s : FinalState) : bool :=
  negb (bool_decide (MoldUdpDecoder.health (channel s) = Good)) ||
  negb (GapBuffer.empty (MoldUdpDecoder.gap_buffer (channel s))) ||
  negb (bool_decide (MoldUdpDecoder.phase (channel s) = EndOfMessages)) ||
  negb (final_live_orders s =? 0) || negb (BookManager.clean (book_directory_audit s)) ||
  negb (PriceLevelStore.ct_page_capacity_failures (price_counters s) =? 0) ||
  negb (end_of_stream_accepted s).

Definition failureReport (s : FinalState) : Fields :=
  ([("status", Word (channelHealthName (MoldUdpDecoder.health (channel s))));
    ("phase", Word (channelPhaseName (MoldUdpDecoder.phase (channel s))));
    ("final_live_orders", Num (final_live_orders s))] ++ auditFields (book_directory_audit s) ++
   [("price_page_capacity_failures", Num (PriceLevelStore.ct_page_capacity_failures (price_counters s)));
    ("end_of_stream_accepted", flag (end_of_stream_accepted s) "true" "false")]).

(** ** The command line *)

Record Arguments_ := mkArguments {
  dual_feed : bool;
  ip : list Z;
  port : Z;
  ip_b : list Z;
  port_b : Z;
  arg_channel_id : Z }.

(** [argv] with the program's name first; an error is the text on the error stream. *)
Definition parseArguments (argv : list (list Z)) : string + Arguments_ :=
  let argc := length argv in
  if negb (Nat.eqb argc 3) && negb (Nat.eqb argc 4) && negb (Nat.eqb argc 5) && negb (Nat.eqb argc 6)
  then inl "Usage" else
  let dual := Nat.eqb argc 5 || Nat.eqb argc 6 in
  match parseUnsignedArgument (argv !! 2%nat) 1 max_u16 with
  | None => inl "port_a must be an integer from 1 through 65535"
  | Some port_a =>
    match (if dual then parseUnsignedArgument (argv !! 4%nat) 1 max_u16 else Some 0) with
    | None => inl "port_b must be an integer from 1 through 65535"
    | Some second =>
      let channel_argument := if negb dual && Nat.eqb argc 4 then argv !! 3%nat
                              else if dual && Nat.eqb argc 6 then argv !! 5%nat else None in
      match (match channel_argument with
             | Some _ => parseUnsignedArgument channel_argument 0 255
             | None => Some 0
             end) with
      | None => inl "channel_id must be an integer from 0 through 255"
      | Some id =>
        inr (mkArguments dual (nth 1 argv []) (u16 port_a) (if dual then nth 3 argv [] else []) (u16 second) (u8 id))
      end
    end
  end.

(** The receiver a run asks for, with the arguments of its constructor. *)
Inductive Receiver :=
  | DpdkDual (ip : list Z) (port : Z) (ip_b : list Z) (port_b : Z)
  | DpdkSingle (ip : list Z) (port : Z)
  | DualBatch (ip : list Z) (port : Z) (ip_b : list Z) (port_b : Z) (batch_size : Z)
  | Dual (ip : list Z) (port : Z) (ip_b : list Z) (port_b : Z)
  | Batch (ip : list Z) (port : Z) (batch_size : Z)
  | Single (ip : list Z) (port : Z).

Record Settings := mkSettings {
  use_dpdk : bool;
  use_recvmmsg : bool;
  batch_size : Z;
  engine_config : EngineConfig }.

Definition kDefaultBatchSize : Z := 8.
Definition defaultEngineConfig : EngineConfig := Engine.mkConfig true false false false.

(** The transport and the metrics, from the environment. *)
Definition settings (getenv : string → option (list Z)) : string + Settings :=
  let rx_transport := getenv "ASTRA_RX" in
  let dpdk := match rx_transport with Some v => equals v "dpdk" | None => false end in
  _ ← match rx_transport with
      | Some v => if negb dpdk && negb (equals v "udp") && negb (equals v "kernel")
                  then inl ("Unknown ASTRA_RX: " +:+ text v) else inr ()
      | None => inr ()
      end;
  let rx_mode := getenv "ASTRA_UDP_RX" in
  let recvmmsg := match rx_mode with Some v => equals v "recvmmsg" || equals v "batch" | None => false end in
  _ ← match rx_mode with
      | Some v => if negb (bool_decide (v = [])) && negb recvmmsg && negb (equals v "recv")
                  then inl ("Unknown ASTRA_UDP_RX: " +:+ text v) else inr ()
      | None => inr ()
      end;
  batch ← match getenv "ASTRA_UDP_BATCH_SIZE" with
          | Some _ => envU64 getenv "ASTRA_UDP_BATCH_SIZE" kDefaultBatchSize 1 (Z.of_nat UdpBatchReceiver.kMaxBatchSize)
          | None => inr kDefaultBatchSize
          end;
  metrics ← envBool "ASTRA_LATENCY_METRICS" (getenv "ASTRA_LATENCY_METRICS")
              (enable_latency_metrics defaultEngineConfig);
  inr (mkSettings dpdk recvmmsg batch
         (Engine.mkConfig metrics (enable_stage_latency_metrics defaultEngineConfig)
            (stop_on_decode_error defaultEngineConfig) (stop_on_sequence_gap defaultEngineConfig))).

(** The choice of the receiver; [dpdk_build] is [ASTRA_ENABLE_DPDK]. *)
Definition selectReceiver (dpdk_build : bool) (a : Arguments_) (s : Settings) : string + Receiver :=
  if use_dpdk s then
    if negb dpdk_build
    then inl "ASTRA_RX=dpdk requested, but md_engine was built without -DASTRA_ENABLE_DPDK=ON"
    else inr (if dual_feed a then DpdkDual (ip a) (port a) (ip_b a) (port_b a) else DpdkSingle (ip a) (port a))
  else if dual_feed a then
    inr (if use_recvmmsg s then DualBatch (ip a) (port a) (ip_b a) (port_b a) (batch_size s)
         else Dual (ip a) (port a) (ip_b a) (port_b a))
  else inr (if use_recvmmsg s then Batch (ip a) (port a) (batch_size s) else Single (ip a) (port a)).

(** ** A run *)

Section run.
Context {S : Type} `{IMarketDataSource S} (elapsed : Z → Z).
#[local] Hint Extern 0 (IPacketProcessor _) => exact (decoder_processor elapsed) : typeclass_instances.
#[local] Existing Instance channelBuffer.

Record Host := mkHost {
  getenv : string → option (list Z);
  readFile : list Z → option (list Z);
  system_page : Z;
  dpdk_build : bool;
  hardware_concurrency : Z;
  setaffinity : Z → Z;
  (** The constructor of a receiver, or the exception it throws. *)
  openReceiver : Receiver → string + S;
  (** The exception of an arena that the system refuses. *)
  arenaFailure : BookManagerConfig → option string }.
Context (host : Host).

Inductive Event :=
  | Out (line : string) (fields : Fields)
  | Err (line : string) (fields : Fields)
  | Pinned (r : CpuAffinity.CpuAffinityResult) (phase : string)
  | Opened (r : Receiver)
  | Mapped (c : BookManagerConfig)
  | Ran (e : MarketDataEngine.t S Decoder)
  | LatencyReport (r : LatencyRecorder.t).

(** What was done, and the exception or the value. *)
Definition M (A : Type) : Type := list Event * (string + A).
#[global] Instance M_ret : MRet M := λ A x, ([], inr x).
#[global] Instance M_bind : MBind M := λ A B f m,
  match m with
  | (done, inl e) => (done, inl e)
  | (done, inr x) => (done ++ fst (f x), snd (f x))
  end.
Definition lift {A} (r : string + A) : M A := ([], r).
Definition emit (e : Event) : M () := ([e], inr ()).
Definition throw {A} (e : string) : M A := ([], inl e).

Definition pinRequestedCpu (phase : string) : M () :=
  match present (getenv host) "ASTRA_CPU" with
  | None => mret ()
  | Some cpu_env =>
    match wholeNumber cpu_env with
    | Some parsed_cpu =>
      if 2147483647 <? parsed_cpu
      then throw "ASTRA_CPU must be a non-negative in-range integer CPU ID" else
      let affinity := CpuAffinity.pinCurrentThreadToCpu (hardware_concurrency host) (setaffinity host) parsed_cpu in
      emit (Pinned affinity phase);;
      emit (Out "cpu_affinity"
        ([("status", Word (CpuAffinity.cpuAffinityStatusName (CpuAffinity.status affinity)));
          ("cpu", Num (CpuAffinity.cpu_id affinity)); ("phase", Word phase)] ++
         if CpuAffinity.applied affinity then []
         else [("error", Num (CpuAffinity.error_code affinity)); ("message", Word (CpuAffinity.message affinity))]));;
      if CpuAffinity.applied affinity then mret ()
      else throw "requested CPU affinity is required for this run"
    | None => throw "ASTRA_CPU must be a non-negative in-range integer CPU ID"
    end
  end.

(** The capacity gate: evidence and storage plan are checked and reported. *)
Definition capacityGate : M BookDeploymentCapacity :=
  deployment ← lift (bookCapacityFromEnvironment (getenv host) (readFile host));
  planned_storage ← lift (estimateBookStorageFootprint (dep_config deployment) (system_page host));
  emit (Out "book_capacity_profile" (printBookCapacityProfile deployment));;
  emit (Out "book_storage_plan" (printBookStoragePlan planned_storage));;
  mret deployment.

(** [std::make_unique] of the chosen receiver. *)
Definition openSource (a : Arguments_) (s : Settings) : M S :=
  receiver ← lift (selectReceiver (dpdk_build host) a s);
  source ← lift (openReceiver host receiver);
  emit (Opened receiver);;
  mret source.

(** The books, the directory and the decoder over them. *)
Definition buildDecoder (c : BookManagerConfig) (channel_id : Z) : M Decoder :=
  built ← lift (newBookManager c (system_page host));
  match arenaFailure host c with
  | Some e => throw e
  | None =>
    emit (Mapped c);;
    emit (Out "book_storage" (storageReport c (fst built)));;
    mret (MoldUdpDecoder.make (ItchParser.make StockDirectory.empty (snd built) channel_id) channel_id 1)
  end.

(** Everything up to [engine.run()]. *)
Definition startEngine (a : Arguments_) : M (MarketDataEngine.t S Decoder) :=
  s ← lift (settings (getenv host));
  deployment ← capacityGate;
  (if use_dpdk s then mret () else pinRequestedCpu "pre_source");;
  source ← openSource a s;
  (if use_dpdk s then pinRequestedCpu "post_dpdk_eal" else mret ());;
  decoder ← buildDecoder (dep_config deployment) (arg_channel_id a);
  mret (MarketDataEngine.make source decoder LatencyRecorder.make (engine_config s)).

Definition onSignal (e : MarketDataEngine.t S Decoder) : MarketDataEngine.t S Decoder := snd (MarketDataEngine.stop e).

(** [engine.run()] for [turns] iterations, and then a signal when [signalled]. *)
Definition execute (turns : nat) (signalled : bool) (e : MarketDataEngine.t S Decoder) : MarketDataEngine.t S Decoder :=
  let e := MarketDataEngine.run turns e in
  if signalled then onSignal e else e.

(** The reports after the loop, and the exit code. *)
Definition finish (e : MarketDataEngine.t S Decoder) : M bool :=
  let s := finalState (MarketDataEngine.processor e) in
  emit (Out "Engine stopped"
    [("symbols", Num (StockDirectory.size (ItchParser.symbols (MoldUdpDecoder.parser (MarketDataEngine.processor e)))))]);;
  emit (Out "engine_stats" (engineStats s));;
  match gapStats s with Some g => emit (Out "gap_stats" g) | None => mret () end;;
  (if enable_latency_metrics (MarketDataEngine.config e)
   then emit (LatencyReport (MarketDataEngine.latency_recorder e)) else mret ());;
  if unhealthy s then
    emit (Err "channel did not finish a complete healthy session:" (failureReport s));;
    mret false
  else mret true.

(** The part of [main] under the [try]; [None] while the loop has not been left. *)
Definition session (a : Arguments_) (turns : nat) (signalled : bool) : M (option bool) :=
  engine ← startEngine a;
  let engine := execute turns signalled engine in
  if MarketDataEngine.isRunning engine then mret None else
  emit (Ran engine);;
  ok ← finish engine;
  mret (Some ok).

(** [catch (const std::exception &e)]. *)
Definition guarded (m : M (option bool)) : list Event * option bool :=
  match m with
  | (done, inl e) => (done ++ [Err "Fatal: " [("what", Word e)]], Some false)
  | (done, inr r) => (done, r)
  end.

(** What the application does and whether it exits with success, when it exits. *)
Definition main (argv : list (list Z)) (turns : nat) (signalled : bool) : list Event * option bool :=
  if Nat.eqb (length argv) 2 && equals (nth 1 argv []) "--book-storage-plan-only"
  then guarded (_ ← capacityGate; mret (Some true))
  else
  match parseArguments argv with
  | inl usage => ([Err usage []], Some false)
  | inr a => guarded (session a turns signalled)
  end.

End run.
#[global] Arguments Host S : clear implicits.
#[global] Arguments Event S : clear implicits.

End EngineMain.
