(* ===== verification/EngineMainProps.v ===== *)
(** The engine application: what it deploys is what the capacity evidence says, nothing
    is opened or mapped before that, and it exits with success exactly on complete
    sessions. *)
From stdpp Require Import base list gmap strings.
From Stdlib Require Import ZArith Lia Ascii Sorted.
From S2P Require Import Prelude Bits BookTypes Orders Prices Book BookOps Directory Manager ManagerInv Probe Gap Protocol.
From S2P Require Import Parser ParserInv ManagerProps ParserProps Decoder DecoderInv DecoderProps Replay ReplayInv.
From S2P Require Import ReplayProps SessionProps Footprint Latency Engine EngineProps Sha Capacity Manifest ManifestProps Udp EngineMain.
#[local] Open Scope string_scope.
#[local] Open Scope list_scope.
#[local] Open Scope Z_scope.
#[local] Open Scope astra_scope.

Module EngineMainProps.
Import Protocol BookCapacity EngineMain ReplayInv ReplayProps SessionProps.

(** ** CPU affinity *)

(** A thread is pinned exactly when the CPU is visible, fits the set and the system
    accepts the set of that one CPU. *)
Lemma pin_exact concurrency setaffinity cpu :
  CpuAffinity.applied (CpuAffinity.pinCurrentThreadToCpu concurrency setaffinity cpu) = true ↔
  0 <= cpu < Z.min (CpuAffinity.availableCpuCount concurrency) CpuAffinity.CPU_SETSIZE ∧ setaffinity (2 ^ cpu) = 0.
Proof.
  unfold CpuAffinity.pinCurrentThreadToCpu, CpuAffinity.CPU_SET. cbn zeta.
  destruct (Z.ltb_spec cpu 0); [split; [done|lia]|]. destruct (Z.leb_spec (CpuAffinity.availableCpuCount concurrency) cpu); [split; [done|lia]|].
  destruct (Z.leb_spec CpuAffinity.CPU_SETSIZE cpu); [split; [done|lia]|].
  rewrite Z.lor_0_l, Z.shiftl_1_l. destruct (Z.eqb_spec (setaffinity (2 ^ cpu)) 0); cbn [negb]; [|split; [done|lia]].
  split; [intros _; lia|done].
Qed.

Lemma cpuLoop_ones n cpu count : 0 <= cpu →
  CpuAffinity.cpuLoop n cpu count (Z.ones cpu) = Z.ones (Z.max cpu (Z.min (cpu + Z.of_nat n) (Z.min count CpuAffinity.CPU_SETSIZE))).
Proof.
  revert cpu. induction n as [|n IH]; intros cpu Hc; cbn [CpuAffinity.cpuLoop]; [f_equal; lia|].
  destruct (_ && _) eqn:E.
  - apply andb_true_iff in E as [H1%Z.ltb_lt H2%Z.ltb_lt].
    assert (CpuAffinity.CPU_SET cpu (Z.ones cpu) = Z.ones (cpu + 1)) as ->.
    { unfold CpuAffinity.CPU_SET. rewrite Z.shiftl_1_l. apply Z.bits_inj'. intros i Hi. rewrite Z.lor_spec, Z.pow2_bits_eqb by lia.
      rewrite !Z.testbit_ones_nonneg by lia. destruct (Z.eqb_spec cpu i), (Z.ltb_spec i cpu), (Z.ltb_spec i (cpu + 1)); lia || done. }
    rewrite IH by lia. f_equal. lia.
  - f_equal. apply andb_false_iff in E as [?%Z.ltb_ge|?%Z.ltb_ge]; lia.
Qed.

(** The set that undoes a pinning holds every visible CPU. *)
Lemma clear_mask count : 0 <= count →
  CpuAffinity.cpuLoop (Z.to_nat CpuAffinity.CPU_SETSIZE) 0 count 0 = Z.ones (Z.min count CpuAffinity.CPU_SETSIZE).
Proof. intros Hc. rewrite (cpuLoop_ones _ 0 count) by lia. f_equal. unfold CpuAffinity.CPU_SETSIZE. lia. Qed.

(** ** Numbers of the environment *)

Lemma wholeNumber_exact v n :
  wholeNumber v = Some n ↔ v ≠ [] ∧ forallb Manifest.isDigit v = true ∧ Manifest.decimalValue v = n ∧ n <= max_u64.
Proof.
  unfold wholeNumber, Manifest.fromChars. split.
  - destruct (Nat.eqb_spec (length (Manifest.digitPrefix v)) 0) as [|Hne]; [done|]. cbn [orb].
    destruct (Z.ltb_spec max_u64 (Manifest.decimalValue (Manifest.digitPrefix v))); [done|].
    destruct (Nat.eqb_spec (length (Manifest.digitPrefix v)) (length v)) as [E|]; [|done]. intros [= <-].
    pose proof (ManifestProps.digitPrefix_whole v E) as Hd. rewrite ManifestProps.digitPrefix_all in * by done.
    split; [by intros ->|done].
  - intros (Hne&Hd&<-&Hn). rewrite (ManifestProps.digitPrefix_all v Hd), (proj2 (Z.ltb_ge max_u64 _)) by done.
    destruct v; [done|]. cbn [length Nat.eqb orb]. by rewrite Nat.eqb_refl.
Qed.

Section settings.
Context (env : string → option (list Z)).

(** The variable holds the number, in decimal digits. *)
Definition setting (name : string) (n : Z) : Prop :=
  ∃ v, env name = Some v ∧ v ≠ [] ∧ forallb Manifest.isDigit v = true ∧ Manifest.decimalValue v = n.

Lemma present_exact name v : present env name = Some v ↔ env name = Some v ∧ v ≠ [].
Proof. unfold present. destruct (env name) as [[|c w]|]; naive_solver. Qed.

Lemma requiredEnvU64_exact name lo hi n : hi <= max_u64 →
  requiredEnvU64 env name lo hi = inr n ↔ setting name n ∧ lo <= n <= hi.
Proof.
  intros Hhi. unfold requiredEnvU64, envU64, setting. destruct (present env name) as [v|] eqn:Ep.
  - apply present_exact in Ep as [Ev Hne]. destruct (wholeNumber v) as [p|] eqn:Ew.
    + apply wholeNumber_exact in Ew as (_&Hd&Hp&Hm). split.
      * destruct (_ || _) eqn:Er; [done|]. apply orb_false_iff in Er as [?%Z.ltb_ge ?%Z.ltb_ge]. naive_solver.
      * intros ((w&Ew&_&_&<-)&Hr). rewrite Ev in Ew. injection Ew as <-. rewrite <- Hp in *.
        by rewrite (proj2 (Z.ltb_ge _ _)), (proj2 (Z.ltb_ge _ _)) by lia.
    + split; [done|]. intros ((w&Ew'&Hw&Hd&Hv)&Hr). rewrite Ev in Ew'. injection Ew' as <-.
      assert (wholeNumber v = Some n) by (apply wholeNumber_exact; split_and!; [done..|lia]). congruence.
  - split; [done|]. intros ((v&Ev&Hne&_)&_). by rewrite (proj2 (present_exact name v)) in Ep.
Qed.

Lemma required_found name hi n : hi <= max_u64 → setting name n → 0 < n <= hi → requiredEnvU64 env name 1 hi = inr n.
Proof. intros Hhi Hs Hn. apply requiredEnvU64_exact; [done|]. split; [done|lia]. Qed.

Lemma requiredMetadataToken_exact name v :
  requiredMetadataToken env name 128 = inr v ↔ env name = Some v ∧ Manifest.isProfileToken v = true.
Proof.
  unfold requiredMetadataToken, Manifest.isProfileToken. destruct (present env name) as [w|] eqn:Ep.
  - apply present_exact in Ep as [Ev Hne]. split.
    + destruct (Nat.ltb_spec 128 (length w)); [done|]. destruct (forallb _ w) eqn:Ef; [|done]. intros [= <-].
      split; [done|]. destruct w; [done|]. cbn [length Nat.eqb negb andb]. by rewrite (proj2 (Nat.leb_le _ _)).
    + intros [Ew Ht]. rewrite Ev in Ew. injection Ew as <-.
      apply andb_true_iff in Ht as [[_ Hl%Nat.leb_le]%andb_true_iff Hf]. by rewrite (proj2 (Nat.ltb_ge _ _)), Hf.
  - split; [done|]. intros [Ev Ht]. destruct v as [|c v]; [done|]. by rewrite (proj2 (present_exact name (c :: v))) in Ep.
Qed.

Lemma requiredSha256_exact name v : requiredSha256 env name = inr v ↔ env name = Some v ∧ isLowerHexSha256 v = true.
Proof.
  unfold requiredSha256, isLowerHexSha256. destruct (present env name) as [w|] eqn:Ep.
  - apply present_exact in Ep as [Ev Hne]. split.
    + destruct (Nat.eqb (length w) 64) eqn:El; cbn [negb]; [|done]. destruct (forallb _ w) eqn:Ef; [|done].
      intros [= <-]. by rewrite El, Ef.
    + intros [Ew Ht]. rewrite Ev in Ew. injection Ew as <-. apply andb_true_iff in Ht as [-> ->]. done.
  - split; [done|]. intros [Ev Ht]. destruct v as [|c v]; [done|]. by rewrite (proj2 (present_exact name (c :: v))) in Ep.
Qed.

Lemma requiredEnvironmentValue_exact name v : requiredEnvironmentValue env name = inr v ↔ env name = Some v ∧ v ≠ [].
Proof. unfold requiredEnvironmentValue. rewrite <- present_exact. destruct (present env name); naive_solver. Qed.

End settings.

Lemma requireManifestValue_exact name a b : requireManifestValue name a b = inr () ↔ a = b.
Proof. unfold requireManifestValue. destruct (Z.eqb_spec a b); naive_solver. Qed.

(** Prefaulting plays no part in the validation. *)
Lemma validate_prefault p b : validateBookCapacityProfile (withPrefault p b) = validateBookCapacityProfile p.
Proof. done. Qed.

(** ** The deployment *)

(** The deployment of a manifest, with the given prefault setting and headroom. *)
Definition deploymentOf (m : Manifest.BookCapacityEvidenceManifest) (prefault : bool) (h : BookCapacityHeadroom)
    : BookDeploymentCapacity :=
  let p := withPrefault (Manifest.profile m) prefault in
  mkDeployment (name p) (Manifest.schema m) (evidence_sha256 p) (Manifest.corpus_manifest_sha256 m)
    (Manifest.profiler_sha256 m) (Manifest.profile_output_sha256 m) (config p) (evidence p) (minimum_headroom p) h.

(** The environment and the files describe the manifest. *)
Record describes (env : string → option (list Z)) (files : list Z → option (list Z))
    (m : Manifest.BookCapacityEvidenceManifest) : Prop := {
  de_name : env "ASTRA_BOOK_CAPACITY_PROFILE" = Some (name (Manifest.profile m));
  de_digest : env "ASTRA_BOOK_CAPACITY_EVIDENCE_SHA256" = Some (evidence_sha256 (Manifest.profile m));
  de_file : ∃ path, path ≠ [] ∧ env "ASTRA_BOOK_CAPACITY_EVIDENCE_FILE" = Some path ∧
                    files path = Some (ManifestProps.render m);
  de_sha : Sha256.sha256Hex (ManifestProps.render m) = inr (evidence_sha256 (Manifest.profile m));
  de_manifest : ManifestProps.manifest_ok m;
  de_schema : Manifest.schema m = Manifest.kSchemaV2;
  de_slots : setting env "ASTRA_ORDER_DIRECT_SLOTS" (direct_slots (orders (config (Manifest.profile m))));
  de_buckets : setting env "ASTRA_ORDER_FALLBACK_BUCKETS"
                 (fallback_bucket_count (orders (config (Manifest.profile m))));
  de_pages : setting env "ASTRA_PRICE_PAGE_CAPACITY" (page_capacity (prices (config (Manifest.profile m))));
  de_reference : setting env "ASTRA_PROFILED_MAX_ORDER_REF"
                   (profiled_max_order_reference (evidence (Manifest.profile m)));
  de_unique : setting env "ASTRA_PROFILED_UNIQUE_PRICE_PAGES"
                (profiled_unique_price_pages (evidence (Manifest.profile m)));
  de_direct : setting env "ASTRA_MIN_DIRECT_ORDER_HEADROOM"
                (direct_order_reference_slots (minimum_headroom (Manifest.profile m)));
  de_price : setting env "ASTRA_MIN_PRICE_PAGE_HEADROOM" (price_pages (minimum_headroom (Manifest.profile m))) }.

Lemma bounds64 : max_u32 <= max_u64 ∧ max_u32 - 1 <= max_u64 ∧ max_u64 <= max_u64.
Proof. done. Qed.

Lemma deployment_sound env files d : bookCapacityFromEnvironment env files = inr d →
  ∃ m prefault h, describes env files m ∧ envBool "ASTRA_BOOK_PREFAULT" (env "ASTRA_BOOK_PREFAULT") true = inr prefault ∧
    validateBookCapacityProfile (Manifest.profile m) = inr h ∧ d = deploymentOf m prefault h.
Proof.
  intros Hr. destruct bounds64 as (B1&B2&B3). unfold bookCapacityFromEnvironment in Hr.
  ManifestProps.bind_inv Hr E1. ManifestProps.bind_inv Hr E2. ManifestProps.bind_inv Hr E3.
  ManifestProps.bind_inv Hr E4. ManifestProps.bind_inv Hr E5. ManifestProps.bind_inv Hr E6. ManifestProps.bind_inv Hr E7.
  ManifestProps.bind_inv Hr E8. ManifestProps.bind_inv Hr E9. ManifestProps.bind_inv Hr E10. ManifestProps.bind_inv Hr E11.
  ManifestProps.bind_inv Hr E12. cbn zeta in Hr.
  do 7 (let E := fresh "Q" in ManifestProps.bind_inv Hr E;
        match type of E with _ = inr ?u => destruct u end; apply requireManifestValue_exact in E; subst).
  ManifestProps.bind_inv Hr E13. ManifestProps.bind_inv Hr E14. rewrite validate_prefault in E14. injection Hr as <-.
  apply negb_false_iff, bool_decide_eq_true in E12.
  apply requiredMetadataToken_exact in E1 as [E1 _]. apply requiredSha256_exact in E2 as [E2 _].
  apply requiredEnvironmentValue_exact in E3 as [E3 Hne].
  apply ManifestProps.load_sound in E11 as (F1&F2&F3&F4&F5).
  apply requiredEnvU64_exact in E4 as [E4 _], E5 as [E5 _], E6 as [E6 _], E7 as [E7 _], E8 as [E8 _], E9 as [E9 _],
    E10 as [E10 _]; [|done..]. subst.
  eexists _, _, _. split; [|split; [reflexivity|split; [exact E14|done]]].
  split; try done. eexists. split; [exact Hne|]. by split.
Qed.

Lemma deployment_complete env files m prefault h :
  describes env files m → envBool "ASTRA_BOOK_PREFAULT" (env "ASTRA_BOOK_PREFAULT") true = inr prefault →
  validateBookCapacityProfile (Manifest.profile m) = inr h →
  bookCapacityFromEnvironment env files = inr (deploymentOf m prefault h).
Proof.
  intros [D1 D2 (path&Hne&D3&D4) D5 D6 D7 D8 D9 D10 D11 D12 D13 D14] Hb Hv. destruct bounds64 as (B1&B2&B3).
  pose proof D6 as Hok. destruct D6 as [_ M2 _ _ M5 M6 M7 M8 M9 M10 M11 _ _].
  assert (isLowerHexSha256 (evidence_sha256 (Manifest.profile m)) = true) as Hx.
  { unfold validateBookCapacityProfile in Hv. cbn zeta in Hv. ManifestProps.bind_inv Hv E1. ManifestProps.bind_inv Hv E2.
    ManifestProps.bind_inv Hv E3. by apply negb_false_iff in E3. }
  unfold bookCapacityFromEnvironment.
  rewrite (proj2 (requiredMetadataToken_exact _ _ _) (conj D1 M2)). cbn [mbind throw_bind].
  rewrite (proj2 (requiredSha256_exact _ _ _) (conj D2 Hx)). cbn [mbind throw_bind].
  rewrite (proj2 (requiredEnvironmentValue_exact _ _ _) (conj D3 Hne)). cbn [mbind throw_bind].
  rewrite (required_found _ _ _ _ B3 D8 M5). cbn [mbind throw_bind].
  rewrite (required_found _ _ _ _ B1 D9 M6). cbn [mbind throw_bind].
  rewrite (required_found _ _ _ _ B2 D10 M7). cbn [mbind throw_bind].
  rewrite (required_found _ _ _ _ B3 D11 M8). cbn [mbind throw_bind].
  rewrite (required_found _ _ _ _ B2 D12 M9). cbn [mbind throw_bind].
  rewrite (required_found _ _ _ _ B3 D13 M10). cbn [mbind throw_bind].
  rewrite (required_found _ _ _ _ B1 D14 M11). cbn [mbind throw_bind].
  rewrite D4, (ManifestProps.load_complete path _ _ m Hne D5 eq_refl eq_refl Hok). cbn [mbind throw_bind].
  rewrite bool_decide_eq_true_2 by done. cbn [negb].
  rewrite !(proj2 (requireManifestValue_exact _ _ _) eq_refl). cbn [mbind throw_bind].
  rewrite Hb. cbn [mbind throw_bind]. rewrite validate_prefault, Hv. done.
Qed.

(** ** The order of a run *)

Section run.
Context {S : Type} `{IMarketDataSource S} (elapsed : Z → Z).
#[local] Hint Extern 0 (IPacketProcessor _) => exact (decoder_processor elapsed) : typeclass_instances.
#[local] Existing Instance channelBuffer.
Context (host : Host S) (a : Arguments_).
Implicit Types (ev : Event S) (log : list (Event S)).

(** The rank of an event that takes hold of the machine: a kernel receiver is opened on
    the pinned thread, a DPDK receiver before the thread is pinned again, and the arenas
    are mapped after both. *)
Definition stage (dpdk : bool) (ev : Event S) : option nat :=
  match ev with
  | Pinned _ _ => Some (if dpdk then 1 else 0)%nat
  | Opened _ => Some (if dpdk then 0 else 1)%nat
  | Mapped _ => Some 2%nat
  | Ran _ => Some 3%nat
  | Out _ _ | Err _ _ | LatencyReport _ => None
  end.

Definition reported (d : BookDeploymentCapacity) (f : BookStorageFootprint) : list (Event S) :=
  [Out "book_capacity_profile" (printBookCapacityProfile d); Out "book_storage_plan" (printBookStoragePlan f)].

(** What follows the reports of the capacity gate. *)
Record orderly (s : Settings) (d : BookDeploymentCapacity) (log : list (Event S)) : Prop := {
  od_sorted : StronglySorted lt (omap (stage (use_dpdk s)) log);
  od_receiver : ∀ r, Opened r ∈ log → selectReceiver (dpdk_build host) a s = inr r;
  od_mapped : ∀ c, Mapped c ∈ log → c = dep_config d ∧ (∃ r, Opened r ∈ log) ∧
    (∀ r ph, Pinned r ph ∈ log → CpuAffinity.applied r = true) ∧
    (present (getenv host) "ASTRA_CPU" ≠ None → ∃ r ph, Pinned r ph ∈ log) }.

Lemma gate_cases :
  (∃ e, capacityGate host = ([], inl e)) ∨
  ∃ d f, bookCapacityFromEnvironment (getenv host) (readFile host) = inr d ∧
    estimateBookStorageFootprint (dep_config d) (system_page host) = inr f ∧
    capacityGate host = (reported d f, inr d).
Proof.
  unfold capacityGate, lift. destruct (bookCapacityFromEnvironment _ _) as [e|d]; [left; by eexists|].
  cbn [mbind M_bind fst snd app].
  destruct (estimateBookStorageFootprint _ _) as [e|f] eqn:Ef; [left; by eexists|]. right. exists d, f. done.
Qed.

Lemma pin_cases phase :
  (∃ e, pinRequestedCpu host phase = ([], inl e)) ∨
  (present (getenv host) "ASTRA_CPU" = None ∧ pinRequestedCpu host phase = ([], inr ())) ∨
  (∃ r fs, CpuAffinity.applied r = true ∧ pinRequestedCpu host phase = ([Pinned r phase; Out "cpu_affinity" fs], inr ())) ∨
  (∃ r fs e, CpuAffinity.applied r = false ∧
     pinRequestedCpu host phase = ([Pinned r phase; Out "cpu_affinity" fs], inl e)).
Proof.
  unfold pinRequestedCpu. destruct (present _ _) as [v|]; [|by right; left].
  destruct (wholeNumber v) as [n|]; [|left; by eexists]. destruct (_ <? n); [left; by eexists|]. cbn zeta.
  destruct (CpuAffinity.applied _) eqn:Ea; right; right; [left|right]; eexists _, _.
  - by split.
  - eexists. split; [exact Ea|]. done.
Qed.

Lemma open_cases s :
  (∃ e, openSource host a s = ([], inl e)) ∨
  ∃ r src, selectReceiver (dpdk_build host) a s = inr r ∧ openReceiver host r = inr src ∧
    openSource host a s = ([Opened r], inr src).
Proof.
  unfold openSource, lift. destruct (selectReceiver _ _ _) as [e|r]; [left; by eexists|]. cbn [mbind M_bind fst snd app].
  destruct (openReceiver host r) as [e|src] eqn:Er; [left; by eexists|]. right. exists r, src. done.
Qed.

Lemma build_cases c id :
  (∃ e, buildDecoder host c id = ([], inl e)) ∨
  ∃ f m fs, newBookManager c (system_page host) = inr (f, m) ∧
    buildDecoder host c id = ([Mapped c; Out "book_storage" fs],
      inr (MoldUdpDecoder.make (ItchParser.make StockDirectory.empty m id) id 1)).
Proof.
  unfold buildDecoder, lift. destruct (newBookManager _ _) as [e|[f m]]; [left; by eexists|].
  cbn [mbind M_bind fst snd app]. destruct (arenaFailure host c) as [e|]; [left; by eexists|]. right. by eexists f, m, _.
Qed.

(** The engine that a successful start-up hands over. *)
Definition started (s : Settings) (d : BookDeploymentCapacity) (e : MarketDataEngine.t S Decoder) : Prop :=
  ∃ r src f m, selectReceiver (dpdk_build host) a s = inr r ∧ openReceiver host r = inr src ∧
    newBookManager (dep_config d) (system_page host) = inr (f, m) ∧
    e = MarketDataEngine.make src (MoldUdpDecoder.make (ItchParser.make StockDirectory.empty m (arg_channel_id a))
          (arg_channel_id a) 1) LatencyRecorder.make (engine_config s).

(** The part of the start-up that follows the gate. *)
Definition afterGate (s : Settings) (d : BookDeploymentCapacity) : M (MarketDataEngine.t S Decoder) :=
  (if use_dpdk s then mret () else pinRequestedCpu host "pre_source");;
  source ← openSource host a s;
  (if use_dpdk s then pinRequestedCpu host "post_dpdk_eal" else mret ());;
  decoder ← buildDecoder host (dep_config d) (arg_channel_id a);
  mret (MarketDataEngine.make source decoder LatencyRecorder.make (engine_config s)).

Ltac in_list := set_unfold; naive_solver.
Ltac sorted_list := repeat first [apply SSorted_nil | apply SSorted_cons | apply Forall_nil_2 | apply Forall_cons_2]; lia.

Lemma afterGate_orderly s d :
  let '(log, r) := afterGate s d in
  orderly s d log ∧ (∀ e, Ran e ∉ log) ∧ match r with inl _ => True | inr e => started s d e end.
Proof.
  unfold afterGate.
  destruct (open_cases s) as [[e1 Eo]|(r&src&Hr&Hs&Eo)], (build_cases (dep_config d) (arg_channel_id a))
    as [[e2 Eb]|(f&m&fs&Hm&Eb)], (use_dpdk s) eqn:Ed;
  (let phase := match goal with _ : use_dpdk _ = true |- _ => constr:("post_dpdk_eal") | _ => constr:("pre_source") end in
   destruct (pin_cases phase) as [[e3 Ep]|[[Hn Ep]|[(pr&ps&Ha&Ep)|(pr&ps&e3&Ha&Ep)]]]);
  rewrite ?Eo, ?Eb, ?Ep; cbn [mbind M_bind mret M_ret fst snd app];
  (split; [split; [rewrite Ed; cbn; sorted_list|in_list|in_list]|split; [in_list|]]); try done; by exists r, src, f, m.
Qed.

Lemma start_cases :
  let '(log, r) := startEngine host a in
  (log = [] ∧ ∃ e, r = inl e) ∨
  ∃ s d f tail, settings (getenv host) = inr s ∧
    bookCapacityFromEnvironment (getenv host) (readFile host) = inr d ∧
    estimateBookStorageFootprint (dep_config d) (system_page host) = inr f ∧
    log = reported d f ++ tail ∧ orderly s d tail ∧ (∀ e, Ran e ∉ tail) ∧
    match r with inl _ => True | inr e => started s d e end.
Proof.
  destruct (settings (getenv host)) as [e|s] eqn:Es.
  { unfold startEngine, lift. rewrite Es. by left; split; [|eexists]. }
  destruct gate_cases as [[e Eg]|(d&f&Hd&Hf&Eg)].
  { unfold startEngine, lift. rewrite Es, Eg. by left; split; [|eexists]. }
  assert (startEngine host a = (reported d f ++ fst (afterGate s d), snd (afterGate s d))) as ->.
  { unfold startEngine, lift. by rewrite Es, Eg. }
  pose proof (afterGate_orderly s d) as Ho. destruct (afterGate s d) as [tail r]. right. by exists s, d, f, tail.
Qed.

Definition quiet_event ev : Prop := stage true ev = None ∧ stage false ev = None.

Lemma finish_silent e : Forall quiet_event (fst (finish e)) ∧
  snd (finish e) = inr (negb (unhealthy (finalState (MarketDataEngine.processor e)))).
Proof.
  unfold finish. destruct (gapStats _), (enable_latency_metrics _), (unhealthy _); cbn;
    (split; [repeat (apply Forall_cons_2; [done|]); apply Forall_nil_2|done]).
Qed.

Lemma quiet_stage dpdk log : Forall quiet_event log → omap (stage dpdk) log = [].
Proof. induction 1 as [|ev log [H1 H2] _ IH]; [done|]. cbn. rewrite IH. by destruct dpdk; rewrite ?H1, ?H2. Qed.

Lemma quiet_member log ev : Forall quiet_event log → ev ∈ log → quiet_event ev.
Proof. intros Hl. by apply Forall_forall. Qed.

Lemma below_ran dpdk log : (∀ e, Ran e ∉ log) → Forall (λ n, n < 3)%nat (omap (stage dpdk) log).
Proof.
  induction log as [|ev log IH]; intros Hn; [constructor|]. cbn.
  assert (Forall (λ n, n < 3)%nat (omap (stage dpdk) log)) as IH' by (apply IH; intros e He; apply (Hn e); by right).
  destruct ev; cbn; try exact IH'; try (constructor; [destruct dpdk; lia|exact IH']).
  destruct (Hn e). by left.
Qed.

Lemma sorted_snoc (l : list nat) n : StronglySorted lt l → Forall (λ m, m < n)%nat l → StronglySorted lt (l ++ [n]).
Proof.
  induction 1 as [|m l Hs IH Hm]; intros Hn; cbn; [repeat constructor|]. apply Forall_cons in Hn as [Hmn Hn].
  constructor; [by apply IH|]. apply Forall_app. split; [done|]. by constructor.
Qed.

(** Quiet events, and the loop before them, keep a start-up orderly. *)
Lemma orderly_app s d tail ran rest :
  orderly s d tail → (∀ e, Ran e ∉ tail) → Forall quiet_event rest → (ran = [] ∨ ∃ e, ran = [Ran e]) →
  orderly s d (tail ++ ran ++ rest).
Proof.
  intros [H1 H2 H3] Hn Hq Hran.
  assert (∀ ev n, stage true ev = Some n → (∀ e, ev ≠ Ran e) → ev ∈ tail ++ ran ++ rest → ev ∈ tail) as Hin.
  { intros ev n Hs Hne. rewrite !elem_of_app. intros [Ht|[Hr|Hr]]; [done| |].
    - destruct Hran as [->|[e ->]]; [by apply elem_of_nil in Hr|]. apply list_elem_of_singleton in Hr as ->. by destruct (Hne e).
    - destruct (quiet_member _ _ Hq Hr). congruence. }
  split.
  - rewrite !omap_app, (quiet_stage _ _ Hq), (right_id [] (++)).
    destruct Hran as [->|[e ->]]; [by rewrite (right_id [] (++))|]. apply sorted_snoc; [done|by apply below_ran].
  - intros r Hr. apply H2. by eapply (Hin _ 0%nat).
  - intros c Hc. apply (Hin _ 2%nat) in Hc; [|done..]. destruct (H3 c Hc) as (E&(r&Hr)&Hp&He).
    split; [done|]. split; [exists r; by apply elem_of_app; left|]. split.
    + intros r' ph Hr'. apply (Hp r' ph). by eapply (Hin _ 1%nat).
    + intros Hpr. destruct (He Hpr) as (r'&ph&Hr'). exists r', ph. by apply elem_of_app; left.
Qed.

(** How the part under the [try] goes, from the loop on. *)
Lemma application_run turns signalled log e : startEngine host a = (log, inr e) →
  let e' := execute elapsed turns signalled e in
  session elapsed host a turns signalled =
  if MarketDataEngine.isRunning e' then (log, inr None)
  else (log ++ [Ran e'] ++ fst (finish e'),
        inr (Some (negb (unhealthy (finalState (MarketDataEngine.processor e')))))).
Proof.
  intros Es e'. unfold session. rewrite Es. cbn [mbind M_bind]. fold e'. destruct (MarketDataEngine.isRunning e').
  { cbn. by rewrite (right_id [] (++)). }
  destruct (finish_silent e') as [_ Hf]. destruct (finish e') as [out r]. cbn [snd] in Hf. subst r.
  cbn [fst snd mbind M_bind emit app]. by rewrite (right_id [] (++)).
Qed.

End run.

Section properties.
Context {S : Type} `{IMarketDataSource S} (elapsed : Z → Z).
#[local] Hint Extern 0 (IPacketProcessor _) => exact (decoder_processor elapsed) : typeclass_instances.
#[local] Existing Instance channelBuffer.
Context (host : Host S).

(** C11. The capacity gate: whatever the arguments, the environment and the
    host, a run of the application either takes hold of nothing (no thread pinned, no
    receiver opened, no arena mapped), or it first accepts the capacity evidence and
    reports it with the storage plan, and only then, in this order and each at most once,
    pins the thread, opens the receiver its arguments and settings select (a DPDK
    receiver before the pinning), maps arenas of exactly the deployed configuration and
    leaves the loop; with a CPU requested, no arena is mapped unless the pinning
    succeeded. *)
Theorem startup_gate argv turns signalled :
  let log := fst (main elapsed host argv turns signalled) in
  Forall quiet_event log ∨
  ∃ a s d f tail, parseArguments argv = inr a ∧ settings (getenv host) = inr s ∧
    bookCapacityFromEnvironment (getenv host) (readFile host) = inr d ∧
    estimateBookStorageFootprint (dep_config d) (system_page host) = inr f ∧
    log = reported d f ++ tail ∧ orderly host a s d tail.
Proof.
  unfold main. destruct (_ && _).
  { left. destruct (gate_cases host) as [[e Eg]|(d&f&_&_&Eg)]; rewrite Eg; by repeat constructor. }
  destruct (parseArguments argv) as [e|a]; [left; by repeat constructor|].
  pose proof (start_cases host a) as Hs. destruct (startEngine host a) as [log r] eqn:Es.
  destruct r as [err|e].
  - assert (session elapsed host a turns signalled = (log, inl err)) as ->.
    { unfold session. by rewrite Es. }
    cbn [guarded fst]. destruct Hs as [[-> _]|(s&d&f&tail&H1&H2&H3&->&Ho&Hn&_)]; [left; by repeat constructor|].
    right. exists a, s, d, f, (tail ++ [] ++ [Err "Fatal: " [("what", Word err)]]). rewrite (assoc_L (++)). split_and!; try done.
    apply orderly_app; [done..|by repeat constructor|by left].
  - rewrite (application_run elapsed host a turns signalled log e Es).
    destruct Hs as [[-> [err He]]|(s&d&f&tail&H1&H2&H3&->&Ho&Hn&_)]; [done|]. right.
    set (e' := execute elapsed turns signalled e). destruct (MarketDataEngine.isRunning e'); cbn [guarded fst].
    + exists a, s, d, f, tail. done.
    + destruct (finish_silent e') as [Hq _]. exists a, s, d, f, (tail ++ [Ran e'] ++ fst (finish e')).
      do 4 (split; [done|]). split; [by rewrite <- (assoc_L (++))|]. apply orderly_app; [done..|right; by eexists].
Qed.

(** C12. The engine deploys a capacity exactly when the environment names
    a manifest file whose bytes are the canonical text of a valid version-2 manifest with
    the configured name and SHA-256, every capacity, evidence and reserve number of the
    environment is the manifest's, and the prefault switch is readable; the deployment is
    then that manifest's, with the switch and the headroom the validation computed. *)
Theorem deployment_exact env files d :
  bookCapacityFromEnvironment env files = inr d ↔
  ∃ m prefault h, describes env files m ∧
    envBool "ASTRA_BOOK_PREFAULT" (env "ASTRA_BOOK_PREFAULT") true = inr prefault ∧
    validateBookCapacityProfile (Manifest.profile m) = inr h ∧ d = deploymentOf m prefault h.
Proof.
  split; [apply deployment_sound|]. intros (m&b&h&Hd&Hb&Hv&->). by apply deployment_complete.
Qed.

(** The engine's executions *)
Lemma execute_steps turns signalled (e : MarketDataEngine.t S Decoder) : ∃ ps, MarketDataEngine.steps e ps (execute elapsed turns signalled e).
Proof.
  destruct (MarketDataEngine.engine_run_steps turns e) as [ps Hps]. exists ps. unfold execute.
  destruct signalled; [|done]. rewrite <- (right_id [] (++) ps). eapply MarketDataEngine.steps_step; [exact Hps|].
  apply MarketDataEngine.step_stop.
Qed.

(** The books of a deployment start empty and consistent, without a failure counted. *)
(** The manager the application builds, and the parser on it. *)
Lemma deployed_manager d f m :
  bookCapacityFromEnvironment (getenv host) (readFile host) = inr d →
  newBookManager (dep_config d) (system_page host) = inr (f, m) →
  ∃ direct buckets pages, fits 64 direct ∧ fits 32 buckets ∧ fits 32 pages ∧ BookManager.make direct buckets pages = Some m.
Proof.
  intros Hd Hm. apply deployment_sound in Hd as (mf&b&h&Hdes&_&_&->). unfold newBookManager in Hm.
  destruct (estimateBookStorageFootprint _ _) as [e|f']; [done|]. cbn [mbind throw_bind] in Hm.
  destruct (BookManager.make _ _ _) as [m'|] eqn:Em; [|done]. injection Hm as -> ->.
  destruct (de_manifest _ _ _ Hdes) as [_ _ _ _ M1 M2 M3 _ _ _ _ _ _]. unfold fits, max_u64, max_u32 in *.
  eexists _, _, _. split_and!; [..|exact Em]; cbn; lia.
Qed.

Lemma deployed_parser d f m id :
  bookCapacityFromEnvironment (getenv host) (readFile host) = inr d →
  newBookManager (dep_config d) (system_page host) = inr (f, m) →
  ParserInv.par_ok (ItchParser.make StockDirectory.empty m id) ∅ ∧
  PriceLevelStore.page_capacity_failures (BookManager.m_prices m) = 0.
Proof.
  intros Hd Hm. destruct (deployed_manager d f m Hd Hm) as (direct&buckets&pages&H1&H2&H3&Em). split.
  - exact (ParserInv.make_par_ok direct buckets pages m id H1 H2 H3 Em).
  - unfold BookManager.make in Em. destruct (OrderTable.make _ _); [|done]. unfold PriceLevelStore.make in Em.
    destruct (PriceLevelStore.validatedConfig _); [|done]. by injection Em as <-.
Qed.

Lemma all_clear a b c d e f g :
  negb a || negb b || negb c || negb d || negb e || negb f || negb g = false ↔
  a = true ∧ b = true ∧ c = true ∧ d = true ∧ e = true ∧ f = true ∧ g = true.
Proof. destruct a, b, c, d, e, f, g; naive_solver. Qed.

(** What the final check reads. *)
Lemma healthy_final (fin : Decoder) :
  unhealthy (finalState fin) = false ↔
  MoldUdpDecoder.health (MoldUdpDecoder.channel fin) = Good ∧
  GapBuffer.empty (MoldUdpDecoder.gap_buffer (MoldUdpDecoder.channel fin)) = true ∧
  MoldUdpDecoder.phase (MoldUdpDecoder.channel fin) = EndOfMessages ∧
  BookManager.totalLiveOrderCount (ItchParser.books (MoldUdpDecoder.parser fin)) = 0 ∧
  BookManager.clean (BookManager.auditDirectory (ItchParser.books (MoldUdpDecoder.parser fin))
    (ItchParser.symbols (MoldUdpDecoder.parser fin))) = true ∧
  PriceLevelStore.page_capacity_failures (BookManager.m_prices (ItchParser.books (MoldUdpDecoder.parser fin))) = 0 ∧
  MoldUdpDecoder.endOfStreamAccepted fin = true.
Proof.
  unfold unhealthy, finalState. cbn [channel final_live_orders end_of_stream_accepted book_directory_audit price_counters
    PriceLevelStore.ct_page_capacity_failures PriceLevelStore.counters].
  rewrite all_clear, (bool_decide_eq_true (MoldUdpDecoder.health _ = Good)),
    (bool_decide_eq_true (MoldUdpDecoder.phase _ = EndOfMessages)), (Z.eqb_eq (BookManager.totalLiveOrderCount _)),
    (Z.eqb_eq (PriceLevelStore.page_capacity_failures _)). reflexivity.
Qed.

(** The decoder of an ended session over a consistent stream. *)
Lemma ended_books stream (p0 : ItchParser.t) id ps :
  (∀ n, 1 <= n → ParserInv.well_formed (stream n)) →
  Forall (λ pk : option (list Z) * Z, DecoderInv.consistent stream pk.1) ps → ParserInv.par_ok p0 ∅ →
  let fin := DecoderProps.run elapsed (MoldUdpDecoder.make p0 id 1) ps in
  let next := MoldUdpDecoder.next_expected_seq (MoldUdpDecoder.channel fin) in
  MoldUdpDecoder.endOfStreamAccepted fin = true →
  BookManager.totalLiveOrderCount (ItchParser.books (MoldUdpDecoder.parser fin)) = 0 →
  MoldUdpDecoder.parser fin = DecoderInv.upto stream 1 p0 next ∧
  u64 (Z.of_nat (size (DecoderProps.orders_upto stream 1 next))) = 0.
Proof.
  intros Hwf Hps Hok fin next Hend Hlive. apply bool_decide_eq_true in Hend.
  assert (0 <= 1 <= max_u64) as Hi by (unfold max_u64; lia).
  destruct (DecoderProps.books_follow elapsed stream 1 Hwf p0 id ps Hok Hi Hps (or_intror Hend)) as (M&HM&HA&_).
  fold fin next in HM, HA. split.
  - exact (DecoderProps.healthy_applied stream 1 p0 ps fin (DecoderProps.session_all elapsed stream 1 p0 Hi id ps Hps)
      (or_intror Hend)).
  - rewrite <- HA, map_size_fmap, <- (ManagerProps.total_live _ _ (ParserInv.pa_mgr _ _ HM)). exact Hlive.
Qed.

(** C6. When the application exits with success after a session, its loop was
    left after some packets of the receiver; the decoder has accepted the end of the
    stream; and if those packets carry a stream of well-formed messages, every message
    from the first to the one before the expected sequence has been applied, in order,
    to the books of the deployed configuration, and they leave no live order. *)
Theorem exit_sound argv turns signalled log :
  main elapsed host argv turns signalled = (log, Some true) → length argv ≠ 2%nat →
  ∃ a s d e0 e ps, parseArguments argv = inr a ∧ started host a s d e0 ∧ Ran e ∈ log ∧
    bookCapacityFromEnvironment (getenv host) (readFile host) = inr d ∧ MarketDataEngine.steps e0 ps e ∧
    let fin := MarketDataEngine.processor e in
    MoldUdpDecoder.endOfStreamAccepted fin = true ∧
    ∀ stream, (∀ n, 1 <= n → ParserInv.well_formed (stream n)) →
      Forall (λ pk : option (list Z) * Z, DecoderInv.consistent stream pk.1) ps →
      let next := MoldUdpDecoder.next_expected_seq (MoldUdpDecoder.channel fin) in
      MoldUdpDecoder.parser fin =
        DecoderInv.upto stream 1 (MoldUdpDecoder.parser (MarketDataEngine.processor e0)) next ∧
      u64 (Z.of_nat (size (DecoderProps.orders_upto stream 1 next))) = 0.
Proof.
  intros Hmain Hargc. unfold main in Hmain. rewrite (proj2 (Nat.eqb_neq _ _) Hargc) in Hmain. cbn [andb] in Hmain.
  destruct (parseArguments argv) as [err|a]; [done|]. pose proof (start_cases host a) as Hs.
  destruct (startEngine host a) as [log0 [err|e0]] eqn:Es.
  { unfold session in Hmain. by rewrite Es in Hmain. }
  destruct Hs as [[_ [err He]]|(s&d&f&tail&_&Hd&_&_&_&_&Hst)]; [done|].
  rewrite (application_run elapsed host a turns signalled log0 e0 Es) in Hmain.
  destruct (execute_steps turns signalled e0) as [ps Hps]. set (e := execute elapsed turns signalled e0) in *.
  destruct (MarketDataEngine.isRunning e); [done|]. cbn [guarded] in Hmain. injection Hmain as <- Hh.
  apply negb_true_iff, healthy_final in Hh as (_&_&_&Hlive&_&_&Hend).
  exists a, s, d, e0, e, ps. split; [reflexivity|]. split; [exact Hst|]. split; [apply elem_of_app; right; by left|].
  split; [exact Hd|]. split; [exact Hps|]. cbn zeta. split; [exact Hend|]. intros stream Hwf Hps'.
  destruct Hst as (r&src&f'&m&_&_&Hm&E0). destruct (deployed_parser d f' m (arg_channel_id a) Hd Hm) as [Hok _].
  rewrite E0 in Hps. apply EngineProps.driven_steps in Hps as [Hrun _ _]; [|reflexivity].
  rewrite Hrun in Hend, Hlive |- *. rewrite E0. exact (ended_books stream _ (arg_channel_id a) ps Hwf Hps' Hok Hend Hlive).
Qed.

End properties.

(** ** Complete sessions *)

Section complete.
Context (elapsed : Z → Z).
#[local] Hint Extern 0 (IPacketProcessor _) => exact (decoder_processor elapsed) : typeclass_instances.
#[local] Existing Instance channelBuffer.
Context (host : Host (list (option PacketView))).

Lemma main_session argv a turns signalled : parseArguments argv = inr a →
  main elapsed host argv turns signalled = guarded (session elapsed host a turns signalled).
Proof.
  intros Ha. assert (length argv ≠ 2%nat) as Hne by (intros E; unfold parseArguments in Ha; rewrite E in Ha; discriminate Ha).
  unfold main. by rewrite (proj2 (Nat.eqb_neq _ _) Hne), Ha.
Qed.

(** A decoder that ends after accepting every message passes the final check. *)
Lemma accepted_healthy ms (p0 : ItchParser.t) (fin : Decoder) :
  ParserInv.par_ok p0 ∅ → PriceLevelStore.page_capacity_failures (BookManager.m_prices (ItchParser.books p0)) = 0 →
  Forall ParserInv.well_formed ms →
  (∀ i, (0 < i <= length ms)%nat → ms_error (DecoderInv.handle_all (take i ms) p0) = "") →
  ms_phase (DecoderInv.handle_all ms p0) = EndOfMessages → MoldUdpDecoder.parser fin = DecoderInv.handle_all ms p0 →
  MoldUdpDecoder.endOfStreamAccepted fin = true → EngineProps.closed fin → unhealthy (finalState fin) = false.
Proof.
  intros Hok Hf Hw Hc Hph Hpar Hend (Hp&Hh&Hb). apply healthy_final. rewrite Hpar.
  assert (DecoderInv.handle_all ms p0 = ParserInv.feed p0 ms) as Efeed.
  { clear -Hw. revert p0. induction Hw as [|m ms Hm _ IH]; intros p0; [done|].
    change (DecoderInv.handle_all ms (snd (ItchParser.handlePrevalidatedMessage p0 m)) =
            ParserInv.feed (snd (ItchParser.handleMessage p0 m)) ms).
    rewrite ParserInv.prevalidated_same by done. apply IH. }
  pose proof (Footprint.handle_all_kept ms p0 Hc) as Hk. rewrite Hf in Hk.
  destruct (ParserInv.feed_ok p0 ∅ ms Hok Hw) as (_&M&HM). rewrite <- Efeed in HM. clear Efeed.
  split; [exact Hh|]. split; [exact Hb|]. split; [exact Hp|].
  split; [rewrite (ManagerProps.total_live _ _ (ParserInv.pa_mgr _ _ HM)); exact (ParserInv.pa_end _ _ HM Hph)|].
  split; [|split; [exact Hk|exact Hend]]. apply (ParserProps.clean_parser _ M HM).
  change (ItchParser.channel_phase (DecoderInv.handle_all ms p0)) with (ms_phase (DecoderInv.handle_all ms p0)).
  rewrite Hph. done.
Qed.

(** The polls of a loss-free session take the application to its exit. *)
Lemma session_exits argv a log e0 policy ms file path session n sizes :
  parseArguments argv = inr a → startEngine host a = (log, inr e0) →
  archive policy ms file → Z.of_nat (length ms) < 2 ^ 63 → (length session <= 10)%nat → 0 < n →
  Forall (λ n, 0 < n < 65536) sizes → (length ms <= length sizes)%nat →
  let p0 := MoldUdpDecoder.parser (MarketDataEngine.processor e0) in
  (∀ i, (0 < i <= length ms)%nat → ms_error (DecoderInv.handle_all (take i ms) p0) = "") →
  ms_phase (DecoderInv.handle_all ms p0) = EndOfMessages →
  let '(ps, s) := drive sizes (ItchMoldUdpSource.make (Some file) path session n policy) in
  ∀ arrivals ticks turns signalled,
    arrivals.*1 = Some <$> ps → (length (MarketDataEngine.source e0) <= turns)%nat →
    omap (λ p, p) (MarketDataEngine.source e0) =
      arrivals ++ [(Some (makeMoldEndOfSessionPacket session (ItchMoldUdpSource.next_seq s)), ticks)] →
    snd (main elapsed host argv turns signalled) = Some true.
Proof.
  intros Ha Es Harc Hlen Hse Hn Hsizes Hmany p0 Hc Hph.
  pose proof (start_cases host a) as Hs. rewrite Es in Hs.
  destruct Hs as [[_ [err He]]|(s'&d&f&tail&_&Hd&_&_&_&_&(r&src&f'&m&_&_&Hm&E0))]; [done|].
  destruct (deployed_parser host d f' m (arg_channel_id a) Hd Hm) as [Hok Hf].
  assert (p0 = ItchParser.make StockDirectory.empty m (arg_channel_id a)) as Ep by (unfold p0; by rewrite E0).
  rewrite Ep in Hc, Hph. clear p0 Ep. set (p0 := ItchParser.make StockDirectory.empty m (arg_channel_id a)) in *.
  pose proof (replay_in_order (B := GapBuffer.t) elapsed policy ms file path session n sizes p0 (arg_channel_id a) Harc Hlen
    Hse Hn Hsizes Hmany Hc Hph) as Hio.
  destruct (drive sizes _) as [ps s]. intros arrivals ticks turns signalled Harr Hturns Hpolls.
  destruct (Hio arrivals ticks Harr) as (Hq&Hend&Hacc&Hpar).
  assert (MarketDataEngine.running e0 = true ∧ MarketDataEngine.processor e0 = MoldUdpDecoder.make p0 (arg_channel_id a) 1)
    as [Hrun Hproc] by (by rewrite E0).
  rewrite <- Hproc in Hq, Hend, Hacc, Hpar.
  destruct (EngineProps.run_polls elapsed _ e0 arrivals _ turns Hrun eq_refl Hpolls Hturns Hq Hend) as [H1 H2].
  set (e := execute elapsed turns signalled e0).
  assert (MarketDataEngine.isRunning e = false ∧
          MarketDataEngine.processor e = MarketDataEngine.processor (MarketDataEngine.run turns e0)) as [Hr Hp]
    by (unfold e, execute; destruct signalled; split; [reflexivity|reflexivity|exact H1|reflexivity]).
  set (last := (Some (makeMoldEndOfSessionPacket session (ItchMoldUdpSource.next_seq s)), ticks)) in *.
  assert (MarketDataEngine.processor e = DecoderProps.run elapsed (MoldUdpDecoder.make p0 (arg_channel_id a) 1) (arrivals ++ [last]))
    as Efin by (rewrite Hp, DecoderProps.run_app, <- Hproc; exact H2).
  rewrite (main_session argv a turns signalled Ha), (application_run elapsed host a turns signalled log e0 Es). fold e. rewrite Hr.
  cbn [guarded snd]. do 2 f_equal. apply negb_true_iff.
  apply (accepted_healthy ms p0); [exact Hok|exact Hf|eapply Forall_impl; [apply Harc|by intros ? []]|exact Hc|exact Hph| | |].
  - rewrite Hp. etrans; [exact (f_equal MoldUdpDecoder.parser H2)|exact Hpar].
  - rewrite Hp. etrans; [exact (f_equal MoldUdpDecoder.endOfStreamAccepted H2)|exact Hacc].
  - rewrite Efin. apply EngineProps.run_closed; [discriminate|]. rewrite <- Efin, Hp.
    etrans; [exact (f_equal MoldUdpDecoder.terminal_status H2)|]. by apply bool_decide_eq_true in Hacc.
Qed.

(** C7. A loss-free session exits with success: when the start-up succeeds
    and the receiver's polls bring the packets of the replay of a complete archive, in
    order and with any number of empty polls between them, and then the end-of-session
    marker, and the parser accepts every record of the archive and is at end of messages
    after the last, then the application leaves its loop within as many turns as there
    are polls and exits with success, with or without a signal afterwards. *)
Theorem exit_success argv a log e0 policy ms file path session n sizes :
  parseArguments argv = inr a → startEngine host a = (log, inr e0) →
  archive policy ms file → Z.of_nat (length ms) < 2 ^ 63 → (length session <= 10)%nat → 0 < n →
  Forall (λ n, 0 < n < 65536) sizes → (length ms <= length sizes)%nat →
  let p0 := MoldUdpDecoder.parser (MarketDataEngine.processor e0) in
  (∀ i, (0 < i <= length ms)%nat → ms_error (DecoderInv.handle_all (take i ms) p0) = "") →
  ms_phase (DecoderInv.handle_all ms p0) = EndOfMessages →
  let '(ps, s) := drive sizes (ItchMoldUdpSource.make (Some file) path session n policy) in
  ∀ arrivals ticks turns signalled,
    arrivals.*1 = Some <$> ps → (length (MarketDataEngine.source e0) <= turns)%nat →
    omap (λ p, p) (MarketDataEngine.source e0) =
      arrivals ++ [(Some (makeMoldEndOfSessionPacket session (ItchMoldUdpSource.next_seq s)), ticks)] →
    snd (main elapsed host argv turns signalled) = Some true.
Proof. apply session_exits. Qed.

End complete.

(** ** A run on a small host *)

#[local] Hint Extern 0 (IPacketProcessor _) => exact (decoder_processor (λ _, 0)) : typeclass_instances.
#[local] Existing Instance channelBuffer.
Import EngineProps.

Definition labManifest : Manifest.BookCapacityEvidenceManifest :=
  ManifestProps.sampleManifest ManifestProps.sampleDigest.

Definition labVariables : list (string * list Z) :=
  [("ASTRA_BOOK_CAPACITY_PROFILE", Manifest.str "lab-1");
   ("ASTRA_BOOK_CAPACITY_EVIDENCE_SHA256", ManifestProps.sampleDigest);
   ("ASTRA_BOOK_CAPACITY_EVIDENCE_FILE", Manifest.str "/evidence");
   ("ASTRA_ORDER_DIRECT_SLOTS", Manifest.str "1048576"); ("ASTRA_ORDER_FALLBACK_BUCKETS", Manifest.str "4096");
   ("ASTRA_PRICE_PAGE_CAPACITY", Manifest.str "512"); ("ASTRA_PROFILED_MAX_ORDER_REF", Manifest.str "1000000");
   ("ASTRA_PROFILED_UNIQUE_PRICE_PAGES", Manifest.str "300");
   ("ASTRA_MIN_DIRECT_ORDER_HEADROOM", Manifest.str "40000"); ("ASTRA_MIN_PRICE_PAGE_HEADROOM", Manifest.str "100");
   ("ASTRA_CPU", Manifest.str "3")].

Definition labHost (polls : list (option PacketView)) : Host (list (option PacketView)) :=
  mkHost (λ name, snd <$> List.find (λ v, String.eqb name v.1) labVariables)
    (λ path, if bool_decide (path = Manifest.str "/evidence") then Some (ManifestProps.render labManifest) else None)
    4096 false 8 (λ _, 0) (λ _, inr polls) (λ _, None).

Definition labArgv : list (list Z) := [Manifest.str "md_engine"; Manifest.str "239.1.1.1"; Manifest.str "5000"].
Definition labArguments : Arguments_ := mkArguments false (Manifest.str "239.1.1.1") 5000 [] 0 0.
Definition labBooks : BookManager.t :=
  BookManager.mk 1048576 (OrderTable.mk 1048576 4096 ∅ ∅) (PriceLevelStore.mk 512 ∅ ∅ ∅ ∅ ∅ ∅ ∅ ∅ 0 0 0) ∅.
Definition labParser : ItchParser.t := ItchParser.make StockDirectory.empty labBooks 0.
Definition labEngine (polls : list (option PacketView)) : MarketDataEngine.t (list (option PacketView)) Decoder :=
  MarketDataEngine.make polls (MoldUdpDecoder.make labParser 0 1) LatencyRecorder.make defaultEngineConfig.

Lemma lab_arguments : parseArguments labArgv = inr labArguments.
Proof. vm_compute. reflexivity. Qed.

Lemma lab_starts polls : startEngine (labHost polls) labArguments = (fst (startEngine (labHost polls) labArguments), inr (labEngine polls)).
Proof. vm_compute. reflexivity. Qed.

Lemma lab_accepted i :
  (0 < i <= length shortDay)%nat → ms_error (DecoderInv.handle_all (take i shortDay) labParser) = "".
Proof.
  intros Hi. change (length shortDay) with 9%nat in Hi.
  assert (Forall (λ i, ms_error (DecoderInv.handle_all (take i shortDay) labParser) = "") (List.seq 1 9)) as Hall
    by (apply (bool_decide_eq_true_1 _); vm_compute; reflexivity).
  eapply Forall_forall in Hall; [exact Hall|]. apply elem_of_seq. lia.
Qed.

Lemma lab_ends : ms_phase (DecoderInv.handle_all shortDay labParser) = EndOfMessages.
Proof. vm_compute. reflexivity. Qed.

(** The polls of the short session, an idle one before every packet. *)
Definition labPolls : list (option PacketView) := sessionPolls.

Lemma labPolls_packets : omap (λ p, p) labPolls = inOrder (fst (shortReplay 9)) ++ [eosOf (snd (shortReplay 9))].
Proof. apply withIdle_packets. Qed.

Lemma labPolls_length : (length (MarketDataEngine.source (labEngine labPolls)) <= 20)%nat.
Proof. exact (proj1 (Nat.leb_le _ _) sessionPolls_length). Qed.

Lemma exit_success_witness : snd (main (λ _, 0) (labHost labPolls) labArgv 20 false) = Some true.
Proof.
  pose proof (exit_success (λ _, 0) (labHost labPolls) labArgv labArguments _ _ RequireTerminator shortDay shortFile ""
    sessionA 20 (sizesOf 9) lab_arguments (lab_starts _) shortDay_archive eq_refl ltac:(cbn; lia) ltac:(lia)
    (sizes_ok 9) ltac:(cbn; lia) lab_accepted lab_ends) as H.
  rewrite (surjective_pairing (drive _ _)) in H.
  exact (H (inOrder (fst (shortReplay 9))) 0 20%nat false (inOrder_packets _) labPolls_length labPolls_packets).
Defined.

Lemma lab_exit : snd (main (λ _, 0) (labHost labPolls) labArgv 20 false) = Some true.
Proof. vm_compute. reflexivity. Qed.

Lemma exit_sound_witness :
  ∃ e, Ran e ∈ fst (main (λ _, 0) (labHost labPolls) labArgv 20 false) ∧
    MoldUdpDecoder.endOfStreamAccepted (MarketDataEngine.processor e) = true.
Proof.
  assert (main (λ _, 0) (labHost labPolls) labArgv 20 false =
    (fst (main (λ _, 0) (labHost labPolls) labArgv 20 false), Some true)) as E
    by (rewrite <- lab_exit; apply surjective_pairing).
  destruct (exit_sound (λ _, 0) (labHost labPolls) labArgv 20 false _ E ltac:(discriminate))
    as (a&s&d&e0&e&ps&_&_&Hran&_&_&Hend&_).
  exists e. split; [exact Hran|exact Hend].
Defined.

End EngineMainProps.
