(* ===== verification/Profile.v ===== *)
(** The trace profiler of [benchmarks/ItchTraceProfile.cpp], which certifies a day's
    archive and measures the demand that capacity evidence records.

    The scalar members of [Stats] are a map from the member's name to its value; a
    member that is not in the map is zero, as its initialiser says, and the members with
    another initialiser are set by [make].  The hash containers are finite maps and
    sets, the arrays indexed by locate are arenas. *)
From stdpp Require Import base list gmap strings.
From Stdlib Require Import ZArith Lia Ascii.
From S2P Require Import Prelude Bits BookTypes Protocol Sha Capacity.
#[local] Open Scope string_scope.
#[local] Open Scope list_scope.
#[local] Open Scope Z_scope.
#[local] Open Scope astra_scope.

Module Profile.
Import Protocol.

Definition kTickerLength : nat := 8.
Definition kNanosecondsPerDay : Z := 86400000000000.
Definition kDailySystemEvents : list Z := ch <$> ["O"; "S"; "Q"; "M"; "E"; "C"]%char.

Record OrderState := mkOrder { price : Z; qty : Z; locate : Z; side : Z }.
Record LevelState := mkLevel { total_qty : Z; order_count : Z }.

Record Stats := mk {
  nums : gmap string Z;
  type_counts : arr Z;
  directory : gmap Z (list Z);
  price_pages : gset Z;
  live_orders : gmap Z OrderState;
  seen_order_reference_pages : gmap Z (arr Z);
  active_levels : gmap Z LevelState;
  active_page_level_counts : gmap Z Z;
  ever_active_pages : gset Z;
  directory_ticker_locates : gmap Z Z;
  per_locate : string → arr Z;
  has_order_price : gset Z;
  binaryfile_completion : string;
  system_hours_started : bool;
  system_hours_ended : bool }.

Definition make : Stats :=
  mk (<["min_new_order_ref" := max_u64]> (<["min_order_book_price" := max_u32]> (<["min_price" := max_u32]> ∅)))
    ∅ ∅ ∅ ∅ ∅ ∅ ∅ ∅ ∅ (λ _, ∅) ∅ "none" false false.

(** ** Members *)

Definition num (s : Stats) (name : string) : Z := default 0 (nums s !! name).
Definition with_nums (s : Stats) (n : gmap string Z) : Stats :=
  mk n (type_counts s) (directory s) (price_pages s) (live_orders s) (seen_order_reference_pages s) (active_levels s)
    (active_page_level_counts s) (ever_active_pages s) (directory_ticker_locates s) (per_locate s) (has_order_price s)
    (binaryfile_completion s) (system_hours_started s) (system_hours_ended s).
Definition set (s : Stats) (name : string) (v : Z) : Stats := with_nums s (<[name := v]> (nums s)).
(** [++stats.name] and [--stats.name] on a 64-bit member. *)
Definition bump (s : Stats) (name : string) : Stats := set s name (u64 (num s name + 1)).
Definition drop_ (s : Stats) (name : string) : Stats := set s name (u64 (num s name - 1)).
(** [stats.name += condition], and [if (condition) ++stats.name]. *)
Definition bumpIf (b : bool) (s : Stats) (name : string) : Stats :=
  set s name (u64 (num s name + if b then 1 else 0)).
(** [if (v > stats.name) stats.name = v] and its dual. *)
Definition raise (s : Stats) (name : string) (v : Z) : Stats := set s name (Z.max (num s name) v).
Definition lower (s : Stats) (name : string) (v : Z) : Stats := set s name (Z.min (num s name) v).

Definition at_locate (s : Stats) (name : string) (l : Z) : Z := (per_locate s name).[l].
Definition set_locate (s : Stats) (name : string) (l v : Z) : Stats :=
  mk (nums s) (type_counts s) (directory s) (price_pages s) (live_orders s) (seen_order_reference_pages s) (active_levels s)
    (active_page_level_counts s) (ever_active_pages s) (directory_ticker_locates s)
    (λ n, if String.eqb n name then <[l := v]> (per_locate s n) else per_locate s n) (has_order_price s)
    (binaryfile_completion s) (system_hours_started s) (system_hours_ended s).

Definition with_type_counts (s : Stats) (x : arr Z) : Stats :=
  mk (nums s) x (directory s) (price_pages s) (live_orders s) (seen_order_reference_pages s) (active_levels s)
    (active_page_level_counts s) (ever_active_pages s) (directory_ticker_locates s) (per_locate s) (has_order_price s)
    (binaryfile_completion s) (system_hours_started s) (system_hours_ended s).
Definition with_directory (s : Stats) (x : gmap Z (list Z)) : Stats :=
  mk (nums s) (type_counts s) x (price_pages s) (live_orders s) (seen_order_reference_pages s) (active_levels s)
    (active_page_level_counts s) (ever_active_pages s) (directory_ticker_locates s) (per_locate s) (has_order_price s)
    (binaryfile_completion s) (system_hours_started s) (system_hours_ended s).
Definition with_price_pages (s : Stats) (x : gset Z) : Stats :=
  mk (nums s) (type_counts s) (directory s) x (live_orders s) (seen_order_reference_pages s) (active_levels s)
    (active_page_level_counts s) (ever_active_pages s) (directory_ticker_locates s) (per_locate s) (has_order_price s)
    (binaryfile_completion s) (system_hours_started s) (system_hours_ended s).
Definition with_live (s : Stats) (x : gmap Z OrderState) : Stats :=
  mk (nums s) (type_counts s) (directory s) (price_pages s) x (seen_order_reference_pages s) (active_levels s)
    (active_page_level_counts s) (ever_active_pages s) (directory_ticker_locates s) (per_locate s) (has_order_price s)
    (binaryfile_completion s) (system_hours_started s) (system_hours_ended s).
Definition with_seen (s : Stats) (x : gmap Z (arr Z)) : Stats :=
  mk (nums s) (type_counts s) (directory s) (price_pages s) (live_orders s) x (active_levels s)
    (active_page_level_counts s) (ever_active_pages s) (directory_ticker_locates s) (per_locate s) (has_order_price s)
    (binaryfile_completion s) (system_hours_started s) (system_hours_ended s).
Definition with_levels (s : Stats) (x : gmap Z LevelState) : Stats :=
  mk (nums s) (type_counts s) (directory s) (price_pages s) (live_orders s) (seen_order_reference_pages s) x
    (active_page_level_counts s) (ever_active_pages s) (directory_ticker_locates s) (per_locate s) (has_order_price s)
    (binaryfile_completion s) (system_hours_started s) (system_hours_ended s).
Definition with_pages (s : Stats) (x : gmap Z Z) (ever : gset Z) : Stats :=
  mk (nums s) (type_counts s) (directory s) (price_pages s) (live_orders s) (seen_order_reference_pages s) (active_levels s)
    x ever (directory_ticker_locates s) (per_locate s) (has_order_price s)
    (binaryfile_completion s) (system_hours_started s) (system_hours_ended s).
Definition with_tickers (s : Stats) (x : gmap Z Z) : Stats :=
  mk (nums s) (type_counts s) (directory s) (price_pages s) (live_orders s) (seen_order_reference_pages s) (active_levels s)
    (active_page_level_counts s) (ever_active_pages s) x (per_locate s) (has_order_price s)
    (binaryfile_completion s) (system_hours_started s) (system_hours_ended s).
Definition with_has_price (s : Stats) (x : gset Z) : Stats :=
  mk (nums s) (type_counts s) (directory s) (price_pages s) (live_orders s) (seen_order_reference_pages s) (active_levels s)
    (active_page_level_counts s) (ever_active_pages s) (directory_ticker_locates s) (per_locate s) x
    (binaryfile_completion s) (system_hours_started s) (system_hours_ended s).
Definition with_completion (s : Stats) (x : string) : Stats :=
  mk (nums s) (type_counts s) (directory s) (price_pages s) (live_orders s) (seen_order_reference_pages s) (active_levels s)
    (active_page_level_counts s) (ever_active_pages s) (directory_ticker_locates s) (per_locate s) (has_order_price s)
    x (system_hours_started s) (system_hours_ended s).
Definition with_hours (s : Stats) (started ended : bool) : Stats :=
  mk (nums s) (type_counts s) (directory s) (price_pages s) (live_orders s) (seen_order_reference_pages s) (active_levels s)
    (active_page_level_counts s) (ever_active_pages s) (directory_ticker_locates s) (per_locate s) (has_order_price s)
    (binaryfile_completion s) started ended.

(** ** Observations *)

Definition observeOrderRef (s : Stats) (order_ref : Z) : Stats :=
  let s := raise s "max_order_ref" order_ref in
  bumpIf (max_u32 <? order_ref) s "order_refs_above_u32".

Definition observeMatch (s : Stats) (match_number : Z) : Stats := raise s "max_match_number" match_number.

Definition pageKey (locate price : Z) : Z := u32 (locate ≪ 16) .| (price ≫ 16).

Definition levelKey (locate side price : Z) : Z :=
  u64 (locate ≪ 33) .| ((if side =? ch "S" then 1 else 0) ≪ 32) .| price.

Definition observePrice (s : Stats) (locate price : Z) : Stats :=
  let s := lower s "min_price" price in
  let s := raise s "max_price" price in
  let s := bumpIf (kMaxItchPrice4 <? price) s "prices_above_documented_max" in
  with_price_pages s ({[pageKey locate price]} ∪ price_pages s).

Definition observeNewOrderRef (s : Stats) (order_ref : Z) : Stats :=
  let s :=
    if negb (num s "new_order_refs" =? 0) then
      let s := bump s "new_order_ref_transitions" in
      if num s "previous_new_order_ref" <? order_ref then
        let s := bump s "monotonic_new_order_ref_transitions" in
        raise s "max_forward_order_ref_gap" (u64 (order_ref - num s "previous_new_order_ref"))
      else s
    else s in
  let s := bump s "new_order_refs" in
  let s := set s "previous_new_order_ref" order_ref in
  let s := lower s "min_new_order_ref" order_ref in
  let s := raise s "max_new_order_ref" order_ref in
  bumpIf (max_u32 <? order_ref) s "new_order_refs_above_u32".

(** The claim of a reference that must be new for the day. *)
Definition claimDayUniqueOrderRef (s : Stats) (order_ref : Z) : bool * Stats :=
  let page_index := order_ref ≫ 16 in
  let bit_index := u16 order_ref in
  let words := default ∅ (seen_order_reference_pages s !! page_index) in
  let s := with_seen s (<[page_index := words]> (seen_order_reference_pages s)) in
  let word := words.[bit_index ≫ 6] in
  let mask := u64 (1 ≪ (bit_index .& 63)) in
  if negb (word .& mask =? 0) then (false, bump s "duplicate_order_refs")
  else (true, with_seen s (<[page_index := <[bit_index ≫ 6 := word .| mask]> words]> (seen_order_reference_pages s))).

Definition observeOrderPrice (s : Stats) (locate price : Z) : Stats :=
  let s := bump s "order_prices" in
  let s := lower s "min_order_book_price" price in
  let s := raise s "max_order_book_price" price in
  if negb (bool_decide (locate ∈ has_order_price s)) then
    let s := with_has_price s ({[locate]} ∪ has_order_price s) in
    let s := set_locate s "first_order_price" locate price in
    let s := set_locate s "min_order_price" locate price in
    let s := set_locate s "max_order_price" locate price in
    bump s "symbols_with_order_prices"
  else
  let s := if price <? at_locate s "min_order_price" locate then set_locate s "min_order_price" locate price else s in
  let s := if at_locate s "max_order_price" locate <? price then set_locate s "max_order_price" locate price else s in
  let reference := at_locate s "first_order_price" locate in
  let outside := if reference <=? price then 32768 <=? price - reference else 32768 <? reference - price in
  bumpIf outside s "prices_outside_first_window".

(** ** Reconstruction of the books *)

(** [++array[locate]] and the high-water mark beside it. *)
Definition countUp (s : Stats) (name hwm : string) (locate : Z) : Stats :=
  let s := set_locate s name locate (u32 (at_locate s name locate + 1)) in
  set_locate s hwm locate (Z.max (at_locate s hwm locate) (at_locate s name locate)).
Definition countDown (s : Stats) (name : string) (locate : Z) : Stats :=
  set_locate s name locate (u32 (at_locate s name locate - 1)).

(** The page of a level that has just been created. *)
Definition enterPage (s : Stats) (order : OrderState) : Stats :=
  let page_key := pageKey (locate order) (price order) in
  let '(count, s) :=
    match active_page_level_counts s !! page_key with
    | Some count => (count, s)
    | None =>
      let s := with_pages s (active_page_level_counts s) ({[page_key]} ∪ ever_active_pages s) in
      let s := bump s "active_page_count" in
      let s := set s "active_page_hwm" (Z.max (num s "active_page_hwm") (num s "active_page_count")) in
      (0, countUp s "pages_by_locate" "page_hwm_by_locate" (locate order))
    end in
  with_pages s (<[page_key := u32 (count + 1)]> (active_page_level_counts s)) (ever_active_pages s).

Definition addToLevel (s : Stats) (order : OrderState) : Stats :=
  let key := levelKey (locate order) (side order) (price order) in
  let '(level, s) :=
    match active_levels s !! key with
    | Some level => (level, s)
    | None =>
      let s := bump s "active_level_count" in
      let s := set s "active_level_hwm" (Z.max (num s "active_level_hwm") (num s "active_level_count")) in
      let s := countUp s "levels_by_locate" "level_hwm_by_locate" (locate order) in
      (mkLevel 0 0, enterPage s order)
    end in
  let level := mkLevel (u64 (total_qty level + qty order)) (u32 (order_count level + 1)) in
  let s := with_levels s (<[key := level]> (active_levels s)) in
  set s "max_level_qty" (Z.max (num s "max_level_qty") (total_qty level)).

(** [++stats.reconstruction_invariant_failures; return false]. *)
Definition broken (s : Stats) : bool * Stats := (false, bump s "reconstruction_invariant_failures").

(** The page of a level that has just been erased. *)
Definition leavePage (s : Stats) (order : OrderState) : bool * Stats :=
  let page_key := pageKey (locate order) (price order) in
  match active_page_level_counts s !! page_key with
  | None => broken s
  | Some count =>
    if count =? 0 then broken s else
    let count := count - 1 in
    if count =? 0 then
      let s := with_pages s (delete page_key (active_page_level_counts s)) (ever_active_pages s) in
      let s := drop_ s "active_page_count" in
      (true, countDown s "pages_by_locate" (locate order))
    else (true, with_pages s (<[page_key := count]> (active_page_level_counts s)) (ever_active_pages s))
  end.

Definition removeFromLevel (s : Stats) (order : OrderState) (removed_qty : Z) (remove_order : bool) : bool * Stats :=
  let key := levelKey (locate order) (side order) (price order) in
  match active_levels s !! key with
  | None => broken s
  | Some level =>
    if (total_qty level <? removed_qty) || (order_count level =? 0) then broken s else
    let total := total_qty level - removed_qty in
    if negb remove_order then
      let s := with_levels s (<[key := mkLevel total (order_count level)]> (active_levels s)) in
      if total =? 0 then broken s else (true, s)
    else
    let count := order_count level - 1 in
    let s := with_levels s (<[key := mkLevel total count]> (active_levels s)) in
    if negb (count =? 0) then if total =? 0 then broken s else (true, s) else
    if negb (total =? 0) then broken s else
    let s := with_levels s (delete key (active_levels s)) in
    let s := drop_ s "active_level_count" in
    leavePage (countDown s "levels_by_locate" (locate order)) order
  end.

(** [addToLevel] always returns true, so the branch that takes the order back is dead. *)
Definition addLiveOrder (s : Stats) (order_ref : Z) (order : OrderState) : Stats :=
  match live_orders s !! order_ref with
  | Some _ => bump s "duplicate_order_refs"
  | None =>
    let s := with_live s (<[order_ref := order]> (live_orders s)) in
    let s := addToLevel s order in
    let s := set s "live_order_hwm" (Z.max (num s "live_order_hwm") (Z.of_nat (size (live_orders s)))) in
    countUp s "live_orders_by_locate" "live_order_hwm_by_locate" (locate order)
  end.

Definition removeLiveOrder (s : Stats) (order_ref : Z) (order : OrderState) : bool * Stats :=
  let '(ok, s) := removeFromLevel s order (qty order) true in
  if negb ok then (false, s) else
  let s := countDown s "live_orders_by_locate" (locate order) in
  (true, with_live s (delete order_ref (live_orders s))).

Definition checkLocate (s : Stats) (wire_locate : Z) (order : OrderState) : Stats :=
  bumpIf (negb (wire_locate =? locate order)) s "locate_mismatches".

Definition with_order_qty (o : OrderState) (q : Z) : OrderState := mkOrder (price o) q (locate o) (side o).

Definition profileAdd (s : Stats) (locate order_ref price qty side : Z) : Stats :=
  let s := observeNewOrderRef s order_ref in
  let s := observeOrderPrice s locate price in
  let '(claimed, s) := claimDayUniqueOrderRef s order_ref in
  if negb claimed then s else
  if qty =? 0 then bump s "zero_quantity_mutations" else
  if negb (side =? ch "B") && negb (side =? ch "S") then bump s "invalid_order_sides" else
  addLiveOrder s order_ref (mkOrder price qty locate side).

(** The partial reduction that a cancel and an execution share. *)
Definition reduceLive (s : Stats) (order_ref : Z) (order : OrderState) (reduction : Z) : Stats :=
  let '(ok, s) := removeFromLevel s order reduction false in
  if negb ok then s else
  with_live s (<[order_ref := with_order_qty order (u32 (qty order - reduction))]> (live_orders s)).

Definition profileCancel (s : Stats) (locate order_ref canceled_qty : Z) : Stats :=
  match live_orders s !! order_ref with
  | None => bump s "missing_cancels"
  | Some order =>
    let s := checkLocate s locate order in
    if canceled_qty =? 0 then bump s "zero_quantity_mutations" else
    if qty order <=? canceled_qty then bump s "over_cancels" else
    reduceLive s order_ref order canceled_qty
  end.

Definition profileDelete (s : Stats) (locate order_ref : Z) : Stats :=
  match live_orders s !! order_ref with
  | None => bump s "missing_deletes"
  | Some order => snd (removeLiveOrder (checkLocate s locate order) order_ref order)
  end.

Definition profileExecution (s : Stats) (locate order_ref executed_qty : Z) : Stats :=
  match live_orders s !! order_ref with
  | None => bump s "missing_executions"
  | Some order =>
    let s := checkLocate s locate order in
    if executed_qty =? 0 then bump s "zero_quantity_mutations" else
    if qty order <? executed_qty then bump s "over_executions" else
    if executed_qty =? qty order then snd (removeLiveOrder s order_ref order) else
    reduceLive s order_ref order executed_qty
  end.

Definition profileReplace (s : Stats) (wire_locate old_order_ref new_order_ref new_price new_qty : Z) : Stats :=
  let s := observeNewOrderRef s new_order_ref in
  let s := observeOrderPrice s wire_locate new_price in
  if old_order_ref =? new_order_ref then bump s "same_reference_replaces" else
  let '(claimed, s) := claimDayUniqueOrderRef s new_order_ref in
  if negb claimed then s else
  match live_orders s !! old_order_ref with
  | None => bump s "missing_replaces"
  | Some order =>
    let s := checkLocate s wire_locate order in
    if new_qty =? 0 then bump s "zero_quantity_mutations" else
    match live_orders s !! new_order_ref with
    | Some _ => bump s "duplicate_order_refs"
    | None =>
      let '(removed, s) := removeLiveOrder s old_order_ref order in
      if negb removed then s else
      addLiveOrder s new_order_ref (mkOrder new_price new_qty (locate order) (side order))
    end
  end.

(** ** Directory and system events *)

Definition tickerAt (msg : list Z) (off : nat) : list Z := take kTickerLength (drop off msg).

Definition tickerMatches (identity ticker : list Z) : bool := bool_decide (identity = ticker).

Definition tickerHasIdentity (ticker : list Z) : bool :=
  existsb (λ c, negb (c =? ch " ") && negb (c =? 0)) ticker.

Definition tickerKey (ticker : list Z) : Z := readU64BE ticker 0.

Definition observeDirectory (s : Stats) (locate : Z) (msg : list Z) : Stats :=
  let ticker := tickerAt msg 11 in
  if (locate =? 0) || negb (tickerHasIdentity ticker) then bump s "invalid_directory_identities" else
  let existed := bool_decide (is_Some (directory s !! locate)) in
  let same_identity := match directory s !! locate with Some identity => tickerMatches identity ticker | None => false end in
  let s := bumpIf (existed && negb same_identity) s "conflicting_directory_identities" in
  let s :=
    if system_hours_started s then
      let s := bump s "directory_after_system_hours" in
      if negb existed then bump s "new_directory_after_system_hours" else
      if same_identity then bump s "repeated_directory_after_system_hours"
      else bump s "conflicting_directory_after_system_hours"
    else bump s "directory_before_system_hours" in
  if negb existed then
    let key := tickerKey ticker in
    let s :=
      match directory_ticker_locates s !! key with
      | None => with_tickers s (<[key := locate]> (directory_ticker_locates s))
      | Some other => bumpIf (negb (other =? locate)) s "duplicate_directory_tickers"
      end in
    with_directory s (<[locate := ticker]> (directory s))
  else s.

Definition observeAddIdentity (s : Stats) (locate : Z) (msg : list Z) : Stats :=
  match directory s !! locate with
  | None => bump s "order_adds_before_directory"
  | Some identity => bumpIf (negb (tickerMatches identity (tickerAt msg 24))) s "order_add_stock_mismatches"
  end.

Definition observeSystemEvent (s : Stats) (event_code : Z) : Stats :=
  let seen := num s "daily_system_events_seen" in
  let s :=
    if bool_decide (event_code ∈ kDailySystemEvents) then
      if (Z.of_nat (length kDailySystemEvents) <=? seen) ||
         negb (event_code =? nth (Z.to_nat seen) kDailySystemEvents 0)
      then bump s "system_event_sequence_errors" else bump s "daily_system_events_seen"
    else if (event_code =? ch "A") || (event_code =? ch "R") || (event_code =? ch "B") then s
    else bump s "unsupported_system_event_codes" in
  if event_code =? ch "S" then with_hours s true (system_hours_ended s) else
  if event_code =? ch "E" then with_hours (bump s "system_event_e") (system_hours_started s) true else
  if event_code =? ch "C" then with_hours s (system_hours_started s) false else s.

(** ** Messages *)

Definition bookType (type : Z) : bool :=
  existsb (λ c, type =? c) (ch <$> ["A"; "F"; "E"; "C"; "X"; "D"; "U"]%char).

(** What is observed of every well-formed message, before the switch. *)
Definition observeHeader (s : Stats) (msg : list Z) : Stats :=
  let type := byteAt msg 0 in
  let s := bumpIf (kNanosecondsPerDay <=? readU48BE msg 5) s "invalid_timestamps" in
  let s := raise s "max_stock_locate" (readU16BE msg 1) in
  let s :=
    if system_hours_ended s then
      let s := bump s "messages_after_system_event_e" in
      let s := bumpIf (type =? ch "X") s "cancels_after_system_event_e" in
      let s := bumpIf (type =? ch "D") s "deletes_after_system_event_e" in
      let s := bumpIf (type =? ch "B") s "broken_trades_after_system_event_e" in
      bumpIf (negb (type =? ch "X") && negb (type =? ch "D") && negb (type =? ch "B") &&
              negb ((type =? ch "S") && (byteAt msg 11 =? ch "C"))) s "invalid_messages_after_system_event_e"
    else s in
  bumpIf (negb (system_hours_started s) && bookType type) s "book_messages_before_system_hours".

(** The switch over the type.  Its own length tests repeat the one of
    [observeMessage] and never fail. *)
Definition observeBody (s : Stats) (msg : list Z) : Stats :=
  let type := byteAt msg 0 in
  let locate := readU16BE msg 1 in
  let order_ref := readU64BE msg 11 in
  if (type =? ch "A") || (type =? ch "F") then
    let price := readU32BE msg 32 in
    let s := observeOrderRef s order_ref in
    let s := observePrice s locate price in
    let s := observeAddIdentity s locate msg in
    profileAdd s locate order_ref price (readU32BE msg 20) (byteAt msg 19)
  else if type =? ch "E" then
    let s := observeOrderRef s order_ref in
    let s := profileExecution s locate order_ref (readU32BE msg 19) in
    observeMatch s (readU64BE msg 23)
  else if type =? ch "C" then
    let s := observeOrderRef s order_ref in
    let s := profileExecution s locate order_ref (readU32BE msg 19) in
    let s := observeMatch s (readU64BE msg 23) in
    observePrice s locate (readU32BE msg 32)
  else if type =? ch "X" then
    profileCancel (observeOrderRef s order_ref) locate order_ref (readU32BE msg 19)
  else if type =? ch "D" then profileDelete (observeOrderRef s order_ref) locate order_ref
  else if type =? ch "U" then
    let new_order_ref := readU64BE msg 19 in
    let new_price := readU32BE msg 31 in
    let s := observeOrderRef s order_ref in
    let s := observeOrderRef s new_order_ref in
    let s := observePrice s locate new_price in
    profileReplace s locate order_ref new_order_ref new_price (readU32BE msg 27)
  else if type =? ch "B" then observeMatch s order_ref
  else if type =? ch "R" then observeDirectory s locate msg
  else if type =? ch "S" then observeSystemEvent s (byteAt msg 11)
  else s.

Definition observeMessage (s : Stats) (msg : list Z) : Stats :=
  let length := Z.of_nat (length msg) in
  if length =? 0 then bump s "zero_length_records" else
  let type := byteAt msg 0 in
  let s := with_type_counts s (<[type := u64 ((type_counts s).[type] + 1)]> (type_counts s)) in
  let s := raise s "max_message_length" length in
  if (expectedItchMessageLength type =? 0) || negb (length =? expectedItchMessageLength type)
  then bump s "malformed_records" else
  observeBody (observeHeader s msg) msg.

(** ** The file *)

(** [input.read] of [n] bytes: what was read and the rest of the input. *)
Definition readBytes (n : nat) (input : list Z) : list Z * list Z := (take n input, drop n input).

(** [++malformed_records; binaryfile_completion = why; break]. *)
Definition malformed (s : Stats) (why : string) : Stats := with_completion (bump s "malformed_records") why.

(** What a turn of the record loop leaves: the end of the loop, or the state of the next
    turn. *)
Inductive Turn := Stop (s : Stats) | Next (s : Stats) (saw_end : bool).

(** A record whose bytes were read. *)
Definition observeRecord (s : Stats) (saw_message saw_end : bool) (msg : list Z) : Turn :=
  let length := Z.of_nat (length msg) in
  let s := bump s "records" in
  let s := set s "bytes" (u64 (num s "bytes" + (length + 2))) in
  let type := byteAt msg 0 in
  if (expectedItchMessageLength type =? 0) || negb (length =? expectedItchMessageLength type)
  then Stop (malformed s "malformed_record") else
  if (type =? ch "S") && negb (readU16BE msg 1 =? 0) then Stop (malformed s "malformed_record") else
  let event code := (length =? 12) && (type =? ch "S") && (byteAt msg 11 =? ch code) in
  if negb saw_message && negb (event "O"%char) then Stop (malformed s "missing_so") else
  if saw_end then Stop (malformed s "record_after_sc") else
  Next (observeMessage s msg) (event "C"%char).

(** The record loop: the statistics, the chunks handed to the digest and what is left of
    the input. *)
Fixpoint recordLoop (fuel : nat) (legacy : bool) (s : Stats) (saw_message saw_end : bool) (input : list Z)
    (hashed : list (list Z)) : option (Stats * list (list Z) * list Z) :=
  match fuel with
  | O => None
  | S fuel =>
    let '(length_bytes, rest) := readBytes 2 input in
    let hashed := if Nat.ltb 0 (length length_bytes) then hashed ++ [length_bytes] else hashed in
    if Nat.eqb (length length_bytes) 0 then
      Some (if legacy && saw_end then with_completion s "legacy_sc_eof" else malformed s "incomplete_eof", hashed, rest)
    else if negb (Nat.eqb (length length_bytes) 2) then Some (malformed s "truncated_length", hashed, rest) else
    let size := readU16BE length_bytes 0 in
    if size =? 0 then
      let s := set s "bytes" (u64 (num s "bytes" + 2)) in
      let s := bump s "zero_length_records" in
      Some (if negb (bool_decide (rest = [])) then malformed s "trailing_data" else
            if negb saw_end then malformed s "terminator_before_sc" else with_completion s "terminator", hashed, rest)
    else
    let '(msg, rest) := readBytes (Z.to_nat size) rest in
    let hashed := if Nat.ltb 0 (length msg) then hashed ++ [msg] else hashed in
    if negb (Z.of_nat (length msg) =? size) then Some (malformed s "truncated_payload", hashed, rest) else
    match observeRecord s saw_message saw_end msg with
    | Stop s => Some (s, hashed, rest)
    | Next s saw_end => recordLoop fuel legacy s true saw_end rest hashed
    end
  end.

(** The rest of the input in pieces of [n] bytes, for the digest. *)
Fixpoint chunks (fuel n : nat) (input : list Z) : list (list Z) :=
  match fuel, input with
  | S fuel, _ :: _ => let '(chunk, rest) := readBytes n input in chunk :: chunks fuel n rest
  | _, _ => []
  end.

Definition kDigestBuffer : nat := Z.to_nat (1024 * 1024).

(** [sha256File]: the digest of the running profiler. *)
Definition sha256File (file : option (list Z)) : string + list Z :=
  match file with
  | None => inl "cannot open profiler executable for SHA-256"
  | Some contents =>
    d ← Sha256.updates Sha256.make (chunks (length contents) kDigestBuffer contents);
    if Nat.eqb (length contents) 0 then inl "profiler executable is empty" else inr (fst (Sha256.finalizeHex d))
  end.

(** ** The certificate *)

Definition cleanCounters : list string :=
  ["prices_above_documented_max"; "conflicting_directory_after_system_hours"; "conflicting_directory_identities";
   "invalid_directory_identities"; "duplicate_directory_tickers"; "invalid_timestamps"; "order_adds_before_directory";
   "order_add_stock_mismatches"; "book_messages_before_system_hours"; "system_event_sequence_errors";
   "unsupported_system_event_codes"; "invalid_messages_after_system_event_e"; "duplicate_order_refs"; "missing_deletes";
   "missing_cancels"; "missing_executions"; "missing_replaces"; "same_reference_replaces"; "over_cancels";
   "over_executions"; "zero_quantity_mutations"; "invalid_order_sides"; "locate_mismatches";
   "reconstruction_invariant_failures"].

Definition semanticProfileClean (s : Stats) : bool :=
  forallb (λ c, num s c =? 0) cleanCounters &&
  (num s "daily_system_events_seen" =? Z.of_nat (length kDailySystemEvents)) && (num s "system_event_e" =? 1) &&
  bool_decide (live_orders s = ∅) && (num s "active_level_count" =? 0) && (num s "active_page_count" =? 0).

Definition registeredDirectoryCount (s : Stats) : Z := Z.of_nat (size (directory s)).

(** The storage figures of [printReconstructionStats]. *)
Definition totalLogicalBytes (s : Stats) : Z :=
  let page_capacity := Z.of_nat (size (ever_active_pages s)) in
  let page_metadata_slots := u64 (page_capacity + 1) in
  let page_arena := u64 (page_capacity * BookCapacity.kPricePageBytes) in
  let page_owner := u64 (page_metadata_slots * BookCapacity.kPageOwnerStorageBytes) in
  let page_summary := u64 (page_metadata_slots * BookCapacity.kPageSummaryStorageBytes) in
  let page_occupancy := u64 (page_metadata_slots * BookCapacity.kSideCount * BookCapacity.kBitmapStorageBytes) in
  let root_handle := BookCapacity.kPriceRootSlotCount * BookCapacity.sizeofPricePageHandle in
  let prepared_book := kStockLocateSlots in
  let book_summary := kStockLocateSlots * BookCapacity.kBookSummaryStorageBytes in
  let book_occupancy := kStockLocateSlots * BookCapacity.kSideCount * BookCapacity.kBitmapStorageBytes in
  u64 (page_arena + page_owner + page_summary + page_occupancy + root_handle + prepared_book + book_summary + book_occupancy).

(** What a run reports: the statistics, the digests of the archive and of the profiler
    and whether the trace is semantically clean. *)
Record Report := mkReport {
  stats : Stats;
  binaryfile_sha256 : list Z;
  profiler_sha256 : list Z;
  semantic_clean : bool }.

Definition completeFile (completion : string) : bool :=
  String.eqb completion "terminator" || String.eqb completion "legacy_sc_eof".

(** The status of a process that ends with an exception nobody catches: the digest refuses
    an input that is too long. *)
Definition kAborted : Z := 134.

(** The exit code and the report; [argv] has the program's name first.  A file is its bytes,
    so a read that fails before the end of the file is left out; the record loop never runs
    out of fuel. *)
Definition main (argv : list (list Z)) (executable file : option (list Z)) : Z * option Report :=
  let argc := length argv in
  let legacy := Nat.eqb argc 3 &&
    bool_decide (nth 2 argv [] = ch <$> String.list_ascii_of_string "--allow-legacy-eof-after-sc") in
  if Nat.ltb argc 2 || Nat.ltb 3 argc || (Nat.eqb argc 3 && negb legacy) then (2, None) else
  match sha256File executable, file with
  | inl _, _ | _, None => (2, None)
  | inr profiler, Some input =>
    match recordLoop (S (length input)) legacy make false false input [] with
    | None => (kAborted, None)
    | Some (s, hashed, rest) =>
      match Sha256.updates Sha256.make (hashed ++ chunks (length rest) kDigestBuffer rest) with
      | inl _ => (kAborted, None)
      | inr d =>
        let clean := semanticProfileClean s in
        ((if (num s "malformed_records" =? 0) && completeFile (binaryfile_completion s) && clean then 0 else 1),
         Some (mkReport s (fst (Sha256.finalizeHex d)) profiler clean))
      end
    end
  end.

End Profile.
