(* ===== verification/ProfileInv.v ===== *)
(** The record loop of the profiler: it completes exactly on complete archives, and its
    statistics are those of the archive's records, in order. *)
From stdpp Require Import base list gmap strings.
From Stdlib Require Import ZArith Lia Ascii.
From S2P Require Import Prelude Bits BookTypes Protocol Parser ParserInv Replay ReplayInv Sha Capacity Profile.
#[local] Open Scope string_scope.
#[local] Open Scope list_scope.
#[local] Open Scope Z_scope.
#[local] Open Scope astra_scope.

Module ProfileInv.
Import Protocol Profile ReplayInv.

Definition policyOf (legacy : bool) : CompletionPolicy :=
  if legacy then AllowEofAfterEndOfMessages else RequireTerminator.

(** The figures counted before a record is looked at. *)
Definition counted (s : Stats) (m : list Z) : Stats :=
  let s := bump s "records" in set s "bytes" (u64 (num s "bytes" + (Z.of_nat (length m) + 2))).

(** The statistics of some records. *)
Definition profile (s : Stats) (ms : list (list Z)) : Stats :=
  fold_left (λ s m, observeMessage (counted s m) m) ms s.

(** The end of a complete file. *)
Definition closing (tail : list Z) (s : Stats) : Stats :=
  if bool_decide (tail = []) then with_completion s "legacy_sc_eof"
  else with_completion (bump (set s "bytes" (u64 (num s "bytes" + 2))) "zero_length_records") "terminator".

Lemma record_length_type m : record_ok m →
  (expectedItchMessageLength (byteAt m 0) =? 0) ||
  negb (Z.of_nat (length m) =? expectedItchMessageLength (byteAt m 0)) = false.
Proof.
  intros [(_&Hne&Hl) _]. rewrite Hl, Z.eqb_refl. cbn [negb]. rewrite orb_false_r. apply Z.eqb_neq.
  rewrite <- Hl. destruct m; [done|]. cbn [length]. lia.
Qed.

Lemma event_code m code : record_ok m →
  (Z.of_nat (length m) =? 12) && (byteAt m 0 =? ch "S") && (byteAt m 11 =? ch code) = ItchMoldUdpSource.hasEventCode m code.
Proof.
  intros [(_&_&Hl) _]. unfold ItchMoldUdpSource.hasEventCode, ItchMoldUdpSource.isSystemEvent.
  destruct (Z.eqb_spec (byteAt m 0) (ch "S")) as [E|]; [|by rewrite andb_false_r].
  rewrite Hl, E. done.
Qed.

Lemma join16 b0 b1 : 0 <= b0 < 256 → 0 <= b1 < 256 → (b0 ≪ 8) .| b1 = 256 * b0 + b1.
Proof. intros H0 H1. rewrite shift8 by lia. lia. Qed.

Lemma read16_pair b0 b1 rest : 0 <= b0 < 256 → 0 <= b1 < 256 → readU16BE (b0 :: b1 :: rest) 0 = 256 * b0 + b1.
Proof. apply join16. Qed.

Lemma shift_fits b0 : 0 <= b0 < 256 → fits 16 (b0 ≪ 8).
Proof. intros H. unfold fits. rewrite Z.shiftl_mul_pow2 by lia. lia. Qed.

(** The length prefix of a record. *)
Lemma read_prefix n rest : 0 <= n < 65536 → readU16BE (ItchMoldUdpSource.writeU16BE n ++ rest) 0 = n.
Proof.
  intros Hn. rewrite <- (prefix_value n Hn) at 2. rewrite u16_id; [done|]. rewrite land255 by lia.
  apply shift_fits. apply Z.mod_pos_bound. lia.
Qed.

Lemma write_prefix b0 b1 : 0 <= b0 < 256 → 0 <= b1 < 256 → ItchMoldUdpSource.writeU16BE (256 * b0 + b1) = [b0; b1].
Proof.
  intros H0 H1. rewrite <- (proj1 (prefix_split b0 b1 H0 H1)), u16_id by (by apply shift_fits). by rewrite join16.
Qed.

Lemma prefix_shape m : record_ok m →
  ∃ b0 b1, ItchMoldUdpSource.writeU16BE (Z.of_nat (length m)) = [b0; b1] ∧ readU16BE ([b0; b1] ++ []) 0 = Z.of_nat (length m).
Proof.
  intros Hm. pose proof (record_length m Hm). eexists _, _. split; [done|]. apply (read_prefix (Z.of_nat (length m)) []). lia.
Qed.

Lemma system_locate m : bytes m → (3 <= length m)%nat →
  readU16BE m 1 = 0 ↔ byteAt m 1 = 0 ∧ byteAt m 2 = 0.
Proof.
  intros Hb Hl. destruct m as [|a [|b0 [|b1 m]]]; try (cbn in Hl; lia). repeat (apply Forall_cons in Hb as [? Hb]).
  unfold readU16BE, byteAt. cbn. rewrite join16 by done. lia.
Qed.

(** ** One record *)

Lemma observeRecord_accepts s saw m :
  record_ok m → (saw = false → ItchMoldUdpSource.hasEventCode m "O" = true) →
  observeRecord s saw false m = Next (observeMessage (counted s m) m) (ItchMoldUdpSource.hasEventCode m "C").
Proof.
  intros Hm Hs. unfold observeRecord. cbn zeta. rewrite (record_length_type m Hm), !(event_code m _ Hm).
  assert ((byteAt m 0 =? ch "S") && negb (readU16BE m 1 =? 0) = false) as ->.
  { destruct (byteAt m 0 =? ch "S") eqn:E; [|done]. pose proof (record_length m Hm). destruct Hm as [(Hb&_) Hl].
    rewrite (proj2 (system_locate m Hb ltac:(lia)) (Hl E)). done. }
  assert (negb saw && negb (ItchMoldUdpSource.hasEventCode m "O") = false) as -> by (destruct saw; [done|by rewrite Hs]).
  done.
Qed.

Lemma observeRecord_sound s saw fin m : bytes m →
  match observeRecord s saw fin m with
  | Next s' fin' => record_ok m ∧ (saw = false → ItchMoldUdpSource.hasEventCode m "O" = true) ∧ fin = false ∧
                    fin' = ItchMoldUdpSource.hasEventCode m "C" ∧ s' = observeMessage (counted s m) m
  | Stop s' => completeFile (binaryfile_completion s') = false
  end.
Proof.
  intros Hb. unfold observeRecord. cbn zeta. destruct (_ || _) eqn:El; [done|]. destruct (_ && _) eqn:Es; [done|].
  apply orb_false_iff in El as [E0%Z.eqb_neq El%negb_false_iff%Z.eqb_eq].
  assert (record_ok m) as Hm.
  { assert (m ≠ []) as Hne by (intros ->; by destruct E0). split; [done|]. intros Hs.
    change ((byteAt m 0 =? ch "S") = true) in Hs.
    assert (12 <= length m)%nat as Hlen by (rewrite (proj1 (Z.eqb_eq _ _) Hs) in El; change (expectedItchMessageLength (ch "S")) with 12 in El; lia).
    rewrite Hs in Es. apply negb_false_iff, Z.eqb_eq in Es.
    apply system_locate; [done|lia|done]. }
  rewrite !(event_code m _ Hm). destruct (negb saw && _) eqn:Eo; [done|]. destruct fin; [done|].
  split; [done|]. split; [|done]. intros ->. by apply negb_false_iff in Eo.
Qed.

(** ** The loop *)

Lemma hashed_chunk (m : list Z) hashed :
  mjoin (if Nat.ltb 0 (length m) then hashed ++ [m] else hashed) = mjoin hashed ++ m.
Proof. destruct m; [by rewrite (right_id [] (++))|]. cbn [length Nat.ltb Nat.leb]. rewrite join_app. cbn. by rewrite (right_id [] (++)). Qed.

Lemma profileLoop_sound fuel legacy s saw fin input hashed s' hashed' rest :
  bytes input → recordLoop fuel legacy s saw fin input hashed = Some (s', hashed', rest) →
  mjoin hashed' ++ rest = mjoin hashed ++ input ∧
  (completeFile (binaryfile_completion s') = true →
   rest = [] ∧ ∃ ms tail, input = frames ms ++ tail ∧ tail_ok (policyOf legacy) tail ∧ Forall record_ok ms ∧
     (if fin then ms = [] else ends_once ms) ∧ (saw = false → fin = false → starts ms) ∧ s' = closing tail (profile s ms)).
Proof.
  revert s saw fin input hashed. induction fuel as [|fuel IH]; intros s saw fin input hashed Hb; [done|]. cbn [recordLoop].
  destruct input as [|b0 [|b1 input]].
  - cbn [readBytes take drop length Nat.ltb Nat.leb Nat.eqb]. intros [= <- <- <-]. split; [done|].
    destruct legacy, fin; cbn [andb]; [|done..]. intros _. split; [done|]. exists [], []. split_and!; try done. by right.
  - cbn [readBytes take drop length Nat.ltb Nat.leb Nat.eqb negb]. intros [= <- <- <-]. split; [|done].
    rewrite join_app. cbn. by rewrite !(right_id [] (++)).
  - cbn [readBytes take drop length Nat.ltb Nat.leb Nat.eqb negb]. apply Forall_cons in Hb as [H0 Hb]. apply Forall_cons in Hb as [H1 Hb].
    change (take 0 input) with (@nil Z). change (drop 0 input) with input.
    change (Nat.eqb (length (@nil Z)) 0) with true. cbn [negb].
    rewrite read16_pair by done. destruct (Z.eqb_spec (256 * b0 + b1) 0) as [Ez|Ez].
    + intros [= <- <- <-]. split; [rewrite join_app; cbn; by rewrite <- (assoc_L (++))|].
      case_bool_decide as Er; cbn [negb]; [|done]. destruct fin; cbn [negb]; [|done]. intros _. subst input. split; [done|].
      exists [], [b0; b1]. assert (b0 = 0 ∧ b1 = 0) as [-> ->] by lia. split_and!; try done. by left.
    + set (size := 256 * b0 + b1) in *. set (m := take (Z.to_nat size) input). set (rest0 := drop (Z.to_nat size) input).
      assert (m ++ rest0 = input) as Ecut by apply take_drop.
      assert (bytes m ∧ bytes rest0) as [Hm Hr] by (rewrite <- Ecut in Hb; by apply Forall_app in Hb).
      match goal with |- (if _ then Some (_, ?h, _) else _) = _ → _ => set (h1 := h) end.
      assert (mjoin h1 ++ rest0 = mjoin hashed ++ b0 :: b1 :: input) as Eh.
      { assert (mjoin h1 = mjoin (hashed ++ [[b0; b1]]) ++ m) as -> by apply hashed_chunk.
        rewrite join_app, <- Ecut. cbn. by rewrite <- !(assoc_L (++)). }
      destruct (Z.eqb_spec (Z.of_nat (length m)) size) as [El|]; cbn [negb]; [|by intros [= <- <- <-]].
      pose proof (observeRecord_sound s saw fin m Hm) as Ho. destruct (observeRecord s saw fin m) as [s1|s1 fin1].
      { intros [= <- <- <-]. split; [exact Eh|]. by rewrite Ho. }
      destruct Ho as (Hok&Hst&->&->&->). intros Hl. destruct (IH _ _ _ _ _ Hr Hl) as [Ej Hfin]. split; [by rewrite Ej|].
      intros Hc. destruct (Hfin Hc) as (->&ms&tail&Ein&Htail&Hms&Hend&_&Es). split; [done|]. exists (m :: ms), tail.
      split_and!; [|done|by constructor| |by intros ? _; apply Hst|done].
      * rewrite <- Ecut at 1. rewrite Ein, frames_cons. unfold frame. rewrite El. unfold size. rewrite write_prefix by done.
        cbn. by rewrite <- (assoc_L (++)).
      * destruct (ItchMoldUdpSource.hasEventCode m "C") eqn:E; [by subst ms|]. destruct ms; [done|]. by split.
Qed.

Lemma recordLoop_complete fuel legacy s (saw fin : bool) ms tail hashed :
  Forall record_ok ms → tail_ok (policyOf legacy) tail → (if fin then ms = [] else ends_once ms) →
  (saw = false → fin = false → starts ms) → (length ms < fuel)%nat →
  ∃ hashed', recordLoop fuel legacy s saw fin (frames ms ++ tail) hashed = Some (closing tail (profile s ms), hashed', []).
Proof.
  revert s saw fin ms hashed. induction fuel as [|fuel IH]; intros s saw fin ms hashed Hms Ht He Hs Hf; [lia|].
  destruct ms as [|m ms].
  - destruct fin; [|done]. destruct Ht as [->|[Hl ->]]; [by eexists|]. destruct legacy; [|done]. by eexists.
  - destruct fin; [done|]. apply Forall_cons in Hms as [Hm Hms]. pose proof (record_length m Hm) as Hlen.
    rewrite frames_cons. unfold frame. rewrite <- !(assoc_L (++)).
    destruct (prefix_shape m Hm) as (b0&b1&Ep&Ev). rewrite Ep. cbn [recordLoop readBytes take drop app length Nat.ltb Nat.leb Nat.eqb negb].
    change (readU16BE (b0 :: b1 :: take 0 (m ++ frames ms ++ tail)) 0) with (readU16BE ([b0; b1] ++ []) 0). rewrite Ev.
    rewrite (proj2 (Z.eqb_neq (Z.of_nat (length m)) 0)) by lia. rewrite Nat2Z.id.
    change (drop 0 (m ++ frames ms ++ tail)) with (m ++ frames ms ++ tail).
    change (Nat.eqb (length (take 0 (m ++ frames ms ++ tail))) 0) with true. cbn [negb].
    rewrite take_app_length, drop_app_length, Z.eqb_refl. cbn [negb].
    rewrite (observeRecord_accepts s saw m Hm) by (intros E; by apply (Hs E)).
    change (profile s (m :: ms)) with (profile (observeMessage (counted s m) m) ms).
    apply IH; [done|done| |done|cbn in Hf; lia].
    destruct ms as [|m' ms]; [by rewrite He|]. destruct He as [-> He]. done.
Qed.

Lemma recordLoop_total fuel legacy s saw fin input hashed :
  (length input < fuel)%nat → is_Some (recordLoop fuel legacy s saw fin input hashed).
Proof.
  revert s saw fin input hashed. induction fuel as [|fuel IH]; intros s saw fin input hashed Hf; [lia|]. cbn [recordLoop].
  destruct (readBytes 2 input) as [l rest] eqn:E. injection E as <- <-.
  destruct (Nat.eqb _ 0) eqn:E0; [by eexists|]. destruct (negb _) eqn:E2; [by eexists|]. destruct (_ =? 0); [by eexists|].
  destruct (readBytes _ (drop 2 input)) as [msg rest'] eqn:E'. injection E' as <- <-. destruct (negb (_ =? _)); [by eexists|].
  destruct (observeRecord _ _ _ _); [by eexists|]. apply IH. rewrite !length_drop. apply Nat.eqb_neq in E0. rewrite length_take in E0. lia.
Qed.

End ProfileInv.
