(* ===== verification/ProfileClean.v ===== *)
(** The counters a clean profile leaves at zero: no operation ever takes one down, so a
    profile that is clean at the end was clean after every message.

    [grows k s s'] says that from [s] to [s'] each of those counters went up by at most
    [k], that the high-water mark of the references and the pages ever used did not go
    back, and that no record was found malformed. *)
From stdpp Require Import base list gmap strings.
From Stdlib Require Import ZArith Lia Ascii.
From S2P Require Import Prelude Bits BookTypes Protocol Parser ParserInv Replay ReplayInv Sha Capacity Profile ProfileInv.
#[local] Open Scope string_scope.
#[local] Open Scope list_scope.
#[local] Open Scope Z_scope.
#[local] Open Scope astra_scope.

Module ProfileClean.
Import Protocol Profile ProfileInv.

(** ** Members *)

Lemma num_set s n v c : num (set s n v) c = if decide (n = c) then v else num s c.
Proof. unfold num, set. cbn [nums with_nums]. rewrite lookup_insert. by case_decide. Qed.

Lemma num_set_ne s n v c : n ≠ c → num (set s n v) c = num s c.
Proof. intros. by rewrite num_set, decide_False. Qed.

Lemma num_set_eq s n v : num (set s n v) n = v.
Proof. by rewrite num_set, decide_True. Qed.

(** ** Growth *)

Record grows (k : Z) (s s' : Stats) : Prop := {
  gr_pos : 0 <= k;
  gr_counters : ∀ c, c ∈ cleanCounters → 0 <= num s c → num s c + k < 2 ^ 64 → num s c <= num s' c <= num s c + k;
  gr_ref : num s "max_order_ref" <= num s' "max_order_ref";
  gr_malformed : num s' "malformed_records" = num s "malformed_records";
  gr_pages : ever_active_pages s ⊆ ever_active_pages s' }.

Lemma grows_trans a b s t u : grows a s t → grows b t u → grows (a + b) s u.
Proof.
  intros [H0 H1 H2 H2' H3] [H4 H5 H6 H6' H7]. split; [lia| |lia|congruence|set_solver]. intros c Hc Hn Hk.
  pose proof (H1 c Hc Hn ltac:(lia)). pose proof (H5 c Hc ltac:(lia) ltac:(lia)). lia.
Qed.

Lemma grows_le a b s t : grows a s t → a <= b → grows b s t.
Proof. intros [H0 H1 H2 H2' H3] Hle. split; [lia| |done|done|done]. intros c Hc Hn Hk. specialize (H1 c Hc Hn ltac:(lia)). lia. Qed.

(** Only members that are not followed changed. *)
Lemma grows_same s s' : nums s' = nums s → ever_active_pages s ⊆ ever_active_pages s' → grows 0 s s'.
Proof. intros E He. split; [done| |by unfold num; rewrite E|by unfold num; rewrite E|done]. intros c _. unfold num. rewrite E. lia. Qed.

Lemma grows_refl s : grows 0 s s.
Proof. by apply grows_same. Qed.

Lemma grows_if a b s (c : bool) t u : grows a s t → grows b s u → grows (Z.max a b) s (if c then t else u).
Proof. intros. destruct c; (eapply grows_le; [eassumption|lia]). Qed.

(** A member that is not followed by a field of its own. *)
Definition free (n : string) : bool := negb (String.eqb n "max_order_ref") && negb (String.eqb n "malformed_records").

Lemma free_names n : free n = true → n ≠ "max_order_ref" ∧ n ≠ "malformed_records".
Proof. unfold free. intros [H1%negb_true_iff%String.eqb_neq H2%negb_true_iff%String.eqb_neq]%andb_true_iff. done. Qed.

(** A member that is not followed at all. *)
Definition plain (n : string) : bool := negb (bool_decide (n ∈ cleanCounters)) && free n.

Lemma plain_set s n v : plain n = true → grows 0 s (set s n v).
Proof.
  unfold plain. intros [Hc%negb_true_iff%bool_decide_eq_false [Hr Hm]%free_names]%andb_true_iff.
  split; [done| |by rewrite num_set_ne|by rewrite num_set_ne|done]. intros c Hin _ _. rewrite num_set_ne by (by intros ->). lia.
Qed.

Lemma add_grows s n j : free n = true → 0 <= j <= 1 → grows 1 s (set s n (u64 (num s n + j))).
Proof.
  intros [Hr Hm]%free_names Hj. split; [done| |by rewrite num_set_ne|by rewrite num_set_ne|done]. intros c Hin H0 Hk. rewrite num_set. case_decide as E; [|lia]. subst c.
  rewrite u64_id; [lia|]. unfold fits. lia.
Qed.

Lemma bump_grows s n : free n = true → grows 1 s (bump s n).
Proof. intros H. by apply add_grows. Qed.

Lemma bumpIf_grows b s n : free n = true → grows 1 s (bumpIf b s n).
Proof. intros H. apply add_grows; [done|]. by destruct b. Qed.

Lemma ref_grows s v : grows 0 s (raise s "max_order_ref" v).
Proof.
  unfold raise. split; [done| |rewrite num_set_eq; lia|by rewrite num_set_ne|done]. intros c Hin _ _. rewrite num_set_ne; [lia|].
  intros <-. assert (bool_decide ("max_order_ref" ∈ cleanCounters) = false) as H by (vm_compute; reflexivity).
  by apply bool_decide_eq_false in H.
Qed.

(** Follows the operations from the last to the first; [grow k] then compares the bound
    found with [k]. *)
Create HintDb growth.
#[export] Hint Resolve ref_grows : growth.
#[export] Hint Extern 0 (grows _ _ (bump _ _)) => apply plain_set; reflexivity : growth.
#[export] Hint Extern 0 (grows _ _ (bumpIf _ _ _)) => apply plain_set; reflexivity : growth.
#[export] Hint Extern 1 (grows _ _ (bump _ _)) => apply bump_grows; reflexivity : growth.
#[export] Hint Extern 1 (grows _ _ (bumpIf _ _ _)) => apply bumpIf_grows; reflexivity : growth.
#[export] Hint Extern 1 (grows _ _ (drop_ _ _)) => apply plain_set; reflexivity : growth.
#[export] Hint Extern 2 (grows _ _ (set _ _ _)) => apply plain_set; reflexivity : growth.
#[export] Hint Extern 2 (grows _ _ (raise _ _ _)) => apply plain_set; reflexivity : growth.
#[export] Hint Extern 2 (grows _ _ (lower _ _ _)) => apply plain_set; reflexivity : growth.
#[export] Hint Extern 3 (grows _ _ (set_locate _ _ _ _)) => apply grows_same; done : growth.

Ltac inner x :=
  match x with
  | _ ?a => match type of a with Stats => constr:(a) end
  | ?f _ => inner f
  end.
Ltac grow_from :=
  lazymatch goal with
  | |- grows _ ?s ?s => apply grows_refl
  | |- grows _ _ (if _ then _ else _) => apply grows_if; grow_from
  | |- grows _ _ ?x => let t := inner x in eapply (grows_trans _ _ _ t); [grow_from|solve [auto with growth nocore]]
  end.
Ltac grow k := cbn zeta; eapply (grows_le _ k); [grow_from|lia].

Lemma observeOrderRef_grows s r : grows 0 s (observeOrderRef s r).
Proof. unfold observeOrderRef. grow 0. Qed.

Lemma observeMatch_grows s n : grows 0 s (observeMatch s n).
Proof. unfold observeMatch. grow 0. Qed.
#[export] Hint Resolve observeOrderRef_grows observeMatch_grows : growth.
#[export] Hint Extern 3 (grows _ _ (with_price_pages _ _)) => apply grows_same; done : growth.
#[export] Hint Extern 3 (grows _ _ (with_has_price _ _)) => apply grows_same; done : growth.
#[export] Hint Extern 3 (grows _ _ (with_seen _ _)) => apply grows_same; done : growth.
#[export] Hint Extern 3 (grows _ _ (with_live _ _)) => apply grows_same; done : growth.
#[export] Hint Extern 3 (grows _ _ (with_levels _ _)) => apply grows_same; done : growth.
#[export] Hint Extern 3 (grows _ _ (with_tickers _ _)) => apply grows_same; done : growth.
#[export] Hint Extern 3 (grows _ _ (with_directory _ _)) => apply grows_same; done : growth.
#[export] Hint Extern 3 (grows _ _ (with_type_counts _ _)) => apply grows_same; done : growth.
#[export] Hint Extern 3 (grows _ _ (with_hours _ _ _)) => apply grows_same; done : growth.
#[export] Hint Extern 3 (grows _ _ (countUp _ _ _ _)) => apply grows_same; done : growth.
#[export] Hint Extern 3 (grows _ _ (countDown _ _ _)) => apply grows_same; done : growth.

Lemma pages_grow s x ever : ever_active_pages s ⊆ ever → grows 0 s (with_pages s x ever).
Proof. intros. by apply grows_same. Qed.
#[export] Hint Extern 3 (grows _ _ (with_pages _ _ _)) => apply pages_grow; set_solver : growth.

(** ** Each operation *)

Lemma observePrice_grows s l p : grows 1 s (observePrice s l p).
Proof. unfold observePrice. grow 1. Qed.

Lemma observeNewOrderRef_grows s r : grows 0 s (observeNewOrderRef s r).
Proof. unfold observeNewOrderRef. grow 0. Qed.

Lemma observeOrderPrice_grows s l p : grows 0 s (observeOrderPrice s l p).
Proof. unfold observeOrderPrice. grow 0. Qed.

Lemma claim_grows s r : grows 1 s (snd (claimDayUniqueOrderRef s r)).
Proof. unfold claimDayUniqueOrderRef. cbn zeta. destruct (negb _); cbn [snd]; grow 1. Qed.

Lemma enterPage_grows s o : grows 0 s (enterPage s o).
Proof.
  unfold enterPage. cbn zeta. destruct (active_page_level_counts s !! _); grow 0.
Qed.
#[export] Hint Resolve observePrice_grows observeNewOrderRef_grows observeOrderPrice_grows enterPage_grows : growth.

Lemma addToLevel_grows s o : grows 0 s (addToLevel s o).
Proof. unfold addToLevel. cbn zeta. destruct (active_levels s !! _); grow 0. Qed.

Lemma leavePage_grows s o : grows 1 s (snd (leavePage s o)).
Proof.
  unfold leavePage, broken. cbn zeta. destruct (active_page_level_counts s !! _) as [c|]; [|cbn [snd]; grow 1].
  destruct (c =? 0); [cbn [snd]; grow 1|]. destruct (_ =? 0); cbn [snd]; grow 1.
Qed.

Lemma removeFromLevel_grows s o q b : grows 2 s (snd (removeFromLevel s o q b)).
Proof.
  unfold removeFromLevel, broken. cbn zeta. destruct (active_levels s !! _) as [l|]; [|cbn [snd]; grow 2].
  destruct (_ || _); [cbn [snd]; grow 2|]. destruct (negb b); [destruct (_ =? 0); cbn [snd]; grow 2|].
  destruct (negb _); [destruct (_ =? 0); cbn [snd]; grow 2|]. destruct (negb _); [cbn [snd]; grow 2|].
  eapply (grows_le _ 2); [eapply grows_trans; [|apply leavePage_grows]; grow_from|lia].
Qed.
#[export] Hint Resolve addToLevel_grows : growth.

Lemma addLiveOrder_grows s r o : grows 4 s (addLiveOrder s r o).
Proof. unfold addLiveOrder. cbn zeta. destruct (live_orders s !! r); grow 4. Qed.

Lemma removeLiveOrder_grows s r o : grows 2 s (snd (removeLiveOrder s r o)).
Proof.
  unfold removeLiveOrder. pose proof (removeFromLevel_grows s o (qty o) true) as H. destruct (removeFromLevel _ _ _ _) as [ok t].
  cbn [snd] in H. destruct (negb ok); [done|]. cbn [snd]. eapply (grows_le _ 2); [eapply grows_trans; [exact H|grow_from]|lia].
Qed.

Lemma checkLocate_grows s l o : grows 1 s (checkLocate s l o).
Proof. unfold checkLocate. grow 1. Qed.
#[export] Hint Resolve addLiveOrder_grows checkLocate_grows removeLiveOrder_grows : growth.

Lemma reduceLive_grows s r o q : grows 2 s (reduceLive s r o q).
Proof.
  unfold reduceLive. pose proof (removeFromLevel_grows s o q false) as H. destruct (removeFromLevel _ _ _ _) as [ok t].
  cbn [snd] in H. destruct (negb ok); [done|]. eapply (grows_le _ 2); [eapply grows_trans; [exact H|grow_from]|lia].
Qed.
#[export] Hint Resolve reduceLive_grows : growth.

Lemma profileAdd_grows s l r p q sd : grows 24 s (profileAdd s l r p q sd).
Proof.
  unfold profileAdd. cbn zeta. set (t := observeOrderPrice _ l p).
  assert (grows 16 s t) as Ht by (unfold t; grow 16).
  pose proof (claim_grows t r) as H. destruct (claimDayUniqueOrderRef t r) as [ok u]. cbn [snd] in H.
  pose proof (grows_trans _ _ _ _ _ Ht H) as Hu. destruct (negb ok); [by eapply grows_le; [exact Hu|lia]|].
  eapply (grows_le _ 24); [eapply grows_trans; [exact Hu|grow_from]|lia].
Qed.

Lemma profileCancel_grows s l r q : grows 8 s (profileCancel s l r q).
Proof. unfold profileCancel. destruct (live_orders s !! r); grow 8. Qed.

Lemma profileDelete_grows s l r : grows 8 s (profileDelete s l r).
Proof.
  unfold profileDelete. destruct (live_orders s !! r) as [o|]; [|grow 8].
  eapply (grows_le _ 8); [eapply grows_trans; [apply checkLocate_grows|apply removeLiveOrder_grows]|lia].
Qed.

Lemma profileExecution_grows s l r q : grows 8 s (profileExecution s l r q).
Proof.
  unfold profileExecution. destruct (live_orders s !! r) as [o|]; [|grow 8]. cbn zeta.
  pose proof (checkLocate_grows s l o) as H. set (t := checkLocate s l o) in *.
  destruct (q =? 0); [unfold t; grow 8|]. destruct (_ <? _); [unfold t; grow 8|]. destruct (_ =? _); [|unfold t; grow 8].
  eapply (grows_le _ 8); [eapply grows_trans; [exact H|apply removeLiveOrder_grows]|lia].
Qed.

Lemma profileReplace_grows s l old new p q : grows 32 s (profileReplace s l old new p q).
Proof.
  unfold profileReplace. cbn zeta. set (t := observeOrderPrice _ l p).
  assert (grows 16 s t) as Ht by (unfold t; grow 16). destruct (old =? new); [unfold t; grow 32|].
  pose proof (claim_grows t new) as H. destruct (claimDayUniqueOrderRef t new) as [ok u]. cbn [snd] in H.
  pose proof (grows_trans _ _ _ _ _ Ht H) as Hu. destruct (negb ok); [by eapply grows_le; [exact Hu|lia]|].
  eapply (grows_le (16 + 1 + 8)); [eapply grows_trans; [exact Hu|]|lia].
  destruct (live_orders u !! old) as [o|]; [|grow 8]. pose proof (checkLocate_grows u l o) as Hc.
  set (v := checkLocate u l o) in *. destruct (q =? 0); [unfold v; grow 8|]. destruct (live_orders v !! new); [unfold v; grow 8|].
  pose proof (removeLiveOrder_grows v old o) as Hr. destruct (removeLiveOrder v old o) as [done w]. cbn [snd] in Hr.
  pose proof (grows_trans _ _ _ _ _ Hc Hr) as Hw. destruct (negb done); [by eapply grows_le; [exact Hw|lia]|].
  eapply (grows_le _ 8); [eapply grows_trans; [exact Hw|grow_from]|lia].
Qed.

Lemma observeDirectory_grows s l m : grows 8 s (observeDirectory s l m).
Proof.
  unfold observeDirectory. cbn zeta. destruct (_ || _); [grow 8|]. destruct (negb (bool_decide _)).
  - match goal with |- context [match ?x with Some _ => bumpIf _ _ _ | None => _ end] => destruct x end; grow 8.
  - grow 8.
Qed.

Lemma observeAddIdentity_grows s l m : grows 1 s (observeAddIdentity s l m).
Proof. unfold observeAddIdentity. destruct (directory s !! l); grow 1. Qed.

Lemma observeSystemEvent_grows s c : grows 8 s (observeSystemEvent s c).
Proof. unfold observeSystemEvent. grow 8. Qed.

Lemma observeHeader_grows s m : grows 8 s (observeHeader s m).
Proof. unfold observeHeader. grow 8. Qed.
#[export] Hint Resolve profileAdd_grows profileCancel_grows profileDelete_grows profileExecution_grows profileReplace_grows : growth.
#[export] Hint Resolve observeDirectory_grows observeAddIdentity_grows observeSystemEvent_grows observeHeader_grows : growth.

Lemma observeBody_grows s m : grows 40 s (observeBody s m).
Proof. unfold observeBody. grow 40. Qed.
#[export] Hint Resolve observeBody_grows : growth.

Lemma observeMessage_grows s m : ReplayInv.record_ok m → grows 64 s (observeMessage s m).
Proof.
  intros Hm. unfold observeMessage. cbn zeta. pose proof (ReplayInv.record_length m Hm) as Hl.
  rewrite (proj2 (Z.eqb_neq (Z.of_nat (length m)) 0)) by lia. rewrite (record_length_type m Hm). grow 64.
Qed.

Lemma counted_grows s m : grows 0 s (counted s m).
Proof. unfold counted. grow 0. Qed.
#[export] Hint Resolve counted_grows : growth.

Lemma profile_grows ms s : Forall ReplayInv.record_ok ms → grows (66 * Z.of_nat (length ms)) s (profile s ms).
Proof.
  intros Hms. revert s. induction Hms as [|m ms Hm _ IH]; intros s; [apply grows_refl|].
  change (profile s (m :: ms)) with (profile (observeMessage (counted s m) m) ms).
  eapply grows_le; [eapply grows_trans; [|apply IH]|].
  - eapply (grows_trans 0 64); [apply counted_grows|by apply observeMessage_grows].
  - cbn [length]. lia.
Qed.

(** ** Clean states *)

Definition clean (s : Stats) : Prop := ∀ c, c ∈ cleanCounters → num s c = 0.

Lemma clean_back k s0 s s' : clean s0 → grows k s0 s → ∀ j, grows j s s' → k + j < 2 ^ 64 → clean s' → clean s.
Proof.
  intros H0 Hs j Hs' Hk Hc c Hin. pose proof (gr_pos _ _ _ Hs') as Hj. pose proof (gr_pos _ _ _ Hs) as Hp.
  pose proof (gr_counters _ _ _ Hs c Hin) as H1. rewrite (H0 c Hin) in H1. specialize (H1 ltac:(lia) ltac:(lia)).
  pose proof (gr_counters _ _ _ Hs' c Hin ltac:(lia) ltac:(lia)) as H2. rewrite (Hc c Hin) in H2. lia.
Qed.

Lemma clean_forward s t : clean s → grows 0 s t → clean t.
Proof. intros Hs Hg c Hin. pose proof (gr_counters _ _ _ Hg c Hin) as H. rewrite (Hs c Hin) in H. specialize (H ltac:(lia) ltac:(lia)). lia. Qed.

(** A failure that was counted stays counted. *)
Lemma bump_dirty s n : clean s → n ∈ cleanCounters → ¬ clean (bump s n).
Proof. intros Hs Hn Hc. specialize (Hc n Hn). unfold bump in Hc. rewrite num_set_eq, (Hs n Hn) in Hc. done. Qed.

Lemma bumpIf_clean b s n : clean s → n ∈ cleanCounters → clean (bumpIf b s n) → b = false.
Proof. intros Hs Hn Hc. specialize (Hc n Hn). unfold bumpIf in Hc. rewrite num_set_eq, (Hs n Hn) in Hc. by destruct b. Qed.

Lemma make_clean : clean make.
Proof. intros c Hc. revert c Hc. apply Forall_forall. vm_compute. repeat constructor. Qed.

Lemma semantic_clean_counters s : semanticProfileClean s = true → clean s.
Proof.
  unfold semanticProfileClean. intros H c Hc. do 5 apply andb_true_iff in H as [H _].
  rewrite forallb_forall in H. apply Z.eqb_eq, H. by apply list_elem_of_In.
Qed.

End ProfileClean.
