(* ===== verification/ProfileSteps.v ===== *)
(** What a message does to a profile that stays clean: it meets the conditions the
    counters stand for, and the reconstruction follows it. *)
From stdpp Require Import base list gmap strings.
From Stdlib Require Import ZArith Lia Ascii.
From S2P Require Import Prelude Bits BookTypes Protocol Parser ParserInv Replay ReplayInv Sha Capacity Profile ProfileInv ProfileClean.
#[local] Open Scope string_scope.
#[local] Open Scope list_scope.
#[local] Open Scope Z_scope.
#[local] Open Scope astra_scope.

Module ProfileSteps.
Import Protocol Profile ProfileInv ProfileClean.

Abbreviation events s := (num s "daily_system_events_seen").

(** ** What is not changed *)

(** The directory and the day are the same. *)
Record same_day (s s' : Stats) : Prop := {
  sd_dir : directory s' = directory s;
  sd_tickers : directory_ticker_locates s' = directory_ticker_locates s;
  sd_events : events s' = events s;
  sd_started : system_hours_started s' = system_hours_started s;
  sd_ended : system_hours_ended s' = system_hours_ended s }.

(** The reconstruction is the same. *)
Record same_books (s s' : Stats) : Prop := {
  sb_live : live_orders s' = live_orders s;
  sb_seen : seen_order_reference_pages s' = seen_order_reference_pages s;
  sb_levels : active_levels s' = active_levels s;
  sb_counts : active_page_level_counts s' = active_page_level_counts s;
  sb_ever : ever_active_pages s' = ever_active_pages s }.

Definition same (s s' : Stats) : Prop := same_day s s' ∧ same_books s s'.

#[export] Instance same_day_preorder : PreOrder same_day.
Proof. split; [done|]. intros s t u [] []. split; congruence. Qed.
#[export] Instance same_books_preorder : PreOrder same_books.
Proof. split; [done|]. intros s t u [] []. split; congruence. Qed.
#[export] Instance same_preorder : PreOrder same.
Proof. split; [by intros s; split|]. intros s t u [] []. by split; etrans. Qed.

Lemma same_set s n v : String.eqb n "daily_system_events_seen" = false → same s (set s n v).
Proof. intros H%String.eqb_neq. split; [|done]. split; try done. by rewrite num_set_ne. Qed.

Lemma same_if s (c : bool) t u : same s t → same s u → same s (if c then t else u).
Proof. by destruct c. Qed.

Create HintDb stay.
#[export] Hint Extern 1 (same _ (bump _ _)) => apply same_set; reflexivity : stay.
#[export] Hint Extern 1 (same _ (bumpIf _ _ _)) => apply same_set; reflexivity : stay.
#[export] Hint Extern 1 (same _ (set _ _ _)) => apply same_set; reflexivity : stay.
#[export] Hint Extern 1 (same _ (raise _ _ _)) => apply same_set; reflexivity : stay.
#[export] Hint Extern 1 (same _ (lower _ _ _)) => apply same_set; reflexivity : stay.
#[export] Hint Extern 1 (same _ (drop_ _ _)) => apply same_set; reflexivity : stay.
#[export] Hint Extern 1 (same _ (set_locate _ _ _ _)) => done : stay.
#[export] Hint Extern 1 (same _ (countUp _ _ _ _)) => done : stay.
#[export] Hint Extern 1 (same _ (countDown _ _ _)) => done : stay.
#[export] Hint Extern 1 (same _ (with_price_pages _ _)) => done : stay.
#[export] Hint Extern 1 (same _ (with_has_price _ _)) => done : stay.
#[export] Hint Extern 1 (same _ (with_type_counts _ _)) => done : stay.

Ltac stay :=
  cbn zeta;
  lazymatch goal with
  | |- same ?s ?s => reflexivity
  | |- same _ (if _ then _ else _) => apply same_if; stay
  | |- same _ ?x => let t := inner x in transitivity t; [stay|solve [auto with stay nocore]]
  end.

Lemma observeOrderRef_same s r : same s (observeOrderRef s r).
Proof. unfold observeOrderRef. stay. Qed.
Lemma observeMatch_same s n : same s (observeMatch s n).
Proof. unfold observeMatch. stay. Qed.
Lemma observePrice_same s l p : same s (observePrice s l p).
Proof. unfold observePrice. stay. Qed.
Lemma observeNewOrderRef_same s r : same s (observeNewOrderRef s r).
Proof. unfold observeNewOrderRef. stay. Qed.
Lemma observeOrderPrice_same s l p : same s (observeOrderPrice s l p).
Proof. unfold observeOrderPrice. stay. Qed.
Lemma checkLocate_same s l o : same s (checkLocate s l o).
Proof. unfold checkLocate. stay. Qed.
Lemma observeAddIdentity_same s l m : same s (observeAddIdentity s l m).
Proof. unfold observeAddIdentity. destruct (directory s !! l); stay. Qed.
Lemma observeHeader_same s m : same s (observeHeader s m).
Proof. unfold observeHeader. stay. Qed.
Lemma counted_same s m : same s (counted s m).
Proof. unfold counted. stay. Qed.
#[export] Hint Resolve observeOrderRef_same observeMatch_same observePrice_same observeNewOrderRef_same : stay.
#[export] Hint Resolve observeOrderPrice_same checkLocate_same observeAddIdentity_same observeHeader_same counted_same : stay.

(** ** Failures *)

(** A failure counted on the way leaves the profile dirty. *)
Lemma dirty k s t n : clean s → grows k s t → k < 2 ^ 63 → n ∈ cleanCounters → ¬ clean (bump t n).
Proof.
  intros Hs Hg Hk Hn Hc. assert (Forall (λ n, free n = true) cleanCounters) as Hf by (vm_compute; repeat constructor).
  rewrite Forall_forall in Hf. apply (bump_dirty t n); [|done|done].
  eapply (clean_back k s t _ Hs Hg 1); [apply bump_grows; by apply Hf|lia|done].
Qed.

(** Decides that a name is one of the counters. *)
Ltac counter := apply (bool_decide_unpack _); vm_compute; exact I.

(** The branch ends in a failure. *)
Ltac refute H0 Hg :=
  let Hc := fresh in intros Hc; exfalso; revert Hc; cbn [snd]; eapply dirty; [exact H0|exact Hg|lia|counter].

Lemma dirtyIf k s t b n : clean s → grows k s t → k < 2 ^ 63 → n ∈ cleanCounters → clean (bumpIf b t n) → b = false.
Proof.
  intros Hs Hg Hk Hn Hc. destruct b; [|done]. by destruct (dirty k s t n).
Qed.

(** ** References *)

Definition claimed (s : Stats) (x : Z) : Prop :=
  Z.testbit (default ∅ (seen_order_reference_pages s !! (x ≫ 16))).[u16 x ≫ 6] (u16 x .& 63) = true.

Lemma claimed_same s s' x : same_books s s' → claimed s' x ↔ claimed s x.
Proof. intros []. unfold claimed. by rewrite sb_seen0. Qed.

Lemma mask_test word b : 0 <= b < 64 → (word .& u64 (1 ≪ b) =? 0) = negb (Z.testbit word b).
Proof.
  intros Hb. rewrite Z.shiftl_1_l, u64_id by (split; [lia|apply Z.pow_lt_mono_r; lia]).
  destruct (Z.eqb_spec (word .& 2 ^ b) 0) as [E|E].
  - pose proof (Z.land_spec word (2 ^ b) b) as H. rewrite E, Z.bits_0, Z.pow2_bits_true, andb_true_r in H by lia. by rewrite <- H.
  - destruct (Z.testbit word b) eqn:Eb; [done|]. destruct E. apply Z.bits_inj'. intros i Hi.
    rewrite Z.land_spec, Z.bits_0, Z.pow2_bits_eqb by lia. destruct (Z.eqb_spec b i) as [<-|]; [by rewrite Eb|apply andb_false_r].
Qed.

Lemma claim_place x : 0 <= x → x ≫ 16 = x / 65536 ∧ u16 x ≫ 6 = x mod 65536 / 64 ∧ u16 x .& 63 = x mod 65536 mod 64.
Proof. intros Hx. rewrite shiftr6_div, land63_mod, Z.shiftr_div_pow2 by lia. done. Qed.

Lemma claim_spec s r : 0 <= r →
  match claimDayUniqueOrderRef s r with
  | (true, s') => ¬ claimed s r ∧ (∀ x, 0 <= x → claimed s' x ↔ claimed s x ∨ x = r) ∧ same_day s s' ∧
      s' = with_seen s (seen_order_reference_pages s')
  | (false, s') => ∃ t, s' = bump t "duplicate_order_refs" ∧ grows 0 s t
  end.
Proof.
  intros Hr. unfold claimDayUniqueOrderRef. cbn zeta.
  pose proof (Z.mod_pos_bound (r mod 65536) 64 ltac:(lia)) as Hb. destruct (claim_place r Hr) as (E1&E2&E3).
  rewrite E1, E2, E3, mask_test, negb_involutive by lia.
  destruct (Z.testbit _ _) eqn:Et.
  { eexists. split; [done|]. by apply grows_same. }
  split; [unfold claimed; rewrite E1, E2, E3, Et; done|]. split; [|done].
  intros x Hx. destruct (claim_place x Hx) as (F1&F2&F3). unfold claimed. rewrite F1, F2, F3. cbn [with_seen seen_order_reference_pages].
  pose proof (Z.mod_pos_bound (x mod 65536) 64 ltac:(lia)) as Hb'.
  rewrite !lookup_insert. case_decide as Ep.
  - cbn [from_option id]. rewrite aget_insert. case_decide as Ew.
    + rewrite testbit_setbit, orb_true_iff, bool_decide_eq_true, Ep, Ew by lia.
      apply or_iff_compat_l. split; [intros Eb|by intros ->].
      pose proof (Z.div_mod x 65536). pose proof (Z.div_mod r 65536). pose proof (Z.div_mod (x mod 65536) 64).
      pose proof (Z.div_mod (r mod 65536) 64). lia.
    + rewrite Ep. split; [by left|]. intros [?|E]; [done|]. by destruct Ew; rewrite E.
  - split; [by left|]. intros [?|E]; [done|]. by destruct Ep; rewrite E.
Qed.

(** ** Pages *)

Lemma pageKey_arith l p : fits 16 l → fits 32 p → pageKey l p = l * 65536 + p / 65536.
Proof.
  intros [? ?] [? ?]. unfold pageKey. rewrite u32_id by (rewrite Z.shiftl_mul_pow2 by lia; unfold fits; lia).
  rewrite Z.shiftr_div_pow2 by lia. change (2 ^ 16) with 65536 in *.
  rewrite (lor_shiftl_add l (p / 65536) 16); [done|lia|].
  split; [by apply Z.div_pos|]. apply Z.div_lt_upper_bound; [done|]. change (65536 * 2 ^ 16) with (2 ^ 32). done.
Qed.

Lemma levelKey_arith l sd p : fits 16 l → fits 32 p →
  levelKey l sd p = l * 8589934592 + (if sd =? ch "S" then 4294967296 else 0) + p.
Proof.
  intros [? ?] [? ?]. unfold levelKey. rewrite u64_id by (rewrite Z.shiftl_mul_pow2 by lia; unfold fits; lia).
  rewrite (lor_shiftl_add l _ 33); [|lia|by destruct (sd =? ch "S")].
  change (2 ^ 33) with (2 * 2 ^ 32).
  replace (l * (2 * 2 ^ 32) + ((if sd =? ch "S" then 1 else 0) ≪ 32)) with ((l * 2 + if sd =? ch "S" then 1 else 0) ≪ 32)
    by (rewrite !Z.shiftl_mul_pow2 by lia; lia).
  rewrite lor_shiftl_add by lia. change (2 ^ 32) with 4294967296. destruct (sd =? ch "S"); lia.
Qed.

Lemma levelKey_page l sd p l' sd' p' :
  fits 16 l → fits 32 p → fits 16 l' → fits 32 p' → levelKey l sd p = levelKey l' sd' p' → pageKey l p = pageKey l' p'.
Proof.
  intros Hl Hp Hl' Hp'. rewrite !levelKey_arith by done. unfold fits in *.
  intros E. assert (l = l' ∧ p = p') as [-> ->]; [|done]. destruct (sd =? ch "S"), (sd' =? ch "S"); lia.
Qed.

(** Every page in use, and the page of every level, counts as ever used. *)
Record pages_ok (s : Stats) : Prop := {
  pg_count : ∀ k, is_Some (active_page_level_counts s !! k) → k ∈ ever_active_pages s;
  pg_level : ∀ l sd p, fits 16 l → fits 32 p → is_Some (active_levels s !! levelKey l sd p) → pageKey l p ∈ ever_active_pages s }.

Lemma pages_same s s' : same_books s s' → pages_ok s → pages_ok s'.
Proof. intros [] []. split; by rewrite sb_ever0, ?sb_counts0, ?sb_levels0. Qed.

(** The levels and the pages in use are among those of before, and nothing else of the
    reconstruction changed. *)
Record shrinks (s s' : Stats) : Prop := {
  sh_day : same_day s s';
  sh_live : live_orders s' = live_orders s;
  sh_seen : seen_order_reference_pages s' = seen_order_reference_pages s;
  sh_levels : ∀ k, is_Some (active_levels s' !! k) → is_Some (active_levels s !! k);
  sh_counts : ∀ k, is_Some (active_page_level_counts s' !! k) → is_Some (active_page_level_counts s !! k);
  sh_ever : ever_active_pages s' = ever_active_pages s }.

#[export] Instance shrinks_preorder : PreOrder shrinks.
Proof. split; [done|]. intros s t u [] []. split; [by etrans|congruence|congruence|naive_solver|naive_solver|congruence]. Qed.

Lemma shrinks_same s s' : same s s' → shrinks s s'.
Proof. intros [Hd []]. split; [done|done|done|by rewrite sb_levels0|by rewrite sb_counts0|done]. Qed.

Lemma shrinks_pages s s' : shrinks s s' → pages_ok s → pages_ok s'.
Proof. intros [] []. split; rewrite sh_ever0; naive_solver. Qed.

Lemma shrinks_claimed s s' x : shrinks s s' → claimed s' x ↔ claimed s x.
Proof. intros []. unfold claimed. by rewrite sh_seen0. Qed.

Lemma some_insert {A} (m : gmap Z A) i x k : is_Some (m !! i) → is_Some (<[i := x]> m !! k) → is_Some (m !! k).
Proof. intros H. rewrite lookup_insert. by case_decide as E; [rewrite <- E|]. Qed.

Lemma some_delete {A} (m : gmap Z A) i k : is_Some (delete i m !! k) → is_Some (m !! k).
Proof. rewrite lookup_delete. by case_decide; [intros []|]. Qed.

Lemma with_levels_shrinks s x : (∀ k, is_Some (x !! k) → is_Some (active_levels s !! k)) → shrinks s (with_levels s x).
Proof. intros. by split. Qed.

Lemma with_pages_shrinks s x :
  (∀ k, is_Some (x !! k) → is_Some (active_page_level_counts s !! k)) → shrinks s (with_pages s x (ever_active_pages s)).
Proof. intros. by split. Qed.

Lemma leavePage_clean k s0 s o : clean s0 → grows k s0 s → k < 2 ^ 60 → clean (snd (leavePage s o)) →
  fst (leavePage s o) = true ∧ shrinks s (snd (leavePage s o)).
Proof.
  intros H0 Hg Hk. unfold leavePage, broken. cbn zeta.
  destruct (active_page_level_counts s !! _) as [c|] eqn:Ec.
  2: { refute H0 Hg. }
  destruct (c =? 0); [refute H0 Hg|].
  destruct (_ =? 0); intros _; cbn [fst snd]; (split; [done|]).
  - etrans; [apply (with_pages_shrinks s (delete (pageKey (locate o) (price o)) (active_page_level_counts s))), some_delete|].
    apply shrinks_same. stay.
  - apply with_pages_shrinks. intros k'. apply some_insert. by rewrite Ec.
Qed.

Lemma removeFromLevel_clean s o q b : clean s → clean (snd (removeFromLevel s o q b)) →
  fst (removeFromLevel s o q b) = true ∧ shrinks s (snd (removeFromLevel s o q b)).
Proof.
  intros H0. unfold removeFromLevel. cbn zeta. destruct (active_levels s !! _) as [l|] eqn:El.
  2: { refute H0 (grows_refl s). }
  assert (∀ t, grows 0 s t → ¬ clean (snd (broken t))) as Hb.
  { intros t Ht. apply (dirty 0 s t _ H0 Ht); [lia|counter]. }
  assert (∀ x, shrinks s (with_levels s (<[levelKey (locate o) (side o) (price o) := x]> (active_levels s)))) as Hw.
  { intros x. apply with_levels_shrinks. intros k. apply some_insert. by rewrite El. }
  assert (∀ x, grows 0 s (with_levels s x)) as Hgw by (intros x; by apply grows_same).
  destruct (_ || _); [intros Hc; by destruct (Hb s (grows_refl s))|].
  destruct (negb b); [destruct (_ =? 0); [intros Hc; by destruct (Hb _ (Hgw _) Hc)|intros _; split; [done|apply Hw]]|].
  destruct (negb _); [destruct (_ =? 0); [intros Hc; by destruct (Hb _ (Hgw _) Hc)|intros _; split; [done|apply Hw]]|].
  destruct (negb _); [intros Hc; by destruct (Hb _ (Hgw _) Hc)|].
  set (t := countDown _ "levels_by_locate" _). intros Hc.
  assert (grows 0 s t) as Hg by (apply (grows_le (0 + (0 + 0 + 0 + 0)) 0); [unfold t; grow 0|lia]).
  destruct (leavePage_clean 0 s t o H0 Hg ltac:(lia) Hc) as [? Hl]. split; [done|].
  etrans; [|exact Hl]. 
  set (x := mkLevel _ _) in t. etrans; [apply (Hw x)|]. set (u := with_levels s _).
  etrans; [apply (with_levels_shrinks u (delete (levelKey (locate o) (side o) (price o)) (active_levels u))), some_delete|].
  apply shrinks_same. unfold t. fold u. stay.
Qed.

(** An order was placed: its page counts as used from now on. *)
Record places (s s' : Stats) (o : OrderState) : Prop := {
  pl_day : same_day s s';
  pl_live : live_orders s' = live_orders s;
  pl_seen : seen_order_reference_pages s' = seen_order_reference_pages s;
  pl_pages : pages_ok s';
  pl_page : pageKey (locate o) (price o) ∈ ever_active_pages s' }.

Lemma places_same s t u o : places s t o → same t u → places s u o.
Proof.
  intros [] [Hd Hb]. split; [by etrans|by rewrite (sb_live _ _ Hb)|by rewrite (sb_seen _ _ Hb)|by eapply pages_same|].
  by rewrite (sb_ever _ _ Hb).
Qed.

Lemma places_from s t u o : same s t → places t u o → places s u o.
Proof. intros [Hd []] []. split; [by etrans|congruence|congruence|done|done]. Qed.

Lemma enterPage_places s o : pages_ok s → places s (enterPage s o) o ∧ active_levels (enterPage s o) = active_levels s.
Proof.
  intros [Hc Hl]. unfold enterPage. cbn zeta. destruct (active_page_level_counts s !! _) as [n|] eqn:E.
  - split; [|done]. assert (pageKey (locate o) (price o) ∈ ever_active_pages s) as Hp by (apply Hc; by rewrite E).
    split; [done|done|done| |done]. split; [|done]. cbn. intros k. rewrite lookup_insert. case_decide as Ek; [by subst|apply Hc].
  - split; [|done]. split; [|done|done| |].
    + split; [done|done| |done|done]. unfold countUp, bump, set_locate, with_pages, num. cbn. by rewrite !lookup_insert_ne by done.
    + split; cbn; [|set_solver]. intros k. rewrite lookup_insert. case_decide as Ek; [set_solver|]. intros H%Hc. set_solver.
    + cbn. set_solver.
Qed.

Lemma addToLevel_places s o : fits 16 (locate o) → fits 32 (price o) → pages_ok s → places s (addToLevel s o) o.
Proof.
  intros Ho1 Ho2 Hs. unfold addToLevel. cbn zeta. set (key := levelKey _ _ _).
  assert (∀ t x, places s t o → places s (with_levels t (<[key := x]> (active_levels t))) o) as Hput.
  { intros t x [Hd Hl Hse [Hp1 Hp2] Hp]. split; [|done|done| |done]; [by destruct Hd|]. split; [done|]. cbn.
    intros l sd p Hfl Hfp. rewrite lookup_insert. case_decide as E; [|by apply Hp2]. intros _.
    by rewrite <- (levelKey_page _ _ _ _ _ _ Ho1 Ho2 Hfl Hfp E). }
  destruct (active_levels s !! key) as [lv|] eqn:E.
  - eapply places_same; [|apply same_set; reflexivity]. apply Hput. split; try done. by apply (pg_level s Hs (locate o) (side o)); [..|fold key; rewrite E].
  - eapply places_same; [|apply same_set; reflexivity]. apply Hput. set (t := countUp _ _ _ _).
    assert (same s t) as Ht by (unfold t; stay). eapply places_from; [exact Ht|]. apply enterPage_places.
    by eapply pages_same; [apply Ht|].
Qed.

(** ** Orders *)

Lemma same_clean k s t : clean s → grows k s t → k < 2 ^ 62 → ∀ u j, grows j t u → j < 2 ^ 62 → clean u → clean t.
Proof. intros Hs Hg Hk u j Hj Hlt. eapply clean_back; [exact Hs|exact Hg|exact Hj|lia]. Qed.

Lemma addLiveOrder_clean s r o :
  clean s → fits 16 (locate o) → fits 32 (price o) → pages_ok s → clean (addLiveOrder s r o) →
  live_orders s !! r = None ∧
  places (with_live s (<[r := o]> (live_orders s))) (addLiveOrder s r o) o.
Proof.
  intros H0 Hl Hp Hs. unfold addLiveOrder. cbn zeta. destruct (live_orders s !! r); [refute H0 (grows_refl s)|]. intros _.
  split; [done|]. set (t := addToLevel _ o). apply (places_same _ t); [|stay]. apply addToLevel_places; [done|done|by destruct Hs].
Qed.

Lemma removeLiveOrder_clean s r o : clean s → clean (snd (removeLiveOrder s r o)) →
  fst (removeLiveOrder s r o) = true ∧ ∃ t, shrinks s t ∧ snd (removeLiveOrder s r o) = with_live t (delete r (live_orders s)).
Proof.
  intros H0. unfold removeLiveOrder. pose proof (removeFromLevel_clean s o (qty o) true H0) as H.
  pose proof (removeFromLevel_grows s o (qty o) true) as Hg.
  destruct (removeFromLevel s o (qty o) true) as [ok t]. cbn [fst snd] in H, Hg. destruct ok; cbn [negb fst snd].
  - intros Hc. destruct H as [_ H]; [eapply (same_clean 2 s t H0 Hg ltac:(lia) _ 0); [|lia|exact Hc]; grow 0|].
    split; [done|]. exists (countDown t "live_orders_by_locate" (locate o)). split; [by etrans; [exact H|apply shrinks_same; stay]|].
    cbn. by rewrite (sh_live _ _ H).
  - intros Hc. by destruct (H Hc).
Qed.

Lemma reduceLive_clean s r o q : clean s → clean (reduceLive s r o q) →
  ∃ t, shrinks s t ∧ reduceLive s r o q = with_live t (<[r := with_order_qty o (u32 (qty o - q))]> (live_orders s)).
Proof.
  intros H0. unfold reduceLive. pose proof (removeFromLevel_clean s o q false H0) as H.
  pose proof (removeFromLevel_grows s o q false) as Hg.
  destruct (removeFromLevel s o q false) as [ok t]. cbn [fst snd] in H, Hg. destruct ok; cbn [negb].
  - intros Hc. destruct H as [_ H]; [eapply (same_clean 2 s t H0 Hg ltac:(lia) _ 0); [|lia|exact Hc]; grow 0|].
    exists t. split; [done|]. by rewrite (sh_live _ _ H).
  - intros Hc. by destruct (H Hc).
Qed.

(** ** Book messages *)

(** A message that kept the profile clean: the live orders after it and the reference it
    claimed. *)
Record step (s s' : Stats) (live' : gmap Z OrderState) (new : option Z) : Prop := {
  st_day : same_day s s';
  st_live : live_orders s' = live';
  st_claimed : ∀ x, 0 <= x → claimed s' x ↔ claimed s x ∨ new = Some x;
  st_pages : pages_ok s' }.

Lemma step_from s t u live' new : same s t → step t u live' new → step s u live' new.
Proof.
  intros [Hd Hb] []. split; [by etrans|done| |done]. intros x Hx. by rewrite st_claimed0, (claimed_same s t) by done.
Qed.

Lemma step_then s t u live' new : step s t live' new → same t u → step s u live' new.
Proof.
  intros [] [Hd Hb]. split; [by etrans|by rewrite (sb_live _ _ Hb)| |by eapply pages_same].
  intros x Hx. by rewrite (claimed_same t u), st_claimed0 by done.
Qed.

Lemma step_same s t : same s t → pages_ok s → step s t (live_orders s) None.
Proof.
  intros [Hd Hb] Hs. split; [done|apply (sb_live _ _ Hb)| |by eapply pages_same].
  intros x Hx. rewrite (claimed_same s t) by done. split; [by left|]. by intros [?|?].
Qed.

Lemma step_shrinks s t live' : shrinks s t → pages_ok s → step s (with_live t live') live' None.
Proof.
  intros H Hs. split; [|done| |].
  - by destruct H as [[] ?].
  - intros x Hx. change (claimed t x ↔ claimed s x ∨ None = Some x). rewrite (shrinks_claimed s t) by done. split; [by left|]. by intros [?|?].
  - pose proof (shrinks_pages s t H Hs) as []. by split.
Qed.

Lemma claim_clean s r : 0 <= r → clean s → pages_ok s →
  let '(ok, t) := claimDayUniqueOrderRef s r in
  clean t → ok = true ∧ ¬ claimed s r ∧ step s t (live_orders s) (Some r).
Proof.
  intros Hr Hs Hp. pose proof (claim_spec s r Hr) as H. destruct (claimDayUniqueOrderRef s r) as [[] t].
  - destruct H as (Hn&Hx&Hd&Et). intros _. split; [done|]. split; [done|]. rewrite Et in Hd |- *. split; [done|done| |by destruct Hp].
    intros x Hx0. rewrite <- Et, Hx by done. apply or_iff_compat_l. split; [by intros ->|by intros [= ->]].
  - destruct H as (u&->&Hu). refute Hs Hu.
Qed.

(** Once the reference is claimed, the order is placed. *)
Lemma step_place s t r o u : step s t (live_orders s) (Some r) →
  places (with_live t (<[r := o]> (live_orders t))) u o → step s u (<[r := o]> (live_orders s)) (Some r).
Proof.
  intros [Hd Hl Hc Hp] [Hd' Hl' Hs' Hp' _]. split; [by etrans; [exact Hd|destruct Hd'; by split]| | |done].
  - rewrite Hl'. cbn. by rewrite Hl.
  - intros x Hx. rewrite <- Hc by done. unfold claimed. by rewrite Hs'.
Qed.

Lemma profileAdd_clean s l r p q sd :
  clean s → pages_ok s → fits 16 l → fits 32 p → 0 <= r → clean (profileAdd s l r p q sd) →
  ¬ claimed s r ∧ q ≠ 0 ∧ (sd = ch "B" ∨ sd = ch "S") ∧ live_orders s !! r = None ∧
  step s (profileAdd s l r p q sd) (<[r := mkOrder p q l sd]> (live_orders s)) (Some r) ∧
  pageKey l p ∈ ever_active_pages (profileAdd s l r p q sd).
Proof.
  intros Hs Hp Hfl Hfp Hr. unfold profileAdd. cbn zeta. set (t := observeOrderPrice _ l p).
  assert (same s t) as Ht by (unfold t; stay). assert (grows 0 s t) as Hgt by (unfold t; grow 0).
  pose proof (clean_forward s t Hs Hgt) as Hct. assert (pages_ok t) as Hpt by (eapply pages_same; [apply Ht|done]).
  pose proof (claim_clean t r Hr Hct Hpt) as Hcl. pose proof (claim_grows t r) as Hgc.
  destruct (claimDayUniqueOrderRef t r) as [ok u]. cbn [snd] in Hgc. destruct ok; cbn [negb]; [|by intros Hc; destruct (Hcl Hc)].
  assert (∀ v, grows 4 u v → clean v → clean u) as Hback by (intros v Hv; by eapply (same_clean 1 t u Hct Hgc ltac:(lia) v 4 Hv ltac:(lia))).
  destruct (Z.eqb_spec q 0); [refute Hct Hgc|]. destruct (_ && _) eqn:Esd; [refute Hct Hgc|]. intros Hc.
  specialize (Hback _ (addLiveOrder_grows _ _ _) Hc). destruct (Hcl Hback) as (_&Hn&Hstep).
  destruct (addLiveOrder_clean u r (mkOrder p q l sd) Hback Hfl Hfp (st_pages _ _ _ _ Hstep) Hc) as [Hnone Hpl].
  pose proof Ht as [_ Hb]. rewrite (st_live _ _ _ _ Hstep), (sb_live _ _ Hb) in Hnone.
  split; [by rewrite <- (claimed_same s t)|]. split; [done|]. split; [|split; [done|split]].
  - apply andb_false_iff in Esd as [E%negb_false_iff%Z.eqb_eq|E%negb_false_iff%Z.eqb_eq]; [by left|by right].
  - eapply step_from; [exact Ht|]. rewrite <- (sb_live _ _ Hb). by eapply step_place.
  - apply (pl_page _ _ _ Hpl).
Qed.

(** The checks an operation on a resting order shares. *)
Lemma checkLocate_clean s l o j t : clean s → grows j (checkLocate s l o) t → j < 2 ^ 60 → clean t →
  clean (checkLocate s l o) ∧ locate o = l.
Proof.
  intros Hs Hj Hlt Hc. pose proof (same_clean 1 s _ Hs (checkLocate_grows s l o) ltac:(lia) t j Hj ltac:(lia) Hc) as Hcc.
  split; [done|]. unfold checkLocate in Hcc. apply (dirtyIf 0 s) in Hcc; [|done|apply grows_refl|lia|counter].
  by apply negb_false_iff, Z.eqb_eq in Hcc.
Qed.

Lemma profileCancel_clean s l r q : clean s → pages_ok s → clean (profileCancel s l r q) →
  ∃ o, live_orders s !! r = Some o ∧ locate o = l ∧ q ≠ 0 ∧ q < qty o ∧
    step s (profileCancel s l r q) (<[r := with_order_qty o (u32 (qty o - q))]> (live_orders s)) None.
Proof.
  intros Hs Hp. unfold profileCancel. destruct (live_orders s !! r) as [o|] eqn:Eo; [|refute Hs (grows_refl s)]. cbn zeta.
  pose proof (checkLocate_same s l o) as Ht. pose proof (checkLocate_grows s l o) as Hg.
  pose proof (checkLocate_clean s l o) as Hck. set (t := checkLocate s l o) in *.
  destruct (Z.eqb_spec q 0); [refute Hs Hg|]. destruct (Z.leb_spec (qty o) q); [refute Hs Hg|]. intros Hc.
  destruct (Hck 2 _ Hs (reduceLive_grows t r o q) ltac:(lia) Hc) as [Hct Hl].
  destruct (reduceLive_clean t r o q Hct Hc) as (u&Hsh&->). exists o. split_and!; try done.
  eapply step_from; [exact Ht|]. pose proof Ht as [_ Hb]. rewrite <- (sb_live _ _ Hb).
  apply step_shrinks; [done|by eapply pages_same].
Qed.

Lemma profileDelete_clean s l r : clean s → pages_ok s → clean (profileDelete s l r) →
  ∃ o, live_orders s !! r = Some o ∧ locate o = l ∧
    step s (profileDelete s l r) (delete r (live_orders s)) None.
Proof.
  intros Hs Hp. unfold profileDelete. destruct (live_orders s !! r) as [o|] eqn:Eo; [|refute Hs (grows_refl s)]. cbn zeta.
  pose proof (checkLocate_same s l o) as Ht. pose proof (checkLocate_clean s l o) as Hck. set (t := checkLocate s l o) in *.
  intros Hc. destruct (Hck 2 _ Hs (removeLiveOrder_grows t r o) ltac:(lia) Hc) as [Hct Hl].
  destruct (removeLiveOrder_clean t r o Hct Hc) as (_&u&Hsh&->). exists o. split_and!; try done.
  eapply step_from; [exact Ht|]. pose proof Ht as [_ Hb]. rewrite <- (sb_live _ _ Hb).
  apply step_shrinks; [done|by eapply pages_same].
Qed.

Lemma profileExecution_clean s l r q : clean s → pages_ok s → clean (profileExecution s l r q) →
  ∃ o, live_orders s !! r = Some o ∧ locate o = l ∧ q ≠ 0 ∧ q <= qty o ∧
    step s (profileExecution s l r q)
      (if q =? qty o then delete r (live_orders s) else <[r := with_order_qty o (u32 (qty o - q))]> (live_orders s)) None.
Proof.
  intros Hs Hp. unfold profileExecution. destruct (live_orders s !! r) as [o|] eqn:Eo; [|refute Hs (grows_refl s)]. cbn zeta.
  pose proof (checkLocate_same s l o) as Ht. pose proof (checkLocate_grows s l o) as Hg.
  pose proof (checkLocate_clean s l o) as Hck. set (t := checkLocate s l o) in *.
  destruct (Z.eqb_spec q 0); [refute Hs Hg|]. destruct (Z.ltb_spec (qty o) q); [refute Hs Hg|].
  pose proof Ht as [_ Hb]. assert (pages_ok t) as Hpt by (by eapply pages_same).
  destruct (q =? qty o) eqn:Eq; intros Hc; exists o.
  - destruct (Hck 2 _ Hs (removeLiveOrder_grows t r o) ltac:(lia) Hc) as [Hct Hl].
    destruct (removeLiveOrder_clean t r o Hct Hc) as (_&u&Hsh&->). split_and!; try done.
    eapply step_from; [exact Ht|]. rewrite Eq, <- (sb_live _ _ Hb). by apply step_shrinks.
  - destruct (Hck 2 _ Hs (reduceLive_grows t r o q) ltac:(lia) Hc) as [Hct Hl].
    destruct (reduceLive_clean t r o q Hct Hc) as (u&Hsh&->). split_and!; try done.
    eapply step_from; [exact Ht|]. rewrite Eq, <- (sb_live _ _ Hb). by apply step_shrinks.
Qed.

Lemma profileReplace_clean s l old new p q :
  clean s → pages_ok s → fits 16 l → fits 32 p → 0 <= new → clean (profileReplace s l old new p q) →
  old ≠ new ∧ ¬ claimed s new ∧ q ≠ 0 ∧ live_orders s !! new = None ∧
  ∃ o, live_orders s !! old = Some o ∧ locate o = l ∧
    step s (profileReplace s l old new p q) (<[new := mkOrder p q l (side o)]> (delete old (live_orders s))) (Some new) ∧
    pageKey l p ∈ ever_active_pages (profileReplace s l old new p q).
Proof.
  intros Hs Hp Hfl Hfp Hr. unfold profileReplace. cbn zeta. set (t := observeOrderPrice _ l p).
  assert (same s t) as Ht by (unfold t; stay). assert (grows 0 s t) as Hgt by (unfold t; grow 0).
  pose proof (clean_forward s t Hs Hgt) as Hct. assert (pages_ok t) as Hpt by (eapply pages_same; [apply Ht|done]).
  destruct (Z.eqb_spec old new) as [|Hne]; [refute Hs Hgt|].
  pose proof (claim_clean t new Hr Hct Hpt) as Hcl. pose proof (claim_grows t new) as Hgc.
  destruct (claimDayUniqueOrderRef t new) as [ok u]. cbn [snd] in Hgc. destruct ok; cbn [negb]; [|by intros Hc; destruct (Hcl Hc)].
  assert (∀ v, grows 8 u v → clean v → clean u) as Hback by (intros v Hv; by eapply (same_clean 1 t u Hct Hgc ltac:(lia) v 8 Hv ltac:(lia))).
  destruct (live_orders u !! old) as [o|] eqn:Eo; [|refute Hct Hgc].
  pose proof (checkLocate_same u l o) as Hv. pose proof (checkLocate_grows u l o) as Hgv. pose proof (checkLocate_clean u l o) as Hck.
  set (v := checkLocate u l o) in *. pose proof (grows_trans _ _ _ _ _ Hgc Hgv) as Hgtv.
  destruct (Z.eqb_spec q 0); [refute Hct Hgtv|]. destruct (live_orders v !! new) eqn:En; [refute Hct Hgtv|].
  pose proof (removeLiveOrder_clean v old o) as Hrm. pose proof (removeLiveOrder_grows v old o) as Hgr.
  destruct (removeLiveOrder v old o) as [done w]. cbn [fst snd] in Hrm, Hgr. intros Hc.
  assert (grows 4 w (if negb done then w else addLiveOrder w new (mkOrder p q (locate o) (side o)))) as Hgw.
  { destruct (negb done); [by eapply grows_le; [apply grows_refl|]|apply addLiveOrder_grows]. }
  pose proof (grows_trans _ _ _ _ _ Hgr Hgw) as Hgvw.
  assert (clean u) as Hcu by (eapply Hback; [|exact Hc]; eapply grows_le; [eapply grows_trans; [exact Hgv|exact Hgvw]|lia]).
  destruct (Hcl Hcu) as (_&Hn&Hstep). destruct (Hck _ _ Hcu Hgvw ltac:(lia) Hc) as [Hcv Hlo].
  assert (clean w) as Hcw by (eapply (same_clean 2 v w Hcv Hgr ltac:(lia) _ 4); [exact Hgw|lia|exact Hc]).
  destruct (Hrm Hcv Hcw) as (->&w'&Hsh&->). cbn [negb] in *. pose proof Ht as [_ Hbt]. pose proof Hv as [_ Hbv].
  assert (live_orders v = live_orders s) as Elive by (by rewrite (sb_live _ _ Hbv), (st_live _ _ _ _ Hstep), (sb_live _ _ Hbt)).
  assert (step s (with_live w' (delete old (live_orders v))) (delete old (live_orders s)) (Some new)) as Hsw.
  { assert (pages_ok v) as Hpv by (eapply pages_same; [exact Hbv|apply (st_pages _ _ _ _ Hstep)]).
    pose proof (step_shrinks v w' (delete old (live_orders v)) Hsh Hpv) as [Hd1 _ Hc1 Hp1].
    destruct Hstep as [Hd2 _ Hc2 _]. split; [|by rewrite <- Elive| |done].
    - etrans; [apply Ht|]. etrans; [exact Hd2|]. etrans; [apply Hv|done].
    - intros x Hx. rewrite Hc1, (claimed_same u v), Hc2, (claimed_same s t) by done. naive_solver. }
  assert (fits 16 (locate o)) as Hfo by (by rewrite Hlo).
  destruct (addLiveOrder_clean _ new (mkOrder p q (locate o) (side o)) Hcw Hfo Hfp (st_pages _ _ _ _ Hsw) Hc) as [_ Hpl].
  split; [exact Hne|]. split; [by rewrite <- (claimed_same s t)|]. split; [assumption|]. rewrite <- Elive.
  split; [assumption|]. exists o. split; [by rewrite (sb_live _ _ Hbv)|]. split; [assumption|].
  split; [|rewrite <- Hlo; apply (pl_page _ _ _ Hpl)].
  destruct Hsw as [Hd Hl Hcw' Hpw], Hpl as [Hd' Hl' Hs' Hp' _]. split; [by etrans; [exact Hd|destruct Hd'; by split]| | |assumption].
  - rewrite Hl', Hlo. reflexivity.
  - intros x Hx. rewrite <- Hcw' by assumption. unfold claimed. by rewrite Hs'.
Qed.

(** ** Directory and system events *)

Lemma observeHeader_clean s m : clean s → clean (observeHeader s m) →
  readU48BE m 5 < kNanosecondsPerDay ∧
  (system_hours_ended s = true →
    byteAt m 0 = ch "X" ∨ byteAt m 0 = ch "D" ∨ byteAt m 0 = ch "B" ∨ (byteAt m 0 = ch "S" ∧ byteAt m 11 = ch "C")) ∧
  (bookType (byteAt m 0) = true → system_hours_started s = true).
Proof.
  intros Hs. unfold observeHeader. cbn zeta. set (t := bumpIf _ s "invalid_timestamps").
  assert (grows 1 s t) as Hg1 by (unfold t; grow 1). set (u := raise t _ _). assert (grows 1 s u) as Hg2 by (unfold u, t; grow 1).
  assert (same s u) as [[_ _ _ Es Ee] _] by (unfold u, t; stay).
  set (v := if system_hours_ended u then _ else u). assert (grows 3 u v) as Hg3 by (unfold v; grow 3).
  pose proof (grows_trans _ _ _ _ _ Hg2 Hg3) as Hg4. assert (same u v) as [[_ _ _ Es' _] _] by (unfold v; stay). intros Hc.
  assert (clean v) as Hcv by (eapply (same_clean _ s v Hs Hg4 ltac:(lia) _ 1); [|lia|exact Hc]; grow 1).
  assert (clean u) as Hcu by (eapply (same_clean _ s u Hs Hg2 ltac:(lia) _ 3 Hg3); [lia|done]).
  assert (clean t) as Hct by (eapply (same_clean _ s t Hs Hg1 ltac:(lia) u 0); [unfold u; grow 0|lia|done]).
  split; [|split].
  - unfold t in Hct. apply (dirtyIf 0 s) in Hct; [|done|apply grows_refl|lia|counter]. by apply Z.leb_gt in Hct.
  - intros E. unfold v in Hcv. rewrite Ee, E in Hcv. eapply (dirtyIf 2 u) in Hcv; [|done|grow 2|lia|counter].
    rewrite !andb_false_iff, !negb_false_iff, andb_true_iff, !Z.eqb_eq in Hcv. naive_solver.
  - intros E. apply (dirtyIf (1 + 3) s) in Hc; [|done|done|lia|counter]. rewrite E, andb_true_r, Es', Es in Hc.
    by apply negb_false_iff in Hc.
Qed.

Lemma observeAddIdentity_clean s l m : clean s → clean (observeAddIdentity s l m) →
  directory s !! l = Some (tickerAt m 24).
Proof.
  intros Hs. unfold observeAddIdentity. destruct (directory s !! l) as [i|]; [|refute Hs (grows_refl s)]. intros Hc.
  apply (dirtyIf 0 s) in Hc; [|done|apply grows_refl|lia|counter]. apply negb_false_iff, bool_decide_eq_true in Hc. by rewrite Hc.
Qed.

Lemma observePrice_clean s l p : clean s → clean (observePrice s l p) → p <= kMaxItchPrice4.
Proof.
  intros Hs Hc. unfold observePrice in Hc. cbn zeta in Hc. set (t := raise _ "max_price" p) in Hc.
  assert (grows 0 s t) as Hg by (unfold t; grow 0).
  assert (clean (bumpIf (kMaxItchPrice4 <? p) t "prices_above_documented_max")) as Hb by exact Hc.
  apply (dirtyIf 0 s) in Hb; [|done|done|lia|counter]. by apply Z.ltb_ge in Hb.
Qed.

Lemma observeDirectory_clean s l m : clean s → clean (observeDirectory s l m) →
  l ≠ 0 ∧ tickerHasIdentity (tickerAt m 11) = true ∧ same_books s (observeDirectory s l m) ∧
  events (observeDirectory s l m) = events s ∧
  system_hours_started (observeDirectory s l m) = system_hours_started s ∧
  system_hours_ended (observeDirectory s l m) = system_hours_ended s ∧
  match directory s !! l with
  | Some i => i = tickerAt m 11 ∧ directory (observeDirectory s l m) = directory s ∧
      directory_ticker_locates (observeDirectory s l m) = directory_ticker_locates s
  | None => (∀ l', directory_ticker_locates s !! tickerKey (tickerAt m 11) = Some l' → l' = l) ∧
      directory (observeDirectory s l m) = <[l := tickerAt m 11]> (directory s) ∧
      directory_ticker_locates (observeDirectory s l m) = <[tickerKey (tickerAt m 11) := l]> (directory_ticker_locates s)
  end.
Proof.
  intros Hs. unfold observeDirectory. cbn zeta. set (tk := tickerAt m 11).
  destruct (_ || _) eqn:Ei; [refute Hs (grows_refl s)|]. apply orb_false_iff in Ei as [El%Z.eqb_neq Ei%negb_false_iff].
  set (a := bumpIf _ s "conflicting_directory_identities"). assert (grows 1 s a) as Hga by (unfold a; grow 1).
  assert (same s a) as Ha by (unfold a; stay).
  set (b := if system_hours_started a then _ else _). assert (grows 1 a b) as Hgb by (unfold b; grow 1).
  assert (same a b) as Hb by (unfold b; stay).
  assert (same s b) as [[Hd1 Hd2 Hd3 Hd4 Hd5] Hbooks] by (by etrans). pose proof (grows_trans _ _ _ _ _ Hga Hgb) as Hgab.
  destruct (directory s !! l) as [i|] eqn:Edir.
  - rewrite bool_decide_eq_true_2 by (by eexists). cbn [negb]. intros Hc.
    assert (clean a) as Hca by (eapply (same_clean _ s a Hs Hga ltac:(lia) b 1 Hgb); [lia|done]).
    unfold a in Hca. rewrite bool_decide_eq_true_2 in Hca by (by eexists). cbn [andb] in Hca.
    apply (dirtyIf 0 s) in Hca; [|done|apply grows_refl|lia|counter]. apply negb_false_iff, bool_decide_eq_true in Hca. done.
  - rewrite bool_decide_eq_false_2 by (by intros []). cbn [negb].
    destruct (directory_ticker_locates b !! tickerKey tk) as [l'|] eqn:Et.
    + intros Hc. assert (clean (bumpIf (negb (l' =? l)) b "duplicate_directory_tickers")) as Hc' by exact Hc.
      apply (dirtyIf (1 + 1) s) in Hc'; [|done|exact Hgab|lia|counter]. apply negb_false_iff, Z.eqb_eq in Hc' as ->. rewrite Hd2 in Et.
      split; [done|]. split; [done|]. split; [by destruct Hbooks|]. split; [|split; [done|split; [done|]]].
      { rewrite <- Hd3. change (events (bumpIf (negb (l =? l)) b "duplicate_directory_tickers") = events b).
        apply (num_set_ne b). discriminate. }
      split; [intros l'' E'; congruence|]. split; [cbn; by rewrite Hd1|]. etrans; [exact Hd2|].
      symmetry. exact (insert_id _ _ _ Et).
    + intros _. split; [done|]. split; [done|]. split; [by destruct Hbooks|]. split; [exact Hd3|split; [done|split; [done|]]].
      rewrite Hd2 in Et. split; [intros l'' E'; congruence|]. split; cbn; [by rewrite Hd1|by rewrite Hd2].
Qed.

(** How the day advances on an event. *)
Definition day_advances (s s' : Stats) (code : Z) : Prop :=
  if bool_decide (code ∈ kDailySystemEvents)
  then kDailySystemEvents !! Z.to_nat (events s) = Some code ∧ events s' = events s + 1
  else (code = ch "A" ∨ code = ch "R" ∨ code = ch "B") ∧ events s' = events s.

Lemma observeSystemEvent_clean s code : clean s → 0 <= events s < 2 ^ 60 → clean (observeSystemEvent s code) →
  day_advances s (observeSystemEvent s code) code ∧ same_books s (observeSystemEvent s code) ∧
  directory (observeSystemEvent s code) = directory s ∧
  directory_ticker_locates (observeSystemEvent s code) = directory_ticker_locates s ∧
  system_hours_started (observeSystemEvent s code) = (system_hours_started s || (code =? ch "S")) ∧
  system_hours_ended (observeSystemEvent s code) =
    (if code =? ch "E" then true else if code =? ch "C" then false else system_hours_ended s).
Proof.
  intros Hs He. unfold observeSystemEvent. cbn zeta. set (t := if bool_decide (code ∈ kDailySystemEvents) then _ else _).
  set (u := if code =? ch "S" then _ else _). intros Hc.
  assert (grows 1 s t) as Hgt by (unfold t; grow 1). assert (grows 0 t u) as Hgu by (unfold u; grow 0).
  assert (clean t) as Hct by (eapply (same_clean 1 s t Hs Hgt ltac:(lia) u 0 Hgu); [lia|done]).
  assert (events u = events t) as Eu.
  { unfold u. destruct (code =? ch "S"); [done|]. destruct (code =? ch "E"); [by apply (num_set_ne t)|]. by destruct (code =? ch "C"). }
  assert (day_advances s u code ∧ same_books s t ∧ directory t = directory s ∧
    directory_ticker_locates t = directory_ticker_locates s ∧ system_hours_started t = system_hours_started s ∧
    system_hours_ended t = system_hours_ended s) as (H1&H2&H3&H4&H5&H6).
  { unfold day_advances. rewrite Eu. unfold t in Hct |- *. case_bool_decide as Ed.
    - destruct (_ || _) eqn:Eo; [exfalso; revert Hct; eapply dirty; [exact Hs|apply grows_refl|lia|counter]|]. split; [|done].
      apply orb_false_iff in Eo as [Hn%Z.leb_gt Ec%negb_false_iff%Z.eqb_eq].
      change (Z.of_nat (length kDailySystemEvents)) with 6 in Hn. split.
      + destruct (lookup_lt_is_Some_2 kDailySystemEvents (Z.to_nat (events s))) as [c' Hc'];
          [change (length kDailySystemEvents) with 6%nat; lia|]. by rewrite Ec, nth_lookup, Hc'.
      + unfold bump. rewrite num_set_eq, u64_id; [done|]. unfold fits. lia.
    - destruct (_ || _) eqn:Eo; [|exfalso; revert Hct; eapply dirty; [exact Hs|apply grows_refl|lia|counter]].
      split; [|done]. split; [|done]. rewrite !orb_true_iff, !Z.eqb_eq in Eo. tauto. }
  split; [done|]. unfold u. destruct (Z.eqb_spec code (ch "S")) as [->|Hns].
  - split; [by destruct H2|]. split; [done|]. split; [done|]. split; [by rewrite orb_true_r|done].
  - rewrite orb_false_r. destruct (code =? ch "E"); [|destruct (code =? ch "C")]; by split; [destruct H2|].
Qed.

End ProfileSteps.
