(* ===== verification/ProfileBodies.v ===== *)
(** What each type of message does to a profile that stays clean. *)
From stdpp Require Import base list gmap strings.
From Stdlib Require Import ZArith Lia Ascii.
From S2P Require Import Prelude Bits BookTypes Protocol Parser ParserInv Replay ReplayInv Sha Capacity Profile ProfileInv ProfileClean ProfileSteps.
#[local] Open Scope string_scope.
#[local] Open Scope list_scope.
#[local] Open Scope Z_scope.
#[local] Open Scope astra_scope.

Module ProfileBodies.
Import Protocol ReplayInv Profile ProfileInv ProfileClean ProfileSteps.

Abbreviation max_ref s := (num s "max_order_ref").

(** ** Before the switch *)

(** The statistics at the switch: nothing of the reconstruction has moved yet. *)
Lemma message_unfold s m : record_ok m → ∃ t,
  observeMessage (counted s m) m = observeBody (observeHeader t m) m ∧ same s t ∧ grows 0 s t.
Proof.
  intros Hm. unfold observeMessage. cbn zeta. pose proof (ReplayInv.record_length m Hm) as Hl.
  rewrite (proj2 (Z.eqb_neq (Z.of_nat (length m)) 0)) by lia. rewrite (record_length_type m Hm).
  eexists. split; [reflexivity|]. split; [stay|grow 0].
Qed.

Lemma observeOrderRef_max s r : r <= max_ref (observeOrderRef s r).
Proof. unfold observeOrderRef, bumpIf, raise. cbn zeta. rewrite num_set_ne, num_set_eq by done. lia. Qed.

(** ** The types *)

(** Follows the switch for a known type. *)
Ltac pick :=
  repeat match goal with
  | |- context [ch ?a =? ch ?b] => let v := eval vm_compute in (ch a =? ch b) in change (ch a =? ch b) with v
  end; cbn [orb]; cbv match.

Section bodies.
Context (s : Stats) (m : list Z) (Hs : clean s) (Hp : pages_ok s) (Hc : clean (observeBody s m)).
Context (Hl : fits 16 (readU16BE m 1)) (Hr : 0 <= readU64BE m 11).
Abbreviation s' := (observeBody s m).
Abbreviation l := (readU16BE m 1).
Abbreviation r := (readU64BE m 11).

Lemma body_add : byteAt m 0 = ch "A" ∨ byteAt m 0 = ch "F" → fits 32 (readU32BE m 32) →
  let price := readU32BE m 32 in let qty := readU32BE m 20 in let sd := byteAt m 19 in
  r <= max_ref s' ∧ price <= kMaxItchPrice4 ∧ directory s !! l = Some (tickerAt m 24) ∧ ¬ claimed s r ∧ qty ≠ 0 ∧
  (sd = ch "B" ∨ sd = ch "S") ∧ live_orders s !! r = None ∧
  step s s' (<[r := mkOrder price qty l sd]> (live_orders s)) (Some r) ∧ pageKey l price ∈ ever_active_pages s'.
Proof.
  intros Ht Hfp price qty sd. revert Hc. unfold observeBody.
  assert ((byteAt m 0 =? ch "A") || (byteAt m 0 =? ch "F") = true) as -> by (destruct Ht as [->| ->]; done).
  cbn zeta. fold price qty sd. set (a := observeOrderRef s r). set (b := observePrice a l price). set (c := observeAddIdentity b l m).
  intros Hc'. assert (grows 0 s a) as Ga by (unfold a; grow 0). assert (grows 1 s b) as Gb by (unfold b, a; grow 1).
  assert (grows 2 s c) as Gc by (unfold c, b, a; grow 2). pose proof (profileAdd_grows c l r price qty sd) as Gd.
  assert (clean c) as Cc by (eapply (same_clean 2 s c Hs Gc ltac:(lia) _ 24 Gd); [lia|done]).
  assert (clean b) as Cb by (eapply (same_clean 1 s b Hs Gb ltac:(lia) c 1); [apply observeAddIdentity_grows|lia|done]).
  pose proof (clean_forward s a Hs Ga) as Ca.
  assert (same s b) as Sb by (unfold b, a; stay). assert (same s c) as Sc by (unfold c, b, a; stay).
  assert (pages_ok c) as Pc by (eapply pages_same; [apply Sc|done]).
  destruct (profileAdd_clean c l r price qty sd Cc Pc Hl Hfp Hr Hc') as (H1&H2&H3&H4&H5&H6).
  pose proof Sc as [Sd Sbk].
  split; [|split; [by eapply observePrice_clean|split]].
  - etrans; [apply (observeOrderRef_max s r)|]. fold a. eapply Z.le_trans; [|apply (gr_ref _ _ _ Gd)].
    apply (gr_ref 2). unfold c, b. grow 2.
  - rewrite <- (sd_dir _ _ (proj1 Sb)). by apply observeAddIdentity_clean.
  - rewrite (claimed_same s c) in H1 by done. rewrite (sb_live _ _ Sbk) in H4, H5.
    split; [done|]. split; [done|]. split; [done|]. split; [done|]. split; [by eapply step_from|done].
Qed.

Lemma body_execution : byteAt m 0 = ch "E" ∨ byteAt m 0 = ch "C" →
  let qty := readU32BE m 19 in
  (byteAt m 0 = ch "C" → readU32BE m 32 <= kMaxItchPrice4) ∧
  ∃ o, live_orders s !! r = Some o ∧ locate o = l ∧ qty ≠ 0 ∧ qty <= Profile.qty o ∧
    step s s' (if qty =? Profile.qty o then delete r (live_orders s)
               else <[r := with_order_qty o (u32 (Profile.qty o - qty))]> (live_orders s)) None.
Proof.
  intros Ht qty. set (a := observeOrderRef s r). set (b := profileExecution a l r qty). set (c := observeMatch b (readU64BE m 23)).
  assert (grows 0 s a) as Ga by (unfold a; grow 0). pose proof (clean_forward s a Hs Ga) as Ca.
  assert (grows 8 a b) as Gb by apply profileExecution_grows. assert (grows 0 b c) as Gc by (unfold c; grow 0).
  assert (same s a) as Sa by (unfold a; stay). assert (same b c) as Sc by (unfold c; stay).
  assert (pages_ok a) as Pa by (eapply pages_same; [apply Sa|done]). pose proof (grows_trans _ _ _ _ _ Gb Gc) as Gac.
  assert (clean b → ∃ o, live_orders s !! r = Some o ∧ locate o = l ∧ qty ≠ 0 ∧ qty <= Profile.qty o ∧
    step s c (if qty =? Profile.qty o then delete r (live_orders s)
               else <[r := with_order_qty o (u32 (Profile.qty o - qty))]> (live_orders s)) None) as Hmain.
  { intros Cb. destruct (profileExecution_clean a l r qty Ca Pa Cb) as (o&H1&H2&H3&H4&H5).
    rewrite (sb_live _ _ (proj2 Sa)) in H1, H5. exists o. split_and!; try done. eapply step_then; [|exact Sc]. by eapply step_from. }
  revert Hc. unfold observeBody. destruct Ht as [Ht|Ht]; rewrite Ht; pick.
  - change (clean c → ((ch "E" = ch "C") → readU32BE m 32 <= kMaxItchPrice4) ∧ ∃ o, live_orders s !! r = Some o ∧ locate o = l ∧ qty ≠ 0 ∧
      qty <= Profile.qty o ∧ step s c (if qty =? Profile.qty o then delete r (live_orders s)
               else <[r := with_order_qty o (u32 (Profile.qty o - qty))]> (live_orders s)) None).
    intros Cc. split; [done|]. apply Hmain. eapply (same_clean 8 a b Ca Gb ltac:(lia) c 0 Gc); [lia|done].
  - change (clean (observePrice c l (readU32BE m 32)) → ((ch "C" = ch "C") → readU32BE m 32 <= kMaxItchPrice4) ∧
      ∃ o, live_orders s !! r = Some o ∧ locate o = l ∧ qty ≠ 0 ∧ qty <= Profile.qty o ∧
        step s (observePrice c l (readU32BE m 32)) (if qty =? Profile.qty o then delete r (live_orders s)
               else <[r := with_order_qty o (u32 (Profile.qty o - qty))]> (live_orders s)) None).
    intros Cd. pose proof (observePrice_grows c l (readU32BE m 32)) as Gd.
    assert (clean c) as Cc by (eapply (same_clean (8 + 0) a c Ca Gac ltac:(lia) _ 1 Gd); [lia|done]).
    split; [intros _; by eapply observePrice_clean|].
    destruct Hmain as (o&H1&H2&H3&H4&H5); [eapply (same_clean 8 a b Ca Gb ltac:(lia) c 0 Gc); [lia|done]|].
    exists o. split_and!; try done. eapply step_then; [exact H5|apply observePrice_same].
Qed.

Lemma body_cancel : byteAt m 0 = ch "X" →
  let qty := readU32BE m 19 in
  ∃ o, live_orders s !! r = Some o ∧ locate o = l ∧ qty ≠ 0 ∧ qty < Profile.qty o ∧
    step s s' (<[r := with_order_qty o (u32 (Profile.qty o - qty))]> (live_orders s)) None.
Proof.
  intros Ht qty. revert Hc. unfold observeBody. rewrite Ht. pick. fold qty. set (a := observeOrderRef s r).
  assert (clean a) as Ca by (eapply clean_forward; [exact Hs|unfold a; grow 0]). assert (same s a) as Sa by (unfold a; stay).
  assert (pages_ok a) as Pa by (eapply pages_same; [apply Sa|done]).
  intros Hc'. destruct (profileCancel_clean a l r qty Ca Pa Hc') as (o&H1&H2&H3&H4&H5).
  rewrite (sb_live _ _ (proj2 Sa)) in H1, H5. exists o. split_and!; try done. by eapply step_from.
Qed.

Lemma body_delete : byteAt m 0 = ch "D" →
  ∃ o, live_orders s !! r = Some o ∧ locate o = l ∧ step s s' (delete r (live_orders s)) None.
Proof.
  intros Ht. revert Hc. unfold observeBody. rewrite Ht. pick. set (a := observeOrderRef s r).
  assert (clean a) as Ca by (eapply clean_forward; [exact Hs|unfold a; grow 0]). assert (same s a) as Sa by (unfold a; stay).
  assert (pages_ok a) as Pa by (eapply pages_same; [apply Sa|done]).
  intros Hc'. destruct (profileDelete_clean a l r Ca Pa Hc') as (o&H1&H2&H3).
  rewrite (sb_live _ _ (proj2 Sa)) in H1, H3. exists o. split_and!; try done. by eapply step_from.
Qed.

Lemma body_replace : byteAt m 0 = ch "U" → fits 32 (readU32BE m 31) → 0 <= readU64BE m 19 →
  let new := readU64BE m 19 in let price := readU32BE m 31 in let qty := readU32BE m 27 in
  new <= max_ref s' ∧ price <= kMaxItchPrice4 ∧ r ≠ new ∧ ¬ claimed s new ∧ qty ≠ 0 ∧ live_orders s !! new = None ∧
  ∃ o, live_orders s !! r = Some o ∧ locate o = l ∧
    step s s' (<[new := mkOrder price qty l (side o)]> (delete r (live_orders s))) (Some new) ∧
    pageKey l price ∈ ever_active_pages s'.
Proof.
  intros Ht Hfp Hn new price qty. revert Hc. unfold observeBody. rewrite Ht. pick. fold new price qty.
  set (a := observeOrderRef (observeOrderRef s r) new). set (b := observePrice a l price). intros Hc'.
  assert (clean a) as Ca by (eapply clean_forward; [exact Hs|unfold a; grow 0]).
  assert (grows 1 a b) as Gb by apply observePrice_grows. pose proof (profileReplace_grows b l r new price qty) as Gc.
  assert (clean b) as Cb by (eapply (same_clean 1 a b Ca Gb ltac:(lia) _ 32 Gc); [lia|exact Hc']).
  assert (same s b) as Sb by (unfold b, a; stay). assert (pages_ok b) as Pb by (eapply pages_same; [apply Sb|done]).
  destruct (profileReplace_clean b l r new price qty Cb Pb Hl Hfp Hn Hc') as (H1&H2&H3&H4&o&H5&H6&H7&H8).
  pose proof Sb as [Sd Sbk]. rewrite (claimed_same s b) in H2 by done. rewrite (sb_live _ _ Sbk) in H4, H5, H7.
  split; [|split; [exact (observePrice_clean a l price Ca Cb)|]].
  - etrans; [apply (observeOrderRef_max (observeOrderRef s r) new)|]. eapply Z.le_trans; [apply (gr_ref _ _ _ Gb)|apply (gr_ref _ _ _ Gc)].
  - split; [done|]. split; [done|]. split; [done|]. split; [done|]. exists o. split; [done|]. split; [done|].
    split; [by eapply step_from|done].
Qed.

End bodies.

(** The types that leave the reconstruction alone. *)
Lemma body_other s m :
  bookType (byteAt m 0) = false → byteAt m 0 ≠ ch "R" → byteAt m 0 ≠ ch "S" → same s (observeBody s m).
Proof.
  intros Hb Hr' Hs'. unfold bookType in Hb. cbn [existsb fmap list_fmap] in Hb. rewrite !orb_false_iff in Hb.
  destruct Hb as (EA&EF&EE&EC&EX&ED&EU&_). unfold observeBody.
  rewrite EA, EF, EE, EC, EX, ED, EU, (proj2 (Z.eqb_neq _ _) Hr'), (proj2 (Z.eqb_neq _ _) Hs'). cbn [orb]. stay.
Qed.

End ProfileBodies.
