(* ===== verification/ProfileText.v ===== *)
(** Tickers: the profiler keeps the eight bytes of the wire, the parser and the directory
    keep them without the padding.  Over tickers padded with blanks the two agree. *)
From stdpp Require Import base list gmap strings.
From Stdlib Require Import ZArith Lia Ascii.
From S2P Require Import Prelude Bits BookTypes Probe Directory Protocol Parser ParserInv Decoder DecoderInv Sha Capacity Profile.
#[local] Open Scope Z_scope.
#[local] Open Scope astra_scope.

Module ProfileText.
Import Protocol ItchParser.

(** Eight bytes without a NUL. *)
Definition text (tk : list Z) : Prop := length tk = 8%nat ∧ Forall (λ c, c ≠ 0) tk.

Definition trim (tk : list Z) : list Z := take (textLength tk 8) tk.

Lemma byteAt_take (l : list Z) n i : (i < n)%nat → byteAt (take n l) i = byteAt l i.
Proof. intros. unfold byteAt. by rewrite lookup_take_lt. Qed.

Lemma textLength_le l n : (textLength l n <= n)%nat.
Proof. induction n as [|n IH]; cbn [textLength]; [lia|]. destruct (_ || _); lia. Qed.

Lemma textLength_take l n k : (n <= k)%nat → textLength (take k l) n = textLength l n.
Proof. induction n as [|n IH]; intros Hk; cbn [textLength]; [done|]. rewrite byteAt_take, IH by lia. done. Qed.

Lemma textLength_blank l n i : (textLength l n <= i < n)%nat → byteAt l i = ch " " ∨ byteAt l i = 0.
Proof.
  induction n as [|n IH]; cbn [textLength]; [lia|]. destruct (_ || _) eqn:E; [|lia]. intros Hi.
  destruct (decide (i = n)) as [->|]; [|apply IH; lia]. rewrite orb_true_iff, !Z.eqb_eq in E. done.
Qed.

Lemma textLength_zero l n : textLength l n = 0%nat → ∀ i, (i < n)%nat → byteAt l i = ch " " ∨ byteAt l i = 0.
Proof. intros E i Hi. apply (textLength_blank l n). lia. Qed.

(** The trimmed field of a message is the trimmed ticker. *)
Lemma fixedText_trim msg off : fixedText msg off kStockLen = trim (Profile.tickerAt msg off).
Proof.
  unfold fixedText, trim, Profile.tickerAt, Profile.kTickerLength, kStockLen. cbn zeta.
  rewrite textLength_take by lia. rewrite take_take. f_equal. pose proof (textLength_le (drop off msg) 8). lia.
Qed.

Lemma trim_length tk : (length (trim tk) <= 8)%nat.
Proof. unfold trim. rewrite length_take. pose proof (textLength_le tk 8). lia. Qed.

Lemma byteAt_text tk i : text tk → (i < 8)%nat → tk !! i = Some (byteAt tk i) ∧ byteAt tk i ≠ 0.
Proof.
  intros [Hl Hn] Hi. destruct (lookup_lt_is_Some_2 tk i ltac:(lia)) as [c Hc]. unfold byteAt. rewrite Hc. split; [done|].
  by apply (Forall_lookup_1 _ _ _ _ Hn Hc).
Qed.

(** A ticker is its text and blanks. *)
Lemma trim_pad tk : text tk → tk = trim tk ++ replicate (8 - length (trim tk)) (ch " ").
Proof.
  intros Ht. pose proof (textLength_le tk 8) as Hle. assert (length tk = 8%nat) as Hl by apply Ht.
  assert (length (trim tk) = textLength tk 8) as El by (unfold trim; rewrite length_take; lia). rewrite El.
  rewrite <- (take_drop (textLength tk 8) tk) at 1. unfold trim. f_equal.
  apply list_eq. intros i. destruct (decide (i < 8 - textLength tk 8)%nat) as [Hi|Hi].
  - rewrite lookup_drop, lookup_replicate_2 by done. destruct (byteAt_text tk (textLength tk 8 + i) Ht ltac:(lia)) as [-> Hn].
    f_equal. destruct (textLength_blank tk 8 (textLength tk 8 + i)) as [?|?]; [lia|done|done].
  - rewrite !lookup_ge_None_2; [done|rewrite length_replicate; lia|rewrite length_drop; lia].
Qed.

Lemma trim_inj tk tk' : text tk → text tk' → trim tk = trim tk' → tk = tk'.
Proof. intros H H' E. rewrite (trim_pad tk H), (trim_pad tk' H'), E. done. Qed.

Lemma trim_nonzero tk : text tk → Forall (λ c, c ≠ 0) (trim tk).
Proof. intros [_ H]. by apply Forall_take. Qed.

Lemma trim_nonempty tk : length tk = 8%nat → Profile.tickerHasIdentity tk = true → trim tk ≠ [].
Proof.
  intros Hl [c [Hin Hc]]%existsb_exists E. apply list_elem_of_In, list_elem_of_lookup_1 in Hin as [i Hi].
  pose proof (lookup_lt_Some _ _ _ Hi). apply (f_equal length) in E. unfold trim in E. rewrite length_take in E. change (length (@nil Z)) with 0%nat in E.
  destruct (textLength_zero tk 8 ltac:(lia) i ltac:(lia)) as [E'|E']; unfold byteAt in E'; rewrite Hi in E'; cbn in E'; subst c; done.
Qed.

(** ** Views *)

Lemma view_padded n sym k : Forall (λ c, c ≠ 0) sym → (length sym < n + k)%nat → (length sym <= n)%nat → 
  StockDirectory.viewUpTo n (sym ++ replicate k 0) = sym.
Proof.
  revert n. induction sym as [|c sym IH]; intros n Hn Hk Hle.
  - destruct n as [|n]; [done|]. destruct k; done.
  - apply Forall_cons in Hn as [Hc Hn]. destruct n as [|n]; [cbn in Hle; lia|]. cbn [app StockDirectory.viewUpTo].
    rewrite (proj2 (Z.eqb_neq _ _) Hc), IH; [done|done|cbn in *; lia|cbn in *; lia].
Qed.

(** The entry built from a directory message shows the trimmed ticker. *)
Lemma entry_view msg l tk : text tk → StockDirectory.tickerView (directoryEntry msg l (trim tk)) = trim tk.
Proof.
  intros Ht. pose proof (trim_length tk) as Hl. unfold StockDirectory.tickerView, directoryEntry. cbn [StockDirectory.ticker].
  rewrite Nat.min_l, firstn_all by lia. apply view_padded; [by apply trim_nonzero|lia|lia].
Qed.

(** A stored entry has no text beyond the eighth byte. *)
Definition canonical (e : StockDirectory.Entry) : Prop :=
  StockDirectory.viewUpTo 9 (StockDirectory.ticker e) = StockDirectory.tickerView e.

Lemma canonical_entry l e : canonical (StockDirectory.canonicalEntry l e (StockDirectory.tickerView e)).
Proof.
  unfold canonical. rewrite StockDirectory.canonical_view. unfold StockDirectory.canonicalEntry, StockDirectory.tickerView. cbn [StockDirectory.ticker].
  pose proof (StockDirectory.viewUpTo_length 8 (StockDirectory.ticker e)) as Hl. rewrite StockDirectory.viewUpTo_prefix.
  apply view_padded; [|lia|lia]. generalize (StockDirectory.ticker e). generalize 8%nat. clear. intros n. induction n as [|n IH]; intros [|b bs]; cbn; try done.
  destruct (Z.eqb_spec b 0); [done|]. by constructor.
Qed.

(** The check of an add against the directory is the comparison of the wire bytes. *)
Lemma wire_matches e msg off : text (Profile.tickerAt msg off) →
  StockDirectory.tickerView e = trim (Profile.tickerAt msg off) → wireStockMatches e msg off = true.
Proof.
  intros Ht Hv. unfold wireStockMatches. rewrite Hv. apply forallb_forall. intros i Hi. apply in_seq in Hi.
  change kStockLen with 8%nat in Hi. set (tk := Profile.tickerAt msg off) in *. apply Z.eqb_eq.
  assert (byteAt msg (off + i) = byteAt tk i) as ->.
  { unfold tk, Profile.tickerAt. rewrite byteAt_take, DecoderInv.byteAt_drop by (unfold Profile.kTickerLength; lia). done. }
  assert (byteAt tk i = byteAt (trim tk ++ replicate (8 - length (trim tk)) (ch " ")) i) as -> by (by rewrite <- trim_pad).
  destruct (Nat.ltb_spec i (length (trim tk))) as [Hlt|Hge].
  - rewrite <- Hv in Hlt |- *. unfold byteAt. rewrite lookup_app_l by done.
    unfold StockDirectory.tickerView. rewrite <- StockDirectory.viewUpTo_prefix at 1. rewrite lookup_take_lt; [done|exact Hlt].
  - unfold byteAt. rewrite lookup_app_r, lookup_replicate_2 by lia. done.
Qed.

End ProfileText.
