(* ===== verification/ProfileRuns.v ===== *)
(** Commands the deployed books cannot refuse.

    An add or a replacement whose reference has a free direct slot and whose page exists
    or fits the arena is applied, and so is every reduction and deletion of a live order
    of its own book. *)
From stdpp Require Import base list gmap strings.
From Stdlib Require Import ZArith Lia Ascii.
From S2P Require Import Prelude Bits Bitmap BookTypes Orders Prices PricesInv PricesAdd PricesErase.
From S2P Require Import PricesRead Book BookInv BookOps Probe Directory Manager ManagerInv.
From S2P Require Import ManagerProps Protocol Parser ParserInv Footprint.
#[local] Open Scope Z_scope.
#[local] Open Scope astra_scope.

Module ProfileRuns.
Import OrderBook BookManager BookInv BookOps PriceStoreInv ManagerInv.
Implicit Types (m : BookManager.t) (M : gmap Z OrderState).

(** ** Room *)

(** The committed pages are no more than the places that may hold a root. *)
Lemma committed_bound (s : PriceLevelStore.t) (E : gset Z) :
  store_ok s → (∀ i, (PriceLevelStore.roots s).[i] ≠ 0 → i ∈ E) → PriceLevelStore.committed_pages s <= Z.of_nat (size E).
Proof.
  intros Hs HE. set (n := Z.to_nat (PriceLevelStore.committed_pages s)). pose proof (so_committed s Hs) as Hc.
  set (f h := priceRootIndex (PriceLevelStore.ow_stock_locate (PriceLevelStore.page_owners s).[h])
    (PriceLevelStore.ow_page_index (PriceLevelStore.page_owners s).[h])).
  assert (∀ h, h ∈ range n 1 → (PriceLevelStore.roots s).[f h] = h) as Hf.
  { intros h [H1 H2]%elem_of_range. destruct (so_owned s Hs h ltac:(lia)) as (loc&p&_&_&_&Eo&Er&_).
    unfold f. rewrite Eo. exact Er. }
  assert (size (list_to_set (f <$> range n 1) : gset Z) = n) as En.
  { rewrite size_list_to_set, length_fmap, length_range; [done|]. apply NoDup_fmap_2_strong; [|apply NoDup_range].
    intros a b Ha Hb Eab. by rewrite <- (Hf a Ha), <- (Hf b Hb), Eab. }
  assert ((list_to_set (f <$> range n 1) : gset Z) ⊆ E) as Hsub.
  { intros i [h [-> Hh]]%elem_of_list_to_set%list_elem_of_fmap. apply HE. rewrite (Hf h Hh). apply elem_of_range in Hh. lia. }
  apply subseteq_size in Hsub. lia.
Qed.

(** There is a page for the price, or room for it. *)
Definition page_room m l price : Prop :=
  root (m_prices m) l (page_index (splitPrice price)) ≠ 0 ∨
  PriceLevelStore.committed_pages (m_prices m) < PriceLevelStore.page_capacity (m_prices m).

Lemma page_room_of m M (E : gset Z) l price :
  mgr_ok m M → (∀ i, (PriceLevelStore.roots (m_prices m)).[i] ≠ 0 → i ∈ E) →
  priceRootIndex l (page_index (splitPrice price)) ∈ E → Z.of_nat (size E) <= PriceLevelStore.page_capacity (m_prices m) →
  page_room m l price.
Proof.
  intros Hm HE Hin Hcap. set (i := priceRootIndex _ _) in *.
  destruct (decide (root (m_prices m) l (page_index (splitPrice price)) = 0)) as [E0|]; [|by left]. right.
  assert (∀ j, (PriceLevelStore.roots (m_prices m)).[j] ≠ 0 → j ∈ E ∖ {[i]}) as HE'.
  { intros j Hj. pose proof (HE j Hj). apply elem_of_difference. split; [done|]. intros ->%elem_of_singleton. done. }
  pose proof (committed_bound _ _ (lg_store _ _ _ (mg_ledger m M Hm)) HE') as Hle.
  pose proof (size_remove E i Hin). lia.
Qed.

(** A slot whose flags are clear holds no record. *)
Lemma free_record m id : 0 <= id < OrderTable.direct_slots (m_orders m) → flags (OrderTable.direct (m_orders m)).[id] = 0 →
  OrderTable.record (m_orders m) id = None.
Proof.
  intros Hid Hf. unfold OrderTable.record. rewrite (proj2 (Z.ltb_lt _ _)) by lia. unfold wasSeen. by rewrite Hf.
Qed.

Lemma count_le_size M l sd price : msum (count_at l sd price) M <= Z.of_nat (size M).
Proof. rewrite <- ManagerProps.msum_size. apply msum_le. intros k st _. unfold count_at. case_decide; lia. Qed.

(** ** Commands *)

Section applies.
Context (m : BookManager.t) (M : gmap Z OrderState) (Hm : mgr_ok m M).

(** The reason of the command's result. *)
Lemma run_explained c : cmd_ok c → explains m M c (fst (run m c)).
Proof. intros Hc. apply (run_steps m M c Hm Hc). Qed.

Lemma book_locate l b : find m l = Some b → stock_locate b = l.
Proof. rewrite (find_book m M l Hm). intros Hb. apply (be_locate _ _ _ _ (mg_book m M Hm l b Hb)). Qed.

Lemma add_applies l id price qty sd ts :
  is_Some (find m l) → 0 <= price <= kMaxItchPrice4 → fits 32 qty → qty ≠ 0 → valid_side_char sd →
  0 <= id < OrderTable.direct_slots (m_orders m) → flags (OrderTable.direct (m_orders m)).[id] = 0 →
  page_room m l price → Z.of_nat (size M) < max_u32 →
  fst (run m (AddOrder l id price qty sd ts)) = Applied.
Proof.
  intros [b Hb] Hp Hq Hq0 Hsd Hid Hf Hroom Hsize.
  pose proof (run_explained (AddOrder l id price qty sd ts) ltac:(split; [lia|done])) as Hex.
  unfold explains in Hex. cbn [cmd_locate] in Hex. rewrite Hb in Hex. cbn zeta in Hex.
  pose proof (free_record m id Hid Hf) as Hrec. pose proof (book_locate l b Hb) as El.
  pose proof (count_le_size M l (decodeSideChar sd) price) as Hcnt.
  destruct (fst (run m _)); cbn [add_reason] in Hex; try done; try lia.
  - destruct Hex as [H1 H2]. cbn in H1, H2. rewrite El in H1. destruct Hroom; [done|lia].
  - destruct Hex as (_&Hge&_). cbn in Hge. lia.
  - cbn in Hex. rewrite El in Hex. unfold max_u32 in *. lia.
Qed.

(** A live order and its book. *)
Lemma live_book id st : M !! id = Some st → ∃ b, find m (locate st) = Some b ∧ owned_order (view m b) M id st.
Proof.
  intros Hst. destruct (mg_home m M Hm id st Hst) as [b Hb]. exists b. rewrite (find_book m M _ Hm). split; [done|].
  split; [done|]. cbn. by rewrite (be_locate _ _ _ _ (mg_book m M Hm _ _ Hb)).
Qed.

Ltac owned :=
  repeat match goal with
  | H : owned_order _ _ _ _ |- _ => destruct H
  | H : foreign_order _ _ _ |- _ => destruct H as (?&?&?)
  | H : ∃ _, _ |- _ => destruct H
  | H : _ ∧ _ |- _ => destruct H
  end; simplify_eq/=; try lia; try done.

Lemma cancel_applies id st q ts : M !! id = Some st → fits 32 q → 0 < q < qty st →
  fst (run m (CancelShares (locate st) id q ts)) = Applied.
Proof.
  intros Hst Hf Hq. destruct (live_book id st Hst) as (b&Hb&Ho). pose proof (run_explained (CancelShares (locate st) id q ts) Hf) as Hex.
  unfold explains in Hex. cbn [cmd_locate] in Hex. rewrite Hb in Hex. cbn zeta in Hex.
  destruct (fst (run m _)); cbn [cancel_reason] in Hex; owned.
Qed.

Lemma delete_applies id st ts : M !! id = Some st → fst (run m (DeleteOrder (locate st) id ts)) = Applied.
Proof.
  intros Hst. destruct (live_book id st Hst) as (b&Hb&Ho). pose proof (run_explained (DeleteOrder (locate st) id ts) I) as Hex.
  unfold explains in Hex. cbn [cmd_locate] in Hex. rewrite Hb in Hex. cbn zeta in Hex.
  destruct (fst (run m _)); cbn [delete_reason] in Hex; owned.
Qed.

Lemma execute_applies id st q ts : M !! id = Some st → fits 32 q → 0 < q <= qty st →
  fst (run m (ExecuteOrder (locate st) id q ts)) = Applied.
Proof.
  intros Hst Hf Hq. destruct (live_book id st Hst) as (b&Hb&Ho). pose proof (run_explained (ExecuteOrder (locate st) id q ts) Hf) as Hex.
  unfold explains in Hex. cbn [cmd_locate] in Hex. rewrite Hb in Hex. cbn zeta in Hex.
  destruct (fst (run m _)); cbn [execute_reason] in Hex; owned.
Qed.

Lemma replace_applies old new st price q ts :
  M !! old = Some st → new ≠ old → 0 <= price <= kMaxItchPrice4 → fits 32 q → q ≠ 0 →
  0 <= new < OrderTable.direct_slots (m_orders m) → flags (OrderTable.direct (m_orders m)).[new] = 0 →
  page_room m (locate st) price → Z.of_nat (size M) < max_u32 →
  fst (run m (ReplaceOrder (locate st) old new price q ts)) = Applied.
Proof.
  intros Hst Hne Hp Hq Hq0 Hid Hf Hroom Hsize. destruct (live_book old st Hst) as (b&Hb&Ho).
  pose proof (run_explained (ReplaceOrder (locate st) old new price q ts) ltac:(split; [lia|done])) as Hex.
  unfold explains in Hex. cbn [cmd_locate] in Hex. rewrite Hb in Hex. cbn zeta in Hex.
  pose proof (free_record m new Hid Hf) as Hrec. pose proof (book_locate _ b Hb) as El.
  destruct (fst (run m _)); cbn [replace_reason] in Hex; try (by owned).
  - destruct Hex as [H1 H2]. cbn in H1, H2. rewrite El in H1. destruct Hroom; [done|lia].
  - destruct Hex as (_&_&Hge&_). cbn in Hge. lia.
  - destruct Hex as (st'&_&Hc). pose proof (count_le_size M (locate st') (side_of st') price). unfold max_u32 in *. lia.
Qed.

End applies.

End ProfileRuns.
