(* ===== verification/ProfileSim.v ===== *)
(** The parser follows a clean profile.

    [sim] relates the statistics of the profiler after some messages to the parser after
    the same messages: the live orders, the day and the directory agree, and every mark in
    the order table and every price page is one the profiler has seen.  A message that
    keeps the profile clean is then accepted by the parser, as long as the references have
    direct slots and the pages fit the arena. *)
From stdpp Require Import base list gmap strings.
From Stdlib Require Import ZArith Lia Ascii.
From S2P Require Import Prelude Bits Bitmap BookTypes Orders Prices PricesInv PricesAdd PricesErase.
From S2P Require Import PricesRead Book BookInv BookOps Probe Directory Manager ManagerInv ManagerProps Protocol Parser ParserInv.
From S2P Require Import Gap Decoder DecoderInv Replay ReplayInv Sha Capacity Footprint Profile ProfileInv ProfileClean.
From S2P Require Import ProfileSteps ProfileBodies ProfileText ProfileRuns.
#[local] Open Scope Z_scope.
#[local] Open Scope astra_scope.

Module ProfileSim.
Import Protocol ManagerInv ItchParser ParserInv ProfileClean ProfileSteps ProfileBodies ProfileText ProfileRuns.
Implicit Types (s : Profile.Stats) (p : ItchParser.t) (M : gmap Z OrderState).

(** ** The relation *)

Definition absOrder (o : Profile.OrderState) : BookOps.Order :=
  BookOps.mkO (Profile.locate o) (OrderBook.decodeSideChar (Profile.side o)) (Profile.price o) (Profile.qty o).

(** The daily events that lead to a phase. *)
Definition phase_events (ph : ChannelPhase) : Z :=
  match ph with
  | WaitingStartOfMessages => 0
  | StartupDirectorySpin | StartupAdminSpin => 1
  | SystemHours => 2
  | MarketHours => 3
  | PostMarketHours => 4
  | PostSystemHours => 5
  | EndOfMessages => 6
  end.

Abbreviation orders_of p := (BookManager.m_orders (books p)).
Abbreviation prices_of p := (BookManager.m_prices (books p)).

Record sim s p M : Prop := {
  si_clean : clean s;
  si_par : par_ok p M;
  si_live : BookOps.abs <$> M = absOrder <$> Profile.live_orders s;
  si_refs : ∀ x, 0 <= x → flags (OrderTable.direct (orders_of p)).[x] ≠ 0 → claimed s x;
  si_roots : ∀ i, (PriceLevelStore.roots (prices_of p)).[i] ≠ 0 → i ∈ Profile.ever_active_pages s;
  si_pages : pages_ok s;
  si_events : events s = phase_events (channel_phase p);
  si_started : Profile.system_hours_started s = true → 2 <= events s;
  si_ended : events s = 5 → Profile.system_hours_ended s = true;
  si_text : ∀ l tk, Profile.directory s !! l = Some tk →
    text tk ∧ good_locate l ∧ Profile.directory_ticker_locates s !! Profile.tickerKey tk = Some l;
  si_dir : ∀ l, good_locate l → StockDirectory.tickerOf (symbols p) l = trim <$> Profile.directory s !! l;
  si_canon : ∀ l e, StockDirectory.get (symbols p) l = Some e → canonical e }.

Abbreviation sizes p := (OrderTable.direct_slots (orders_of p), PriceLevelStore.page_capacity (prices_of p)).

(** The parser accepted the message and still agrees with the profile. *)
Definition follows s' p M p' : Prop :=
  last_error p' = ""%string ∧ sizes p' = sizes p ∧ ∃ M', sim s' p' M' ∧ (size M' <= S (size M))%nat.

Lemma sim_same s t p M : sim s p M → same s t → clean t → sim t p M.
Proof.
  intros [] [[D1 D2 D3 D4 D5] Hb] Hc. split; try done.
  - by rewrite (sb_live _ _ Hb).
  - intros x Hx Hf. rewrite (claimed_same s t) by done. auto.
  - rewrite (sb_ever _ _ Hb). auto.
  - by eapply pages_same.
  - congruence.
  - rewrite D4, D3. auto.
  - rewrite D5, D3. auto.
  - intros l tk. rewrite D1, D2. auto.
  - rewrite D1. auto.
Qed.

Lemma sim_status s p M sk e : sim s p M → sim s (with_status p sk e) M.
Proof. intros []. split; try done. by apply par_status. Qed.

(** The status of the parser is not part of the relation. *)
Lemma follows_keep s p M p' : sim s p' M → last_error p' = ""%string → sizes p' = sizes p → follows s p M p'.
Proof. intros Hs He Hz. split; [done|]. split; [done|]. exists M. split; [done|lia]. Qed.

(** ** Commands *)

Lemma effect_size c (A : gmap Z BookOps.Order) : (size (effect c A) <= S (size A))%nat.
Proof.
  assert (∀ k o (B : gmap Z BookOps.Order), (size (<[k := o]> B) <= S (size B))%nat) as Hi.
  { intros k o B. rewrite map_size_insert. destruct (B !! k); cbn; lia. }
  assert (∀ k (B : gmap Z BookOps.Order), (size (delete k B) <= size B)%nat) as Hd.
  { intros k B. rewrite map_size_delete. destruct (B !! k); cbn; lia. }
  destruct c as [l id price qty sd ts|l id q ts|l id ts|l id q ts|l old new price q ts]; cbn [effect].
  - apply Hi.
  - rewrite <- !size_dom, dom_alter_L. lia.
  - specialize (Hd id A). lia.
  - destruct (A !! id) as [o|]; [|lia]. specialize (Hd id A). destruct (_ =? _); [lia|apply Hi].
  - destruct (A !! old) as [o|]; [|lia]. specialize (Hd old A). etrans; [apply Hi|]. lia.
Qed.

Lemma sim_command s s' p M msg c op live' k :
  sim s p M → last_error p = ""%string → command_of msg = Some c → cmd_ok c → op ≠ ""%string →
  channel_phase p ≠ EndOfMessages → fst (run (books p) c) = Applied →
  clean s' → grows k s s' → step s s' live' (Footprint.created c) →
  (∀ i, Footprint.placed c = Some i → i ∈ Profile.ever_active_pages s') →
  absOrder <$> live' = effect c (absOrder <$> Profile.live_orders s) →
  follows s' p M (mutateBooks p (run (books p) c) op).
Proof.
  intros Hs He Hcmd Hc Hop Hph Happ Hc' Hg Hst Hpl Hlive.
  destruct (parsed_mutate p M msg c op (si_par _ _ _ Hs) He Hcmd Hc Hop Hph) as (_&M'&Hp'&Heff&_).
  destruct (Footprint.run_touches (books p) M c (pa_mgr p M (si_par _ _ _ Hs)) Happ) as [[_ Gcap Groots] [Mdir Mflags]].
  unfold mutateBooks, applyBookResult in *. destruct (run (books p) c) as [r m']. cbn [fst snd] in *. subst r.
  rewrite bool_decide_eq_true_2 in * by done. specialize (Heff He).
  split; [exact He|]. split; [cbn; by rewrite Mdir, Gcap|]. exists M'.
  assert (BookOps.abs <$> M' = effect c (absOrder <$> Profile.live_orders s)) as Habs.
  { rewrite Heff. unfold message_effect. by rewrite Hcmd, (si_live _ _ _ Hs). }
  split.
  - destruct Hs, Hst as [Hday Hlv Hcl Hpg]. destruct Hday as [D1 D2 D3 D4 D5]. split; try done.
    + by rewrite Habs, Hlv, Hlive.
    + intros x Hx Hf. rewrite Hcl by done. destruct (Mflags x Hf) as [?|?]; [left; by apply si_refs0|by right].
    + intros i Hi. destruct (Groots i Hi) as [Hi'|Hi']; [|by apply Hpl]. apply (gr_pages _ _ _ Hg). by apply si_roots0.
    + by rewrite D3.
    + by rewrite D3, D4.
    + by rewrite D3, D5.
    + by rewrite D1, D2.
    + by rewrite D1.
  - rewrite <- (map_size_fmap BookOps.abs M'), Habs. etrans; [apply effect_size|]. rewrite <- (si_live _ _ _ Hs), map_size_fmap. lia.
Qed.

(** The record of an order the profiler holds. *)
Lemma certified_record s p M r o : sim s p M → Profile.live_orders s !! r = Some o →
  ∃ st, M !! r = Some st ∧ BookOps.abs st = absOrder o ∧ locate st = Profile.locate o ∧ qty st = Profile.qty o ∧ 0 < qty st < 2 ^ 32.
Proof.
  intros Hs Ho. pose proof (f_equal (.!! r) (si_live _ _ _ Hs)) as E. cbn in E. rewrite !lookup_fmap, Ho in E.
  destruct (M !! r) as [st|] eqn:Est; [|done]. cbn in E. injection E as E1 E2 E3 E4. exists st. split; [done|].
  split; [unfold BookOps.abs, absOrder; congruence|]. split; [done|]. split; [done|].
  apply (BookInv.or_qty (prices_of p)). apply (BookInv.lg_order _ _ _ (mg_ledger _ _ (pa_mgr p M (si_par _ _ _ Hs))) r st Est).
Qed.

(** A stock of the directory has its book once the system hours have started. *)
Lemma book_ready s p M l tk : sim s p M → Profile.system_hours_started s = true → Profile.directory s !! l = Some tk →
  is_Some (BookManager.find (books p) l).
Proof.
  intros Hs Hst Hd. destruct (si_text _ _ _ Hs l tk Hd) as (_&Hg&_). pose proof (si_par _ _ _ Hs) as Hp.
  rewrite (find_book (books p) M l (pa_mgr p M Hp)). apply (pa_books p M Hp l Hg). split.
  - apply (pa_prepared p M Hp). pose proof (si_started _ _ _ Hs Hst) as He. rewrite (si_events _ _ _ Hs) in He.
    destruct (channel_phase p); cbn in He |- *; lia.
  - pose proof (si_dir _ _ _ Hs l Hg) as Ht. rewrite Hd in Ht. by apply StockDirectory.tickerOf_some in Ht as [? _].
Qed.

Lemma pageKey_root l price : fits 16 l → fits 32 price →
  Profile.pageKey l price = priceRootIndex l (page_index (splitPrice (u32 price))).
Proof.
  intros Hl Hp. rewrite pageKey_arith, (u32_id price Hp), splitPrice_arith by done. cbn [page_index].
  unfold priceRootIndex, kPricePartBits. destruct Hp as [? ?]. rewrite lor_shiftl_add; [done|lia|].
  split; [by apply Z.div_pos|]. apply Z.div_lt_upper_bound; [done|]. change (65536 * 2 ^ 16) with (2 ^ 32). done.
Qed.

Lemma alter_some (f : BookOps.Order → BookOps.Order) (A : gmap Z BookOps.Order) k x : A !! k = Some x → alter f k A = <[k := f x]> A.
Proof. intros H. apply map_eq. intros j. rewrite lookup_alter, lookup_insert. case_decide as E; [|done]. subst. by rewrite H. Qed.

Lemma locate_fits msg : well_formed msg → fits 16 (readU16BE msg 1).
Proof.
  intros (Hb&Hne&Hl). apply readU16BE_fits; [done|]. assert (DecoderInv.sized msg) as H%DecoderInv.sized_length by (by split). lia.
Qed.

Lemma read64_nonneg msg off : well_formed msg → 0 <= readU64BE msg off.
Proof.
  intros (Hb&_). unfold readU64BE, readLoop. assert (∀ ns v, 0 <= v → 0 <= fold_left (λ v i, u64 (v ≪ 8) .| byteAt msg (off + i)) ns v) as H.
  { induction ns as [|n ns IH]; intros v Hv; [done|]. cbn [fold_left]. apply IH, Z.lor_nonneg. split; [apply u64_fits|].
    unfold byteAt. destruct (msg !! (off + n)%nat) as [b|] eqn:E; [|done]. cbn. apply (Forall_lookup_1 _ _ _ _ Hb E). }
  by apply H.
Qed.

Section commands.
Context (s : Profile.Stats) (p : ItchParser.t) (M : gmap Z OrderState) (msg : list Z).
Context (Hs : sim s p M) (He : last_error p = ""%string) (Hw : well_formed msg) (Hph : channel_phase p ≠ EndOfMessages).
Context (Hstart : Profile.bookType (byteAt msg 0) = true → Profile.system_hours_started s = true).
Abbreviation s' := (Profile.observeBody s msg).
Context (Hc : clean s') (Hsz : Z.of_nat (size M) < max_u32).
Context (Href : max_ref s' < OrderTable.direct_slots (orders_of p)).
Context (Hpg : Z.of_nat (size (Profile.ever_active_pages s')) <= PriceLevelStore.page_capacity (prices_of p)).

Abbreviation l := (readU16BE msg 1).
Abbreviation r := (readU64BE msg 11).
Abbreviation ts := (readU48BE msg kTimestampOffset).

Let locate_ok : fits 16 l := locate_fits msg Hw.
Let ref_ok : 0 <= r := read64_nonneg msg 11 Hw.
Let Hpages : pages_ok s := si_pages _ _ _ Hs.
Let Hgrow : grows 40 s s' := observeBody_grows s msg.

Lemma sim_add : byteAt msg 0 = ch "A" ∨ byteAt msg 0 = ch "F" → (36 <= length msg)%nat →
  follows s' p M (handleAdd p msg l).
Proof.
  intros Ht Hlen. assert (fits 32 (readU32BE msg 32)) as Hfp by (apply (read32_range msg 32 Hw); lia).
  assert (fits 32 (readU32BE msg 20)) as Hfq by (apply (read32_range msg 20 Hw); lia).
  destruct (body_add s msg (si_clean _ _ _ Hs) Hpages Hc locate_ok ref_ok Ht Hfp) as (B1&B2&B3&B4&B5&B6&B7&B8&B9).
  assert (Profile.system_hours_started s = true) as Hst by (apply Hstart; destruct Ht as [-> | ->]; done).
  destruct (si_text _ _ _ Hs l _ B3) as (Htx&Hg&_). pose proof (si_dir _ _ _ Hs l Hg) as Hdir. rewrite B3 in Hdir. cbn in Hdir.
  unfold StockDirectory.tickerOf in Hdir. unfold handleAdd. rewrite StockDirectory.get_registered by done.
  destruct (StockDirectory.isRegistered _ l); [|done]. injection Hdir as Hv.
  rewrite (wire_matches _ msg kAddStockOffset Htx Hv). cbn [negb]. set (c := AddOrder l r (readU32BE msg 32) (readU32BE msg 20) (byteAt msg 19) ts).
  change (BookManager.addOrder (books p) l r (readU32BE msg 32) (readU32BE msg 20) (byteAt msg 19) ts) with (run (books p) c).
  assert (fst (run (books p) c) = Applied) as Happ.
  { apply (add_applies (books p) M (pa_mgr p M (si_par _ _ _ Hs))); try done.
    - by eapply book_ready.
    - destruct Hfp. lia.
    - lia.
    - destruct (decide (flags (OrderTable.direct (orders_of p)).[r] = 0)); [done|]. by destruct B4; apply (si_refs _ _ _ Hs).
    - apply (page_room_of (books p) M (Profile.ever_active_pages s') l); [apply (si_par _ _ _ Hs)| | |exact Hpg].
      + intros i Hi. apply (gr_pages _ _ _ Hgrow). by apply (si_roots _ _ _ Hs).
      + rewrite <- (u32_id _ Hfp), <- pageKey_root; done. }
  assert (command_of msg = Some c) as Hcmd by (unfold command_of; by destruct Ht as [-> | ->]).
  refine (sim_command s s' p M msg c _ _ 40 Hs He Hcmd _ _ Hph Happ Hc Hgrow B8 _ _).
  - split; [apply Hfp|exact Hfq].
  - discriminate.
  - intros i E. assert (Profile.pageKey l (readU32BE msg 32) = i) as <-; [|exact B9]. rewrite pageKey_root by done. exact (Some_inj _ _ E).
  - unfold c. cbn [effect]. by rewrite fmap_insert.
Qed.

Lemma sim_execute : byteAt msg 0 = ch "E" ∨ byteAt msg 0 = ch "C" → (31 <= length msg)%nat →
  follows s' p M (applyExecution p msg l) ∧ (byteAt msg 0 = ch "C" → readU32BE msg 32 <= kMaxItchPrice4).
Proof.
  intros Ht Hlen. assert (fits 32 (readU32BE msg 19)) as Hfq by (apply (read32_range msg 19 Hw); lia).
  destruct (body_execution s msg (si_clean _ _ _ Hs) Hpages Hc Ht) as (B1&o&B2&B3&B4&B5&B6).
  split; [|done]. destruct (certified_record s p M r o Hs B2) as (st&Hst&Habs&El&Eq&Hq). rewrite <- Eq in B5, B6.
  unfold applyExecution. set (c := ExecuteOrder l r (readU32BE msg 19) ts).
  change (BookManager.executeOrder (books p) l r (readU32BE msg 19) ts) with (run (books p) c).
  assert (fst (run (books p) c) = Applied) as Happ.
  { unfold c. rewrite <- B3, <- El. apply (execute_applies (books p) M (pa_mgr p M (si_par _ _ _ Hs))); [done|done|]. destruct Hfq. lia. }
  assert (command_of msg = Some c) as Hcmd by (unfold command_of; by destruct Ht as [-> | ->]).
  refine (sim_command s s' p M msg c _ _ 40 Hs He Hcmd Hfq _ Hph Happ Hc Hgrow B6 _ _); [discriminate|done|].
  unfold c. cbn [effect]. rewrite lookup_fmap, B2. cbn [fmap option_fmap option_map BookOps.o_qty absOrder].
    rewrite <- Eq. destruct (_ =? _) eqn:E; [by rewrite fmap_delete|]. rewrite fmap_insert. f_equal.
    unfold reduceBy, absOrder, Profile.with_order_qty. cbn. rewrite <- Eq, u32_id; [done|]. unfold fits. apply Z.eqb_neq in E. destruct Hfq. lia.
Qed.

Lemma sim_cancel : byteAt msg 0 = ch "X" → (23 <= length msg)%nat → follows s' p M (handleCancel p msg l).
Proof.
  intros Ht Hlen. assert (fits 32 (readU32BE msg 19)) as Hfq by (apply (read32_range msg 19 Hw); lia).
  destruct (body_cancel s msg (si_clean _ _ _ Hs) Hpages Hc Ht) as (o&B2&B3&B4&B5&B6).
  destruct (certified_record s p M r o Hs B2) as (st&Hst&Habs&El&Eq&Hq). rewrite <- Eq in B5, B6.
  unfold handleCancel. set (c := CancelShares l r (readU32BE msg 19) ts).
  change (BookManager.cancelShares (books p) l r (readU32BE msg 19) ts) with (run (books p) c).
  assert (fst (run (books p) c) = Applied) as Happ.
  { unfold c. rewrite <- B3, <- El. apply (cancel_applies (books p) M (pa_mgr p M (si_par _ _ _ Hs))); [done|done|]. destruct Hfq. lia. }
  assert (command_of msg = Some c) as Hcmd by (unfold command_of; by rewrite Ht).
  refine (sim_command s s' p M msg c _ _ 40 Hs He Hcmd Hfq _ Hph Happ Hc Hgrow B6 _ _); [discriminate|done|].
  unfold c. cbn [effect]. rewrite (alter_some _ _ _ (absOrder o)) by (by rewrite lookup_fmap, B2). rewrite fmap_insert. f_equal.
    unfold reduceBy, absOrder, Profile.with_order_qty. cbn. rewrite <- Eq, u32_id; [done|]. unfold fits. destruct Hfq. lia.
Qed.

Lemma sim_delete : byteAt msg 0 = ch "D" → follows s' p M (handleDelete p msg l).
Proof.
  intros Ht. destruct (body_delete s msg (si_clean _ _ _ Hs) Hpages Hc Ht) as (o&B2&B3&B6).
  destruct (certified_record s p M r o Hs B2) as (st&Hst&Habs&El&Eq&Hq).
  unfold handleDelete. set (c := DeleteOrder l r ts). change (BookManager.deleteOrder (books p) l r ts) with (run (books p) c).
  assert (fst (run (books p) c) = Applied) as Happ.
  { unfold c. rewrite <- B3, <- El. by apply (delete_applies (books p) M (pa_mgr p M (si_par _ _ _ Hs))). }
  assert (command_of msg = Some c) as Hcmd by (unfold command_of; by rewrite Ht).
  refine (sim_command s s' p M msg c _ _ 40 Hs He Hcmd I _ Hph Happ Hc Hgrow B6 _ _); [discriminate|done|].
  unfold c. cbn [effect]. by rewrite fmap_delete.
Qed.

Lemma sim_replace : byteAt msg 0 = ch "U" → (35 <= length msg)%nat → follows s' p M (handleReplace p msg l).
Proof.
  intros Ht Hlen. assert (fits 32 (readU32BE msg 31)) as Hfp by (apply (read32_range msg 31 Hw); lia).
  assert (fits 32 (readU32BE msg 27)) as Hfq by (apply (read32_range msg 27 Hw); lia).
  destruct (body_replace s msg (si_clean _ _ _ Hs) Hpages Hc locate_ok Ht Hfp (read64_nonneg msg 19 Hw)) as (B1&B2&B3&B4&B5&B6&o&B7&B8&B9&B10).
  destruct (certified_record s p M r o Hs B7) as (st&Hst&Habs&El&Eq&Hq).
  unfold handleReplace. rewrite (proj2 (Z.eqb_neq (readU64BE msg 19) r)) by congruence.
  set (c := ReplaceOrder l r (readU64BE msg 19) (readU32BE msg 31) (readU32BE msg 27) ts).
  change (BookManager.replaceOrder (books p) l r (readU64BE msg 19) (readU32BE msg 31) (readU32BE msg 27) ts) with (run (books p) c).
  assert (fst (run (books p) c) = Applied) as Happ.
  { unfold c. rewrite <- B8, <- El. apply (replace_applies (books p) M (pa_mgr p M (si_par _ _ _ Hs))); try done.
    - destruct Hfp. lia.
    - split; [by apply read64_nonneg|lia].
    - destruct (decide (flags (OrderTable.direct (orders_of p)).[readU64BE msg 19] = 0)); [done|].
      by destruct B4; apply (si_refs _ _ _ Hs); [by apply read64_nonneg|].
    - rewrite El, B8. apply (page_room_of (books p) M (Profile.ever_active_pages s') l); [apply (si_par _ _ _ Hs)| | |exact Hpg].
      + intros i Hi. apply (gr_pages _ _ _ Hgrow). by apply (si_roots _ _ _ Hs).
      + rewrite <- (u32_id _ Hfp), <- pageKey_root; done. }
  assert (command_of msg = Some c) as Hcmd by (unfold command_of; by rewrite Ht).
  refine (sim_command s s' p M msg c _ _ 40 Hs He Hcmd _ _ Hph Happ Hc Hgrow B9 _ _).
  - split; [apply Hfp|exact Hfq].
  - discriminate.
  - intros i E. assert (Profile.pageKey l (readU32BE msg 31) = i) as <-; [|exact B10]. rewrite pageKey_root by done. exact (Some_inj _ _ E).
  - unfold c. cbn [effect]. rewrite lookup_fmap, B7. cbn [fmap option_fmap option_map]. by rewrite fmap_insert, fmap_delete.
Qed.

End commands.

End ProfileSim.
