(* ===== verification/ProfileDay.v ===== *)
(** Directory messages, system events and whole days: the parser accepts every message
    of a day the profiler finds clean. *)
From stdpp Require Import base list gmap strings.
From Stdlib Require Import ZArith Lia Ascii.
From S2P Require Import Prelude Bits Bitmap BookTypes Orders Prices PricesInv PricesAdd PricesErase.
From S2P Require Import PricesRead Book BookInv BookOps Probe Directory Manager ManagerInv ManagerProps Protocol Parser ParserInv.
From S2P Require Import Gap Decoder DecoderInv Replay ReplayInv Sha Capacity Footprint Profile ProfileInv ProfileClean.
From S2P Require Import ProfileSteps ProfileBodies ProfileText ProfileRuns ProfileSim.
#[local] Open Scope Z_scope.
#[local] Open Scope astra_scope.

Module ProfileDay.
Import Protocol ManagerInv ItchParser ParserInv ProfileClean ProfileSteps ProfileBodies ProfileText ProfileRuns ProfileSim.
Implicit Types (s : Profile.Stats) (p : ItchParser.t) (M : gmap Z OrderState).

(** ** The directory *)

Lemma tickerOf_get d l : fits 16 l → StockDirectory.tickerOf d l = StockDirectory.tickerView <$> StockDirectory.get d l.
Proof. intros Hl. unfold StockDirectory.tickerOf. rewrite StockDirectory.get_registered by done. by destruct (StockDirectory.isRegistered d l). Qed.

(** A ticker of the parser's directory is the profiler's ticker. *)
Lemma ticker_known s p M l tk : sim s p M → text tk → good_locate l →
  StockDirectory.tickerOf (symbols p) l = Some (trim tk) → Profile.directory s !! l = Some tk.
Proof.
  intros Hs Ht Hg E. rewrite (si_dir _ _ _ Hs l Hg) in E. destruct (Profile.directory s !! l) as [i|] eqn:Ei; [|done].
  injection E as E. f_equal. apply trim_inj; [apply (si_text _ _ _ Hs l i Ei)|done|done].
Qed.

(** The two directories after an accepted registration. *)
Lemma sim_registered s s' p M d' l tk e :
  sim s p M → same_books s s' → clean s' → events s' = events s →
  Profile.system_hours_started s' = Profile.system_hours_started s →
  Profile.system_hours_ended s' = Profile.system_hours_ended s → good_locate l → text tk →
  match Profile.directory s !! l with
  | Some i => i = tk ∧ Profile.directory s' = Profile.directory s ∧
      Profile.directory_ticker_locates s' = Profile.directory_ticker_locates s
  | None => (∀ l', Profile.directory_ticker_locates s !! Profile.tickerKey tk = Some l' → l' = l) ∧
      Profile.directory s' = <[l := tk]> (Profile.directory s) ∧
      Profile.directory_ticker_locates s' = <[Profile.tickerKey tk := l]> (Profile.directory_ticker_locates s)
  end →
  StockDirectory.get d' l = Some (StockDirectory.canonicalEntry l e (StockDirectory.tickerView e)) →
  StockDirectory.tickerView e = trim tk → (∀ l', l' ≠ l → StockDirectory.get d' l' = StockDirectory.get (symbols p) l') →
  ∀ p' M', par_ok p' M' → BookOps.abs <$> M' = BookOps.abs <$> M → symbols p' = d' → Footprint.stores p' = Footprint.stores p →
  channel_phase p' = channel_phase p → sim s' p' M'.
Proof.
  intros Hs Hb Hc Ee Est Een Hg Htx Hdir Hget Hv Hother p' M' Hp' Habs Esym Estores Eph.
  injection Estores as E1 E2 E3 E4. pose proof (StockDirectory.good_fits l Hg) as Hfl. split; try done.
  - rewrite Habs, (si_live _ _ _ Hs). by rewrite (sb_live _ _ Hb).
  - intros x Hx Hf. rewrite (claimed_same s s') by done. apply (si_refs _ _ _ Hs x Hx). by rewrite <- E4.
  - intros i Hi. rewrite (sb_ever _ _ Hb). apply (si_roots _ _ _ Hs). by rewrite <- E3.
  - eapply pages_same; [exact Hb|apply (si_pages _ _ _ Hs)].
  - rewrite Ee, Eph. apply (si_events _ _ _ Hs).
  - rewrite Ee, Est. apply (si_started _ _ _ Hs).
  - rewrite Ee, Een. apply (si_ended _ _ _ Hs).
  - intros l' tk'. destruct (Profile.directory s !! l) as [i|].
    { destruct Hdir as (_&->&->). apply (si_text _ _ _ Hs). }
    destruct Hdir as (Hkey&->&->). rewrite !lookup_insert. case_decide as El.
    + intros [= <-]. subst l'. split; [done|]. split; [done|]. by rewrite decide_True.
    + intros Hd. destruct (si_text _ _ _ Hs l' tk' Hd) as (Ht'&Hg'&Hk'). split; [done|]. split; [done|].
      case_decide as Ek; [|done]. rewrite <- Ek in Hk'. by destruct El; rewrite (Hkey l' Hk').
  - intros l' Hg'. rewrite Esym, (tickerOf_get d' l' (StockDirectory.good_fits l' Hg')).
    destruct (decide (l' = l)) as [->|Hne].
    + rewrite Hget. cbn [fmap option_fmap option_map]. rewrite StockDirectory.canonical_view, Hv.
      destruct (Profile.directory s !! l) as [i|] eqn:Ei; [destruct Hdir as (->&->&_); by rewrite Ei|].
      destruct Hdir as (_&->&_). by rewrite lookup_insert_eq.
    + rewrite Hother by done. rewrite <- (tickerOf_get _ l' (StockDirectory.good_fits l' Hg')), (si_dir _ _ _ Hs l' Hg').
      destruct (Profile.directory s !! l); [by destruct Hdir as (_&->&_)|]. destruct Hdir as (_&->&_). by rewrite lookup_insert_ne.
  - intros l' e'. rewrite Esym. destruct (decide (l' = l)) as [->|Hne].
    + rewrite Hget. intros [= <-]. apply canonical_entry.
    + rewrite Hother by done. apply (si_canon _ _ _ Hs).
Qed.

(** Why the parser accepts the registration. *)
Lemma registration_accepted s p M l tk e :
  sim s p M → good_locate l → text tk → trim tk ≠ [] → StockDirectory.tickerView e = trim tk →
  match Profile.directory s !! l with
  | Some i => i = tk
  | None => ∀ l', Profile.directory_ticker_locates s !! Profile.tickerKey tk = Some l' → l' = l
  end →
  (match StockDirectory.get (symbols p) l with
   | Some ex => negb (bool_decide (StockDirectory.viewUpTo 9 (StockDirectory.ticker ex) = trim tk))
   | None => false
   end) = false ∧
  (StockDirectory.locateForTicker (symbols p) (trim tk) = kInvalidStockLocate ∨
   StockDirectory.locateForTicker (symbols p) (trim tk) = l) ∧
  StockDirectory.acceptable (symbols p) l (StockDirectory.tickerView e).
Proof.
  intros Hs Hg Htx Hne Hv Hdir. pose proof (StockDirectory.good_fits l Hg) as Hfl. rewrite Hv.
  pose proof (pa_dir p M (si_par _ _ _ Hs)) as Hd. pose proof (si_dir _ _ _ Hs l Hg) as Hl.
  destruct (Profile.directory s !! l) as [i|] eqn:Ei.
  - subst i. cbn [fmap option_fmap option_map] in Hl. split; [|split].
    + pose proof Hl as Hl'. rewrite tickerOf_get in Hl' by done. destruct (StockDirectory.get (symbols p) l) as [ex|] eqn:Ex; [|done].
      injection Hl' as Hl'. rewrite (si_canon _ _ _ Hs l ex Ex), Hl'. by rewrite bool_decide_eq_true_2.
    + right. apply StockDirectory.tickerOf_some in Hl as [Hr Hw]; [|done]. rewrite <- Hw. by apply StockDirectory.locateForTicker_hit.
    + split; [done|]. split; [done|]. by left.
  - cbn [fmap option_fmap option_map] in Hl. assert (∀ l', good_locate l' → StockDirectory.tickerOf (symbols p) l' ≠ Some (trim tk)) as Hno.
    { intros l' Hg' E. pose proof (ticker_known s p M l' tk Hs Htx Hg' E) as Hk. destruct (si_text _ _ _ Hs l' tk Hk) as (_&_&Hk').
      rewrite (Hdir l' Hk') in Hk. congruence. }
    split; [|split].
    + rewrite tickerOf_get in Hl by done. by destruct (StockDirectory.get (symbols p) l).
    + left. apply StockDirectory.locateForTicker_miss; [done|]. intros l' Hr Hw. apply (Hno l' (proj1 Hr)).
      by apply StockDirectory.tickerOf_some; [apply Hr|].
    + split; [done|]. split; [done|]. right. done.
Qed.

Lemma ticker_length msg off : (off + 8 <= length msg)%nat → length (Profile.tickerAt msg off) = 8%nat.
Proof. intros. unfold Profile.tickerAt, Profile.kTickerLength. rewrite length_take, length_drop. lia. Qed.

(** A message without a mutation leaves the live orders. *)
Lemma no_effect M M' msg : BookOps.abs <$> M' = message_effect msg (BookOps.abs <$> M) → command_of msg = None →
  BookOps.abs <$> M' = BookOps.abs <$> M ∧ size M' = size M.
Proof.
  unfold message_effect. intros E Hc. rewrite Hc in E. split; [done|]. by rewrite <- (map_size_fmap BookOps.abs M'), E, map_size_fmap.
Qed.

Lemma sim_directory s p M msg :
  sim s p M → last_error p = ""%string → well_formed msg → byteAt msg 0 = ch "R" →
  channel_phase p ≠ WaitingStartOfMessages → clean (Profile.observeBody s msg) → text (Profile.tickerAt msg 11) →
  follows (Profile.observeBody s msg) p M (handleStockDirectory p msg).
Proof.
  intros Hs He Hw Ht Hph Hc Htx. pose proof (well_formed_length msg "R" 39 Hw Ht eq_refl) as Hlen.
  assert (Profile.observeBody s msg = Profile.observeDirectory s (readU16BE msg 1) msg) as Eb by (unfold Profile.observeBody; by rewrite Ht).
  pose proof (parsed_directory p M msg (si_par _ _ _ Hs) Hw Ht He Hph) as (_&M'&Hp'&Heff&_).
  rewrite Eb in Hc |- *. set (l := readU16BE msg 1) in *. set (tk := Profile.tickerAt msg 11) in *.
  destruct (observeDirectory_clean s l msg (si_clean _ _ _ Hs) Hc) as (Hl0&Hid&Hbk&Eev&Est&Een&Hdir). fold tk in Hid, Hdir.
  assert (good_locate l) as Hg by (pose proof (locate_fits msg Hw) as [? ?]; unfold good_locate, kStockLocateSlots; fold l in H, H0; lia).
  assert (trim tk ≠ []) as Hne by (apply trim_nonempty; [apply ticker_length; lia|done]).
  pose proof (entry_view msg l tk Htx) as Hv. set (e := directoryEntry msg l (trim tk)) in *.
  destruct (registration_accepted s p M l tk e Hs Hg Htx Hne Hv) as (A1&A2&A3).
  { destruct (Profile.directory s !! l); by destruct Hdir. }
  destruct (StockDirectory.set_spec (symbols p) l e (pa_dir p M (si_par _ _ _ Hs)) (StockDirectory.good_fits l Hg)) as (S1&_&S3).
  destruct (S3 (proj2 S1 A3)) as (_&Hget&Hother&_). pose proof (proj2 S1 A3) as Hset.
  assert (∃ b', handleStockDirectory p msg = with_books (with_symbols p (snd (StockDirectory.set (symbols p) l e))) b' ∧
    Footprint.stores (with_books (with_symbols p (snd (StockDirectory.set (symbols p) l e))) b') = Footprint.stores p) as (b'&Eh&Est').
  { unfold handleStockDirectory. fold l. rewrite fixedText_trim. fold tk.
    rewrite (bool_decide_eq_false_2 (trim tk = [])), (good_locate_valid l Hg), A1 by done. cbn [negb orb].
    assert (negb (StockDirectory.locateForTicker (symbols p) (trim tk) =? kInvalidStockLocate) &&
      negb (StockDirectory.locateForTicker (symbols p) (trim tk) =? l) = false) as ->.
    { destruct A2 as [-> | ->]; [done|]. by rewrite Z.eqb_refl, andb_false_r. }
    rewrite (bool_decide_eq_false_2 _ Hph). fold e.
    pose proof (set_registered (symbols p) l e (pa_dir p M (si_par _ _ _ Hs)) Hg Hset l Hg) as Hreg.
    destruct (StockDirectory.set (symbols p) l e) as [ok d']. cbn [fst snd] in Hset, Hreg |- *. subst ok. cbn [negb].
    destruct (books_prepared (with_symbols p d')) eqn:Ep.
    - destruct (createRegisteredBook_ok (with_symbols p d') M l (pa_mgr p M (si_par _ _ _ Hs)) Hg) as (b1&Ec&_);
        [apply Hreg; by left|]. exists b1. pose proof (Footprint.createRegisteredBook_stores (with_symbols p d') l) as Hst.
      rewrite Ec in Hst |- *. by split.
    - exists (books p). by destruct p. }
  rewrite Eh in Hp', Heff |- *. specialize (Heff He).
  destruct (no_effect M M' msg Heff) as [Habs Hsize]; [unfold command_of; by rewrite Ht|].
  split; [exact He|]. split; [injection Est' as E1 E2 E3 E4; cbn; congruence|]. exists M'. split; [|lia].
  eapply (sim_registered s _ p M _ l tk e Hs Hbk Hc Eev Est Een Hg Htx Hdir Hget Hv Hother); done.
Qed.

(** ** The day *)

(** The day may advance; the books and the directory are the same. *)
Lemma sim_phase s s' p p' M M' :
  sim s p M → same_books s s' → clean s' → Profile.directory s' = Profile.directory s →
  Profile.directory_ticker_locates s' = Profile.directory_ticker_locates s →
  par_ok p' M' → BookOps.abs <$> M' = BookOps.abs <$> M → symbols p' = symbols p → Footprint.stores p' = Footprint.stores p →
  events s' = phase_events (channel_phase p') → (Profile.system_hours_started s' = true → 2 <= events s') →
  (events s' = 5 → Profile.system_hours_ended s' = true) → sim s' p' M'.
Proof.
  intros Hs Hb Hc Hd1 Hd2 Hp' Habs Esym Estores Hev Hst Hen. injection Estores as E1 E2 E3 E4. split; try done.
  - rewrite Habs, (si_live _ _ _ Hs). by rewrite (sb_live _ _ Hb).
  - intros x Hx Hf. rewrite (claimed_same s s') by done. apply (si_refs _ _ _ Hs x Hx). by rewrite <- E4.
  - intros i Hi. rewrite (sb_ever _ _ Hb). apply (si_roots _ _ _ Hs). by rewrite <- E3.
  - eapply pages_same; [exact Hb|apply (si_pages _ _ _ Hs)].
  - rewrite Hd1, Hd2. apply (si_text _ _ _ Hs).
  - rewrite Hd1, Esym. apply (si_dir _ _ _ Hs).
  - rewrite Esym. apply (si_canon _ _ _ Hs).
Qed.

Lemma follows_phase s s' p p' M msg :
  sim s p M → same_books s s' → clean s' → Profile.directory s' = Profile.directory s →
  Profile.directory_ticker_locates s' = Profile.directory_ticker_locates s →
  parsed p M msg p' → command_of msg = None → last_error p' = ""%string →
  symbols p' = symbols p → Footprint.stores p' = Footprint.stores p →
  events s' = phase_events (channel_phase p') → (Profile.system_hours_started s' = true → 2 <= events s') →
  (events s' = 5 → Profile.system_hours_ended s' = true) → follows s' p M p'.
Proof.
  intros Hs Hb Hc Hd1 Hd2 (_&M'&Hp'&Heff&_) Hcmd He Esym Estores Hev Hst Hen.
  destruct (no_effect M M' msg (Heff He) Hcmd) as [Habs Hsize]. split; [done|].
  split; [injection Estores as E1 E2 E3 E4; congruence|]. exists M'. split; [|lia]. by eapply (sim_phase s).
Qed.

Lemma advance_allowed p next : allowedFrom next (channel_phase p) = true → snd (advancePhase p next) = with_phase p next.
Proof. intros E. unfold advancePhase. by rewrite E. Qed.

Lemma hours_accepted p M : par_ok p M → last_error p = ""%string → allowedFrom SystemHours (channel_phase p) = true →
  let p' := handleSystemHoursStart p in
  last_error p' = ""%string ∧ symbols p' = symbols p ∧ Footprint.stores p' = Footprint.stores p ∧ channel_phase p' = SystemHours.
Proof.
  intros Hp He Ea. unfold handleSystemHoursStart, advancePhase. rewrite Ea. cbn [negb]. destruct (books_prepared _); [done|].
  set (q := with_prepared (with_phase p SystemHours) true).
  destruct (createRegisteredBooks_ok q M (pa_mgr p M Hp)) as (b'&Ec&_). pose proof (Footprint.createRegisteredBooks_stores q) as Hst.
  rewrite Ec in Hst |- *. cbn [negb snd] in Hst |- *. split; [exact He|]. split; [reflexivity|]. split; [exact Hst|reflexivity].
Qed.

(** The parser's side of a daily event. *)
Lemma event_accepted p M msg :
  par_ok p M → last_error p = ""%string →
  Profile.kDailySystemEvents !! Z.to_nat (phase_events (channel_phase p)) = Some (byteAt msg kSystemEventCodeOffset) →
  (byteAt msg kSystemEventCodeOffset = ch "C" → size M = 0%nat) →
  let p' := handleSystemEvent p msg in
  last_error p' = ""%string ∧ symbols p' = symbols p ∧ Footprint.stores p' = Footprint.stores p ∧
  phase_events (channel_phase p') = phase_events (channel_phase p) + 1.
Proof.
  intros Hp He Hday Hend. unfold handleSystemEvent. set (code := byteAt msg kSystemEventCodeOffset) in *.
  destruct (channel_phase p) eqn:Eph; [..|discriminate Hday]; apply Some_inj in Hday; rewrite <- Hday in Hend |- *; pick.
  - by rewrite advance_allowed by (by rewrite Eph).
  - pose proof (hours_accepted p M Hp He ltac:(by rewrite Eph)) as (H1&H2&H3&H4). by rewrite H4.
  - pose proof (hours_accepted p M Hp He ltac:(by rewrite Eph)) as (H1&H2&H3&H4). by rewrite H4.
  - by rewrite advance_allowed by (by rewrite Eph).
  - by rewrite advance_allowed by (by rewrite Eph).
  - by rewrite advance_allowed by (by rewrite Eph).
  - rewrite (ManagerProps.total_live (books p) M (pa_mgr p M Hp)), (Hend eq_refl). cbn [Z.of_nat]. pick.
    by rewrite advance_allowed by (by rewrite Eph).
Qed.

Lemma sim_event s p M msg :
  sim s p M → last_error p = ""%string → byteAt msg 0 = ch "S" → channel_phase p ≠ EndOfMessages →
  clean (Profile.observeBody s msg) → (byteAt msg 11 = ch "C" → Profile.live_orders s = ∅) →
  follows (Profile.observeBody s msg) p M (handleSystemEvent p msg).
Proof.
  intros Hs He Ht Hph Hc Hlive. assert (Profile.observeBody s msg = Profile.observeSystemEvent s (byteAt msg 11)) as Eb by (unfold Profile.observeBody; by rewrite Ht).
  pose proof (parsed_event p M msg (si_par _ _ _ Hs) Ht He) as Hpar. rewrite Eb in Hc |- *. set (code := byteAt msg 11) in *.
  assert (0 <= events s <= 6) as Hev by (rewrite (si_events _ _ _ Hs); by destruct (channel_phase p)).
  destruct (observeSystemEvent_clean s code (si_clean _ _ _ Hs) ltac:(lia) Hc) as (Hday&Hbk&Hd1&Hd2&Hst&Hen).
  assert (command_of msg = None) as Hcmd by (unfold command_of; by rewrite Ht).
  assert (BookOps.abs <$> M = absOrder <$> Profile.live_orders s) as Hlv by apply (si_live _ _ _ Hs).
  unfold day_advances in Hday. case_bool_decide as Ed.
  - destruct Hday as [Hd He']. rewrite (si_events _ _ _ Hs) in Hd.
    destruct (event_accepted p M msg (si_par _ _ _ Hs) He Hd) as (P1&P2&P3&P4).
    { intros Ec. rewrite (Hlive Ec), fmap_empty in Hlv. by apply fmap_empty_inv in Hlv as ->. }
    eapply (follows_phase s); try done.
    + by rewrite He', P4, (si_events _ _ _ Hs).
    + rewrite Hst, He'. intros [H|H%Z.eqb_eq]%orb_true_iff; [pose proof (si_started _ _ _ Hs H); lia|].
      rewrite H in Hd. rewrite (si_events _ _ _ Hs). destruct (channel_phase p); try done; cbn; lia.
    + rewrite Hen, He', (si_events _ _ _ Hs). intros E5. destruct (channel_phase p); cbn in E5; try lia.
      apply Some_inj in Hd. by rewrite <- Hd.
  - destruct Hday as [Ha He']. assert (handleSystemEvent p msg = p) as Ep.
    { unfold handleSystemEvent. change (byteAt msg kSystemEventCodeOffset) with code. destruct Ha as [-> | [-> | ->]]; pick; done. }
    rewrite Ep in Hpar |- *. eapply (follows_phase s); try done.
    + by rewrite He', (si_events _ _ _ Hs).
    + rewrite Hst, He'. intros [H|H%Z.eqb_eq]%orb_true_iff; [by apply (si_started _ _ _ Hs)|]. rewrite H in Ha. naive_solver.
    + rewrite Hen, He'. intros E5. destruct Ha as [-> | [-> | ->]]; by apply (si_ended _ _ _ Hs).
Qed.

(** ** Other messages *)

Lemma sim_other s p M msg p' :
  sim s p M → clean (Profile.observeBody s msg) → same s (Profile.observeBody s msg) →
  parsed p M msg p' → command_of msg = None → last_error p' = ""%string → symbols p' = symbols p → books p' = books p →
  phase_events (channel_phase p') = phase_events (channel_phase p) → follows (Profile.observeBody s msg) p M p'.
Proof.
  intros Hs Hc [[D1 D2 D3 D4 D5] Hb] Hp Hcmd He Esym Ebooks Eph. eapply (follows_phase s); try done.
  - by rewrite Ebooks.
  - by rewrite D3, Eph, (si_events _ _ _ Hs).
  - rewrite D3, D4. apply (si_started _ _ _ Hs).
  - rewrite D3, D5. apply (si_ended _ _ _ Hs).
Qed.

(** ** A message *)

Lemma event_fields m code : ItchMoldUdpSource.hasEventCode m code = true → byteAt m 0 = ch "S" ∧ byteAt m 11 = ch code.
Proof. unfold ItchMoldUdpSource.hasEventCode, ItchMoldUdpSource.isSystemEvent. intros [H1%Z.eqb_eq H2%Z.eqb_eq]%andb_true_iff. done. Qed.

Lemma message_guard_passes s p M m :
  sim s p M → ReplayInv.record_ok m → readU48BE m 5 < kNanosecondsPerDay →
  (events s = 0 → ItchMoldUdpSource.hasEventCode m "O" = true) → channel_phase p ≠ EndOfMessages →
  (Profile.system_hours_ended s = true →
    byteAt m 0 = ch "X" ∨ byteAt m 0 = ch "D" ∨ byteAt m 0 = ch "B" ∨ (byteAt m 0 = ch "S" ∧ byteAt m 11 = ch "C")) →
  dispatchGuard p m = None.
Proof.
  intros Hs Hm Hts Hfirst Hend Hlate. unfold dispatchGuard. cbn zeta. change (readU48BE m kTimestampOffset) with (readU48BE m 5).
  rewrite (proj2 (Z.leb_gt _ _) Hts). assert ((byteAt m 0 =? ch "S") && negb (readU16BE m 1 =? 0) = false) as ->.
  { destruct (byteAt m 0 =? ch "S") eqn:E; [|done]. pose proof (ReplayInv.record_length m Hm). destruct Hm as [(Hb&_) Hl].
    by rewrite (proj2 (ProfileInv.system_locate m Hb ltac:(lia)) (Hl E)). }
  assert (bool_decide (channel_phase p = WaitingStartOfMessages) &&
    (negb (byteAt m 0 =? ch "S") || negb ((if byteAt m 0 =? ch "S" then byteAt m kSystemEventCodeOffset else 0) =? ch "O")) = false) as ->.
  { case_bool_decide as Ew; [|done]. cbn [andb]. destruct (event_fields m "O") as [-> E]; [apply Hfirst; by rewrite (si_events _ _ _ Hs), Ew|].
    pick. change (byteAt m kSystemEventCodeOffset) with (byteAt m 11). by rewrite E. }
  rewrite (bool_decide_eq_false_2 _ Hend). case_bool_decide as Ep; [|done].
  assert (events s = 5) as E5 by (by rewrite (si_events _ _ _ Hs), Ep).
  destruct (Hlate (si_ended _ _ _ Hs E5)) as [-> | [-> | [-> | [-> Ec]]]]; pick; try done.
  change (byteAt m kSystemEventCodeOffset) with (byteAt m 11). rewrite Ec. by pick.
Qed.

Section message.
Context (s : Profile.Stats) (p : ItchParser.t) (M : gmap Z OrderState) (m : list Z).
Context (Hs : sim s p M) (He : last_error p = ""%string) (Hm : ReplayInv.record_ok m) (Hph : channel_phase p ≠ EndOfMessages).
Context (Hguard : dispatchGuard p m = None).
Context (Hstart : Profile.bookType (byteAt m 0) = true → Profile.system_hours_started s = true).
Context (Hc : clean (Profile.observeBody s m)) (Hsz : Z.of_nat (size M) < max_u32).
Context (Href : max_ref (Profile.observeBody s m) < OrderTable.direct_slots (orders_of p)).
Context (Hpg : Z.of_nat (size (Profile.ever_active_pages (Profile.observeBody s m))) <= PriceLevelStore.page_capacity (prices_of p)).
Context (Htext : byteAt m 0 = ch "R" → text (Profile.tickerAt m 11)).
Context (Hlast : ItchMoldUdpSource.hasEventCode m "C" = true → Profile.live_orders s = ∅).

Let Hw : well_formed m := proj1 Hm.

Lemma sim_dispatch : follows (Profile.observeBody s m) p M (snd (dispatchType p m)).
Proof.
  destruct (guard_phase p m Hguard) as [_ Hwait]. unfold dispatchType. cbn zeta.
  assert (∀ c n, byteAt m 0 = ch c → expectedItchMessageLength (ch c) = Z.of_nat n → length m = n) as Hlen.
  { intros c n. by apply well_formed_length. }
  destruct (Z.eqb_spec (byteAt m 0) (ch "A")) as [E|EA].
  { cbn [snd]. apply sim_add; try done; [by left|]. by rewrite (Hlen "A"%char 36%nat E eq_refl). }
  destruct (Z.eqb_spec (byteAt m 0) (ch "F")) as [E|EF].
  { cbn [snd]. apply sim_add; try done; [by right|]. rewrite (Hlen "F"%char 40%nat E eq_refl). lia. }
  destruct (Z.eqb_spec (byteAt m 0) (ch "E")) as [E|EE].
  { cbn [snd]. eapply sim_execute; try done; [by left|]. by rewrite (Hlen "E"%char 31%nat E eq_refl). }
  destruct (Z.eqb_spec (byteAt m 0) (ch "C")) as [E|EC].
  { cbn [snd]. unfold handleOrderExecutedWithPrice.
    destruct (sim_execute s p M m Hs He Hw Hph Hc ltac:(by right)) as [Hf Hp]; [rewrite (Hlen "C"%char 36%nat E eq_refl); lia|].
    unfold isValidItchPrice4. rewrite (proj2 (Z.leb_le _ _) (Hp E)). exact Hf. }
  destruct (Z.eqb_spec (byteAt m 0) (ch "X")) as [E|EX].
  { cbn [snd]. apply sim_cancel; try done. by rewrite (Hlen "X"%char 23%nat E eq_refl). }
  destruct (Z.eqb_spec (byteAt m 0) (ch "D")) as [E|ED]; [cbn [snd]; by apply sim_delete|].
  destruct (Z.eqb_spec (byteAt m 0) (ch "U")) as [E|EU].
  { cbn [snd]. apply sim_replace; try done. by rewrite (Hlen "U"%char 35%nat E eq_refl). }
  assert (Profile.bookType (byteAt m 0) = false) as Hbt.
  { unfold Profile.bookType. cbn [existsb fmap list_fmap]. by rewrite !(proj2 (Z.eqb_neq _ _)) by assumption. }
  assert (command_of m = None) as Hcmd.
  { unfold command_of. by rewrite !(proj2 (Z.eqb_neq _ _)) by assumption. }
  pose proof (dispatch_parsed p M m (si_par _ _ _ Hs) He Hw) as Hpar. unfold dispatchMessage in Hpar. rewrite Hguard in Hpar.
  unfold dispatchType in Hpar. cbn zeta in Hpar.
  rewrite (proj2 (Z.eqb_neq _ _) EA), (proj2 (Z.eqb_neq _ _) EF), (proj2 (Z.eqb_neq _ _) EE), (proj2 (Z.eqb_neq _ _) EC),
    (proj2 (Z.eqb_neq _ _) EX), (proj2 (Z.eqb_neq _ _) ED), (proj2 (Z.eqb_neq _ _) EU) in Hpar.
  destruct (Z.eqb_spec (byteAt m 0) (ch "B")) as [E|EB].
  { cbn [snd] in Hpar |- *. apply sim_other; try done. apply body_other; [done|by rewrite E..]. }
  destruct (Z.eqb_spec (byteAt m 0) (ch "R")) as [E|ER]; cbn [snd] in Hpar |- *.
  { apply sim_directory; try done; [|by apply Htext]. intros Ew. specialize (Hwait Ew). by rewrite E in Hwait. }
  destruct (Z.eqb_spec (byteAt m 0) (ch "S")) as [E|ES]; cbn [snd] in Hpar |- *.
  { apply sim_event; try done. intros Ec. apply Hlast. unfold ItchMoldUdpSource.hasEventCode, ItchMoldUdpSource.isSystemEvent.
    by rewrite E, Ec. }
  pose proof (body_other s m Hbt ER ES) as Hsame. destruct (adminType (byteAt m 0)); cbn [snd] in Hpar |- *.
  - apply sim_other; try done; unfold markStartupAdminMessage; case_bool_decide as Esp; try done. by rewrite Esp.
  - by apply sim_other.
Qed.

End message.

(** Only the daily events advance the day, each in its turn. *)
Lemma body_events s p M m : sim s p M → ReplayInv.record_ok m → clean (Profile.observeBody s m) →
  (byteAt m 0 = ch "S" ∧ Profile.kDailySystemEvents !! Z.to_nat (events s) = Some (byteAt m 11) ∧
   events (Profile.observeBody s m) = events s + 1) ∨
  (events (Profile.observeBody s m) = events s ∧ (byteAt m 0 = ch "S" → byteAt m 11 ∉ Profile.kDailySystemEvents)).
Proof.
  intros Hs [Hw _] Hc. pose proof (si_clean _ _ _ Hs) as Hcs. pose proof (si_pages _ _ _ Hs) as Hp.
  pose proof (locate_fits m Hw) as Hl. pose proof (read64_nonneg m 11 Hw) as Hr.
  assert (∀ live' new, byteAt m 0 ≠ ch "S" → step s (Profile.observeBody s m) live' new →
    events (Profile.observeBody s m) = events s ∧ (byteAt m 0 = ch "S" → byteAt m 11 ∉ Profile.kDailySystemEvents)) as Hstep.
  { intros live' new Hne [Hd _ _ _]. by rewrite (sd_events _ _ Hd). }
  assert (∀ c n, byteAt m 0 = ch c → expectedItchMessageLength (ch c) = Z.of_nat n → length m = n) as Hlen.
  { intros c n. by apply well_formed_length. }
  destruct (Profile.bookType (byteAt m 0)) eqn:Eb.
  - right. unfold Profile.bookType in Eb. cbn [existsb fmap list_fmap] in Eb. rewrite !orb_true_iff, !Z.eqb_eq in Eb.
    destruct Eb as [E|[E|[E|[E|[E|[E|[E|?]]]]]]]; [| | | | | | |done].
    + destruct (body_add s m Hcs Hp Hc Hl Hr ltac:(by left)) as (_&_&_&_&_&_&_&H&_); [|by eapply Hstep; [rewrite E|]].
      apply (read32_range m 32 Hw). rewrite (Hlen "A"%char 36%nat E eq_refl). lia.
    + destruct (body_add s m Hcs Hp Hc Hl Hr ltac:(by right)) as (_&_&_&_&_&_&_&H&_); [|by eapply Hstep; [rewrite E|]].
      apply (read32_range m 32 Hw). rewrite (Hlen "F"%char 40%nat E eq_refl). lia.
    + destruct (body_execution s m Hcs Hp Hc ltac:(by left)) as (_&o&_&_&_&_&H). by eapply Hstep; [rewrite E|].
    + destruct (body_execution s m Hcs Hp Hc ltac:(by right)) as (_&o&_&_&_&_&H). by eapply Hstep; [rewrite E|].
    + destruct (body_cancel s m Hcs Hp Hc E) as (o&_&_&_&_&H). by eapply Hstep; [rewrite E|].
    + destruct (body_delete s m Hcs Hp Hc E) as (o&_&_&H). by eapply Hstep; [rewrite E|].
    + destruct (body_replace s m Hcs Hp Hc Hl E) as (_&_&_&_&_&_&o&_&_&H&_); [| |by eapply Hstep; [rewrite E|]].
      * apply (read32_range m 31 Hw). rewrite (Hlen "U"%char 35%nat E eq_refl). lia.
      * by apply read64_nonneg.
  - destruct (Z.eqb_spec (byteAt m 0) (ch "R")) as [E|ER].
    { right. assert (Profile.observeBody s m = Profile.observeDirectory s (readU16BE m 1) m) as Eo by (unfold Profile.observeBody; by rewrite E).
      rewrite Eo in *. destruct (observeDirectory_clean s _ m Hcs Hc) as (_&_&_&Ee&_). by rewrite E. }
    destruct (Z.eqb_spec (byteAt m 0) (ch "S")) as [E|ES].
    + assert (Profile.observeBody s m = Profile.observeSystemEvent s (byteAt m 11)) as Eo by (unfold Profile.observeBody; by rewrite E).
      rewrite Eo in *. assert (0 <= events s <= 6) as Hev by (rewrite (si_events _ _ _ Hs); by destruct (channel_phase p)).
      destruct (observeSystemEvent_clean s _ Hcs ltac:(lia) Hc) as (Hday&_). unfold day_advances in Hday. case_bool_decide.
      * left. by destruct Hday.
      * right. by destruct Hday.
    + right. destruct (body_other s m Eb ER ES) as [Hd _]. by rewrite (sd_events _ _ Hd).
Qed.

Lemma end_events s p M : sim s p M → channel_phase p = EndOfMessages ↔ events s = 6.
Proof. intros Hs. rewrite (si_events _ _ _ Hs). by destruct (channel_phase p). Qed.

(** A message that keeps the profile clean is accepted. *)
Lemma sim_message s p M m :
  sim s p M → ReplayInv.record_ok m → channel_phase p ≠ EndOfMessages →
  (events s = 0 → ItchMoldUdpSource.hasEventCode m "O" = true) → (byteAt m 0 = ch "R" → text (Profile.tickerAt m 11)) →
  (ItchMoldUdpSource.hasEventCode m "C" = true → Profile.live_orders s = ∅) → Z.of_nat (size M) < max_u32 →
  let s' := Profile.observeMessage (ProfileInv.counted s m) m in
  clean s' → max_ref s' < OrderTable.direct_slots (orders_of p) →
  Z.of_nat (size (Profile.ever_active_pages s')) <= PriceLevelStore.page_capacity (prices_of p) →
  let p' := snd (handlePrevalidatedMessage p m) in
  follows s' p M p' ∧ (channel_phase p' = EndOfMessages → ItchMoldUdpSource.hasEventCode m "C" = true) ∧ events s' ≠ 0.
Proof.
  intros Hs Hm Hph Hfirst Htext Hlast Hsz s'. subst s'. destruct (message_unfold s m Hm) as (t&->&Hst&Hgt). intros Hc Href Hpg.
  pose proof (clean_forward s t (si_clean _ _ _ Hs) Hgt) as Ht. pose proof (observeHeader_grows t m) as Hgh.
  assert (clean (Profile.observeHeader t m)) as Hh.
  { eapply (same_clean 8 t _ Ht Hgh ltac:(lia) _ 40); [apply observeBody_grows|lia|done]. }
  destruct (observeHeader_clean t m Ht Hh) as (H1&H2&H3).
  assert (same s (Profile.observeHeader t m)) as Hsame by (etrans; [exact Hst|apply observeHeader_same]).
  set (h := Profile.observeHeader t m) in *. pose proof (sim_same s h p M Hs Hsame Hh) as Hsh.
  pose proof Hst as [[_ _ T3 T4 T5] _]. pose proof Hsame as [[_ _ D3 D4 D5] Hb].
  unfold handlePrevalidatedMessage. pose proof (sim_status h p M false ""%string Hsh) as Hsp. set (q := with_status p false "") in *.
  assert (m ≠ []) as Hne by apply Hm. destruct m as [|ty rest]; [done|]. set (m := ty :: rest) in *.
  assert (dispatchGuard q m = None) as Hguard.
  { apply (message_guard_passes h q M m Hsp Hm H1); [by rewrite D3|exact Hph|]. rewrite D5, <- T5. exact H2. }
  unfold dispatchMessage. rewrite Hguard.
  assert (follows (Profile.observeBody h m) q M (snd (dispatchType q m))) as Hf.
  { apply sim_dispatch; try done; [rewrite D4, <- T4; exact H3|]. intros E. rewrite (sb_live _ _ Hb). by apply Hlast. }
  split; [exact Hf|]. destruct Hf as (_&_&M'&Hs'&_). rewrite (end_events _ _ _ Hs').
  assert (events h ≠ 6) as H6 by (intros E; by apply (end_events _ _ _ Hsp) in E).
  assert (0 <= events h) as H0 by (rewrite (si_events _ _ _ Hsp); by destruct (channel_phase q)).
  destruct (body_events h q M m Hsp Hm Hc) as [(ET&Ed&Ee)|[Ee Hno]]; rewrite Ee.
  - split; [|lia]. intros E6. assert (events h = 5) as E5 by lia. rewrite E5 in Ed. apply Some_inj in Ed.
    unfold ItchMoldUdpSource.hasEventCode, ItchMoldUdpSource.isSystemEvent. by rewrite ET, <- Ed.
  - split; [done|]. rewrite D3. intros E0. destruct (event_fields m _ (Hfirst E0)) as [ET EO]. apply (Hno ET). rewrite EO. by left.
Qed.

(** ** A day *)

Lemma profile_app s ms ms' : ProfileInv.profile s (ms ++ ms') = ProfileInv.profile (ProfileInv.profile s ms) ms'.
Proof. apply fold_left_app. Qed.

(** The tickers of a day's directory messages. *)
Definition texts (ms : list (list Z)) : Prop := Forall (λ m, byteAt m 0 = ch "R" → text (Profile.tickerAt m 11)) ms.

Lemma sim_day ms : ∀ s p M,
  sim s p M → Forall ReplayInv.record_ok ms → ReplayInv.ends_once ms → texts ms → channel_phase p ≠ EndOfMessages →
  (events s = 0 → ReplayInv.starts ms) → Z.of_nat (size M) + Z.of_nat (length ms) <= max_u32 →
  let s' := ProfileInv.profile s ms in
  clean s' → Profile.live_orders s' = ∅ → max_ref s' < OrderTable.direct_slots (orders_of p) →
  Z.of_nat (size (Profile.ever_active_pages s')) <= PriceLevelStore.page_capacity (prices_of p) →
  ∀ i, (i <= length ms)%nat →
    ((0 < i)%nat → last_error (DecoderInv.handle_all (take i ms) p) = ""%string) ∧
    ∃ M', sim (ProfileInv.profile s (take i ms)) (DecoderInv.handle_all (take i ms) p) M'.
Proof.
  induction ms as [|m ms IH]; intros s p M Hs Hms Hend Htx Hph Hst Hsz; [done|]. cbn zeta.
  change (ProfileInv.profile s (m :: ms)) with (ProfileInv.profile (Profile.observeMessage (ProfileInv.counted s m) m) ms).
  set (s1 := Profile.observeMessage (ProfileInv.counted s m) m). intros Hc Hlive Href Hpg.
  apply Forall_cons in Hms as [Hm Hms]. apply Forall_cons in Htx as [Htm Htx]. cbn [length] in Hsz.
  pose proof (profile_grows ms s1 Hms) as Hg. assert (grows 64 s s1) as Hg1.
  { apply (grows_trans 0 64 _ (ProfileInv.counted s m)); [apply counted_grows|by apply observeMessage_grows]. }
  assert (clean s1) as Hc1 by (eapply (clean_back 64 s s1 _ (si_clean _ _ _ Hs) Hg1 _ Hg); [unfold max_u32 in Hsz; lia|done]).
  pose proof (gr_ref _ _ _ Hg) as Hr1. pose proof (subseteq_size _ _ (gr_pages _ _ _ Hg)) as Hp1.
  set (p1 := snd (handlePrevalidatedMessage p m)).
  assert (ItchMoldUdpSource.hasEventCode m "C" = true → ms = []) as Hlast.
  { intros E. destruct ms; [done|]. destruct Hend as [E' _]. congruence. }
  assert (follows s1 p M p1 ∧ (channel_phase p1 = EndOfMessages → ItchMoldUdpSource.hasEventCode m "C" = true) ∧ events s1 ≠ 0)
    as (Hf&Hphase&Hev).
  { apply sim_message; try done; [|lia|fold s1; lia|fold s1; lia].
    intros E. pose proof (Hlast E) as ->. destruct (event_fields m _ E) as [ET _].
    destruct (message_unfold s m Hm) as (t&Eu&[_ Hbt]&_). unfold s1 in Hlive. cbn in Hlive. rewrite Eu in Hlive.
    destruct (observeHeader_same t m) as [_ Hbh]. rewrite <- (sb_live _ _ Hbt), <- (sb_live _ _ Hbh).
    etrans; [|exact Hlive]. unfold Profile.observeBody. rewrite ET. pick. unfold Profile.observeSystemEvent. cbn zeta.
    repeat case_match; done. }
  destruct Hf as (He&Esz&M1&Hs1&Hsz1). injection Esz as Ez1 Ez2.
  intros [|i] Hi; [split; [lia|by exists M]|].
  change (ProfileInv.profile s (take (S i) (m :: ms))) with (ProfileInv.profile s1 (take i ms)).
  change (DecoderInv.handle_all (take (S i) (m :: ms)) p) with (DecoderInv.handle_all (take i ms) p1).
  destruct i as [|i]; [split; [intros _; exact He|by exists M1]|]. destruct ms as [|m' ms']; [cbn in Hi; lia|].
  destruct Hend as [Hnc Hend]. destruct (IH s1 p1 M1 Hs1 Hms Hend Htx) with (i := S i) as [IH1 IH2].
  - intros E. by rewrite (Hphase E) in Hnc.
  - done.
  - cbn [length] in *. lia.
  - exact Hc.
  - exact Hlive.
  - by rewrite Ez1.
  - by rewrite Ez2.
  - cbn [length] in *. lia.
  - split; [intros _; apply IH1; lia|exact IH2].
Qed.

(** Before the first message. *)
Lemma sim_start direct buckets pages m id :
  fits 64 direct → fits 32 buckets → fits 32 pages → BookManager.make direct buckets pages = Some m →
  sim Profile.make (ItchParser.make StockDirectory.empty m id) ∅ ∧
  sizes (ItchParser.make StockDirectory.empty m id) = (direct, pages).
Proof.
  intros Hd Hb Hp Hm. pose proof (make_par_ok direct buckets pages m id Hd Hb Hp Hm) as Hok. unfold BookManager.make in Hm.
  unfold OrderTable.make in Hm. destruct (OrderTable.validateConfig _ _); [|done].
  unfold PriceLevelStore.make in Hm. destruct (PriceLevelStore.validatedConfig _); [|done]. injection Hm as <-. split; [|done]. split.
  - apply make_clean.
  - exact Hok.
  - done.
  - intros x _ Hf. cbn in Hf. by rewrite aget_empty in Hf.
  - intros i Hi. cbn in Hi. by rewrite aget_empty in Hi.
  - split; cbn; [intros k|intros l sd price _ _]; rewrite lookup_empty; by intros [].
  - reflexivity.
  - done.
  - discriminate.
  - intros l tk. cbn. by rewrite lookup_empty.
  - intros l Hg. rewrite (tickerOf_get _ l (StockDirectory.good_fits l Hg)). cbn [symbols ItchParser.make Profile.directory Profile.make].
    rewrite lookup_empty. unfold StockDirectory.get. cbn. rewrite aget_empty. by rewrite orb_true_r.
  - intros l e. unfold StockDirectory.get. cbn. rewrite aget_empty. by rewrite orb_true_r.
Qed.

End ProfileDay.
