(* ===== verification/ProfileProps.v ===== *)
(** What a certificate of the trace profiler is worth: it is given exactly to the complete
    and clean archives, its digests are those of the files, the two reconstructions of the
    books agree, and a deployment of the measured size processes the trace to its end. *)
From stdpp Require Import base list gmap strings.
From Stdlib Require Import ZArith Lia Ascii.
From S2P Require Import Prelude Bits BookTypes Orders Prices Book BookOps Directory Manager ManagerInv Probe Gap Protocol.
From S2P Require Import Parser ParserInv ManagerProps ParserProps Decoder DecoderInv DecoderProps Replay ReplayInv ReplayProps.
From S2P Require Import SessionProps Latency Engine EngineProps Sha Capacity Manifest ManifestProps Udp EngineMain EngineMainProps.
From S2P Require Import Profile ProfileInv ProfileClean ProfileSteps ProfileBodies ProfileText ProfileSim ProfileDay.
#[local] Open Scope string_scope.
#[local] Open Scope list_scope.
#[local] Open Scope Z_scope.
#[local] Open Scope astra_scope.

Module ProfileProps.
Import Protocol ReplayInv ReplayProps ParserInv BookOps ProfileInv ProfileClean ProfileText ProfileSim ProfileDay EngineMainProps.

(** ** Arguments and digests *)

Definition legacyOf (argv : list (list Z)) : bool :=
  Nat.eqb (length argv) 3 && bool_decide (nth 2 argv [] = ch <$> String.list_ascii_of_string "--allow-legacy-eof-after-sc").

(** A file, and perhaps the option. *)
Definition usage (argv : list (list Z)) : Prop := length argv = 2%nat ∨ legacyOf argv = true.

Lemma usage_ok argv : usage argv →
  Nat.ltb (length argv) 2 || Nat.ltb 3 (length argv) || (Nat.eqb (length argv) 3 && negb (legacyOf argv)) = false.
Proof.
  intros [H|H]; [by rewrite H|]. rewrite H. unfold legacyOf in H. apply andb_true_iff in H as [H%Nat.eqb_eq _]. by rewrite H.
Qed.

Lemma chunks_join n fuel (input : list Z) : (0 < n)%nat → (length input <= fuel)%nat → mjoin (Profile.chunks fuel n input) = input.
Proof.
  intros Hn. revert input. induction fuel as [|fuel IH]; intros input Hf; [by destruct input; cbn in *; [|lia]|].
  destruct input as [|b input]; [done|]. cbn [Profile.chunks]. unfold Profile.readBytes. change (mjoin (?x :: ?l)) with (x ++ mjoin l).
  rewrite IH; [apply take_drop|]. rewrite length_drop. cbn in *. lia.
Qed.

Lemma digest_chunks cs : Z.of_nat (length (mjoin cs)) <= Sha256.kMaximumBytes →
  ∃ d, Sha256.updates Sha256.make cs = inr d ∧ fst (Sha256.finalizeHex d) = Sha256.hexDigits (Sha256.sha256 (mjoin cs)).
Proof.
  intros Hle. destruct (Sha256.updates_absorbed cs [] Sha256.make Sha256.make_absorbed Hle) as (d&Hd&Ha). exists d. split; [done|].
  destruct (Sha256.finalize_absorbed _ d Ha) as (Hf&_). unfold Sha256.finalizeHex. destruct (Sha256.finalize d) as [x y].
  cbn [fst] in *. by rewrite Hf.
Qed.

Lemma buffer_pos : (0 < Profile.kDigestBuffer)%nat.
Proof. unfold Profile.kDigestBuffer. lia. Qed.

Lemma sha256File_digest exe : exe ≠ [] → Z.of_nat (length exe) <= Sha256.kMaximumBytes →
  Profile.sha256File (Some exe) = inr (Sha256.hexDigits (Sha256.sha256 exe)).
Proof.
  intros Hne Hle. unfold Profile.sha256File. pose proof (chunks_join _ (length exe) exe buffer_pos ltac:(lia)) as Hj.
  destruct (digest_chunks (Profile.chunks (length exe) Profile.kDigestBuffer exe)) as (d&->&Hd); [by rewrite Hj|].
  rewrite Hj in Hd. cbn [mbind throw_bind]. rewrite Hd. destruct exe; [by destruct Hne|]. cbn [length Nat.eqb]. exact eq_refl.
Qed.

(** ** The end of the file *)

Lemma closing_num tail s c : c ≠ "bytes" → c ≠ "zero_length_records" → Profile.num (closing tail s) c = Profile.num s c.
Proof.
  intros H1 H2. unfold closing. case_bool_decide; [done|].
  change (Profile.num (Profile.bump (Profile.set s "bytes" (u64 (Profile.num s "bytes" + 2))) "zero_length_records") c = Profile.num s c).
  unfold Profile.bump. by rewrite !num_set_ne.
Qed.

Lemma closing_ever tail s : Profile.ever_active_pages (closing tail s) = Profile.ever_active_pages s.
Proof. unfold closing. by case_bool_decide. Qed.

Lemma closing_live tail s : Profile.live_orders (closing tail s) = Profile.live_orders s.
Proof. unfold closing. by case_bool_decide. Qed.

Lemma closing_clean tail s : Profile.semanticProfileClean (closing tail s) = Profile.semanticProfileClean s.
Proof.
  unfold Profile.semanticProfileClean. rewrite !closing_num, closing_live by discriminate. do 5 f_equal.
  assert (Forall (λ c, c ≠ "bytes" ∧ c ≠ "zero_length_records") Profile.cleanCounters) as Hf.
  { apply (bool_decide_eq_true_1 _). vm_compute. reflexivity. }
  induction Hf as [|c cs [H1 H2] _ IH]; [done|]. cbn [forallb]. by rewrite closing_num, IH.
Qed.

Lemma closing_complete policy tail s : tail_ok policy tail → Profile.completeFile (Profile.binaryfile_completion (closing tail s)) = true.
Proof. unfold closing. intros [-> | [_ ->]]; done. Qed.

(** No record of an archive is malformed. *)
Lemma archive_wellformed ms : Forall record_ok ms → Profile.num (profile Profile.make ms) "malformed_records" = 0.
Proof. intros Hms. by rewrite (gr_malformed _ _ _ (profile_grows ms Profile.make Hms)). Qed.

(** The records of a file are determined by it. *)
Lemma loop_archive legacy file s hashed rest : bytes file →
  Profile.recordLoop (S (length file)) legacy Profile.make false false file [] = Some (s, hashed, rest) →
  mjoin hashed ++ rest = file ∧
  (Profile.completeFile (Profile.binaryfile_completion s) = true →
   rest = [] ∧ ∃ ms tail, archive (policyOf legacy) ms file ∧ tail_ok (policyOf legacy) tail ∧ file = frames ms ++ tail ∧
     s = closing tail (profile Profile.make ms)).
Proof.
  intros Hb Hl. destruct (profileLoop_sound _ _ _ _ _ _ _ _ _ _ Hb Hl) as [Hj Hc]. split; [exact Hj|].
  intros H. destruct (Hc H) as (Hr&ms&tail&E&Ht&Hms&He&Hs&Es). split; [done|]. exists ms, tail. split_and!; [|exact Ht|exact E|exact Es].
  split; [done|]. split; [by apply Hs|]. split; [done|]. by exists tail.
Qed.

Lemma archive_loop legacy ms file hashed : archive (policyOf legacy) ms file →
  ∃ hashed' tail, tail_ok (policyOf legacy) tail ∧ file = frames ms ++ tail ∧
    Profile.recordLoop (S (length file)) legacy Profile.make false false file hashed =
      Some (closing tail (profile Profile.make ms), hashed', []).
Proof.
  intros (Hms&Hs&He&tail&Ht&->).
  destruct (recordLoop_complete (S (length (frames ms ++ tail))) legacy Profile.make false false ms tail hashed Hms Ht He ltac:(done)) as [h Hh].
  - rewrite length_app. pose proof (frames_length ms Hms). lia.
  - by exists h, tail.
Qed.

(** ** The certificate *)

(** C10. The profiler certifies exactly the complete and clean archives: called with a
    file of bytes, and optionally with the legacy option, it always reports; its exit code
    is zero if and only if the file is a complete archive (every record well formed, System
    Event O first, C once and last, and the terminator or, with the option, the end of the
    file) whose messages leave every failure counter at zero, the six daily events seen in
    order and no order, level or page behind.  The digests it prints are the SHA-256 of the
    whole file and of the profiler, and the statistics are those of the archive's records
    in order. *)
Theorem profile_certifies argv exe file :
  usage argv → bytes file → exe ≠ [] → Z.of_nat (length exe) <= Sha256.kMaximumBytes → Z.of_nat (length file) <= Sha256.kMaximumBytes →
  let policy := policyOf (legacyOf argv) in
  ∃ code report, Profile.main argv (Some exe) (Some file) = (code, Some report) ∧ (code = 0 ∨ code = 1) ∧
    (code = 0 ↔ ∃ ms, archive policy ms file ∧ Profile.semanticProfileClean (profile Profile.make ms) = true) ∧
    Profile.binaryfile_sha256 report = Sha256.hexDigits (Sha256.sha256 file) ∧
    Profile.profiler_sha256 report = Sha256.hexDigits (Sha256.sha256 exe) ∧
    (∀ ms, archive policy ms file → ∃ tail, tail_ok policy tail ∧ file = frames ms ++ tail ∧
       Profile.stats report = closing tail (profile Profile.make ms)).
Proof.
  intros Hu Hb Hne He Hf policy. unfold Profile.main. fold (legacyOf argv). rewrite (usage_ok argv Hu), (sha256File_digest exe Hne He).
  destruct (recordLoop_total (S (length file)) (legacyOf argv) Profile.make false false file [] ltac:(lia)) as [[[s hashed] rest] Hl].
  rewrite Hl. destruct (loop_archive _ _ _ _ _ Hb Hl) as [Hj Hc].
  pose proof (chunks_join _ (length rest) rest buffer_pos ltac:(lia)) as Hcj.
  destruct (digest_chunks (hashed ++ Profile.chunks (length rest) Profile.kDigestBuffer rest)) as (d&->&Hd); [by rewrite join_app, Hcj, Hj|].
  rewrite join_app, Hcj, Hj in Hd. set (ok := _ && Profile.semanticProfileClean s).
  eexists _, _. split; [reflexivity|]. split; [destruct ok; by auto|]. split; [|split; [exact Hd|split; [done|]]].
  - split.
    + intros Hok. assert (ok = true) as Eok by (by destruct ok). unfold ok in Eok.
      apply andb_true_iff in Eok as [[_ Hcomp]%andb_true_iff Hclean]. destruct (Hc Hcomp) as (_&ms&tail&Ha&_&_&->).
      exists ms. split; [exact Ha|]. by rewrite closing_clean in Hclean.
    + intros (ms&Ha&Hclean). destruct (archive_loop _ ms file [] Ha) as (h&tail&Ht&_&Hl'). rewrite Hl in Hl'. injection Hl' as -> -> ->.
      unfold ok. rewrite closing_num, archive_wellformed, (closing_complete _ _ _ Ht), closing_clean, Hclean by (apply Ha || discriminate). done.
  - intros ms Ha. destruct (archive_loop _ ms file [] Ha) as (h&tail&Ht&Efile&Hl'). rewrite Hl in Hl'. injection Hl' as -> -> ->.
    exists tail. done.
Qed.

(** ** What the certificate is worth *)

(** A certified file: the statistics of its records, which are clean. *)
Lemma certified_stats argv exe file report ms :
  Profile.main argv exe (Some file) = (0, Some report) → bytes file → archive (policyOf (legacyOf argv)) ms file →
  Profile.semanticProfileClean (profile Profile.make ms) = true ∧
  Profile.num (Profile.stats report) "max_order_ref" = Profile.num (profile Profile.make ms) "max_order_ref" ∧
  Profile.ever_active_pages (Profile.stats report) = Profile.ever_active_pages (profile Profile.make ms).
Proof.
  intros Hm Hb Ha. unfold Profile.main in Hm. fold (legacyOf argv) in Hm. destruct (_ || _ || _); [done|].
  destruct (Profile.sha256File exe) as [|dg]; [done|].
  destruct (archive_loop _ ms file [] Ha) as (h&tail&Ht&_&Hl). rewrite Hl in Hm.
  destruct (Sha256.updates _ _) as [|d]; [done|]. set (s := closing tail (profile Profile.make ms)) in *.
  destruct (_ && Profile.semanticProfileClean s) eqn:Eok; [|done]. injection Hm as <-. cbn [Profile.stats].
  apply andb_true_iff in Eok as [_ Hclean]. unfold s in *. rewrite closing_clean in Hclean. split; [done|].
  split; [by rewrite closing_num|apply closing_ever].
Qed.

Lemma certified_day argv exe file report ms direct buckets pages m id :
  Profile.main argv exe (Some file) = (0, Some report) → bytes file → archive (policyOf (legacyOf argv)) ms file →
  fits 64 direct → fits 32 buckets → fits 32 pages → BookManager.make direct buckets pages = Some m →
  Profile.num (Profile.stats report) "max_order_ref" < direct →
  Z.of_nat (size (Profile.ever_active_pages (Profile.stats report))) <= pages →
  Z.of_nat (length ms) <= max_u32 → texts ms →
  let p0 := ItchParser.make StockDirectory.empty m id in
  (∀ i, (i <= length ms)%nat →
     ((0 < i)%nat → ItchParser.last_error (DecoderInv.handle_all (take i ms) p0) = "") ∧
     ∃ M, sim (profile Profile.make (take i ms)) (DecoderInv.handle_all (take i ms) p0) M) ∧
  ItchParser.channel_phase (DecoderInv.handle_all ms p0) = EndOfMessages.
Proof.
  intros Hm Hb Ha Hd Hbk Hp Hmake Href Hpg Hlen Htx p0.
  destruct (certified_stats argv exe file report ms Hm Hb Ha) as (Hclean&Er&Ee). rewrite Er in Href. rewrite Ee in Hpg.
  destruct (sim_start direct buckets pages m id Hd Hbk Hp Hmake) as [Hs0 Hz]. fold p0 in Hs0, Hz.
  pose proof (f_equal fst Hz) as Z1. pose proof (f_equal snd Hz) as Z2. cbn [fst snd] in Z1, Z2.
  pose proof (semantic_clean_counters _ Hclean) as Hcc. unfold Profile.semanticProfileClean in Hclean.
  apply andb_true_iff in Hclean as [[[[[_ Hev%Z.eqb_eq]%andb_true_iff _]%andb_true_iff Hlive%bool_decide_eq_true]%andb_true_iff _]%andb_true_iff _].
  destruct Ha as (Hms&Hst&Hend&_).
  assert (∀ i, (i <= length ms)%nat → ((0 < i)%nat → ItchParser.last_error (DecoderInv.handle_all (take i ms) p0) = "") ∧
     ∃ M, sim (profile Profile.make (take i ms)) (DecoderInv.handle_all (take i ms) p0) M) as Hall.
  { apply (sim_day ms Profile.make p0 ∅ Hs0 Hms Hend Htx); try done; [by rewrite Z1|by rewrite Z2]. }
  split; [exact Hall|]. destruct (Hall (length ms) ltac:(lia)) as [_ [M HM]]. rewrite firstn_all in HM.
  apply (end_events _ _ _ HM). exact Hev.
Qed.

(** C9. The profiler and the engine reconstruct the same books: for a certified
    archive, and a manager with more direct slots than the largest reference the profiler
    saw and at least as many price pages as were ever active, the parser accepts every
    record and ends at end of messages, and after every record its live orders are the
    ones the profiler holds (same references, stocks, sides, prices and quantities).  The
    tickers of the directory must be free of NUL bytes, and the records at most 2^32 - 1. *)
Theorem certified_reconstruction argv exe file report ms direct buckets pages m id :
  Profile.main argv exe (Some file) = (0, Some report) → bytes file → archive (policyOf (legacyOf argv)) ms file →
  fits 64 direct → fits 32 buckets → fits 32 pages → BookManager.make direct buckets pages = Some m →
  Profile.num (Profile.stats report) "max_order_ref" < direct →
  Z.of_nat (size (Profile.ever_active_pages (Profile.stats report))) <= pages →
  Z.of_nat (length ms) <= max_u32 → texts ms →
  let p0 := ItchParser.make StockDirectory.empty m id in
  ItchParser.channel_phase (DecoderInv.handle_all ms p0) = EndOfMessages ∧
  ∀ i, (i <= length ms)%nat →
    ((0 < i)%nat → ItchParser.last_error (DecoderInv.handle_all (take i ms) p0) = "") ∧
    ∃ M, par_ok (DecoderInv.handle_all (take i ms) p0) M ∧
         abs <$> M = absOrder <$> Profile.live_orders (profile Profile.make (take i ms)).
Proof.
  intros Hm Hb Ha Hd Hbk Hp Hmake Href Hpg Hlen Htx p0.
  destruct (certified_day argv exe file report ms direct buckets pages m id Hm Hb Ha Hd Hbk Hp Hmake Href Hpg Hlen Htx) as [Hall Hend].
  split; [exact Hend|]. intros i Hi. destruct (Hall i Hi) as [He [M HM]]. split; [exact He|].
  exists M. split; [apply (si_par _ _ _ HM)|apply (si_live _ _ _ HM)].
Qed.

(** ** The application on a certified trace *)

Section deployment.
Context (elapsed : Z → Z).
#[local] Hint Extern 0 (IPacketProcessor _) => exact (decoder_processor elapsed) : typeclass_instances.
#[local] Existing Instance EngineMain.channelBuffer.
Context (host : EngineMain.Host (list (option PacketView))).

(** C8. A certified trace whose tickers have no NUL byte takes the application to a
    successful exit: when the profiler certified the file, an archive of at most 2^32 - 1
    records in which no directory message has a ticker with a NUL byte, the engine started
    with more direct slots than the largest reference and with at least as many price pages
    as the profile shows, and the receiver's polls bring the packets of the replay of that
    file (any packet sizes from 1 to 65535 messages), in order and with any number of empty
    polls between them, and then the end-of-session marker, then the application leaves its
    loop within as many turns as there are polls and exits with success.  The condition on
    the tickers is needed: a certified file with NUL bytes in a ticker can be refused by the
    engine, as [nul_tickers_differ] shows. *)
Theorem certified_exit pargv exe file report ms argv a log e0 path session n sizes :
  Profile.main pargv exe (Some file) = (0, Some report) → bytes file → archive (policyOf (legacyOf pargv)) ms file →
  Z.of_nat (length ms) <= max_u32 → texts ms →
  EngineMain.parseArguments argv = inr a → EngineMain.startEngine host a = (log, inr e0) →
  let p0 := MoldUdpDecoder.parser (MarketDataEngine.processor e0) in
  Profile.num (Profile.stats report) "max_order_ref" < OrderTable.direct_slots (BookManager.m_orders (ItchParser.books p0)) →
  Z.of_nat (size (Profile.ever_active_pages (Profile.stats report))) <=
    PriceLevelStore.page_capacity (BookManager.m_prices (ItchParser.books p0)) →
  (length session <= 10)%nat → 0 < n → Forall (λ n, 0 < n < 65536) sizes → (length ms <= length sizes)%nat →
  let '(ps, s) := drive sizes (ItchMoldUdpSource.make (Some file) path session n (policyOf (legacyOf pargv))) in
  ∀ arrivals ticks turns signalled,
    arrivals.*1 = Some <$> ps → (length (MarketDataEngine.source e0) <= turns)%nat →
    omap (λ p, p) (MarketDataEngine.source e0) =
      arrivals ++ [(Some (makeMoldEndOfSessionPacket session (ItchMoldUdpSource.next_seq s)), ticks)] →
    snd (EngineMain.main elapsed host argv turns signalled) = Some true.
Proof.
  intros Hm Hb Ha Hlen Htx Hargs Hstart p0 Href Hpg Hse Hn Hsizes Hmany.
  pose proof (start_cases host a) as Hs. rewrite Hstart in Hs.
  destruct Hs as [[_ [err He]]|(s'&d&f&tail&_&Hd&_&_&_&_&(r&src&f'&mgr&_&_&Hmgr&E0))]; [done|].
  destruct (deployed_manager host d f' mgr Hd Hmgr) as (direct&buckets&pages&F1&F2&F3&Hmake).
  assert (p0 = ItchParser.make StockDirectory.empty mgr (EngineMain.arg_channel_id a)) as Ep by (unfold p0; by rewrite E0).
  destruct (sim_start direct buckets pages mgr (EngineMain.arg_channel_id a) F1 F2 F3 Hmake) as [_ Hz]. rewrite <- Ep in Hz.
  pose proof (f_equal fst Hz) as Z1. pose proof (f_equal snd Hz) as Z2. cbn [fst snd] in Z1, Z2.
  rewrite Z1 in Href. rewrite Z2 in Hpg.
  destruct (certified_day pargv exe file report ms direct buckets pages mgr (EngineMain.arg_channel_id a) Hm Hb Ha F1 F2 F3 Hmake Href Hpg Hlen Htx)
    as [Hall Hend]. cbn zeta in Hall, Hend. rewrite <- Ep in Hall, Hend.
  apply (session_exits elapsed host argv a log e0 _ ms file path session n sizes Hargs Hstart Ha); try done.
  - unfold max_u32 in Hlen. lia.
  - intros i Hi. apply Hall; lia.
Qed.

End deployment.

(** ** The short day *)

#[local] Hint Extern 0 (IPacketProcessor _) => exact (decoder_processor (λ _, 0)) : typeclass_instances.
#[local] Existing Instance EngineMain.channelBuffer.

Definition profilerArgv : list (list Z) := [Manifest.str "itch_trace_profile"; Manifest.str "day.bin"].
Definition profilerFile : list Z := [127; 69; 76; 70].

Lemma shortFile_bytes : bytes shortFile.
Proof. apply (bool_decide_eq_true_1 _). vm_compute. reflexivity. Qed.

Lemma profiler_usage : usage profilerArgv.
Proof. by left. Qed.

Lemma shortDay_clean : Profile.semanticProfileClean (profile Profile.make shortDay) = true.
Proof. vm_compute. reflexivity. Qed.

Lemma shortDay_texts : texts shortDay.
Proof. apply (bool_decide_eq_true_1 _). vm_compute. reflexivity. Qed.

Lemma profile_certifies_witness :
  ∃ report, Profile.main profilerArgv (Some profilerFile) (Some shortFile) = (0, Some report) ∧
    Profile.binaryfile_sha256 report = Sha256.hexDigits (Sha256.sha256 shortFile).
Proof.
  destruct (profile_certifies profilerArgv profilerFile shortFile profiler_usage shortFile_bytes ltac:(discriminate)
    ltac:(vm_compute; discriminate) ltac:(vm_compute; discriminate)) as (code&report&Hm&_&Hz&Hd&_).
  exists report. rewrite (proj2 Hz (ex_intro _ shortDay (conj shortDay_archive shortDay_clean))) in Hm. split; [exact Hm|exact Hd].
Defined.

(** The certificate of the short day: its largest reference and its pages. *)
Lemma short_certificate :
  ∃ report, Profile.main profilerArgv (Some profilerFile) (Some shortFile) = (0, Some report) ∧
    Profile.num (Profile.stats report) "max_order_ref" < 1048576 ∧
    Z.of_nat (size (Profile.ever_active_pages (Profile.stats report))) <= 512.
Proof.
  assert (match Profile.main profilerArgv (Some profilerFile) (Some shortFile) with
    | (code, Some report) => (code =? 0) && (Profile.num (Profile.stats report) "max_order_ref" <? 1048576) &&
        (Z.of_nat (size (Profile.ever_active_pages (Profile.stats report))) <=? 512)
    | (_, None) => false
    end = true) as H by (vm_compute; reflexivity).
  destruct (Profile.main profilerArgv (Some profilerFile) (Some shortFile)) as [code [report|]]; [|discriminate H].
  apply andb_true_iff in H as [[H1%Z.eqb_eq H2%Z.ltb_lt]%andb_true_iff H3%Z.leb_le]. exists report. subst code.
  split; [exact eq_refl|]. split; [exact H2|exact H3].
Qed.

Lemma certified_reconstruction_witness :
  ItchParser.channel_phase (DecoderInv.handle_all shortDay labParser) = EndOfMessages.
Proof.
  destruct short_certificate as (report&Hm&Hr&Hp).
  destruct (certified_reconstruction profilerArgv (Some profilerFile) shortFile report shortDay 1048576 4096 512 labBooks 0 Hm shortFile_bytes
    shortDay_archive ltac:(split; lia) ltac:(split; lia) ltac:(split; lia) eq_refl Hr Hp ltac:(vm_compute; discriminate) shortDay_texts) as [H _].
  exact H.
Defined.

Lemma certified_exit_witness : snd (EngineMain.main (λ _, 0) (labHost labPolls) labArgv 20 false) = Some true.
Proof.
  destruct short_certificate as (report&Hm&Hr&Hp).
  pose proof (certified_exit (λ _, 0) (labHost labPolls) profilerArgv (Some profilerFile) shortFile report shortDay labArgv labArguments _ _ ""
    sessionA 20 (sizesOf 9) Hm shortFile_bytes shortDay_archive ltac:(vm_compute; discriminate) shortDay_texts lab_arguments (lab_starts _)
    Hr Hp ltac:(cbn; lia) ltac:(lia) (sizes_ok 9) ltac:(cbn; lia)) as H.
  rewrite (surjective_pairing (drive _ _)) in H.
  exact (H (EngineProps.inOrder (fst (shortReplay 9))) 0 20%nat false (EngineProps.inOrder_packets _) labPolls_length labPolls_packets).
Defined.

(** ** Padding with NUL *)

(** The short day with its ticker padded with NUL bytes. *)
Definition nulStock : list Z := [65; 66; 0; 0; 0; 0; 0; 0].
Definition nulDay : list (list Z) :=
  [ParserProps.systemEvent 1 "O";
   ParserProps.header "R" 7 0 2 ++ nulStock ++ [81; 78] ++ putBE 4 100 ++ [78; 67; 90; 32; 80] ++ [78; 32; 49; 78] ++ putBE 4 0 ++ [78];
   ParserProps.systemEvent 3 "S"; ParserProps.encode ParserProps.sampleAdd 0 0 nulStock; ParserProps.systemEvent 5 "Q";
   ParserProps.encode (ManagerInv.DeleteOrder 7 100 6) 0 0 nulStock; ParserProps.systemEvent 7 "M"; ParserProps.systemEvent 8 "E";
   ParserProps.systemEvent 9 "C"].

(** Without the condition on the tickers the certificate is not enough: the profiler
    compares the eight bytes as they are and accepts a ticker padded with NUL bytes, the
    parser expects blanks and refuses the first add. *)
Theorem nul_tickers_differ :
  fst (Profile.main profilerArgv (Some profilerFile) (Some (frames nulDay ++ [0; 0]))) = 0 ∧
  ItchParser.last_error (DecoderInv.handle_all (take 4 nulDay) labParser) = "add order stock does not match registered ticker".
Proof. split; vm_compute; reflexivity. Qed.

End ProfileProps.
