(* ===== verification/Effects.v ===== *)
(** Calls that change a state and may throw.

    A C++ function that acts on the outside world and may throw is a [Prog]: it takes the
    state to a result or to the text of an exception, and the state survives the
    exception.  [wp] is the weakest precondition for a normal postcondition and an
    exceptional one, with a rule per construct; the set-up of sockets and of the network
    device is specified with it. *)
From stdpp Require Import base list strings.
From S2P Require Import Prelude.

Definition Prog (S A : Type) : Type := S → (string + A) * S.

Section programs.
Context {S : Type}.

#[global] Instance Prog_ret : MRet (Prog S) := λ A a s, (inr a, s).
#[global] Instance Prog_bind : MBind (Prog S) := λ A B k m s,
  match m s with (inl e, s) => (inl e, s) | (inr a, s) => k a s end.
Definition throw {A} (e : string) : Prog S A := λ s, (inl e, s).
Definition lift {A} (r : string + A) : Prog S A := λ s, (r, s).
Definition gets {A} (f : S → A) : Prog S A := λ s, (inr (f s), s).
Definition modify (f : S → S) : Prog S () := λ s, (inr (), f s).

(** [if (condition) { m }]. *)
Definition when (b : bool) (m : Prog S ()) : Prog S () := if b then m else mret ().

(** The body of a scope whose guard is destroyed by an exception only: the destructor of a
    member that was constructed before, or of a scope guard that is released at the end. *)
Definition guarded {A} (cleanup : S → S) (m : Prog S A) : Prog S A := λ s,
  match m s with (inl e, s) => (inl e, cleanup s) | (inr a, s) => (inr a, s) end.

(** [try { m } catch (...) { handler }]. *)
Definition catching {A} (m : Prog S A) (handler : string → Prog S A) : Prog S A := λ s,
  match m s with (inl e, s) => handler e s | (inr a, s) => (inr a, s) end.

(** ** Specifications *)

Definition wp {A} (m : Prog S A) (Q : A → S → Prop) (E : string → S → Prop) (s : S) : Prop :=
  match m s with (inr a, s) => Q a s | (inl e, s) => E e s end.

Lemma wp_unfold {A} (m : Prog S A) Q E s : wp m Q E s = match m s with (inr a, s) => Q a s | (inl e, s) => E e s end.
Proof. done. Qed.

Lemma wp_run {A} (m : Prog S A) Q E s r : wp m Q E s → m s = r → match r with (inr a, s) => Q a s | (inl e, s) => E e s end.
Proof. unfold wp. by intros H <-. Qed.

Lemma wp_bind {A B} (m : Prog S A) (k : A → Prog S B) Q E s :
  wp m (λ a, wp (k a) Q E) E s → wp (m ≫= k) Q E s.
Proof. unfold wp, mbind, Prog_bind. by destruct (m s) as [[e|a] s']. Qed.

Lemma wp_ret {A} (a : A) Q (E : string → S → Prop) s : Q a s → wp (mret a) Q E s.
Proof. done. Qed.

Lemma wp_throw {A} e (Q : A → S → Prop) (E : string → S → Prop) s : E e s → wp (throw e) Q E s.
Proof. done. Qed.

Lemma wp_lift {A} (r : string + A) (Q : A → S → Prop) (E : string → S → Prop) s :
  match r with inr a => Q a s | inl e => E e s end → wp (lift r) Q E s.
Proof. unfold wp, lift. by destruct r. Qed.

Lemma wp_gets {A} (f : S → A) Q (E : string → S → Prop) s : Q (f s) s → wp (gets f) Q E s.
Proof. done. Qed.

Lemma wp_modify (f : S → S) Q (E : string → S → Prop) s : Q () (f s) → wp (modify f) Q E s.
Proof. done. Qed.

Lemma wp_when b (m : Prog S ()) Q (E : string → S → Prop) s :
  (b = true → wp m Q E s) → (b = false → Q () s) → wp (when b m) Q E s.
Proof. destruct b; cbn; [intros H _; by apply H|intros _ H; by apply H]. Qed.

Lemma wp_guarded {A} cleanup (m : Prog S A) Q (E : string → S → Prop) s :
  wp m Q (λ e s, E e (cleanup s)) s → wp (guarded cleanup m) Q E s.
Proof. unfold wp, guarded. by destruct (m s) as [[e|a] s']. Qed.

Lemma wp_catching {A} (m : Prog S A) h Q (E : string → S → Prop) s :
  wp m Q (λ e, wp (h e) Q E) s → wp (catching m h) Q E s.
Proof. unfold wp, catching. by destruct (m s) as [[e|a] s']. Qed.

Lemma wp_mono {A} (m : Prog S A) (Q Q' : A → S → Prop) (E E' : string → S → Prop) s :
  wp m Q E s → (∀ a s, Q a s → Q' a s) → (∀ e s, E e s → E' e s) → wp m Q' E' s.
Proof. unfold wp. destruct (m s) as [[e|a] s']; auto. Qed.

End programs.

#[global] Opaque wp.

Create HintDb prog.
#[export] Hint Resolve wp_ret wp_throw wp_gets wp_modify : prog.

(** Apply the rule of the outermost construct. *)
Ltac wp_step :=
  match goal with
  | |- wp (_ ≫= _) _ _ _ => apply wp_bind
  | |- wp (mret _) _ _ _ => apply wp_ret
  | |- wp (throw _) _ _ _ => apply wp_throw
  | |- wp (lift _) _ _ _ => apply wp_lift
  | |- wp (gets _) _ _ _ => apply wp_gets
  | |- wp (modify _) _ _ _ => apply wp_modify
  | |- wp (when _ _) _ _ _ => apply wp_when; intros
  | |- wp (guarded _ _) _ _ _ => apply wp_guarded
  | |- wp (catching _ _) _ _ _ => apply wp_catching
  | |- wp (if ?b then _ else _) _ _ _ => let E := fresh "E" in destruct b eqn:E
  end.
