(* ===== verification/Sockets.v ===== *)
(** Opening and closing sockets: the constructors and destructors of
    [source/UdpReceiver.cpp], [source/UdpBatchReceiver.cpp], the two-line arbiters and
    [source/UdpSender.cpp], as they are built on Linux.

    The kernel is not part of the program.  Its descriptor table maps a descriptor to the
    socket behind it; [socket] returns the lowest descriptor that is not in use, as POSIX
    says.  Whether the coming system calls succeed is the list [answers], arbitrary in
    every theorem ([None] for success, an exhausted list as well; otherwise the text of
    the error).  [closed] lists the arguments of [close].  A call on a descriptor that is
    not open fails with [EBADF].  The constants are those of Linux. *)
From stdpp Require Import base list gmap strings.
From Stdlib Require Import ZArith Lia.
From S2P Require Import Prelude Capacity Manifest Effects Protocol Gap Parser Decoder Engine Udp.
#[local] Open Scope Z_scope.
#[local] Open Scope astra_scope.

(** ** The kernel *)

Record Socket := mkSocket {
  nonblocking : bool;
  options : gmap (Z * Z) Z;
  local : option (Z * Z) }.

Definition newSocket : Socket := mkSocket false ∅ None.

Record Kernel := mkKernel {
  descriptors : gmap Z Socket;
  answers : list (option string);
  closed : list Z;
  (** [sched_getcpu]. *)
  current_cpu : Z;
  (** What [sendto] has accepted: the destination and the datagram. *)
  transmitted : list (Z * Z * list Z) }.

(** The first of [n] descriptors from [fd] on that is not in use. *)
Fixpoint lowestFrom (n : nat) (table : gmap Z Socket) (fd : Z) : Z :=
  match n with
  | O => fd
  | S n => match table !! fd with None => fd | Some _ => lowestFrom n table (fd + 1) end
  end.
Definition lowestFree (table : gmap Z Socket) : Z := lowestFrom (size table) table 0.

Definition with_table (k : Kernel) (table : gmap Z Socket) : Kernel :=
  mkKernel table (answers k) (closed k) (current_cpu k) (transmitted k).

Definition with_answers (k : Kernel) (l : list (option string)) : Kernel :=
  mkKernel (descriptors k) l (closed k) (current_cpu k) (transmitted k).

(** The answer to a call on an open descriptor, and the socket it leaves. *)
Definition call (fd : Z) (effect : Socket → Socket) : Prog Kernel (option string) := λ k,
  match descriptors k !! fd with
  | None => (inr (Some "Bad file descriptor"%string), k)
  | Some s =>
    let answer := default None (head (answers k)) in
    let k := with_answers k (tail (answers k)) in
    (inr answer, match answer with None => with_table k (<[fd := effect s]> (descriptors k)) | Some _ => k end)
  end.

(** A descriptor, or a negative result with the text of [errno]. *)
Definition socket : Prog Kernel (string + Z) := λ k,
  let answer := default None (head (answers k)) in
  let k := with_answers k (tail (answers k)) in
  match answer with
  | Some e => (inr (inl e), k)
  | None => let fd := lowestFree (descriptors k) in (inr (inr fd), with_table k (<[fd := newSocket]> (descriptors k)))
  end.

Definition close (fd : Z) (k : Kernel) : Kernel :=
  mkKernel (delete fd (descriptors k)) (answers k) (closed k ++ [fd]) (current_cpu k) (transmitted k).

(** [sendto]: a datagram is accepted as a whole, so the result is its size, or negative. *)
Definition sendto (fd : Z) (data : list Z) (dest : Z * Z) (k : Kernel) : Z * Kernel :=
  match descriptors k !! fd, default None (head (answers k)) with
  | None, _ => (-1, k)
  | Some _, Some _ => (-1, with_answers k (tail (answers k)))
  | Some _, None =>
    (Z.of_nat (length data),
     mkKernel (descriptors k) (tail (answers k)) (closed k) (current_cpu k) (transmitted k ++ [(dest, data)]))
  end.

(** [F_GETFL] changes nothing; [F_SETFL] with [O_NONBLOCK] added. *)
Definition getFlags (fd : Z) : Prog Kernel (option string) := call fd (λ s, s).
Definition setNonblocking (fd : Z) : Prog Kernel (option string) :=
  call fd (λ s, mkSocket true (options s) (local s)).
Definition setsockopt (fd level name value : Z) : Prog Kernel (option string) :=
  call fd (λ s, mkSocket (nonblocking s) (<[(level, name) := value]> (options s)) (local s)).
Definition bind (fd address port : Z) : Prog Kernel (option string) :=
  call fd (λ s, mkSocket (nonblocking s) (options s) (Some (address, port))).

Definition SO_REUSEADDR : Z := 2.
Definition SO_RCVBUF : Z := 8.
Definition SO_BUSY_POLL : Z := 46.
Definition SO_INCOMING_CPU : Z := 49.
Definition SO_PREFER_BUSY_POLL : Z := 69.
Definition IPPROTO_IP : Z := 0.
Definition IP_ADD_MEMBERSHIP : Z := 35.
Definition INADDR_ANY : Z := 0.

(** ** Helpers of both receivers *)

(** [addr] is the address in host order. *)
Definition is_multicast (addr : Z) : bool := addr ≫ 28 =? 0xE.

Definition throw_errno {A} (what errno : string) : Prog Kernel A := throw (what +:+ ": " +:+ errno)%string.

(** [if (call < 0) throw_errno(what)]. *)
Definition require (what : string) (m : Prog Kernel (option string)) : Prog Kernel () :=
  answer ← m; match answer with None => mret () | Some errno => throw_errno what errno end.

(** A call whose result is not looked at. *)
Definition ignore (m : Prog Kernel (option string)) : Prog Kernel () := _ ← m; mret ().

Definition env_flag_enabled (name : string) (value : option (list Z)) : string + bool :=
  match value with
  | None | Some [] => inr false
  | Some value =>
    if bool_decide (value ∈ [Manifest.str "0"; Manifest.str "false"; Manifest.str "off"; Manifest.str "no"])
    then inr false else
    if bool_decide (value ∈ [Manifest.str "1"; Manifest.str "true"; Manifest.str "on"; Manifest.str "yes"])
    then inr true else
    inl (name +:+ " must be one of on/off, true/false, yes/no, 1/0")%string
  end.

(** [if (flags < 0 || fcntl(F_SETFL) < 0) throw_errno("O_NONBLOCK")]. *)
Definition requireNonblocking (fd : Z) : Prog Kernel () :=
  require "O_NONBLOCK" (getFlags fd);; require "O_NONBLOCK" (setNonblocking fd).

(** [SO_INCOMING_CPU] with the CPU of the thread, when it is known. *)
Definition hintCpu (fd : Z) : Prog Kernel () :=
  cpu ← gets current_cpu;
  when (0 <=? cpu) (ignore (setsockopt fd SOL_SOCKET SO_INCOMING_CPU cpu)).

Section addresses.
(** The address in a dotted string, in host order, if it is one. *)
Context (inet_pton : list Z → option Z).

(** The address is read after [bind]; a group is joined on any interface. *)
Definition joinGroup (fd : Z) (ip : list Z) : Prog Kernel () :=
  match inet_pton ip with
  | None => throw "inet_pton: bad address"%string
  | Some group =>
    when (is_multicast group) (require "IP_ADD_MEMBERSHIP" (setsockopt fd IPPROTO_IP IP_ADD_MEMBERSHIP group))
  end.

(** ** The receivers *)

(** A constructed receiver: its descriptor, and its state. *)
Record Open (R : Type) := mkOpen { fd : Z; receiver : R }.
#[global] Arguments mkOpen {R} _ _.
#[global] Arguments fd {R} _.
#[global] Arguments receiver {R} _.

(** [ScopedFileDescriptor]: closed unless released. *)
Definition scoped {A} (fd : Z) (m : Prog Kernel A) : Prog Kernel A := guarded (close fd) m.

(** A descriptor for the body of a constructor, closed when the body throws. *)
Definition withSocket {A} (body : Z → Prog Kernel A) : Prog Kernel A :=
  opened ← socket;
  match opened with
  | inl errno => throw_errno "socket" errno
  | inr fd => scoped fd (body fd)
  end.

(** The options of [UdpReceiver]: whether drop metrics are on. *)
Definition configure (getenv : string → option (list Z)) (fd : Z) : Prog Kernel bool :=
  requireNonblocking fd;;
  require "SO_REUSEADDR" (setsockopt fd SOL_SOCKET SO_REUSEADDR 1);;
  require "SO_RCVBUF" (setsockopt fd SOL_SOCKET SO_RCVBUF (8 * 1024 * 1024));;
  ignore (setsockopt fd SOL_SOCKET SO_BUSY_POLL 100);;
  ignore (setsockopt fd SOL_SOCKET SO_PREFER_BUSY_POLL 1);;
  drop_metrics_requested ← lift (env_flag_enabled "ASTRA_UDP_DROP_METRICS" (getenv "ASTRA_UDP_DROP_METRICS"%string));
  when drop_metrics_requested (require "SO_RXQ_OVFL" (setsockopt fd SOL_SOCKET SO_RXQ_OVFL 1));;
  hintCpu fd;;
  mret drop_metrics_requested.

(** [deliveries] is what the socket will deliver. *)
Definition openUdpReceiver (getenv : string → option (list Z)) (ip : list Z) (port : Z)
    (deliveries : list RecvOutcome) : Prog Kernel (Open UdpReceiver.t) :=
  withSocket (λ fd,
    drop_metrics ← configure getenv fd;
    require "bind" (bind fd INADDR_ANY port);;
    joinGroup fd ip;;
    mret (mkOpen fd (UdpReceiver.make drop_metrics deliveries))).

(** The options of [UdpBatchReceiver]. *)
Definition configureBatch (fd : Z) : Prog Kernel () :=
  requireNonblocking fd;;
  require "SO_REUSEADDR" (setsockopt fd SOL_SOCKET SO_REUSEADDR 1);;
  require "SO_RCVBUF" (setsockopt fd SOL_SOCKET SO_RCVBUF (64 * 1024 * 1024));;
  ignore (setsockopt fd SOL_SOCKET SO_BUSY_POLL 100);;
  ignore (setsockopt fd SOL_SOCKET SO_PREFER_BUSY_POLL 1);;
  hintCpu fd;;
  require "SO_RXQ_OVFL" (setsockopt fd SOL_SOCKET SO_RXQ_OVFL 1).

Definition openUdpBatchReceiver (ip : list Z) (port : Z) (batch_size : nat)
    (deliveries : list UdpBatchReceiver.BatchOutcome) : Prog Kernel (Open UdpBatchReceiver.t) :=
  withSocket (λ fd,
    configureBatch fd;;
    require "bind" (bind fd INADDR_ANY port);;
    joinGroup fd ip;;
    mret (mkOpen fd (UdpBatchReceiver.make batch_size deliveries))).

(** [~UdpReceiver] and [~UdpBatchReceiver]. *)
Definition closeReceiver {R} (r : Open R) (k : Kernel) : Kernel :=
  if 0 <=? fd r then close (fd r) k else k.

(** The members of an arbiter: an exception of the second destroys the first. *)
Definition openBoth {R} (a b : Prog Kernel (Open R)) : Prog Kernel (Open R * Open R) :=
  receiver_a ← a;
  receiver_b ← guarded (closeReceiver receiver_a) b;
  mret (receiver_a, receiver_b).

Definition openDualUdpReceiver getenv (ip_a : list Z) (port_a : Z) (ip_b : list Z) (port_b : Z)
    (a b : list RecvOutcome) : Prog Kernel (Open UdpReceiver.t * Open UdpReceiver.t) :=
  openBoth (openUdpReceiver getenv ip_a port_a a) (openUdpReceiver getenv ip_b port_b b).

Definition openDualUdpBatchReceiver (ip_a : list Z) (port_a : Z) (ip_b : list Z) (port_b : Z) (batch_size : nat)
    (a b : list UdpBatchReceiver.BatchOutcome) : Prog Kernel (Open UdpBatchReceiver.t * Open UdpBatchReceiver.t) :=
  openBoth (openUdpBatchReceiver ip_a port_a batch_size a) (openUdpBatchReceiver ip_b port_b batch_size b).

(** The members are destroyed in the reverse order. *)
Definition closeBoth {R} (d : Open R * Open R) (k : Kernel) : Kernel := closeReceiver (fst d) (closeReceiver (snd d) k).

(** ** The sender *)

Record UdpSender := mkSender { dest : Z * Z; sender_fd : Z }.

Definition openUdpSender (ip : list Z) (port : Z) : Prog Kernel UdpSender :=
  match inet_pton ip with
  | None => throw "inet_pton: bad address"%string
  | Some address =>
    opened ← socket;
    match opened with
    | inl errno => throw_errno "socket" errno
    | inr fd => mret (mkSender (address, port) fd)
    end
  end.

Definition closeUdpSender (s : UdpSender) (k : Kernel) : Kernel :=
  if 0 <=? sender_fd s then close (sender_fd s) k else k.

End addresses.

Definition sendDatagram (s : UdpSender) (data : list Z) (k : Kernel) : bool * Kernel :=
  let '(sent, k) := sendto (sender_fd s) data (dest s) k in (sent =? Z.of_nat (length data), k).
