(* ===== verification/SocketsProps.v ===== *)
(** The sockets of receivers and senders: what a successful constructor leaves configured,
    and that no path through a constructor keeps a descriptor it does not hand over. *)
From stdpp Require Import base list gmap strings.
From Stdlib Require Import ZArith Lia.
From S2P Require Import Prelude Capacity Manifest Effects Protocol Gap Parser Decoder Engine Udp Sockets.
#[local] Open Scope Z_scope.
#[local] Open Scope astra_scope.

Module SocketsProps.

(** ** The lowest free descriptor *)

Lemma lowestFrom_spec n table fd :
  fd <= lowestFrom n table fd <= fd + Z.of_nat n ∧
  (table !! lowestFrom n table fd = None ∨ ∀ i, fd <= i < fd + Z.of_nat n → is_Some (table !! i)).
Proof.
  revert fd. induction n as [|n IH]; intros fd; cbn [lowestFrom]; [split; [lia|right; lia]|].
  destruct (table !! fd) as [s|] eqn:E; [|split; [lia|by left]].
  destruct (IH (fd + 1)) as [Hr [H|H]]; (split; [lia|]); [by left|]. right. intros i Hi.
  destruct (Z.eq_dec i fd) as [->|]; [by exists s|apply H; lia].
Qed.

Lemma lowestFree_nonneg table : 0 <= lowestFree table.
Proof. unfold lowestFree. pose proof (lowestFrom_spec (size table) table 0). lia. Qed.

(** The [size table + 1] candidates cannot all be in use. *)
Lemma lowestFree_fresh (table : gmap Z Socket) : table !! lowestFree table = None.
Proof.
  unfold lowestFree. destruct (lowestFrom_spec (size table) table 0) as [Hr [H|Hall]]; [done|].
  destruct (table !! lowestFrom (size table) table 0) as [s|] eqn:E; [exfalso|done].
  set (n := lowestFrom (size table) table 0) in *.
  assert (n = Z.of_nat (size table)) as Hn.
  { destruct (Z.eq_dec n (Z.of_nat (size table))) as [|Hne]; [done|]. exfalso.
    assert (∀ k fd, lowestFrom k table fd < fd + Z.of_nat k → table !! lowestFrom k table fd = None) as Hlt.
    { clear. induction k as [|k IH]; intros fd; cbn [lowestFrom]; [lia|].
      destruct (table !! fd) eqn:E; [|done]. intros H. apply IH. lia. }
    unfold n in E, Hne, Hr. rewrite Hlt in E; [done|lia]. }
  assert (list_to_set (seqZ 0 (Z.of_nat (size table) + 1)) ⊆ dom table) as Hsub.
  { intros i Hi%elem_of_list_to_set%elem_of_seqZ. apply elem_of_dom.
    destruct (Z.eq_dec i n) as [->|]; [by exists s|apply Hall; lia]. }
  apply subseteq_size in Hsub. rewrite size_list_to_set, length_seqZ, size_dom in Hsub by apply NoDup_seqZ. lia.
Qed.

(** ** The socket under construction *)

(** [k] is [k0] with the socket [s] under [fd], after some of the answers. *)
Definition holds (k0 : Kernel) (fd : Z) (s : Socket) (k : Kernel) : Prop :=
  descriptors k = <[fd := s]> (descriptors k0) ∧ closed k = closed k0 ∧ current_cpu k = current_cpu k0 ∧
  transmitted k = transmitted k0 ∧ answers k `suffix_of` answers k0.
Definition owned (k0 : Kernel) (fd : Z) (k : Kernel) : Prop := ∃ s, holds k0 fd s k.

Lemma holds_owned k0 fd s k : holds k0 fd s k → owned k0 fd k.
Proof. by exists s. Qed.
#[local] Hint Resolve holds_owned : prog.

(** The kernel refuses one of the calls that are still to come. *)
Definition refused (k : Kernel) : Prop := ∃ e, Some e ∈ answers k.
Lemma refused_head k k0 e : answers k `suffix_of` answers k0 → default None (head (answers k)) = Some e → refused k0.
Proof.
  intros [l Hl] He. exists e. rewrite Hl. apply elem_of_app. right. destruct (answers k) as [|a rest]; [done|].
  cbn in He. subst a. apply list_elem_of_here.
Qed.

Lemma suffix_tail {A} (l l0 : list A) : l `suffix_of` l0 → tail l `suffix_of` l0.
Proof. destruct l as [|x l]; [done|]. apply suffix_cons_l. Qed.

Section steps.
Context (k0 : Kernel) (fd : Z).
Implicit Types (s : Socket) (k : Kernel) (E : string → Kernel → Prop).

(** A call either takes effect or leaves the socket as it is. *)
Lemma wp_call s k effect (Q : option string → Kernel → Prop) E : holds k0 fd s k →
  (∀ k, holds k0 fd (effect s) k → Q None k) → (∀ e k, holds k0 fd s k → refused k0 → Q (Some e) k) →
  wp (call fd effect) Q E k.
Proof.
  intros (Hd&Hc&Hu&Ht&Ha) Hok Hno. rewrite wp_unfold. unfold call. rewrite Hd, lookup_insert_eq.
  destruct (default None (head (answers k))) as [e|] eqn:He.
  - apply Hno; [|by apply (refused_head k _ e)]. repeat split; try done. by apply suffix_tail.
  - apply Hok. split; [cbn; rewrite Hd; apply insert_insert_eq|]. repeat split; try done. by apply suffix_tail.
Qed.

Lemma wp_require s k what effect (Q : () → Kernel → Prop) E : holds k0 fd s k →
  (∀ k, holds k0 fd (effect s) k → Q () k) → (∀ e k, owned k0 fd k → refused k0 → E e k) →
  wp (require what (call fd effect)) Q E k.
Proof.
  intros H Hok Hno. unfold require, throw_errno. wp_step. apply (wp_call s); [done| |].
  - intros k' H'. wp_step. by apply Hok.
  - intros e k' H' Hr. wp_step. apply Hno; eauto with prog.
Qed.

Lemma wp_ignore s k effect (Q : () → Kernel → Prop) E : holds k0 fd s k →
  (∀ s' k, s' = s ∨ s' = effect s → holds k0 fd s' k → Q () k) → wp (ignore (call fd effect)) Q E k.
Proof.
  intros H Hok. unfold ignore. wp_step. apply (wp_call s); [done| |].
  - intros k' H'. wp_step. apply (Hok (effect s)); [by right|done].
  - intros e k' H' _. wp_step. apply (Hok s); [by left|done].
Qed.

End steps.

(** What the options set so far guarantee: [l] lists options and their values. *)
Definition configured (l : list (Z * Z * Z)) (s : Socket) : Prop :=
  nonblocking s = true ∧ (∀ o v, (o, v) ∈ l → options s !! o = Some v) ∧
  (∀ o, o ∉ l.*1 → o ∉ [(SOL_SOCKET, SO_BUSY_POLL); (SOL_SOCKET, SO_PREFER_BUSY_POLL); (SOL_SOCKET, SO_INCOMING_CPU)] →
    options s !! o = None).

Lemma configured_none s : options s = ∅ → nonblocking s = true → configured [] s.
Proof. intros Ho Hn. split; [done|]. split; [by intros ?? ?%not_elem_of_nil|]. intros. by rewrite Ho, lookup_empty. Qed.

Lemma configured_set l s level name value : configured l s → (level, name) ∉ l.*1 →
  configured ((level, name, value) :: l) (mkSocket (nonblocking s) (<[(level, name) := value]> (options s)) (local s)).
Proof.
  intros (Hn&Hl&Ho) Hfresh. split; [done|]. cbn [options]. split.
  - intros o v [[= -> ->]|Hin]%elem_of_cons; [by rewrite lookup_insert_eq|].
    rewrite lookup_insert_ne; [by apply Hl|]. intros <-. apply Hfresh. apply list_elem_of_fmap. by exists ((level, name), v).
  - intros o. cbn [fmap list_fmap fst]. intros Hno Hb. apply not_elem_of_cons in Hno as [Hne Hno].
    rewrite lookup_insert_ne by done. by apply Ho.
Qed.

Lemma configured_hint l s name value :
  (SOL_SOCKET, name) ∈ [(SOL_SOCKET, SO_BUSY_POLL); (SOL_SOCKET, SO_PREFER_BUSY_POLL); (SOL_SOCKET, SO_INCOMING_CPU)] →
  (SOL_SOCKET, name) ∉ l.*1 → configured l s →
  configured l (mkSocket (nonblocking s) (<[(SOL_SOCKET, name) := value]> (options s)) (local s)).
Proof.
  intros Hin Hfresh (Hn&Hl&Ho). split; [done|]. cbn [options]. split.
  - intros o v Hov. rewrite lookup_insert_ne; [by apply Hl|]. intros <-. apply Hfresh. apply list_elem_of_fmap.
    by exists ((SOL_SOCKET, name), v).
  - intros o Hno Hb. rewrite lookup_insert_ne; [by apply Ho|]. intros <-. done.
Qed.

Lemma configured_local l s o : configured l s → configured l (mkSocket (nonblocking s) (options s) o).
Proof. done. Qed.

(** ** The steps of the constructors *)

Section construction.
Context (k0 : Kernel) (fd : Z).
Implicit Types (s : Socket) (k : Kernel) (E : string → Kernel → Prop).

(** An option that is required. *)
Lemma wp_option s k l what level name value (Q : () → Kernel → Prop) E :
  holds k0 fd s k → configured l s → (level, name) ∉ l.*1 →
  (∀ s' k, holds k0 fd s' k → configured ((level, name, value) :: l) s' → local s' = local s → Q () k) →
  (∀ e k, owned k0 fd k → refused k0 → E e k) → wp (require what (setsockopt fd level name value)) Q E k.
Proof.
  intros H Hc Hf Hok Hno. apply (wp_require k0 fd s); [done| |done]. intros k' H'.
  eapply Hok; [exact H'|by apply configured_set|done].
Qed.

(** An option that is tried. *)
Lemma wp_hint s k l name value (Q : () → Kernel → Prop) E :
  holds k0 fd s k → configured l s →
  (SOL_SOCKET, name) ∈ [(SOL_SOCKET, SO_BUSY_POLL); (SOL_SOCKET, SO_PREFER_BUSY_POLL); (SOL_SOCKET, SO_INCOMING_CPU)] →
  (SOL_SOCKET, name) ∉ l.*1 →
  (∀ s' k, holds k0 fd s' k → configured l s' → local s' = local s → Q () k) →
  wp (ignore (setsockopt fd SOL_SOCKET name value)) Q E k.
Proof.
  intros H Hc Hin Hf Hok. apply (wp_ignore k0 fd s); [done|]. intros s' k' [->| ->] H'; [by apply (Hok s)|].
  eapply Hok; [exact H'|by apply configured_hint|done].
Qed.

Lemma wp_hintCpu s k l (Q : () → Kernel → Prop) E :
  holds k0 fd s k → configured l s → (SOL_SOCKET, SO_INCOMING_CPU) ∉ l.*1 →
  (∀ s' k, holds k0 fd s' k → configured l s' → local s' = local s → Q () k) → wp (hintCpu fd) Q E k.
Proof.
  intros H Hc Hf Hok. unfold hintCpu. wp_step. wp_step. wp_step; [|by apply (Hok s)].
  apply (wp_hint s k l); try done. set_solver.
Qed.

Lemma wp_nonblocking k (Q : () → Kernel → Prop) E :
  holds k0 fd newSocket k →
  (∀ s k, holds k0 fd s k → configured [] s → local s = None → Q () k) →
  (∀ e k, owned k0 fd k → refused k0 → E e k) → wp (requireNonblocking fd) Q E k.
Proof.
  intros H Hok Hno. unfold requireNonblocking. wp_step. apply (wp_require k0 fd newSocket); [done| |done].
  intros k' H'. apply (wp_require k0 fd newSocket); [done| |done]. intros k2 H2.
  eapply Hok; [exact H2|by apply configured_none|done].
Qed.

(** The options that both receivers set first. *)
Definition basics (rcvbuf : Z) : list (Z * Z * Z) := [(SOL_SOCKET, SO_RCVBUF, rcvbuf); (SOL_SOCKET, SO_REUSEADDR, 1)].

Lemma wp_configure getenv k (Q : bool → Kernel → Prop) E :
  holds k0 fd newSocket k →
  (∀ s k drop, env_flag_enabled "ASTRA_UDP_DROP_METRICS" (getenv "ASTRA_UDP_DROP_METRICS"%string) = inr drop →
     holds k0 fd s k → local s = None →
     configured ((if drop : bool then [(SOL_SOCKET, SO_RXQ_OVFL, 1)] else []) ++ basics (8 * 1024 * 1024)) s → Q drop k) →
  (∀ e k, owned k0 fd k → refused k0 → E e k) →
  (∀ e k, env_flag_enabled "ASTRA_UDP_DROP_METRICS" (getenv "ASTRA_UDP_DROP_METRICS"%string) = inl e → owned k0 fd k → E e k) →
  wp (configure getenv fd) Q E k.
Proof.
  intros H Hok Hno Hflag. unfold configure.
  wp_step. apply wp_nonblocking; [done| |done]. intros s1 k1 H1 C1 L1.
  wp_step. apply (wp_option s1 k1 []); [done|done|compute_done| |done]. intros s2 k2 H2 C2 L2.
  wp_step. apply (wp_option s2 k2 _ _ _ _ _ _ _ H2 C2); [compute_done| |done]. intros s3 k3 H3 C3 L3.
  wp_step. apply (wp_hint s3 k3 _ _ _ _ _ H3 C3); [compute_done|compute_done|]. intros s4 k4 H4 C4 L4.
  wp_step. apply (wp_hint s4 k4 _ _ _ _ _ H4 C4); [compute_done|compute_done|]. intros s5 k5 H5 C5 L5.
  wp_step. wp_step. destruct (env_flag_enabled _ _) as [e|drop] eqn:Ef; [apply Hflag; eauto with prog|].
  assert (∀ s k, holds k0 fd s k → local s = None →
    configured ((if drop then [(SOL_SOCKET, SO_RXQ_OVFL, 1)] else []) ++ basics (8 * 1024 * 1024)) s →
    wp (hintCpu fd;; mret drop) Q E k) as Hend.
  { intros s6 k6 H6 L6 C6. wp_step. apply (wp_hintCpu s6 k6 _ _ _ H6 C6); [destruct drop; compute_done|]. intros s7 k7 H7 C7 L7.
    wp_step. eapply Hok; [done|exact H7|by rewrite L7|done]. }
  wp_step. wp_step; subst drop.
  - apply (wp_option s5 k5 _ _ _ _ _ _ _ H5 C5); [compute_done| |done]. intros s6 k6 H6 C6 L6.
    apply (Hend s6); [done|by rewrite L6, L5, L4, L3, L2|done].
  - apply (Hend s5); [done|by rewrite L5, L4, L3, L2|done].
Qed.

Lemma wp_configureBatch k (Q : () → Kernel → Prop) E :
  holds k0 fd newSocket k →
  (∀ s k, holds k0 fd s k → local s = None →
     configured ((SOL_SOCKET, SO_RXQ_OVFL, 1) :: basics (64 * 1024 * 1024)) s → Q () k) →
  (∀ e k, owned k0 fd k → refused k0 → E e k) → wp (configureBatch fd) Q E k.
Proof.
  intros H Hok Hno. unfold configureBatch.
  wp_step. apply wp_nonblocking; [done| |done]. intros s1 k1 H1 C1 L1.
  wp_step. apply (wp_option s1 k1 []); [done|done|compute_done| |done]. intros s2 k2 H2 C2 L2.
  wp_step. apply (wp_option s2 k2 _ _ _ _ _ _ _ H2 C2); [compute_done| |done]. intros s3 k3 H3 C3 L3.
  wp_step. apply (wp_hint s3 k3 _ _ _ _ _ H3 C3); [compute_done|compute_done|]. intros s4 k4 H4 C4 L4.
  wp_step. apply (wp_hint s4 k4 _ _ _ _ _ H4 C4); [compute_done|compute_done|]. intros s5 k5 H5 C5 L5.
  wp_step. apply (wp_hintCpu s5 k5 _ _ _ H5 C5); [compute_done|]. intros s6 k6 H6 C6 L6.
  apply (wp_option s6 k6 _ _ _ _ _ _ _ H6 C6); [compute_done| |done]. intros s7 k7 H7 C7 L7.
  apply (Hok s7); [done|by rewrite L7, L6, L5, L4, L3, L2|done].
Qed.

End construction.

(** ** Descriptors that are given back *)

(** [k'] has the descriptors of [k]; those opened in between were closed, once each. *)
Definition restored (k k' : Kernel) : Prop :=
  descriptors k' = descriptors k ∧
  ∃ fds, closed k' = closed k ++ fds ∧ NoDup fds ∧ Forall (λ fd, descriptors k !! fd = None) fds.

(** [k'] has one more descriptor, [fd] with the socket [s]. *)
Definition opened (fd : Z) (s : Socket) (k k' : Kernel) : Prop :=
  0 <= fd ∧ descriptors k !! fd = None ∧ descriptors k' = <[fd := s]> (descriptors k) ∧ closed k' = closed k.

Lemma restored_same k k' : descriptors k' = descriptors k → closed k' = closed k → restored k k'.
Proof. intros Hd Hc. split; [done|]. exists []. rewrite app_nil_r. by repeat constructor. Qed.

Lemma close_opened fd s k k' k2 : opened fd s k k' → restored k' k2 → restored k (close fd k2).
Proof.
  intros (Hf&Hn&Hd&Hc) [Hd2 (fds&Hc2&Hnd&Hall)]. split.
  - cbn [close descriptors]. by rewrite Hd2, Hd, delete_insert_id.
  - exists (fds ++ [fd]). cbn [close closed]. rewrite Hc2, Hc, <- (assoc_L (++)). split; [done|].
    rewrite Hd in Hall. assert (fd ∉ fds) as Hfresh.
    { intros Hin. rewrite Forall_forall in Hall. specialize (Hall fd Hin). by rewrite lookup_insert_eq in Hall. }
    split.
    + apply NoDup_app. split; [done|]. split; [|apply NoDup_singleton]. intros x Hx ->%list_elem_of_singleton. done.
    + apply Forall_app. split; [|by constructor]. apply (Forall_impl _ _ _ Hall). intros x [? ?]%lookup_insert_None. done.
Qed.

Lemma wp_withSocket {A} (body : Z → Prog Kernel A) Q (E : string → Kernel → Prop) k :
  (∀ e k', restored k k' → refused k → E e k') →
  (∀ fd k', 0 <= fd → descriptors k !! fd = None → holds k fd newSocket k' →
     wp (body fd) Q (λ e k2, owned k fd k2 ∧ ∀ k3, restored k k3 → E e k3) k') →
  wp (withSocket body) Q E k.
Proof.
  intros Hno Hbody. unfold withSocket, throw_errno. wp_step. rewrite wp_unfold. unfold socket.
  destruct (default None (head (answers k))) as [e|] eqn:He.
  - wp_step. apply Hno; [by apply restored_same|]. by apply (refused_head k k e).
  - set (n := lowestFree _). pose proof (lowestFree_fresh (descriptors k)) as Hf. unfold scoped. wp_step.
    pose proof (lowestFree_nonneg (descriptors k)) as Hp.
    eapply wp_mono; [apply (Hbody n)| |]; [exact Hp|exact Hf| |done|].
    { repeat split. by apply suffix_tail. }
    intros e k2 [(s&Hd&Hc&_) HE]. apply HE. apply (close_opened _ s k k2 k2); [by repeat split|by apply restored_same].
Qed.

(** ** Claims *)

Section claims.
Context (inet_pton : list Z → option Z).

(** A socket that is bound to the port on every interface, has the required options, and is
    a member of the group when the address is a multicast group. *)
Definition listening (rcvbuf port group : Z) (drop_metrics : bool) (s : Socket) : Prop :=
  nonblocking s = true ∧ local s = Some (INADDR_ANY, port) ∧
  options s !! (SOL_SOCKET, SO_REUSEADDR) = Some 1 ∧ options s !! (SOL_SOCKET, SO_RCVBUF) = Some rcvbuf ∧
  options s !! (SOL_SOCKET, SO_RXQ_OVFL) = (if drop_metrics then Some 1 else None) ∧
  options s !! (IPPROTO_IP, IP_ADD_MEMBERSHIP) = (if is_multicast group then Some group else None).

Lemma configured_listening rcvbuf port group (drop multicast : bool) s :
  multicast = is_multicast group →
  configured ((if multicast then [(IPPROTO_IP, IP_ADD_MEMBERSHIP, group)] else []) ++
              (if drop then [(SOL_SOCKET, SO_RXQ_OVFL, 1)] else []) ++ basics rcvbuf) s →
  local s = Some (INADDR_ANY, port) → listening rcvbuf port group drop s.
Proof.
  intros -> (Hn&Hl&Ho) Hloc. do 2 (split; [done|]).
  split; [apply Hl, elem_of_app; right; apply elem_of_app; right; apply list_elem_of_further, list_elem_of_here|].
  split; [apply Hl, elem_of_app; right; apply elem_of_app; right; apply list_elem_of_here|]. split.
  - destruct drop; [apply Hl, elem_of_app; right; apply list_elem_of_here|].
    apply Ho; [destruct (is_multicast group); compute_done|compute_done].
  - destruct (is_multicast group); [apply Hl, list_elem_of_here|].
    apply Ho; [destruct drop; compute_done|compute_done].
Qed.

(** [bind], the group, and the end of a constructor. *)
Lemma wp_listen {R} k0 fd s k ip port rcvbuf (drop : bool) (r : R) :
  0 <= fd → descriptors k0 !! fd = None → holds k0 fd s k → configured ((if drop then [(SOL_SOCKET, SO_RXQ_OVFL, 1)] else []) ++ basics rcvbuf) s →
  wp (require "bind" (bind fd INADDR_ANY port);; joinGroup inet_pton fd ip;; mret (mkOpen fd r))
    (λ o k', o = mkOpen fd r ∧ ∃ s group, opened fd s k0 k' ∧ inet_pton ip = Some group ∧ listening rcvbuf port group drop s)
    (λ _ k', owned k0 fd k' ∧ (refused k0 ∨ inet_pton ip = None)) k.
Proof.
  intros Hp Hf H C. wp_step. apply (wp_require k0 fd s); [done| |by auto]. intros k1 H1. cbn beta in H1.
  apply configured_local with (o := Some (INADDR_ANY, port)) in C. set (s1 := mkSocket _ _ _) in *.
  unfold joinGroup. wp_step. destruct (inet_pton ip) as [group|] eqn:Ei; [|wp_step; eauto with prog]. wp_step.
  - apply (wp_option k0 fd s1 k1 _ _ _ _ _ _ _ H1 C); [destruct drop; compute_done| |by auto]. intros s2 k2 H2 C2 L2. wp_step. split; [done|].
    exists s2, group. destruct H2 as (Hd&Hc&_). split; [by repeat split|]. split; [done|].
    apply (configured_listening _ _ _ _ true); [done|exact C2|by rewrite L2].
  - wp_step. split; [done|]. exists s1, group. destruct H1 as (Hd&Hc&_). split; [by repeat split|]. split; [done|].
    by apply (configured_listening _ _ _ _ false).
Qed.

Lemma udp_receiver_opens getenv ip port deliveries k :
  wp (openUdpReceiver inet_pton getenv ip port deliveries)
    (λ o k', ∃ s group drop, opened (fd o) s k k' ∧ inet_pton ip = Some group ∧
       env_flag_enabled "ASTRA_UDP_DROP_METRICS" (getenv "ASTRA_UDP_DROP_METRICS"%string) = inr drop ∧
       receiver o = UdpReceiver.make drop deliveries ∧ listening (8 * 1024 * 1024) port group drop s)
    (λ _ k', restored k k' ∧ (refused k ∨ inet_pton ip = None ∨
       ∃ e, env_flag_enabled "ASTRA_UDP_DROP_METRICS" (getenv "ASTRA_UDP_DROP_METRICS"%string) = inl e)) k.
Proof.
  unfold openUdpReceiver. apply wp_withSocket; [by auto|]. intros n k1 Hp Hf H1. wp_step.
  apply (wp_configure k n); [done| |by eauto 10|by eauto 10]. intros s2 k2 drop Ef H2 L2 C2.
  eapply wp_mono; [by apply (wp_listen k n s2 k2 ip port (8 * 1024 * 1024) drop)| |intros e k3 [? [?|?]]; by auto].
  intros o k3 [-> (s&group&Ho&Hg&Hl)]. by exists s, group, drop.
Qed.

Lemma udp_batch_receiver_opens ip port batch deliveries k :
  wp (openUdpBatchReceiver inet_pton ip port batch deliveries)
    (λ o k', ∃ s group, opened (fd o) s k k' ∧ inet_pton ip = Some group ∧
       receiver o = UdpBatchReceiver.make batch deliveries ∧ listening (64 * 1024 * 1024) port group true s)
    (λ _ k', restored k k' ∧ (refused k ∨ inet_pton ip = None)) k.
Proof.
  unfold openUdpBatchReceiver. apply wp_withSocket; [by auto|]. intros n k1 Hp Hf H1. wp_step.
  apply (wp_configureBatch k n); [done| |by auto]. intros s2 k2 H2 L2 C2.
  eapply wp_mono; [by apply (wp_listen k n s2 k2 ip port (64 * 1024 * 1024) true)| |intros e k3 [? [?|?]]; by auto].
  intros o k3 [-> (s&group&Ho&Hg&Hl)]. by exists s, group.
Qed.

(** A constructor that either throws with every descriptor given back, or hands over one new
    descriptor. *)
Definition opens {R} (m : Prog Kernel (Open R)) : Prop := ∀ k,
  wp m (λ o k', ∃ s, opened (fd o) s k k') (λ _ k', restored k k') k.

Lemma udp_opens getenv ip port deliveries : opens (openUdpReceiver inet_pton getenv ip port deliveries).
Proof.
  intros k. eapply wp_mono; [apply udp_receiver_opens| |]; [|by intros ?? [? _]]. intros o k' (s&?&?&Ho&_). by exists s.
Qed.

Lemma batch_opens ip port batch deliveries : opens (openUdpBatchReceiver inet_pton ip port batch deliveries).
Proof.
  intros k. eapply wp_mono; [apply udp_batch_receiver_opens| |]; [|by intros ?? [? _]]. intros o k' (s&?&Ho&_). by exists s.
Qed.

Lemma close_receiver {R} (o : Open R) s k k' k2 : opened (fd o) s k k' → restored k' k2 → restored k (closeReceiver o k2).
Proof. intros Ho Hr. unfold closeReceiver. rewrite (proj2 (Z.leb_le _ _) (proj1 Ho)). by apply (close_opened _ s k k'). Qed.

Lemma both_open {R} (a b : Prog Kernel (Open R)) k : opens a → opens b →
  wp (openBoth a b)
    (λ d k', ∃ sa sb, fd (fst d) ≠ fd (snd d) ∧ descriptors k !! fd (fst d) = None ∧ descriptors k !! fd (snd d) = None ∧
       descriptors k' = <[fd (snd d) := sb]> (<[fd (fst d) := sa]> (descriptors k)) ∧ closed k' = closed k ∧
       restored k (closeBoth d k'))
    (λ _ k', restored k k') k.
Proof.
  intros Ha Hb. unfold openBoth. wp_step. eapply wp_mono; [apply Ha| |done]. intros oa k1 (sa&Hoa).
  wp_step. wp_step. eapply wp_mono; [apply Hb| |].
  - intros ob k2 (sb&Hob). wp_step. cbn [fst snd]. exists sa, sb.
    assert (restored k (closeBoth (oa, ob) k2)) as Hr.
    { unfold closeBoth. apply (close_receiver oa sa k k1); [done|]. by apply (close_receiver ob sb k1 k2 k2); [|apply restored_same]. }
    destruct Hoa as (?&Hna&Hda&Hca), Hob as (?&Hnb&Hdb&Hcb). rewrite Hda in Hnb, Hdb.
    apply lookup_insert_None in Hnb as [Hnb Hne]. repeat (split; [congruence|]). done.
  - intros e k2 Hr. by apply (close_receiver oa sa k k1).
Qed.

(** C28. The sockets of the receivers are set up as intended, whatever the
    kernel answers: a constructor of [UdpReceiver] or [UdpBatchReceiver] that returns has
    opened exactly one descriptor, which was free, for a socket that is non-blocking, has
    the required options (address reuse, the receive buffer, and the drop counter exactly
    when its metrics are on), is bound to the port on every interface and is a member of the
    group exactly when the address is a multicast group.  A constructor that throws has
    closed what it opened, and throws only when a call was refused, the address is not one,
    or the drop-metrics flag has no valid spelling. *)
Theorem receivers_listen getenv ip port deliveries batch batches k :
  let flag := env_flag_enabled "ASTRA_UDP_DROP_METRICS" (getenv "ASTRA_UDP_DROP_METRICS"%string) in
  match openUdpReceiver inet_pton getenv ip port deliveries k with
  | (inr o, k') => ∃ s group drop, opened (fd o) s k k' ∧ inet_pton ip = Some group ∧ flag = inr drop ∧
      receiver o = UdpReceiver.make drop deliveries ∧ listening (8 * 1024 * 1024) port group drop s
  | (inl _, k') => restored k k' ∧ (refused k ∨ inet_pton ip = None ∨ ∃ e, flag = inl e)
  end ∧
  match openUdpBatchReceiver inet_pton ip port batch batches k with
  | (inr o, k') => ∃ s group, opened (fd o) s k k' ∧ inet_pton ip = Some group ∧
      receiver o = UdpBatchReceiver.make batch batches ∧ listening (64 * 1024 * 1024) port group true s
  | (inl _, k') => restored k k' ∧ (refused k ∨ inet_pton ip = None)
  end.
Proof.
  intros flag. split.
  - pose proof (udp_receiver_opens getenv ip port deliveries k) as H. rewrite wp_unfold in H. by repeat case_match.
  - pose proof (udp_batch_receiver_opens ip port batch batches k) as H. rewrite wp_unfold in H. by repeat case_match.
Qed.

(** The two-line receivers own both sockets or none: the
    constructor of [DualUdpReceiver] or [DualUdpBatchReceiver] that returns has opened two
    different new descriptors, and the destructor closes each of them once and no other; a
    constructor that throws, on either line, leaves the descriptors as they were, and
    everything it closed it had opened itself. *)
Theorem dual_receivers_release getenv ip_a port_a ip_b port_b batch da db ba bb k :
  match openDualUdpReceiver inet_pton getenv ip_a port_a ip_b port_b da db k with
  | (inr (a, b), k') => fd a ≠ fd b ∧ (∃ sa sb, descriptors k' = <[fd b := sb]> (<[fd a := sa]> (descriptors k))) ∧
      restored k (closeBoth (a, b) k')
  | (inl _, k') => restored k k'
  end ∧
  match openDualUdpBatchReceiver inet_pton ip_a port_a ip_b port_b batch ba bb k with
  | (inr (a, b), k') => fd a ≠ fd b ∧ (∃ sa sb, descriptors k' = <[fd b := sb]> (<[fd a := sa]> (descriptors k))) ∧
      restored k (closeBoth (a, b) k')
  | (inl _, k') => restored k k'
  end.
Proof.
  split.
  - pose proof (both_open _ _ k (udp_opens getenv ip_a port_a da) (udp_opens getenv ip_b port_b db)) as H.
    rewrite wp_unfold in H. unfold openDualUdpReceiver. repeat case_match; [done|]. simplify_eq.
    destruct H as (sa&sb&Hne&_&_&Hd&_&Hr). repeat (split; [by eauto|]). done.
  - pose proof (both_open _ _ k (batch_opens ip_a port_a batch ba) (batch_opens ip_b port_b batch bb)) as H.
    rewrite wp_unfold in H. unfold openDualUdpBatchReceiver. repeat case_match; [done|]. simplify_eq.
    destruct H as (sa&sb&Hne&_&_&Hd&_&Hr). repeat (split; [by eauto|]). done.
Qed.

(** ** Senders *)

(** A sender's socket: one new descriptor, towards the address given. *)
Lemma wp_openUdpSender ip port k :
  wp (openUdpSender inet_pton ip port)
    (λ s k', ∃ address, inet_pton ip = Some address ∧ dest s = (address, port) ∧ opened (sender_fd s) newSocket k k' ∧
       answers k' `suffix_of` answers k)
    (λ _ k', restored k k' ∧ (refused k ∨ inet_pton ip = None)) k.
Proof.
  unfold openUdpSender, throw_errno. destruct (inet_pton ip) as [address|] eqn:Ei;
    [|wp_step; split; [by apply restored_same|by right]].
  wp_step. rewrite wp_unfold. unfold socket. destruct (default None (head (answers k))) as [e|] eqn:He; wp_step.
  - split; [by apply restored_same|]. left. by apply (refused_head k k e).
  - exists address. repeat split; [apply lowestFree_nonneg|apply lowestFree_fresh|by apply suffix_tail].
Qed.

Lemma close_sender s so k k' k2 : opened (sender_fd s) so k k' → restored k' k2 → restored k (closeUdpSender s k2).
Proof. intros Ho Hr. unfold closeUdpSender. rewrite (proj2 (Z.leb_le _ _) (proj1 Ho)). by apply (close_opened _ so k k'). Qed.

End claims.

End SocketsProps.
