(* ===== verification/DpdkSetup.v ===== *)
(** The set-up and tear-down of the network device in [source/DpdkReceiver.cpp]: the
    constructors and the destructor of [DpdkReceiver::Impl].

    DPDK is not part of the program.  A call into it is recorded with its arguments and its
    result; the results are the list [answers], arbitrary in every theorem (zero once it is
    exhausted), and a call that hands out a pool or a flow rule gives it a new number.
    What the device reports about itself is the record [Device].  [Process] is the part of
    the process that outlives a receiver: whether the environment abstraction layer was
    initialised, the record of calls, and [rte_errno]. *)
From stdpp Require Import base list gmap strings.
From Stdlib Require Import ZArith Lia Ascii.
From S2P Require Import Prelude Bits BookTypes Protocol Gap Capacity Manifest Engine Effects Dpdk.
#[local] Open Scope Z_scope.
#[local] Open Scope astra_scope.

Module DpdkSetup.
Import Protocol DpdkReceiver.

(** ** DPDK *)

(** A flow rule for ingress: what it compares of the IPv4 and UDP headers, each field with
    its mask, and the queue that receives what matches. *)
Record FlowRule := mkRule {
  proto_spec : Z;
  proto_mask : Z;
  dst_spec : Z;
  dst_mask : Z;
  port_spec : Z;
  port_mask : Z;
  queue : Z }.

Inductive Call :=
  | EalInit (args : list (list Z))
  | DevInfo (port : Z)
  | Isolate (port : Z) (on : bool)
  | PoolCreate (name_port size cache socket : Z) (pool : Z)
  | PoolFree (pool : Z)
  | Configure (port rx_queues tx_queues : Z)
  | AdjustDesc (port rx_desc : Z)
  | RxQueueSetup (port queue rx_desc socket pool : Z)
  | FlowValidate (port : Z) (rule : FlowRule)
  | FlowCreate (port : Z) (rule : FlowRule) (flow : Z)
  | FlowDestroy (port flow : Z)
  | DevStart (port : Z)
  | DevStop (port : Z)
  | DevClose (port : Z)
  | PromiscuousEnable (port : Z)
  | AllMulticastEnable (port : Z).

Record Process := mkProcess {
  eal_initialized : bool;
  answers : list Z;
  calls : list (Call * Z);
  next_handle : Z;
  rte_errno : Z }.

(** What the device and the library report. *)
Record Device := mkDevice {
  dev_count_avail : Z;
  is_valid_port : Z → bool;
  max_rx_queues : Z;
  dev_socket_id : Z → Z;
  current_socket_id : Z;
  (** The number of descriptors that the device makes of a request. *)
  adjusted_desc : Z → Z;
  rte_strerror : Z → string;
  flow_error_message : option string }.

(** A call and its result. *)
Definition invoke (c : Call) : Prog Process Z := λ p,
  let ret := default 0 (head (answers p)) in
  (inr ret, mkProcess (eal_initialized p) (tail (answers p)) (calls p ++ [(c, ret)]) (next_handle p) (rte_errno p)).

(** A call that returns a pointer; a null pointer sets [rte_errno]. *)
Definition acquire (c : Z → Call) : Prog Process (option Z) := λ p,
  let ret := default 0 (head (answers p)) in
  let handle := next_handle p in
  let ok := ret =? 0 in
  (inr (if ok then Some handle else None),
   mkProcess (eal_initialized p) (tail (answers p)) (calls p ++ [(c handle, ret)])
     (if ok then handle + 1 else handle) (if ok then rte_errno p else ret)).

Section setup.
Context (device : Device) (getenv : string → option (list Z)) (inet_pton : list Z → option Z).

Definition dpdkError (what : string) (ret errno : Z) : string :=
  let errnum := if ret <? 0 then - ret else errno in
  if negb (errnum =? 0) then (what +:+ ": " +:+ rte_strerror device errnum)%string else what.

Definition flowError (what : string) (errno : Z) : string :=
  match flow_error_message device with
  | Some m => (what +:+ ": " +:+ m)%string
  | None => if negb (errno =? 0) then (what +:+ ": " +:+ rte_strerror device errno)%string else what
  end.

Definition throwDpdk {A} (what : string) (ret : Z) : Prog Process A :=
  errno ← gets rte_errno; throw (dpdkError what ret errno).

Definition throwFlow {A} (what : string) : Prog Process A :=
  errno ← gets rte_errno; throw (flowError what errno).

(** [ret = call; if (ret < 0) throwDpdk(what, ret)]. *)
Definition requireCall (what : string) (c : Call) : Prog Process () :=
  ret ← invoke c; if ret <? 0 then throwDpdk what ret else mret ().

(** ** The environment abstraction layer *)

Definition initializeEalOnce : Prog Process () :=
  initialized ← gets eal_initialized;
  if initialized : bool then mret () else
  extra ← lift (match getenv "ASTRA_DPDK_EAL_ARGS"%string with Some args => splitArgs args | None => inr [] end);
  requireCall "rte_eal_init" (EalInit (Manifest.str "astra-dpdk" :: extra));;
  modify (λ p, mkProcess true (answers p) (calls p) (next_handle p) (rte_errno p)).

(** ** Flow rules *)

Definition kUint8Max : Z := 255.

(** The rule of [installEndpointFlow]: UDP to the endpoint's port, and to its address
    when it has one. *)
Definition endpointRule (endpoint : EndpointFilter) (queue_id : Z) : FlowRule :=
  mkRule protocolUdp kUint8Max
    (if match_ip endpoint then ip endpoint else 0) (if match_ip endpoint then max_u32 else 0)
    (port endpoint) max_u16 queue_id.

Definition installEndpointFlow (port_id queue_id : Z) (endpoint : EndpointFilter) : Prog Process Z :=
  let rule := endpointRule endpoint queue_id in
  ret ← invoke (FlowValidate port_id rule);
  if negb (ret =? 0) then throwFlow "rte_flow_validate" else
  flow ← acquire (FlowCreate port_id rule);
  match flow with Some f => mret f | None => throwFlow "rte_flow_create" end.

(** The rules in the order of [flows_]. *)
Definition installFlowFilters (port_id queue_id : Z) (line_a line_b : EndpointFilter) : Prog Process (list Z) :=
  a ← installEndpointFlow port_id queue_id line_a;
  if enabled line_b then b ← installEndpointFlow port_id queue_id line_b; mret [a; b] else mret [a].

Definition enableFlowIsolation (port_id : Z) : Prog Process () :=
  ret ← invoke (Isolate port_id true);
  if negb (ret =? 0) then throwFlow "rte_flow_isolate" else mret ().

(** ** The receiver *)

Definition kDefaultMempoolSize : Z := 65535.
Definition kDefaultMbufCacheSize : Z := 256.
Definition kDefaultRxDesc : Z := 4096.
Definition max_i32 : Z := 2147483647.

(** The members that the set-up fixes, and the receive state of [Dpdk]. *)
Record Impl := mkImpl {
  port_id : Z;
  queue_id : Z;
  rx_desc : Z;
  socket_id : Z;
  mempool_size : Z;
  mbuf_cache_size : Z;
  promiscuous : bool;
  all_multicast : bool;
  flow_filter : bool;
  flow_isolated : bool;
  configured : bool;
  started : bool;
  mempool : option Z;
  flows : list Z;
  receiver : DpdkReceiver.t }.

(** The settings that [initialize] reads once the device is known to be there. *)
Record Tuning := mkTuning {
  t_rx_desc : Z;
  t_mempool_size : Z;
  t_mbuf_cache_size : Z;
  t_promiscuous : bool;
  t_all_multicast : bool;
  t_flow_filter : bool }.

Definition readTuning : string + Tuning :=
  rx ← envUnsigned getenv "ASTRA_DPDK_RX_DESC" kDefaultRxDesc 1 max_u16;
  pool ← envUnsigned getenv "ASTRA_DPDK_MEMPOOL_SIZE" kDefaultMempoolSize 1024 max_u32;
  cache ← envUnsigned getenv "ASTRA_DPDK_MBUF_CACHE_SIZE" kDefaultMbufCacheSize 0 max_u32;
  promisc ← envFlag getenv "ASTRA_DPDK_PROMISCUOUS" false;
  multicast ← envFlag getenv "ASTRA_DPDK_ALLMULTICAST" true;
  filter ← envFlag getenv "ASTRA_DPDK_FLOW_FILTER" true;
  inr (mkTuning rx pool cache promisc multicast filter).

(** The port, once it is known to be usable. *)
Definition selectPort : Prog Process (Z * Z) :=
  port_id ← lift (envUnsigned getenv "ASTRA_DPDK_PORT_ID" 0 0 max_u16);
  queue_id ← lift (envUnsigned getenv "ASTRA_DPDK_QUEUE_ID" 0 0 max_u16);
  (if negb (queue_id =? 0)
   then throw "DpdkReceiver is single-queue in this stage; set ASTRA_DPDK_QUEUE_ID=0" else mret ());;
  (if dev_count_avail device =? 0 then throw "no DPDK Ethernet ports are available" else mret ());;
  (if negb (is_valid_port device port_id) then throw "ASTRA_DPDK_PORT_ID is not a valid DPDK port" else mret ());;
  ret ← invoke (DevInfo port_id);
  (if negb (ret =? 0) then throwDpdk "rte_eth_dev_info_get" ret else mret ());;
  (if max_rx_queues device <? 1 then throw "DPDK port does not report any supported RX queues" else mret ());;
  mret (port_id, queue_id).

Definition selectSocket (port_id : Z) : string + Z :=
  chosen ← match getenv "ASTRA_DPDK_SOCKET_ID"%string with
           | Some _ => envUnsigned getenv "ASTRA_DPDK_SOCKET_ID" 0 0 max_i32
           | None => inr (dev_socket_id device port_id)
           end;
  inr (if chosen <? 0 then current_socket_id device else chosen).

Definition initialize (r : DpdkReceiver.t) : Prog Process Impl :=
  let line_a := DpdkReceiver.line_a (settings r) in
  let line_b := DpdkReceiver.line_b (settings r) in
  initializeEalOnce;;
  selected ← selectPort;
  let '(port_id, queue_id) := selected in
  tuning ← lift readTuning;
  when (t_flow_filter tuning) (enableFlowIsolation port_id);;
  socket_id ← lift (selectSocket port_id);
  pool ← acquire (PoolCreate port_id (t_mempool_size tuning) (t_mbuf_cache_size tuning) socket_id);
  match pool with
  | None => errno ← gets rte_errno; throwDpdk "rte_pktmbuf_pool_create" (- errno)
  | Some pool =>
    requireCall "rte_eth_dev_configure" (Configure port_id 1 0);;
    requireCall "rte_eth_dev_adjust_nb_rx_tx_desc" (AdjustDesc port_id (t_rx_desc tuning));;
    let rx_desc := adjusted_desc device (t_rx_desc tuning) in
    requireCall "rte_eth_rx_queue_setup" (RxQueueSetup port_id queue_id rx_desc socket_id pool);;
    flows ← (if t_flow_filter tuning then installFlowFilters port_id queue_id line_a line_b else mret []);
    requireCall "rte_eth_dev_start" (DevStart port_id);;
    when (t_promiscuous tuning) (_ ← invoke (PromiscuousEnable port_id); mret ());;
    when (t_all_multicast tuning) (_ ← invoke (AllMulticastEnable port_id); mret ());;
    mret (mkImpl port_id queue_id rx_desc socket_id (t_mempool_size tuning) (t_mbuf_cache_size tuning)
            (t_promiscuous tuning) (t_all_multicast tuning) (t_flow_filter tuning) (t_flow_filter tuning)
            true true (Some pool) flows r)
  end.

(** The members that are initialised before the body: [polls] is what the device will
    return.  An exception of [initialize] leaves the object unconstructed: its members
    are destroyed, but [~Impl] does not run. *)
Definition construct (line_a : string + EndpointFilter) (line_b : string + EndpointFilter)
    (polls : list (list Mbuf)) : Prog Process Impl :=
  a ← lift line_a;
  b ← lift line_b;
  burst_size ← lift (dpdkBurstSize getenv);
  mode ← lift (dpdkLatencyMode getenv);
  initialize (DpdkReceiver.make a b (Z.to_nat burst_size) mode polls).

(** [Impl(ip, port)] and [Impl(ip_a, port_a, ip_b, port_b)]. *)
Definition openDpdk (ip : option (list Z)) (port : Z) (polls : list (list Mbuf)) : Prog Process Impl :=
  construct (makeEndpoint inet_pton ip port) (inr noEndpoint) polls.
Definition openDpdkDual (ip_a : option (list Z)) (port_a : Z) (ip_b : option (list Z)) (port_b : Z)
    (polls : list (list Mbuf)) : Prog Process Impl :=
  construct (makeEndpoint inet_pton ip_a port_a) (makeEndpoint inet_pton ip_b port_b) polls.

(** ** The destructor *)

(** A call whose result is not looked at. *)
Definition issue (c : Call) (p : Process) : Process := snd (invoke c p).

Definition destroyFlowFilters (i : Impl) (p : Process) : Process :=
  let p := foldl (λ p flow, issue (FlowDestroy (port_id i) flow) p) p (flows i) in
  if flow_isolated i then issue (Isolate (port_id i) false) p else p.

(** [~Impl]: the buffers, the rules, the port and the pool. *)
Definition destruct_ (i : Impl) (p : Process) : DpdkReceiver.t * Process :=
  let receiver := DpdkReceiver.destroy (receiver i) in
  let p := destroyFlowFilters i p in
  let p := if started i then issue (DevStop (port_id i)) p else p in
  let p := if configured i then issue (DevClose (port_id i)) p else p in
  (receiver, match mempool i with Some pool => issue (PoolFree pool) p | None => p end).

End setup.

(** ** What is held *)

(** The calls that succeeded: a rule, a pool or the isolated mode needs the result zero,
    the others one that is not negative. *)
Definition succeeded (c : Call * Z) : bool :=
  match fst c with
  | Isolate _ _ | PoolCreate _ _ _ _ _ | FlowCreate _ _ _ | FlowDestroy _ _ => snd c =? 0
  | _ => 0 <=? snd c
  end.

(** The things that DPDK holds for the process. *)
Inductive Resource := Pool (pool : Z) | Flow (port flow : Z) | Isolation (port : Z) | Port (port : Z) | Running (port : Z).
#[global] Instance Resource_eq_dec : EqDecision Resource.
Proof. solve_decision. Defined.

Definition gained (c : Call) : option Resource :=
  match c with
  | PoolCreate _ _ _ _ pool => Some (Pool pool)
  | FlowCreate port _ flow => Some (Flow port flow)
  | Isolate port true => Some (Isolation port)
  | Configure port _ _ => Some (Port port)
  | DevStart port => Some (Running port)
  | _ => None
  end.

Definition given_up (c : Call) : option Resource :=
  match c with
  | PoolFree pool => Some (Pool pool)
  | FlowDestroy port flow => Some (Flow port flow)
  | Isolate port false => Some (Isolation port)
  | DevClose port => Some (Port port)
  | DevStop port => Some (Running port)
  | _ => None
  end.

Definition account (held : list Resource) (c : Call * Z) : list Resource :=
  if succeeded c then
    let held := match given_up (fst c) with Some r => filter (λ x, x ≠ r) held | None => held end in
    match gained (fst c) with Some r => r :: held | None => held end
  else held.

(** What is held after the calls of a process. *)
Definition held (l : list (Call * Z)) : list Resource := foldl account [] l.

End DpdkSetup.
