(* ===== verification/DpdkSetupProps.v ===== *)
(** Setting up the DPDK port: the exact calls of a set-up that succeeds and of the tear-down
    that undoes it, what a set-up that fails leaves behind, and the agreement of the
    hardware rules with the software filter. *)
From stdpp Require Import base list gmap strings.
From Stdlib Require Import ZArith Lia Ascii.
From S2P Require Import Prelude Bits BookTypes Protocol Gap Capacity Manifest Engine Effects Dpdk DpdkSetup.
#[local] Open Scope Z_scope.
#[local] Open Scope astra_scope.

Module DpdkSetupProps.
Import Protocol DpdkReceiver DpdkSetup.

(** ** The record of calls *)

(** The calls whose result is not looked at. *)
Definition optional (c : Call) : bool :=
  match c with PromiscuousEnable _ | AllMulticastEnable _ => true | _ => false end.

(** [p] has made the calls [l] since [p0], none of which gives anything up, and handed out
    [n] handles. *)
Definition after (p0 : Process) (l : list (Call * Z)) (n : Z) (p : Process) : Prop :=
  calls p = calls p0 ++ l ∧ next_handle p = next_handle p0 + n ∧ Forall (λ c, given_up (fst c) = None) l.

(** As [after], with the calls [cs], every one of which succeeded unless it is optional. *)
Definition made (p0 : Process) (cs : list Call) (n : Z) (p : Process) : Prop :=
  ∃ l, after p0 l n p ∧ fst <$> l = cs ∧ Forall (λ c, optional (fst c) = true ∨ succeeded c = true) l.

(** How a set-up fails: nothing has been given up. *)
Definition failed_from (p0 p : Process) : Prop := ∃ l n, after p0 l n p.

Lemma made_refl p : made p [] 0 p.
Proof. exists []. split; [|by repeat constructor]. split; [by rewrite app_nil_r|]. split; [lia|constructor]. Qed.

Lemma made_failed p0 cs n p : made p0 cs n p → failed_from p0 p.
Proof. intros (l&H&_). by exists l, n. Qed.
#[local] Hint Resolve made_failed : prog.

(** One more call. *)
Lemma made_step p0 cs n n' p p' c ret :
  made p0 cs n p → calls p' = calls p ++ [(c, ret)] → next_handle p' = next_handle p0 + n' → given_up c = None →
  failed_from p0 p' ∧ (optional c = true ∨ succeeded (c, ret) = true → made p0 (cs ++ [c]) n' p').
Proof.
  intros (l&(Hc&_&Hk)&Hf&Hg) Hc' Hn' Hu.
  assert (after p0 (l ++ [(c, ret)]) n' p') as Ha.
  { split; [by rewrite Hc', Hc, <- (assoc_L (++))|]. split; [done|]. apply Forall_app. split; [done|by repeat constructor]. }
  split; [by exists (l ++ [(c, ret)]), n'|]. intros Hs. exists (l ++ [(c, ret)]). split; [done|].
  split; [by rewrite fmap_app, Hf|]. apply Forall_app. split; [done|by apply Forall_singleton].
Qed.

Lemma made_same p0 cs n p p' : made p0 cs n p → calls p' = calls p → next_handle p' = next_handle p → made p0 cs n p'.
Proof. intros (l&(Hc&Hn&Hk)&H) Ec En. exists l. split; [|done]. split; [by rewrite Ec|]. split; [by rewrite En|done]. Qed.

Section rules.
Context (device : Device) (p0 : Process).
Implicit Types (p : Process) (cs : list Call) (E : string → Process → Prop).

Lemma wp_invoke cs n p c (Q : Z → Process → Prop) E : made p0 cs n p → given_up c = None →
  (∀ ret p', failed_from p0 p' → (optional c = true ∨ succeeded (c, ret) = true → made p0 (cs ++ [c]) n p') → Q ret p') →
  wp (invoke c) Q E p.
Proof.
  intros H Hu HQ. rewrite wp_unfold. unfold invoke.
  set (p' := mkProcess _ _ _ _ _). destruct (made_step p0 cs n n p p' c (default 0 (head (answers p))) H) as [Hf Hm]; [done| |done|].
  - destruct H as (l&(_&Hn&_)&_). done.
  - by apply HQ.
Qed.

Lemma wp_acquire cs n p c (Q : option Z → Process → Prop) E : made p0 cs n p →
  (∀ h, given_up (c h) = None) → (∀ h, succeeded (c h, 0) = true) →
  (∀ p', made p0 (cs ++ [c (next_handle p0 + n)]) (n + 1) p' → Q (Some (next_handle p0 + n)) p') →
  (∀ p', failed_from p0 p' → Q None p') → wp (acquire c) Q E p.
Proof.
  intros H Hu Hs Hok Hno. rewrite wp_unfold. unfold acquire. pose proof H as (l&(_&Hn&_)&_). rewrite Hn.
  destruct (Z.eqb_spec (default 0 (head (answers p))) 0) as [Ez|Ez]; set (p' := mkProcess _ _ _ _ _).
  - apply Hok. destruct (made_step p0 cs n (n + 1) p p' (c (next_handle p0 + n)) 0 H) as [_ Hm]; [by cbn; rewrite Ez|cbn; lia|done|].
    apply Hm. by right.
  - apply Hno. by eapply (made_step p0 cs n n p p' (c (next_handle p0 + n))).
Qed.

Lemma wp_throwDpdk {A} what ret (Q : A → Process → Prop) E p : (∀ e, E e p) → wp (throwDpdk device what ret) Q E p.
Proof. intros HE. unfold throwDpdk. wp_step. wp_step. wp_step. apply HE. Qed.

Lemma wp_throwFlow {A} what (Q : A → Process → Prop) E p : (∀ e, E e p) → wp (throwFlow device what) Q E p.
Proof. intros HE. unfold throwFlow. wp_step. wp_step. wp_step. apply HE. Qed.

Lemma wp_requireCall cs n p what c (Q : () → Process → Prop) E : made p0 cs n p → given_up c = None →
  (∀ ret, 0 <= ret → succeeded (c, ret) = true) →
  (∀ p', made p0 (cs ++ [c]) n p' → Q () p') → (∀ e p', failed_from p0 p' → E e p') →
  wp (requireCall device what c) Q E p.
Proof.
  intros H Hu Hs Hok Hno. unfold requireCall. wp_step. apply (wp_invoke cs n); [done|done|]. intros ret p' Hf Hm. wp_step.
  - apply wp_throwDpdk. intros e. by apply Hno.
  - wp_step. apply Hok, Hm. right. apply Hs. by apply Z.ltb_ge.
Qed.

(** A guard of the code that throws. *)
Lemma wp_check cs n (b : bool) e (Q : () → Process → Prop) E p : made p0 cs n p →
  (b = false → Q () p) → (∀ e p', failed_from p0 p' → E e p') → wp (if b then throw e else mret ()) Q E p.
Proof. intros H Hok Hno. destruct b; wp_step; [apply Hno; eauto with prog|by apply Hok]. Qed.

Lemma wp_setting {A} cs n (r : string + A) (Q : A → Process → Prop) E p : made p0 cs n p →
  (∀ a, r = inr a → Q a p) → (∀ e p', failed_from p0 p' → E e p') → wp (lift r) Q E p.
Proof. intros H Hok Hno. wp_step. destruct r; [apply Hno; eauto with prog|by apply Hok]. Qed.

End rules.

(** ** The steps of the set-up *)

Section setup.
Context (device : Device) (getenv : string → option (list Z)) (p0 : Process).
Implicit Types (p : Process) (cs : list Call) (E : string → Process → Prop).

(** The arguments of [rte_eal_init]. *)
Definition ealArgs : string + list (list Z) :=
  extra ← match getenv "ASTRA_DPDK_EAL_ARGS"%string with Some args => splitArgs args | None => inr [] end;
  inr (Manifest.str "astra-dpdk" :: extra).

Lemma wp_initializeEal (Q : () → Process → Prop) E :
  (∀ p cs, (if eal_initialized p0 then cs = [] else ∃ args, ealArgs = inr args ∧ cs = [EalInit args]) → eal_initialized p = true →
     made p0 cs 0 p → Q () p) →
  (∀ e p', failed_from p0 p' → E e p') → wp (initializeEalOnce device getenv) Q E p0.
Proof.
  intros Hok Hno. unfold initializeEalOnce. wp_step. wp_step. destruct (eal_initialized p0) eqn:Ei.
  - wp_step. by apply (Hok p0 []); [..|apply made_refl].
  - wp_step. apply (wp_setting p0 [] 0); [apply made_refl| |done]. intros extra Hx. wp_step.
    apply (wp_requireCall device p0 [] 0); [apply made_refl|done| | |done]; [intros ret Hr; by apply Z.leb_le|].
    intros p1 H1. wp_step. eapply Hok; [|done|]; [|by eapply made_same].
    eexists. split; [unfold ealArgs; by rewrite Hx|done].
Qed.

Lemma wp_selectPort cs p (Q : Z * Z → Process → Prop) E : made p0 cs 0 p →
  (∀ port_id p', envUnsigned getenv "ASTRA_DPDK_PORT_ID" 0 0 max_u16 = inr port_id → is_valid_port device port_id = true →
     made p0 (cs ++ [DevInfo port_id]) 0 p' → Q (port_id, 0) p') →
  (∀ e p', failed_from p0 p' → E e p') → wp (selectPort device getenv) Q E p.
Proof.
  intros H Hok Hno. unfold selectPort. wp_step. apply (wp_setting p0 cs 0); [done| |done]. intros port_id Hp.
  wp_step. apply (wp_setting p0 cs 0); [done| |done]. intros queue_id Hq.
  wp_step. apply (wp_check p0 cs 0); [done| |done]. intros Eq%negb_false_iff%Z.eqb_eq.
  wp_step. apply (wp_check p0 cs 0); [done| |done]. intros _.
  wp_step. apply (wp_check p0 cs 0); [done| |done]. intros Hv%negb_false_iff.
  wp_step. apply (wp_invoke p0 cs 0); [done|done|]. intros ret p1 Hf Hm. wp_step.
  destruct (Z.eqb_spec ret 0) as [->|Hr]; cbn [negb]; [|apply wp_throwDpdk; intros e; by apply Hno].
  wp_step. specialize (Hm (or_intror eq_refl)). wp_step. apply (wp_check p0 _ 0 _ _ _ _ p1 Hm); [|done]. intros _.
  wp_step. subst queue_id. by apply Hok.
Qed.

Lemma wp_installEndpointFlow cs n p port_id queue_id e (Q : Z → Process → Prop) E : made p0 cs n p →
  (∀ p', let flow := next_handle p0 + n in let rule := endpointRule e queue_id in
     made p0 (cs ++ [FlowValidate port_id rule; FlowCreate port_id rule flow]) (n + 1) p' → Q flow p') →
  (∀ e p', failed_from p0 p' → E e p') → wp (installEndpointFlow device port_id queue_id e) Q E p.
Proof.
  intros H Hok Hno. unfold installEndpointFlow. wp_step. apply (wp_invoke p0 cs n); [done|done|]. intros ret p1 Hf Hm.
  destruct (Z.eqb_spec ret 0) as [->|Hr]; cbn [negb]; [|apply wp_throwFlow; intros x; by apply Hno].
  specialize (Hm (or_intror eq_refl)). wp_step. apply (wp_acquire p0 _ n p1 _ _ _ Hm); [done|done| |].
  - intros p2 H2. wp_step. apply Hok. by rewrite <- (assoc_L (++)) in H2.
  - intros p2 Hf2. apply wp_throwFlow. intros x. by apply Hno.
Qed.

(** The endpoints that get a rule. *)
Definition endpoints (r : DpdkReceiver.t) : list EndpointFilter :=
  line_a (settings r) :: (if enabled (line_b (settings r)) then [line_b (settings r)] else []).

Definition flowCalls (port_id : Z) (es : list EndpointFilter) (flows : list Z) : list Call :=
  mjoin (zip_with (λ e f, [FlowValidate port_id (endpointRule e 0); FlowCreate port_id (endpointRule e 0) f]) es flows).

Lemma wp_installFlowFilters cs n p port_id r (Q : list Z → Process → Prop) E : made p0 cs n p →
  (∀ p' flows, flows = seqZ (next_handle p0 + n) (Z.of_nat (length (endpoints r))) →
     made p0 (cs ++ flowCalls port_id (endpoints r) flows) (n + Z.of_nat (length flows)) p' → Q flows p') →
  (∀ e p', failed_from p0 p' → E e p') →
  wp (installFlowFilters device port_id 0 (line_a (settings r)) (line_b (settings r))) Q E p.
Proof.
  intros H Hok Hno. unfold installFlowFilters, endpoints in *. wp_step.
  apply (wp_installEndpointFlow cs n); [done| |done]. intros p1 flow rule H1. wp_step.
  - wp_step. apply (wp_installEndpointFlow _ (n + 1) p1 _ _ _ _ _ H1); [|done]. intros p2 flow2 rule2 H2. wp_step.
    apply Hok; [|by rewrite <- (assoc_L (++)) in H2; replace (n + 1 + 1) with (n + 2) in H2 by lia].
    unfold flow, flow2. unfold seqZ. cbn [length Z.of_nat]. change (Z.to_nat _) with 2%nat. cbn [seq fmap list_fmap Z.of_nat].
    by replace (next_handle p0 + (n + 1)) with (1 + (next_handle p0 + n)) by lia.
  - wp_step. by apply Hok.
Qed.

(** The calls of a set-up that succeeds, after those of [rte_eal_init]. *)
Definition setupCalls (t : Tuning) (i : Impl) (pool : Z) : list Call :=
  [DevInfo (port_id i)] ++ (if t_flow_filter t then [Isolate (port_id i) true] else []) ++
  [PoolCreate (port_id i) (t_mempool_size t) (t_mbuf_cache_size t) (socket_id i) pool;
   Configure (port_id i) 1 0; AdjustDesc (port_id i) (t_rx_desc t);
   RxQueueSetup (port_id i) 0 (rx_desc i) (socket_id i) pool] ++
  (if t_flow_filter t then flowCalls (port_id i) (endpoints (receiver i)) (flows i) else []) ++
  [DevStart (port_id i)] ++ (if t_promiscuous t then [PromiscuousEnable (port_id i)] else []) ++
  (if t_all_multicast t then [AllMulticastEnable (port_id i)] else []).

(** The object that a set-up with the settings [t] constructs. *)
Definition constructed (t : Tuning) (r : DpdkReceiver.t) (i : Impl) : Prop :=
  ∃ port socket, envUnsigned getenv "ASTRA_DPDK_PORT_ID" 0 0 max_u16 = inr port ∧ is_valid_port device port = true ∧
  selectSocket device getenv port = inr socket ∧
  i = mkImpl port 0 (adjusted_desc device (t_rx_desc t)) socket (t_mempool_size t) (t_mbuf_cache_size t)
        (t_promiscuous t) (t_all_multicast t) (t_flow_filter t) (t_flow_filter t) true true (Some (next_handle p0))
        (if t_flow_filter t then seqZ (next_handle p0 + 1) (Z.of_nat (length (endpoints r))) else []) r.

Lemma wp_flows cs n p port_id r (b : bool) (Q : list Z → Process → Prop) E : made p0 cs n p →
  (∀ p' flows m, flows = (if b then seqZ (next_handle p0 + n) (Z.of_nat (length (endpoints r))) else []) →
     made p0 (cs ++ (if b then flowCalls port_id (endpoints r) flows else [])) m p' → Q flows p') →
  (∀ e p', failed_from p0 p' → E e p') →
  wp (if b then installFlowFilters device port_id 0 (line_a (settings r)) (line_b (settings r)) else mret []) Q E p.
Proof.
  intros H Hok Hno. destruct b; [|wp_step; apply (Hok p [] n); [done|by rewrite app_nil_r]].
  apply (wp_installFlowFilters cs n); [done| |done]. intros p' flows Hf Hm. by apply (Hok p' flows _ Hf Hm).
Qed.

(** A call that the code makes when a setting asks for it. *)
Lemma wp_optional cs n p (b : bool) c (Q : () → Process → Prop) E : made p0 cs n p → optional c = true → given_up c = None →
  (∀ p', made p0 (cs ++ (if b then [c] else [])) n p' → Q () p') →
  wp (when b (_ ← invoke c; mret ())) Q E p.
Proof.
  intros H Ho Hg Hok. wp_step; subst b; [|apply Hok; by rewrite app_nil_r]. wp_step.
  apply (wp_invoke p0 cs n); [done|done|]. intros ret p1 _ Hm. wp_step. apply Hok, Hm. by left.
Qed.

Lemma wp_isolation cs n p port (b : bool) (Q : () → Process → Prop) E : made p0 cs n p →
  (∀ p', made p0 (cs ++ (if b then [Isolate port true] else [])) n p' → Q () p') →
  (∀ e p', failed_from p0 p' → E e p') → wp (when b (enableFlowIsolation device port)) Q E p.
Proof.
  intros H Hok Hno. wp_step; subst b; [|apply Hok; by rewrite app_nil_r]. unfold enableFlowIsolation. wp_step.
  apply (wp_invoke p0 cs n); [done|done|]. intros ret p1 Hf Hm.
  destruct (Z.eqb_spec ret 0) as [->|Hr]; cbn [negb]; [|apply wp_throwFlow; intros x; by apply Hno].
  wp_step. apply Hok, Hm. by right.
Qed.

Lemma wp_initialize r :
  wp (initialize device getenv r)
    (λ i p, ∃ t eal n, readTuning getenv = inr t ∧ constructed t r i ∧
       (if eal_initialized p0 then eal = [] else ∃ args, ealArgs = inr args ∧ eal = [EalInit args]) ∧
       made p0 (eal ++ setupCalls t i (next_handle p0)) n p)
    (λ _ p, failed_from p0 p) p0.
Proof.
  unfold initialize. wp_step. apply wp_initializeEal; [|done]. intros p1 eal Heal Hi H1.
  wp_step. apply (wp_selectPort eal p1); [done| |done]. intros port p2 Hport Hvalid H2. cbn [fst snd].
  wp_step. apply (wp_setting p0 _ 0 _ _ _ _ H2); [|done]. intros t Ht.
  wp_step. apply (wp_isolation _ 0 p2 _ _ _ _ H2); [|done]. intros p3 H3.
  wp_step. apply (wp_setting p0 _ 0 _ _ _ _ H3); [|done]. intros socket Hsock.
  wp_step. apply (wp_acquire p0 _ 0 p3 _ _ _ H3); [done|done| |].
  2:{ intros p4 Hf. wp_step. wp_step. by apply wp_throwDpdk. }
  rewrite Z.add_0_r. intros p4 H4. 
  wp_step. apply (wp_requireCall device p0 _ 1 p4 _ _ _ _ H4); [done|by intros ret Hr%Z.leb_le| |done]. intros p5 H5.
  wp_step. apply (wp_requireCall device p0 _ 1 p5 _ _ _ _ H5); [done|by intros ret Hr%Z.leb_le| |done]. intros p6 H6.
  wp_step. apply (wp_requireCall device p0 _ 1 p6 _ _ _ _ H6); [done|by intros ret Hr%Z.leb_le| |done]. intros p7 H7.
  wp_step. apply (wp_flows _ 1 p7 _ _ _ _ _ H7); [|done]. intros p8 flows n Hflows H8.
  wp_step. apply (wp_requireCall device p0 _ n p8 _ _ _ _ H8); [done|by intros ret Hr%Z.leb_le| |done]. intros p9 H9.
  wp_step. apply (wp_optional _ n p9 _ _ _ _ H9); [done|done|]. intros p10 H10.
  wp_step. apply (wp_optional _ n p10 _ _ _ _ H10); [done|done|]. intros p11 H11.
  wp_step. exists t, eal, n. split; [done|]. split; [by exists port, socket; rewrite <- Hflows|]. split; [done|].
  unfold setupCalls. cbn [port_id socket_id rx_desc receiver DpdkSetup.flows].
  rewrite <- !(assoc_L (++)) in H11. cbn [app] in H11. exact H11.
Qed.

End setup.

(** ** What is held *)

Lemma account_kept l h : Forall (λ c, given_up (fst c) = None) l → ∀ r, r ∈ h → r ∈ foldl account h l.
Proof.
  revert h. induction l as [|c l IH]; intros h Hl r Hr; [done|]. apply Forall_cons in Hl as [Hc Hl]. cbn [foldl].
  apply IH; [done|]. unfold account. rewrite Hc. destruct (succeeded c); [|done].
  destruct (gained (fst c)); [|done]. by apply elem_of_cons; right.
Qed.

Lemma account_gains l h :
  Forall (λ c, given_up (fst c) = None) l → Forall (λ c, optional (fst c) = true ∨ succeeded c = true) l →
  ∀ r, r ∈ foldl account h l ↔ r ∈ h ∨ r ∈ omap gained (fst <$> l).
Proof.
  revert h. induction l as [|[c ret] l IH]; intros h Hl Hs r; [set_solver|].
  apply Forall_cons in Hl as [Hc Hl]. apply Forall_cons in Hs as [Ho Hs]. cbn [foldl fst] in *. rewrite (IH _ Hl Hs).
  unfold account. cbn [fst fmap list_fmap omap list_omap]. rewrite Hc.
  assert (optional c = true → gained c = None) as Hno by (by destruct c).
  destruct (gained c) as [x|] eqn:Eg; [|by destruct (succeeded (c, ret))].
  destruct Ho as [Ho| ->]; [by specialize (Hno Ho)|]. rewrite !elem_of_cons. tauto.
Qed.

Lemma account_gives_up l h : Forall (λ c, gained (fst c) = None) l → Forall (λ c, succeeded c = true) l →
  ∀ r, r ∈ foldl account h l ↔ r ∈ h ∧ r ∉ omap given_up (fst <$> l).
Proof.
  revert h. induction l as [|[c ret] l IH]; intros h Hl Hs r; [set_solver|].
  apply Forall_cons in Hl as [Hc Hl]. apply Forall_cons in Hs as [Ho Hs]. cbn [foldl fst] in *. rewrite (IH _ Hl Hs).
  unfold account. cbn [fst fmap list_fmap omap list_omap]. rewrite Hc, Ho.
  destruct (given_up c) as [x|]; [|done]. rewrite list_elem_of_filter, not_elem_of_cons. tauto.
Qed.

(** What a constructed receiver owns. *)
Definition resources (i : Impl) : list Resource :=
  (Flow (port_id i) <$> flows i) ++ (if flow_isolated i then [Isolation (port_id i)] else []) ++
  (if started i then [Running (port_id i)] else []) ++ (if configured i then [Port (port_id i)] else []) ++
  option_list (Pool <$> mempool i).

(** The calls of the destructor: one per thing owned. *)
Definition teardownCalls (i : Impl) : list Call :=
  (FlowDestroy (port_id i) <$> flows i) ++ (if flow_isolated i then [Isolate (port_id i) false] else []) ++
  (if started i then [DevStop (port_id i)] else []) ++ (if configured i then [DevClose (port_id i)] else []) ++
  option_list (PoolFree <$> mempool i).

Lemma teardown_gives_up i : omap given_up (teardownCalls i) = resources i ∧ Forall (λ c, gained c = None) (teardownCalls i).
Proof.
  unfold teardownCalls, resources. split.
  - rewrite !omap_app. f_equal; [|by destruct (flow_isolated i), (started i), (configured i), (mempool i)].
    induction (flows i) as [|f fs IH]; [done|]. cbn [fmap list_fmap omap list_omap given_up]. by f_equal.
  - repeat apply Forall_app_2; [apply Forall_fmap; by apply Forall_true|by destruct (flow_isolated i); repeat constructor|
      by destruct (started i); repeat constructor|by destruct (configured i); repeat constructor|
      by destruct (mempool i); repeat constructor].
Qed.

(** The record of the calls [cs], whatever they return. *)
Definition recorded (p : Process) (cs : list Call) (p' : Process) : Prop :=
  ∃ l, calls p' = calls p ++ l ∧ fst <$> l = cs.

Lemma recorded_refl p : recorded p [] p.
Proof. exists []. by rewrite app_nil_r. Qed.

Lemma recorded_issue p cs p' c : recorded p cs p' → recorded p (cs ++ [c]) (issue c p').
Proof.
  intros (l&Hl&Hf). exists (l ++ [(c, default 0 (head (answers p')))]). cbn. rewrite Hl, <- (assoc_L (++)), fmap_app, Hf. done.
Qed.

Lemma recorded_if p cs p' (b : bool) c :
  recorded p cs p' → recorded p (cs ++ (if b then [c] else [])) (if b then issue c p' else p').
Proof. destruct b; [apply recorded_issue|by rewrite app_nil_r]. Qed.

Lemma recorded_flows p port fs : ∀ cs p', recorded p cs p' →
  recorded p (cs ++ (FlowDestroy port <$> fs)) (foldl (λ p flow, issue (FlowDestroy port flow) p) p' fs).
Proof.
  induction fs as [|f fs IH]; intros cs p' H; [by rewrite app_nil_r|]. cbn [foldl fmap list_fmap].
  rewrite (cons_middle _ cs), (assoc_L (++)). apply IH. by apply recorded_issue.
Qed.

Lemma destruct_calls i p : recorded p (teardownCalls i) (snd (destruct_ i p)).
Proof.
  unfold destruct_, destroyFlowFilters, teardownCalls. cbn [snd].
  rewrite !(assoc_L (++)). destruct (mempool i) as [pool|]; cbn [option_map fmap option_fmap option_list].
  - apply recorded_issue, recorded_if, recorded_if, recorded_if. apply (recorded_flows p (port_id i) (flows i) [] p), recorded_refl.
  - rewrite app_nil_r. apply recorded_if, recorded_if, recorded_if. apply (recorded_flows p (port_id i) (flows i) [] p), recorded_refl.
Qed.

Lemma flowCalls_gains port es fs : length es = length fs → omap gained (flowCalls port es fs) = Flow port <$> fs.
Proof.
  revert fs. induction es as [|e es IH]; intros [|f fs] H; try done. unfold flowCalls in *. cbn [zip_with mjoin list_join].
  cbn [app omap list_omap gained fmap list_fmap]. f_equal. apply IH. by injection H.
Qed.

Lemma setup_gains device getenv p0 t r i eal : constructed device getenv p0 t r i →
  (eal = [] ∨ ∃ args, eal = [EalInit args]) →
  ∀ x, x ∈ omap gained (eal ++ setupCalls t i (next_handle p0)) ↔ x ∈ resources i.
Proof.
  intros (port&socket&_&_&_&->) Heal x. unfold setupCalls, resources.
  cbn [port_id socket_id rx_desc receiver flows flow_isolated started configured mempool].
  rewrite omap_app. replace (omap gained eal) with (@nil Resource) by (by destruct Heal as [->|[args ->]]).
  rewrite !omap_app. destruct (t_flow_filter t).
  - rewrite flowCalls_gains by (rewrite length_seqZ; lia).
    destruct (t_promiscuous t), (t_all_multicast t); set_solver.
  - destruct (t_promiscuous t), (t_all_multicast t); set_solver.
Qed.

(** A failed set-up has given nothing up, so what it acquired is still held. *)
Lemma failed_held p p1 : failed_from p p1 → ∃ l, calls p1 = calls p ++ l ∧
  ∀ c r, c ∈ l → succeeded c = true → gained (fst c) = Some r → r ∈ held (calls p1).
Proof.
  intros (l&n&Hc&_&Hk). exists l. split; [done|]. intros c r Hin Hs Hg. rewrite Hc. unfold held. rewrite foldl_app.
  clear Hc. generalize (foldl account [] (calls p)). revert Hk Hin. induction l as [|d l IH]; intros Hk Hin h; [by apply elem_of_nil in Hin|].
  apply Forall_cons in Hk as [Hd Hk]. cbn [foldl]. apply elem_of_cons in Hin as [<-|Hin].
  - apply account_kept; [done|]. unfold account. rewrite Hs, Hd, Hg. apply list_elem_of_here.
  - by apply IH.
Qed.

Lemma construct_spec device getenv la lb polls p :
  wp (construct device getenv la lb polls)
    (λ i p1, ∃ a b size mode t eal n, la = inr a ∧ lb = inr b ∧ dpdkBurstSize getenv = inr size ∧
       dpdkLatencyMode getenv = inr mode ∧ readTuning getenv = inr t ∧
       constructed device getenv p t (DpdkReceiver.make a b (Z.to_nat size) mode polls) i ∧
       (if eal_initialized p then eal = [] else ∃ args, ealArgs getenv = inr args ∧ eal = [EalInit args]) ∧
       made p (eal ++ setupCalls t i (next_handle p)) n p1)
    (λ _ p1, failed_from p p1) p.
Proof.
  assert (failed_from p p) as Hf by (eapply made_failed, made_refl).
  unfold construct. wp_step. wp_step. destruct la as [e|a]; [done|].
  wp_step. wp_step. destruct lb as [e|b]; [done|].
  wp_step. wp_step. destruct (dpdkBurstSize getenv) as [e|size]; [done|].
  wp_step. wp_step. destruct (dpdkLatencyMode getenv) as [e|mode]; [done|].
  eapply wp_mono; [apply wp_initialize| |done]. intros i p1 (t&eal&n&Ht&Hi&He&Hm). by exists a, b, size, mode, t, eal, n.
Qed.

(** C25. Setting up the DPDK port makes exactly the calls it should, whatever
    the device answers: a constructor that returns has initialised the abstraction layer
    unless the process had, then, in this order, asked for the port's capabilities, isolated
    it (when the flow filter is on), created the buffer pool, configured the port and its
    receive queue, installed one rule per enabled endpoint (when the flow filter is on) and
    started the port, every call with success; its members are the settings of the
    environment, and it holds exactly the pool, port, isolation and rules it was given.  The
    destructor then gives up each of these once: rules, isolation, running port, port,
    pool. *)
Theorem dpdk_setup_exact device getenv la lb polls p :
  match construct device getenv la lb polls p with
  | (inl _, p1) => failed_from p p1
  | (inr i, p1) =>
      (∃ a b size mode t eal n, la = inr a ∧ lb = inr b ∧ dpdkBurstSize getenv = inr size ∧
         dpdkLatencyMode getenv = inr mode ∧ readTuning getenv = inr t ∧
         constructed device getenv p t (DpdkReceiver.make a b (Z.to_nat size) mode polls) i ∧
         (if eal_initialized p then eal = [] else ∃ args, ealArgs getenv = inr args ∧ eal = [EalInit args]) ∧
         made p (eal ++ setupCalls t i (next_handle p)) n p1) ∧
      (∀ r, r ∈ held (calls p1) ↔ r ∈ held (calls p) ∨ r ∈ resources i) ∧
      let p2 := snd (destruct_ i p1) in
      ∃ l, calls p2 = calls p1 ++ l ∧ fst <$> l = teardownCalls i ∧
        (Forall (λ c, succeeded c = true) l → ∀ r, r ∈ held (calls p2) ↔ r ∈ held (calls p1) ∧ r ∉ resources i)
  end.
Proof.
  pose proof (construct_spec device getenv la lb polls p) as H. rewrite wp_unfold in H.
  destruct (construct device getenv la lb polls p) as [[e|i] p1]; [done|]. split; [done|].
  destruct H as (a&b&size&mode&t&eal&n&_&_&_&_&_&Hi&He&(l&(Hc&_&Hk)&Hf&Hg)). split.
  - intros r. rewrite Hc. unfold held. rewrite foldl_app, (account_gains l _ Hk Hg r), Hf.
    rewrite (setup_gains _ _ _ _ _ _ _ Hi); [done|]. destruct (eal_initialized p); [by left|].
    destruct He as (args&_&->). right. by exists args.
  - cbn zeta. destruct (destruct_calls i p1) as (l2&Hc2&Hf2). exists l2. split; [done|]. split; [done|]. intros Hs r.
    destruct (teardown_gives_up i) as [Hu Hn]. rewrite Hc2. unfold held. rewrite foldl_app, account_gives_up; [|by rewrite <- Hf2 in Hn; apply Forall_fmap in Hn|done].
    by rewrite Hf2, Hu.
Qed.

(** A host whose device refuses to start. *)
Definition sampleDevice : Device :=
  mkDevice 1 (λ port, port =? 0) 8 (λ _, 0) 0 (λ n, n) (λ _, "Device or resource busy"%string) None.
Definition sampleProcess (start : Z) : Process := mkProcess false [0; 0; 0; 0; 0; 0; 0; 0; 0; 0; 0; start] [] 0 0.
Definition sampleEndpointA : EndpointFilter := mkEndpoint 0xEF010101 30000 true true.
Definition sampleEndpointB : EndpointFilter := mkEndpoint 0xEF010102 30001 true true.

(** C39. A set-up that fails gives nothing back: everything that the
    constructor acquired before it threw is still held, since an object whose constructor
    throws is not destroyed and nothing else owns the pool, the port or the rules.  For
    instance, when the port refuses to start, the pool, the configured port, its isolated
    mode and both rules stay behind. *)
Theorem dpdk_failed_setup_leaks device getenv la lb polls p :
  match construct device getenv la lb polls p with
  | (inl _, p1) => ∃ l, calls p1 = calls p ++ l ∧
      ∀ c r, c ∈ l → succeeded c = true → gained (fst c) = Some r → r ∈ held (calls p1)
  | (inr _, _) => True
  end ∧
  let '(result, p1) := construct sampleDevice (λ _, None) (inr sampleEndpointA) (inr sampleEndpointB) [] (sampleProcess (-16)) in
  result = inl "rte_eth_dev_start: Device or resource busy"%string ∧
  held (calls p1) = [Flow 0 2; Flow 0 1; Port 0; Pool 0; Isolation 0].
Proof.
  split; [|vm_compute; done]. pose proof (construct_spec device getenv la lb polls p) as H. rewrite wp_unfold in H.
  destruct (construct device getenv la lb polls p) as [[e|i] p1]; [by apply failed_held|done].
Qed.

(** ** Rules and filters *)

(** What a rule matches: UDP over IPv4, each field compared under its mask. *)
Definition admits (r : FlowRule) (proto dst dst_port : Z) : bool :=
  (proto .& proto_mask r =? proto_spec r .& proto_mask r) && (dst .& dst_mask r =? dst_spec r .& dst_mask r) &&
  (dst_port .& port_mask r =? port_spec r .& port_mask r).

Lemma mask_id w x : 0 <= w → fits w x → x .& (2 ^ w - 1) = x.
Proof. intros Hw [H1 H2]. change (2 ^ w - 1) with (Z.pred (2 ^ w)). rewrite <- Z.ones_equiv, Z.land_ones by done. by apply Z.mod_small. Qed.

(** C26. The rule installed in the hardware for an endpoint and the
    filter that the frame parser applies agree: for every destination address and port, a
    UDP packet matches the rule of an enabled endpoint exactly when the parser accepts it
    for that endpoint, and a packet of another protocol never matches. *)
Theorem flow_rules_match_filter e queue_id proto dst dst_port :
  fits 32 (ip e) → fits 16 (port e) → fits 8 proto → fits 32 dst → fits 16 dst_port →
  enabled e && admits (endpointRule e queue_id) proto dst dst_port = (proto =? protocolUdp) && matches e dst dst_port.
Proof.
  intros Hi Hp Hq Hd Hdp. unfold admits, endpointRule, matches. cbn [proto_spec proto_mask dst_spec dst_mask port_spec port_mask].
  change kUint8Max with (2 ^ 8 - 1). change max_u16 with (2 ^ 16 - 1). rewrite (mask_id 8 proto), (mask_id 8 protocolUdp) by (done || lia).
  rewrite (mask_id 16 (port e)), (mask_id 16 dst_port) by (done || lia).
  destruct (match_ip e); cbn [negb orb].
  - change max_u32 with (2 ^ 32 - 1). rewrite !mask_id by (done || lia). destruct (enabled e), (proto =? protocolUdp), (dst =? ip e), (dst_port =? port e); done.
  - rewrite !Z.land_0_r. destruct (enabled e), (proto =? protocolUdp), (dst_port =? port e); done.
Qed.

Lemma flow_rules_match_filter_witness :
  enabled sampleEndpointA && admits (endpointRule sampleEndpointA 0) 17 0xEF010101 30000 = true.
Proof.
  rewrite (flow_rules_match_filter sampleEndpointA 0 17 0xEF010101 30000); [reflexivity|..]; split; vm_compute; congruence.
Defined.

End DpdkSetupProps.
