(* ===== verification/LongDouble.v ===== *)
(** Binary floating point: rounding to nearest, ties to even, with a given number of
    significant bits.

    The sources compute with [double] (53 bits) and with the x87 [long double] (64 bits).
    Their values here are rational numbers; an operation is the exact one followed by
    [round].  All values are non-negative and their exponents stay far inside the range of
    either format (the operands are 64-bit integers and positive doubles), so neither
    overflow nor subnormal numbers occur.  The lemmas are the rounding model that the
    clients use: [round] respects equality and order, is exact on representable numbers,
    and has a relative error of half a unit in the last place. *)
From stdpp Require Import base tactics.
From Stdlib Require Import ZArith QArith Qround Qabs Qpower Lqa Lia.
From S2P Require Import Prelude.
#[local] Open Scope Z_scope.

(** ** Powers of two *)

Definition pow2 (e : Z) : Q := Qpower (2 # 1) e.

Lemma pow2_pos e : (0 < pow2 e)%Q.
Proof. apply Qpower_0_lt. lra. Qed.

Lemma pow2_add a b : (pow2 (a + b) == pow2 a * pow2 b)%Q.
Proof. apply Qpower_plus. lra. Qed.

Lemma pow2_Z e : 0 <= e → (pow2 e == inject_Z (2 ^ e))%Q.
Proof. intros He. unfold pow2. rewrite <- (Zpower_Qpower 2 e He). done. Qed.

Lemma pow2_neg e : (pow2 (- e) == / pow2 e)%Q.
Proof. apply Qpower_opp. Qed.

Lemma pow2_le a b : a <= b → (pow2 a <= pow2 b)%Q.
Proof.
  intros Hab. replace b with (a + (b - a)) by lia. rewrite pow2_add.
  assert (1 <= pow2 (b - a))%Q as H1.
  { rewrite pow2_Z by lia. change 1%Q with (inject_Z 1). rewrite <- Zle_Qle. pose proof (Z.pow_pos_nonneg 2 (b - a)). lia. }
  pose proof (pow2_pos a). nra.
Qed.

Lemma pow2_lt_inv a b : (pow2 a < pow2 b)%Q → a < b.
Proof. intros H. destruct (Z.lt_ge_cases a b) as [|Hba]; [done|]. apply pow2_le in Hba. lra. Qed.

(** ** The exponent of a positive number *)

(** [2 ^ exponent x <= x < 2 ^ (exponent x + 1)]. *)
Definition exponent (x : Q) : Z :=
  let k := Z.log2 (Qnum x) - Z.log2 (Zpos (Qden x)) in if Qle_bool (pow2 k) x then k else k - 1.

Lemma exponent_spec x : (0 < x)%Q → (pow2 (exponent x) <= x < pow2 (exponent x + 1))%Q.
Proof.
  intros Hx. assert (0 < Qnum x) as Hn by (unfold Qlt in Hx; cbn in Hx; lia).
  destruct (Z.log2_spec (Qnum x) Hn) as [N1 N2]. destruct (Z.log2_spec (Zpos (Qden x)) eq_refl) as [D1 D2].
  pose proof (Z.log2_nonneg (Qnum x)) as N0. pose proof (Z.log2_nonneg (Zpos (Qden x))) as D0.
  set (a := Z.log2 (Qnum x)) in *. set (b := Z.log2 (Zpos (Qden x))) in *.
  assert (x == inject_Z (Qnum x) / inject_Z (Zpos (Qden x)))%Q as Ex.
  { destruct x as [n d]. cbn. unfold Qeq, Qdiv, Qinv, Qmult. cbn. lia. }
  assert (0 < inject_Z (Zpos (Qden x)))%Q as Hd by (change 0%Q with (inject_Z 0); by rewrite <- Zlt_Qlt).
  assert (x * inject_Z (Zpos (Qden x)) == inject_Z (Qnum x))%Q as Em by (rewrite Ex at 1; field; lra).
  assert (pow2 (a - b - 1) < x)%Q as Hlow.
  { apply (Qmult_lt_r _ _ (inject_Z (Zpos (Qden x))) Hd). rewrite Em.
    apply (Qlt_le_trans _ (pow2 (a - b - 1) * pow2 (b + 1))).
    - rewrite (Qmult_comm _ (pow2 (b + 1))), (Qmult_comm (pow2 (a - b - 1))). apply Qmult_lt_r; [apply pow2_pos|].
      rewrite pow2_Z by lia. rewrite <- Zlt_Qlt. lia.
    - rewrite <- pow2_add. replace (a - b - 1 + (b + 1)) with a by lia. rewrite pow2_Z by lia. rewrite <- Zle_Qle. lia. }
  assert (x < pow2 (a - b + 1))%Q as Hhigh.
  { apply (Qmult_lt_r _ _ (inject_Z (Zpos (Qden x))) Hd). rewrite Em.
    apply (Qlt_le_trans _ (pow2 (a - b + 1) * pow2 b)).
    - rewrite <- pow2_add. replace (a - b + 1 + b) with (a + 1) by lia. rewrite pow2_Z by lia. rewrite <- Zlt_Qlt. lia.
    - rewrite (Qmult_comm _ (pow2 b)), (Qmult_comm (pow2 (a - b + 1))). apply Qmult_le_compat_r; [|apply Qlt_le_weak, pow2_pos].
      rewrite pow2_Z by lia. rewrite <- Zle_Qle. lia. }
  unfold exponent. fold a b. destruct (Qle_bool (pow2 (a - b)) x) eqn:E.
  - apply Qle_bool_iff in E. done.
  - assert (¬ (pow2 (a - b) <= x)%Q) as Hno by (intros H%Qle_bool_iff; congruence).
    split; [lra|]. replace (a - b - 1 + 1) with (a - b) by lia. lra.
Qed.

Lemma exponent_unique x e : (pow2 e <= x < pow2 (e + 1))%Q → exponent x = e.
Proof.
  intros [H1 H2]. pose proof (pow2_pos e) as Hp. destruct (exponent_spec x) as [H3 H4]; [lra|].
  assert (e < exponent x + 1) by (apply pow2_lt_inv; lra). assert (exponent x < e + 1) by (apply pow2_lt_inv; lra). lia.
Qed.

Lemma exponent_mono x y : (0 < x)%Q → (x <= y)%Q → exponent x <= exponent y.
Proof.
  intros Hx Hxy. destruct (exponent_spec x Hx) as [H1 _]. destruct (exponent_spec y) as [_ H4]; [lra|].
  assert (exponent x < exponent y + 1); [|lia]. apply pow2_lt_inv. lra.
Qed.

(** ** The nearest integer *)

Definition nearestEven (q : Q) : Z :=
  let f := Qfloor q in
  match Qcompare (q - inject_Z f) (1 # 2) with
  | Lt => f
  | Gt => f + 1
  | Eq => if Z.even f then f else f + 1
  end.

Lemma nearestEven_near q : (Qabs (inject_Z (nearestEven q) - q) <= 1 # 2)%Q.
Proof.
  pose proof (Qfloor_le q) as H1. pose proof (Qlt_floor q) as H2. rewrite inject_Z_plus in H2. change (inject_Z 1) with 1%Q in H2.
  unfold nearestEven. apply Qabs_case; destruct (Qcompare_spec (q - inject_Z (Qfloor q)) (1 # 2)); try destruct (Z.even _);
    rewrite ?inject_Z_plus; change (inject_Z 1) with 1%Q; lra.
Qed.

Lemma nearestEven_mono q r : (q <= r)%Q → nearestEven q <= nearestEven r.
Proof.
  intros Hqr. pose proof (Qfloor_resp_le q r Hqr) as Hf.
  pose proof (Qfloor_le q) as H1. pose proof (Qlt_floor q) as H2. pose proof (Qfloor_le r) as H3. pose proof (Qlt_floor r) as H4.
  assert (Qfloor q <= nearestEven q <= Qfloor q + 1) as Hq.
  { unfold nearestEven. destruct (_ ?= _)%Q; try destruct (Z.even _); lia. }
  assert (Qfloor r <= nearestEven r <= Qfloor r + 1) as Hr.
  { unfold nearestEven. destruct (_ ?= _)%Q; try destruct (Z.even _); lia. }
  destruct (Z.eq_dec (Qfloor q) (Qfloor r)) as [E|]; [|lia]. unfold nearestEven in *. rewrite E in *.
  destruct (Qcompare_spec (q - inject_Z (Qfloor r)) (1 # 2)), (Qcompare_spec (r - inject_Z (Qfloor r)) (1 # 2));
    try destruct (Z.even _); try lia; exfalso; lra.
Qed.

#[global] Instance nearestEven_proper : Proper (Qeq ==> eq) nearestEven.
Proof.
  intros q r H. apply Z.le_antisymm; apply nearestEven_mono; rewrite H; apply Qle_refl.
Qed.

Lemma nearestEven_Z z : nearestEven (inject_Z z) = z.
Proof. unfold nearestEven. rewrite Qfloor_Z. by rewrite (proj1 (Qlt_alt _ _)) by lra. Qed.

(** ** Rounding to [prec] significant bits *)

Definition ulp (prec : Z) (x : Q) : Q := pow2 (exponent x - (prec - 1)).

Definition round (prec : Z) (x : Q) : Q :=
  if Qle_bool x 0 then 0%Q else (inject_Z (nearestEven (x / ulp prec x)) * ulp prec x)%Q.

Section rounding.
Context (prec : Z) (Hprec : 1 < prec).

Lemma ulp_pos x : (0 < ulp prec x)%Q.
Proof. apply pow2_pos. Qed.

Lemma round_pos_eq x : (0 < x)%Q → round prec x = (inject_Z (nearestEven (x / ulp prec x)) * ulp prec x)%Q.
Proof.
  intros Hx. unfold round. destruct (Qle_bool x 0) eqn:E; [|done]. apply Qle_bool_iff in E. lra.
Qed.

Lemma round_0 x : (x <= 0)%Q → round prec x = 0%Q.
Proof. intros Hx. unfold round. by apply Qle_bool_iff in Hx as ->. Qed.

(** A multiple of the unit in the last place stays between multiples. *)
Lemma round_le_multiple x m : (0 < x)%Q → (x <= inject_Z m * ulp prec x)%Q → (round prec x <= inject_Z m * ulp prec x)%Q.
Proof.
  intros Hx Hm. rewrite round_pos_eq by done. pose proof (ulp_pos x) as Hu. apply Qmult_le_compat_r; [|lra].
  rewrite <- Zle_Qle. rewrite <- (nearestEven_Z m). apply nearestEven_mono. by apply Qle_shift_div_r.
Qed.

Lemma round_ge_multiple x m : (0 < x)%Q → (inject_Z m * ulp prec x <= x)%Q → (inject_Z m * ulp prec x <= round prec x)%Q.
Proof.
  intros Hx Hm. rewrite round_pos_eq by done. pose proof (ulp_pos x) as Hu. apply Qmult_le_compat_r; [|lra].
  rewrite <- Zle_Qle. rewrite <- (nearestEven_Z m). apply nearestEven_mono. by apply Qle_shift_div_l.
Qed.

Lemma ulp_binade x k : 0 <= k → (inject_Z (2 ^ k) * ulp prec x == pow2 (exponent x + (k - (prec - 1))))%Q.
Proof.
  intros Hk. rewrite <- pow2_Z by done. unfold ulp. rewrite <- pow2_add. by replace (k + (exponent x - (prec - 1))) with (exponent x + (k - (prec - 1))) by lia.
Qed.

(** A number is rounded within its binade. *)
Lemma round_binade x : (0 < x)%Q → (pow2 (exponent x) <= round prec x <= pow2 (exponent x + 1))%Q.
Proof.
  intros Hx. destruct (exponent_spec x Hx) as [H1 H2]. split.
  - assert (inject_Z (2 ^ (prec - 1)) * ulp prec x == pow2 (exponent x))%Q as E
      by (rewrite ulp_binade by lia; by replace (exponent x + (prec - 1 - (prec - 1))) with (exponent x) by lia).
    rewrite <- E. apply round_ge_multiple; [done|]. by rewrite E.
  - assert (inject_Z (2 ^ prec) * ulp prec x == pow2 (exponent x + 1))%Q as E
      by (rewrite ulp_binade by lia; by replace (exponent x + (prec - (prec - 1))) with (exponent x + 1) by lia).
    rewrite <- E. apply round_le_multiple; [done|]. rewrite E. lra.
Qed.

Lemma round_mono x y : (x <= y)%Q → (round prec x <= round prec y)%Q.
Proof.
  intros Hxy. destruct (Qlt_le_dec 0 x) as [Hx|Hx].
  - assert (0 < y)%Q as Hy by lra. pose proof (exponent_mono x y Hx Hxy) as He.
    destruct (round_binade x Hx) as [_ B1]. destruct (round_binade y Hy) as [B2 _].
    destruct (Z.eq_dec (exponent x) (exponent y)) as [E|Hne].
    + rewrite !round_pos_eq by done. unfold ulp. rewrite E. pose proof (pow2_pos (exponent y - (prec - 1))) as Hu.
      apply Qmult_le_compat_r; [|lra]. rewrite <- Zle_Qle. apply nearestEven_mono.
      apply Qle_shift_div_l; [done|].
      unfold Qdiv. rewrite <- Qmult_assoc, (Qmult_comm (/ _)), Qmult_inv_r by lra. lra.
    + assert (pow2 (exponent x + 1) <= pow2 (exponent y))%Q by (apply pow2_le; lia). lra.
  - rewrite (round_0 x Hx). destruct (Qlt_le_dec 0 y) as [Hy|Hy]; [|by rewrite round_0].
    destruct (round_binade y Hy) as [B _]. pose proof (pow2_pos (exponent y)). lra.
Qed.

Lemma round_proper : Proper (Qeq ==> Qeq) (round prec).
Proof. intros x y H. apply Qle_antisym; apply round_mono; rewrite H; apply Qle_refl. Qed.

#[local] Existing Instance round_proper.

(** The error is at most half a unit in the last place, a relative error of [2 ^ - prec]. *)
Lemma round_error x : (0 <= x)%Q → (Qabs (round prec x - x) <= x * pow2 (- prec))%Q.
Proof.
  intros Hx0. destruct (Qlt_le_dec 0 x) as [Hx|Hx].
  - rewrite round_pos_eq by done. pose proof (ulp_pos x) as Hu. pose proof (nearestEven_near (x / ulp prec x)) as Hn.
    set (z := inject_Z _) in *.
    assert (z * ulp prec x - x == (z - x / ulp prec x) * ulp prec x)%Q as -> by (field; lra).
    rewrite Qabs_Qmult, (Qabs_pos (ulp prec x)) by lra.
    apply (Qle_trans _ ((1 # 2) * ulp prec x)); [by apply Qmult_le_compat_r; [|lra]|].
    assert ((1 # 2) * ulp prec x == pow2 (exponent x) * pow2 (- prec))%Q as ->.
    { change (1 # 2)%Q with (pow2 (-1)). unfold ulp. rewrite <- !pow2_add.
      by replace (-1 + (exponent x - (prec - 1))) with (exponent x + - prec) by lia. }
    destruct (exponent_spec x Hx) as [H1 _]. apply Qmult_le_compat_r; [done|]. apply Qlt_le_weak, pow2_pos.
  - assert (x == 0)%Q as E by lra. rewrite round_0 by lra. rewrite E. unfold Qminus. cbn. rewrite Qmult_0_l. apply Qle_refl.
Qed.

(** Numbers with at most [prec] significant bits are exact. *)
Lemma round_exact m k : 0 <= m < 2 ^ prec → (round prec (inject_Z m * pow2 k) == inject_Z m * pow2 k)%Q.
Proof.
  intros Hm. destruct (Z.eq_dec m 0) as [->|Hm0]; [rewrite round_0; [|]; change (inject_Z 0) with 0%Q; lra|].
  set (x := (inject_Z m * pow2 k)%Q). pose proof (pow2_pos k) as Hk.
  assert (1 <= inject_Z m)%Q as Hm1 by (change 1%Q with (inject_Z 1); rewrite <- Zle_Qle; lia).
  assert (0 < x)%Q as Hx by (unfold x; nra).
  assert (exponent x <= k + (prec - 1)) as He.
  { destruct (exponent_spec x Hx) as [H1 _]. assert (exponent x < k + prec); [|lia]. apply pow2_lt_inv.
    apply (Qle_lt_trans _ x); [done|]. rewrite pow2_add, (pow2_Z prec) by lia. unfold x. rewrite (Qmult_comm (pow2 k)).
    apply Qmult_lt_r; [done|]. rewrite <- Zlt_Qlt. lia. }
  assert (x == inject_Z (m * 2 ^ (k + (prec - 1) - exponent x)) * ulp prec x)%Q as Ex.
  { rewrite inject_Z_mult, <- pow2_Z by lia. unfold ulp. rewrite <- Qmult_assoc, <- pow2_add.
    replace (k + (prec - 1) - exponent x + (exponent x - (prec - 1))) with k by lia. done. }
  apply Qle_antisym.
  - rewrite Ex at 2. apply round_le_multiple; [done|]. rewrite <- Ex. apply Qle_refl.
  - rewrite Ex at 1. apply round_ge_multiple; [done|]. rewrite <- Ex. apply Qle_refl.
Qed.

Lemma round_Z m : 0 <= m < 2 ^ prec → (round prec (inject_Z m) == inject_Z m)%Q.
Proof.
  intros Hm. assert (inject_Z m == inject_Z m * pow2 0)%Q as E by (change (pow2 0) with 1%Q; ring). rewrite E at 1. rewrite round_exact by done. by rewrite <- E.
Qed.

Lemma round_nonneg x : (0 <= round prec x)%Q.
Proof.
  destruct (Qlt_le_dec 0 x) as [Hx|Hx]; [|rewrite round_0; lra]. destruct (round_binade x Hx) as [B _]. pose proof (pow2_pos (exponent x)). lra.
Qed.

(** A number just above an integer is rounded to it. *)
Lemma round_above m x : 0 < m < 2 ^ prec → (inject_Z m <= x)%Q → (x < inject_Z m + inject_Z m * pow2 (- (prec + 1)))%Q →
  (round prec x == inject_Z m)%Q.
Proof.
  intros Hm Hlow Hhigh. assert (0 < inject_Z m)%Q as Hm0 by (change 0%Q with (inject_Z 0); rewrite <- Zlt_Qlt; lia).
  set (e := Z.log2 m). destruct (Z.log2_spec m) as [L1 L2]; [lia|]. fold e in L1, L2. pose proof (Z.log2_nonneg m) as L0. fold e in L0.
  assert (e <= prec - 1) as He.
  { assert (e < prec); [|lia]. apply (Z.pow_lt_mono_r_iff 2); lia. }
  assert (inject_Z m + pow2 (e - (prec - 1)) <= pow2 (e + 1))%Q as Hroom.
  { assert (inject_Z m + 1 <= pow2 (e + 1))%Q as H1.
    { rewrite pow2_Z by lia. change 1%Q with (inject_Z 1). rewrite <- inject_Z_plus, <- Zle_Qle. lia. }
    assert (pow2 (e - (prec - 1)) <= pow2 0)%Q as H2 by (apply pow2_le; lia). change (pow2 0) with 1%Q in H2. lra. }
  assert (pow2 (e - (prec - 1)) == 2 * pow2 (e - prec))%Q as Hhalf.
  { change 2%Q with (pow2 1). rewrite <- pow2_add. by replace (1 + (e - prec)) with (e - (prec - 1)) by lia. }
  assert (inject_Z m * pow2 (- (prec + 1)) < pow2 (e - prec))%Q as Hsmall.
  { replace (e - prec) with ((e + 1) + - (prec + 1)) by lia. rewrite (pow2_add (e + 1)). apply Qmult_lt_r; [apply pow2_pos|].
    rewrite pow2_Z by lia. rewrite <- Zlt_Qlt. lia. }
  pose proof (pow2_pos (e - prec)) as Hp.
  assert (exponent x = e) as Ex.
  { apply exponent_unique. split; [|lra]. apply (Qle_trans _ (inject_Z m)); [|done]. rewrite pow2_Z by done. rewrite <- Zle_Qle. lia. }
  assert (0 < x)%Q as Hx by lra. rewrite round_pos_eq by done. unfold ulp. rewrite Ex. set (u := pow2 (e - (prec - 1))) in *.
  set (M := m * 2 ^ (prec - 1 - e)).
  assert (inject_Z m == inject_Z M * u)%Q as EM.
  { unfold M, u. rewrite inject_Z_mult, <- pow2_Z, <- Qmult_assoc, <- pow2_add by lia.
    replace (prec - 1 - e + (e - (prec - 1))) with 0 by lia. change (pow2 0) with 1%Q. ring. }
  assert (0 < u)%Q as Hu by apply pow2_pos.
  assert (inject_Z M <= x / u < inject_Z M + (1 # 2))%Q as [Q1 Q2].
  { split; [apply Qle_shift_div_l; [done|]; by rewrite <- EM|].
    apply Qlt_shift_div_r; [done|]. rewrite Qmult_plus_distr_l, <- EM. lra. }
  assert (Qfloor (x / u) = M) as Ef.
  { pose proof (Qfloor_resp_le _ _ Q1) as F1. rewrite Qfloor_Z in F1.
    pose proof (Qfloor_le (x / u)) as F2. assert (Qfloor (x / u) < M + 1); [|lia].
    rewrite Zlt_Qlt, inject_Z_plus. change (inject_Z 1) with 1%Q. lra. }
  unfold nearestEven. rewrite Ef. rewrite (proj1 (Qlt_alt _ _)) by lra. by rewrite <- EM.
Qed.

End rounding.

(** ** The two formats *)

Definition double (x : Q) : Q := round 53 x.
Definition longDouble (x : Q) : Q := round 64 x.

#[global] Instance double_proper : Proper (Qeq ==> Qeq) double := round_proper 53 eq_refl.
#[global] Instance longDouble_proper : Proper (Qeq ==> Qeq) longDouble := round_proper 64 eq_refl.

(** [static_cast<long double>] of a 64-bit integer is exact. *)
Definition ldOfZ (z : Z) : Q := inject_Z z.

Definition ldMul (x y : Q) : Q := longDouble (x * y).
Definition ldDiv (x y : Q) : Q := longDouble (x / y).
Definition ldAdd (x y : Q) : Q := longDouble (x + y).

(** Half a unit in the last place of [1]. *)
Lemma pow2_ld : (pow2 (-64) == 1 # 18446744073709551616)%Q.
Proof. reflexivity. Qed.

Lemma ld_rel_error x : (0 <= x)%Q → (- (x * (1 # 18446744073709551616)) <= longDouble x - x <= x * (1 # 18446744073709551616))%Q.
Proof.
  intros H0. pose proof (round_error 64 x H0) as He. fold (longDouble x) in He. rewrite pow2_ld in He. by apply Qabs_Qle_condition in He.
Qed.

(** The absolute error for a number that is at most [b]. *)
Lemma ld_error x b : (0 <= x <= b)%Q → (- (b * (1 # 18446744073709551616)) <= longDouble x - x <= b * (1 # 18446744073709551616))%Q.
Proof.
  intros [H0 Hb]. pose proof (ld_rel_error x H0) as He.
  assert (x * (1 # 18446744073709551616) <= b * (1 # 18446744073709551616))%Q as Hx by (by apply Qmult_le_compat_r). lra.
Qed.

Lemma ld_mono x y : (x <= y)%Q → (longDouble x <= longDouble y)%Q.
Proof. by apply round_mono. Qed.

Lemma ld_nonneg x : (0 <= longDouble x)%Q.
Proof. by apply round_nonneg. Qed.

Lemma ld_Z m : 0 <= m < 2 ^ 64 → (longDouble (inject_Z m) == inject_Z m)%Q.
Proof. by apply round_Z. Qed.

(** Between 2^63 and 2^64 a [long double] is an integer. *)
Lemma ld_below_max x : (longDouble x < inject_Z max_u64)%Q → (longDouble x <= inject_Z (max_u64 - 1))%Q.
Proof.
  intros Hlt. destruct (Qlt_le_dec x (pow2 63)) as [Hx|Hx].
  - apply (Qle_trans _ (pow2 63)); [|done]. assert (longDouble (pow2 63) == pow2 63)%Q as <-.
    { rewrite (pow2_Z 63) by done. by apply ld_Z. }
    apply ld_mono. lra.
  - assert (0 < x)%Q as Hx0 by (pose proof (pow2_pos 63); lra). pose proof (round_binade 64 eq_refl x Hx0) as [B _]. fold (longDouble x) in B.
    assert (exponent x = 63) as Ee.
    { assert (exponent x < 64) as He.
      { apply pow2_lt_inv. apply (Qle_lt_trans _ _ _ B). apply (Qlt_trans _ _ _ Hlt). reflexivity. }
      pose proof (exponent_spec x Hx0) as [_ S2]. assert (63 < exponent x + 1) by (apply pow2_lt_inv; lra). lia. }
    revert Hlt. unfold longDouble. rewrite round_pos_eq by done. unfold ulp. rewrite Ee. change (63 - (64 - 1)) with 0.
    change (pow2 0) with 1%Q. rewrite Qmult_1_r, <- Zlt_Qlt, <- Zle_Qle. lia.
Qed.

#[global] Opaque pow2 exponent longDouble.
