(* ===== verification/Time.v ===== *)
(** The clocks of [core/Time.cpp]: calibration of the time-stamp counter, and elapsed time
    in nanoseconds.

    The hardware is not part of the program: [now n] is the [n]-th [clock_gettime] as
    seconds and nanoseconds, [tsc n] the [n]-th [__rdtscp].  [static_cast<uint64_t>] of a
    [long double] that does not fit has no defined result, [None] here. *)
From stdpp Require Import base tactics list.
From Stdlib Require Import ZArith QArith Qround Qabs Lqa Lia.
From S2P Require Import Prelude LongDouble.
#[local] Open Scope Z_scope.
#[local] Open Scope astra_scope.

Module Time.

Record TimeCalibration := mkCalibration {
  now_ns_overhead_ns : Z;
  rdtsc_overhead_ticks : Z;
  rdtsc_ticks_per_second : Z }.

Definition kCalibrationSamples : nat := Z.to_nat 10000.
Definition kNsPerSecond : Q := ldOfZ 1000000000.

Definition saturatedNsFromTicks (ticks ticks_per_second : Z) : Z :=
  if ticks_per_second =? 0 then ticks else
  let ns := ldDiv (ldMul (ldOfZ ticks) kNsPerSecond) (ldOfZ ticks_per_second) in
  if Qle_bool (ldOfZ max_u64) ns then max_u64 else Qfloor (ldAdd ns (1 # 2)).

(** The loop of both overhead measurements: [n] samples of two reads, the next read being
    [i]. *)
Fixpoint overheadLoop (n : nat) (clock : nat → Z) (i : nat) (best : Z) : Z :=
  match n with
  | O => best
  | S n =>
    let start := clock i in
    let finish := clock (S i) in
    overheadLoop n clock (S (S i)) (if (start <=? finish) && (finish - start <? best) then finish - start else best)
  end.

Definition measureOverhead (clock : nat → Z) (i : nat) : Z :=
  let best := overheadLoop kCalibrationSamples clock i max_u64 in if best =? max_u64 then 0 else best.

(** [measureRdtscFrequency] on what it reads before and after its sleep. *)
Definition measureRdtscFrequency (ns_start ticks_start ticks_end ns_end : Z) : option Z :=
  if (ticks_end <=? ticks_start) || (ns_end <=? ns_start) then Some 0 else
  let ticks := ldOfZ (ticks_end - ticks_start) in
  let ns := ldOfZ (ns_end - ns_start) in
  let result := Qfloor (ldAdd (ldDiv (ldMul ticks kNsPerSecond) ns) (1 # 2)) in
  if result <=? max_u64 then Some result else None.

Definition nowNs (now : nat → Z * Z) (i : nat) : Z := u64 (u64 (fst (now i) * 1000000000) + snd (now i)).

(** The reads of the two clocks in the order of [calibrateTime]. *)
Definition calibrateTime (now : nat → Z * Z) (tsc : nat → Z) : option TimeCalibration :=
  let used := (2 * kCalibrationSamples)%nat in
  let now_overhead := measureOverhead (nowNs now) 0 in
  let tsc_overhead := measureOverhead tsc 0 in
  frequency ← measureRdtscFrequency (nowNs now used) (tsc used) (tsc (S used)) (nowNs now (S used));
  Some (mkCalibration now_overhead tsc_overhead frequency).

Definition elapsedNs (c : TimeCalibration) (start_ns end_ns : Z) : Z :=
  if end_ns <? start_ns then 0 else
  let elapsed := end_ns - start_ns in
  let overhead := now_ns_overhead_ns c in
  if overhead <? elapsed then elapsed - overhead else 0.

Definition elapsedRdtscNs (c : TimeCalibration) (start_ticks end_ticks : Z) : Z :=
  if end_ticks <? start_ticks then 0 else
  let elapsed_ticks := end_ticks - start_ticks in
  let adjusted_ticks :=
    if rdtsc_overhead_ticks c <? elapsed_ticks then elapsed_ticks - rdtsc_overhead_ticks c else 0 in
  saturatedNsFromTicks adjusted_ticks (rdtsc_ticks_per_second c).

(** ** Properties *)

(** The difference of a sample whose reads are in order. *)
Definition sampled (clock : nat → Z) (i : nat) (d : Z) : Prop := clock i <= clock (S i) ∧ d = clock (S i) - clock i.

Lemma overheadLoop_spec n clock i best :
  let result := overheadLoop n clock i best in
  result <= best ∧ (∀ k d, (k < n)%nat → sampled clock (i + 2 * k) d → result <= d) ∧
  (result = best ∨ ∃ k, (k < n)%nat ∧ sampled clock (i + 2 * k) result).
Proof.
  revert i best. induction n as [|n IH]; intros i best; cbn [overheadLoop]; [split; [lia|]; split; [lia|by left]|].
  match goal with |- context [overheadLoop n clock _ ?b] => set (best' := b) end.
  destruct (IH (S (S i)) best') as (H1&H2&H3). set (result := overheadLoop _ _ _ _) in *.
  assert (best' <= best ∧ (∀ d, sampled clock i d → best' <= d) ∧ (best' = best ∨ sampled clock i best')) as (B1&B2&B3).
  { unfold best', sampled. destruct (Z.leb_spec (clock i) (clock (S i))), (Z.ltb_spec (clock (S i) - clock i) best); cbn [andb];
      (split; [lia|]); (split; [lia|]); auto. }
  split; [lia|]. split.
  - intros [|k] d Hk Hd; [rewrite Nat.mul_0_r, Nat.add_0_r in Hd; specialize (B2 d Hd); lia|].
    apply (H2 k d); [lia|]. by replace (S (S i) + 2 * k)%nat with (i + 2 * S k)%nat by lia.
  - destruct H3 as [E|(k&Hk&Hs)].
    + rewrite E. destruct B3 as [->|Hs]; [by left|]. right. exists 0%nat. split; [lia|]. by rewrite Nat.mul_0_r, Nat.add_0_r.
    + right. exists (S k). split; [lia|]. by replace (i + 2 * S k)%nat with (S (S i) + 2 * k)%nat by lia.
Qed.

(** The overhead is the least difference of the samples that are in order, or zero. *)
Lemma overhead_least clock i :
  let o := measureOverhead clock i in
  (∀ k d, (k < kCalibrationSamples)%nat → sampled clock (i + 2 * k) d → o <= d) ∧
  (o = 0 ∨ ∃ k, (k < kCalibrationSamples)%nat ∧ sampled clock (i + 2 * k) o).
Proof.
  cbn zeta. unfold measureOverhead. cbn zeta. destruct (overheadLoop_spec kCalibrationSamples clock i max_u64) as (_&H2&H3).
  destruct (Z.eqb_spec (overheadLoop kCalibrationSamples clock i max_u64) max_u64) as [E|E].
  - split; [|by left]. intros k d _ [Hle ->]. lia.
  - split; [exact H2|]. destruct H3 as [H3|H3]; [destruct (E H3)|right; exact H3].
Qed.

(** The conversion of [ticks] at a positive rate. *)
Definition ticksNs (ticks ticks_per_second : Z) : Q := (inject_Z (ticks * 1000000000) / inject_Z ticks_per_second)%Q.

Section conversion.
Context (tps : Z) (Htps : 0 < tps).

Lemma tps_pos : (0 < inject_Z tps)%Q.
Proof. change 0%Q with (inject_Z 0). by rewrite <- Zlt_Qlt. Qed.

Lemma converted ticks :
  saturatedNsFromTicks ticks tps =
  let ns := ldDiv (ldMul (ldOfZ ticks) kNsPerSecond) (ldOfZ tps) in
  if Qle_bool (ldOfZ max_u64) ns then max_u64 else Qfloor (ldAdd ns (1 # 2)).
Proof. unfold saturatedNsFromTicks. by rewrite (proj2 (Z.eqb_neq tps 0)) by lia. Qed.

(** The integers up to 2^64 are exact, so rounding up by a half stays in range. *)
Lemma saturated_range ticks : 0 <= saturatedNsFromTicks ticks tps <= max_u64.
Proof.
  rewrite converted. cbn zeta. set (ns := ldDiv _ _). destruct (Qle_bool (ldOfZ max_u64) ns) eqn:E; [done|].
  assert (ns < inject_Z max_u64)%Q as Hlt.
  { apply Qnot_le_lt. intros H. apply Qle_bool_iff in H. unfold ldOfZ in E. congruence. }
  pose proof (ld_nonneg (ldMul (ldOfZ ticks) kNsPerSecond / ldOfZ tps)) as H0. fold (ldDiv (ldMul (ldOfZ ticks) kNsPerSecond) (ldOfZ tps)) ns in H0 |- *.
  unfold ldAdd. pose proof (ld_nonneg (ns + (1 # 2))) as H1. split.
  - change 0 with (Qfloor (inject_Z 0)). by apply Qfloor_resp_le.
  - pose proof (ld_below_max _ Hlt) as Hgap. fold (ldDiv (ldMul (ldOfZ ticks) kNsPerSecond) (ldOfZ tps)) ns in Hgap.
    assert (inject_Z (max_u64 - 1) + 1 == inject_Z max_u64)%Q as Hm by done.
    assert (longDouble (ns + (1 # 2)) <= inject_Z max_u64)%Q as Hle.
    { rewrite <- (ld_Z max_u64) by done. apply ld_mono. rewrite <- Hm. lra. }
    apply Qfloor_resp_le in Hle. by rewrite Qfloor_Z in Hle.
Qed.

Lemma saturated_mono ticks ticks' : 0 <= ticks <= ticks' → saturatedNsFromTicks ticks tps <= saturatedNsFromTicks ticks' tps.
Proof.
  intros [H0 Hle]. pose proof (saturated_range ticks) as Hr. pose proof tps_pos as Hp.
  assert (ldDiv (ldMul (ldOfZ ticks) kNsPerSecond) (ldOfZ tps) <= ldDiv (ldMul (ldOfZ ticks') kNsPerSecond) (ldOfZ tps))%Q as Hns.
  { apply ld_mono. unfold Qdiv. apply Qmult_le_compat_r; [|apply Qlt_le_weak; by apply Qinv_lt_0_compat].
    apply ld_mono. apply Qmult_le_compat_r; [|done]. unfold ldOfZ. rewrite <- Zle_Qle. lia. }
  rewrite !converted in *. cbn zeta in *. set (a := ldDiv (ldMul (ldOfZ ticks) _) _) in *. set (b := ldDiv (ldMul (ldOfZ ticks') _) _) in *.
  destruct (Qle_bool (ldOfZ max_u64) b) eqn:Eb; [by destruct Hr|].
  assert (Qle_bool (ldOfZ max_u64) a = false) as ->.
  { apply not_true_iff_false. intros Ha%Qle_bool_iff. assert (Qle_bool (ldOfZ max_u64) b = true); [|congruence].
    apply Qle_bool_iff. lra. }
  apply Qfloor_resp_le, ld_mono. lra.
Qed.

(** Up to 2^60 nanoseconds (36 years) the conversion is off by less than one. *)
Lemma saturated_accurate ticks : 0 <= ticks → (ticksNs ticks tps <= inject_Z (2 ^ 60))%Q →
  (Qabs (inject_Z (saturatedNsFromTicks ticks tps) - ticksNs ticks tps) < 1)%Q.
Proof.
  intros H0 Hv. pose proof tps_pos as Hp. set (v := ticksNs ticks tps) in *.
  assert (0 <= inject_Z (ticks * 1000000000))%Q as Hn0 by (change 0%Q with (inject_Z 0); rewrite <- Zle_Qle; lia).
  assert (0 <= v)%Q as Hv0 by (apply Qle_shift_div_l; [done|]; lra).
  set (x := (ldOfZ ticks * kNsPerSecond)%Q).
  assert (x == inject_Z (ticks * 1000000000))%Q as Ex by (unfold x, ldOfZ, kNsPerSecond; rewrite inject_Z_mult; done).
  (* the rounded product, divided exactly *)
  set (w := (ldMul (ldOfZ ticks) kNsPerSecond / ldOfZ tps)%Q).
  assert (- (1 # 8) <= w - v <= 1 # 8)%Q as Hw.
  { pose proof (ld_rel_error x ltac:(rewrite Ex; done)) as He.
    assert (x / inject_Z tps == v)%Q as Exv by (unfold v, ticksNs; by rewrite Ex).
    assert (w - v == (longDouble x - x) / inject_Z tps)%Q as ->.
    { rewrite <- Exv. change w with (longDouble x / inject_Z tps)%Q. generalize (longDouble x). intros q. field. lra. }
    assert (v * (1 # 18446744073709551616) <= 1 # 8)%Q as Hs by (change (inject_Z (2 ^ 60)) with (1152921504606846976 # 1)%Q in Hv; lra).
    assert (x == v * inject_Z tps)%Q as Exx by (rewrite <- Exv; field; lra).
    assert (v * (1 # 18446744073709551616) * inject_Z tps <= (1 # 8) * inject_Z tps)%Q as Hst by (apply Qmult_le_compat_r; [done|lra]).
    assert (x * (1 # 18446744073709551616) == v * (1 # 18446744073709551616) * inject_Z tps)%Q as Exu by (rewrite Exx; ring).
    rewrite Exu in He. clear Exx Exu. split; [apply Qle_shift_div_l|apply Qle_shift_div_r]; try done; lra. }
  change (inject_Z (2 ^ 60)) with (1152921504606846976 # 1)%Q in Hv.
  assert (0 <= w)%Q as Hw0 by (unfold w; apply Qle_shift_div_l; [done|]; rewrite Qmult_0_l; apply ld_nonneg).
  pose proof (ld_error w (1152921504606846977 # 1) ltac:(lra)) as Hns.
  rewrite converted. cbn zeta. set (ns := ldDiv _ _). change (longDouble w) with ns in Hns.
  assert (0 <= ns)%Q as Hns0 by apply ld_nonneg.
  destruct (Qle_bool (ldOfZ max_u64) ns) eqn:E.
  { apply Qle_bool_iff in E. change (ldOfZ max_u64) with (18446744073709551615 # 1)%Q in E. lra. }
  pose proof (ld_error (ns + (1 # 2)) (1152921504606846978 # 1) ltac:(lra)) as Hy. change (longDouble (ns + (1 # 2))) with (ldAdd ns (1 # 2)) in Hy.
  set (y := ldAdd ns (1 # 2)) in *.
  pose proof (Qfloor_le y) as F1. pose proof (Qlt_floor y) as F2. rewrite inject_Z_plus in F2. change (inject_Z 1) with 1%Q in F2.
  apply Qabs_Qlt_condition. lra.
Qed.

Lemma saturated_zero : saturatedNsFromTicks 0 tps = 0.
Proof.
  pose proof (saturated_range 0) as H1. pose proof (saturated_accurate 0 ltac:(lia)) as H2.
  assert (ticksNs 0 tps == 0)%Q as Ez by done. rewrite Ez in H2. specialize (H2 ltac:(done)).
  apply Qabs_Qlt_condition in H2 as [_ H2]. unfold Qminus in H2. rewrite Qplus_0_r in H2. change 1%Q with (inject_Z 1) in H2.
  rewrite <- Zlt_Qlt in H2. lia.
Qed.

End conversion.

(** C36. Elapsed time is measured soundly: counter readings that went
    backwards, or did not exceed the measured overhead, give zero; otherwise the result
    never leaves 64 bits, does not decrease with the later reading, and for intervals up
    to 2^60 nanoseconds differs from the exact quotient of ticks and frequency by less than
    one nanosecond, although three operations in extended precision round on the way. *)
Theorem elapsed_ticks_accurate c start finish later :
  0 < rdtsc_ticks_per_second c → 0 <= rdtsc_overhead_ticks c → finish <= later →
  let ticks := Z.max 0 (finish - start - rdtsc_overhead_ticks c) in
  let exact := ticksNs ticks (rdtsc_ticks_per_second c) in
  (ticks = 0 → elapsedRdtscNs c start finish = 0) ∧
  0 <= elapsedRdtscNs c start finish <= max_u64 ∧
  elapsedRdtscNs c start finish <= elapsedRdtscNs c start later ∧
  ((exact <= inject_Z (2 ^ 60))%Q → (Qabs (inject_Z (elapsedRdtscNs c start finish) - exact) < 1)%Q).
Proof.
  intros Hf Ho Hl ticks exact.
  assert (∀ x, elapsedRdtscNs c start x = saturatedNsFromTicks (Z.max 0 (x - start - rdtsc_overhead_ticks c)) (rdtsc_ticks_per_second c)) as E.
  { intros x.
    unfold elapsedRdtscNs. destruct (Z.ltb_spec x start); [rewrite Z.max_l by lia; symmetry; by apply saturated_zero|].
    destruct (Z.ltb_spec (rdtsc_overhead_ticks c) (x - start)); [by rewrite Z.max_r by lia|by rewrite Z.max_l by lia]. }
  assert (elapsedRdtscNs c start finish = saturatedNsFromTicks ticks (rdtsc_ticks_per_second c)) as Ef by apply E.
  split; [intros Et; rewrite Ef, Et; by apply saturated_zero|].
  rewrite Ef. split; [by apply saturated_range|]. split; [rewrite E; apply saturated_mono; lia|].
  apply saturated_accurate; lia.
Qed.

(** A counter at 2.5 GHz with an overhead of 30 ticks, read 2530 ticks apart. *)
Definition sampleCalibration : TimeCalibration := mkCalibration 20 30 2500000000.

Lemma elapsed_ticks_accurate_witness :
  elapsedRdtscNs sampleCalibration 1000 3530 = 1000 ∧
  (Qabs (inject_Z (elapsedRdtscNs sampleCalibration 1000 3530) - ticksNs 2500 2500000000) < 1)%Q.
Proof.
  split; [vm_compute; reflexivity|].
  apply (elapsed_ticks_accurate sampleCalibration 1000 3530 3530); [reflexivity|cbn; lia|lia|].
  vm_compute. congruence.
Defined.

End Time.
