(* ===== verification/Percentile.v ===== *)
(** The percentiles and the snapshot of [metrics/LatencyRecorder.cpp], whose ranks are
    computed in extended precision from percentiles that are doubles. *)
From stdpp Require Import base tactics list.
From Stdlib Require Import ZArith QArith Qround Qabs Lqa Lia.
From S2P Require Import Prelude LongDouble Latency.
#[local] Open Scope Z_scope.
#[local] Open Scope astra_scope.

Module Percentile.
Import LatencyRecorder.

(** The rank for a percentile strictly between 0 and 100. *)
Definition percentileRank (count : Z) (percentile : Q) : Z :=
  let target := ldMul (ldOfZ count) (ldDiv percentile 100) in
  Z.max (Qceiling target) 1.

Definition percentile (s : t) (percentile : Q) : Z :=
  if count s =? 0 then 0 else
  if Qle_bool percentile 0 then min_ns s else
  if Qle_bool 100 percentile then max_ns s else
  valueAtRank s (percentileRank (count s) percentile).

Record Snapshot := mkSnapshot {
  snap_count : Z;
  snap_invalid_samples : Z;
  snap_min_ns : Z;
  snap_max_ns : Z;
  mean_ns : Q;
  p50_ns : Z;
  p90_ns : Z;
  p99_ns : Z;
  p999_ns : Z;
  p9999_ns : Z }.

(** The literals 50.0, 90.0, 99.0, 99.9 and 99.99. *)
Definition p50 : Q := double 50.
Definition p90 : Q := double 90.
Definition p99 : Q := double 99.
Definition p999 : Q := double (999 # 10).
Definition p9999 : Q := double (9999 # 100).

Definition snapshot (s : t) : Snapshot :=
  if count s =? 0 then mkSnapshot 0 (invalid_samples s) 0 0 0 0 0 0 0 0 else
  mkSnapshot (count s) (invalid_samples s) (min_ns s) (max_ns s) (ldDiv (ldOfZ (total_ns s)) (ldOfZ (count s)))
    (percentile s p50) (percentile s p90) (percentile s p99) (percentile s p999) (percentile s p9999).

(** ** Ranks *)

(** [ceil (n * a / b)]. *)
Definition ceilDiv (n d : Z) : Z := (n + (d - 1)) / d.

Lemma ceiling_between x k : (inject_Z (k - 1) < x)%Q → (x <= inject_Z k)%Q → Qceiling x = k.
Proof.
  intros Hl Hh. apply Z.le_antisymm.
  - apply Qceiling_resp_le in Hh. by rewrite Qceiling_Z in Hh.
  - pose proof (Qle_ceiling x) as Hc. assert (k - 1 < Qceiling x); [|lia]. rewrite Zlt_Qlt. lra.
Qed.

Section rank.
Context (n : Z) (Hn : 1 <= n <= 2 ^ 36).

Lemma count_Q : (1 <= inject_Z n <= 68719476736 # 1)%Q.
Proof.
  split; [change 1%Q with (inject_Z 1)|change (68719476736 # 1)%Q with (inject_Z (2 ^ 36))]; rewrite <- Zle_Qle; lia.
Qed.

(** The least [k] with [a * n <= b * k], as inequalities between rationals. *)
Lemma ceilDiv_Q a b : 0 < b → let k := ceilDiv (n * a) b in
  (inject_Z a * inject_Z n <= inject_Z b * inject_Z k)%Q ∧ (inject_Z b * inject_Z k <= inject_Z a * inject_Z n + (inject_Z b - 1))%Q.
Proof.
  intros Hb k. pose proof (Z.div_mod (n * a + (b - 1)) b ltac:(lia)) as Hd. pose proof (Z.mod_pos_bound (n * a + (b - 1)) b Hb) as Hm.
  fold (ceilDiv (n * a) b) k in Hd. change 1%Q with (inject_Z 1). unfold Qminus. rewrite <- inject_Z_opp.
  rewrite <- !inject_Z_mult, <- !inject_Z_plus, <- !Zle_Qle. lia.
Qed.

Lemma ceilDiv_range a b : 0 < a <= b → 1 <= ceilDiv (n * a) b <= n.
Proof. intros Hab. unfold ceilDiv. split; [apply Z.div_le_lower_bound; nia|]. assert ((n * a + (b - 1)) / b < n + 1); [|lia]. apply Z.div_lt_upper_bound; nia. Qed.

Lemma floorDiv_Q a b : 0 < b → let k := (n * a / b) in
  (inject_Z b * inject_Z k <= inject_Z a * inject_Z n)%Q ∧ (inject_Z a * inject_Z n <= inject_Z b * inject_Z k + (inject_Z b - 1))%Q.
Proof.
  intros Hb k. pose proof (Z.div_mod (n * a) b ltac:(lia)) as Hd. pose proof (Z.mod_pos_bound (n * a) b Hb) as Hm.
  fold k in Hd. change 1%Q with (inject_Z 1). unfold Qminus. rewrite <- inject_Z_opp.
  rewrite <- !inject_Z_mult, <- !inject_Z_plus, <- !Zle_Qle. lia.
Qed.

(** The target for the quotient [c] of a percentile by 100. *)
Lemma target_error p c : (0 <= c)%Q → (ldDiv p 100 == c)%Q →
  let x := (inject_Z n * c)%Q in let y := ldMul (ldOfZ n) (ldDiv p 100) in
  (y == longDouble x)%Q ∧ (- (x * (1 # 18446744073709551616)) <= y - x <= x * (1 # 18446744073709551616))%Q.
Proof.
  intros Hc E x y. assert (y == longDouble x)%Q as Ey by (unfold y, ldMul, x, ldOfZ; by rewrite E). split; [done|].
  rewrite Ey. apply ld_rel_error. unfold x. apply Qmult_le_0_compat; [pose proof count_Q; lra|done].
Qed.

Lemma rank_value p c k : (0 <= c)%Q → (ldDiv p 100 == c)%Q → 1 <= k → (longDouble (inject_Z n * c) <= inject_Z k)%Q →
  (inject_Z (k - 1) < inject_Z n * c - inject_Z n * c * (1 # 18446744073709551616))%Q → percentileRank n p = k.
Proof.
  intros Hc E Hk Hup Hlow. destruct (target_error p c Hc E) as [Ey He]. unfold percentileRank. cbn zeta.
  rewrite (ceiling_between _ k); [lia|lra|by rewrite Ey].
Qed.

(** A quotient that does not exceed the percentile gives the exact rank. *)
Lemma rank_ceil p c a b : 0 < a <= b → (0 <= c)%Q → (ldDiv p 100 == c)%Q → (inject_Z n * (inject_Z b * c) <= inject_Z a * inject_Z n)%Q →
  (inject_Z a * inject_Z n - 1 < inject_Z b * (inject_Z n * c - inject_Z n * c * (1 # 18446744073709551616)))%Q →
  percentileRank n p = ceilDiv (n * a) b.
Proof.
  intros Hab Hc E Hup Hlow. set (k := ceilDiv (n * a) b). destruct (ceilDiv_Q a b ltac:(lia)) as [K1 K2]. fold k in K1, K2.
  pose proof (ceilDiv_range a b Hab) as Hk. fold k in Hk.
  assert (0 < inject_Z b)%Q as Hb by (change 0%Q with (inject_Z 0); rewrite <- Zlt_Qlt; lia).
  apply (rank_value p c); [done|done|lia| |].
  - rewrite <- (ld_Z k) by lia. apply ld_mono. apply (Qmult_le_l _ _ (inject_Z b) Hb).
    assert (inject_Z b * (inject_Z n * c) == inject_Z n * (inject_Z b * c))%Q as -> by ring. lra.
  - apply (Qmult_lt_l _ _ (inject_Z b) Hb). unfold Z.sub. rewrite inject_Z_plus. change (inject_Z (- (1))) with (-1 # 1)%Q. lra.
Qed.

Lemma rank_50 : percentileRank n p50 = ceilDiv (n * 50) 100.
Proof.
  pose proof count_Q. apply (rank_ceil p50 (1 # 2)); [done|done|vm_compute; reflexivity| |];
    change (inject_Z 50) with (50 # 1)%Q; change (inject_Z 100) with (100 # 1)%Q; lra.
Qed.

Lemma rank_90 : percentileRank n p90 = ceilDiv (n * 90) 100.
Proof.
  pose proof count_Q. apply (rank_ceil p90 (8301034833169298227 # 9223372036854775808)); [done|done|vm_compute; reflexivity| |];
    change (inject_Z 90) with (90 # 1)%Q; change (inject_Z 100) with (100 # 1)%Q; lra.
Qed.

Lemma rank_9999 : percentileRank n p9999 = ceilDiv (n * 9999) 10000.
Proof.
  pose proof count_Q. apply (rank_ceil p9999 (18444899399302179717 # 18446744073709551616)); [done|done|vm_compute; reflexivity| |];
    change (inject_Z 9999) with (9999 # 1)%Q; change (inject_Z 10000) with (10000 # 1)%Q; lra.
Qed.

(** The quotient 0.99 is rounded up, by so little that the product is rounded back. *)
Lemma rank_99 : percentileRank n p99 = ceilDiv (n * 99) 100.
Proof.
  pose proof count_Q as Hc. destruct (ceilDiv_Q 99 100 ltac:(lia)) as [K1 K2]. pose proof (ceilDiv_range 99 100 ltac:(lia)) as Hk.
  set (k := ceilDiv (n * 99) 100) in *. change (inject_Z 99) with (99 # 1)%Q in *. change (inject_Z 100) with (100 # 1)%Q in *.
  apply (rank_value p99 (4565569158243114025 # 4611686018427387904)); [done|vm_compute; reflexivity|lia| |].
  - destruct (Z.eq_dec (100 * k) (99 * n)) as [E|E].
    + assert ((100 # 1) * inject_Z k == (99 # 1) * inject_Z n)%Q as EQ.
      { change (100 # 1)%Q with (inject_Z 100). change (99 # 1)%Q with (inject_Z 99). by rewrite <- !inject_Z_mult, E. }
      assert (longDouble (inject_Z n * (4565569158243114025 # 4611686018427387904)) == inject_Z k)%Q as ->; [|apply Qle_refl].
      apply (round_above 64 eq_refl k); [lia|lra|]. assert (pow2 (- (64 + 1)) == 1 # 36893488147419103232)%Q as -> by (vm_compute; reflexivity). lra.
    + assert ((99 # 1) * inject_Z n + 1 <= (100 # 1) * inject_Z k)%Q as HQ.
      { change (100 # 1)%Q with (inject_Z 100) in *. change (99 # 1)%Q with (inject_Z 99) in *. change 1%Q with (inject_Z 1).
        rewrite <- !inject_Z_mult in *. rewrite <- inject_Z_plus, <- Zle_Qle in *. lia. }
      rewrite <- (ld_Z k) by lia. apply ld_mono. lra.
  - unfold Z.sub. rewrite inject_Z_plus. change (inject_Z (- (1))) with (-1 # 1)%Q. lra.
Qed.

(** The double nearest to 99.9 is above it, and stays so. *)
Lemma rank_999 : percentileRank n p999 = n * 999 / 1000 + 1.
Proof.
  pose proof count_Q as Hc. destruct (floorDiv_Q 999 1000 ltac:(lia)) as [K1 K2].
  assert (0 <= n * 999 / 1000 < n) as Hk by (split; [apply Z.div_pos; lia|apply Z.div_lt_upper_bound; lia]).
  set (k := n * 999 / 1000) in *. change (inject_Z 999) with (999 # 1)%Q in *. change (inject_Z 1000) with (1000 # 1)%Q in *.
  apply (rank_value p999 (18428297329635843113 # 18446744073709551616)); [done|vm_compute; reflexivity|lia| |].
  - rewrite <- (ld_Z (k + 1)) by lia. apply ld_mono. rewrite inject_Z_plus. change (inject_Z 1) with 1%Q. lra.
  - replace (k + 1 - 1) with k by lia. lra.
Qed.

End rank.

(** ** The snapshot *)

(** [got] reports the duration of rank [r] up to the width of its bucket. *)
Definition reports (samples : list (Z * Z)) (s : t) (r got : Z) : Prop :=
  ∃ v, ranked samples r v ∧ v <= got ∧
    if v <? kExactBucketCount + kFineRangeNs + kCoarseRangeNs
    then got - v < (if v <? kExactBucketCount then 1 else
                    if v <? kExactBucketCount + kFineRangeNs then kFineBucketWidthNs else kCoarseBucketWidthNs)
    else got = max_ns s.

Section snapshots.
Context (samples : list (Z * Z)) (Hok : Forall sample_ok samples) (Hn : 1 <= total samples <= 2 ^ 36).

Lemma recorded_count : count (recordAll samples) = total samples.
Proof. apply recorded_all; [done|unfold max_u64; lia]. Qed.

Lemma percentile_reports p r : (0 < p < 100)%Q → percentileRank (total samples) p = r → 1 <= r <= total samples →
  reports samples (recordAll samples) r (percentile (recordAll samples) p).
Proof.
  intros Hp Er Hr. unfold percentile. rewrite recorded_count, (proj2 (Z.eqb_neq _ 0)) by lia.
  destruct (Qle_bool p 0) eqn:E1; [apply Qle_bool_iff in E1; lra|]. destruct (Qle_bool 100 p) eqn:E2; [apply Qle_bool_iff in E2; lra|].
  rewrite Er. destruct (latency_rank samples r Hok ltac:(unfold max_u64; lia) Hr) as (_&_&_&_&H). exact H.
Qed.

End snapshots.

(** C35. The snapshot's percentiles are those of the samples: for up to
    2^36 recorded durations, the 50th, 90th, 99th and 99.99th percentile report, up to the
    width of a histogram bucket, the duration whose rank is exactly the least integer not
    below that share of the count, although the share is computed in extended precision
    from a double; the 99.9th reports rank floor(0.999 n) + 1. *)
Theorem snapshot_percentiles samples :
  Forall sample_ok samples → 1 <= total samples <= 2 ^ 36 →
  let n := total samples in let s := recordAll samples in let shot := snapshot s in
  snap_count shot = n ∧
  reports samples s (ceilDiv (n * 50) 100) (p50_ns shot) ∧ reports samples s (ceilDiv (n * 90) 100) (p90_ns shot) ∧
  reports samples s (ceilDiv (n * 99) 100) (p99_ns shot) ∧ reports samples s (ceilDiv (n * 9999) 10000) (p9999_ns shot) ∧
  reports samples s (n * 999 / 1000 + 1) (p999_ns shot).
Proof.
  intros Hok Hn n s shot. unfold shot, snapshot, s. rewrite (recorded_count samples Hok Hn), (proj2 (Z.eqb_neq _ 0)) by lia.
  cbn [snap_count p50_ns p90_ns p99_ns p999_ns p9999_ns]. split; [done|].
  split; [apply percentile_reports; [done|done|done|by apply rank_50|by apply ceilDiv_range]|].
  split; [apply percentile_reports; [done|done|done|by apply rank_90|by apply ceilDiv_range]|].
  split; [apply percentile_reports; [done|done|done|by apply rank_99|by apply ceilDiv_range]|].
  split; [apply percentile_reports; [done|done|done|by apply rank_9999|by apply ceilDiv_range]|].
  apply percentile_reports; [done|done|done|by apply rank_999|]. fold n.
  assert (0 <= n * 999 / 1000 < n) by (split; [apply Z.div_pos; lia|apply Z.div_lt_upper_bound; lia]). lia.
Qed.

Lemma snapshot_percentiles_witness :
  snap_count (snapshot (recordAll sampleLatencies)) = 6 ∧
  reports sampleLatencies (recordAll sampleLatencies) 3 (p50_ns (snapshot (recordAll sampleLatencies))).
Proof.
  assert (Forall sample_ok sampleLatencies) as Hok.
  { unfold sampleLatencies. repeat (apply Forall_cons; split; [unfold sample_ok, max_u64; cbn; lia|]). constructor. }
  destruct (snapshot_percentiles sampleLatencies Hok ltac:(vm_compute; split; congruence)) as (Hc&H50&_).
  split; [exact Hc|exact H50].
Defined.

(** C40. The 99.9th percentile is one rank too high whenever the count is a
    multiple of 1000: the double nearest to 99.9 is above it, so the product exceeds the
    integer 0.999 n and is rounded up.  Of 1000 durations of which 999 are 10 ns, it
    reports the single slow one, 5000 ns, to the width of its bucket. *)
Theorem p999_overshoots m :
  1 <= m <= 2 ^ 26 → percentileRank (1000 * m) p999 = 999 * m + 1 ∧
  p999_ns (snapshot (recordAll [(10, 999); (5000, 1)])) = 5007 ∧ ranked [(10, 999); (5000, 1)] 999 10.
Proof.
  intros Hm. split; [|split; [vm_compute; reflexivity|split; vm_compute; congruence]].
  rewrite rank_999 by lia. replace (1000 * m * 999) with (999 * m * 1000) by lia. by rewrite Z.div_mul.
Qed.

Lemma p999_overshoots_witness : percentileRank 1000 p999 = 1000.
Proof. apply (p999_overshoots 1). lia. Defined.

End Percentile.
