(* ===== verification/SenderMain.v ===== *)
(** [apps/itch_moldudp_sender_main.cpp] as a program: the scaling of delays, the sockets and
    threads of the lines, the final report, and [main].

    While a [RedundantUdpSender] is constructed, its main thread waits for the worker, so
    the two take turns: the start-up is one sequence of calls.  A [double] is the rational
    number it stands for. *)
From stdpp Require Import base list gmap strings pretty.
From Stdlib Require Import ZArith QArith Qround Lia Ascii.
From S2P Require Import Prelude Effects LongDouble Protocol Gap Capacity Manifest Replay Schedule Handoff SenderConfig Sender.
From S2P Require Import Parser Decoder Engine Udp Sockets EngineMain.
#[local] Open Scope Z_scope.
#[local] Open Scope astra_scope.

Module SenderMain.
Import Protocol SenderConfig Sender.

Definition scaledDelay (ns_delta : Z) (speedup : Q) : Z :=
  if (ns_delta =? 0) || Qle_bool speedup 0 then 0 else
  let scaled_ns := ldDiv (ldOfZ ns_delta) speedup in
  if negb (Qle_bool 1 scaled_ns) then 1 else
  if negb (Qle_bool scaled_ns (ldOfZ max_i64)) then max_i64 else
  Qceiling scaled_ns.

Abbreviation Options := (@Options Q).

(** What the host is asked besides the sockets. *)
Record Host := mkHost {
  getenv : string → option (list Z);
  inet_pton : list Z → option Z;
  hardware_concurrency : Z;
  setaffinity : Z → Z;
  (** [parsePositiveDoubleStrict]. *)
  parseDouble : option (list Z) → option Q;
  readFile : list Z → option (list Z) }.

Section sender.
Context (host : Host).

Definition pin (cpu : Z) : CpuAffinity.CpuAffinityResult :=
  CpuAffinity.pinCurrentThreadToCpu (hardware_concurrency host) (setaffinity host) cpu.

(** ** The redundant lines *)

Definition affinityError (line : string) (a : CpuAffinity.CpuAffinityResult) : string :=
  (line +:+ " CPU affinity " +:+ CpuAffinity.cpuAffinityStatusName (CpuAffinity.status a) +:+ " for CPU " +:+
   pretty (CpuAffinity.cpu_id a) +:+ ": " +:+ CpuAffinity.message a)%string.

(** The thread is pinned when CPUs were configured. *)
Definition pinLine (line : string) (cpu : option Z) : Prog Kernel () :=
  match cpu with
  | None => mret ()
  | Some cpu => let a := pin cpu in if CpuAffinity.applied a then mret () else throw (affinityError line a)
  end.

(** [std::thread]. *)
Definition spawn : Prog Kernel () := λ k,
  match default None (head (answers k)) with
  | Some e => (inl e, with_answers k (tail (answers k)))
  | None => (inr (), with_answers k (tail (answers k)))
  end.

(** The start-up of [lineBWorkerLoop]: the status and the error it publishes. *)
Definition startWorker (ip : list Z) (port_b : Z) (cpu : option Z) : Prog Kernel (string + UdpSender) :=
  catching (pinLine "line B" cpu;; sender ← openUdpSender (inet_pton host) ip port_b; mret (inr sender)) (λ e, mret (inl e)).

(** The constructor of [RedundantUdpSender]: the senders of the two lines. *)
Definition openRedundant (ip : list Z) (port_a port_b : Z) (cpus : option (Z * Z)) : Prog Kernel (UdpSender * UdpSender) :=
  pinLine "line A" (fst <$> cpus);;
  sender_a ← openUdpSender (inet_pton host) ip port_a;
  guarded (closeUdpSender sender_a)
    (spawn;;
     started ← startWorker ip port_b (snd <$> cpus);
     match started with
     | inr sender_b => mret (sender_a, sender_b)
     | inl e => throw ("line B sender startup failed: " +:+ e)%string
     end).

(** ** The lines of a run *)

Inductive Lines_ := SingleLine (a : UdpSender) | RedundantLines (a b : UdpSender).

Definition openLines (o : Options) : Prog Kernel Lines_ :=
  if redundant o then
    senders ← openRedundant (ip o) (port_a o) (port_b o) (cpus o); mret (RedundantLines (fst senders) (snd senders))
  else a ← openUdpSender (inet_pton host) (ip o) (port_a o); mret (SingleLine a).

(** The destructors: the worker closes line B before line A is closed. *)
Definition closeLines (l : Lines_) (k : Kernel) : Kernel :=
  match l with
  | SingleLine a => closeUdpSender a k
  | RedundantLines a b => closeUdpSender a (closeUdpSender b k)
  end.

(** [ASTRA_CPU] of single mode. *)
Definition pinSingle (o : Options) : Prog Kernel () :=
  match getenv host "ASTRA_CPU"%string with
  | Some (c :: rest) =>
    if redundant o then mret () else
    match parseCpuId (Some (c :: rest)) with
    | None => throw "ASTRA_CPU must be a non-negative in-range integer CPU ID"%string
    | Some cpu => if CpuAffinity.applied (pin cpu) then mret () else throw "requested CPU affinity is required for this run"%string
    end
  | _ => mret ()
  end.

(** ** The transmission and its report *)

(** The transmission up to the report: whether the end of the session was announced, and
    the final variables. *)
Definition transmission (o : Options) (file : option (list Z)) (path : string) (w : World) : string + (bool * Sender.t) :=
  let needs_premarket_window := negb (bool_decide (replay_mode o = ReplayOff)) in
  let premarket := if needs_premarket_window then scanPremarketWindow file (msgs_per_packet o) else noWindow in
  let s := ItchMoldUdpSource.make file path (session o) (msgs_per_packet o) (binary_file_completion_policy o) in
  if negb (ItchMoldUdpSource.isOpen s) then inl (ItchMoldUdpSource.last_error s) else
  x ← startup o (Sender.make o s w);
  x ← dataLoop scaledDelay o premarket (S (runs (world x))) x;
  endSession o x.

Definition completion (x : Sender.t) (end_of_session_sent : bool) : string :=
  let interrupted := negb (fst (load x)) in
  if transmission_failed x then "send_error"%string else
  if ItchMoldUdpSource.completed (source x) && end_of_session_sent then "complete"%string else
  if interrupted then "interrupted"%string else
  if ItchMoldUdpSource.completed (source x) then "eos_incomplete"%string else "source_error"%string.

(** The [sender_stats] line. *)
Definition senderStats (o : Options) (x : Sender.t) (end_of_session_sent : bool) : EngineMain.Fields :=
  let a := line_a (link x) in
  let b := line_b (link x) in
  let s := stats x in
  [("completion"%string, EngineMain.Word (completion x end_of_session_sent))] ++
  (if redundant o then
     [("line_a_pkts_sent", EngineMain.Num (RedundantUdpSender.packets_sent a));
      ("line_a_msgs_sent", EngineMain.Num (RedundantUdpSender.messages_sent a));
      ("line_a_send_failures", EngineMain.Num (RedundantUdpSender.send_failures a));
      ("line_b_pkts_sent", EngineMain.Num (RedundantUdpSender.packets_sent b));
      ("line_b_msgs_sent", EngineMain.Num (RedundantUdpSender.messages_sent b));
      ("line_b_send_failures", EngineMain.Num (RedundantUdpSender.send_failures b));
      ("line_b_delay_ns", EngineMain.Num (line_b_delay_ns o));
      ("line_b_delay_overruns", EngineMain.Num (RedundantUdpSender.delay_overruns b));
      ("logical_packets", EngineMain.Num (logical_packets s)); ("logical_messages", EngineMain.Num (logical_messages s))]%string
   else
     [("pkts_sent", EngineMain.Num (RedundantUdpSender.packets_sent a));
      ("msgs_sent", EngineMain.Num (RedundantUdpSender.messages_sent a))]%string) ++
  [("startup_heartbeats_sent", EngineMain.Num (startup_heartbeats_sent s));
   ("periodic_heartbeats_sent", EngineMain.Num (periodic_heartbeats_sent s));
   ("eos_packets_sent", EngineMain.Num (end_of_session_packets_sent s));
   ("eos_packets_expected", EngineMain.Num (MoldUdpEndOfSessionSchedule.packet_count (end_of_session_schedule o)));
   ("first_seq", EngineMain.Num (logical_first_seq s)); ("next_seq", EngineMain.Num (logical_next_seq s))]%string ++
  (if redundant o then [] else [("send_failures"%string, EngineMain.Num (RedundantUdpSender.send_failures a))]) ++
  [("binaryfile_completion", EngineMain.Word (completionKindName (ItchMoldUdpSource.completion_kind (source x))));
   ("end_of_session_sent", EngineMain.Word (if end_of_session_sent then "true" else "false"))]%string.

(** ** The program *)

(** The [try] block: the exit code ([true] for [EXIT_SUCCESS]) and the report. *)
Definition session_ (o : Options) (w : World) : Prog Kernel (bool * option EngineMain.Fields) :=
  pinSingle o;;
  let file := readFile host (path o) in
  let path_ := EngineMain.text (path o) in
  let s := ItchMoldUdpSource.make file path_ (session o) (msgs_per_packet o) (binary_file_completion_policy o) in
  if negb (ItchMoldUdpSource.isOpen s) then mret (false, None) else
  lines ← openLines o;
  result ← guarded (closeLines lines) (lift (transmission o file path_ w));
  modify (closeLines lines);;
  let '(end_of_session_sent, x) := result in
  mret (exitSuccess o x end_of_session_sent, Some (senderStats o x end_of_session_sent)).

Definition main (argv : list (list Z)) (w : World) : Prog Kernel (bool * option EngineMain.Fields) :=
  match parseOptions (parseDouble host) 1%Q (getenv host) argv with
  | inl _ => mret (false, None)
  | inr o => catching (session_ o w) (λ _, mret (false, None))
  end.

End sender.
End SenderMain.
