(* ===== verification/SenderMainProps.v ===== *)
(** The sender as a program: its exit code, the sockets it leaves, and the delays of the
    pre-market replay. *)
From stdpp Require Import base list gmap strings.
From Stdlib Require Import ZArith QArith Qround Qabs Lqa Lia Ascii.
From S2P Require Import Prelude Effects LongDouble Protocol Gap Capacity Manifest Replay Schedule Handoff SenderConfig Sender.
From S2P Require Import Parser Decoder Engine Udp Sockets SocketsProps EngineMain SenderMain.
#[local] Open Scope Z_scope.
#[local] Open Scope astra_scope.

Module SenderMainProps.
Import Protocol SenderConfig Sender SocketsProps SenderMain.

(** ** Delays *)

Section delays.
Context (speedup : Q) (Hs : (0 < speedup)%Q).

Lemma scaled_pos ns : 0 < ns → scaledDelay ns speedup =
  let scaled := ldDiv (ldOfZ ns) speedup in
  if negb (Qle_bool 1 scaled) then 1 else if negb (Qle_bool scaled (ldOfZ max_i64)) then max_i64 else Qceiling scaled.
Proof.
  intros Hn. unfold scaledDelay. rewrite (proj2 (Z.eqb_neq ns 0)) by lia.
  destruct (Qle_bool speedup 0) eqn:E; [apply Qle_bool_iff in E; lra|done].
Qed.

Lemma scaled_range ns : 0 <= ns → 0 <= scaledDelay ns speedup <= max_i64.
Proof.
  intros Hn. destruct (Z.eq_dec ns 0) as [->|]; [done|]. rewrite scaled_pos by lia. cbn zeta. set (q := ldDiv _ _).
  destruct (Qle_bool 1 q) eqn:E1; cbn [negb]; [|done]. destruct (Qle_bool q (ldOfZ max_i64)) eqn:E2; cbn [negb]; [|done].
  apply Qle_bool_iff in E1, E2. split.
  - apply Qceiling_resp_le in E1. change (Qceiling 1) with 1 in E1. lia.
  - apply Qceiling_resp_le in E2. unfold ldOfZ in E2. by rewrite Qceiling_Z in E2.
Qed.

Lemma scaled_positive ns : 0 < ns → 0 < scaledDelay ns speedup.
Proof.
  intros Hn. rewrite scaled_pos by done. cbn zeta. set (q := ldDiv _ _).
  destruct (Qle_bool 1 q) eqn:E1; cbn [negb]; [|done]. destruct (Qle_bool q (ldOfZ max_i64)); cbn [negb]; [|done].
  apply Qle_bool_iff, Qceiling_resp_le in E1. change (Qceiling 1) with 1 in E1. lia.
Qed.

Lemma scaled_mono ns ns' : 0 <= ns <= ns' → scaledDelay ns speedup <= scaledDelay ns' speedup.
Proof.
  intros Hn. pose proof (scaled_range ns' ltac:(lia)) as Hr.
  destruct (Z.eq_dec ns 0) as [->|]; [change (scaledDelay 0 speedup) with 0; lia|].
  pose proof (scaled_range ns ltac:(lia)) as Hr0.
  assert (ldDiv (ldOfZ ns) speedup <= ldDiv (ldOfZ ns') speedup)%Q as Hq.
  { apply ld_mono. unfold Qdiv. apply Qmult_le_compat_r; [|apply Qlt_le_weak; by apply Qinv_lt_0_compat].
    unfold ldOfZ. rewrite <- Zle_Qle. lia. }
  rewrite !scaled_pos in * by lia. cbn zeta in *. set (a := ldDiv (ldOfZ ns) _) in *. set (b := ldDiv (ldOfZ ns') _) in *.
  destruct (Qle_bool 1 b) eqn:B1; cbn [negb] in *.
  - destruct (Qle_bool b (ldOfZ max_i64)) eqn:B2; cbn [negb] in *; [|by destruct Hr0].
    apply Qle_bool_iff in B1, B2. destruct (Qle_bool 1 a) eqn:A1; cbn [negb].
    + assert (Qle_bool a (ldOfZ max_i64) = true) as -> by (apply Qle_bool_iff; lra). cbn [negb]. by apply Qceiling_resp_le.
    + apply Qceiling_resp_le in B1. done.
  - assert (Qle_bool 1 a = false) as ->; [|done]. apply not_true_iff_false. intros A1%Qle_bool_iff.
    assert (Qle_bool 1 b = true); [|congruence]. apply Qle_bool_iff. lra.
Qed.

(** Up to 2^60 nanoseconds the delay is the quotient rounded up, give or take the last bit. *)
Lemma scaled_accurate ns : 0 < ns → (1 <= inject_Z ns / speedup <= inject_Z (2 ^ 60))%Q →
  (- (1 # 16) <= inject_Z (scaledDelay ns speedup) - inject_Z ns / speedup < 1 + (1 # 16))%Q.
Proof.
  intros Hn Hq. set (v := (inject_Z ns / speedup)%Q) in *. change (inject_Z (2 ^ 60)) with (1152921504606846976 # 1)%Q in Hq.
  pose proof (ld_error v (1152921504606846976 # 1) ltac:(lra)) as He. rewrite scaled_pos by done. cbn zeta.
  change (ldDiv (ldOfZ ns) speedup) with (longDouble v). set (q := longDouble v) in *.
  assert (1 <= q)%Q as H1.
  { unfold q. assert (longDouble (inject_Z 1) == inject_Z 1)%Q as E by (by apply ld_Z). change 1%Q with (inject_Z 1). rewrite <- E. apply ld_mono. exact (proj1 Hq). }
  rewrite (proj2 (Qle_bool_iff 1 q) H1). cbn [negb].
  assert (Qle_bool q (ldOfZ max_i64) = true) as ->.
  { apply Qle_bool_iff. change (ldOfZ max_i64) with (9223372036854775807 # 1)%Q. lra. }
  cbn [negb]. pose proof (Qle_ceiling q) as C1. pose proof (Qceiling_lt q) as C2. unfold Z.sub in C2. rewrite inject_Z_plus in C2.
  change (inject_Z (- (1))) with (-1 # 1)%Q in C2. lra.
Qed.

End delays.

(** The delays of the timestamp replay, with the quotient computed
    in extended precision: for a positive speed-up the delay is between zero and the largest
    count of nanoseconds, zero only for a zero gap, never smaller for a longer gap, and, when
    the exact quotient is between one and 2^60 nanoseconds (36 years), it is that quotient
    rounded up to within a sixteenth of a nanosecond. *)
Theorem scaled_delay_sound speedup ns ns' : (0 < speedup)%Q → 0 < ns <= ns' →
  0 < scaledDelay ns speedup <= scaledDelay ns' speedup ∧ scaledDelay ns' speedup <= max_i64 ∧ scaledDelay 0 speedup = 0 ∧
  ((1 <= inject_Z ns / speedup <= inject_Z (2 ^ 60))%Q →
   (- (1 # 16) <= inject_Z (scaledDelay ns speedup) - inject_Z ns / speedup < 1 + (1 # 16))%Q).
Proof.
  intros Hs Hn. split; [split; [by apply scaled_positive; [|lia]|apply scaled_mono; [done|lia]]|].
  split; [apply scaled_range; [done|lia]|]. split; [done|]. intros Hq. apply scaled_accurate; [done|lia|done].
Qed.

Lemma scaled_delay_sound_witness :
  scaledDelay 1000000007 (5 # 2) = 400000003 ∧ 0 < scaledDelay 1000000007 (5 # 2) <= scaledDelay 2000000000 (5 # 2).
Proof.
  split; [vm_compute; reflexivity|]. apply (scaled_delay_sound (5 # 2) 1000000007 2000000000); [reflexivity|lia].
Defined.

(** ** The lines *)

(** Whether a thread that the options pin cannot be pinned. *)
Definition unpinned (host : Host) (cpu : option Z) : Prop := ∃ c, cpu = Some c ∧ CpuAffinity.applied (pin host c) = false.

Section lines.
Context (host : Host).
Implicit Types (k : Kernel).

Lemma wp_pinLine line cpu k (Q : () → Kernel → Prop) (E : string → Kernel → Prop) :
  Q () k → (∀ e, unpinned host cpu → E e k) → wp (pinLine host line cpu) Q E k.
Proof.
  intros Hok Hno. unfold pinLine. destruct cpu as [c|]; [|by wp_step]. cbn zeta.
  destruct (CpuAffinity.applied (pin host c)) eqn:E1; wp_step; [done|]. apply Hno. by exists c.
Qed.

Lemma refused_suffix k k' : answers k' `suffix_of` answers k → refused k' → refused k.
Proof. intros [l Hl] [e He]. exists e. rewrite Hl. apply elem_of_app. by right. Qed.

(** What keeps a line from starting. *)
Definition unstartable (ip : list Z) (cpu : option Z) k : Prop := refused k ∨ inet_pton host ip = None ∨ unpinned host cpu.

Lemma wp_startWorker ip port cpu k :
  wp (startWorker host ip port cpu)
    (λ r k', match r with
             | inr b => dest b = (default 0 (inet_pton host ip), port) ∧ opened (sender_fd b) newSocket k k'
             | inl _ => restored k k' ∧ unstartable ip cpu k
             end)
    (λ _ _, False) k.
Proof.
  unfold startWorker. wp_step. wp_step. apply wp_pinLine.
  - wp_step. eapply wp_mono; [apply wp_openUdpSender| |].
    + intros b k' (a&Ha&Hd&Ho&_). wp_step. rewrite Ha. done.
    + intros e k' [Hr Hc]. wp_step. split; [done|]. unfold unstartable. tauto.
  - intros e Hu. wp_step. split; [by apply restored_same|]. right. by right.
Qed.

Lemma wp_spawn k (Q : () → Kernel → Prop) (E : string → Kernel → Prop) :
  (∀ k', descriptors k' = descriptors k → closed k' = closed k → answers k' `suffix_of` answers k → Q () k') →
  (∀ e k', restored k k' → refused k → E e k') → wp spawn Q E k.
Proof.
  intros Hok Hno. rewrite wp_unfold. unfold spawn. destruct (default None (head (answers k))) as [e|] eqn:He.
  - apply Hno; [by apply restored_same|]. by apply (refused_head k k e).
  - apply Hok; [done|done|]. by apply suffix_tail.
Qed.

(** Both lines are handed over, or what was opened is closed. *)
Lemma wp_openRedundant ip port_a port_b cpus k :
  wp (openRedundant host ip port_a port_b cpus)
    (λ l k', dest (fst l) = (default 0 (inet_pton host ip), port_a) ∧ dest (snd l) = (default 0 (inet_pton host ip), port_b) ∧
       ∃ k1 k2, opened (sender_fd (fst l)) newSocket k k1 ∧ descriptors k2 = descriptors k1 ∧ closed k2 = closed k1 ∧
         opened (sender_fd (snd l)) newSocket k2 k')
    (λ _ k', restored k k' ∧ (unstartable ip (fst <$> cpus) k ∨ unstartable ip (snd <$> cpus) k)) k.
Proof.
  unfold openRedundant. wp_step. apply wp_pinLine; [|intros e Hu; split; [by apply restored_same|left; right; by right]].
  wp_step. eapply wp_mono; [apply wp_openUdpSender| |].
  2:{ intros e k' [Hr Hc]. split; [done|]. left. unfold unstartable. tauto. }
  intros a k1 (address&Ha&Hda&Hoa&Hs1). wp_step. wp_step. apply wp_spawn.
  2:{ intros e k2 Hr Href. split; [by apply (close_sender a newSocket k k1)|]. left. left. by apply (refused_suffix k k1). }
  intros k2 Hd2 Hc2 Hs2. wp_step. eapply wp_mono; [apply wp_startWorker| |done].
  intros [e|b] k3; [intros [Hr Hc]|intros [Hdb Hob]]; wp_step.
  - split.
    + apply (close_sender a newSocket k k1); [done|]. destruct Hr as [Hr1 (fds&Hf)]. rewrite Hc2, Hd2 in Hf. rewrite Hd2 in Hr1.
      split; [done|]. by exists fds.
    + right. destruct Hc as [Hc|Hc]; [left|by right]. apply (refused_suffix k k1); [done|]. by apply (refused_suffix k1 k2).
  - cbn [fst snd]. rewrite Ha in *. split; [done|]. split; [done|]. by exists k1, k2.
Qed.

Definition noLines (o : Options) k : Prop :=
  refused k ∨ inet_pton host (ip o) = None ∨
  (redundant o = true ∧ (unpinned host (fst <$> cpus o) ∨ unpinned host (snd <$> cpus o))).

(** The destination of each line. *)
Definition aimed (o : Options) (l : Lines_) : Prop :=
  match l with
  | SingleLine a => redundant o = false ∧ dest a = (default 0 (inet_pton host (ip o)), port_a o)
  | RedundantLines a b => redundant o = true ∧
      dest a = (default 0 (inet_pton host (ip o)), port_a o) ∧ dest b = (default 0 (inet_pton host (ip o)), port_b o)
  end.

Lemma wp_openLines o k :
  wp (openLines host o)
    (λ l k', aimed o l ∧ restored k (closeLines l k'))
    (λ _ k', restored k k' ∧ noLines o k) k.
Proof.
  unfold openLines. wp_step; wp_step.
  - eapply wp_mono; [apply wp_openRedundant| |].
    + intros [a b] k' (Hda&Hdb&k1&k2&Hoa&Hd&Hc&Hob). wp_step. cbn [fst snd] in *. split; [done|]. cbn [closeLines].
      apply (close_sender a newSocket k k1); [done|].
      assert (restored k2 (closeUdpSender b k')) as [Hr1 (fds&Hf)] by (by apply (close_sender b newSocket k2 k' k'); [|apply restored_same]).
      rewrite Hd in Hr1, Hf. rewrite Hc in Hf. split; [done|]. by exists fds.
    + intros e k' [Hr Hu]. split; [done|]. unfold noLines, unstartable in *. tauto.
  - eapply wp_mono; [apply wp_openUdpSender| |].
    + intros a k' (address&Ha&Hd&Ho&_). wp_step. split; [split; [done|by rewrite Ha]|].
      cbn [closeLines]. by apply (close_sender a newSocket k k' k'); [|apply restored_same].
    + intros e k' [Hr Hu]. split; [done|]. unfold noLines. tauto.
Qed.

End lines.

(** ** The program *)

Section program.
Context (host : Host).

(** [run] is the transmission followed by the exit code. *)
Lemma run_transmission o file path w : Sender.run scaledDelay o file path w =
  ('(sent, x) ← transmission o file path w; inr (exitSuccess o x sent, x)).
Proof.
  unfold Sender.run, transmission. cbn zeta. destruct (ItchMoldUdpSource.isOpen _); cbn [negb]; [|done].
  destruct (startup o _) as [e|x1]; [done|]. cbn [mbind throw_bind]. by destruct (dataLoop _ _ _ _ _) as [e|x2].
Qed.

Lemma exit_complete (o : Options) x sent : exitSuccess o x sent = true → sent = true ∧ completion x sent = "complete"%string.
Proof.
  unfold exitSuccess, completion. cbn zeta. rewrite !andb_true_iff. intros (((((Hc&Hf)&Hs)&_)&_)&_).
  rewrite negb_true_iff in Hf. by rewrite Hc, Hf, Hs.
Qed.

(** The variable for the single line is set and cannot be honoured. *)
Definition unpinnable (o : Options) : Prop :=
  redundant o = false ∧ ∃ c rest, getenv host "ASTRA_CPU"%string = Some (c :: rest) ∧
    match parseCpuId (Some (c :: rest)) with None => True | Some cpu => CpuAffinity.applied (pin host cpu) = false end.

Lemma wp_pinSingle o k (Q : () → Kernel → Prop) (E : string → Kernel → Prop) :
  Q () k → (∀ e, unpinnable o → E e k) → wp (pinSingle host o) Q E k.
Proof.
  intros Hok Hno. unfold pinSingle. destruct (getenv host "ASTRA_CPU"%string) as [[|c rest]|] eqn:Eg; [by wp_step| |by wp_step].
  destruct (redundant o) eqn:Er; [by wp_step|]. unfold unpinnable in Hno. rewrite Er, Eg in Hno.
  destruct (parseCpuId (Some (c :: rest))) as [cpu|] eqn:Ep.
  - wp_step; wp_step; [done|]. apply Hno. split; [done|]. exists c, rest. by rewrite Ep.
  - wp_step. apply Hno. split; [done|]. exists c, rest. by rewrite Ep.
Qed.

(** The replay of the options [o]. *)
Definition replayed (o : Options) (w : World) : string + (bool * Sender.t) :=
  Sender.run scaledDelay o (readFile host (path o)) (EngineMain.text (path o)) w.

(** The result of the program against the replay. *)
Definition reports (o : Options) (w : World) (code : bool) (report : option EngineMain.Fields) : Prop :=
  match report with
  | None => code = false
  | Some f => ∃ sent x, replayed o w = inr (code, x) ∧ f = senderStats o x sent ∧
      (code = true → sent = true ∧ completion x sent = "complete"%string)
  end.

Lemma wp_session o w k :
  wp (session_ host o w)
    (λ r k', restored k k' ∧ reports o w r.1 r.2 ∧ (∀ x, replayed o w = inr (true, x) → r.1 = true))
    (λ _ k', restored k k' ∧ (noLines host o k ∨ unpinnable o ∨ ∃ e, replayed o w = inl e)) k.
Proof.
  unfold session_, replayed. wp_step. apply wp_pinSingle; [|intros e Hu; split; [by apply restored_same|by auto]]. cbn zeta.
  destruct (ItchMoldUdpSource.isOpen _) eqn:Eo; cbn [negb].
  2:{ wp_step. split; [by apply restored_same|]. split; [done|]. unfold Sender.run. cbn zeta. by rewrite Eo. }
  wp_step. eapply wp_mono; [apply wp_openLines| |intros e k' [? ?]; by auto]. intros l k1 [_ Hr].
  wp_step. wp_step. wp_step. rewrite run_transmission. destruct (transmission _ _ _ _) as [e|[sent x]] eqn:Et.
  - split; [done|]. right. right. by exists e.
  - wp_step. wp_step. wp_step. split; [done|]. cbn [fst snd mbind throw_bind]. split.
    + exists sent, x. unfold replayed. rewrite run_transmission, Et. split; [done|]. split; [done|]. apply exit_complete.
    + by intros y [= -> <-].
Qed.

(** C20. The sender as a program, whatever the kernel answers: [main]
    returns on every input, catches every exception, and leaves the descriptors as they
    were, every socket it opened having been closed once.  It exits with success only after
    a replay that succeeded, whose report says [complete] with the end of the session sent;
    a report it prints is the one of the replay; and a replay that would succeed ends in
    success unless a line could not be started (a refused call, an address that is not one,
    a CPU that cannot be pinned). *)
Theorem sender_main_exit argv w k :
  match main host argv w k with
  | (inl _, _) => False
  | (inr (code, report), k') => restored k k' ∧
      match parseOptions (parseDouble host) 1%Q (getenv host) argv with
      | inl _ => code = false ∧ report = None
      | inr o => reports o w code report ∧
          (∀ x, replayed o w = inr (true, x) → code = true ∨ noLines host o k ∨ unpinnable o)
      end
  end.
Proof.
  unfold main. destruct (parseOptions _ _ _ argv) as [e|o]; [by split; [apply restored_same|]|].
  unfold catching. pose proof (wp_session o w k) as H. rewrite wp_unfold in H.
  destruct (session_ host o w k) as [[e|[code report]] k']; cbn [mret Prog_ret]; destruct H as [Hr H]; (split; [done|]).
  - split; [done|]. intros x Hx. destruct H as [H|[H|[e' He]]]; [by auto|by auto|congruence].
  - destruct H as [H1 H2]. split; [done|]. intros x Hx. left. by apply (H2 x).
Qed.

End program.

(** ** An example *)

Definition sampleHost : Host := mkHost (λ _, None) (λ _, Some 2130706433) 8 (λ _, 0) (λ _, None) (λ _, None).
Definition sampleKernel (l : list (option string)) : Kernel := mkKernel ∅ l [] 0 [].

(** Two lines on two descriptors, in the order of their ports. *)
Example redundant_opens : match openRedundant sampleHost [] 5000 5001 (Some (2, 3)) (sampleKernel []) with
  | (inr (a, b), k) => a = mkSender (2130706433, 5000) 0 ∧ b = mkSender (2130706433, 5001) 1 ∧
      descriptors (closeLines (RedundantLines a b) k) = ∅ ∧ closed (closeLines (RedundantLines a b) k) = [1; 0]
  | (inl _, _) => False
  end.
Proof. vm_compute. by repeat split. Qed.

(** The socket of line B is refused: line A's is closed. *)
Example redundant_refused : openRedundant sampleHost [] 5000 5001 None (sampleKernel [None; None; Some "EMFILE"%string]) =
  (inl "line B sender startup failed: socket: EMFILE"%string, mkKernel ∅ [] [0] 0 []).
Proof. vm_compute. reflexivity. Qed.

End SenderMainProps.
